(* ===== verification/_CoqProject ===== *)
-Q . S2P
Prelude.v
Text.v
Domain.v
MemStore.v
World.v
Jobs.v
Artifacts.v
Files.v
Archive.v
BundleFacts.v
BuildTools.v
NextScript.v
NextSite.v
Workspace.v
WorkspaceFacts.v
SiteFacts.v
Scheduler.v
SchedulerFacts.v
Recovery.v
Secrets.v
Build.v
BuildFacts.v
Http.v
HttpApi.v
HttpPublic.v
HttpInv.v
HttpFacts.v
HttpStream.v
Tenancy.v
Coordinator.v
CoordinatorInv.v
System.v
CoordinatorFacts.v
Buses.v
BusFacts.v
BuildQueue.v
NetworkPool.v
NodeAgent.v
AgentLink.v
GuestScripts.v
NodeExec.v
Postgres.v
PgRefine.v
PgFacts.v
GuestProto.v
MicroVM.v
Snapshot.v
SnapshotFacts.v
SnapshotSound.v
GuestRunner.v
GuestFacts.v
Leadership.v
NatsBus.v
StackConfig.v
SecretsWire.v
Warmer.v
Metrics.v
Stack.v
S3.v
Smoke.v
Cli.v
