(* ===== verification/Prelude.v ===== *)
(** * Lecrev: a verification development of the serverless control plane

    The program (Go, [src/internal]) runs functions on hosts of several regions.
    Clients use an HTTP interface.  A deployment becomes a function version and a
    build job; the build service packs the source into an artifact and publishes
    the version.  An invocation becomes an execution job; the scheduler picks a
    region for it and records an attempt with a lease; the coordinator of the
    region reserves a slot on one of its hosts and sends the assignment; the
    node agent of the host runs it through a driver and reports back; the
    coordinator ends attempt and job, writes the cost record and starts a retry
    within the budget; the recovery loop ends attempts whose lease ran out.  All
    services share a metadata store and an object store; queues carry build jobs
    and assignments.

    ** Files and what they model

    Foundations
    - [Prelude]: Go integers, strings, errors, sorting and map iteration; the
      state and error monad [M] with its rules ([keeps], [preserves]); generic
      lemmas.
    - [Text]: UTF-8 (runes, [strings.ToValidUTF8], [strings.Map]) and JSON values.
    - [Domain]: the records of [internal/domain] and the messages of
      [proto/lecrev/region/v1/control.proto].
    - [MemStore]: every method of [internal/store/memory/store.go].
    - [Postgres]: [internal/store/postgres/store.go] and [migrations.go]: the
      tables with their keys and references, one statement per query, faults of
      the connection, transactions.
    - [PgRefine], [PgFacts]: the store interface as a type of calls
      ([StoreE]) with a handler for each store, and the guarantees of the second.
    - [World]: the state shared by the services: the store ([w_store]), the
      object stores by name ([w_objects]), the coordinators, the connections of
      the HTTP server ([w_conns]); the environment (clock, UUIDs, store faults,
      other writers, JSON and SHA-256).
    - [Jobs]: the invariant of execution jobs and the automation ([keep]) that
      carries it through handlers.
    - [Artifacts]: [internal/artifact/keys.go] and the in-memory object store.
    - [S3]: [internal/artifact/s3store.go], the other instance of the interface
      [ObjectStore].
    - [Files]: paths and directory trees with symbolic links, as far as the
      build code uses [path/filepath] and [os].

    Builds
    - [Archive], [BundleFacts]: [internal/artifact/bundle.go].
    - [BuildTools], [Workspace], [WorkspaceFacts]: the commands and the
      preparation of a git source in [internal/build/service.go].
    - [NextScript], [NextSite], [SiteFacts]: [internal/build/nextsite.go].
    - [Build], [BuildFacts]: the rest of [internal/build/service.go], and
      [internal/build/replicator.go].
    - [Warmer]: [internal/build/http_warmer.go].

    Queues
    - [Buses], [BusFacts], [BuildQueue]: [internal/dispatch/memory.go] as a
      transition system, [internal/build/memorybus.go] with the build service
      as its consumer.
    - [NatsBus]: [internal/dispatch/nats.go] and [internal/build/natsbus.go],
      publishers and consumers over one stream of a broker.

    HTTP interface ([internal/httpapi])
    - [Http], [HttpStream]: requests, replies and the streaming writer.
    - [HttpApi], [HttpPublic]: the handlers behind the API key, and the public
      function addresses, webhooks and websites.
    - [HttpFacts], [Tenancy], [HttpInv]: their guarantees.

    Execution
    - [Scheduler], [SchedulerFacts]: [internal/scheduler/service.go]; the class
      [DispatcherOk] is what the scheduler relies on in a region dispatcher,
      [PromptDispatcher] what the end of its loop relies on.
    - [Recovery]: [internal/recovery/service.go].
    - [Coordinator], [CoordinatorInv], [CoordinatorFacts]:
      [internal/coordinator/service.go]; the coordinator is an instance of
      [DispatcherOk].
    - [System]: all services as one transition system ([sys_step]).
    - [NetworkPool]: [internal/firecracker/microvm/network_pool.go].
    - [Secrets]: [internal/secrets] (resolver, memory provider, proxy handler)
      and [internal/regions/catalog.go].
    - [SecretsWire]: the client of the proxy, the transport inside a process
      ([internal/transport/inprocess.go]) and the caching provider
      ([internal/secrets/awssecrets.go]).
    - [NodeAgent]: [internal/nodeagent/service.go] over the driver interfaces of
      [internal/firecracker/driver.go].
    - [AgentLink]: the loops of the same file, and an agent composed with the
      coordinator in whose process it runs.
    - [GuestScripts], [NodeExec]: [internal/runtime/nodeexec] (runs in a process
      of their own and prepared workers), [internal/firecracker/localnode], the
      lines of [internal/timetrace].
    - [GuestProto]: [internal/firecracker/protocol.go]; [MicroVM], [Snapshot]:
      [internal/firecracker/microvm/driver.go] and [snapshot.go], over the file
      system, processes and tap leases of a host; [SnapshotFacts],
      [SnapshotSound]: their guarantees.
    - [GuestRunner], [GuestFacts]: [cmd/lecrev-guest-runner/main_linux.go], the
      program inside a virtual machine, and its agreement with the driver.

    Operation
    - [StackConfig]: the settings of [internal/devstack/devstack.go] and
      [split.go], and the checks of [internal/transport/mtls.go].
    - [Stack]: which connections, loops and keys the stacks of
      [internal/devstack] start with, and how they end.
    - [Metrics]: [internal/metrics/prometheus.go].
    - [Smoke], [Cli]: [internal/smoke/runner.go], a client that tests a running
      system, and [cmd/lecrev/main.go].
    - [Leadership]: [internal/leadership/postgres.go], processes that compete for
      an advisory lock.

    ** How the model corresponds to the code

    A struct is a record with the source's field names after a prefix; an
    operation is a definition with the source's name.  A method that runs under a
    mutex is one function of the state it guards.  A handler that makes several
    store calls is a sequence of [call]s, and between two of them the other
    writers act ([env_other]); faults of the store are an arbitrary sequence
    ([env_fault]).  Goroutines are recorded where the code starts them and their
    bodies are definitions of their own.  Iteration over a Go map follows an
    arbitrary permutation chosen per program point ([MapOrder]).  [int] is a
    64-bit integer; wrap-around is written out where the code can reach it
    ([int32_of], [int64_of], [uint32_of]).  Times are nanoseconds, the zero time
    being 0.  Logging and timing variables are left out.  JSON, base64, URL and
    archive formats, SHA-256, external commands (git, package managers) and the
    router's pattern matching are parameters, gathered in type classes
    ([GoEnv], [BuildEnv], [BuildTools], [Archives], [HttpEnv], [PayloadEnv],
    [NodeTools], [PgEnv], [VmEnv], [MetaJson], [GuestJson], [SecretsJson],
    [S3Service], [SmokeJson]).  The messages between the micro-VM driver and a
    guest are texts: each side encodes and decodes them with [GuestJson], and a
    theorem that needs a message to arrive says what arrives.

    ** What the theorems show

    - System: the invariant of jobs, versions and hosts holds in every reachable
      state of all services together, HTTP requests included
      ([system_invariant]), whatever agents report; the counters of hosts are
      non-negative only as far as agents report such ones, since the coordinator
      stores them unchecked; a run in which a success is lost ([lost_success]).
    - Store: claiming, requeueing and listing meet their specifications for every
      map order; when the composite idempotency keys are distinct and when they
      are not.  The Postgres store refines the in-memory store
      ([postgres_refines_memory]) on the calls both are written alike for
      ([comparable]) and up to the text of some errors ([agree_err]); a call that
      fails leaves the tables of before or those of the same call without faults;
      which documents are stored; migrations.
    - HTTP: who is let in and with which rights, the guard of function
      addresses, the refinement that shows a tenant only its own data
      ([api_reads_isolated]), what a client of a streamed response receives,
      project identifiers.
    - Builds: every build ends published or failed ([build_outcome]); which
      requests are accepted; deployments under an idempotency key; bundles pack
      and unpack the same files, unpacking stays below its destination, and the
      bundle of a workspace holds exactly its files unless links lead out of it;
      the build root, the static assets and the configuration of a website.
    - Object stores: without faults the S3 store is indistinguishable from the
      in-memory one ([s3_refines_memory]); when a reported missing object is
      missing.
    - Queues: the dispatch bus loses no assignment while it is open; what the
      build consumer does with its queue, and that one failed build stops it; a
      stored message of the NATS buses is handled without an error, still there
      or too old ([nats_at_least_once]).
    - Scheduler: idempotent dispatch, quota, ranking; the loop ends when every
      job can be placed, and does not when one cannot.
    - Recovery: what a pass does to every attempt and job, and to the rest of the
      store ([recovery_pass_spec]).
    - Coordinator: host choice and reservation, its exact restoration, the effect
      of final updates, billing, direct invocations, region statistics; leaks
      and revivals of ended jobs as concrete consequences of the handlers.
    - Tap pool: exclusive leases; disjoint address plans, and the wrap-around
      that breaks them.
    - Secrets: least privilege, proxy token, region normalization; the proxy
      answers as the resolver does ([proxy_transparent]); a cached secret is not
      older than its time to live.
    - Node agent: slot bounds, result limits, the panic on secrets without
      environment variables; the updates of a run and their order, and which runs
      panic without a final one ([agent_update_protocol]).  With its coordinator:
      when nothing else touches its records, the stored job ends as the execution
      on the host ended ([embedded_execution_settles]).
    - Guest runtime: what a run reports, how often a prepared worker is asked and
      when it is given up; a streamed response that is delivered twice.
    - Micro-VM driver: when an execution has returned, its processes and leases
      have been given back and the removal of its directory was tried, whatever
      failed; which machines have a network; every published snapshot agrees with
      its metadata ([snapshots_sound]); how often a guest gets an invocation, and
      that it gets none after an answer ([guest_attempts]).
    - Guest runner: the port it finds, what preparing a guest leaves behind, and
      what the driver returns for an invocation the guest ran, through the
      encodings of both sides ([vm_invocation]).
    - Leadership: at most one running task with a live session
      ([leader_exclusive]).
    - Operation: accepted settings are complete and stable ([prepared_config]);
      stacks close what they open and store a usable administrator's key
      ([stacks_release]); when they and their restarted loops end; the samples of
      the metrics; when a warm preparation succeeds; a smoke test ends with its
      context and reports only what it has seen.

    ** Fuel and bounds

    [schedulePending] takes fuel and returns [None] without enough of it; the
    termination theorem gives the fuel that suffices (pending jobs plus one), and
    the livelock theorem shows that no fuel does.  [ConsumeBuild] takes one turn
    more than there are queued jobs; [RunSmoke] needs one turn more than there
    are ticks until its context ends.  Waiting loops ([acquire], [directWait],
    [waitForExecutionJob], [waitForFile], [guestRetry], [serve],
    [waitForWarmReady], [runRestartingLoop], [awaitStack], [heartbeatTurns],
    [receiveLoop]) take the list of what happens while they wait, of any length.  A path
    is resolved through at most 40 links, as on Linux.  Every other definition
    is total.  For an exchange with a guest over its socket that is a limit of
    the model: the driver reads without a deadline, and an exchange that never
    ends is not one of the results considered.

    ** Not modelled

    The generation of development certificates ([transport/mtls.go]), gRPC
    listening and dialling, the routing between the secrets proxy and the HTTP
    interface, signals and flag parsing.  Of what a stack opens, the Postgres
    pools (the leadership's own one included) and the bus connections are
    tracked; listeners and the HTTP server are not.  The stacks' passing of services to one another is not state
    of the model.  The JavaScript of the guest scripts and of the website handler
    is text; the processes that run it are parameters. *)

From Stdlib Require Import ZArith Ascii.
From stdpp Require Import base decidable tactics numbers list gmap strings sorting pretty.

(** ** Machine integers

    Go's [int] is 64 bits wide on every supported target; the wire messages
    carry [int32] and the tap-pool arithmetic is done on [uint32]. *)

Definition wrap_signed (bits z : Z) : Z :=
  ((z + 2 ^ (bits - 1)) mod 2 ^ bits - 2 ^ (bits - 1))%Z.

Definition int32_of (z : Z) : Z := wrap_signed 32 z.
Definition int64_of (z : Z) : Z := wrap_signed 64 z.
Definition uint32_of (z : Z) : Z := (z mod 2 ^ 32)%Z.

Lemma wrap_signed_id bits z :
  (0 < bits)%Z → (- 2 ^ (bits - 1) ≤ z < 2 ^ (bits - 1))%Z → wrap_signed bits z = z.
Proof.
  intros Hb Hz. unfold wrap_signed.
  assert (2 ^ bits = 2 * 2 ^ (bits - 1))%Z as E.
  { rewrite <- Z.pow_succ_r by lia. f_equal. lia. }
  rewrite Z.mod_small; lia.
Qed.

Lemma int32_of_id z : (- 2 ^ 31 ≤ z < 2 ^ 31)%Z → int32_of z = z.
Proof. intros. by apply wrap_signed_id. Qed.

Lemma int64_of_id z : (- 2 ^ 63 ≤ z < 2 ^ 63)%Z → int64_of z = z.
Proof. intros. by apply wrap_signed_id. Qed.

(** ** Strings

    Go strings are byte strings.  [strings.TrimSpace] removes the runes with
    the Unicode White_Space property; the UTF-8 encodings of the multi-byte
    ones are written out, so that the functions are exact on bytes. *)

Definition byte_eqb (a : ascii) (n : N) : bool := N.eqb (N_of_ascii a) n.

(** One-byte white space: U+0009..U+000D and U+0020. *)
Definition space1 (a : ascii) : bool :=
  let n := N_of_ascii a in
  ((9 <=? n)%N && (n <=? 13)%N) || (n =? 32)%N.

(** Two-byte white space: U+0085 and U+00A0. *)
Definition space2 (a b : ascii) : bool :=
  byte_eqb a 194 && (byte_eqb b 133 || byte_eqb b 160).

(** Three-byte white space: U+1680, U+2000..U+200A, U+2028, U+2029, U+202F,
    U+205F and U+3000. *)
Definition space3 (a b c : ascii) : bool :=
  let z := N_of_ascii c in
  (byte_eqb a 225 && byte_eqb b 154 && (z =? 128)%N) ||
  (byte_eqb a 226 && byte_eqb b 128 &&
     (((128 <=? z)%N && (z <=? 138)%N) || (z =? 168)%N || (z =? 169)%N || (z =? 175)%N)) ||
  (byte_eqb a 226 && byte_eqb b 129 && (z =? 159)%N) ||
  (byte_eqb a 227 && byte_eqb b 128 && (z =? 128)%N).

Section TrimBytes.
Context (sp1 : ascii → bool) (sp2 : ascii → ascii → bool) (sp3 : ascii → ascii → ascii → bool).

Fixpoint trim_front (s : string) : string :=
  match s with
  | EmptyString => EmptyString
  | String a s1 =>
      if sp1 a then trim_front s1 else
      match s1 with
      | EmptyString => s
      | String b s2 =>
          if sp2 a b then trim_front s2 else
          match s2 with
          | EmptyString => s
          | String c s3 => if sp3 a b c then trim_front s3 else s
          end
      end
  end.

End TrimBytes.

Definition TrimLeftSpace : string → string := trim_front space1 space2 space3.
Definition TrimRightSpace (s : string) : string :=
  String.rev (trim_front space1 (λ a b, space2 b a) (λ a b c, space3 c b a) (String.rev s)).
Definition TrimSpace (s : string) : string := TrimRightSpace (TrimLeftSpace s).

(** [strings.TrimSpace(s) == ""], the guard used throughout the code. *)
Definition blank (s : string) : bool := bool_decide (TrimSpace s = EmptyString).

Fixpoint HasPrefix (s pre : string) {struct pre} : bool :=
  match pre, s with
  | EmptyString, _ => true
  | String _ _, EmptyString => false
  | String a pre', String b s' => Ascii.eqb a b && HasPrefix s' pre'
  end.

Fixpoint TrimPrefix_go (s pre : string) {struct pre} : option string :=
  match pre, s with
  | EmptyString, _ => Some s
  | String _ _, EmptyString => None
  | String a pre', String b s' => if Ascii.eqb a b then TrimPrefix_go s' pre' else None
  end.
Definition TrimPrefix (s pre : string) : string :=
  match TrimPrefix_go s pre with Some r => r | None => s end.

Fixpoint Contains (s sub : string) : bool :=
  HasPrefix s sub ||
  match s with EmptyString => false | String _ s' => Contains s' sub end.

(** [strings.Split] by one byte: always at least one part. *)
Fixpoint Split (s : string) (sep : ascii) : list string :=
  match s with
  | EmptyString => [EmptyString]
  | String a s' =>
      if Ascii.eqb a sep then EmptyString :: Split s' sep
      else match Split s' sep with
           | [] => [String a EmptyString]
           | p :: ps => String a p :: ps
           end
  end.

Fixpoint Join (l : list string) (sep : string) : string :=
  match l with
  | [] => EmptyString
  | [x] => x
  | x :: l' => x +:+ sep +:+ Join l' sep
  end.

Definition ascii_lower (a : ascii) : ascii :=
  let n := N_of_ascii a in
  if (65 <=? n)%N && (n <=? 90)%N then ascii_of_N (n + 32) else a.
Fixpoint string_map (f : ascii → ascii) (s : string) : string :=
  match s with EmptyString => EmptyString | String a s' => String (f a) (string_map f s') end.
Definition ToLowerASCII : string → string := string_map ascii_lower.

(** [strings.EqualFold] against an ASCII literal without [k] or [s] (the two
    letters whose Unicode fold orbit leaves ASCII). *)
Definition EqualFoldASCII (s lit : string) : bool :=
  bool_decide (ToLowerASCII s = ToLowerASCII lit).

(** [strings.EqualFold] against an ASCII literal: besides the other case of an
    ASCII letter, the long s (U+017F) folds to [s] and the Kelvin sign (U+212A)
    to [k]. *)
Fixpoint fold_orbit (s : string) : string :=
  match s with
  | String a ((String b r) as s') =>
      if byte_eqb a 197 && byte_eqb b 191 then String "s"%char (fold_orbit r)
      else match r with
           | String c r' =>
               if byte_eqb a 226 && byte_eqb b 132 && byte_eqb c 170
               then String "k"%char (fold_orbit r') else String a (fold_orbit s')
           | EmptyString => String a (fold_orbit s')
           end
  | _ => s
  end.
Definition EqualFold (s lit : string) : bool :=
  bool_decide (ToLowerASCII (fold_orbit s) = ToLowerASCII lit).

(** Bytewise [<] on strings. *)
Definition string_ltb (s t : string) : bool :=
  match String.compare s t with Lt => true | _ => false end.

(** [%d] *)
Definition itoa (z : Z) : string := pretty z.

(** [%q] on ASCII text: the quotes and the backslash are escaped, control
    bytes are written as Go writes them, other bytes are kept. *)
Definition hex_digit (n : N) : ascii :=
  ascii_of_N (if (n <? 10)%N then n + 48 else n + 87)%N.
Definition quote_byte (a : ascii) : string :=
  let n := N_of_ascii a in
  let esc c := String (ascii_of_N 92) (String (ascii_of_N c) EmptyString) in
  if (n =? 34)%N || (n =? 92)%N then esc n
  else if (n =? 7)%N then esc 97%N
  else if (n =? 8)%N then esc 98%N
  else if (n =? 12)%N then esc 102%N
  else if (n =? 10)%N then esc 110%N
  else if (n =? 13)%N then esc 114%N
  else if (n =? 9)%N then esc 116%N
  else if (n =? 11)%N then esc 118%N
  else if (n <? 32)%N || (n =? 127)%N then
    String (ascii_of_N 92) (String "x"%char
      (String (hex_digit (n / 16)) (String (hex_digit (n mod 16)) EmptyString)))
  else String a EmptyString.
Fixpoint quote_bytes (s : string) : string :=
  match s with EmptyString => EmptyString | String a s' => quote_byte a +:+ quote_bytes s' end.
Definition dquote : string := String (ascii_of_N 34) EmptyString.
Definition quote (s : string) : string := dquote +:+ quote_bytes s +:+ dquote.

(** ** Errors

    A Go error is the list of sentinel values [errors.Is] finds along its
    [Unwrap] chain, with the text [Error()] returns. *)

Inductive Sentinel :=
| ErrAlreadyExists
| ErrNotFound
| ErrAccessDenied
| ErrIdempotencyConflict
| ErrIdempotencyInProgress
| ErrFunctionVersionNotReady
| ErrProjectBuildQuota
| ErrProjectExecutionQuota
| ErrNoExecutionCapacity
| ErrDirectInvokeUnavailable
| ErrBuildLogsNotReady
| ErrExecutionResultNotReady
| ContextCanceled
| ContextDeadlineExceeded
| ArtifactErrNotFound
| OsErrNotExist
| ErrPreparedWorkerUnavailable
| HttpErrServerClosed.

#[export] Instance Sentinel_eq_dec : EqDecision Sentinel.
Proof. solve_decision. Defined.

Definition sentinel_text (s : Sentinel) : string :=
  match s with
  | ErrAlreadyExists => "record already exists"
  | ErrNotFound => "record not found"
  | ErrAccessDenied => "access denied"
  | ErrIdempotencyConflict => "idempotency key reused with different request"
  | ErrIdempotencyInProgress => "idempotent request already in progress"
  | ErrFunctionVersionNotReady => "function version not ready"
  | ErrProjectBuildQuota => "project build quota exceeded"
  | ErrProjectExecutionQuota => "project execution quota exceeded"
  | ErrNoExecutionCapacity => "no execution capacity available"
  | ErrDirectInvokeUnavailable => "direct invoke unavailable"
  | ErrBuildLogsNotReady => "build logs not ready"
  | ErrExecutionResultNotReady => "execution result not ready"
  | ContextCanceled => "context canceled"
  | ContextDeadlineExceeded => "context deadline exceeded"
  | ArtifactErrNotFound => "artifact not found"
  | OsErrNotExist => "file does not exist"
  | ErrPreparedWorkerUnavailable => "prepared worker unavailable"
  | HttpErrServerClosed => "http: Server closed"
  end.

Record GoError := mkError { err_is : list Sentinel; Error : string }.

#[export] Instance GoError_eq_dec : EqDecision GoError.
Proof. solve_decision. Defined.

(** The sentinel itself, [fmt.Errorf("%w: ...", s, ...)], and an error that
    wraps nothing. *)
Definition sentinel (s : Sentinel) : GoError := mkError [s] (sentinel_text s).
Definition wrapErr (s : Sentinel) (rest : string) : GoError :=
  mkError [s] (sentinel_text s +:+ rest).
Definition plainErr (msg : string) : GoError := mkError [] msg.

(** [fmt.Errorf(pre + "%w" + post, err)] *)
Definition wrapText (pre : string) (e : GoError) (post : string) : GoError :=
  mkError (err_is e) (pre +:+ Error e +:+ post).

Definition errors_Is (e : GoError) (s : Sentinel) : bool := bool_decide (s ∈ err_is e).

Inductive result (A : Type) := Ok (a : A) | Err (e : GoError).
Arguments Ok {A} a.
Arguments Err {A} e.

#[export] Instance result_eq_dec {A} `{!EqDecision A} : EqDecision (result A).
Proof. solve_decision. Defined.

Definition is_ok {A} (r : result A) : bool := match r with Ok _ => true | Err _ => false end.

#[export] Instance result_ret : MRet result := λ A a, Ok a.
#[export] Instance result_bind : MBind result := λ A B f r,
  match r with Ok a => f a | Err e => Err e end.

(** ** Effects

    A method that reads and changes shared state and may return an error is a
    function of the state; a failing method keeps the changes it made. *)

Definition M (W A : Type) : Type := W → result A * W.

#[export] Instance M_ret {W} : MRet (M W) := λ A a w, (Ok a, w).
#[export] Instance M_bind {W} : MBind (M W) := λ A B f m w,
  match m w with
  | (Ok a, w') => f a w'
  | (Err e, w') => (Err e, w')
  end.

Definition fail {W A} (e : GoError) : M W A := λ w, (Err e, w).
(** The call whose error the caller inspects ([x, err := ...]). *)
Definition try {W A} (m : M W A) : M W (result A) := λ w, let '(r, w') := m w in (Ok r, w').
Definition gets {W A} (f : W → A) : M W A := λ w, (Ok (f w), w).
Definition modify {W} (f : W → W) : M W unit := λ w, (Ok tt, f w).
Definition lift {W A} (r : result A) : M W A := λ w, (r, w).

(** [for _, x := range l { ... }] whose body may return early with an error. *)
Fixpoint for_each {W A} (l : list A) (body : A → M W unit) : M W unit :=
  match l with
  | [] => mret tt
  | x :: l' => body x ≫= λ _, for_each l' body
  end.

(** ** Program logic

    [hoare P m Q]: from a state with [P] the method ends with [Q].
    [keeps I V m]: the method preserves the invariant [I] whether or not it
    fails, and a value it returns satisfies [V]. *)

Definition hoare {W A} (P : W → Prop) (m : M W A) (Q : result A → W → Prop) : Prop :=
  ∀ w, P w → Q (m w).1 (m w).2.

Definition keeps {W A} (I : W → Prop) (V : A → Prop) (m : M W A) : Prop :=
  ∀ w, I w → I (m w).2 ∧ ∀ a, (m w).1 = Ok a → V a.

Abbreviation preserves I m := (keeps I (λ _, True) m).

Section Logic.
Context {W : Type} (I : W → Prop).
Implicit Types A B : Type.

Lemma keeps_ret A (V : A → Prop) (a : A) : V a → keeps I V (mret a).
Proof. intros Ha w Hw. split; [done|]. intros ? [=<-]. done. Qed.

Lemma keeps_fail A (V : A → Prop) e : keeps I V (fail e).
Proof. intros w Hw. split; [done|]. intros ? [=]. Qed.

Lemma keeps_bind A B (V : A → Prop) (U : B → Prop) (m : M W A) (f : A → M W B) :
  keeps I V m → (∀ a, V a → keeps I U (f a)) → keeps I U (m ≫= f).
Proof.
  intros Hm Hf w Hw. destruct (Hm w Hw) as [Hw' Ha].
  unfold mbind, M_bind. destruct (m w) as [[a|e] w']; simpl in *.
  - by apply Hf; [apply Ha|].
  - split; [done|]. intros ? [=].
Qed.

Lemma keeps_try A (V : A → Prop) (m : M W A) :
  keeps I V m → keeps I (λ r, ∀ a, r = Ok a → V a) (try m).
Proof.
  intros Hm w Hw. destruct (Hm w Hw) as [Hw' Ha].
  unfold try. destruct (m w) as [r w']; simpl in *. split; [done|].
  intros r' [= <-]. exact Ha.
Qed.

Lemma keeps_gets A (V : A → Prop) (f : W → A) :
  (∀ w, I w → V (f w)) → keeps I V (gets f).
Proof. intros Hf w Hw. split; [done|]. intros ? [= <-]. by apply Hf. Qed.

Lemma keeps_modify (V : unit → Prop) (f : W → W) :
  V tt → (∀ w, I w → I (f w)) → keeps I V (modify f).
Proof. intros HV Hf w Hw. split; [by apply Hf|]. by intros []. Qed.

Lemma keeps_lift A (V : A → Prop) (r : result A) :
  (∀ a, r = Ok a → V a) → keeps I V (lift r).
Proof. intros Hr w Hw. done. Qed.

Lemma keeps_mono A (V U : A → Prop) (m : M W A) :
  keeps I V m → (∀ a, V a → U a) → keeps I U m.
Proof. intros Hm Hi w Hw. destruct (Hm w Hw); split; eauto. Qed.

Lemma keeps_for_each A (l : list A) (body : A → M W unit) (V : unit → Prop) :
  V tt → (∀ x, x ∈ l → preserves I (body x)) → keeps I V (for_each l body).
Proof.
  intros HV. induction l as [|x l IH]; intros Hb; simpl.
  - by apply keeps_ret.
  - eapply keeps_bind; [apply Hb; left|]. intros _ _. apply IH.
    intros y Hy. apply Hb. by right.
Qed.

End Logic.

(** ** Running code on a state *)

Lemma M_bind_eq {W A B} (m : M W A) (f : A → M W B) w :
  (m ≫= f) w = match m w with (Ok a, w') => f a w' | (Err e, w') => (Err e, w') end.
Proof. done. Qed.

Lemma run_bind {W A B} (m : M W A) (f : A → M W B) w a w' :
  m w = (Ok a, w') → (m ≫= f) w = f a w'.
Proof. intros E. unfold mbind, M_bind. by rewrite E. Qed.

Lemma run_bind_err {W A B} (m : M W A) (f : A → M W B) w e w' :
  m w = (Err e, w') → (m ≫= f) w = (Err e, w').
Proof. intros E. unfold mbind, M_bind. by rewrite E. Qed.

Lemma run_try {W A} (m : M W A) w r w' : m w = (r, w') → try m w = (Ok r, w').
Proof. intros E. unfold try. by rewrite E. Qed.

(** ** Field assignment

    [r <| f := v |>] is the Go statement [r.f = v] on a copy of [r].  A record
    type declares how it is rebuilt from its fields ([Rebuild]); the setter of
    a field is found by abstracting the field's projection in that term. *)

Class Rebuild (R : Type) := rebuild : R → R.
Class FieldSet {R E : Type} (p : R → E) := field_set : (E → E) → R → R.
Arguments field_set {R E} p {_} f r /.

Ltac solve_field_set :=
  match goal with
  | |- @FieldSet ?R ?E ?p =>
      let body := eval hnf in (@rebuild R _) in
      match (eval pattern p in body) with
      | ?g _ =>
          let t := eval cbv beta in (λ (f : E → E) (r : R), g (λ x, f (p x)) r) in
          exact t
      end
  end.

#[export] Hint Extern 0 (FieldSet _) => solve_field_set : typeclass_instances.

Declare Scope go_scope.
Delimit Scope go_scope with go.
Notation "r <| p := v |>" := (field_set p (λ _, v) r)
  (at level 1, left associativity, p at level 0, v at level 99,
   format "r <| p  :=  v |>") : go_scope.
#[global] Open Scope go_scope.

(** ** Time

    [time.Time] is a number of nanoseconds, the zero value being [0];
    [time.Duration] is a 64-bit number of nanoseconds and [Sub] saturates. *)

Abbreviation Time := Z (only parsing).
Abbreviation Duration := Z (only parsing).

Definition Millisecond : Duration := 1000000%Z.
Definition Second : Duration := (1000 * Millisecond)%Z.
Definition IsZero (t : Time) : bool := (t =? 0)%Z.
Definition minDuration : Duration := (- 2 ^ 63)%Z.
Definition maxDuration : Duration := (2 ^ 63 - 1)%Z.
Definition Sub (t u : Time) : Duration := Z.max minDuration (Z.min maxDuration (t - u))%Z.
(** [Duration.Milliseconds] truncates towards zero. *)
Definition Milliseconds (d : Duration) : Z := Z.quot d Millisecond.

(** ** Stable sorting

    [sort.SliceStable(l, less)] for a strict weak order [less]: the result is
    the unique stable rearrangement, computed here by insertion. *)

Section Sorting.
Context {A : Type} (less : A → A → bool).

Fixpoint insert_stable (x : A) (l : list A) : list A :=
  match l with
  | [] => [x]
  | y :: l' => if less y x then y :: insert_stable x l' else x :: y :: l'
  end.

Fixpoint SliceStable (l : list A) : list A :=
  match l with
  | [] => []
  | x :: l' => insert_stable x (SliceStable l')
  end.

(** [x] does not have to come after [y]. *)
Definition not_after (x y : A) : Prop := less y x = false.

Class StrictWeakOrder := {
  swo_irrefl x : less x x = false;
  swo_asym x y : less x y = true → less y x = false;
  swo_cotrans x y z : less x z = true → less x y = true ∨ less y z = true;
}.

Lemma insert_stable_perm x l : insert_stable x l ≡ₚ x :: l.
Proof.
  induction l as [|y l IH]; simpl; [done|]. destruct (less y x); [|done].
  rewrite IH. by constructor.
Qed.

Lemma SliceStable_perm l : SliceStable l ≡ₚ l.
Proof. induction l as [|x l IH]; simpl; [done|]. by rewrite insert_stable_perm, IH. Qed.

Lemma elem_of_SliceStable x l : x ∈ SliceStable l ↔ x ∈ l.
Proof. by rewrite SliceStable_perm. Qed.

Lemma length_SliceStable l : length (SliceStable l) = length l.
Proof. by rewrite SliceStable_perm. Qed.

Context `{!StrictWeakOrder}.

Lemma not_after_trans x y z : not_after x y → not_after y z → not_after x z.
Proof.
  unfold not_after. intros Hxy Hyz. destruct (less z x) eqn:E; [|done].
  destruct (swo_cotrans z y x E); congruence.
Qed.

Lemma insert_stable_sorted x l :
  StronglySorted not_after l → StronglySorted not_after (insert_stable x l).
Proof.
  induction 1 as [|y l Hs IH Hf]; simpl; [repeat constructor|].
  destruct (less y x) eqn:E.
  - constructor; [done|]. rewrite insert_stable_perm. constructor; [|done].
    by apply swo_asym.
  - constructor; [by constructor|]. constructor; [done|].
    eapply Forall_impl; [exact Hf|]. intros z Hz. by eapply not_after_trans.
Qed.

Lemma SliceStable_sorted l : StronglySorted not_after (SliceStable l).
Proof. induction l; simpl; [constructor|]. by apply insert_stable_sorted. Qed.

(** The first element of the sorted slice comes after no other element. *)
Lemma SliceStable_head_min x l l' y :
  SliceStable l = x :: l' → y ∈ l → less y x = false.
Proof.
  intros E Hy. pose proof (SliceStable_sorted l) as Hs. rewrite E in Hs.
  apply StronglySorted_inv in Hs as [_ Hf].
  rewrite <- elem_of_SliceStable, E in Hy.
  apply elem_of_cons in Hy as [->|Hy]; [apply swo_irrefl|].
  rewrite Forall_forall in Hf. by apply Hf.
Qed.

Lemma SliceStable_nil_iff l : SliceStable l = [] ↔ l = [].
Proof.
  split; [|by intros ->]. intros E.
  apply Permutation_nil. by rewrite <- E, SliceStable_perm.
Qed.

End Sorting.

Arguments StrictWeakOrder {A} less.

(** When equivalent elements are equal, sorting does not depend on the order
    of the input: the result is a function of the multiset. *)
Lemma SliceStable_perm_eq {A} (less : A → A → bool) `{!StrictWeakOrder less} (l l' : list A) :
  (∀ x y, x ∈ l → y ∈ l → less x y = false → less y x = false → x = y) →
  l ≡ₚ l' → SliceStable less l = SliceStable less l'.
Proof.
  intros Hd Hp.
  assert (SliceStable less l ≡ₚ SliceStable less l') as Hp'
    by (by rewrite !SliceStable_perm).
  pose proof (SliceStable_sorted less l) as H1.
  pose proof (SliceStable_sorted less l') as H2.
  assert (∀ x y, x ∈ SliceStable less l → y ∈ SliceStable less l →
    less x y = false → less y x = false → x = y) as Hd'.
  { intros x y. rewrite !elem_of_SliceStable. apply Hd. }
  clear Hp Hd. revert H1 H2 Hp' Hd'.
  generalize (SliceStable less l'), (SliceStable less l). clear l l'.
  intros l2 l1 H1. revert l2. induction H1 as [|x l1 Hs IH Hf]; intros l2 H2 Hp Hd.
  - by apply Permutation_nil in Hp.
  - destruct H2 as [|y l2 Hs2 Hf2]; [by symmetry in Hp; apply Permutation_nil_cons in Hp|].
    assert (x = y) as <-.
    { assert (x ∈ y :: l2) as [->|Hx2]%elem_of_cons by (rewrite <- Hp; left); [done|].
      assert (y ∈ x :: l1) as [->|Hy1]%elem_of_cons by (rewrite Hp; left); [done|].
      rewrite Forall_forall in Hf, Hf2.
      apply Hd; [left|by right|by apply Hf2|by apply Hf]. }
    f_equal. apply IH; [done|by eapply Permutation.Permutation_cons_inv|].
    intros a b ??. apply Hd; by right.
Qed.

(** ** Maps

    [range] over a Go map visits the entries in an unspecified order, which
    may differ from one loop to the next; [site] tells the loops apart. *)

Class MapOrder := {
  map_iter (site : nat) {A : Type} : gmap string A → list (string * A);
  map_iter_perm site A (m : gmap string A) : map_iter site m ≡ₚ map_to_list m;
}.

(** The order used to evaluate concrete runs. *)
Definition list_order : MapOrder := {|
  map_iter _ A m := map_to_list m;
  map_iter_perm _ A m := Permutation_refl (map_to_list m);
|}.

(** The opposite order: nothing proved below may depend on the choice. *)
Definition rev_order : MapOrder := {|
  map_iter _ A m := reverse (map_to_list m);
  map_iter_perm _ A m := reverse_Permutation (map_to_list m);
|}.

Section MapOrderLemmas.
Context `{!MapOrder} {A : Type}.
Implicit Types m : gmap string A.

Lemma elem_of_map_iter site m k x : (k, x) ∈ map_iter site m ↔ m !! k = Some x.
Proof. by rewrite map_iter_perm, elem_of_map_to_list. Qed.

Lemma NoDup_map_iter_fst site m : NoDup (map_iter site m).*1.
Proof. rewrite map_iter_perm. apply NoDup_fst_map_to_list. Qed.

Lemma NoDup_map_iter site m : NoDup (map_iter site m).
Proof. rewrite map_iter_perm. apply NoDup_map_to_list. Qed.

Lemma map_iter_nil_iff site m : map_iter site m = [] ↔ m = ∅.
Proof.
  rewrite <- map_to_list_empty_iff. pose proof (map_iter_perm site A m) as Hp.
  split; intros E; rewrite E in Hp; [by apply Permutation_nil in Hp|].
  by apply Permutation_sym, Permutation_nil in Hp.
Qed.

End MapOrderLemmas.

(** A loop over a map that only adds up contributions of the entries does not
    depend on the iteration order. *)
Definition sum_list_with_Z {A} (f : A → Z) (l : list A) : Z := foldr (λ x acc, (f x + acc)%Z) 0%Z l.

Lemma sum_list_with_Z_perm {A} (f : A → Z) (l l' : list A) :
  l ≡ₚ l' → sum_list_with_Z f l = sum_list_with_Z f l'.
Proof. induction 1; simpl; lia. Qed.

#[export] Instance sum_list_with_Z_proper {A} (f : A → Z) :
  Proper ((≡ₚ) ==> (=)) (sum_list_with_Z f).
Proof. intros l l'. apply sum_list_with_Z_perm. Qed.

(** A missing key reads as the zero value of the element type. *)
Definition map_get0 (m : gmap string Z) (k : string) : Z := default 0%Z (m !! k).
Definition map_getS (m : gmap string string) (k : string) : string := default "" (m !! k).

(** [count] of a loop that increments a counter for the entries with [p]. *)
Definition count_map {A} (p : A → bool) (m : gmap string A) : Z :=
  Z.of_nat (length (filter (λ kx, p kx.2 = true) (map_to_list m))).

Section CountMap.
Context {A : Type} (p : A → bool).
Implicit Types m : gmap string A.

Lemma count_map_insert m k x :
  count_map p (<[k := x]> m) =
  (count_map p m + (if p x then 1 else 0) -
     match m !! k with Some y => if p y then 1 else 0 | None => 0 end)%Z.
Proof.
  unfold count_map. destruct (m !! k) as [y|] eqn:Ek.
  - rewrite <- (insert_delete_id m k y Ek) at 2. rewrite <- insert_delete_eq.
    rewrite !map_to_list_insert by apply lookup_delete_eq.
    rewrite !filter_cons. simpl. destruct (p x), (p y); simpl; lia.
  - rewrite map_to_list_insert by done. rewrite filter_cons. simpl. destruct (p x); simpl; lia.
Qed.

Lemma count_map_insert_le m k x : (count_map p (<[k := x]> m) ≤ count_map p m + 1)%Z.
Proof. rewrite count_map_insert. destruct (p x), (m !! k) as [y|]; try destruct (p y); lia. Qed.

Lemma count_map_nonneg m : (0 ≤ count_map p m)%Z.
Proof. unfold count_map. lia. Qed.

Lemma count_map_zero m : (∀ k x, m !! k = Some x → p x = false) → count_map p m = 0%Z.
Proof.
  intros H. unfold count_map. assert (filter (λ kx, p kx.2 = true) (map_to_list m) = []) as ->; [|done].
  destruct (filter _ _) as [|[k x] l] eqn:Ef; [done|].
  assert ((k, x) ∈ filter (λ kx, p kx.2 = true) (map_to_list m)) as Hin by (rewrite Ef; left).
  apply list_elem_of_filter in Hin as [Hp Hin]. apply elem_of_map_to_list in Hin.
  simpl in Hp. rewrite (H _ _ Hin) in Hp. done.
Qed.

End CountMap.

(** ** Lemmas on strings *)

Lemma string_ltb_irrefl s : string_ltb s s = false.
Proof.
  unfold string_ltb. assert (String.compare s s = Eq) as ->; [|done].
  induction s as [|a s IH]; simpl; [done|]. unfold Ascii.compare. by rewrite N.compare_refl.
Qed.

Lemma string_ltb_leb s t : string_ltb s t = negb (String.leb t s).
Proof.
  unfold string_ltb, String.leb. rewrite (String.compare_antisym t s).
  by destruct (String.compare s t).
Qed.

Lemma string_ltb_asym s t : string_ltb s t = true → string_ltb t s = false.
Proof.
  rewrite !string_ltb_leb. intros H. apply negb_true_iff in H.
  destruct (String.leb_total s t) as [E|E]; rewrite E in *; [done|congruence].
Qed.

Lemma string_ltb_total s t : string_ltb s t = false → string_ltb t s = false → s = t.
Proof.
  rewrite !string_ltb_leb, !negb_false_iff. intros. by apply String.leb_antisym.
Qed.

Lemma string_ltb_cotrans s t u :
  string_ltb s u = true → string_ltb s t = true ∨ string_ltb t u = true.
Proof.
  rewrite !string_ltb_leb, !negb_true_iff. intros H.
  destruct (String.leb t s) eqn:E1, (String.leb u t) eqn:E2; try by (left + right).
  assert (String.le u s) as Hle.
  { etrans; [|apply Is_true_true; exact E1]. by apply Is_true_true. }
  apply Is_true_true in Hle. congruence.
Qed.

#[export] Instance string_ltb_swo : StrictWeakOrder string_ltb.
Proof.
  split; [apply string_ltb_irrefl|apply string_ltb_asym|apply string_ltb_cotrans].
Qed.

Lemma string_app_assoc (s t u : string) : (s +:+ t) +:+ u = s +:+ t +:+ u.
Proof. induction s as [|a s IH]; [done|]. simpl. unfold String.app in *. simpl. by rewrite IH. Qed.

Lemma string_app_cons (a : ascii) (s t : string) : String a s +:+ t = String a (s +:+ t).
Proof. reflexivity. Qed.

Lemma string_app_nil_r (s : string) : s +:+ "" = s.
Proof. induction s as [|a s IH]; [done|]. unfold String.app in *. simpl. by rewrite IH. Qed.

Lemma HasPrefix_app (s t : string) : HasPrefix (s +:+ t) s = true.
Proof.
  induction s as [|a s IH]; [done|]. unfold String.app in *. simpl.
  by rewrite Ascii.eqb_refl, IH.
Qed.

Lemma HasPrefix_spec (s p : string) : HasPrefix s p = true ↔ ∃ t, s = p +:+ t.
Proof.
  split; [|intros [t ->]; apply HasPrefix_app].
  revert s. induction p as [|a p IH]; intros s; [by exists s|].
  destruct s as [|b s]; simpl; [done|].
  intros [->%Ascii.eqb_eq H]%andb_true_iff. destruct (IH _ H) as [t ->].
  by exists t.
Qed.

Fixpoint no_byte (c : ascii) (s : string) : bool :=
  match s with EmptyString => true | String a s' => negb (Ascii.eqb a c) && no_byte c s' end.

Lemma Split_no_byte s c : no_byte c s = true → Split s c = [s].
Proof.
  induction s as [|a s IH]; simpl; [done|]. rewrite andb_true_iff, negb_true_iff.
  intros [-> H]. by rewrite (IH H).
Qed.

Lemma Split_app s t c : no_byte c s = true → Split (s +:+ String c t) c = s :: Split t c.
Proof.
  induction s as [|a s IH]; simpl.
  - intros _. unfold String.app. simpl. by rewrite Ascii.eqb_refl.
  - rewrite andb_true_iff, negb_true_iff. intros [Ha H].
    change (String a s +:+ String c t) with (String a (s +:+ String c t)). simpl.
    rewrite Ha, (IH H). done.
Qed.

Lemma no_byte_app s t c : no_byte c (s +:+ t) = no_byte c s && no_byte c t.
Proof.
  induction s as [|a s IH]; [done|].
  change (String a s +:+ t) with (String a (s +:+ t)). simpl. by rewrite IH, andb_assoc.
Qed.

(** ** Lexicographic comparison functions *)

Definition less_by {A} (f : A → Z) (x y : A) : bool := (f x <? f y)%Z.
Definition less_flag {A} (p : A → bool) (x y : A) : bool := p x && negb (p y).
Definition less_str {A} (f : A → string) (x y : A) : bool := string_ltb (f x) (f y).
Definition flip_less {A} (l : A → A → bool) (x y : A) : bool := l y x.

(** [x] precedes [y] by [l1], or is equivalent by [l1] and precedes by [l2]. *)
Definition lex {A} (l1 l2 : A → A → bool) (x y : A) : bool :=
  l1 x y || (negb (l1 y x) && l2 x y).

#[global] Typeclasses Opaque less_by less_flag less_str flip_less lex.

Section Lex.
Context {A : Type}.

#[export] Instance less_by_swo (f : A → Z) : StrictWeakOrder (less_by f).
Proof. unfold less_by. split; intros; lia. Qed.

#[export] Instance less_flag_swo (p : A → bool) : StrictWeakOrder (less_flag p).
Proof. unfold less_flag. split; intros; repeat destruct (p _); simpl in *; auto. Qed.

#[export] Instance less_str_swo (f : A → string) : StrictWeakOrder (less_str f).
Proof.
  unfold less_str. split; intros.
  - apply string_ltb_irrefl.
  - by apply string_ltb_asym.
  - by apply string_ltb_cotrans.
Qed.

#[export] Instance flip_less_swo (l : A → A → bool) `{!StrictWeakOrder l} :
  StrictWeakOrder (flip_less l).
Proof.
  unfold flip_less. split.
  - intros x. apply swo_irrefl; apply _.
  - intros x y H. by apply (swo_asym l).
  - intros x y z H. destruct (swo_cotrans l z y x H); auto.
Qed.

#[export] Instance lex_swo (l1 l2 : A → A → bool)
    `{H1 : !StrictWeakOrder l1, H2 : !StrictWeakOrder l2} : StrictWeakOrder (lex l1 l2).
Proof.
  unfold lex. split.
  - intros x. by rewrite (swo_irrefl l1), (swo_irrefl l2).
  - intros x y. destruct (l1 x y) eqn:E1; simpl.
    + intros _. rewrite (swo_asym l1 x y E1). done.
    + destruct (l1 y x) eqn:E2; simpl; [done|]. apply (swo_asym l2).
  - intros x y z. destruct (l1 x z) eqn:E1; simpl.
    + intros _. destruct (swo_cotrans l1 x y z E1) as [->| ->]; auto.
    + destruct (l1 z x) eqn:E2; simpl; [done|]. intros H.
      destruct (l1 x y) eqn:E3; simpl; [auto|].
      destruct (l1 y z) eqn:E4; simpl; [auto|].
      destruct (l1 y x) eqn:E5; simpl.
      { destruct (swo_cotrans l1 y z x E5); congruence. }
      destruct (l1 z y) eqn:E6; simpl.
      { destruct (swo_cotrans l1 z x y E6); congruence. }
      by apply (swo_cotrans l2).
Qed.

Lemma swo_ext (f g : A → A → bool) :
  (∀ x y, f x y = g x y) → StrictWeakOrder f → StrictWeakOrder g.
Proof.
  intros E H. split; intros *; rewrite <- ?E.
  - apply swo_irrefl; apply _.
  - by apply (swo_asym f).
  - by apply (swo_cotrans f).
Qed.

End Lex.

(** One comparison key of a lexicographic comparison, as the code writes it. *)
Lemma lex_flag_if {A} (p : A → bool) l x y :
  lex (less_flag p) l x y = if negb (Bool.eqb (p x) (p y)) then p x else l x y.
Proof. unfold lex, less_flag. by destruct (p x), (p y). Qed.

Lemma lex_by_if {A} (f : A → Z) l x y :
  lex (less_by f) l x y = if negb (f x =? f y)%Z then (f x <? f y)%Z else l x y.
Proof.
  unfold lex, less_by. destruct (Z.eqb_spec (f x) (f y)), (Z.ltb_spec (f x) (f y)),
    (Z.ltb_spec (f y) (f x)); simpl; done || lia.
Qed.

Lemma lex_by_flip_if {A} (f : A → Z) l x y :
  lex (flip_less (less_by f)) l x y = if negb (f x =? f y)%Z then (f y <? f x)%Z else l x y.
Proof.
  unfold lex, flip_less, less_by. destruct (Z.eqb_spec (f x) (f y)), (Z.ltb_spec (f x) (f y)),
    (Z.ltb_spec (f y) (f x)); simpl; done || lia.
Qed.

(** Comparison code written as nested [if]s equals the [lex] form: decide the
    comparisons and compare truth values. *)
Ltac lex_crush :=
  unfold lex, less_by, less_flag, less_str, flip_less; simpl;
  repeat match goal with
  | |- context [(?a =? ?b)%Z] => destruct (Z.eqb_spec a b)
  | |- context [(?a <? ?b)%Z] => destruct (Z.ltb_spec a b)
  | |- context [bool_decide ?P] => destruct (bool_decide_reflect P)
  end; simpl;
  repeat match goal with H : @eq string _ _ |- _ => rewrite ?H; clear H end;
  rewrite ?string_ltb_irrefl, ?orb_false_r, ?orb_true_r, ?andb_false_r, ?andb_true_r;
  first [done | lia | idtac].
