(* ===== verification/Text.v ===== *)
(** * Text: UTF-8 and JSON values

    What the code uses of [unicode/utf8], of [strings.ToValidUTF8] and of the
    value side of [encoding/json].  A byte string is cut into runes; a byte that
    starts no valid rune is a piece of its own.

    Theorems: the pieces of a string joined together give the string; text made
    of valid runes is cut into the same runes again, so repairing a string gives
    valid text and leaves valid text alone. *)

From Stdlib Require Import Ascii.
From stdpp Require Import base decidable tactics numbers list gmap strings.
From S2P Require Import Prelude.

(** ** Runes *)

Definition in_range (lo hi : N) (a : ascii) : bool :=
  let n := N_of_ascii a in (lo <=? n)%N && (n <=? hi)%N.

(** A continuation byte. *)
Definition contByte : ascii → bool := in_range 128 191.

(** The second byte after the first byte [a] of a longer rune: no overlong
    forms, no surrogates, nothing above U+10FFFF. *)
Definition second_ok (a b : ascii) : bool :=
  let n := N_of_ascii a in
  if (n =? 224)%N then in_range 160 191 b
  else if (n =? 237)%N then in_range 128 159 b
  else if (n =? 240)%N then in_range 144 191 b
  else if (n =? 244)%N then in_range 128 143 b
  else contByte b.

(** The length of the rune a string starts with; 0 for none ([utf8.DecodeRune]). *)
Definition runeSize (s : string) : nat :=
  match s with
  | EmptyString => 0
  | String a s1 =>
      if in_range 0 127 a then 1
      else match s1 with
      | EmptyString => 0
      | String b s2 =>
          if in_range 194 223 a then (if contByte b then 2 else 0)
          else match s2 with
          | EmptyString => 0
          | String c s3 =>
              if in_range 224 239 a then (if second_ok a b && contByte c then 3 else 0)
              else match s3 with
              | EmptyString => 0
              | String d _ =>
                  if in_range 240 244 a && second_ok a b && contByte c && contByte d then 4 else 0
              end
          end
      end
  end.

(** The pieces of a string: valid runes and single invalid bytes. *)
Fixpoint runes (s : string) : list (bool * string) :=
  match s with
  | EmptyString => []
  | String a s1 =>
      match runeSize s, s1 with
      | 1, _ => (true, String a "") :: runes s1
      | 2, String b s2 => (true, String a (String b "")) :: runes s2
      | 3, String b (String c s3) => (true, String a (String b (String c ""))) :: runes s3
      | 4, String b (String c (String d s4)) => (true, String a (String b (String c (String d "")))) :: runes s4
      | _, _ => (false, String a "") :: runes s1
      end
  end.

Definition concatAll (l : list string) : string := foldr String.append "" l.

(** U+FFFD *)
Definition replacement : string :=
  String (ascii_of_N 239) (String (ascii_of_N 191) (String (ascii_of_N 189) "")).

Definition nulByte : string := String (ascii_of_N 0) "".

(** [utf8.ValidString] *)
Definition utf8_valid (s : string) : bool := forallb fst (runes s).

(** [strings.ToValidUTF8(s, U+FFFD)]: a run of invalid bytes becomes one
    replacement. *)
Fixpoint valid_runes (bad : bool) (l : list (bool * string)) : list string :=
  match l with
  | [] => []
  | (true, r) :: l => r :: valid_runes false l
  | (false, _) :: l => (if bad then [] else [replacement]) ++ valid_runes true l
  end.

Definition ToValidUTF8 (s : string) : string := concatAll (valid_runes false (runes s)).

(** What [json.Marshal] makes of a string: one replacement per invalid byte. *)
Definition coerceUTF8 (s : string) : string :=
  concatAll ((λ p : bool * string, if p.1 then p.2 else replacement) <$> runes s).

(** [strings.Map] of a function on runes, for valid text. *)
Definition mapRunes (f : string → string) (s : string) : string := concatAll (f ∘ snd <$> runes s).

(** [unicode.IsSpace] *)
Definition isSpaceRune (r : string) : bool :=
  match r with
  | String a "" => space1 a
  | String a (String b "") => space2 a b
  | String a (String b (String c "")) => space3 a b c
  | _ => false
  end.

(** [strings.Fields]; [cur] is the field that is being read. *)
Fixpoint fieldsFrom (cur : string) (l : list (bool * string)) : list string :=
  match l with
  | [] => if bool_decide (cur = "") then [] else [cur]
  | (_, r) :: l =>
      if isSpaceRune r then (if bool_decide (cur = "") then [] else [cur]) ++ fieldsFrom "" l
      else fieldsFrom (cur +:+ r) l
  end.

Definition Fields (s : string) : list string := fieldsFrom "" (runes s).

(** A byte that may stand in a file name made from an identifier. *)
Definition idByte (a : ascii) : bool :=
  in_range 97 122 a || in_range 65 90 a || in_range 48 57 a || in_range 45 45 a || in_range 95 95 a.

(** The loop of [sanitizeID] over the runes of an identifier; a byte that is not
    UTF-8 is a rune of its own there. *)
Definition idRune (r : string) : string :=
  match r with String a "" => if idByte a then r else "-" | _ => "-" end.

Definition sanitizeRunes (input : string) : string := concatAll (idRune ∘ snd <$> runes input).

(** ** JSON values

    [JNum] holds the integer part and the text of a number, [JRaw] a
    [json.RawMessage], which only occurs in values to encode. *)

Inductive Json :=
| JNull
| JBool (b : bool)
| JNum (trunc : Z) (text : string)
| JStr (s : string)
| JArr (l : list Json)
| JObj (m : gmap string Json)
| JRaw (raw : string).

(** ** Properties *)

(** A single rune. *)
Definition is_rune (r : string) : Prop := runes r = [(true, r)].

Lemma runeSize_app r s n : runeSize r = S n → runeSize (r +:+ s) = S n.
Proof.
  destruct r as [|a r]; [done|]. rewrite string_app_cons. cbn [runeSize]. destruct (in_range 0 127 a); [done|].
  destruct r as [|b r]; [done|]. rewrite string_app_cons. destruct (in_range 194 223 a); [done|].
  destruct r as [|c r]; [done|]. rewrite string_app_cons. destruct (in_range 224 239 a); [done|].
  by destruct r as [|d r].
Qed.

Lemma runes_app r s : is_rune r → runes (r +:+ s) = (true, r) :: runes s.
Proof.
  unfold is_rune. destruct r as [|a r]; [done|]. destruct (runeSize (String a r)) as [|n] eqn:E.
  { cbn [runes]. by rewrite E. }
  pose proof (runeSize_app _ s _ E) as E'. rewrite string_app_cons in *. cbn [runes]. rewrite E, E'. clear E E'.
  destruct n as [|[|[|[|n]]]]; [|destruct r as [|b [|c [|d r]]]..]; simpl; intros Hr;
    inversion Hr; subst; reflexivity.
Qed.

Lemma runes_concat l : Forall is_rune l → runes (concatAll l) = pair true <$> l.
Proof. induction 1 as [|r l Hr _ IH]; [done|]. simpl. by rewrite runes_app, IH. Qed.

Lemma replacement_rune : is_rune replacement.
Proof. reflexivity. Qed.

(** Where a rune is cut off. *)
Lemma runes_cons a s :
  (∃ r t, String a s = r +:+ t ∧ is_rune r ∧ runes (String a s) = (true, r) :: runes t ∧ String.length t < S (String.length s)) ∨
  runes (String a s) = (false, String a "") :: runes s.
Proof.
  unfold is_rune. destruct (runeSize (String a s)) as [|n] eqn:E; [right; cbn [runes]; by rewrite E|].
  cbn [runes]. rewrite E. cbn [runeSize] in E.
  destruct (in_range 0 127 a) eqn:Ea.
  { injection E as <-. left. exists (String a ""), s. cbn [runes runeSize]. rewrite Ea. repeat split. simpl. lia. }
  destruct s as [|b s2]; [done|]. destruct (in_range 194 223 a) eqn:Eb.
  { destruct (contByte b) eqn:Ec; [|done]. injection E as <-. left. exists (String a (String b "")), s2.
    cbn [runes runeSize]. rewrite Ea, Eb, Ec. repeat split. simpl. lia. }
  destruct s2 as [|c s3]; [done|]. destruct (in_range 224 239 a) eqn:Ec.
  { destruct (second_ok a b && contByte c) eqn:Ed; [|done]. injection E as <-. left.
    exists (String a (String b (String c ""))), s3. cbn [runes runeSize]. rewrite Ea, Eb, Ec, Ed. repeat split. simpl. lia. }
  destruct s3 as [|d s4]; [done|]. destruct (_ && contByte d) eqn:Ed; [|done]. injection E as <-. left.
  exists (String a (String b (String c (String d "")))), s4. cbn [runes runeSize]. rewrite Ea, Eb, Ec, Ed.
  repeat split. simpl. lia.
Qed.

(** Induction along the pieces. *)
Lemma runes_ind (P : string → list (bool * string) → Prop) :
  P "" [] →
  (∀ r t, is_rune r → P t (runes t) → P (r +:+ t) ((true, r) :: runes t)) →
  (∀ a t, P t (runes t) → P (String a t) ((false, String a "") :: runes t)) →
  ∀ s, P s (runes s).
Proof.
  intros H0 H1 H2 s. remember (String.length s) as n eqn:En. revert s En.
  induction (lt_wf n) as [n _ IH]. intros [|a s] ->; [done|].
  destruct (runes_cons a s) as [(r & t & E & Hr & -> & Hl)|Ef].
  - rewrite E. apply H1; [done|]. eapply IH; [|done]. simpl. lia.
  - rewrite Ef. apply H2. eapply IH; [|done]. simpl. lia.
Qed.

Lemma concat_runes s : concatAll (snd <$> runes s) = s.
Proof.
  apply (runes_ind (λ s l, concatAll (snd <$> l) = s)); [done|..]; simpl; intros; by repeat f_equal.
Qed.

Lemma is_rune_runes s : Forall (λ p : bool * string, p.1 = true → is_rune p.2) (runes s).
Proof.
  apply (runes_ind (λ _ l, Forall (λ p : bool * string, p.1 = true → is_rune p.2) l)); [done|..];
    intros; by constructor.
Qed.

Lemma utf8_valid_runes s : utf8_valid s = true → runes s = pair true <$> (snd <$> runes s).
Proof.
  unfold utf8_valid. generalize (runes s) as l. induction l as [|[[] r] l IH]; simpl; [done| |done].
  intros E. f_equal. by apply IH.
Qed.

Lemma utf8_valid_concat l : Forall is_rune l → utf8_valid (concatAll l) = true.
Proof. intros Hl. unfold utf8_valid. rewrite runes_concat by done. clear. by induction l. Qed.

Lemma valid_runes_ok l bad : Forall (λ p : bool * string, p.1 = true → is_rune p.2) l → Forall is_rune (valid_runes bad l).
Proof.
  intros Hl. revert bad. induction Hl as [|[[] r] l Hr _ IH]; intros bad; simpl; [done|constructor; [by apply Hr|apply IH]|].
  apply Forall_app. split; [|apply IH]. destruct bad; [done|]. constructor; [apply replacement_rune|done].
Qed.

Lemma valid_runes_id l bad : valid_runes bad (pair true <$> l) = l.
Proof. revert bad. induction l as [|r l IH]; intros bad; simpl; [done|]. by rewrite IH. Qed.

Lemma ToValidUTF8_valid s : utf8_valid (ToValidUTF8 s) = true.
Proof. apply utf8_valid_concat, valid_runes_ok, is_rune_runes. Qed.

Lemma ToValidUTF8_id s : utf8_valid s = true → ToValidUTF8 s = s.
Proof. intros Hs. unfold ToValidUTF8. rewrite (utf8_valid_runes s Hs), valid_runes_id. apply concat_runes. Qed.

Lemma coerceUTF8_id s : utf8_valid s = true → coerceUTF8 s = s.
Proof.
  intros Hs. unfold coerceUTF8. rewrite <- (concat_runes s) at 2. f_equal. rewrite (utf8_valid_runes s Hs).
  generalize (snd <$> runes s) as l. intros l. rewrite <- !list_fmap_compose. by apply list_fmap_ext.
Qed.

(** Mapping runes to runes keeps text valid. *)
Lemma runes_mapRunes f s : utf8_valid s = true → (∀ r, is_rune r → is_rune (f r)) →
  runes (mapRunes f s) = pair true ∘ f ∘ snd <$> runes s.
Proof.
  intros Hs Hf. unfold mapRunes. rewrite runes_concat.
  - by rewrite <- list_fmap_compose.
  - apply Forall_fmap. pose proof (is_rune_runes s) as Hr. unfold utf8_valid in Hs. revert Hs Hr.
    generalize (runes s) as l. induction l as [|[b r] l IH]; simpl; [done|]. intros [Hb Hl]%andb_true_iff.
    intros [H1 H2]%Forall_cons. constructor; [by apply Hf, H1|by apply IH].
Qed.
