(* ===== verification/Domain.v ===== *)
(** * Domain: the records of the control plane

    Models [internal/domain] (types.go, controlplane.go, apikey.go) and the
    wire messages of [proto/lecrev/region/v1/control.proto].  Every struct is a
    record with the source's fields; the closed string enumerations are
    inductive types, the ones a request can set to any text
    ([NetworkPolicy], [SourceType], build-job and region states) stay strings.
    Byte slices ([json.RawMessage], [[]byte]) are byte strings and times are
    nanoseconds, as in [Prelude]. *)

From stdpp Require Import base decidable tactics numbers list gmap strings.
From S2P Require Import Prelude.

(** ** Enumerations *)

Definition SourceTypeBundle : string := "bundle".
Definition SourceTypeGit : string := "git".

Definition NetworkPolicyNone : string := "none".
Definition NetworkPolicyAllowlist : string := "allowlist".
Definition NetworkPolicyFull : string := "full".

Inductive FunctionState := FunctionStateBuilding | FunctionStateReady | FunctionStateFailed.

Inductive JobState :=
| JobStateQueued | JobStateScheduling | JobStateAssigned | JobStateRunning
| JobStateRetrying | JobStateSucceeded | JobStateFailed.

Inductive AttemptState :=
| AttemptStateAssigned | AttemptStateStarting | AttemptStateRunning
| AttemptStateSucceeded | AttemptStateFailed.

(** [StartModeUnset] is the zero value of an attempt not yet placed. *)
Inductive StartMode := StartModeUnset | StartModeCold | StartModeBlankWarm | StartModeFunctionWarm.

Inductive HostState := HostStateActive | HostStateDraining | HostStateDown.

Inductive IdempotencyStatus := IdempotencyStatusPending | IdempotencyStatusCompleted.

Inductive HTTPTriggerAuthMode := HTTPTriggerAuthModeNone | HTTPTriggerAuthModeAPIKey.

#[export] Instance FunctionState_eq_dec : EqDecision FunctionState.
Proof. solve_decision. Defined.
#[export] Instance JobState_eq_dec : EqDecision JobState.
Proof. solve_decision. Defined.
#[export] Instance AttemptState_eq_dec : EqDecision AttemptState.
Proof. solve_decision. Defined.
#[export] Instance StartMode_eq_dec : EqDecision StartMode.
Proof. solve_decision. Defined.
#[export] Instance HostState_eq_dec : EqDecision HostState.
Proof. solve_decision. Defined.
#[export] Instance IdempotencyStatus_eq_dec : EqDecision IdempotencyStatus.
Proof. solve_decision. Defined.
#[export] Instance HTTPTriggerAuthMode_eq_dec : EqDecision HTTPTriggerAuthMode.
Proof. solve_decision. Defined.

(** The text of the enumerations that appear in answers. *)
Definition jobStateText (st : JobState) : string :=
  match st with
  | JobStateQueued => "queued"
  | JobStateScheduling => "scheduling"
  | JobStateAssigned => "assigned"
  | JobStateRunning => "running"
  | JobStateRetrying => "retrying"
  | JobStateSucceeded => "succeeded"
  | JobStateFailed => "failed"
  end.

Definition startModeText (m : StartMode) : string :=
  match m with
  | StartModeUnset => ""
  | StartModeCold => "cold"
  | StartModeBlankWarm => "blank-warm"
  | StartModeFunctionWarm => "function-warm"
  end.

(** [AttemptState.Terminal] *)
Definition Terminal (a : AttemptState) : bool :=
  bool_decide (a = AttemptStateSucceeded) || bool_decide (a = AttemptStateFailed).

(** ** Projects, keys, deploy requests *)

Record Project := mkProject {
  prj_ID : string;
  prj_TenantID : string;
  prj_Name : string;
  prj_CreatedAt : Time;
}.

Record APIKey := mkAPIKey {
  key_KeyHash : string;
  key_TenantID : string;
  key_Description : string;
  key_IsAdmin : bool;
  key_Disabled : bool;
  key_CreatedAt : Time;
  key_LastUsedAt : Time;
}.

Record DeploySource := mkDeploySource {
  src_Type : string;
  src_BundleBase64 : string;
  src_InlineFiles : gmap string string;
  src_GitURL : string;
  src_GitRef : string;
  src_SubPath : string;
  src_Labels : gmap string string;
  src_Metadata : gmap string string;
}.

Record DeployRequest := mkDeployRequest {
  dr_ProjectID : string;
  dr_Name : string;
  dr_Runtime : string;
  dr_Entrypoint : string;
  dr_MemoryMB : Z;
  dr_TimeoutSec : Z;
  dr_NetworkPolicy : string;
  dr_Regions : list string;
  dr_EnvVars : gmap string string;
  dr_EnvRefs : list string;
  dr_MaxRetries : Z;
  dr_IdempotencyKey : string;
  dr_Source : DeploySource;
}.

Record Artifact := mkArtifact {
  art_Digest : string;
  art_SizeBytes : Z;
  art_BundleKey : string;
  art_StartupKey : string;
  art_Regions : gmap string Time;
  art_CreatedAt : Time;
}.

Record FunctionVersion := mkFunctionVersion {
  fv_ID : string;
  fv_ProjectID : string;
  fv_Name : string;
  fv_Runtime : string;
  fv_Entrypoint : string;
  fv_MemoryMB : Z;
  fv_TimeoutSec : Z;
  fv_NetworkPolicy : string;
  fv_Regions : list string;
  fv_EnvVars : gmap string string;
  fv_EnvRefs : list string;
  fv_MaxRetries : Z;
  fv_BuildJobID : string;
  fv_SourceType : string;
  fv_ArtifactDigest : string;
  fv_State : FunctionState;
  fv_CreatedAt : Time;
}.

Record BuildJob := mkBuildJob {
  bj_ID : string;
  bj_FunctionVersionID : string;
  bj_TargetRegion : string;
  bj_Metadata : gmap string string;
  bj_State : string;
  bj_Error : string;
  bj_LogsKey : string;
  bj_Request : string;
  bj_CreatedAt : Time;
  bj_UpdatedAt : Time;
}.

(** ** Execution jobs, attempts, costs *)

Record JobResult := mkJobResult {
  jr_ExitCode : Z;
  jr_Logs : string;
  jr_LogsKey : string;
  jr_Output : string;
  jr_OutputKey : string;
  jr_HostID : string;
  jr_Region : string;
  jr_StartedAt : Time;
  jr_FinishedAt : Time;
  jr_LatencyMs : Z;
}.

Record ExecutionJob := mkExecutionJob {
  job_ID : string;
  job_FunctionVersionID : string;
  job_ProjectID : string;
  job_TargetRegion : string;
  job_State : JobState;
  job_Payload : string;
  job_MaxRetries : Z;
  job_AttemptCount : Z;
  job_LastAttemptID : string;
  job_Error : string;
  job_Result : option JobResult;
  job_CreatedAt : Time;
  job_UpdatedAt : Time;
}.

Record Attempt := mkAttempt {
  att_ID : string;
  att_JobID : string;
  att_FunctionVersionID : string;
  att_HostID : string;
  att_Region : string;
  att_State : AttemptState;
  att_StartMode : StartMode;
  att_StartedAt : Time;
  att_LatencyMs : Z;
  att_LeaseExpiresAt : Time;
  att_Error : string;
  att_CreatedAt : Time;
  att_UpdatedAt : Time;
}.

Record DirectExecutionResult := mkDirectExecutionResult {
  der_JobID : string;
  der_AttemptID : string;
  der_State : JobState;
  der_Error : string;
  der_StartMode : StartMode;
  der_Result : option JobResult;
  der_FinishedAt : Time;
  der_StartedAt : Time;
}.

Record CostRecord := mkCostRecord {
  cost_ID : string;
  cost_TenantID : string;
  cost_ProjectID : string;
  cost_JobID : string;
  cost_AttemptID : string;
  cost_HostID : string;
  cost_Region : string;
  cost_StartMode : StartMode;
  cost_CPUMs : Z;
  cost_MemoryMBMs : Z;
  cost_WarmInstanceMs : Z;
  cost_DataEgressBytes : Z;
  cost_CreatedAt : Time;
}.

(** ** Hosts, regions, assignments *)

Record Host := mkHost {
  host_ID : string;
  host_Region : string;
  host_Driver : string;
  host_State : HostState;
  host_AvailableSlots : Z;
  host_AvailableFullNetworkSlots : Z;
  host_BlankWarm : Z;
  host_FunctionWarm : gmap string Z;
  host_LastHeartbeat : Time;
}.

Record RegionStats := mkRegionStats {
  rs_AvailableHosts : Z;
  rs_AvailableFullNetworkSlots : Z;
  rs_BlankWarm : Z;
  rs_FunctionWarm : Z;
}.

Record Region := mkRegion {
  reg_Name : string;
  reg_State : string;
  reg_AvailableHosts : Z;
  reg_AvailableFullNetworkSlots : Z;
  reg_BlankWarm : Z;
  reg_FunctionWarm : Z;
  reg_LastHeartbeatAt : Time;
  reg_LastError : string;
}.

Record WarmPool := mkWarmPool {
  wp_Region : string;
  wp_HostID : string;
  wp_FunctionVersionID : string;
  wp_BlankWarm : Z;
  wp_FunctionWarm : Z;
  wp_UpdatedAt : Time;
}.

(** [asg_EnvVars] is [None] for a nil map: a nil map reads as empty and
    panics when written. *)
Record Assignment := mkAssignment {
  asg_AttemptID : string;
  asg_JobID : string;
  asg_FunctionVersionID : string;
  asg_ArtifactDigest : string;
  asg_ArtifactBundleKey : string;
  asg_Entrypoint : string;
  asg_EnvVars : option (gmap string string);
  asg_EnvRefs : list string;
  asg_Payload : string;
  asg_NetworkPolicy : string;
  asg_TimeoutSec : Z;
  asg_MemoryMB : Z;
}.

Record IdempotencyRecord := mkIdempotencyRecord {
  idem_Scope : string;
  idem_ProjectID : string;
  idem_Key : string;
  idem_RequestHash : string;
  idem_ResourceID : string;
  idem_Resource : string;
  idem_Status : IdempotencyStatus;
  idem_CreatedAt : Time;
  idem_UpdatedAt : Time;
}.

Record WebhookTrigger := mkWebhookTrigger {
  wt_Token : string;
  wt_ProjectID : string;
  wt_FunctionVersionID : string;
  wt_Description : string;
  wt_Enabled : bool;
  wt_CreatedAt : Time;
}.

Record HTTPTrigger := mkHTTPTrigger {
  ht_Token : string;
  ht_ProjectID : string;
  ht_FunctionVersionID : string;
  ht_Description : string;
  ht_AuthMode : HTTPTriggerAuthMode;
  ht_Enabled : bool;
  ht_CreatedAt : Time;
}.

Record WebsiteManifest := mkWebsiteManifest {
  wm_Framework : string;
  wm_FunctionVersionID : string;
  wm_StaticPrefix : string;
  wm_DynamicEntrypoint : string;
  wm_CreatedAt : Time;
}.

(** ** Wire messages *)

Record WarmPoolMetric := mkWarmPoolMetric { wpm_FunctionVersionId : string; wpm_Available : Z }.

Record RegisterHost := mkRegisterHost {
  rh_HostId : string;
  rh_Region : string;
  rh_Driver : string;
  rh_AvailableSlots : Z;
  rh_BlankWarm : Z;
  rh_FunctionWarm : list WarmPoolMetric;
  rh_AvailableFullNetworkSlots : Z;
}.

Record HostHeartbeat := mkHostHeartbeat {
  hb_HostId : string;
  hb_Region : string;
  hb_AvailableSlots : Z;
  hb_BlankWarm : Z;
  hb_FunctionWarm : list WarmPoolMetric;
  hb_AvailableFullNetworkSlots : Z;
}.

Inductive AssignmentState :=
| ASSIGNMENT_STATE_UNSPECIFIED | ASSIGNMENT_STATE_STARTING | ASSIGNMENT_STATE_RUNNING
| ASSIGNMENT_STATE_SUCCEEDED | ASSIGNMENT_STATE_FAILED.

Inductive SnapshotKind :=
| SNAPSHOT_KIND_UNSPECIFIED | SNAPSHOT_KIND_BLANK | SNAPSHOT_KIND_FUNCTION.

#[export] Instance AssignmentState_eq_dec : EqDecision AssignmentState.
Proof. solve_decision. Defined.
#[export] Instance SnapshotKind_eq_dec : EqDecision SnapshotKind.
Proof. solve_decision. Defined.

Record AssignmentUpdate := mkAssignmentUpdate {
  au_HostId : string;
  au_Region : string;
  au_AttemptId : string;
  au_JobId : string;
  au_State : AssignmentState;
  au_Logs : string;
  au_OutputJson : string;
  au_ErrorMessage : string;
  au_ExitCode : Z;
}.

Record ExecutionAssignment := mkExecutionAssignment {
  ea_AttemptId : string;
  ea_JobId : string;
  ea_FunctionVersionId : string;
  ea_ArtifactDigest : string;
  ea_ArtifactBundleKey : string;
  ea_Entrypoint : string;
  ea_EnvVars : option (gmap string string);
  ea_PayloadJson : string;
  ea_EnvRefs : list string;
  ea_NetworkPolicy : string;
  ea_TimeoutSec : Z;
  ea_MemoryMb : Z;
}.

Record PrepareSnapshot := mkPrepareSnapshot {
  ps_HostId : string;
  ps_SnapshotKind : SnapshotKind;
  ps_FunctionVersionId : string;
  ps_ArtifactBundleKey : string;
  ps_Entrypoint : string;
  ps_EnvVars : option (gmap string string);
  ps_NetworkPolicy : string;
  ps_TimeoutSec : Z;
  ps_MemoryMb : Z;
}.

Inductive CoordinatorMessage :=
| MsgRegistered (hostID : string)
| MsgAssignment (a : ExecutionAssignment)
| MsgDrain (hostID reason : string)
| MsgTerminate (hostID attemptID reason : string)
| MsgPrepare (p : PrepareSnapshot).

Inductive AgentMessage :=
| MsgRegister (r : RegisterHost)
| MsgHeartbeat (h : HostHeartbeat)
| MsgAssignmentUpdate (u : AssignmentUpdate).

(** ** Field assignment for the records the handlers update *)

#[export] Instance APIKey_rebuild : Rebuild APIKey := λ r,
  mkAPIKey (key_KeyHash r)
    (key_TenantID r) (key_Description r) (key_IsAdmin r) (key_Disabled r) (key_CreatedAt r)
    (key_LastUsedAt r).
#[export] Instance DeploySource_rebuild : Rebuild DeploySource := λ r,
  mkDeploySource
    (src_Type r) (src_BundleBase64 r) (src_InlineFiles r) (src_GitURL r) (src_GitRef r)
    (src_SubPath r) (src_Labels r) (src_Metadata r).
#[export] Instance DeployRequest_rebuild : Rebuild DeployRequest := λ r,
  mkDeployRequest
    (dr_ProjectID r) (dr_Name r) (dr_Runtime r) (dr_Entrypoint r) (dr_MemoryMB r)
    (dr_TimeoutSec r) (dr_NetworkPolicy r) (dr_Regions r) (dr_EnvVars r) (dr_EnvRefs r) (dr_MaxRetries r)
    (dr_IdempotencyKey r) (dr_Source r).
#[export] Instance Artifact_rebuild : Rebuild Artifact := λ r,
  mkArtifact (art_Digest r)
    (art_SizeBytes r) (art_BundleKey r) (art_StartupKey r) (art_Regions r) (art_CreatedAt r).
#[export] Instance FunctionVersion_rebuild : Rebuild FunctionVersion := λ r,
  mkFunctionVersion
    (fv_ID r) (fv_ProjectID r) (fv_Name r) (fv_Runtime r) (fv_Entrypoint r) (fv_MemoryMB r)
    (fv_TimeoutSec r) (fv_NetworkPolicy r) (fv_Regions r) (fv_EnvVars r) (fv_EnvRefs r)
    (fv_MaxRetries r) (fv_BuildJobID r) (fv_SourceType r) (fv_ArtifactDigest r) (fv_State r)
    (fv_CreatedAt r).
#[export] Instance BuildJob_rebuild : Rebuild BuildJob := λ r,
  mkBuildJob (bj_ID r)
    (bj_FunctionVersionID r) (bj_TargetRegion r) (bj_Metadata r) (bj_State r) (bj_Error r)
    (bj_LogsKey r) (bj_Request r) (bj_CreatedAt r) (bj_UpdatedAt r).
#[export] Instance JobResult_rebuild : Rebuild JobResult := λ r,
  mkJobResult (jr_ExitCode r)
    (jr_Logs r) (jr_LogsKey r) (jr_Output r) (jr_OutputKey r) (jr_HostID r) (jr_Region r)
    (jr_StartedAt r) (jr_FinishedAt r) (jr_LatencyMs r).
#[export] Instance ExecutionJob_rebuild : Rebuild ExecutionJob := λ r,
  mkExecutionJob
    (job_ID r) (job_FunctionVersionID r) (job_ProjectID r) (job_TargetRegion r) (job_State r)
    (job_Payload r) (job_MaxRetries r) (job_AttemptCount r) (job_LastAttemptID r) (job_Error r)
    (job_Result r) (job_CreatedAt r) (job_UpdatedAt r).
#[export] Instance Attempt_rebuild : Rebuild Attempt := λ r,
  mkAttempt (att_ID r)
    (att_JobID r) (att_FunctionVersionID r) (att_HostID r) (att_Region r) (att_State r) (att_StartMode r)
    (att_StartedAt r) (att_LatencyMs r) (att_LeaseExpiresAt r) (att_Error r) (att_CreatedAt r)
    (att_UpdatedAt r).
#[export] Instance Host_rebuild : Rebuild Host := λ r,
  mkHost (host_ID r) (host_Region r)
    (host_Driver r) (host_State r) (host_AvailableSlots r) (host_AvailableFullNetworkSlots r)
    (host_BlankWarm r) (host_FunctionWarm r) (host_LastHeartbeat r).
#[export] Instance RegionStats_rebuild : Rebuild RegionStats := λ r,
  mkRegionStats
    (rs_AvailableHosts r) (rs_AvailableFullNetworkSlots r) (rs_BlankWarm r) (rs_FunctionWarm r).
#[export] Instance Assignment_rebuild : Rebuild Assignment := λ r,
  mkAssignment
    (asg_AttemptID r) (asg_JobID r) (asg_FunctionVersionID r) (asg_ArtifactDigest r) (asg_ArtifactBundleKey r)
    (asg_Entrypoint r) (asg_EnvVars r) (asg_EnvRefs r) (asg_Payload r) (asg_NetworkPolicy r)
    (asg_TimeoutSec r) (asg_MemoryMB r).
#[export] Instance IdempotencyRecord_rebuild : Rebuild IdempotencyRecord := λ r,
  mkIdempotencyRecord (idem_Scope r) (idem_ProjectID r) (idem_Key r) (idem_RequestHash r)
    (idem_ResourceID r) (idem_Resource r) (idem_Status r) (idem_CreatedAt r) (idem_UpdatedAt r).
