(* ===== verification/MemStore.v ===== *)
(** * MemStore: the in-memory metadata store

    Models [internal/store/memory/store.go], the reference implementation of
    the [store.Store] interface: one map per record type, every method run
    under the store's mutex, so each method is one function of the state.  The
    [clone*] helpers copy values in and out of the maps; model values are
    immutable, so they have no counterpart here.

    Theorems: keys and record IDs agree in every reachable store
    ([store_wf]); lookups after writes; the claim operation returns the least
    eligible job and moves only that job; requeueing touches exactly the stale
    jobs; listings return exactly the matching records, sorted; the composite
    string keys of idempotency records and warm pools. *)

From stdpp Require Import base decidable tactics numbers list gmap strings sorting.
From S2P Require Import Prelude Domain.

(** ** State *)

Record Store := mkStore {
  st_apiKeys : gmap string APIKey;
  st_projects : gmap string Project;
  st_idempotency : gmap string IdempotencyRecord;
  st_artifacts : gmap string Artifact;
  st_functions : gmap string FunctionVersion;
  st_buildJobs : gmap string BuildJob;
  st_executionJobs : gmap string ExecutionJob;
  st_attempts : gmap string Attempt;
  st_costRecords : gmap string CostRecord;
  st_hosts : gmap string Host;
  st_warmPools : gmap string WarmPool;
  st_webhookTriggers : gmap string WebhookTrigger;
  st_httpTriggers : gmap string HTTPTrigger;
  st_regions : gmap string Region;
}.

#[export] Instance Store_rebuild : Rebuild Store := λ r,
  mkStore (st_apiKeys r) (st_projects r) (st_idempotency r) (st_artifacts r) (st_functions r)
    (st_buildJobs r) (st_executionJobs r) (st_attempts r) (st_costRecords r) (st_hosts r)
    (st_warmPools r) (st_webhookTriggers r) (st_httpTriggers r) (st_regions r).

Definition NewStore : Store := mkStore ∅ ∅ ∅ ∅ ∅ ∅ ∅ ∅ ∅ ∅ ∅ ∅ ∅ ∅.

Abbreviation StoreM A := (M Store A).

(** The not-found error of a lookup: ["%w: kind %q"]. *)
Definition notFound (kind id : string) : GoError := wrapErr ErrNotFound (": " +:+ kind +:+ " " +:+ quote id).

Definition find {A} (proj : Store → gmap string A) (kind id : string) : StoreM A := λ s,
  match proj s !! id with
  | Some x => (Ok x, s)
  | None => (Err (notFound kind id), s)
  end.

(** The records of a map that satisfy [p], in iteration order. *)
Definition select `{!MapOrder} {A} (site : nat) (p : A → bool) (m : gmap string A) : list A :=
  (filter (λ kx, p kx.2 = true) (map_iter site m)).*2.

(** ** Projects and API keys *)

Definition EnsureProject (now : Time) (projectID tenantID name : string) : StoreM Project := λ s,
  match st_projects s !! projectID with
  | None =>
      let project := mkProject projectID tenantID name now in
      (Ok project, s <| st_projects := <[projectID := project]> (st_projects s) |>)
  | Some project =>
      if bool_decide (prj_TenantID project = tenantID) then (Ok project, s)
      else (Err (sentinel ErrAccessDenied), s)
  end.

Definition GetProject (projectID : string) : StoreM Project := find st_projects "project" projectID.

(** Newest first, ties broken by the larger ID. *)
Definition newest_first {A} (created : A → Time) (id : A → string) (x y : A) : bool :=
  if (created x =? created y)%Z then string_ltb (id y) (id x) else (created y <? created x)%Z.

(** Oldest first, ties broken by the smaller ID. *)
Definition oldest_first {A} (created : A → Time) (id : A → string) (x y : A) : bool :=
  if (created x =? created y)%Z then string_ltb (id x) (id y) else (created x <? created y)%Z.

Definition ListProjectsByTenant `{!MapOrder} (tenantID : string) : StoreM (list Project) := λ s,
  (Ok (SliceStable (newest_first prj_CreatedAt prj_ID)
         (select 88 (λ p, bool_decide (prj_TenantID p = tenantID)) (st_projects s))), s).

Definition PutAPIKey (key : APIKey) : StoreM unit := λ s,
  (Ok tt, s <| st_apiKeys := <[key_KeyHash key := key]> (st_apiKeys s) |>).

Definition GetAPIKeyByHash (keyHash : string) : StoreM APIKey := find st_apiKeys "api key" keyHash.

Definition TouchAPIKeyLastUsed (keyHash : string) (usedAt : Time) : StoreM unit := λ s,
  match st_apiKeys s !! keyHash with
  | None => (Err (notFound "api key" keyHash), s)
  | Some key =>
      (Ok tt, s <| st_apiKeys := <[keyHash := key <| key_LastUsedAt := usedAt |>]> (st_apiKeys s) |>)
  end.

(** ** Idempotency records *)

Definition idempotencyKey (scope projectID key : string) : string :=
  scope +:+ ":" +:+ projectID +:+ ":" +:+ key.

Definition record_key (r : IdempotencyRecord) : string :=
  idempotencyKey (idem_Scope r) (idem_ProjectID r) (idem_Key r).

Definition CreateIdempotencyRecord (record : IdempotencyRecord) : StoreM unit := λ s,
  let key := record_key record in
  match st_idempotency s !! key with
  | Some _ => (Err (wrapErr ErrAlreadyExists (": idempotency record " +:+ key)), s)
  | None => (Ok tt, s <| st_idempotency := <[key := record]> (st_idempotency s) |>)
  end.

Definition UpdateIdempotencyRecord (record : IdempotencyRecord) : StoreM unit := λ s,
  (Ok tt, s <| st_idempotency := <[record_key record := record]> (st_idempotency s) |>).

Definition DeleteIdempotencyRecord (scope projectID key : string) : StoreM unit := λ s,
  (Ok tt, s <| st_idempotency := delete (idempotencyKey scope projectID key) (st_idempotency s) |>).

Definition GetIdempotencyRecord (scope projectID key : string) : StoreM IdempotencyRecord :=
  find st_idempotency "idempotency record" (idempotencyKey scope projectID key).

(** ** Artifacts and function versions *)

Definition PutArtifact (artifact : Artifact) : StoreM unit := λ s,
  (Ok tt, s <| st_artifacts := <[art_Digest artifact := artifact]> (st_artifacts s) |>).

Definition GetArtifact (digest : string) : StoreM Artifact := find st_artifacts "artifact" digest.

Definition PutFunctionVersion (version : FunctionVersion) : StoreM unit := λ s,
  (Ok tt, s <| st_functions := <[fv_ID version := version]> (st_functions s) |>).

Definition GetFunctionVersion (versionID : string) : StoreM FunctionVersion :=
  find st_functions "function version" versionID.

Definition ListFunctionVersionsByProject `{!MapOrder} (projectID : string) :
    StoreM (list FunctionVersion) := λ s,
  (Ok (SliceStable (newest_first fv_CreatedAt fv_ID)
         (select 212 (λ v, bool_decide (fv_ProjectID v = projectID)) (st_functions s))), s).

(** ** Build jobs *)

Definition PutBuildJob (job : BuildJob) : StoreM unit := λ s,
  (Ok tt, s <| st_buildJobs := <[bj_ID job := job]> (st_buildJobs s) |>).

Definition GetBuildJob (jobID : string) : StoreM BuildJob := find st_buildJobs "build job" jobID.

(** A build job belongs to the project of its function version. *)
Definition build_job_in_project (s : Store) (projectID : string) (job : BuildJob) : bool :=
  match st_functions s !! bj_FunctionVersionID job with
  | Some version => bool_decide (fv_ProjectID version = projectID)
  | None => false
  end.

Definition ListBuildJobsByProject `{!MapOrder} (projectID : string) : StoreM (list BuildJob) := λ s,
  (Ok (SliceStable (newest_first bj_CreatedAt bj_ID)
         (select 249 (build_job_in_project s projectID) (st_buildJobs s))), s).

Definition CountBuildJobsByProjectStates (projectID : string) (states : list string) : StoreM Z := λ s,
  (Ok (count_map (λ job, bool_decide (bj_State job ∈ states) && build_job_in_project s projectID job)
         (st_buildJobs s)), s).

Definition CountBuildJobsByStates (states : list string) : StoreM Z := λ s,
  (Ok (count_map (λ job, bool_decide (bj_State job ∈ states)) (st_buildJobs s)), s).

(** ** Execution jobs *)

Definition PutExecutionJob (job : ExecutionJob) : StoreM unit := λ s,
  (Ok tt, s <| st_executionJobs := <[job_ID job := job]> (st_executionJobs s) |>).

Definition UpdateExecutionJob (job : ExecutionJob) : StoreM unit := λ s,
  (Ok tt, s <| st_executionJobs := <[job_ID job := job]> (st_executionJobs s) |>).

Definition GetExecutionJob (jobID : string) : StoreM ExecutionJob := find st_executionJobs "job" jobID.

Definition ListExecutionJobsByProject `{!MapOrder} (projectID : string) :
    StoreM (list ExecutionJob) := λ s,
  (Ok (SliceStable (newest_first job_CreatedAt job_ID)
         (select 335 (λ j, bool_decide (job_ProjectID j = projectID)) (st_executionJobs s))), s).

Definition in_states (states : list JobState) (j : ExecutionJob) : bool :=
  bool_decide (job_State j ∈ states).

Definition CountExecutionJobsByProjectStates (projectID : string) (states : list JobState) :
    StoreM Z := λ s,
  (Ok (count_map (λ j, bool_decide (job_ProjectID j = projectID) && in_states states j)
         (st_executionJobs s)), s).

Definition CountExecutionJobsByStates (states : list JobState) : StoreM Z := λ s,
  (Ok (count_map (in_states states) (st_executionJobs s)), s).

(** The order in which jobs are claimed. *)
Definition claim_before (c chosen : ExecutionJob) : bool :=
  (job_UpdatedAt c <? job_UpdatedAt chosen)%Z ||
  ((job_UpdatedAt c =? job_UpdatedAt chosen)%Z && (job_CreatedAt c <? job_CreatedAt chosen)%Z) ||
  ((job_UpdatedAt c =? job_UpdatedAt chosen)%Z && (job_CreatedAt c =? job_CreatedAt chosen)%Z &&
     string_ltb (job_ID c) (job_ID chosen)).

(** One iteration of the selection loop. *)
Definition claim_pick (fromStates : list JobState) (chosen : option ExecutionJob)
    (job : ExecutionJob) : option ExecutionJob :=
  if in_states fromStates job then
    match chosen with
    | None => Some job
    | Some c => if claim_before job c then Some job else chosen
    end
  else chosen.

Definition ClaimNextExecutionJob `{!MapOrder} (fromStates : list JobState) (toState : JobState)
    (now : Time) : StoreM ExecutionJob := λ s,
  match foldl (claim_pick fromStates) None (map_iter 399 (st_executionJobs s)).*2 with
  | None => (Err (sentinel ErrNotFound), s)
  | Some job =>
      let chosen := job <| job_State := toState |> <| job_UpdatedAt := now |> in
      (Ok chosen, s <| st_executionJobs := <[job_ID chosen := chosen]> (st_executionJobs s) |>)
  end.

(** What the requeueing loop does to a job it does not skip. *)
Definition requeue_job (toState : JobState) (now : Time) (errorMessage : string)
    (job : ExecutionJob) : ExecutionJob :=
  let job := job <| job_State := toState |> <| job_TargetRegion := "" |> in
  let job := if blank errorMessage then job
             else job <| job_Error := TrimSpace errorMessage |> in
  job <| job_UpdatedAt := now |>.

Definition is_stale (fromState : JobState) (staleBefore : Time) (job : ExecutionJob) : bool :=
  bool_decide (job_State job = fromState) && negb (staleBefore <? job_UpdatedAt job)%Z.

Definition requeue_step (fromState toState : JobState) (staleBefore now : Time)
    (errorMessage : string) (acc : gmap string ExecutionJob * Z) (e : string * ExecutionJob) :
    gmap string ExecutionJob * Z :=
  let '(jobs, count) := acc in
  let '(id, job) := e in
  if is_stale fromState staleBefore job
  then (<[id := requeue_job toState now errorMessage job]> jobs, (count + 1)%Z)
  else (jobs, count).

Definition RequeueStaleExecutionJobs `{!MapOrder} (fromState toState : JobState)
    (staleBefore now : Time) (errorMessage : string) : StoreM Z := λ s,
  let '(jobs, count) :=
    foldl (requeue_step fromState toState staleBefore now errorMessage)
      (st_executionJobs s, 0%Z) (map_iter 426 (st_executionJobs s)) in
  (Ok count, s <| st_executionJobs := jobs |>).

Definition CountActiveExecutionJobsByRegion (region : string) : StoreM Z := λ s,
  (Ok (count_map (λ j, bool_decide (job_TargetRegion j = region) &&
         negb (in_states [JobStateSucceeded; JobStateFailed] j)) (st_executionJobs s)), s).

(** ** Attempts and costs *)

Definition PutAttempt (attempt : Attempt) : StoreM unit := λ s,
  (Ok tt, s <| st_attempts := <[att_ID attempt := attempt]> (st_attempts s) |>).

Definition UpdateAttempt (attempt : Attempt) : StoreM unit := λ s,
  (Ok tt, s <| st_attempts := <[att_ID attempt := attempt]> (st_attempts s) |>).

Definition GetAttempt (attemptID : string) : StoreM Attempt := find st_attempts "attempt" attemptID.

Definition ListAttemptsByJob `{!MapOrder} (jobID : string) : StoreM (list Attempt) := λ s,
  (Ok (SliceStable (oldest_first att_CreatedAt att_ID)
         (select 491 (λ a, bool_decide (att_JobID a = jobID)) (st_attempts s))), s).

Definition PutCostRecord (record : CostRecord) : StoreM unit := λ s,
  (Ok tt, s <| st_costRecords := <[cost_ID record := record]> (st_costRecords s) |>).

Definition ListCostRecordsByJob `{!MapOrder} (jobID : string) : StoreM (list CostRecord) := λ s,
  (Ok (SliceStable (oldest_first cost_CreatedAt cost_ID)
         (select 516 (λ r, bool_decide (cost_JobID r = jobID)) (st_costRecords s))), s).

Definition attempt_expired (before : Time) (a : Attempt) : bool :=
  negb (Terminal (att_State a)) &&
  (negb (IsZero (att_LeaseExpiresAt a)) && negb (before <? att_LeaseExpiresAt a)%Z).

Definition ListExpiredAttempts `{!MapOrder} (before : Time) : StoreM (list Attempt) := λ s,
  (Ok (select 534 (attempt_expired before) (st_attempts s)), s).

(** ** Hosts, warm pools, regions *)

Definition PutHost (host : Host) : StoreM unit := λ s,
  (Ok tt, s <| st_hosts := <[host_ID host := host]> (st_hosts s) |>).

Definition UpdateHost (host : Host) : StoreM unit := λ s,
  (Ok tt, s <| st_hosts := <[host_ID host := host]> (st_hosts s) |>).

Definition GetHost (hostID : string) : StoreM Host := find st_hosts "host" hostID.

Definition ListHostsByRegion `{!MapOrder} (region : string) : StoreM (list Host) := λ s,
  (Ok (select 574 (λ h, bool_decide (host_Region h = region)) (st_hosts s)), s).

Definition warmPoolKey (region hostID functionVersionID : string) : string :=
  region +:+ ":" +:+ hostID +:+ ":" +:+ functionVersionID.

Definition pool_key (p : WarmPool) : string :=
  warmPoolKey (wp_Region p) (wp_HostID p) (wp_FunctionVersionID p).

Definition insert_pools (pools : list WarmPool) (m : gmap string WarmPool) : gmap string WarmPool :=
  foldl (λ m p, <[pool_key p := p]> m) m pools.

Definition ReplaceWarmPoolsForHost (region hostID : string) (pools : list WarmPool) :
    StoreM unit := λ s,
  let pre := warmPoolKey region hostID "" in
  let kept := filter (λ kx, HasPrefix kx.1 pre = false) (st_warmPools s) in
  (Ok tt, s <| st_warmPools := insert_pools pools kept |>).

Definition warm_pool_less (x y : WarmPool) : bool :=
  if bool_decide (wp_HostID x = wp_HostID y)
  then string_ltb (wp_FunctionVersionID x) (wp_FunctionVersionID y)
  else string_ltb (wp_HostID x) (wp_HostID y).

Definition ListWarmPoolsByRegion `{!MapOrder} (region : string) : StoreM (list WarmPool) := λ s,
  (Ok (SliceStable warm_pool_less
         (select 601 (λ p, bool_decide (wp_Region p = region)) (st_warmPools s))), s).

Definition PutRegion (region : Region) : StoreM unit := λ s,
  (Ok tt, s <| st_regions := <[reg_Name region := region]> (st_regions s) |>).

Definition GetRegion (region : string) : StoreM Region := find st_regions "region" region.

Definition ListRegions `{!MapOrder} : StoreM (list Region) := λ s,
  (Ok (map_iter 709 (st_regions s)).*2, s).

(** ** Triggers *)

Definition PutWebhookTrigger (trigger : WebhookTrigger) : StoreM unit := λ s,
  match st_webhookTriggers s !! wt_Token trigger with
  | Some _ => (Err (wrapErr ErrAlreadyExists (": webhook trigger " +:+ wt_Token trigger)), s)
  | None =>
      (Ok tt, s <| st_webhookTriggers := <[wt_Token trigger := trigger]> (st_webhookTriggers s) |>)
  end.

Definition GetWebhookTrigger (token : string) : StoreM WebhookTrigger :=
  find st_webhookTriggers "webhook trigger" token.

Definition ListWebhookTriggersByFunctionVersion `{!MapOrder} (versionID : string) :
    StoreM (list WebhookTrigger) := λ s,
  (Ok (select 640 (λ t, bool_decide (wt_FunctionVersionID t = versionID)) (st_webhookTriggers s)), s).

Definition PutHTTPTrigger (trigger : HTTPTrigger) : StoreM unit := λ s,
  match st_httpTriggers s !! ht_Token trigger with
  | Some _ => (Err (wrapErr ErrAlreadyExists (": http trigger " +:+ ht_Token trigger)), s)
  | None => (Ok tt, s <| st_httpTriggers := <[ht_Token trigger := trigger]> (st_httpTriggers s) |>)
  end.

Definition GetHTTPTrigger (token : string) : StoreM HTTPTrigger :=
  find st_httpTriggers "http trigger" token.

Definition ListHTTPTriggersByFunctionVersion `{!MapOrder} (versionID : string) :
    StoreM (list HTTPTrigger) := λ s,
  (Ok (SliceStable (oldest_first ht_CreatedAt ht_Token)
         (select 673 (λ t, bool_decide (ht_FunctionVersionID t = versionID)) (st_httpTriggers s))), s).

(** ** Orders *)

#[export] Instance newest_first_swo {A} (created : A → Time) (id : A → string) :
  StrictWeakOrder (newest_first created id).
Proof.
  eapply (swo_ext (lex (flip_less (less_by created)) (flip_less (less_str id)))); [|apply _].
  intros x y. unfold newest_first. lex_crush.
Qed.

#[export] Instance oldest_first_swo {A} (created : A → Time) (id : A → string) :
  StrictWeakOrder (oldest_first created id).
Proof.
  eapply (swo_ext (lex (less_by created) (less_str id))); [|apply _].
  intros x y. unfold oldest_first. lex_crush.
Qed.

#[export] Instance claim_before_swo : StrictWeakOrder claim_before.
Proof.
  eapply (swo_ext (lex (less_by job_UpdatedAt) (lex (less_by job_CreatedAt) (less_str job_ID))));
    [|apply _].
  intros x y. unfold claim_before. lex_crush.
Qed.

Lemma claim_before_total x y :
  claim_before x y = false → claim_before y x = false → job_ID x = job_ID y.
Proof.
  unfold claim_before. intros H1 H2.
  apply orb_false_iff in H1 as [[A1 A2]%orb_false_iff A3].
  apply orb_false_iff in H2 as [[B1 B2]%orb_false_iff B3].
  assert (job_UpdatedAt x = job_UpdatedAt y) as E1 by lia.
  assert (job_CreatedAt x = job_CreatedAt y) as E2 by (rewrite E1, Z.eqb_refl in *; simpl in *; lia).
  rewrite E1, E2, !Z.eqb_refl in *. simpl in *. by apply string_ltb_total.
Qed.

#[export] Instance warm_pool_less_swo : StrictWeakOrder warm_pool_less.
Proof.
  eapply (swo_ext (lex (less_str wp_HostID) (less_str wp_FunctionVersionID))); [|apply _].
  intros x y. unfold warm_pool_less. lex_crush.
  destruct (string_ltb (wp_HostID x) (wp_HostID y)) eqn:E1; [done|].
  destruct (string_ltb (wp_HostID y) (wp_HostID x)) eqn:E2; [done|].
  exfalso. eauto using string_ltb_total.
Qed.

(** ** Well-formed stores

    Every record is filed under its own key. *)

Definition keyed {A} (id : A → string) (m : gmap string A) : Prop := map_Forall (λ k x, id x = k) m.

Record store_wf (s : Store) : Prop := {
  wf_apiKeys : keyed key_KeyHash (st_apiKeys s);
  wf_projects : keyed prj_ID (st_projects s);
  wf_idempotency : keyed record_key (st_idempotency s);
  wf_artifacts : keyed art_Digest (st_artifacts s);
  wf_functions : keyed fv_ID (st_functions s);
  wf_buildJobs : keyed bj_ID (st_buildJobs s);
  wf_executionJobs : keyed job_ID (st_executionJobs s);
  wf_attempts : keyed att_ID (st_attempts s);
  wf_costRecords : keyed cost_ID (st_costRecords s);
  wf_hosts : keyed host_ID (st_hosts s);
  wf_warmPools : keyed pool_key (st_warmPools s);
  wf_webhookTriggers : keyed wt_Token (st_webhookTriggers s);
  wf_httpTriggers : keyed ht_Token (st_httpTriggers s);
  wf_regions : keyed reg_Name (st_regions s);
}.

(** One call of a method that changes the store. *)
Inductive store_step `{!MapOrder} (s : Store) : Store → Prop :=
| step_EnsureProject now p t n : store_step s (EnsureProject now p t n s).2
| step_PutAPIKey k : store_step s (PutAPIKey k s).2
| step_TouchAPIKey h t : store_step s (TouchAPIKeyLastUsed h t s).2
| step_CreateIdem r : store_step s (CreateIdempotencyRecord r s).2
| step_UpdateIdem r : store_step s (UpdateIdempotencyRecord r s).2
| step_DeleteIdem sc p k : store_step s (DeleteIdempotencyRecord sc p k s).2
| step_PutArtifact a : store_step s (PutArtifact a s).2
| step_PutFunctionVersion v : store_step s (PutFunctionVersion v s).2
| step_PutBuildJob j : store_step s (PutBuildJob j s).2
| step_PutExecutionJob j : store_step s (PutExecutionJob j s).2
| step_UpdateExecutionJob j : store_step s (UpdateExecutionJob j s).2
| step_Claim from to now : store_step s (ClaimNextExecutionJob from to now s).2
| step_Requeue from to sb now e : store_step s (RequeueStaleExecutionJobs from to sb now e s).2
| step_PutAttempt a : store_step s (PutAttempt a s).2
| step_UpdateAttempt a : store_step s (UpdateAttempt a s).2
| step_PutCostRecord r : store_step s (PutCostRecord r s).2
| step_PutHost h : store_step s (PutHost h s).2
| step_UpdateHost h : store_step s (UpdateHost h s).2
| step_ReplaceWarmPools r h ps : store_step s (ReplaceWarmPoolsForHost r h ps s).2
| step_PutWebhookTrigger t : store_step s (PutWebhookTrigger t s).2
| step_PutHTTPTrigger t : store_step s (PutHTTPTrigger t s).2
| step_PutRegion r : store_step s (PutRegion r s).2.

Create HintDb memstore.

Section Keyed.
Context {A : Type} (id : A → string).
Implicit Types m : gmap string A.

Lemma keyed_empty : keyed id ∅.
Proof. apply map_Forall_empty. Qed.

Lemma keyed_insert x m : keyed id m → keyed id (<[id x := x]> m).
Proof. intros H. by apply map_Forall_insert_2. Qed.

Lemma keyed_insert_at k x m : id x = k → keyed id m → keyed id (<[k := x]> m).
Proof. intros <-. apply keyed_insert. Qed.

Lemma keyed_delete k m : keyed id m → keyed id (delete k m).
Proof. apply map_Forall_delete. Qed.

Lemma keyed_filter (P : string * A → Prop) `{!∀ kx, Decision (P kx)} m :
  keyed id m → keyed id (filter P m).
Proof. intros Hm k x [Hk _]%map_lookup_filter_Some. by apply Hm. Qed.

Lemma keyed_lookup k x m : keyed id m → m !! k = Some x → id x = k.
Proof. intros H. by apply H. Qed.

(** The records of a keyed map have different IDs. *)
Lemma keyed_inj m x y :
  keyed id m → x ∈ (map_to_list m).*2 → y ∈ (map_to_list m).*2 → id x = id y → x = y.
Proof.
  intros Hm Hx Hy E. apply list_elem_of_fmap in Hx as [[k x'] [-> Hx]].
  apply list_elem_of_fmap in Hy as [[k' y'] [-> Hy]]. simpl in *.
  rewrite elem_of_map_to_list in Hx, Hy.
  rewrite (keyed_lookup _ _ _ Hm Hx), (keyed_lookup _ _ _ Hm Hy) in E. congruence.
Qed.

End Keyed.

#[export] Hint Resolve keyed_empty keyed_insert keyed_delete keyed_filter : memstore.

Lemma store_wf_new : store_wf NewStore.
Proof. split; apply keyed_empty. Qed.

Lemma keyed_insert_pools pools m : keyed pool_key m → keyed pool_key (insert_pools pools m).
Proof.
  unfold insert_pools. revert m. induction pools as [|p pools IH]; simpl; auto with memstore.
Qed.

(** *** Selection *)

Lemma elem_of_select `{!MapOrder} {A} site (p : A → bool) (m : gmap string A) x :
  x ∈ select site p m ↔ p x = true ∧ ∃ k, m !! k = Some x.
Proof.
  unfold select. rewrite list_elem_of_fmap. split.
  - intros ([k y] & -> & [Hp Hin]%list_elem_of_filter). simpl in *.
    rewrite elem_of_map_iter in Hin. eauto.
  - intros [Hp [k Hk]]. exists (k, x). split; [done|]. apply list_elem_of_filter.
    split; [done|]. by apply elem_of_map_iter.
Qed.

Lemma NoDup_select_id `{!MapOrder} {A} (id : A → string) site p (m : gmap string A) :
  keyed id m → NoDup (id <$> select site p m).
Proof.
  intros Hk. unfold select. set (l := filter _ _).
  assert (id <$> l.*2 = l.*1) as ->.
  { rewrite <- list_fmap_compose. apply list_fmap_ext. intros i [k x] Hi. simpl.
    assert ((k, x) ∈ l) as Hin by (by eapply list_elem_of_lookup_2).
    apply list_elem_of_filter in Hin as [_ Hin]. apply elem_of_map_iter in Hin.
    by apply (keyed_lookup _ _ _ _ Hk). }
  apply (sublist_NoDup _ (map_iter site m).*1); [apply NoDup_map_iter_fst|].
  apply fmap_sublist, sublist_filter.
Qed.

Lemma select_perm {A} (o1 o2 : MapOrder) s1 s2 (p : A → bool) (m : gmap string A) :
  @select o1 A s1 p m ≡ₚ @select o2 A s2 p m.
Proof. unfold select. by rewrite !map_iter_perm. Qed.

Lemma select_keyed_inj `{!MapOrder} {A} (id : A → string) site p (m : gmap string A) x y :
  keyed id m → x ∈ select site p m → y ∈ select site p m → id x = id y → x = y.
Proof.
  intros Hm [_ [k Hk]]%elem_of_select [_ [k' Hk']]%elem_of_select E.
  rewrite (keyed_lookup _ _ _ _ Hm Hk), (keyed_lookup _ _ _ _ Hm Hk') in E. congruence.
Qed.

(** A sorted listing of a keyed map is the same for every iteration order. *)
Lemma select_sort_stable {A} (id : A → string) (less : A → A → bool) `{!StrictWeakOrder less}
    (o1 o2 : MapOrder) site (p : A → bool) (m : gmap string A) :
  keyed id m →
  (∀ x y, less x y = false → less y x = false → id x = id y) →
  SliceStable less (@select o1 A site p m) = SliceStable less (@select o2 A site p m).
Proof.
  intros Hm Hl. apply SliceStable_perm_eq; [done| |apply select_perm].
  intros x y Hx Hy H1 H2. eapply (@select_keyed_inj o1 A id); eauto.
Qed.

Lemma newest_first_total {A} (created : A → Time) (id : A → string) x y :
  newest_first created id x y = false → newest_first created id y x = false → id x = id y.
Proof.
  unfold newest_first. rewrite (Z.eqb_sym (created y)).
  destruct (created x =? created y)%Z eqn:E; [|lia].
  intros. by apply string_ltb_total.
Qed.

Lemma oldest_first_total {A} (created : A → Time) (id : A → string) x y :
  oldest_first created id x y = false → oldest_first created id y x = false → id x = id y.
Proof.
  unfold oldest_first. rewrite (Z.eqb_sym (created y)).
  destruct (created x =? created y)%Z eqn:E; [|lia].
  intros. by apply string_ltb_total.
Qed.

(** *** Claiming *)

Section Claim.
Context (from : list JobState).

Definition eligible_in (l : list ExecutionJob) (j : ExecutionJob) : Prop :=
  j ∈ l ∧ in_states from j = true.

(** [c] is what the loop holds after the jobs [l]. *)
Definition claim_inv (l : list ExecutionJob) (c : option ExecutionJob) : Prop :=
  match c with
  | None => ∀ i, i ∈ l → in_states from i = false
  | Some j => eligible_in l j ∧ ∀ i, eligible_in l i → claim_before i j = false
  end.

Lemma claim_inv_step l c j : claim_inv l c → claim_inv (l ++ [j]) (claim_pick from c j).
Proof.
  unfold claim_pick. destruct (in_states from j) eqn:Ej.
  - destruct c as [c|]; simpl.
    + intros [[Hc Hec] Hmin]. destruct (claim_before j c) eqn:Eb; simpl.
      * split; [split; [set_solver|done]|]. intros i [Hi Hei].
        destruct (claim_before i j) eqn:E; [|done].
        apply elem_of_app in Hi as [Hi|Hi%list_elem_of_singleton].
        -- destruct (swo_cotrans _ i c j E) as [H|H].
           ++ assert (claim_before i c = false) by (apply Hmin; by split). congruence.
           ++ apply (swo_asym claim_before) in H. congruence.
        -- subst i. by rewrite (swo_irrefl claim_before) in E.
      * split; [split; [set_solver|done]|]. intros i [Hi Hei].
        apply elem_of_app in Hi as [Hi|Hi%list_elem_of_singleton]; [by apply Hmin|].
        by subst.
    + intros Hn. split; [split; [set_solver|done]|]. intros i [Hi Hei].
      apply elem_of_app in Hi as [Hi|Hi%list_elem_of_singleton].
      * rewrite Hn in Hei; done.
      * subst. apply (swo_irrefl claim_before).
  - destruct c as [c|]; simpl.
    + intros [[Hc Hec] Hmin]. split; [split; [set_solver|done]|].
      intros i [Hi Hei]. apply Hmin.
      apply elem_of_app in Hi as [Hi|Hi%list_elem_of_singleton]; [by split|by subst; congruence].
    + intros Hn i [Hi|Hi%list_elem_of_singleton]%elem_of_app; [by apply Hn|by subst].
Qed.

Lemma claim_inv_foldl l l' c : claim_inv l c → claim_inv (l ++ l') (foldl (claim_pick from) c l').
Proof.
  revert l c. induction l' as [|j l' IH]; intros l c Hc; simpl; [by rewrite app_nil_r|].
  rewrite cons_middle, app_assoc. apply IH. by apply claim_inv_step.
Qed.

Lemma claim_fold_spec l : claim_inv l (foldl (claim_pick from) None l).
Proof. apply (claim_inv_foldl []). simpl. intros i Hi. set_solver. Qed.

(** Lists with the same members, whose members have different IDs, yield the
    same choice. *)
Lemma claim_fold_perm l l' :
  l ≡ₚ l' → (∀ x y, x ∈ l → y ∈ l → job_ID x = job_ID y → x = y) →
  foldl (claim_pick from) None l = foldl (claim_pick from) None l'.
Proof.
  intros Hp Hinj.
  pose proof (claim_fold_spec l) as H1. pose proof (claim_fold_spec l') as H2.
  destruct (foldl _ None l) as [j|], (foldl _ None l') as [j'|]; simpl in *.
  - destruct H1 as [[H1 E1] M1], H2 as [[H2 E2] M2]. rewrite <- Hp in H2.
    f_equal. apply Hinj; [done..|]. apply claim_before_total.
    + apply M2. split; [by rewrite <- Hp|done].
    + apply M1. by split.
  - destruct H1 as [[H1 E1] _]. rewrite Hp in H1. rewrite H2 in E1; done.
  - destruct H2 as [[H2 E2] _]. rewrite <- Hp in H2. rewrite H1 in E2; done.
  - done.
Qed.

End Claim.

Lemma elem_of_iter_snd `{!MapOrder} {A} site (m : gmap string A) x :
  x ∈ (map_iter site m).*2 ↔ ∃ k, m !! k = Some x.
Proof.
  rewrite list_elem_of_fmap. split.
  - intros ([k y] & -> & Hin). rewrite elem_of_map_iter in Hin. eauto.
  - intros [k Hk]. exists (k, x). by rewrite elem_of_map_iter.
Qed.

(** *** Requeueing *)

Lemma requeue_fold from to sb now e (l : list (string * ExecutionJob)) m c :
  NoDup l.*1 → (∀ k j, (k, j) ∈ l → m !! k = Some j) →
  foldl (requeue_step from to sb now e) (m, c) l =
  (map_imap (λ k j, Some (if bool_decide (k ∈ l.*1) && is_stale from sb j
                          then requeue_job to now e j else j)) m,
   (c + Z.of_nat (length (filter (λ kx, is_stale from sb kx.2 = true) l)))%Z).
Proof.
  revert m c. induction l as [|[k j] l IH]; intros m c Hnd Hl.
  - simpl. f_equal; [|lia]. apply map_eq. intros i. rewrite map_lookup_imap.
    by destruct (m !! i).
  - rewrite fmap_cons in *. cbn [foldl requeue_step fst] in *.
    apply NoDup_cons in Hnd as [Hk Hnd].
    assert (m !! k = Some j) as Hmk by (apply Hl; left).
    destruct (is_stale from sb j) eqn:Es.
    + rewrite IH; [|done|].
      2:{ intros k' j' Hin. rewrite lookup_insert_ne; [apply Hl; by right|].
          intros <-. apply Hk. apply list_elem_of_fmap. by exists (k, j'). }
      rewrite filter_cons_True by done. f_equal; [|simpl; lia].
      apply map_eq. intros i. rewrite !map_lookup_imap.
      destruct (decide (i = k)) as [->|Hne].
      * rewrite lookup_insert_eq, Hmk. simpl. rewrite Es.
        rewrite (bool_decide_eq_false_2 (k ∈ l.*1)) by done.
        by rewrite bool_decide_eq_true_2 by set_solver.
      * rewrite lookup_insert_ne by done. destruct (m !! i); simpl; [|done].
        rewrite (bool_decide_ext (i ∈ k :: l.*1) (i ∈ l.*1)); [done|]. rewrite elem_of_cons. tauto.
    + rewrite IH; [|done|intros; apply Hl; by right].
      rewrite filter_cons_False by (simpl; congruence). f_equal.
      apply map_eq. intros i. rewrite !map_lookup_imap.
      destruct (m !! i) as [j'|] eqn:Ei; simpl; [|done].
      destruct (decide (i = k)) as [->|Hne].
      * assert (j' = j) as -> by congruence. by rewrite Es, !andb_false_r.
      * rewrite (bool_decide_ext (i ∈ k :: l.*1) (i ∈ l.*1)); [done|]. rewrite elem_of_cons. tauto.
Qed.

Lemma requeue_fold_map `{!MapOrder} from to sb now e (m : gmap string ExecutionJob) :
  foldl (requeue_step from to sb now e) (m, 0%Z) (map_iter 426 m) =
  ((λ j, if is_stale from sb j then requeue_job to now e j else j) <$> m,
   count_map (is_stale from sb) m).
Proof.
  rewrite requeue_fold; [|apply NoDup_map_iter_fst|intros k j; apply elem_of_map_iter].
  f_equal; [|unfold count_map; by rewrite map_iter_perm].
  apply map_eq. intros i. rewrite map_lookup_imap, lookup_fmap.
  destruct (m !! i) as [j|] eqn:E; simpl; [|done].
  rewrite bool_decide_eq_true_2; [done|]. apply list_elem_of_fmap.
  exists (i, j). by rewrite elem_of_map_iter.
Qed.

Lemma job_ID_requeue to now e j : job_ID (requeue_job to now e j) = job_ID j.
Proof. unfold requeue_job. by destruct (blank e). Qed.

(** *** Composite keys *)

Definition colon : Ascii.ascii := Ascii.ascii_of_N 58.

Fixpoint no_colon (s : string) : bool :=
  match s with
  | EmptyString => true
  | String a s' => negb (Ascii.eqb a colon) && no_colon s'
  end.

Lemma split_colon_inj s1 s2 t1 t2 :
  no_colon s1 = true → no_colon s2 = true →
  s1 +:+ ":" +:+ t1 = s2 +:+ ":" +:+ t2 → s1 = s2 ∧ t1 = t2.
Proof.
  revert s2. induction s1 as [|a s1 IH]; intros [|b s2] H1 H2.
  - intros [=]. done.
  - simpl in H2. rewrite string_app_cons. intros [= <- _]. done.
  - simpl in H1. rewrite string_app_cons. intros [= -> _]. done.
  - simpl in H1, H2. apply andb_true_iff in H1 as [_ H1], H2 as [_ H2].
    rewrite !string_app_cons. intros [= -> E]. destruct (IH _ H1 H2 E) as [-> ->]. done.
Qed.

(** *** Invariant of the store steps *)

Ltac wf_fields := split; simpl; auto with memstore.

Lemma store_step_wf `{!MapOrder} s s' : store_wf s → store_step s s' → store_wf s'.
Proof.
  intros Hwf Hs. pose proof Hwf as [].
  destruct Hs; try by wf_fields.
  - unfold EnsureProject. destruct (st_projects s !! p); [by case_bool_decide|].
    wf_fields. by apply keyed_insert_at.
  - unfold TouchAPIKeyLastUsed. destruct (st_apiKeys s !! h) eqn:E; [|done].
    wf_fields. apply keyed_insert_at; [|done]. by apply (keyed_lookup _ _ _ _ wf_apiKeys0 E).
  - unfold CreateIdempotencyRecord. destruct (st_idempotency s !! _); [done|]. wf_fields.
  - unfold ClaimNextExecutionJob. destruct (foldl _ _ _) as [j|]; [|done]. wf_fields.
    by apply keyed_insert_at.
  - unfold RequeueStaleExecutionJobs. rewrite requeue_fold_map. wf_fields.
    intros k j. rewrite lookup_fmap, fmap_Some. intros (j' & Hj & ->).
    rewrite <- (keyed_lookup _ _ _ _ wf_executionJobs0 Hj).
    destruct (is_stale from sb j'); [apply job_ID_requeue|done].
  - wf_fields. apply keyed_insert_pools. auto with memstore.
  - unfold PutWebhookTrigger. destruct (st_webhookTriggers s !! _); [done|]. wf_fields.
  - unfold PutHTTPTrigger. destruct (st_httpTriggers s !! _); [done|]. wf_fields.
Qed.

(** ** Properties *)

(** In every store reached from the empty one by any sequence of the
    mutating store methods, in any map-iteration order, each record is filed
    under its own ID (hash, composite key, token or name), so a lookup returns
    a record that carries the key it was asked for. *)
Theorem store_wf_reachable (o : MapOrder) (s : Store) :
  rtc store_step NewStore s → store_wf s.
Proof.
  intros Hr. assert (store_wf NewStore → store_wf s) as H; [|apply H, store_wf_new].
  induction Hr; [done|]. intros Hwf. apply IHHr. by eapply store_step_wf.
Qed.

Lemma store_wf_reachable_witness :
  store_wf (@ClaimNextExecutionJob list_order [JobStateQueued] JobStateScheduling 9
    (PutExecutionJob (mkExecutionJob "j" "v" "p" "" JobStateQueued "" 0 0 "" "" None 1 1)
       NewStore).2).2.
Proof.
  apply (store_wf_reachable list_order).
  eapply rtc_l; [apply step_PutExecutionJob|]. eapply rtc_l; [apply step_Claim|]. apply rtc_refl.
Defined.

(** C31: [ClaimNextExecutionJob] on a well-formed store.  On success the claimed
    job is an eligible job that no eligible job precedes in the order (last
    update, creation, ID); it is returned and stored with the new state and
    time, under its ID, and every other record of the store is unchanged.  It
    fails exactly when no job is in one of the states, with [ErrNotFound], and
    then the store is unchanged. *)
Theorem claim_next_spec (o : MapOrder) from to now (s : Store) :
  store_wf s →
  match ClaimNextExecutionJob from to now s with
  | (Ok j', s') =>
      ∃ j, st_executionJobs s !! job_ID j = Some j ∧ in_states from j = true ∧
        (∀ k i, st_executionJobs s !! k = Some i → in_states from i = true → claim_before i j = false) ∧
        j' = j <| job_State := to |> <| job_UpdatedAt := now |> ∧
        s' = s <| st_executionJobs := <[job_ID j := j']> (st_executionJobs s) |>
  | (Err e, s') =>
      s' = s ∧ errors_Is e ErrNotFound = true ∧
      ∀ k i, st_executionJobs s !! k = Some i → in_states from i = false
  end.
Proof.
  intros Hwf. unfold ClaimNextExecutionJob.
  pose proof (claim_fold_spec from (map_iter 399 (st_executionJobs s)).*2) as Hc.
  destruct (foldl _ None _) as [j|]; simpl in *.
  - destruct Hc as [[Hj He] Hmin]. apply elem_of_iter_snd in Hj as [k Hk].
    assert (job_ID j = k) as E by apply (keyed_lookup _ _ _ _ (wf_executionJobs s Hwf) Hk).
    exists j. split_and!; [by rewrite E|done| |done|done].
    intros k' i Hi Hei. apply Hmin. split; [|done]. apply elem_of_iter_snd. eauto.
  - split_and!; [done|done|]. intros k i Hi. apply Hc. apply elem_of_iter_snd. eauto.
Qed.

Definition claim_demo : Store :=
  NewStore <| st_executionJobs :=
    {["a" := mkExecutionJob "a" "v" "p" "" JobStateQueued "" 1 0 "" "" None 5 7;
      "b" := mkExecutionJob "b" "v" "p" "" JobStateRetrying "" 1 0 "" "" None 4 7;
      "c" := mkExecutionJob "c" "v" "p" "" JobStateRunning "" 1 1 "" "" None 1 1 ]} |>.

Lemma claim_demo_wf : store_wf claim_demo.
Proof.
  split; try apply keyed_empty. repeat apply keyed_insert_at; try reflexivity. apply keyed_empty.
Qed.

Lemma claim_next_spec_witness :
  store_wf claim_demo ∧
  job_ID <$> (match (@ClaimNextExecutionJob list_order
      [JobStateQueued; JobStateRetrying] JobStateScheduling 9 claim_demo).1 with
    Ok j => Some j | Err _ => None end) = Some "b" ∧
  ∃ j, st_executionJobs claim_demo !! job_ID j = Some j ∧
    in_states [JobStateQueued; JobStateRetrying] j = true.
Proof.
  split; [apply claim_demo_wf|]. split; [vm_compute; reflexivity|].
  pose proof (claim_next_spec list_order [JobStateQueued; JobStateRetrying] JobStateScheduling 9
    claim_demo claim_demo_wf) as H.
  destruct (ClaimNextExecutionJob _ _ _ _) as [[j'|e] s'] eqn:E.
  - destruct H as (j & H1 & H2 & _). eauto.
  - vm_compute in E. discriminate.
Defined.

(** Which job is claimed does not depend on the order in which Go iterates
    over the job map: any two iteration orders give the same result and the
    same store. *)
Theorem claim_next_order_independent (o1 o2 : MapOrder) from to now (s : Store) :
  store_wf s →
  @ClaimNextExecutionJob o1 from to now s = @ClaimNextExecutionJob o2 from to now s.
Proof.
  intros Hwf. unfold ClaimNextExecutionJob.
  rewrite (claim_fold_perm from (@map_iter o1 399 _ (st_executionJobs s)).*2
             (@map_iter o2 399 _ (st_executionJobs s)).*2); [done| |].
  - by rewrite !map_iter_perm.
  - intros x y Hx Hy. rewrite map_iter_perm in Hx, Hy.
    by apply (keyed_inj _ _ _ _ (wf_executionJobs s Hwf)).
Qed.

Lemma claim_next_order_independent_witness :
  @ClaimNextExecutionJob list_order [JobStateQueued; JobStateRetrying] JobStateScheduling 9 claim_demo =
  @ClaimNextExecutionJob rev_order [JobStateQueued; JobStateRetrying] JobStateScheduling 9 claim_demo.
Proof. apply (claim_next_order_independent list_order rev_order). apply claim_demo_wf. Defined.

(** [RequeueStaleExecutionJobs] rewrites exactly the jobs in the source
    state whose last update is not after the cut-off (new state, no target
    region, the trimmed message when it is not blank, new time), leaves every
    other job and every other map alone, and returns how many it rewrote; the
    loop and the map form agree for every iteration order. *)
Theorem requeue_stale_spec (o : MapOrder) from to staleBefore now msg (s : Store) :
  RequeueStaleExecutionJobs from to staleBefore now msg s =
  (Ok (count_map (is_stale from staleBefore) (st_executionJobs s)),
   s <| st_executionJobs :=
     (λ j, if is_stale from staleBefore j then requeue_job to now msg j else j)
       <$> st_executionJobs s |>).
Proof. unfold RequeueStaleExecutionJobs. by rewrite requeue_fold_map. Qed.

(** [ListExecutionJobsByProject] on a well-formed store returns exactly the
    jobs of the project, newest first (no job of the list is followed by one
    that precedes it), and the list is the same for every iteration order. *)
Theorem list_jobs_by_project_spec (o o' : MapOrder) projectID (s : Store) :
  store_wf s →
  ∃ jobs, @ListExecutionJobsByProject o projectID s = (Ok jobs, s) ∧
    @ListExecutionJobsByProject o' projectID s = (Ok jobs, s) ∧
    (∀ j, j ∈ jobs ↔ job_ProjectID j = projectID ∧ st_executionJobs s !! job_ID j = Some j) ∧
    StronglySorted (λ x y, newest_first job_CreatedAt job_ID y x = false) jobs.
Proof.
  intros Hwf. eexists. split; [reflexivity|]. split; [|split].
  - unfold ListExecutionJobsByProject. do 2 f_equal. symmetry.
    apply (select_sort_stable job_ID); [apply _|apply Hwf|apply newest_first_total].
  - intros j. rewrite elem_of_SliceStable, elem_of_select, bool_decide_eq_true.
    split; [|by intros [? ?]; eauto]. intros [H [k Hk]]. split; [done|].
    by rewrite (keyed_lookup _ _ _ _ (wf_executionJobs s Hwf) Hk).
  - apply SliceStable_sorted. apply _.
Qed.

Lemma list_jobs_by_project_spec_witness :
  ∃ jobs, @ListExecutionJobsByProject list_order "p" claim_demo = (Ok jobs, claim_demo) ∧
    length jobs = 3.
Proof.
  destruct (list_jobs_by_project_spec list_order rev_order "p" claim_demo claim_demo_wf)
    as (jobs & H & _). exists jobs. split; [done|].
  vm_compute in H. injection H as <-. reflexivity.
Defined.

(** The composite idempotency key identifies scope, project and client key
    when scope and project contain no colon. *)
Theorem idempotencyKey_inj scope1 project1 key1 scope2 project2 key2 :
  no_colon scope1 = true → no_colon project1 = true →
  no_colon scope2 = true → no_colon project2 = true →
  idempotencyKey scope1 project1 key1 = idempotencyKey scope2 project2 key2 →
  scope1 = scope2 ∧ project1 = project2 ∧ key1 = key2.
Proof.
  unfold idempotencyKey. intros H1 H2 H3 H4 E.
  apply split_colon_inj in E as [-> E]; [|done..].
  by apply split_colon_inj in E as [-> ->].
Qed.

Lemma idempotencyKey_inj_witness :
  idempotencyKey "invoke" "p" "k:1" = idempotencyKey "invoke" "p" "k:1" ∧
  ("invoke" = "invoke" ∧ "p" = "p" ∧ "k:1" = "k:1").
Proof.
  split; [reflexivity|].
  apply (idempotencyKey_inj "invoke" "p" "k:1" "invoke" "p" "k:1"); reflexivity.
Defined.

(** Without that restriction two different projects share a record: the
    project ["a:b"] with client key ["c"] and the project ["a"] with client key
    ["b:c"] have the same composite key, so the second project's create is
    refused and its lookup returns the first project's record. *)
Theorem idempotencyKey_collision (r : IdempotencyRecord) (s : Store) :
  st_idempotency s = ∅ →
  let r1 := r <| idem_ProjectID := "a:b" |> <| idem_Key := "c" |> in
  let r2 := r <| idem_ProjectID := "a" |> <| idem_Key := "b:c" |> in
  let s1 := (CreateIdempotencyRecord r1 s).2 in
  (∃ e, (CreateIdempotencyRecord r2 s1).1 = Err e ∧ errors_Is e ErrAlreadyExists = true) ∧
  (GetIdempotencyRecord (idem_Scope r2) "a" "b:c" s1).1 = Ok r1.
Proof.
  intros E r1 r2 s1.
  assert (record_key r2 = record_key r1) as Ek by done.
  assert (st_idempotency s1 = {[record_key r1 := r1]}) as Es.
  { unfold s1, CreateIdempotencyRecord. by rewrite E, lookup_empty. }
  split.
  - unfold CreateIdempotencyRecord. rewrite Ek, Es, lookup_singleton_eq. by eexists.
  - unfold GetIdempotencyRecord, find.
    change (idempotencyKey (idem_Scope r2) "a" "b:c") with (record_key r1).
    by rewrite Es, lookup_singleton_eq.
Qed.

Lemma idempotencyKey_collision_witness :
  let r := mkIdempotencyRecord "invoke" "" "" "h" "" "execution_job" IdempotencyStatusPending 1 1 in
  (GetIdempotencyRecord "invoke" "a" "b:c"
    (CreateIdempotencyRecord (r <| idem_ProjectID := "a:b" |> <| idem_Key := "c" |>) NewStore).2).1
  = Ok (r <| idem_ProjectID := "a:b" |> <| idem_Key := "c" |>).
Proof.
  simpl. exact (proj2 (idempotencyKey_collision
    (mkIdempotencyRecord "invoke" "" "" "h" "" "execution_job" IdempotencyStatusPending 1 1)
    NewStore eq_refl)).
Defined.
