(* ===== verification/World.v ===== *)
(** * World: the shared state the services act on

    The scheduler, the coordinators, the recovery loop and the build service
    share one metadata store and a wall clock.  [World] holds the store, the
    state of each regional coordinator and the wake-up flag of the scheduler;
    the environment [GoEnv] supplies what the program reads from outside: the
    clock readings, the UUIDs, the infrastructure errors of the store, and the
    functions of [encoding/json] and [crypto/sha256] used for request hashes.

    A service talks to a [store.Store] interface.  [call] is one method call
    through it.  Methods are atomic, but between two calls of a handler other
    goroutines and other processes use the store too: [env_other n] is what they
    did since the previous call.  Then either the implementation fails for a
    reason of its own (a database error) without effect, or it behaves as the
    in-memory store.  In a [quiet] environment (no faults, nobody else) this is
    exactly [memory.Store]. *)

From stdpp Require Import base decidable tactics numbers list gmap strings pretty.
From S2P Require Import Prelude Domain MemStore.

Class GoEnv := {
  env_order :: MapOrder;
  env_clock : nat → Time;
  env_uuid : nat → string;
  env_fault : nat → option GoError;
  env_other : nat → Store → Store;
  json_Compact : string → option string;
  json_MarshalInvoke : string → string → result string;
  sha256_hex : string → string;
}.

(** ** Coordinator state ([internal/coordinator], struct [Service]) *)

(** A session's [sendCh] is [None] for an embedded host; [hs_executor] and
    [hs_preparer] tell whether the function values are non-nil. *)
Record hostSession := mkHostSession {
  hs_host : Host;
  hs_sendCh : option (list CoordinatorMessage);
  hs_executor : bool;
  hs_preparer : bool;
}.

#[export] Instance hostSession_rebuild : Rebuild hostSession := λ r,
  mkHostSession (hs_host r) (hs_sendCh r) (hs_executor r) (hs_preparer r).

(** The object [ExecuteDirectStream] waits on; it outlives its registration.
    [dw_updates] holds the buffered updates of its channel and is [None] once a
    cancelled call has dropped the channel. *)
Record directInvokeWaiter := mkDirectInvokeWaiter {
  dw_updates : option (list AssignmentUpdate);
  dw_canceled : bool;
}.

(** Goroutines a coordinator starts: an embedded executor or preparer, the
    retry of a failed job, and the blocked delivery of a final update. *)
Inductive Goroutine :=
| GoExecute (hostID : string) (a : ExecutionAssignment)
| GoPrepare (hostID : string) (p : PrepareSnapshot)
| GoRetry (jobID : string)
| GoDeliver (u : AssignmentUpdate).

(** [c_directInvokes] holds the attempts registered in the [directInvokes]
    map, [c_waiters] the waiter objects by attempt. *)
Record Coordinator := mkCoordinator {
  c_region : string;
  c_retry : bool;
  c_staleHostAfter : Duration;
  c_reapInterval : Duration;
  c_hosts : gmap string hostSession;
  c_directInvokes : gset string;
  c_waiters : gmap string directInvokeWaiter;
  c_spawned : list Goroutine;
}.

#[export] Instance Coordinator_rebuild : Rebuild Coordinator := λ r,
  mkCoordinator (c_region r) (c_retry r) (c_staleHostAfter r) (c_reapInterval r) (c_hosts r)
    (c_directInvokes r) (c_waiters r) (c_spawned r).

(** ** Responses in progress ([internal/httpapi])

    The response of one HTTP request: the header map the handler may still
    change, the status and headers that were sent ([None] before the first
    [WriteHeader]) and the bytes written.  The [sw_] fields are those of the
    request's [httpDirectStreamWriter] that change. *)

Abbreviation Header := (gmap string (list string)).

Record Conn := mkConn {
  cn_Header : Header;
  cn_Sent : option (Z * Header);
  cn_Body : string;
  sw_started : bool;
  sw_closed : bool;
  sw_status : Z;
  sw_jobID : string;
  sw_startMode : StartMode;
}.

#[export] Instance Conn_rebuild : Rebuild Conn := λ r,
  mkConn (cn_Header r) (cn_Sent r) (cn_Body r) (sw_started r) (sw_closed r) (sw_status r)
    (sw_jobID r) (sw_startMode r).

(** ** The world

    [w_conns] holds the responses in progress by connection.  [w_objects] holds
    the object stores by name: the primary one under the empty name, the regional
    ones under the names of their regions. *)

Record World := mkWorld {
  w_store : Store;
  w_coords : gmap string Coordinator;
  w_wake : bool;
  w_tick : nat;
  w_uid : nat;
  w_calls : nat;
  w_objects : gmap string (gmap string string);
  w_conns : gmap string Conn;
}.

#[export] Instance World_rebuild : Rebuild World := λ r,
  mkWorld (w_store r) (w_coords r) (w_wake r) (w_tick r) (w_uid r) (w_calls r)
    (w_objects r) (w_conns r).

Abbreviation WM A := (M World A).

Definition NewWorld : World := mkWorld NewStore ∅ false 0 0 0 ∅ ∅.

Section Effects.
Context `{!GoEnv}.

(** [s.now()] and [time.Now().UTC()]: the next reading of the clock. *)
Definition now : WM Time := λ w,
  (Ok (env_clock (w_tick w)), w <| w_tick := S (w_tick w) |>).

(** [uuid.NewString()] *)
Definition NewString : WM string := λ w,
  (Ok (env_uuid (w_uid w)), w <| w_uid := S (w_uid w) |>).

(** One method call on the store. *)
Definition call {A} (op : StoreM A) : WM A := λ w,
  let w1 := w <| w_calls := S (w_calls w) |>
              <| w_store := env_other (w_calls w) (w_store w) |> in
  match env_fault (w_calls w) with
  | Some e => (Err e, w1)
  | None => let '(r, s) := op (w_store w1) in (r, w1 <| w_store := s |>)
  end.

(** [_ = f(...)]: the error is dropped. *)
Definition ignore {A} (m : WM A) : WM unit := try m ≫= λ _, mret tt.

(** [s.wake()] of the scheduler: a non-blocking send on a channel of size 1. *)
Definition wake : WM unit := modify (λ w, w <| w_wake := true |>).

(** [idempotency.NormalizeJSON] *)
Definition NormalizeJSON (raw : string) : string :=
  if bool_decide (raw = "") then "null"
  else match json_Compact raw with Some c => c | None => raw end.

End Effects.

(** No call on the store fails for infrastructure reasons, and no one else
    writes to the store. *)
Definition quiet (E : GoEnv) : Prop :=
  (∀ n, env_fault n = None) ∧ ∀ n s, env_other n s = s.

(** Whatever the others do to the store keeps [J]. *)
Definition rely (E : GoEnv) (J : Store → Prop) : Prop := ∀ n s, J s → J (env_other n s).

(** Later readings of the clock are not earlier. *)
Definition monotone_clock (E : GoEnv) : Prop := ∀ n m, n ≤ m → (env_clock n ≤ env_clock m)%Z.

(** An environment for concrete runs: one nanosecond per clock reading,
    numbered UUIDs, quiet. *)
Definition demo_env : GoEnv := {|
  env_order := list_order;
  env_clock n := (1000000000000 + Z.of_nat n)%Z;
  env_uuid n := "uuid-" +:+ pretty n;
  env_fault _ := None;
  env_other _ s := s;
  json_Compact s := Some s;
  json_MarshalInvoke v p := Ok (v +:+ "|" +:+ p);
  sha256_hex s := "sha:" +:+ s;
|}.

Lemma demo_quiet : quiet demo_env.
Proof. done. Qed.

Lemma quiet_rely (E : GoEnv) J : quiet E → rely E J.
Proof. intros [_ H] n s Hs. by rewrite H. Qed.

Lemma demo_monotone : monotone_clock demo_env.
Proof. intros n m H. simpl. lia. Qed.

(** ** Invariants along service code

    An invariant of the system is a property [J] of the store together with a
    property [K] of the coordinators' memory.  A service method keeps it when
    every store call it makes keeps [J], given that the others do ([rely]), and
    every assignment to a coordinator's memory keeps [K]. *)

Definition inv_on (J : Store → Prop) (K : gmap string Coordinator → Prop) (w : World) : Prop :=
  J (w_store w) ∧ K (w_coords w).

Section Invariants.
Context `{E : !GoEnv} (J : Store → Prop) (K : gmap string Coordinator → Prop).
Abbreviation Inv := (inv_on J K).

Lemma keeps_now : preserves Inv now.
Proof. intros w Hw. by split. Qed.

Lemma keeps_NewString : preserves Inv NewString.
Proof. intros w Hw. by split. Qed.

Lemma keeps_wake : preserves Inv wake.
Proof. intros w Hw. by split. Qed.

Lemma keeps_call {A} (V : A → Prop) (op : StoreM A) :
  rely E J →
  (∀ s, J s → J (op s).2 ∧ ∀ a, (op s).1 = Ok a → V a) → keeps Inv V (call op).
Proof.
  intros HR Hop w [Hw HK]. unfold call. apply (HR (w_calls w)) in Hw.
  destruct (env_fault (w_calls w)).
  - split; [done|]. intros ? [=].
  - specialize (Hop _ Hw). simpl.
    destruct (op (env_other (w_calls w) (w_store w))); simpl in *. by destruct Hop.
Qed.

Lemma keeps_ignore {A} (V : A → Prop) (m : WM A) : keeps Inv V m → preserves Inv (ignore m).
Proof. intros Hm. eapply keeps_bind; [by apply keeps_try|]. intros. by apply keeps_ret. Qed.

End Invariants.

(** The result of a call in a quiet environment. *)
Lemma call_ok `{E : !GoEnv} {A} (op : StoreM A) w :
  quiet E →
  call op w = ((op (w_store w)).1,
    w <| w_calls := S (w_calls w) |> <| w_store := (op (w_store w)).2 |>).
Proof.
  intros [Hf Ho]. unfold call. rewrite Hf. simpl. rewrite Ho. by destruct (op (w_store w)).
Qed.

(** Two states that differ only in how often the clock, the UUID source and the
    store were used. *)
Definition same_state (w w' : World) : Prop :=
  w_store w' = w_store w ∧ w_coords w' = w_coords w ∧ w_wake w' = w_wake w ∧
  w_objects w' = w_objects w ∧ w_conns w' = w_conns w.

#[export] Instance same_state_equiv : Equivalence same_state.
Proof.
  split.
  - by intros w.
  - intros w w' (H1 & H2 & H3 & H4 & H5). by repeat split.
  - intros w1 w2 w3 (H1 & H2 & H3 & H4 & H5) (K1 & K2 & K3 & K4 & K5). repeat split; congruence.
Qed.

(** ** Running code in a quiet environment

    [run] executes the leading calls of a method applied to a state. *)

Lemma run_ignore {A} (m : WM A) w r w' : m w = (r, w') → ignore m w = (Ok tt, w').
Proof. intros E. unfold ignore. by rewrite (run_bind _ _ _ _ _ (run_try _ _ _ _ E)). Qed.

Section Run.
Context `{E : !GoEnv} (Hq : quiet E).

Lemma run_call {A} (op : StoreM A) w r s :
  op (w_store w) = (r, s) →
  call op w = (r, w <| w_calls := S (w_calls w) |> <| w_store := s |>).
Proof. intros Eo. by rewrite (call_ok _ _ Hq), Eo. Qed.

Lemma run_find {A} (proj : Store → gmap string A) kind id w x :
  proj (w_store w) !! id = Some x →
  call (find proj kind id) w = (Ok x, w <| w_calls := S (w_calls w) |>).
Proof. intros El. unfold find. erewrite run_call by (by rewrite El). by destruct w. Qed.

Lemma run_find_none {A} (proj : Store → gmap string A) kind id w :
  proj (w_store w) !! id = None →
  call (find proj kind id) w = (Err (notFound kind id), w <| w_calls := S (w_calls w) |>).
Proof. intros El. unfold find. erewrite run_call by (by rewrite El). by destruct w. Qed.

End Run.
