(* ===== verification/Jobs.v ===== *)
(** * Jobs: the invariant of execution jobs

    What every component relies on when it reads a job: the retry budget was
    respected, a succeeded job carries its result, a queued job is charged to no
    region, and a ready function version has its artifact record.  The file
    states the invariant on the store, shows that the store calls the services
    make keep it, and sets up the automation with which the services' handlers
    are shown to keep it ([keep]). *)

From stdpp Require Import base decidable tactics numbers list gmap strings sorting.
From S2P Require Import Prelude Domain MemStore World.

Record job_ok (j : ExecutionJob) : Prop := {
  ok_budget : (0 ≤ job_AttemptCount j ≤ job_MaxRetries j + 1)%Z;
  ok_succeeded : job_State j = JobStateSucceeded → job_Error j = "" ∧ is_Some (job_Result j);
  ok_queued : job_State j = JobStateQueued → job_TargetRegion j = "";
}.

Definition version_ok (v : FunctionVersion) : Prop := (0 ≤ fv_MaxRetries v)%Z.

(** A job that may be attempted once more. *)
Definition attemptable (j : ExecutionJob) : Prop :=
  job_ok j ∧ (job_AttemptCount j ≤ job_MaxRetries j)%Z.

Record jobs_wf (s : Store) : Prop := {
  wf_jobs : map_Forall (λ _, job_ok) (st_executionJobs s);
  wf_versions : map_Forall (λ _, version_ok) (st_functions s);
  wf_ready : map_Forall (λ _ v, fv_State v = FunctionStateReady →
    is_Some (st_artifacts s !! fv_ArtifactDigest v)) (st_functions s);
}.

Lemma jobs_wf_new : jobs_wf NewStore.
Proof. split; apply map_Forall_empty. Qed.

(** The other writers do not remove artifact records. *)
Definition artifacts_kept (E : GoEnv) : Prop :=
  ∀ n s d, is_Some (st_artifacts s !! d) → is_Some (st_artifacts (env_other n s) !! d).

Lemma quiet_artifacts_kept (E : GoEnv) : quiet E → artifacts_kept E.
Proof. intros [_ H] n s d Hd. by rewrite H. Qed.

Create HintDb keeps.

(** ** Store calls *)

(** [op] leaves jobs, function versions and artifacts alone. *)
Definition frames {A} (op : StoreM A) : Prop :=
  ∀ s, st_executionJobs (op s).2 = st_executionJobs s ∧ st_functions (op s).2 = st_functions s ∧
       st_artifacts (op s).2 = st_artifacts s.

Lemma frames_find {A} (proj : Store → gmap string A) kind id : frames (find proj kind id).
Proof. intros s. unfold find. by destruct (proj s !! id). Qed.

Ltac unfold_head op :=
  lazymatch op with
  | ?f _ => unfold_head f
  | ?f => unfold f
  end.

Ltac solve_frames :=
  first [ apply frames_find
        | intros ?; by repeat split
        | lazymatch goal with |- frames ?op => unfold_head op end;
          first [ apply frames_find
                | intros ?; cbn beta zeta; repeat case_match; by repeat split ] ].

Section Calls.
Context `{E : !GoEnv} (HR : rely E jobs_wf) (K : gmap string Coordinator → Prop).
Abbreviation Inv := (inv_on jobs_wf K).

Lemma keeps_frames {A} (op : StoreM A) : frames op → preserves Inv (call op).
Proof.
  intros Hf. apply keeps_call; [done|]. intros s [Hj Hv Hr]. destruct (Hf s) as (E1 & E2 & E3).
  split; [|done]. by split; rewrite ?E1, ?E2, ?E3.
Qed.

Lemma keeps_find {B} (proj : Store → gmap string B) (V : B → Prop) kind id :
  (∀ s, jobs_wf s → map_Forall (λ _, V) (proj s)) →
  keeps Inv V (call (find proj kind id)).
Proof.
  intros HV. apply keeps_call; [done|]. intros s Hs. unfold find.
  destruct (proj s !! id) eqn:El; simpl; split; try done.
  intros ? [= <-]. by eapply HV.
Qed.

Lemma keeps_GetExecutionJob id : keeps Inv job_ok (call (GetExecutionJob id)).
Proof. apply keeps_find. by intros s []. Qed.

Lemma keeps_GetFunctionVersion id : keeps Inv version_ok (call (GetFunctionVersion id)).
Proof. apply keeps_find. by intros s []. Qed.

Lemma keeps_UpdateExecutionJob j : job_ok j → preserves Inv (call (UpdateExecutionJob j)).
Proof.
  intros Hj. apply keeps_call; [done|]. intros s [H1 H2 H3]. split; [|done].
  split; simpl; [|done|done]. by apply map_Forall_insert_2.
Qed.

Lemma keeps_PutExecutionJob j : job_ok j → preserves Inv (call (PutExecutionJob j)).
Proof. apply keeps_UpdateExecutionJob. Qed.

Lemma keeps_PutFunctionVersion v :
  version_ok v → fv_State v ≠ FunctionStateReady → preserves Inv (call (PutFunctionVersion v)).
Proof.
  intros Hv Hn. apply keeps_call; [done|]. intros s [H1 H2 H3]. split; [|done].
  split; simpl; [done| |]; by apply map_Forall_insert_2.
Qed.

Lemma keeps_PutArtifact a : preserves Inv (call (PutArtifact a)).
Proof.
  apply keeps_call; [done|]. intros s [H1 H2 H3]. split; [|done]. split; simpl; [done..|].
  intros k v Hk Hr. destruct (decide (fv_ArtifactDigest v = art_Digest a)) as [->|Hne].
  - by rewrite lookup_insert_eq.
  - rewrite lookup_insert_ne by done. by eapply H3.
Qed.

Lemma keeps_Claim from to t :
  to ≠ JobStateSucceeded → to ≠ JobStateQueued →
  keeps Inv job_ok (call (ClaimNextExecutionJob from to t)).
Proof.
  intros Hs Hq. apply keeps_call; [done|]. intros s [H1 H2 H3]. unfold ClaimNextExecutionJob.
  pose proof (claim_fold_spec from (map_iter 399 (st_executionJobs s)).*2) as Hc.
  destruct (foldl _ None _) as [j|]; simpl; [|split; [by split|by intros ? [=]]].
  destruct Hc as [[Hj _] _]. apply elem_of_iter_snd in Hj as [k Hk].
  assert (job_ok (j <| job_State := to |> <| job_UpdatedAt := t |>)) as Hok.
  { destruct (H1 _ _ Hk). by split. }
  split; [split; simpl; [|done|done]; by apply map_Forall_insert_2|]. by intros ? [= <-].
Qed.

Lemma job_ok_requeue t msg j : job_ok j → job_ok (requeue_job JobStateQueued t msg j).
Proof. intros []. unfold requeue_job. by destruct (blank msg); split. Qed.

Lemma keeps_Requeue from sb t msg :
  preserves Inv (call (RequeueStaleExecutionJobs from JobStateQueued sb t msg)).
Proof.
  apply keeps_call; [done|]. intros s [H1 H2 H3]. split; [|done].
  unfold RequeueStaleExecutionJobs. rewrite requeue_fold_map. split; simpl; [|done|done].
  intros k j. rewrite lookup_fmap, fmap_Some. intros (j' & Hj & ->).
  apply H1 in Hj. destruct (is_stale _ _ _); [by apply job_ok_requeue|done].
Qed.

(** A loaded value with the invariant of its type, or the error. *)
Lemma keeps_try_any {A} (V : A → Prop) (m : WM A) :
  keeps Inv V m → keeps Inv (λ r, ∀ a, r = Ok a → V a) (try m).
Proof. apply keeps_try. Qed.

Lemma keeps_lift_any {A} (r : result A) : keeps Inv (λ _, True) (lift r).
Proof. by apply keeps_lift. Qed.

End Calls.

#[export] Hint Resolve keeps_GetExecutionJob keeps_GetFunctionVersion keeps_UpdateExecutionJob
  keeps_PutExecutionJob keeps_PutFunctionVersion keeps_PutArtifact keeps_Requeue keeps_try_any keeps_ignore
  keeps_now keeps_NewString keeps_lift_any keeps_wake : keeps.
#[export] Hint Extern 4 (keeps _ _ (call _)) => apply keeps_frames; [assumption|solve_frames] : keeps.
#[export] Hint Extern 3 (job_ok _) => assumption : keeps.
#[export] Hint Extern 3 (fv_State _ ≠ _) => discriminate : keeps.

(** Walk through a handler: the invariant is kept by each call, the values it
    returns are introduced with what the invariant says of them. *)
Ltac keep_step :=
  match goal with
  | |- keeps _ _ (mbind _ _) => eapply keeps_bind; [solve [eauto with keeps nocore]|intros ? ?]
  | |- keeps _ _ (mbind _ (match _ with _ => _ end)) =>
      eapply (keeps_bind _ _ _ (λ _, True)); [|intros ? ?]
  | |- keeps _ _ (mret _) => apply keeps_ret
  | |- keeps _ _ (fail _) => apply keeps_fail
  | |- keeps _ _ (match ?x with _ => _ end) => destruct x eqn:?
  | H : ∀ a, Ok ?x = Ok a → _ |- _ => specialize (H x eq_refl)
  | H : ∀ a, Err ?x = Ok a → _ |- _ => clear H
  | |- keeps _ _ _ => solve [eauto with keeps]
  | |- True => exact I
  end.
Ltac keep := repeat (keep_step; cbn beta zeta in * ).

(** The side conditions on rewritten jobs. *)
Ltac job_crush :=
  repeat match goal with
  | H : attemptable _ |- _ => destruct H
  | H : job_ok _ |- _ => destruct H
  | H : version_ok _ |- _ => unfold version_ok in H
  | H : (_ <? _)%Z = _ |- _ => apply Z.ltb_lt in H || apply Z.ltb_ge in H
  | H : (_ <=? _)%Z = _ |- _ => apply Z.leb_le in H || apply Z.leb_gt in H
  end;
  first [ split | idtac ]; simpl in *; first [ done | lia | auto | idtac ].
#[export] Hint Extern 5 (job_ok _) => solve [job_crush] : keeps.
#[export] Hint Extern 5 (attemptable _) => solve [split; job_crush] : keeps.
