(* ===== verification/Artifacts.v ===== *)
(** * Artifacts: object keys and the in-memory object store

    Models [internal/artifact/keys.go] and [internal/artifact/store.go]. *)

From Stdlib Require Import Ascii.
From stdpp Require Import base decidable tactics numbers list gmap strings.
From S2P Require Import Prelude.

Definition BuildLogsKey (buildJobID : string) : string :=
  "builds/" +:+ buildJobID +:+ "/logs.txt".

Definition ExecutionLogsKey (jobID attemptID : string) : string :=
  "executions/" +:+ jobID +:+ "/" +:+ attemptID +:+ "/logs.txt".

Definition ExecutionOutputKey (jobID attemptID : string) : string :=
  "executions/" +:+ jobID +:+ "/" +:+ attemptID +:+ "/output.json".

Definition SiteManifestKey (digest : string) : string :=
  "artifacts/" +:+ digest +:+ "/site-manifest.json".

Definition SiteAssetsPrefix (digest : string) : string := "sites/" +:+ digest +:+ "/assets".

Definition slash : ascii := ascii_of_N 47.

Definition SiteAssetObjectKey (digest assetPath : string) : string :=
  if bool_decide (assetPath = "") || bool_decide (assetPath = "/")
  then SiteAssetsPrefix digest +:+ "/index.html"
  else match assetPath with
       | String a _ => if Ascii.eqb a slash then SiteAssetsPrefix digest +:+ assetPath
                       else SiteAssetsPrefix digest +:+ "/" +:+ assetPath
       | EmptyString => SiteAssetsPrefix digest +:+ "/" +:+ assetPath
       end.

(** [MemoryStore]: [Put] and [Get] copy the bytes. *)
Abbreviation Objects := (gmap string string).

Definition objectPut (key data : string) : M Objects unit := λ m, (Ok tt, <[key := data]> m).

Definition objectGet (key : string) : M Objects string := λ m,
  match m !! key with
  | Some data => (Ok data, m)
  | None => (Err (wrapErr ArtifactErrNotFound (": " +:+ quote key)), m)
  end.
