(* ===== verification/Files.v ===== *)
(** * Files: paths and directory trees

    What the build code uses of [path/filepath] and [os] on Unix.  A directory
    tree has regular files with their contents, directories, and symbolic links
    with their targets, each under its real path: the list of its components
    below the root of the file system.  A path of the program is resolved
    component by component, following at most [maxLinks] links; operations fail
    for the reasons the tree shows and for no others. *)

From Stdlib Require Import Ascii.
From stdpp Require Import base decidable tactics numbers list gmap strings.
From S2P Require Import Prelude Artifacts.

(** ** Paths *)

(** The loop of [filepath.Clean]: [stack] holds the kept components, last
    first. *)
Fixpoint clean_parts (rooted : bool) (stack parts : list string) : list string :=
  match parts with
  | [] => reverse stack
  | p :: rest =>
      if bool_decide (p = "") || bool_decide (p = ".") then clean_parts rooted stack rest
      else if bool_decide (p = "..") then
        match stack with
        | top :: below =>
            if bool_decide (top = "..") then clean_parts rooted (p :: stack) rest
            else clean_parts rooted below rest
        | [] => clean_parts rooted (if rooted then [] else [p]) rest
        end
      else clean_parts rooted (p :: stack) rest
  end.

Definition isAbs (path : string) : bool := HasPrefix path "/".

Definition Clean (path : string) : string :=
  let body := Join (clean_parts (isAbs path) [] (Split path slash)) "/" in
  if isAbs path then "/" +:+ body
  else if bool_decide (body = "") then "." else body.

(** The components of an absolute path. *)
Definition comps (path : string) : list string := clean_parts true [] (Split path slash).

(** [filepath.Join] of two elements, the first not empty. *)
Definition JoinPath (dir name : string) : string :=
  if bool_decide (name = "") then Clean dir else Clean (dir +:+ "/" +:+ name).

(** ** Directory trees *)

Abbreviation Path := (list string).

Record Tree := mkTree {
  tr_files : gmap Path string;
  tr_dirs : gset Path;
  tr_links : gmap Path string;
}.

#[export] Instance Tree_rebuild : Rebuild Tree := λ r, mkTree (tr_files r) (tr_dirs r) (tr_links r).

(** The path and its ancestors, the root of the file system apart. *)
Definition ancestors (p : Path) : list Path := (λ n, take n p) <$> seq 1 (length p).

(** [filepath.Dir] *)
Definition parent (p : Path) : Path := take (length p - 1) p.

Definition isDir (t : Tree) (p : Path) : bool := bool_decide (p = []) || bool_decide (p ∈ tr_dirs t).

(** ** Resolution *)

Inductive Errno := ENOENT | ENOTDIR | EISDIR | EEXIST | EINVAL | ELOOP.

(** A node, a free name in an existing directory, or an error on the way. *)
Inductive lookup :=
| Found (p : Path)
| Vacant (p : Path)
| Unreachable (e : Errno).

Definition maxLinks : nat := 40.

(** [follow]: whether a link in the last component is followed; [fuel] bounds the
    number of links. *)
Fixpoint resolve (t : Tree) (follow : bool) (fuel : nat) : Path → list string → lookup :=
  fix go (cur : Path) (rest : list string) {struct rest} : lookup :=
    match rest with
    | [] => Found cur
    | c :: rest' =>
        if bool_decide (c = "") || bool_decide (c = ".") then go cur rest'
        else if bool_decide (c = "..") then go (parent cur) rest'
        else
          let p := cur ++ [c] in
          match tr_links t !! p with
          | Some target =>
              if negb follow && bool_decide (rest' = []) then Found p
              else match fuel with
                   | 0 => Unreachable ELOOP
                   | S fuel' =>
                       resolve t follow fuel' (if isAbs target then [] else cur) (Split target slash ++ rest')
                   end
          | None =>
              if isDir t p then go p rest'
              else match tr_files t !! p with
                   | Some _ => if bool_decide (rest' = []) then Found p else Unreachable ENOTDIR
                   | None => if bool_decide (rest' = []) then Vacant p else Unreachable ENOENT
                   end
          end
    end.

Definition find_node (t : Tree) (follow : bool) (p : Path) : lookup := resolve t follow maxLinks [] p.

(** ** Operations *)

Definition errnoText (e : Errno) : string :=
  match e with
  | ENOENT => "no such file or directory"
  | ENOTDIR => "not a directory"
  | EISDIR => "is a directory"
  | EEXIST => "file exists"
  | EINVAL => "invalid argument"
  | ELOOP => "too many levels of symbolic links"
  end.

(** [*fs.PathError] *)
Definition pathErr (op : string) (p : Path) (e : Errno) : GoError :=
  mkError (match e with ENOENT => [OsErrNotExist] | _ => [] end)
    (op +:+ " /" +:+ Join p "/" +:+ ": " +:+ errnoText e).

(** [os.Stat]: whether it is a directory. *)
Definition Stat (p : Path) (t : Tree) : result bool :=
  match find_node t true p with
  | Found q => Ok (isDir t q)
  | Vacant _ => Err (pathErr "stat" p ENOENT)
  | Unreachable e => Err (pathErr "stat" p e)
  end.

(** [os.Lstat] *)
Definition Lstat (p : Path) (t : Tree) : result bool :=
  match find_node t false p with
  | Found q => Ok (isDir t q && bool_decide (tr_links t !! q = None))
  | Vacant _ => Err (pathErr "lstat" p ENOENT)
  | Unreachable e => Err (pathErr "lstat" p e)
  end.

Definition ReadFile (p : Path) (t : Tree) : result string :=
  match find_node t true p with
  | Found q =>
      if isDir t q then Err (pathErr "read" p EISDIR) else Ok (default "" (tr_files t !! q))
  | Vacant _ => Err (pathErr "open" p ENOENT)
  | Unreachable e => Err (pathErr "open" p e)
  end.

(** One directory of [os.MkdirAll]. *)
Definition mkdirStep (p : Path) : M Tree unit := λ t,
  match Stat p t with
  | Ok true => (Ok tt, t)
  | Ok false => (Err (pathErr "mkdir" p ENOTDIR), t)
  | Err _ =>
      match find_node t false p with
      | Vacant q => (Ok tt, t <| tr_dirs := {[q]} ∪ tr_dirs t |>)
      | Found _ => (Err (pathErr "mkdir" p EEXIST), t)
      | Unreachable e => (Err (pathErr "mkdir" p e), t)
      end
  end.

(** [os.MkdirAll] *)
Definition MkdirAll (p : Path) : M Tree unit := for_each (ancestors p) mkdirStep.

(** [os.OpenFile] for writing, with creation and truncation: the file written. *)
Definition OpenFile (p : Path) : M Tree Path := λ t,
  match find_node t true p with
  | Found q =>
      if isDir t q then (Err (pathErr "open" p EISDIR), t)
      else (Ok q, t <| tr_files := <[q := ""]> (tr_files t) |>)
  | Vacant q => (Ok q, t <| tr_files := <[q := ""]> (tr_files t) |>)
  | Unreachable e => (Err (pathErr "open" p e), t)
  end.

Definition writeTo (q : Path) (data : string) : M Tree unit :=
  modify (λ t, t <| tr_files := <[q := data]> (tr_files t) |>).

(** [os.WriteFile] *)
Definition WriteFile (p : Path) (data : string) : M Tree unit :=
  q ← OpenFile p; writeTo q data.

(** The place of a node after [p] and what is below it have moved to [q]. *)
Definition movedTo (p q k : Path) : option Path :=
  if bool_decide (take (length p) k = p) then Some (q ++ drop (length p) k) else None.

Definition moveMap {A} (p q : Path) (m : gmap Path A) : gmap Path A :=
  list_to_map (omap (λ e, (λ k, (k, e.2)) <$> movedTo p q e.1) (map_to_list m)) ∪
  filter (λ e, movedTo p q e.1 = None) (delete q m).

Definition moveSet (p q : Path) (s : gset Path) : gset Path :=
  list_to_set (omap (movedTo p q) (elements s)) ∪ filter (λ k, movedTo p q k = None) s.

Definition linkErr (p q : Path) (e : Errno) : GoError :=
  mkError (match e with ENOENT => [OsErrNotExist] | _ => [] end)
    ("rename /" +:+ Join p "/" +:+ " /" +:+ Join q "/" +:+ ": " +:+ errnoText e).

(** [os.Rename]: links are moved and replaced, not followed; a directory is
    never replaced, and does not replace anything. *)
Definition Rename (old new : Path) : M Tree unit := λ t,
  match find_node t false old, find_node t false new with
  | Vacant _, _ => (Err (linkErr old new ENOENT), t)
  | Unreachable e, _ => (Err (linkErr old new e), t)
  | Found _, Unreachable e => (Err (linkErr old new e), t)
  | Found p, Found q =>
      if isDir t q then (Err (linkErr old new EEXIST), t)
      else if isDir t p then (Err (linkErr old new ENOTDIR), t)
      else if bool_decide (p = q) then (Ok tt, t)
      else (Ok tt, mkTree (moveMap p q (tr_files t)) (tr_dirs t) (moveMap p q (tr_links t)))
  | Found p, Vacant q =>
      if bool_decide (take (length p) q = p) then (Err (linkErr old new EINVAL), t)
      else (Ok tt, mkTree (moveMap p q (tr_files t)) (moveSet p q (tr_dirs t)) (moveMap p q (tr_links t)))
  end.

(** [os.RemoveAll]: the node and everything below it; a link goes, its target
    stays, and a path that leads nowhere is not an error. *)
Definition RemoveAll (path : Path) : M Tree unit := λ t,
  match find_node t false path with
  | Found p => (Ok tt, mkTree (filter (λ e, movedTo p p e.1 = None) (tr_files t))
                         (filter (λ k, movedTo p p k = None) (tr_dirs t))
                         (filter (λ e, movedTo p p e.1 = None) (tr_links t)))
  | Vacant _ | Unreachable ENOENT => (Ok tt, t)
  | Unreachable e => (Err (pathErr "unlinkat" path e), t)
  end.

(** ** Walking a directory *)

(** The order of paths in which [filepath.Walk] meets them: a directory before
    what is in it, names in byte order. *)
Fixpoint path_ltb (p q : Path) : bool :=
  match p, q with
  | [], [] => false
  | [], _ :: _ => true
  | _ :: _, [] => false
  | a :: p', b :: q' => if bool_decide (a = b) then path_ltb p' q' else string_ltb a b
  end.

(** The nodes with whether they are directories. *)
Definition nodes (t : Tree) : list (Path * bool) :=
  ((λ f, (f.1, false)) <$> map_to_list (tr_files t)) ++
  ((λ d, (d, true)) <$> elements (tr_dirs t)) ++
  ((λ l, (l.1, false)) <$> map_to_list (tr_links t)).

(** Those below a directory, relative to it. *)
Definition nodesBelow (dir : Path) (t : Tree) : list (Path * bool) :=
  SliceStable (λ x y, path_ltb x.1 y.1)
    (omap (λ n, let rel := drop (length dir) n.1 in
                if bool_decide (take (length dir) n.1 = dir) && negb (bool_decide (rel = []))
                then Some (rel, n.2) else None) (nodes t)).

(** What [filepath.Walk] and [filepath.WalkDir] visit, relative to the root;
    links are not followed, not even the root. *)
Definition Walk (root : Path) (t : Tree) : result (list (Path * bool)) :=
  match find_node t false root with
  | Found r =>
      if isDir t r && bool_decide (tr_links t !! r = None)
      then Ok (([], true) :: nodesBelow r t) else Ok [([], false)]
  | Vacant _ => Err (pathErr "lstat" root ENOENT)
  | Unreachable e => Err (pathErr "lstat" root e)
  end.

(** ** Components of paths *)

Definition plain (c : string) : Prop := c ≠ "" ∧ c ≠ "." ∧ c ≠ ".." ∧ no_byte slash c = true.

Lemma Split_nonempty s c : Split s c ≠ [].
Proof. destruct s as [|a s]; simpl; [done|]. case_match; [done|]. by destruct (Split s c). Qed.

Lemma Split_no_bytes s c : Forall (λ p, no_byte c p = true) (Split s c).
Proof.
  induction s as [|a s IH]; simpl; [by repeat constructor|].
  destruct (Ascii.eqb a c) eqn:Ea; [by constructor|].
  destruct (Split s c) as [|p ps]; [by repeat constructor; simpl; rewrite Ea|].
  apply Forall_cons in IH as [H1 H2]. constructor; [|done]. simpl. by rewrite Ea.
Qed.

Lemma Split_sep s t c : Split (s +:+ String c t) c = Split s c ++ Split t c.
Proof.
  induction s as [|a s IH].
  - change ("" +:+ String c t) with (String c t). simpl. by rewrite Ascii.eqb_refl.
  - change (String a s +:+ String c t) with (String a (s +:+ String c t)). simpl. rewrite IH.
    destruct (Ascii.eqb a c); [done|].
    destruct (Split s c) as [|p ps] eqn:Es; [by apply Split_nonempty in Es|done].
Qed.

Lemma Split_slash s t : Split (s +:+ "/" +:+ t) slash = Split s slash ++ Split t slash.
Proof. apply (Split_sep s t slash). Qed.

Lemma Split_Join l :
  Forall (λ p, no_byte slash p = true) l → l ≠ [] → Split (Join l "/") slash = l.
Proof.
  induction 1 as [|p l Hp Hl IH]; [done|]. intros _. destruct l as [|q l].
  - simpl. by apply Split_no_byte.
  - change (Join (p :: q :: l) "/") with (p +:+ "/" +:+ Join (q :: l) "/").
    rewrite Split_slash, (Split_no_byte _ _ Hp). simpl. f_equal. by apply IH.
Qed.

Lemma clean_plain rooted stack l :
  Forall plain l → clean_parts rooted stack l = reverse stack ++ l.
Proof.
  intros Hl. revert stack. induction Hl as [|p l (H1 & H2 & H3 & _) Hl IH]; intros stack; simpl.
  - by rewrite app_nil_r.
  - rewrite !bool_decide_eq_false_2 by done. simpl. rewrite IH, reverse_cons.
    by rewrite <- app_assoc.
Qed.

(** What [Clean] keeps: a run of ".." (none in an absolute path), then plain
    components. *)
Lemma clean_shape rooted stack parts :
  Forall (λ p, no_byte slash p = true) parts →
  (∃ n l, stack = reverse (replicate n ".." ++ l) ∧ Forall plain l ∧ (rooted = true → n = 0)) →
  ∃ n l, clean_parts rooted stack parts = replicate n ".." ++ l ∧ Forall plain l ∧
    (rooted = true → n = 0).
Proof.
  intros Hp. revert stack. induction Hp as [|p parts Hp Hps IH]; intros stack (n0 & l0 & -> & Hl & Hr); simpl.
  { rewrite reverse_involutive. eauto. }
  assert (∃ n l, clean_parts rooted (reverse (replicate n0 ".." ++ l0)) parts = replicate n ".." ++ l ∧
    Forall plain l ∧ (rooted = true → n = 0)) as Hskip by (apply IH; eauto).
  case_bool_decide as Hempty; [done|]. case_bool_decide as Hdot; [done|]. simpl.
  case_bool_decide as Hdots.
  - subst p. destruct l0 as [|x l' _] using rev_ind.
    + rewrite app_nil_r. destruct n0 as [|n].
      * simpl. apply IH. destruct rooted; [by exists 0, []|]. by exists 1, [].
      * rewrite reverse_replicate. simpl. apply IH. exists (S (S n)), [].
        rewrite app_nil_r, reverse_replicate. split_and!; [done|done|]. intros Ht. by apply Hr in Ht.
    + rewrite app_assoc, reverse_snoc. apply Forall_app in Hl as [Hl Hx].
      rewrite Forall_singleton in Hx. rewrite bool_decide_eq_false_2 by apply Hx.
      apply IH. by exists n0, l'.
  - apply IH. exists n0, (l0 ++ [p]). rewrite app_assoc, reverse_snoc. split_and!; [done| |done].
    apply Forall_app. split; [done|]. by apply Forall_singleton.
Qed.

Lemma clean_parts_abs parts :
  Forall (λ p, no_byte slash p = true) parts → Forall plain (clean_parts true [] parts).
Proof.
  intros Hp. destruct (clean_shape true [] parts Hp) as (n & l & -> & Hl & Hn).
  - by exists 0, [].
  - by rewrite (Hn eq_refl).
Qed.

Lemma comps_plain path : Forall plain (comps path).
Proof. apply clean_parts_abs, Split_no_bytes. Qed.

Lemma plain_no_byte l : Forall plain l → Forall (λ p, no_byte slash p = true) l.
Proof. intros Hl. eapply Forall_impl; [exact Hl|]. by intros ? (_ & _ & _ & ?). Qed.

(** The components of a cleaned absolute path. *)
Lemma comps_abs l : Forall plain l → comps ("/" +:+ Join l "/") = l.
Proof.
  intros Hl. unfold comps. change ("/" +:+ Join l "/") with ("" +:+ "/" +:+ Join l "/").
  rewrite Split_slash. destruct (decide (l = [])) as [->|Hne]; [done|].
  rewrite Split_Join by (done || by apply plain_no_byte). simpl. by rewrite clean_plain.
Qed.

(** Continuing from a path's own components. *)
Lemma clean_parts_app parts1 parts2 stack :
  clean_parts true stack (parts1 ++ parts2) =
  clean_parts true (reverse (clean_parts true stack parts1)) parts2.
Proof.
  revert stack. induction parts1 as [|p parts1 IH]; intros stack; simpl.
  - by rewrite reverse_involutive.
  - repeat case_match; by rewrite IH.
Qed.

Lemma isAbs_app dest t : isAbs dest = true → isAbs (dest +:+ t) = true.
Proof. unfold isAbs. rewrite HasPrefix_spec. intros [r ->]. by rewrite string_app_assoc, HasPrefix_app. Qed.

(** [filepath.Join] below an absolute directory. *)
Lemma comps_JoinPath dest name :
  isAbs dest = true → name ≠ "" →
  comps (JoinPath dest name) = clean_parts true (reverse (comps dest)) (Split name slash) ∧
  JoinPath dest name = "/" +:+ Join (comps (JoinPath dest name)) "/".
Proof.
  intros Ha Hn. unfold JoinPath. rewrite bool_decide_eq_false_2 by done. unfold Clean.
  rewrite isAbs_app, Split_slash, clean_parts_app by done. fold (comps dest).
  assert (Forall plain (clean_parts true (reverse (comps dest)) (Split name slash))) as Hl.
  { unfold comps. rewrite <- clean_parts_app. apply clean_parts_abs, Forall_app.
    split; apply Split_no_bytes. }
  rewrite comps_abs by done. done.
Qed.

Lemma parent_snoc d x : parent (d ++ [x]) = d.
Proof. unfold parent. rewrite length_app. simpl. by rewrite take_app_length' by lia. Qed.

Lemma prefix_parent p q : q `prefix_of` p → q ≠ p → q `prefix_of` parent p.
Proof.
  intros [r ->] Hne. destruct r as [|x r _] using rev_ind; [by rewrite app_nil_r in Hne|].
  rewrite app_assoc, parent_snoc. by apply prefix_app_r.
Qed.

Lemma elem_of_ancestors p q : q ∈ ancestors p ↔ q ≠ [] ∧ q `prefix_of` p.
Proof.
  unfold ancestors. rewrite list_elem_of_fmap. setoid_rewrite elem_of_seq. split.
  - intros (n & -> & Hn). split; [|apply prefix_take]. rewrite <- length_zero_iff_nil, length_take. lia.
  - intros [Hq [r ->]]. exists (length q). rewrite take_app_length, length_app. split; [done|].
    destruct q; [done|]. simpl. lia.
Qed.

(** ** Paths without links *)

(** No component of the path is a link. *)
Definition unlinked (t : Tree) (p : Path) : Prop := ∀ q, q ∈ ancestors p → tr_links t !! q = None.

Lemma unlinked_prefix t p q : unlinked t p → q `prefix_of` p → unlinked t q.
Proof.
  intros Hp Hq r Hr. apply Hp. apply elem_of_ancestors in Hr as [Hn Hr]. apply elem_of_ancestors.
  split; [done|by etrans].
Qed.

Lemma resolve_step t follow fuel cur c rest :
  plain c → tr_links t !! (cur ++ [c]) = None →
  resolve t follow fuel cur (c :: rest) =
    if isDir t (cur ++ [c]) then resolve t follow fuel (cur ++ [c]) rest
    else match tr_files t !! (cur ++ [c]) with
         | Some _ => if bool_decide (rest = []) then Found (cur ++ [c]) else Unreachable ENOTDIR
         | None => if bool_decide (rest = []) then Vacant (cur ++ [c]) else Unreachable ENOENT
         end.
Proof.
  intros (H1 & H2 & H3 & _) Hl. destruct fuel; cbn [resolve]; rewrite !bool_decide_eq_false_2 by done;
    cbn [orb]; by rewrite Hl.
Qed.

(** Such a path leads to its own node, if anywhere. *)
Lemma resolve_unlinked t follow fuel cur rest :
  Forall plain rest → (∀ q, q ≠ [] → q `prefix_of` rest → tr_links t !! (cur ++ q) = None) →
  resolve t follow fuel cur rest = Found (cur ++ rest) ∨ resolve t follow fuel cur rest = Vacant (cur ++ rest) ∨
  ∃ e, resolve t follow fuel cur rest = Unreachable e.
Proof.
  intros Hp. revert cur. induction Hp as [|c rest Hc Hp IH]; intros cur Hl.
  { left. rewrite app_nil_r. by destruct fuel. }
  rewrite resolve_step; [|done|apply (Hl [c]); [done|by exists rest]].
  destruct (isDir t (cur ++ [c])).
  - destruct (IH (cur ++ [c])) as [H|[H|[e H]]]; rewrite <- ?app_assoc in *; simpl in *; eauto.
    intros q Hq Hpre. rewrite <- app_assoc. apply (Hl (c :: q)); [done|]. by apply prefix_cons.
  - destruct (tr_files t !! (cur ++ [c])), rest as [|x rest]; simpl; eauto.
Qed.

Lemma find_unlinked t follow p : Forall plain p → unlinked t p →
  find_node t follow p = Found p ∨ find_node t follow p = Vacant p ∨ ∃ e, find_node t follow p = Unreachable e.
Proof.
  intros Hp Hl. apply (resolve_unlinked t follow maxLinks [] p Hp). intros q Hq Hpre. apply Hl.
  by apply elem_of_ancestors.
Qed.

(** When the directories on the way exist. *)
Lemma resolve_dirs t follow fuel cur rest :
  Forall plain rest → (∀ q, q ≠ [] → q `prefix_of` rest → tr_links t !! (cur ++ q) = None) →
  (∀ q, q ≠ [] → q ≠ rest → q `prefix_of` rest → isDir t (cur ++ q) = true) →
  resolve t follow fuel cur rest =
    if isDir t (cur ++ rest) || bool_decide (rest = []) || bool_decide (is_Some (tr_files t !! (cur ++ rest)))
    then Found (cur ++ rest) else Vacant (cur ++ rest).
Proof.
  intros Hp. revert cur. induction Hp as [|c rest Hc Hp IH]; intros cur Hl Hd.
  { rewrite app_nil_r, orb_true_r. by destruct fuel. }
  rewrite resolve_step; [|done|apply (Hl [c]); [done|by exists rest]].
  destruct rest as [|x rest].
  - destruct (isDir t (cur ++ [c])) eqn:Ed; simpl.
    + by destruct fuel.
    + destruct (tr_files t !! (cur ++ [c])) as [s|] eqn:Ef; simpl.
      * done.
      * done.
  - rewrite (Hd [c]); [|done|done|by exists (x :: rest)].
    rewrite IH.
    + by rewrite <- app_assoc.
    + intros q Hq Hpre. rewrite <- app_assoc. apply (Hl (c :: q)); [done|]. by apply prefix_cons.
    + intros q Hq Hne Hpre. rewrite <- app_assoc. apply (Hd (c :: q)); [done| |by apply prefix_cons].
      intros [= ->]. done.
Qed.

Lemma find_dirs t follow p :
  Forall plain p → unlinked t p → (∀ q, q ∈ ancestors p → q ≠ p → q ∈ tr_dirs t) → p ≠ [] →
  find_node t follow p =
    if bool_decide (p ∈ tr_dirs t) || bool_decide (is_Some (tr_files t !! p)) then Found p else Vacant p.
Proof.
  intros Hp Hl Hd Hne. unfold find_node. rewrite resolve_dirs; simpl.
  - unfold isDir. rewrite (bool_decide_eq_false_2 (p = [])) by done. by rewrite orb_false_r.
  - done.
  - intros q Hq Hpre. apply Hl. by apply elem_of_ancestors.
  - intros q Hq Hqp Hpre. unfold isDir. rewrite (bool_decide_eq_true_2 (q ∈ tr_dirs t)); [by rewrite orb_true_r|].
    apply Hd; [by apply elem_of_ancestors|done].
Qed.

(** ** Creating directories *)

Lemma ancestors_snoc p x : ancestors (p ++ [x]) = ancestors p ++ [p ++ [x]].
Proof.
  unfold ancestors. rewrite length_app, Nat.add_1_r, seq_S, fmap_app. simpl. f_equal.
  - apply list_fmap_ext. intros i n Hn. apply lookup_seq in Hn as [-> Hn]. apply take_app_le. lia.
  - f_equal. apply take_ge. rewrite length_app. simpl. lia.
Qed.

Lemma for_each_app {W A} (l l' : list A) (body : A → M W unit) w :
  for_each (l ++ l') body w = (for_each l body ≫= λ _, for_each l' body) w.
Proof.
  revert w. induction l as [|x l IH]; intros w; [done|]. simpl. rewrite !M_bind_eq.
  destruct (body x w) as [[[]|e] w'] eqn:Eb; rewrite ?M_bind_eq, ?Eb; [|done]. by rewrite IH, M_bind_eq.
Qed.

(** The step for a directory whose parents exist. *)
Lemma run_mkdirStep t p :
  Forall plain p → unlinked t p → (∀ q, q ∈ ancestors p → q ≠ p → q ∈ tr_dirs t) → p ≠ [] →
  mkdirStep p t =
    if bool_decide (p ∈ tr_dirs t) then (Ok tt, t)
    else match tr_files t !! p with
         | Some _ => (Err (pathErr "mkdir" p ENOTDIR), t)
         | None => (Ok tt, t <| tr_dirs := {[p]} ∪ tr_dirs t |>)
         end.
Proof.
  intros Hp Hl Hd Hne. unfold mkdirStep, Stat. rewrite !(find_dirs t _ p Hp Hl Hd Hne).
  assert (isDir t p = bool_decide (p ∈ tr_dirs t)) as Ed by (unfold isDir; by rewrite (bool_decide_eq_false_2 (p = []))).
  case_bool_decide as Hin; simpl; [by rewrite Ed|].
  destruct (tr_files t !! p) as [s|] eqn:Ef; simpl.
  - by rewrite Ed.
  - done.
Qed.

(** All directories of a path that has no files and no links on its way. *)
Lemma MkdirAll_ok p t :
  Forall plain p → unlinked t p → (∀ q, q ∈ ancestors p → tr_files t !! q = None) →
  MkdirAll p t = (Ok tt, t <| tr_dirs := list_to_set (ancestors p) ∪ tr_dirs t |>).
Proof.
  unfold MkdirAll. induction p as [|x p IH] using rev_ind; intros Hp Hl Hf.
  { simpl. unfold mret, M_ret. f_equal. destruct t. unfold ancestors. simpl. unfold rebuild, Tree_rebuild. simpl. f_equal. set_solver. }
  apply Forall_app in Hp as [Hp Hx]. rewrite ancestors_snoc in *. rewrite for_each_app.
  erewrite run_bind.
  2:{ apply IH; [done|eapply unlinked_prefix; [exact Hl|by exists [x]]|]. intros q Hq. apply Hf. set_solver. }
  cbn [for_each]. set (t1 := t <| tr_dirs := _ |>).
  assert (mkdirStep (p ++ [x]) t1 = (Ok tt, t1 <| tr_dirs := {[p ++ [x]]} ∪ tr_dirs t1 |>)) as Es.
  { rewrite run_mkdirStep.
    - replace (tr_files t1 !! (p ++ [x])) with (None (A := string)) by (symmetry; apply Hf; set_solver).
      case_bool_decide as Hin; [|done]. f_equal. destruct t1 as [f d l]. unfold rebuild, Tree_rebuild. simpl in *. f_equal. set_solver.
    - by apply Forall_app.
    - exact Hl.
    - intros q Hq Hne. rewrite ancestors_snoc in Hq. unfold t1. simpl.
      apply elem_of_app in Hq as [Hq|Hq%list_elem_of_singleton]; [|done]. apply elem_of_union. left.
      by apply elem_of_list_to_set.
    - by destruct p. }
  rewrite (run_bind _ _ _ _ _ Es). unfold mret, M_ret. f_equal. unfold t1, rebuild, Tree_rebuild. simpl. f_equal.
  rewrite list_to_set_app_L. set_solver.
Qed.

(** A file in place of the last directory. *)
Lemma MkdirAll_file p x t :
  Forall plain (p ++ [x]) → unlinked t (p ++ [x]) → (∀ q, q ∈ ancestors p → tr_files t !! q = None) →
  p ++ [x] ∉ tr_dirs t → is_Some (tr_files t !! (p ++ [x])) →
  ∃ t', MkdirAll (p ++ [x]) t = (Err (pathErr "mkdir" (p ++ [x]) ENOTDIR), t').
Proof.
  intros Hp Hl Hf Hn [s Hs]. unfold MkdirAll. rewrite ancestors_snoc, for_each_app.
  erewrite run_bind.
  2:{ apply MkdirAll_ok; [by apply Forall_app in Hp as [? _]|eapply unlinked_prefix; [exact Hl|by exists [x]]|done]. }
  eexists. cbn [for_each]. apply run_bind_err. rewrite run_mkdirStep; [|done|exact Hl| |by destruct p].
  - simpl. rewrite bool_decide_eq_false_2, Hs; [done|].
    rewrite elem_of_union, elem_of_list_to_set, elem_of_ancestors. intros [[_ Hpre]|?]; [|done].
    apply prefix_length in Hpre. rewrite length_app in Hpre. simpl in Hpre. lia.
  - intros q Hq Hne. rewrite ancestors_snoc in Hq. apply elem_of_app in Hq as [Hq|Hq%list_elem_of_singleton]; [|done].
    apply elem_of_union. left. by apply elem_of_list_to_set.
Qed.

(** Opening a file for writing in an existing directory. *)
Lemma run_OpenFile p t :
  Forall plain p → unlinked t p → (∀ q, q ∈ ancestors p → q ≠ p → q ∈ tr_dirs t) → p ≠ [] → p ∉ tr_dirs t →
  OpenFile p t = (Ok p, t <| tr_files := <[p := ""]> (tr_files t) |>).
Proof.
  intros Hp Hl Hd Hne Hn. unfold OpenFile. rewrite (find_dirs t true p Hp Hl Hd Hne).
  rewrite (bool_decide_eq_false_2 (p ∈ tr_dirs t)) by done. simpl.
  case_bool_decide; [|done]. unfold isDir. by rewrite !bool_decide_eq_false_2.
Qed.
