(* ===== verification/Archive.v ===== *)
(** * Archive: bundles of files

    Models [internal/artifact/bundle.go].  The tar and gzip formats are parameters
    ([Archives]): reading yields the entries up to the end of the archive or a
    format error, writing fails on a header that cannot be encoded or yields
    bytes.

    Theorems: what an extraction writes lies below its destination; an archive
    that lists a directory before a file in it cannot be extracted. *)

From Stdlib Require Import Ascii.
From stdpp Require Import base decidable tactics numbers list gmap strings.
From S2P Require Import Prelude Artifacts Files.

Definition cleanArchivePath (path : string) : result string :=
  let clean := TrimPrefix (Clean path) "./" in
  if bool_decide (clean = ".") || bool_decide (clean = "") || HasPrefix clean "../" ||
     Contains clean "/../"
  then Err (plainErr ("invalid archive path " +:+ quote path))
  else Ok clean.

(** ** Archives *)

(** An entry as the reader delivers it: its name, the bytes read, and the error
    that ended the reading, if any. *)
Record TarEntry := mkTarEntry {
  te_Name : string;
  te_Data : string;
  te_Err : option GoError;
}.

Class Archives := {
  tar_Read : string → result (list TarEntry * option GoError);
  tar_HeaderErr : string → string → option GoError;
  tar_Bytes : list (string * string) → result string;
}.

Section Archive.
Context `{!Archives}.

Definition extractEntry (dest : string) (hdr : TarEntry) : M Tree unit :=
  clean ← lift (cleanArchivePath (te_Name hdr));
  let target := JoinPath dest clean in
  if negb (HasPrefix target dest) then
    fail (plainErr ("archive path " +:+ quote (te_Name hdr) +:+ " escapes destination"))
  else
    MkdirAll (parent (comps target)) ≫= λ _,
    file ← OpenFile (comps target);
    writeTo file (te_Data hdr) ≫= λ _,
    match te_Err hdr with Some e => fail e | None => mret tt end.

Definition ExtractTarGz (data dest : string) : M Tree unit :=
  '(entries, e) ← lift (tar_Read data);
  for_each entries (extractEntry dest) ≫= λ _,
  match e with Some e => fail e | None => mret tt end.

Context `{!MapOrder}.

(** The loop of [BundleFromFiles]: the entries written so far. *)
Fixpoint bundleEntries (files : gmap string string) (written : list (string * string))
    (paths : list string) : result (list (string * string)) :=
  match paths with
  | [] => Ok written
  | name :: rest =>
      clean ← cleanArchivePath name;
      let content := default "" (files !! name) in
      match tar_HeaderErr clean content with
      | Some e => Err e
      | None => bundleEntries files (written ++ [(clean, content)]) rest
      end
  end.

Definition BundleFromFiles (files : gmap string string) : result string :=
  entries ← bundleEntries files [] (SliceStable string_ltb (map_iter 22 files).*1);
  tar_Bytes entries.

(** The loop of [BundleFromDirectory] over what [WalkDir] visits: a file is read
    through links, what lies in a directory called ".git" is skipped. *)
Fixpoint dirFiles (root : Path) (t : Tree) (files : gmap string string) (visited : list (Path * bool)) :
    result (gmap string string) :=
  match visited with
  | [] => Ok files
  | (rel, isDirectory) :: rest =>
      if isDirectory || bool_decide (".git" ∈ parent rel) then dirFiles root t files rest
      else
        content ← ReadFile (root ++ rel) t;
        let name := if bool_decide (rel = []) then "." else Join rel "/" in
        dirFiles root t (<[name := content]> files) rest
  end.

Definition BundleFromDirectory (root : string) (extraFiles : gmap string string) (t : Tree) :
    result string :=
  let root := comps root in
  visited ← Walk root t;
  files ← (if bool_decide (last root = Some ".git") && bool_decide (([], true) ∈ visited) then Ok ∅
           else dirFiles root t ∅ visited);
  BundleFromFiles (extraFiles ∪ files).

End Archive.

Lemma TrimPrefix_cases s p : TrimPrefix s p = s ∨ ∃ r, s = p +:+ r.
Proof.
  unfold TrimPrefix. destruct (TrimPrefix_go s p) as [r|] eqn:Et; [|by left]. right. exists r.
  revert s Et. induction p as [|a p IH]; intros [|b s]; simpl; try done; try (by intros [= <-]).
  destruct (Ascii.eqb_spec a b) as [->|]; [|done]. intros Et. by rewrite (IH _ Et).
Qed.

(** An accepted archive path: it is "..", or its components below the
    destination are plain. *)
Lemma cleanArchivePath_spec path c :
  cleanArchivePath path = Ok c →
  c ≠ "" ∧ (c = ".." ∨ ∃ l, Forall plain l ∧
    ∀ d, Forall plain d → clean_parts true (reverse d) (Split c slash) = d ++ l).
Proof.
  unfold cleanArchivePath. destruct (_ || _) eqn:Eg; [done|]. intros [= Ec]. rewrite Ec in Eg.
  rewrite !orb_false_iff in Eg. destruct Eg as [[[E1 E2] E3] _].
  rewrite bool_decide_eq_false in E1, E2. split; [done|]. revert Ec. unfold Clean.
  pose proof (Split_no_bytes path slash) as Hp. destruct (isAbs path).
  - intros Ec. right. pose proof (clean_parts_abs _ Hp) as Hl. exists (clean_parts true [] (Split path slash)).
    split; [done|]. intros d Hd. revert Ec. generalize dependent (clean_parts true [] (Split path slash)).
    intros l Hl Ec. destruct (TrimPrefix_cases ("/" +:+ Join l "/") "./") as [Et|[r Hr]]; [|done].
    rewrite Et in Ec. subst c. change ("/" +:+ Join l "/") with ("" +:+ "/" +:+ Join l "/").
    rewrite Split_slash. destruct (decide (l = [])) as [->|Hne].
    { simpl. by rewrite reverse_involutive, app_nil_r. }
    rewrite Split_Join by (done || by apply plain_no_byte). simpl.
    by rewrite clean_plain, reverse_involutive.
  - destruct (clean_shape false [] _ Hp) as (n & l & -> & Hl & _); [by exists 0, []|].
    assert (Forall (λ p, no_byte slash p = true) (replicate n ".." ++ l)) as Hks.
    { apply Forall_app. split; [by apply Forall_replicate|by apply plain_no_byte]. }
    assert ("." ∉ replicate n ".." ++ l) as Hdot.
    { rewrite elem_of_app, elem_of_replicate. intros [[? _]|Hin]; [done|].
      rewrite Forall_forall in Hl. by destruct (Hl _ Hin) as (_ & ? & _). }
    destruct (decide (replicate n ".." ++ l = [])) as [->|Hne]; [intros [= <-]; done|].
    pose proof (Split_Join _ Hks Hne) as Hsp. case_bool_decide as Hb.
    { rewrite Hb in Hsp. intros [= <-]. done. }
    intros Ec. assert (c = Join (replicate n ".." ++ l) "/") as ->.
    { destruct (TrimPrefix_cases (Join (replicate n ".." ++ l) "/") "./") as [Et|[r Hr]]; [congruence|].
      exfalso. apply Hdot. rewrite <- Hsp, Hr. change ("./" +:+ r) with ("." +:+ "/" +:+ r).
      rewrite Split_slash. simpl. left. }
    destruct n as [|n].
    + right. exists l. split; [done|]. intros d Hd. simpl in *. by rewrite Hsp, clean_plain, reverse_involutive.
    + left. change (replicate (S n) ".." ++ l) with (".." :: (replicate n ".." ++ l)) in *.
      destruct (replicate n ".." ++ l) as [|q qs]; [done|].
      change (Join (".." :: q :: qs) "/") with ("../" +:+ Join (q :: qs) "/") in E3.
      by rewrite HasPrefix_app in E3.
Qed.

(** ** Confinement of an extraction *)

Lemma HasPrefix_length s p : HasPrefix s p = true → String.length p ≤ String.length s.
Proof.
  revert s. induction p as [|a p IH]; intros [|b s]; simpl; try done; try lia.
  rewrite andb_true_iff. intros [_ H]. apply IH in H. lia.
Qed.

Lemma length_string_app s t : String.length (s +:+ t) = String.length s + String.length t.
Proof. induction s as [|a s IH]; [done|]. simpl. f_equal. apply IH. Qed.

Lemma length_Join_snoc l x :
  x ≠ "" → String.length (Join l "/") < String.length (Join (l ++ [x]) "/").
Proof.
  intros Hx. assert (0 < String.length x) by (destruct x; simpl; [done|lia]).
  induction l as [|y l IH]; [done|]. destruct l as [|z l].
  - simpl. rewrite !length_string_app. simpl. lia.
  - change (Join ((y :: z :: l) ++ [x]) "/") with (y +:+ "/" +:+ Join ((z :: l) ++ [x]) "/").
    change (Join (y :: z :: l) "/") with (y +:+ "/" +:+ Join (z :: l) "/").
    rewrite !length_string_app. simpl in *. lia.
Qed.

(** [p] is a path below the directory [d]. *)
Definition below (d p : Path) : Prop := ∃ rel, rel ≠ [] ∧ p = d ++ rel.

(** No links on the way to [d] and below it. *)
Definition linkless (d : Path) (t : Tree) : Prop :=
  ∀ q, q ∈ ancestors d ∨ below d q → tr_links t !! q = None.

(** [t] differs from [t0] only below [d]. *)
Record confined (d : Path) (t0 t : Tree) : Prop := {
  conf_files p : ¬ below d p → tr_files t !! p = tr_files t0 !! p;
  conf_dirs p : ¬ below d p → p ∈ tr_dirs t ↔ p ∈ tr_dirs t0;
  conf_links : tr_links t = tr_links t0;
}.

Lemma confined_refl d t : confined d t t.
Proof. done. Qed.

Lemma confined_file d t0 t p data :
  confined d t0 t → below d p → confined d t0 (t <| tr_files := <[p := data]> (tr_files t) |>).
Proof.
  intros [H1 H2 H3] Hb. split; [|done|done]. intros q Hq. simpl.
  rewrite lookup_insert_ne by (by intros ->). by apply H1.
Qed.

Lemma confined_dir d t0 t p :
  confined d t0 t → below d p → confined d t0 (t <| tr_dirs := {[p]} ∪ tr_dirs t |>).
Proof.
  intros [H1 H2 H3] Hb. split; [done| |done]. intros q Hq. simpl. rewrite elem_of_union, elem_of_singleton, H2 by done.
  split; [|by right]. by intros [-> |].
Qed.

(** A path is an ancestor of [d] or below it, when it is one of a path below. *)
Lemma ancestor_cases d rel q : q ∈ ancestors (d ++ rel) → q ∈ ancestors d ∨ below d q.
Proof.
  rewrite !elem_of_ancestors. intros [Hne Hp].
  destruct (prefix_weak_total q d (d ++ rel)) as [|[r ->]]; [done|by apply prefix_app_r|by left|].
  destruct r as [|x r]; [left; by rewrite app_nil_r in *|]. right. by exists (x :: r).
Qed.

Lemma unlinked_below d t0 t rel : linkless d t0 → confined d t0 t → unlinked t (d ++ rel).
Proof. intros Hl Hc q Hq. rewrite (conf_links _ _ _ Hc). by apply Hl, (ancestor_cases d rel). Qed.

Lemma not_below_self d : ¬ below d d.
Proof. intros (rel & Hr & E). apply Hr. by apply (app_inv_head d); rewrite app_nil_r. Qed.

Lemma ancestor_not_below d q : q ∈ ancestors d → ¬ below d q.
Proof.
  intros [_ Hp]%elem_of_ancestors (rel & Hr & ->). apply prefix_length in Hp. rewrite length_app in Hp.
  destruct rel; [done|]. simpl in Hp. lia.
Qed.

Section Confined.
Context `{!Archives} (dest : string) (t0 : Tree).
Context (Habs : isAbs dest = true) (Hclean : Clean dest = dest) (Hne : comps dest ≠ []).
Context (Hdirs : ∀ q, q ∈ ancestors (comps dest) → q ∈ tr_dirs t0) (Hlinks : linkless (comps dest) t0).

(** ".." never passes the prefix test. *)
Lemma dotdot_escapes : HasPrefix (JoinPath dest "..") dest = false.
Proof.
  destruct (HasPrefix (JoinPath dest "..") dest) eqn:Ep; [|done]. exfalso.
  apply HasPrefix_length in Ep. destruct (comps_JoinPath dest "..") as [Ec Ej]; [done..|].
  rewrite Ej in Ep. rewrite <- Hclean in Ep at 1. unfold Clean in Ep. rewrite Habs in Ep.
  fold (comps dest) in Ep. pose proof (comps_plain dest) as Hpl.
  destruct (comps dest) as [|x d _] using rev_ind; [done|].
  rewrite Forall_app, Forall_singleton in Hpl. destruct Hpl as [_ (Hx & _ & Hxd & _)].
  assert (clean_parts true (reverse (d ++ [x])) (Split ".." slash) = d) as Ed.
  { rewrite reverse_snoc. simpl. by rewrite bool_decide_eq_false_2, reverse_involutive. }
  rewrite Ec, Ed, !length_string_app in Ep. pose proof (length_Join_snoc d x Hx). lia.
Qed.

(** The directories on the way to the destination stay. *)
Lemma dest_dirs t q : confined (comps dest) t0 t → q ∈ ancestors (comps dest) → q ∈ tr_dirs t.
Proof. intros Hc Hq. apply (conf_dirs _ _ _ Hc); [by apply ancestor_not_below|by apply Hdirs]. Qed.

Lemma keeps_mkdirStep q :
  Forall plain q → q ∈ ancestors (comps dest) ∨ below (comps dest) q →
  preserves (confined (comps dest) t0) (mkdirStep q).
Proof.
  intros Hp Hq t Ht. destruct Hq as [Hq|(rel & Hr & ->)].
  - rewrite run_mkdirStep; [|done|..].
    + rewrite bool_decide_eq_true_2; [by split|by apply dest_dirs].
    + intros r Hr. rewrite (conf_links _ _ _ Ht). apply Hlinks. left.
      apply elem_of_ancestors in Hq as [_ Hq], Hr as [? Hr]. apply elem_of_ancestors. split; [done|by etrans].
    + intros r Hr _. apply dest_dirs; [done|]. apply elem_of_ancestors in Hq as [_ Hq], Hr as [? Hr].
      apply elem_of_ancestors. split; [done|by etrans].
    + by apply elem_of_ancestors in Hq as [? _].
  - unfold mkdirStep. destruct (Stat _ t) as [[]|e]; [by split|by split|].
    destruct (find_unlinked t false (comps dest ++ rel) Hp) as [-> |[-> |[e' ->]]];
      [by eapply unlinked_below|by split| |by split].
    split; [|done]. apply confined_dir; [done|]. by exists rel.
Qed.

Lemma keeps_MkdirAll p rel : Forall plain rel → p `prefix_of` comps dest ++ rel →
  preserves (confined (comps dest) t0) (MkdirAll p).
Proof.
  intros Hp Hpre. apply keeps_for_each; [done|]. intros q [Hq Hqp]%elem_of_ancestors.
  assert (q `prefix_of` comps dest ++ rel) as Hr by (by etrans).
  apply keeps_mkdirStep; [|by apply (ancestor_cases _ rel), elem_of_ancestors].
  assert (Forall plain (comps dest ++ rel)) as Ha by (apply Forall_app; split; [apply comps_plain|done]).
  destruct Hr as [r Hr]. rewrite Hr in Ha. by apply Forall_app in Ha as [? _].
Qed.

Lemma keeps_OpenFile rel : Forall plain rel →
  keeps (confined (comps dest) t0) (below (comps dest)) (OpenFile (comps dest ++ rel)).
Proof.
  intros Hp t Ht. unfold OpenFile.
  destruct (find_unlinked t true (comps dest ++ rel)) as [E|[E|[e E]]]; rewrite ?E.
  - apply Forall_app. split; [apply comps_plain|done].
  - by eapply unlinked_below.
  - destruct (isDir t (comps dest ++ rel)) eqn:Ed; [by split|].
    assert (below (comps dest) (comps dest ++ rel)) as Hb.
    { exists rel. split; [|done]. intros ->. rewrite app_nil_r in Ed. unfold isDir in Ed.
      rewrite (bool_decide_eq_true_2 (comps dest ∈ tr_dirs t)), orb_true_r in Ed; [done|].
      apply dest_dirs; [done|]. by apply elem_of_ancestors. }
    split; [by apply confined_file|]. by intros ? [= <-].
  - assert (below (comps dest) (comps dest ++ rel)) as Hb.
    { exists rel. split; [|done]. intros ->. rewrite app_nil_r in E.
      rewrite find_dirs in E; [|apply comps_plain|..|done].
      - rewrite bool_decide_eq_true_2 in E; [done|]. apply dest_dirs; [done|]. by apply elem_of_ancestors.
      - intros q Hq. rewrite (conf_links _ _ _ Ht). apply Hlinks. by left.
      - intros q Hq _. by apply dest_dirs. }
    split; [by apply confined_file|]. by intros ? [= <-].
  - by split.
Qed.

Lemma keeps_extractEntry hdr : preserves (confined (comps dest) t0) (extractEntry dest hdr).
Proof.
  unfold extractEntry. eapply keeps_bind.
  { apply (keeps_lift _ _ (λ c, cleanArchivePath (te_Name hdr) = Ok c)). done. }
  intros c Hc. apply cleanArchivePath_spec in Hc as [Hn Hc]. cbn zeta.
  destruct (HasPrefix (JoinPath dest c) dest) eqn:Ep; simpl; [|apply keeps_fail].
  destruct Hc as [->|(l & Hl & Hc)]; [by rewrite dotdot_escapes in Ep|].
  destruct (comps_JoinPath dest c Habs Hn) as [-> _]. rewrite Hc by apply comps_plain.
  eapply (keeps_bind _ _ _ (λ _, True)).
  { apply (keeps_MkdirAll _ l Hl). apply prefix_take. }
  intros _ _. eapply keeps_bind; [by apply keeps_OpenFile|]. intros q Hq.
  eapply (keeps_bind _ _ _ (λ _, True)); [by apply keeps_modify; [|intros; apply confined_file]|].
  intros _ _. destruct (te_Err hdr); [apply keeps_fail|by apply keeps_ret].
Qed.

Lemma keeps_ExtractTarGz data : preserves (confined (comps dest) t0) (ExtractTarGz data dest).
Proof.
  unfold ExtractTarGz. eapply (keeps_bind _ _ _ (λ _, True)); [by apply keeps_lift|].
  intros [entries e] _. eapply (keeps_bind _ _ _ (λ _, True)).
  - apply keeps_for_each; [done|]. intros hdr _. apply keeps_extractEntry.
  - intros _ _. destruct e; [apply keeps_fail|by apply keeps_ret].
Qed.

End Confined.

(** ** Plain names *)

Lemma Contains_spec s sub : Contains s sub = true → ∃ a b, s = a +:+ sub +:+ b.
Proof.
  induction s as [|c s IH]; simpl; rewrite orb_true_iff.
  - intros [H|]; [|done]. apply HasPrefix_spec in H as [t ->]. by exists "", t.
  - intros [H|H]; [apply HasPrefix_spec in H as [t ->]; by exists "", t|].
    destruct (IH H) as (a & b & ->). by exists (String c a), b.
Qed.

(** A path that cleans to plain components is accepted. *)
Lemma cleanArchivePath_plain path l :
  Clean path = Join l "/" → Forall plain l → l ≠ [] → cleanArchivePath path = Ok (Join l "/").
Proof.
  intros Hc Hl Hne. pose proof (Split_Join l (plain_no_byte _ Hl) Hne) as Hs.
  assert (∀ c, ¬ plain c → c ∉ Split (Join l "/") slash) as Hno.
  { intros c Hp. rewrite Hs. rewrite Forall_forall in Hl. eauto. }
  assert (¬ plain "." ∧ ¬ plain ".." ∧ ¬ plain "") as (N1 & N2 & N3).
  { split_and!; intros (? & ? & ? & _); done. }
  unfold cleanArchivePath. rewrite Hc. generalize dependent (Join l "/"). intros s _ Hs Hno.
  assert (TrimPrefix s "./" = s) as ->.
  { destruct (TrimPrefix_cases s "./") as [|[r ->]]; [done|]. destruct (Hno "." N1).
    change ("./" +:+ r) with ("." +:+ "/" +:+ r). rewrite Split_slash. left. }
  rewrite bool_decide_eq_false_2 by (intros ->; apply (Hno "." N1); left).
  rewrite bool_decide_eq_false_2 by (intros ->; apply (Hno "" N3); left).
  destruct (HasPrefix s "../") eqn:E1; simpl.
  { apply HasPrefix_spec in E1 as [r ->]. destruct (Hno ".." N2).
    change ("../" +:+ r) with (".." +:+ "/" +:+ r). rewrite Split_slash. left. }
  destruct (Contains s "/../") eqn:E2; [|done].
  apply Contains_spec in E2 as (a & b & ->). destruct (Hno ".." N2).
  change (a +:+ "/../" +:+ b) with (a +:+ "/" +:+ ".." +:+ "/" +:+ b).
  rewrite !Split_slash. apply elem_of_app. right. left.
Qed.

Lemma Join_app_prefix l l' : ∃ r, Join (l ++ l') "/" = Join l "/" +:+ r.
Proof.
  induction l as [|x l [r IH]]; [by eexists|]. destruct l as [|y l].
  - destruct l' as [|z l']; [exists ""; by rewrite string_app_nil_r|]. by eexists.
  - exists r. change (Join ((x :: y :: l) ++ l') "/") with (x +:+ "/" +:+ Join ((y :: l) ++ l') "/").
    rewrite IH.
    change (Join (x :: y :: l) "/") with (x +:+ "/" +:+ Join (y :: l) "/"). by rewrite !string_app_assoc.
Qed.

(** Plain components joined to a clean directory. *)
Lemma JoinPath_plain dest l :
  isAbs dest = true → Clean dest = dest → Forall plain l → l ≠ [] →
  comps (JoinPath dest (Join l "/")) = comps dest ++ l ∧
  HasPrefix (JoinPath dest (Join l "/")) dest = true.
Proof.
  intros Ha Hc Hl Hne. pose proof (Split_Join l (plain_no_byte _ Hl) Hne) as Hs.
  assert (Join l "/" ≠ "") as Hj.
  { intros E. rewrite E in Hs. simpl in Hs. subst l. apply Forall_singleton in Hl as [? _]. done. }
  destruct (comps_JoinPath dest (Join l "/") Ha Hj) as [E1 E2].
  rewrite Hs, clean_plain, reverse_involutive in E1 by done. split; [done|].
  rewrite E2, E1. apply HasPrefix_spec. destruct (Join_app_prefix (comps dest) l) as [r ->].
  exists r. transitivity (Clean dest +:+ r); [|by rewrite Hc].
  unfold Clean. rewrite Ha. fold (comps dest). by rewrite string_app_assoc.
Qed.

(** One entry with plain components: it becomes a file unless it is a directory
    or one of its ancestors is a file. *)
Lemma run_extractEntry dest l hdr t :
  isAbs dest = true → Clean dest = dest → Forall plain l → l ≠ [] →
  Clean (te_Name hdr) = Join l "/" →
  let p := comps dest ++ l in
  extractEntry dest hdr t =
    (MkdirAll (parent p) ≫= λ _, OpenFile p ≫= λ file, writeTo file (te_Data hdr) ≫= λ _,
     match te_Err hdr with Some e => fail e | None => mret tt end) t.
Proof.
  intros Ha Hc Hl Hne Hn p. unfold extractEntry.
  erewrite run_bind by (unfold lift; by erewrite cleanArchivePath_plain). cbn zeta.
  destruct (JoinPath_plain dest l Ha Hc Hl Hne) as [-> ->]. done.
Qed.

(** One directory entry at the top: it becomes an empty file. *)
Lemma extract_dir_entry `{!Archives} dest dir t :
  isAbs dest = true → Clean dest = dest → plain dir →
  (∀ q, q ∈ ancestors (comps dest) → tr_files t !! q = None) → linkless (comps dest) t →
  comps dest ++ [dir] ∉ tr_dirs t → Clean (dir +:+ "/") = Join [dir] "/" →
  ∃ t1, extractEntry dest (mkTarEntry (dir +:+ "/") "" None) t = (Ok tt, t1) ∧
    tr_files t1 = <[comps dest ++ [dir] := ""]> (tr_files t) ∧
    tr_links t1 = tr_links t ∧ comps dest ++ [dir] ∉ tr_dirs t1.
Proof.
  intros Ha Hc Hd Hfree Hl Hnew Hn. pose proof (comps_plain dest) as Hpl.
  rewrite (run_extractEntry dest [dir]) by (done || by apply Forall_singleton). cbn zeta.
  rewrite parent_snoc. erewrite run_bind.
  2:{ apply MkdirAll_ok; [done| |done]. intros q Hq. apply Hl. by left. }
  set (t' := t <| tr_dirs := _ |>).
  assert (comps dest ++ [dir] ∉ tr_dirs t') as Hnew'.
  { unfold t'. simpl. rewrite elem_of_union, elem_of_list_to_set, elem_of_ancestors.
    intros [[_ Hp]|?]; [|done]. by apply prefix_snoc_not in Hp. }
  erewrite run_bind.
  2:{ apply run_OpenFile; [by apply Forall_app; split; [|apply Forall_singleton]| |  |by destruct (comps dest)|done].
      - intros q Hq. by apply Hl, (ancestor_cases _ [dir]).
      - intros q Hq Hne. rewrite ancestors_snoc in Hq.
        apply elem_of_app in Hq as [Hq|Hq%list_elem_of_singleton]; [|done].
        apply elem_of_union. left. by apply elem_of_list_to_set. }
  eexists. split; [done|]. split; [|split; [done|exact Hnew']]. simpl. by rewrite insert_insert_eq.
Qed.

Lemma Clean_plain_head dir file :
  plain dir → file = "" ∨ plain file →
  Clean (dir +:+ "/" +:+ file) = Join (dir :: if bool_decide (file = "") then [] else [file]) "/".
Proof.
  intros Hd Hf. unfold Clean.
  assert (isAbs (dir +:+ "/" +:+ file) = false) as ->.
  { destruct Hd as (Hne & _ & _ & Hs). destruct dir as [|a s]; [done|].
    cbn [no_byte] in Hs. apply andb_true_iff in Hs as [Hs _]. apply negb_true_iff in Hs.
    rewrite string_app_cons. unfold isAbs. cbn [HasPrefix].
    change "/"%char with slash. by rewrite Ascii.eqb_sym, Hs. }
  rewrite Split_slash, (Split_no_byte dir) by apply Hd.
  assert (clean_parts false [] ([dir] ++ Split file slash) =
    dir :: if bool_decide (file = "") then [] else [file]) as ->.
  { destruct Hf as [->|Hf].
    - destruct Hd as (H1 & H2 & H3 & _). simpl. by rewrite !bool_decide_eq_false_2.
    - rewrite (Split_no_byte file) by apply Hf. rewrite clean_plain by (apply (Forall_cons_2 _ dir [file]); [done|by apply Forall_singleton]).
      by rewrite bool_decide_eq_false_2 by apply Hf. }
  rewrite bool_decide_eq_false_2; [done|]. destruct Hd as [Hne _]. destruct dir as [|a s]; [done|].
  by destruct (if bool_decide (file = "") then [] else [file]).
Qed.

(** ** Properties *)

(** An archive format for concrete runs: every archive has the given entries. *)
Definition demo_archives (entries : list TarEntry) : Archives := {|
  tar_Read _ := Ok (entries, None);
  tar_HeaderErr _ _ := None;
  tar_Bytes l := Ok (Join ((λ e, e.1 +:+ "=" +:+ e.2) <$> l) ";");
|}.

Definition demo_tree : Tree := mkTree {[["etc"; "passwd"] := "root"]} {[["tmp"]; ["tmp"; "b1"]; ["etc"]]} ∅.

Lemma demo_tree_dirs : Forall (λ q, q ∈ tr_dirs demo_tree) (ancestors (comps "/tmp/b1")).
Proof. apply (bool_decide_eq_true_1 _). reflexivity. Qed.

Lemma demo_tree_links d : linkless d demo_tree.
Proof. intros q _. apply lookup_empty. Qed.

(** C22: an extraction stays inside its destination.  Whatever the archive holds
    (absolute names, "..", a broken end), and whether or not the extraction
    succeeds, every file and every directory that is not below the destination
    directory is as it was, and no link is made.  The destination is an existing
    directory with an absolute, clean path, and there is no link on the way to
    it or in it. *)
Theorem extract_confined (A : Archives) data dest (t : Tree) :
  isAbs dest = true → Clean dest = dest → comps dest ≠ [] →
  Forall (λ q, q ∈ tr_dirs t) (ancestors (comps dest)) → linkless (comps dest) t →
  let t' := (ExtractTarGz data dest t).2 in
  tr_links t' = tr_links t ∧
  ∀ p, ¬ below (comps dest) p →
    tr_files t' !! p = tr_files t !! p ∧ (p ∈ tr_dirs t' ↔ p ∈ tr_dirs t).
Proof.
  intros Ha Hc Hn Hd Hl t'. rewrite Forall_forall in Hd.
  destruct (keeps_ExtractTarGz dest t Ha Hc Hn Hd Hl data t (confined_refl _ _)) as [[H1 H2 H3] _].
  split; [done|]. intros p Hp. split; [by apply H1|by apply H2].
Qed.

Lemma extract_confined_witness :
  let A := demo_archives [mkTarEntry "a/../x" "1" None; mkTarEntry "/etc/passwd" "2" None;
                          mkTarEntry "../../etc/passwd" "3" None] in
  let run := @ExtractTarGz A "" "/tmp/b1" demo_tree in
  run.1 = Err (plainErr ("invalid archive path " +:+ quote "../../etc/passwd")) ∧
  tr_files run.2 !! ["tmp"; "b1"; "etc"; "passwd"] = Some "2" ∧
  tr_files run.2 !! ["etc"; "passwd"] = Some "root".
Proof.
  intros A run. split; [vm_compute; reflexivity|]. split; [vm_compute; reflexivity|].
  destruct (extract_confined A "" "/tmp/b1" demo_tree eq_refl eq_refl ltac:(discriminate)
    demo_tree_dirs (demo_tree_links _)) as [_ Hp].
  destruct (Hp ["etc"; "passwd"]) as [Hf _]; [intros (rel & _ & [=])|exact Hf].
Defined.

(** An archive with directory entries cannot be extracted.  When an entry
    names a directory (as [tar] writes them, with a final slash) and a later
    one a file in it, the first is extracted as a regular file and the second
    fails, because its parent is not a directory. *)
Theorem extract_directory_entry_fails (A : Archives) data dest dir file content e (t : Tree) :
  isAbs dest = true → Clean dest = dest → plain dir → plain file →
  tar_Read data = Ok ([mkTarEntry (dir +:+ "/") "" None; mkTarEntry (dir +:+ "/" +:+ file) content None], e) →
  Forall (λ q, tr_files t !! q = None) (ancestors (comps dest)) → linkless (comps dest) t →
  comps dest ++ [dir] ∉ tr_dirs t →
  ∃ t', ExtractTarGz data dest t = (Err (pathErr "mkdir" (comps dest ++ [dir]) ENOTDIR), t').
Proof.
  intros Ha Hc Hd Hf Hr Hfree Hlinks Hnew. rewrite Forall_forall in Hfree. unfold ExtractTarGz.
  erewrite run_bind by (unfold lift; by rewrite Hr). cbn beta iota. cbn [for_each].
  pose proof (Clean_plain_head dir "" Hd (or_introl eq_refl) : Clean (dir +:+ "/") = _) as N1.
  pose proof (Clean_plain_head dir file Hd (or_intror Hf)) as N2.
  rewrite bool_decide_eq_false_2 in N2 by apply Hf.
  destruct (extract_dir_entry dest dir t) as (t1 & E1 & F1 & L1 & D1); try done.
  destruct (MkdirAll_file (comps dest) dir t1) as [t2 E2].
  { apply Forall_app. split; [apply comps_plain|by apply Forall_singleton]. }
  { intros q Hq. rewrite L1. by apply Hlinks, (ancestor_cases _ [dir]). }
  { intros q Hq. rewrite F1, lookup_insert_ne; [by apply Hfree|]. intros <-.
    by apply elem_of_ancestors in Hq as [_ Hq%prefix_snoc_not]. }
  { done. }
  { by rewrite F1, lookup_insert_eq. }
  exists t2. erewrite run_bind_err; [done|]. erewrite run_bind by exact E1.
  apply run_bind_err. rewrite (run_extractEntry dest [dir; file]) by (done || by apply Forall_cons_2; [|apply Forall_singleton]).
  cbn zeta. change [dir; file] with ([dir] ++ [file]). rewrite app_assoc, parent_snoc.
  by erewrite run_bind_err.
Qed.

Lemma extract_directory_entry_fails_witness :
  let A := demo_archives [mkTarEntry "lib/" "" None; mkTarEntry "lib/index.js" "x" None] in
  ∃ t', @ExtractTarGz A "" "/tmp/b1" demo_tree = (Err (pathErr "mkdir" ["tmp"; "b1"; "lib"] ENOTDIR), t').
Proof.
  intros A.
  apply (extract_directory_entry_fails A "" "/tmp/b1" "lib" "index.js" "x" None demo_tree).
  - reflexivity.
  - reflexivity.
  - repeat split; discriminate.
  - repeat split; discriminate.
  - reflexivity.
  - repeat constructor.
  - apply demo_tree_links.
  - apply (bool_decide_eq_false_1 _). reflexivity.
Defined.
