(* ===== verification/BundleFacts.v ===== *)
(** * BundleFacts: a bundle holds its files

    What [BundleFromFiles] packs, [ExtractTarGz] unpacks: the round trip of
    [internal/artifact/bundle.go] on a directory that is still empty. *)

From Stdlib Require Import Ascii.
From stdpp Require Import base decidable tactics numbers list gmap strings.
From S2P Require Import Prelude Artifacts Files Archive.

(** ** Relative names *)

Lemma Join_cons p q l : Join (p :: q :: l) "/" = p +:+ "/" +:+ Join (q :: l) "/".
Proof. done. Qed.

Lemma Join_Split s : Join (Split s slash) "/" = s.
Proof.
  induction s as [|a s IH]; [done|]. simpl. pose proof (Split_nonempty s slash) as Hn.
  destruct (Ascii.eqb_spec a slash) as [->|].
  - destruct (Split s slash) as [|q l]; [done|]. rewrite Join_cons, IH. done.
  - destruct (Split s slash) as [|q l]; [done|]. destruct l as [|r l]; simpl in *; [by rewrite IH|].
    by rewrite string_app_cons, IH.
Qed.

(** A name that [Clean] leaves alone. *)
Lemma Clean_plain name : Forall plain (Split name slash) → Clean name = name.
Proof.
  intros Hp. unfold Clean. assert (isAbs name = false) as ->.
  { unfold isAbs. destruct (HasPrefix name "/") eqn:Ea; [|done]. apply HasPrefix_spec in Ea as [r ->].
    change ("/" +:+ r) with ("" +:+ "/" +:+ r) in Hp. rewrite Split_slash in Hp.
    apply Forall_cons in Hp as [[Hn _] _]. done. }
  rewrite clean_plain by done. simpl. rewrite Join_Split. rewrite bool_decide_eq_false_2; [done|].
  intros ->. apply Forall_cons in Hp as [[Hn _] _]. done.
Qed.

Lemma cleanArchivePath_id name : Forall plain (Split name slash) → cleanArchivePath name = Ok name.
Proof.
  intros Hp. rewrite (cleanArchivePath_plain name (Split name slash)); [by rewrite Join_Split| |done|apply Split_nonempty].
  by rewrite Clean_plain, Join_Split.
Qed.

(** The entries of a bundle of such names. *)
Lemma bundleEntries_plain `{!Archives} files paths written entries :
  Forall (λ n, Forall plain (Split n slash)) paths →
  bundleEntries files written paths = Ok entries →
  entries = written ++ ((λ n, (n, default "" (files !! n))) <$> paths).
Proof.
  intros Hp. revert written. induction Hp as [|n paths Hn Hp IH]; intros written; simpl.
  - intros [= <-]. by rewrite app_nil_r.
  - rewrite (cleanArchivePath_id n Hn). simpl. destruct (tar_HeaderErr _ _); [done|].
    intros Hb. rewrite (IH _ Hb). by rewrite <- app_assoc.
Qed.

(** ** Unpacking into an empty directory *)

Section Unpack.
Context (dest : string) (t : Tree) (files : gmap string string).
Context (Habs : isAbs dest = true) (Hclean : Clean dest = dest).
Context (Hfree : ∀ q, q ∈ ancestors (comps dest) → tr_files t !! q = None).
Context (Hempty : ∀ p, below (comps dest) p → tr_files t !! p = None ∧ p ∉ tr_dirs t).
Context (Hlinks : linkless (comps dest) t).

Abbreviation d := (comps dest).

(** Where a name is unpacked. *)
Definition place (name : string) : Path := d ++ Split name slash.

Lemma place_inj a b : place a = place b → a = b.
Proof. intros E%(app_inv_head d). by rewrite <- (Join_Split a), <- (Join_Split b), E. Qed.

Lemma place_below name : below d (place name).
Proof. exists (Split name slash). split; [apply Split_nonempty|done]. Qed.

Lemma place_nonempty name : place name ≠ [].
Proof. intros E. apply (Split_nonempty name slash). by apply app_eq_nil in E as [_ ?]. Qed.

Lemma place_plain name : Forall plain (Split name slash) → Forall plain (place name).
Proof. intros Hp. apply Forall_app. split; [apply comps_plain|done]. Qed.

Lemma unlinked_place t1 name p : tr_links t1 = tr_links t → p `prefix_of` place name → unlinked t1 p.
Proof.
  intros Hk Hp q [Hq Hpre]%elem_of_ancestors. rewrite Hk. apply Hlinks, (ancestor_cases _ (Split name slash)).
  apply elem_of_ancestors. split; [done|by etrans].
Qed.

(** The tree after some of the names. *)
Record unpacked (names : list string) (t' : Tree) : Prop := {
  un_named n : n ∈ names → tr_files t' !! place n = Some (default "" (files !! n));
  un_other p : (∀ n, n ∈ names → place n ≠ p) → tr_files t' !! p = tr_files t !! p;
  un_dirs p : p ∈ tr_dirs t' → p ∈ tr_dirs t ∨ ∃ n, n ∈ names ∧ p `prefix_of` parent (place n);
  un_links : tr_links t' = tr_links t;
}.

Lemma unpacked_nil : unpacked [] t.
Proof. split; [by intros n Hn%elem_of_nil|done|by left|done]. Qed.

Definition entryOf (name : string) : TarEntry := mkTarEntry name (default "" (files !! name)) None.

Lemma parent_place name q : q ∈ ancestors (parent (place name)) →
  q ∈ ancestors d ∨ ∃ r, r ≠ [] ∧ q = d ++ r ∧ r `prefix_of` Split name slash ∧ r ≠ Split name slash.
Proof.
  unfold place. destruct (Split name slash) as [|x l _] eqn:Es using rev_ind; [by apply Split_nonempty in Es|].
  rewrite app_assoc, parent_snoc, elem_of_ancestors. intros [Hne Hp].
  destruct (prefix_weak_total q d (d ++ l)) as [Hq|[r ->]]; [done|by apply prefix_app_r| |].
  - left. by apply elem_of_ancestors.
  - destruct (decide (r = [])) as [->|Hr].
    { left. apply elem_of_ancestors. rewrite app_nil_r in *. done. }
    right. exists r. apply prefix_app_inv in Hp. split_and!; [done|done|by apply prefix_app_r|].
    intros ->. apply prefix_length in Hp. rewrite length_app in Hp. simpl in Hp. lia.
Qed.

(** One more name. *)
Lemma unpack_entry names name t1 :
  Forall plain (Split name slash) →
  (∀ n, n ∈ names → ¬ Split n slash `prefix_of` Split name slash ∧ ¬ Split name slash `prefix_of` Split n slash) →
  unpacked names t1 →
  ∃ t2, extractEntry dest (entryOf name) t1 = (Ok tt, t2) ∧ unpacked (names ++ [name]) t2.
Proof.
  intros Hp Hd [Hn Ho Hs Hk]. rewrite (run_extractEntry dest (Split name slash)); [|done..| |].
  2:{ apply Split_nonempty. }
  2:{ simpl. by rewrite Clean_plain, Join_Split. }
  cbn zeta. fold (place name).
  assert (place name ∉ list_to_set (C := gset Path) (ancestors (parent (place name))) ∪ tr_dirs t1) as Hnd.
  { rewrite elem_of_union, elem_of_list_to_set. intros [Ha|Ha].
    - apply elem_of_ancestors in Ha as [_ Ha]. apply prefix_length in Ha. unfold parent in Ha.
      rewrite length_take in Ha. destruct (place_below name) as (r & Hr & Er). rewrite Er, length_app in Ha.
      destruct r; [done|]. simpl in Ha. lia.
    - apply Hs in Ha as [Ha|(n & Hin & Ha)]; [by apply (Hempty _ (place_below name))|].
      destruct (Hd n Hin) as [_ []]. unfold place in *. apply (prefix_app_inv d).
      etrans; [exact Ha|]. apply prefix_take. }
  rewrite (run_bind _ _ _ tt (t1 <| tr_dirs := list_to_set (ancestors (parent (place name))) ∪ tr_dirs t1 |>)).
  2:{ apply MkdirAll_ok; [|by apply (unlinked_place _ name); [|apply prefix_take]|].
    { apply Forall_take, place_plain. done. }
    intros q Hq. destruct (parent_place name q Hq) as [Hqd|(r & Hr & -> & Hpre & Hneq)].
    - rewrite Ho; [by apply Hfree|]. intros n _ <-. apply elem_of_ancestors in Hqd as [_ Hqd].
      apply prefix_length in Hqd. unfold place in Hqd. rewrite length_app in Hqd.
      pose proof (Split_nonempty n slash). destruct (Split n slash); [done|]. simpl in Hqd. lia.
    - rewrite Ho; [apply Hempty; by exists r|]. intros n Hin E%(app_inv_head d).
      destruct (Hd n Hin) as [[] _]. by rewrite E. }
  erewrite run_bind.
  2:{ apply run_OpenFile; [by apply place_plain|by apply (unlinked_place _ name)| |apply place_nonempty|exact Hnd].
    intros q [Hq Hpre]%elem_of_ancestors Hne. apply elem_of_union. left. apply elem_of_list_to_set, elem_of_ancestors.
    split; [done|]. by apply prefix_parent. }
  eexists. split; [reflexivity|]. split; simpl; [| | |done].
  - intros n [Hin|Hin%list_elem_of_singleton]%elem_of_app.
    + rewrite !lookup_insert_ne; [by apply Hn|..]; intros E%place_inj; subst; by destruct (Hd n Hin) as [[] _].
    + subst. by rewrite lookup_insert_eq.
  - intros p Hne. rewrite !lookup_insert_ne by (apply Hne; set_solver). apply Ho. intros n Hin. apply Hne. set_solver.
  - intros p [Ha|Ha]%elem_of_union.
    + right. exists name. split; [set_solver|]. rewrite elem_of_list_to_set, elem_of_ancestors in Ha. by apply Ha.
    + apply Hs in Ha as [Ha|(n & Hin & Ha)]; [by left|]. right. exists n. split; [set_solver|done].
Qed.

(** All the names. *)
Lemma unpack_all names rest t1 :
  NoDup (names ++ rest) → Forall (λ n, Forall plain (Split n slash)) rest →
  (∀ a b, a ∈ names ++ rest → b ∈ names ++ rest → Split a slash `prefix_of` Split b slash → a = b) →
  unpacked names t1 →
  ∃ t2, for_each (entryOf <$> rest) (extractEntry dest) t1 = (Ok tt, t2) ∧ unpacked (names ++ rest) t2.
Proof.
  revert names t1. induction rest as [|name rest IH]; intros names t1 Hnd Hp Hpre Hu.
  { exists t1. by rewrite app_nil_r. }
  apply Forall_cons in Hp as [Hn Hp].
  destruct (unpack_entry names name t1 Hn) as (t2 & E2 & U2); [|done|].
  { intros n Hin. apply NoDup_app in Hnd as (_ & Hdis & _).
    assert (n ≠ name) as Hne by (intros ->; apply (Hdis name Hin); left).
    split; intros Hx; apply Hne; [|symmetry]; apply Hpre; set_solver. }
  assert (names ++ name :: rest = (names ++ [name]) ++ rest) as El by (by rewrite <- app_assoc).
  rewrite El in *. destruct (IH (names ++ [name]) t2 Hnd Hp Hpre U2) as (t3 & E3 & U3).
  exists t3. split; [|done]. rewrite fmap_cons. cbn [for_each]. by rewrite (run_bind _ _ _ _ _ E2).
Qed.

End Unpack.

(** C8: A bundle unpacks to the files it was made of.  Take files whose names
    are relative paths without empty, "." and ".." components, none of which
    names a directory of another.  Whenever [BundleFromFiles] packs them,
    [ExtractTarGz] unpacks the bundle into an existing, empty directory, no
    link on the way to it, without an error, and afterwards the files below that directory are exactly the
    packed ones, with their contents.  Of the archive format only that it can
    be read back is used. *)
Theorem bundle_roundtrip (A : Archives) (o : MapOrder) (files : gmap string string) (data dest : string)
    (t : Tree) :
  (∀ l bytes, tar_Bytes l = Ok bytes → tar_Read bytes = Ok ((λ e, mkTarEntry e.1 e.2 None) <$> l, None)) →
  (∀ name, is_Some (files !! name) → Forall plain (Split name slash)) →
  (∀ a b, is_Some (files !! a) → is_Some (files !! b) → Split a slash `prefix_of` Split b slash → a = b) →
  isAbs dest = true → Clean dest = dest →
  Forall (λ q, tr_files t !! q = None) (ancestors (comps dest)) →
  (∀ p, below (comps dest) p → tr_files t !! p = None ∧ p ∉ tr_dirs t) → linkless (comps dest) t →
  BundleFromFiles files = Ok data →
  ∃ t', ExtractTarGz data dest t = (Ok tt, t') ∧
    ∀ name, Forall plain (Split name slash) →
      tr_files t' !! (comps dest ++ Split name slash) = files !! name.
Proof.
  intros Htar Hnames Hpre Ha Hc Hf He Hl Hb. rewrite Forall_forall in Hf. unfold BundleFromFiles in Hb.
  set (paths := SliceStable string_ltb (map_iter 22 files).*1) in Hb.
  assert (∀ n, n ∈ paths ↔ is_Some (files !! n)) as Hin.
  { intros n. unfold paths. rewrite elem_of_SliceStable, list_elem_of_fmap. split.
    - intros ([k x] & -> & Hx). apply elem_of_map_iter in Hx. by exists x.
    - intros [x Hx]. exists (n, x). by rewrite elem_of_map_iter. }
  assert (NoDup paths) as Hnd by (unfold paths; rewrite SliceStable_perm; apply NoDup_map_iter_fst).
  destruct (bundleEntries files [] paths) as [entries|] eqn:Eb; [|done]. simpl in Hb.
  apply bundleEntries_plain in Eb; [|by apply Forall_forall; intros n Hn; apply Hnames, Hin]. simpl in Eb. subst entries.
  destruct (unpack_all dest t files Ha Hc Hf He Hl [] paths t) as (t' & E' & [Un Uo _ _]).
  - done.
  - apply Forall_forall. intros n Hn. by apply Hnames, Hin.
  - intros a b Hx Hy. by apply Hpre; apply Hin.
  - apply unpacked_nil.
  - exists t'. split.
    + unfold ExtractTarGz. erewrite run_bind by (unfold lift; by rewrite (Htar _ _ Hb)). cbn beta iota.
      rewrite <- list_fmap_compose. erewrite run_bind; [done|exact E'].
    + intros name Hn. fold (place dest name). destruct (files !! name) as [x|] eqn:Ex.
      * rewrite Un by (apply Hin; by exists x). by rewrite Ex.
      * rewrite Uo; [by apply He, place_below|]. intros n Hx E%place_inj. subst.
        apply Hin in Hx as [y Hy]. congruence.
Qed.

(** ** An archive format for concrete runs

    Every byte of a name or content is written behind a mark, and the field ends
    with another mark. *)

Definition more : ascii := ascii_of_N 43.
Definition stop : ascii := ascii_of_N 59.

Fixpoint writeField (s rest : string) : string :=
  match s with
  | EmptyString => String stop rest
  | String a s' => String more (String a (writeField s' rest))
  end.

Fixpoint readField (s : string) : option (string * string) :=
  match s with
  | String m s' =>
      if Ascii.eqb m stop then Some ("", s')
      else match s' with String a r => '(f, rest) ← readField r; Some (String a f, rest) | EmptyString => None end
  | EmptyString => None
  end.

Fixpoint writeEntries (l : list (string * string)) : string :=
  match l with [] => "" | (n, c) :: l => writeField n (writeField c (writeEntries l)) end.

Fixpoint readEntries (fuel : nat) (s : string) : option (list (string * string)) :=
  match fuel, s with
  | _, EmptyString => Some []
  | 0, _ => None
  | S fuel, s =>
      '(n, s) ← readField s; '(c, s) ← readField s; l ← readEntries fuel s; Some ((n, c) :: l)
  end.

Lemma readField_write s rest : readField (writeField s rest) = Some (s, rest).
Proof. induction s as [|a s IH]; [done|]. simpl. by rewrite IH. Qed.

Lemma writeField_length s rest : String.length rest < String.length (writeField s rest).
Proof. induction s as [|a s IH]; simpl; lia. Qed.

Lemma readEntries_write l fuel : String.length (writeEntries l) ≤ fuel → readEntries fuel (writeEntries l) = Some l.
Proof.
  revert fuel. induction l as [|[n c] l IH]; intros fuel Hf; [by destruct fuel|]. simpl in *.
  pose proof (writeField_length n (writeField c (writeEntries l))) as H1.
  pose proof (writeField_length c (writeEntries l)) as H2.
  destruct fuel as [|fuel]; [lia|]. cbn [readEntries].
  destruct (writeField n (writeField c (writeEntries l))) as [|x s] eqn:Ew; [simpl in H1; lia|].
  rewrite <- Ew, readField_write. simpl. rewrite readField_write. simpl. rewrite IH; [done|]. lia.
Qed.

Definition field_archives : Archives := {|
  tar_Read bytes := match readEntries (String.length bytes) bytes with
                    | Some l => Ok ((λ e, mkTarEntry e.1 e.2 None) <$> l, None)
                    | None => Err (plainErr "archive/tar: invalid tar header")
                    end;
  tar_HeaderErr _ _ := None;
  tar_Bytes l := Ok (writeEntries l);
|}.

Definition demo_bundle : string := writeEntries [("lib/index.js", "x"); ("package.json", "{}")].

Ltac plain_parts := simpl; repeat (apply Forall_cons; split; [repeat split; discriminate|]); apply Forall_nil.

Lemma bundle_roundtrip_witness :
  ∃ t', @ExtractTarGz field_archives demo_bundle "/tmp/b1" demo_tree = (Ok tt, t') ∧
    tr_files t' !! ["tmp"; "b1"; "lib"; "index.js"] = Some "x".
Proof.
  assert (∀ name, is_Some (({["lib/index.js" := "x"; "package.json" := "{}"]} : gmap string string) !! name) →
    name = "lib/index.js" ∨ name = "package.json") as Hn.
  { intros name [x Hx]. rewrite lookup_insert_Some, lookup_singleton_Some in Hx.
    destruct Hx as [[<- _]|[_ [<- _]]]; [by left|by right]. }
  destruct (bundle_roundtrip field_archives list_order {["lib/index.js" := "x"; "package.json" := "{}"]} demo_bundle
    "/tmp/b1" demo_tree) as (t' & E' & Hf).
  - intros l bytes [= <-]. simpl. by rewrite readEntries_write.
  - by intros name [-> | ->]%Hn; plain_parts.
  - intros a b [-> | ->]%Hn [-> | ->]%Hn Hp; [done| | |done]; by apply (bool_decide_eq_true_2 _) in Hp.
  - reflexivity.
  - reflexivity.
  - repeat constructor.
  - intros p (rel & Hr & ->). destruct rel as [|x rel]; [done|]. split; [by apply lookup_singleton_None|].
    simpl. rewrite !elem_of_union, !elem_of_singleton. by intros [[|]|].
  - apply demo_tree_links.
  - reflexivity.
  - exists t'. split; [done|]. refine (Hf "lib/index.js" _). by plain_parts.
Defined.
