(* ===== verification/BuildTools.v ===== *)
(** * BuildTools: the workspace of a build and the commands run in it

    Models the command runners of [internal/build/service.go] and what the
    build of a git source knows: the file system, the lines recorded so far and
    the number of commands run.  The programs themselves (git, the package
    managers and what they run) are a parameter: a command may leave any file
    system, with any output and any error; a command that is stopped because
    its time is over is one that ends with an error.  So are the decoder of
    package.json, URL parsing, the search path and the temporary directories,
    which are absolute. *)

From Stdlib Require Import Ascii.
From stdpp Require Import base decidable tactics numbers list gmap strings.
From S2P Require Import Prelude Domain Artifacts Files.

(** [exec.Cmd]: the directory, blank for the current one, and the variables
    added to the environment. *)
Record Command := mkCommand {
  cmd_Dir : string;
  cmd_Env : list string;
  cmd_Name : string;
  cmd_Args : list string;
}.

Record packageManifest := mkPackageManifest {
  pm_PackageManager : string;
  pm_Scripts : gmap string string;
  pm_Dependencies : gmap string string;
  pm_DevDependencies : gmap string string;
}.

(** [exec_Run seed n cmd t] is the [n]th command of the build [seed]. *)
Class BuildTools := {
  exec_Run : nat → nat → Command → Tree → string * option GoError * Tree;
  exec_LookPath : string → bool;
  os_MkdirTemp : nat → result (string * Tree);
  os_Getwd : result string;
  json_UnmarshalPackage : string → result packageManifest;
  url_StripUser : string → option string;
}.

(** ** The workspace *)

Record Workspace := mkWorkspace {
  ws_tree : Tree;
  ws_lines : list string;
  ws_commands : nat;
}.

#[export] Instance Workspace_rebuild : Rebuild Workspace :=
  λ r, mkWorkspace (ws_tree r) (ws_lines r) (ws_commands r).

Abbreviation BM := (M Workspace).

(** [recorder.Printf] *)
Definition record (line : string) : BM unit := modify (λ w, w <| ws_lines := ws_lines w ++ [line] |>).

(** An operation on the file system. *)
Definition onTree {A} (m : M Tree A) : BM A := λ w,
  let '(r, t) := m (ws_tree w) in (r, w <| ws_tree := t |>).

(** A reading of it. *)
Definition reads {A} (f : Tree → result A) : BM A := λ w, (f (ws_tree w), w).

(** [if err != nil { return fmt.Errorf(pre + "%w", err) }] *)
Definition wrapping {A} (pre : string) (m : BM A) : BM A :=
  r ← try m;
  match r with Ok a => mret a | Err e => fail (wrapText pre e "") end.

(** ** Commands *)

Section Commands.
Context `{!BuildTools} (seed : nat).

(** [cmd.CombinedOutput]. *)
Definition CombinedOutput (cmd : Command) : BM (string * option GoError) := λ w,
  let '(output, err, t) := exec_Run seed (ws_commands w) cmd (ws_tree w) in
  (Ok (output, err), w <| ws_tree := t |> <| ws_commands := S (ws_commands w) |>).

(** Running a command whose text is [text]. *)
Definition runRecorded (line text : string) (cmd : Command) : BM string :=
  record line ≫= λ _,
  '(output, err) ← CombinedOutput cmd;
  let trimmed := TrimSpace output in
  (if bool_decide (output = "") then mret tt else record trimmed) ≫= λ _,
  match err with
  | Some e => fail (wrapText (text +:+ ": ") e (": " +:+ trimmed))
  | None => mret trimmed
  end.

Definition runCommandOutputWithEnv (dir : string) (env : list string) (name : string) (args : list string) :
    BM string :=
  let text := name +:+ " " +:+ Join args " " in
  let line := if bool_decide (dir = "") then "$ " +:+ text else "$ (cd " +:+ dir +:+ " && " +:+ text +:+ ")" in
  runRecorded line text (mkCommand dir env name args).

Definition runCommandOutput (dir name : string) (args : list string) : BM string :=
  runCommandOutputWithEnv dir [] name args.

Definition runCommandWithTimeoutAndEnv (dir : string) (env : list string) (name : string) (args : list string) :
    BM unit :=
  runCommandOutputWithEnv dir env name args ≫= λ _, mret tt.

Definition sanitizeGitURL (raw : string) : string :=
  let trimmed := TrimSpace raw in
  if bool_decide (trimmed = "") then ""
  else default trimmed (url_StripUser trimmed).

Definition redactGitCloneArgs (args : list string) : list string :=
  if 2 <=? length args then alter sanitizeGitURL (length args - 2) args else args.

Definition runGitCloneWithTimeout (args : list string) : BM unit :=
  let text := "git " +:+ Join (redactGitCloneArgs args) " " in
  runRecorded ("$ " +:+ text) text (mkCommand "" [] "git" args) ≫= λ _, mret tt.

(** [filepath.Abs] *)
Definition Abs (path : string) : result string :=
  if isAbs path then Ok (Clean path) else wd ← os_Getwd; Ok (JoinPath wd path).

End Commands.
