(* ===== verification/NextSite.v ===== *)
(** * NextSite: websites

    Models the operations of [internal/build/nextsite.go] on a built workspace:
    recognising a standalone server, collecting the static assets, staging the
    runtime assets next to the server, and adding the handler.  What a walk
    visits is fixed when it starts; the walked directories and the directories
    written to are different ones. *)

From Stdlib Require Import Ascii.
From stdpp Require Import base decidable tactics numbers list gmap strings.
From S2P Require Import Prelude Domain Artifacts Files BuildTools NextScript.

Definition nextSiteHandlerEntrypoint : string := "__lecrev_next_site_handler.mjs".

Record preparedNextSite := mkPreparedNextSite {
  ns_BundleRoot : string;
  ns_Entrypoint : string;
  ns_StaticAssets : list (string * string);
}.

Definition isNextWorkspace (pkg : packageManifest) : bool :=
  negb (blank (map_getS (pm_Dependencies pkg) "next")) ||
  negb (blank (map_getS (pm_DevDependencies pkg) "next")).

(** ** Static assets *)

(** One visited node: a file is read through links. *)
Fixpoint appendFiles (dir : Path) (requestPrefix : string) (t : Tree) (assets : list (string * string))
    (visited : list (Path * bool)) : result (list (string * string)) :=
  match visited with
  | [] => Ok assets
  | (rel, isDirectory) :: rest =>
      if isDirectory : bool then appendFiles dir requestPrefix t assets rest
      else
        data ← ReadFile (dir ++ rel) t;
        let key := JoinPath requestPrefix (if bool_decide (rel = []) then "." else Join rel "/") in
        let key := if HasPrefix key "/" then key else "/" +:+ key in
        appendFiles dir requestPrefix t (assets ++ [(key, data)]) rest
  end.

(** Whether there is a directory, links followed. *)
Definition dirExists (p : Path) (t : Tree) : result bool :=
  match Stat p t with
  | Ok isDirectory => Ok isDirectory
  | Err e => if errors_Is e OsErrNotExist then Ok false else Err e
  end.

Definition appendDir (sourceDir requestPrefix : string) (assets : list (string * string)) (t : Tree) :
    result (list (string * string)) :=
  found ← dirExists (comps sourceDir) t;
  if found : bool then
    visited ← Walk (comps sourceDir) t;
    appendFiles (comps sourceDir) requestPrefix t assets visited
  else Ok assets.

(** The first icon that can be read. *)
Fixpoint firstFavicon (paths : list string) (t : Tree) : list (string * string) :=
  match paths with
  | [] => []
  | path :: rest =>
      match ReadFile (comps path) t with
      | Ok data => [("/favicon.ico", data)]
      | Err _ => firstFavicon rest t
      end
  end.

Definition collectNextStaticAssets (root : string) (t : Tree) : result (list (string * string)) :=
  assets ← appendDir (JoinPath root ".next/static") "/_next/static" [] t;
  assets ← appendDir (JoinPath root "public") "/" assets t;
  Ok (assets ++ firstFavicon [JoinPath root "app/favicon.ico"; JoinPath root "src/app/favicon.ico"] t).

(** ** Runtime assets *)

(** The target is truncated before the source is read. *)
Definition copyFile (sourcePath targetPath : Path) : M Tree unit := λ t,
  match find_node t true sourcePath with
  | Vacant _ => (Err (pathErr "open" sourcePath ENOENT), t)
  | Unreachable e => (Err (pathErr "open" sourcePath e), t)
  | Found source =>
      (target ← OpenFile targetPath;
       isDirectory ← gets (λ t, isDir t source);
       if isDirectory : bool then fail (pathErr "read" sourcePath EISDIR)
       else data ← gets (λ t, default "" (tr_files t !! source)); writeTo target data) t
  end.

Definition copyVisited (sourceDir targetDir : Path) (node : Path * bool) : M Tree unit :=
  let targetPath := targetDir ++ node.1 in
  if node.2 then MkdirAll targetPath
  else
    MkdirAll (parent targetPath) ≫= λ _,
    copyFile (sourceDir ++ node.1) targetPath.

Definition copyDirIfExists (sourceDir targetDir : Path) : M Tree unit := λ t,
  match dirExists sourceDir t with
  | Err e => (Err e, t)
  | Ok false => (Ok tt, t)
  | Ok true =>
      match Walk sourceDir t with
      | Err e => (Err e, t)
      | Ok visited => for_each visited (copyVisited sourceDir targetDir) t
      end
  end.

Definition stageNextRuntimeAssets (root serverRoot : string) : M Tree unit :=
  copyDirIfExists (comps (JoinPath root ".next/static")) (comps (JoinPath serverRoot ".next/static")) ≫= λ _,
  copyDirIfExists (comps (JoinPath root "public")) (comps (JoinPath serverRoot "public")).

Definition maybePrepareNextSite (root : string) : BM (option preparedNextSite) :=
  let serverRoot := JoinPath root ".next/standalone" in
  stat ← try (reads (Stat (comps (JoinPath serverRoot "server.js"))));
  match stat with
  | Err e =>
      if errors_Is e OsErrNotExist then mret None
      else fail (wrapText "stat next standalone server: " e "")
  | Ok _ =>
      staticAssets ← wrapping "collect next static assets: " (reads (collectNextStaticAssets root));
      wrapping "stage next runtime assets: " (onTree (stageNextRuntimeAssets root serverRoot)) ≫= λ _,
      wrapping "write next site handler: "
        (onTree (WriteFile (comps (JoinPath serverRoot nextSiteHandlerEntrypoint)) nextSiteHandlerScript)) ≫= λ _,
      record ("detected next.js standalone build output at " +:+ serverRoot) ≫= λ _,
      record "staged next.js runtime assets into standalone bundle root" ≫= λ _,
      record ("collected " +:+ itoa (Z.of_nat (length staticAssets)) +:+
              " next.js static assets for site serving") ≫= λ _,
      mret (Some (mkPreparedNextSite serverRoot nextSiteHandlerEntrypoint staticAssets))
  end.
