(* ===== verification/Workspace.v ===== *)
(** * Workspace: preparing a git source

    Models the preparation of a git source in [internal/build/service.go]: the
    clone, the build root, the node dependencies and the build with the package
    manager the repository uses, the configuration of a Next.js build, and the
    check of the entrypoint. *)

From Stdlib Require Import Ascii.
From stdpp Require Import base decidable tactics numbers list gmap strings.
From S2P Require Import Prelude Domain Artifacts Files Archive BuildTools NextSite.

(** ** Metadata *)

Section Metadata.
Context `{!BuildTools}.

Definition deploymentEnvironment (source : DeploySource) : string :=
  let fromMetadata := TrimSpace (map_getS (src_Metadata source) "environment") in
  if negb (bool_decide (fromMetadata = "")) then fromMetadata
  else TrimSpace (map_getS (src_Labels source) "environment").

Definition buildMetadataForRequest (req : DeployRequest) : gmap string string :=
  let source := dr_Source req in
  let put k v m := if bool_decide (v = "") then m else <[k := v]> m in
  let gitURL := TrimSpace (src_GitURL source) in
  put "environment" (deploymentEnvironment source)
    (put "branch" (TrimSpace (src_GitRef source))
      (if bool_decide (gitURL = "") then ∅ else {["gitUrl" := sanitizeGitURL gitURL]})).

Definition mergeBuildMetadata (base extra : gmap string string) : gmap string string :=
  filter (λ kv, blank kv.2 = false) extra ∪ base.

(** [captureGitMetadata]: one question to git, and its answer when it counts. *)
Definition askGit (seed : nat) (repoRoot key what : string) (args : list string) (ignored : string)
    (metadata : gmap string string) : BM (gmap string string) :=
  answer ← try (runCommandOutput seed repoRoot "git" args);
  match answer with
  | Err e => record ("warning: unable to resolve git " +:+ what +:+ ": " +:+ Error e) ≫= λ _, mret metadata
  | Ok text =>
      mret (if bool_decide (text = "") || bool_decide (text = ignored) then metadata else <[key := text]> metadata)
  end.

Definition captureGitMetadata (seed : nat) (repoRoot : string) : BM (gmap string string) :=
  metadata ← askGit seed repoRoot "commitSha" "commit sha" ["rev-parse"; "HEAD"] "" ∅;
  askGit seed repoRoot "branch" "branch" ["rev-parse"; "--abbrev-ref"; "HEAD"] "HEAD" metadata.

End Metadata.

(** ** The build root *)

Section Root.
Context `{!BuildTools}.

Definition resolveSubPath (repoRoot subPath : string) : result string :=
  if blank subPath then Ok repoRoot
  else
    repoAbs ← Abs repoRoot;
    candidate ← Abs (JoinPath repoRoot subPath);
    if negb (bool_decide (candidate = repoAbs)) && negb (HasPrefix candidate (repoAbs +:+ "/")) then
      Err (plainErr ("subPath " +:+ quote subPath +:+ " escapes repository root"))
    else Ok candidate.

Definition resolveBuildRoot (repoRoot subPath : string) (t : Tree) : result string :=
  root ← resolveSubPath repoRoot subPath;
  match Stat (comps root) t with
  | Err e => Err (wrapText "resolve build root: " e "")
  | Ok false => Err (plainErr ("build root " +:+ quote root +:+ " is not a directory"))
  | Ok true => Ok root
  end.

End Root.

(** ** Package managers *)

Inductive nodePackageManager := nodePackageManagerNPM | nodePackageManagerYarn | nodePackageManagerPNPM.

#[export] Instance nodePackageManager_eq_dec : EqDecision nodePackageManager.
Proof. solve_decision. Defined.

Definition managerText (m : nodePackageManager) : string :=
  match m with
  | nodePackageManagerNPM => "npm"
  | nodePackageManagerYarn => "yarn"
  | nodePackageManagerPNPM => "pnpm"
  end.

Definition hasLockfile (root name : string) (t : Tree) : bool := is_ok (Stat (comps (JoinPath root name)) t).

Definition hasNpmLockfile (root : string) (t : Tree) : bool :=
  existsb (λ name, hasLockfile root name t) ["package-lock.json"; "npm-shrinkwrap.json"].

Definition detectPackageManager (root packageManager : string) (t : Tree) : result nodePackageManager :=
  let trimmed := TrimSpace packageManager in
  let named name := HasPrefix trimmed (name +:+ "@") || bool_decide (trimmed = name) in
  if named "npm" then Ok nodePackageManagerNPM
  else if named "yarn" then Ok nodePackageManagerYarn
  else if named "pnpm" then Ok nodePackageManagerPNPM
  else if named "bun" then Err (plainErr ("unsupported package manager " +:+ quote packageManager))
  else if hasNpmLockfile root t then Ok nodePackageManagerNPM
  else if hasLockfile root "yarn.lock" t then Ok nodePackageManagerYarn
  else if hasLockfile root "pnpm-lock.yaml" t then Ok nodePackageManagerPNPM
  else if hasLockfile root "bun.lock" t || hasLockfile root "bun.lockb" t then
    Err (plainErr "unsupported lockfile detected: bun is not currently supported")
  else Ok nodePackageManagerNPM.

(** The text before the first of [".+-"]. *)
Fixpoint majorOf (version : string) : string :=
  match version with
  | EmptyString => EmptyString
  | String a rest =>
      if byte_eqb a 46 || byte_eqb a 43 || byte_eqb a 45 then EmptyString else String a (majorOf rest)
  end.

Definition usesModernYarn (root packageManager : string) (t : Tree) : bool :=
  if hasLockfile root ".yarnrc.yml" t then true
  else
    let trimmed := TrimSpace packageManager in
    if negb (HasPrefix trimmed "yarn@") then false
    else
      let major := majorOf (TrimPrefix trimmed "yarn@") in
      negb (bool_decide (major = "")) && negb (bool_decide (major = "0")) && negb (bool_decide (major = "1")).

Section Managers.
Context `{!BuildTools}.

Definition nodeToolAvailable (name : string) : bool := negb (blank name) && exec_LookPath name.

Definition resolveNodeToolCommand (tool : string) (args : list string) : string * list string :=
  if nodeToolAvailable tool then (tool, args)
  else if nodeToolAvailable "corepack" then ("corepack", tool :: args)
  else if nodeToolAvailable "npm" then
    ("npm", ["exec"; "--yes"; tool] ++ (if bool_decide (args = []) then [] else "--" :: args))
  else (tool, args).

Definition nodeInstallCommand (root : string) (manager : nodePackageManager) (packageManager : string)
    (hasBuildScript : bool) (t : Tree) : string * list string :=
  match manager with
  | nodePackageManagerYarn =>
      resolveNodeToolCommand "yarn"
        ["yarn"; "install"; if usesModernYarn root packageManager t then "--immutable" else "--frozen-lockfile"]
  | nodePackageManagerPNPM => resolveNodeToolCommand "pnpm" ["install"; "--frozen-lockfile"]
  | nodePackageManagerNPM =>
      ("npm", (if hasNpmLockfile root t then "ci" else "install") ::
              if hasBuildScript then [] else ["--omit=dev"])
  end.

Definition nodeBuildCommand (manager : nodePackageManager) : string * list string :=
  match manager with
  | nodePackageManagerYarn => resolveNodeToolCommand "yarn" ["build"]
  | nodePackageManagerPNPM => resolveNodeToolCommand "pnpm" ["build"]
  | nodePackageManagerNPM => ("npm", ["run"; "build"; "--if-present"])
  end.

Definition nodePruneCommand (root : string) (manager : nodePackageManager) (packageManager : string)
    (t : Tree) : option (string * list string) :=
  match manager with
  | nodePackageManagerPNPM => Some (resolveNodeToolCommand "pnpm" ["prune"; "--prod"])
  | nodePackageManagerYarn =>
      if usesModernYarn root packageManager t then None
      else Some (resolveNodeToolCommand "yarn"
                   ["install"; "--frozen-lockfile"; "--production=true"; "--ignore-scripts"])
  | nodePackageManagerNPM => Some ("npm", ["prune"; "--omit=dev"])
  end.

End Managers.

(** ** Next.js configuration *)

(** [filepath.Ext] of a name without slashes. *)
Definition Ext (name : string) : string :=
  match reverse (Split name (ascii_of_N 46)) with
  | last :: _ :: _ => "." +:+ last
  | _ => ""
  end.

Definition nextStandaloneConfigWrapper (configName backupName : string) : string :=
  if bool_decide (Ext configName = ".mjs") then "import originalConfig from './" +:+ backupName +:+ "';

const withStandalone = (config) => ({ ...(config ?? {}), output: 'standalone' });

export default async function lecrevNextConfig(...args) {
  const resolved = typeof originalConfig === 'function' ? await originalConfig(...args) : await originalConfig;
  return withStandalone(resolved);
}
"
  else if bool_decide (Ext configName = ".ts") then "import originalConfig from './" +:+ backupName +:+ "';

const withStandalone = (config: Record<string, unknown> | undefined | null) => ({ ...(config ?? {}), output: 'standalone' });

export default async function lecrevNextConfig(...args: any[]) {
  const resolved = typeof originalConfig === 'function' ? await originalConfig(...args) : await originalConfig;
  return withStandalone((resolved ?? undefined) as Record<string, unknown> | undefined);
}
"
  else "const originalModule = require('./" +:+ backupName +:+ "');
const originalConfig = originalModule && typeof originalModule === 'object' && 'default' in originalModule
  ? originalModule.default
  : originalModule;

const withStandalone = (config) => ({ ...(config ?? {}), output: 'standalone' });

module.exports = async (...args) => {
  const resolved = typeof originalConfig === 'function' ? await originalConfig(...args) : await originalConfig;
  return withStandalone(resolved);
};
".

Definition nextConfigNames : list string :=
  ["next.config.ts"; "next.config.mjs"; "next.config.js"; "next.config.cjs"].

(** The first "next.config." of a name is its start. *)
Definition backupNameOf (name : string) : string :=
  "next.config.lecrev.orig." +:+ TrimPrefix name "next.config.".

(** Whether a node is there, links followed. *)
Definition nodeExists (p : Path) (t : Tree) : result bool :=
  match Stat p t with
  | Ok _ => Ok true
  | Err e => if errors_Is e OsErrNotExist then Ok false else Err e
  end.

(** A configuration that is there. *)
Definition wrapConfig (root name : string) : BM unit :=
  let configPath := comps (JoinPath root name) in
  let backupName := backupNameOf name in
  let backupPath := comps (JoinPath root backupName) in
  backedUp ← reads (nodeExists backupPath);
  (if backedUp : bool then mret tt
   else wrapping ("backup " +:+ name +:+ ": ") (onTree (Rename configPath backupPath))) ≫= λ _,
  wrapping ("write " +:+ name +:+ ": ")
    (onTree (WriteFile configPath (nextStandaloneConfigWrapper name backupName))) ≫= λ _,
  record ("wrapped " +:+ name +:+ " to force next.js standalone output").

Definition generatedConfig : string := "export default { output: 'standalone' };
".

Fixpoint ensureConfig (root : string) (candidates : list string) : BM unit :=
  match candidates with
  | name :: rest =>
      found ← reads (nodeExists (comps (JoinPath root name)));
      if found : bool then wrapConfig root name else ensureConfig root rest
  | [] =>
      wrapping "write next.config.mjs: "
        (onTree (WriteFile (comps (JoinPath root "next.config.mjs")) generatedConfig)) ≫= λ _,
      record "generated next.config.mjs to force next.js standalone output"
  end.

Definition ensureNextStandaloneConfig (root : string) : BM unit := ensureConfig root nextConfigNames.

(** ** Preparation *)

Section Preparation.
Context `{!BuildTools, !MapOrder} (seed : nat).

Definition envVarList (envVars : gmap string string) : list string :=
  (λ kv, kv.1 +:+ "=" +:+ kv.2) <$> map_iter 1448 envVars.

(** From the decoded manifest on. *)
Definition prepareNode (root : string) (envVars : gmap string string) (pkg : packageManifest) : BM unit :=
  manager ← reads (detectPackageManager root (pm_PackageManager pkg));
  let hasBuildScript := negb (blank (map_getS (pm_Scripts pkg) "build")) in
  let buildEnv := envVarList envVars ++
    (if bool_decide (manager = nodePackageManagerNPM) then [] else ["COREPACK_ENABLE_DOWNLOAD_PROMPT=0"]) in
  '(installName, installArgs) ←
    gets (λ w, nodeInstallCommand root manager (pm_PackageManager pkg) hasBuildScript (ws_tree w));
  wrapping ("install " +:+ managerText manager +:+ " dependencies: ")
    (runCommandWithTimeoutAndEnv seed root buildEnv installName installArgs) ≫= λ _,
  if negb hasBuildScript then record "no build script detected; skipping package build"
  else
    buildEnv ← (if isNextWorkspace pkg then
                  wrapping "prepare next.js standalone config: " (ensureNextStandaloneConfig root) ≫= λ _,
                  record "detected next.js workspace; enabling standalone build output" ≫= λ _,
                  mret (buildEnv ++ ["NEXT_PRIVATE_STANDALONE=true"])
                else mret buildEnv);
    let '(buildName, buildArgs) := nodeBuildCommand manager in
    wrapping ("run " +:+ managerText manager +:+ " build: ")
      (runCommandWithTimeoutAndEnv seed root buildEnv buildName buildArgs) ≫= λ _,
    prune ← gets (λ w, nodePruneCommand root manager (pm_PackageManager pkg) (ws_tree w));
    match prune with
    | Some (pruneName, pruneArgs) =>
        wrapping ("prune " +:+ managerText manager +:+ " devDependencies: ")
          (runCommandWithTimeoutAndEnv seed root buildEnv pruneName pruneArgs)
    | None => mret tt
    end.

Definition prepareNodeWorkspace (root : string) (envVars : gmap string string) : BM unit :=
  rawPkg ← try (reads (ReadFile (comps (JoinPath root "package.json"))));
  match rawPkg with
  | Err e =>
      if errors_Is e OsErrNotExist then record "package.json not present; skipping dependency install/build"
      else fail (wrapText "read package.json: " e "")
  | Ok rawPkg =>
      match json_UnmarshalPackage rawPkg with
      | Err e => fail (wrapText "decode package.json: " e "")
      | Ok pkg => prepareNode root envVars pkg
      end
  end.

Definition verifyEntrypoint (root entrypoint : string) (t : Tree) : result unit :=
  if blank entrypoint then Err (plainErr "entrypoint is required")
  else match Stat (comps (JoinPath root entrypoint)) t with
       | Err e => Err (wrapText ("verify entrypoint " +:+ quote entrypoint +:+ ": ") e "")
       | Ok true => Err (plainErr ("entrypoint " +:+ quote entrypoint +:+ " resolved to a directory"))
       | Ok false => Ok tt
       end.

(** What a prepared source leaves: the file system, the build root in it, the
    metadata of the commit and the website, if it is one. *)
Record gitWorkspace := mkGitWorkspace {
  gw_tree : Tree;
  gw_root : string;
  gw_metadata : gmap string string;
  gw_site : option preparedNextSite;
}.

Definition cloneArgs (req : DeployRequest) (tmpDir : string) : list string :=
  let source := dr_Source req in
  ["clone"; "--depth"; "1"] ++
  (if bool_decide (src_GitRef source = "") then [] else ["--branch"; src_GitRef source]) ++
  [src_GitURL source; tmpDir].

(** The steps in the temporary directory. *)
Definition prepareClone (req : DeployRequest) (tmpDir : string) : BM gitWorkspace :=
  wrapping "git clone failed: " (runGitCloneWithTimeout seed (cloneArgs req tmpDir)) ≫= λ _,
  captured ← captureGitMetadata seed tmpDir;
  let metadata := mergeBuildMetadata (buildMetadataForRequest req) captured in
  root ← reads (resolveBuildRoot tmpDir (src_SubPath (dr_Source req)));
  record ("resolved build root to " +:+ root) ≫= λ _,
  prepareNodeWorkspace root (dr_EnvVars req) ≫= λ _,
  site ← maybePrepareNextSite root;
  (match site with
   | Some _ => mret tt
   | None => reads (verifyEntrypoint root (dr_Entrypoint req))
   end) ≫= λ _,
  t ← gets ws_tree;
  mret (mkGitWorkspace t root metadata site).

(** The recorded lines and the outcome. *)
Definition prepareGitWorkspace (req : DeployRequest) : list string * result gitWorkspace :=
  if blank (src_GitURL (dr_Source req)) then ([], Err (plainErr "gitUrl is required for git source"))
  else match os_MkdirTemp seed with
       | Err e => ([], Err e)
       | Ok (tmpDir, t) =>
           let '(r, w) := prepareClone req tmpDir (mkWorkspace t [] 0) in (ws_lines w, r)
       end.

End Preparation.

(** Tools for concrete runs: commands do nothing. *)
Definition demo_tools : BuildTools := {|
  exec_Run _ _ _ t := ("", None, t);
  exec_LookPath _ := true;
  os_MkdirTemp _ := Ok ("/tmp/b1", demo_tree);
  os_Getwd := Ok "/";
  json_UnmarshalPackage _ := Ok (mkPackageManifest "" ∅ ∅ ∅);
  url_StripUser s := Some s;
|}.
