(* ===== verification/WorkspaceFacts.v ===== *)
(** * WorkspaceFacts: what a prepared git source delivers

    Theorems on [Workspace] and on the packing of a directory: a bundle holds
    exactly the files of a directory without links, a link carries files of the
    host into it, and the build root lies in the clone. *)

From Stdlib Require Import Ascii.
From stdpp Require Import base decidable tactics numbers list gmap strings.
From S2P Require Import Prelude Domain Artifacts Files Archive BundleFacts BuildTools Workspace.

(** ** Well-formed trees *)

Definition isNode (t : Tree) (p : Path) : Prop :=
  is_Some (tr_files t !! p) ∨ p ∈ tr_dirs t ∨ is_Some (tr_links t !! p).

#[export] Instance isNode_dec t p : Decision (isNode t p).
Proof. unfold isNode. apply _. Defined.

(** Names are plain, a node lies in a directory and is of one kind. *)
Record wf_tree (t : Tree) : Prop := {
  wf_plain p : isNode t p → Forall plain p ∧ p ≠ [];
  wf_parent p q : isNode t p → q ∈ ancestors p → q ≠ p → q ∈ tr_dirs t;
  wf_dir p : p ∈ tr_dirs t → tr_files t !! p = None ∧ tr_links t !! p = None;
  wf_file p : is_Some (tr_files t !! p) → tr_links t !! p = None;
}.

(** A directory reached without links. *)
Definition realDir (t : Tree) (d : Path) : Prop :=
  Forall plain d ∧ unlinked t d ∧ ∀ q, q ∈ ancestors d → q ∈ tr_dirs t.

Lemma find_realDir t follow d : realDir t d → find_node t follow d = Found d.
Proof.
  intros (Hp & Hl & Hd). destruct (decide (d = [])) as [->|Hne]; [done|].
  rewrite find_dirs; [|done..|intros q Hq _; by apply Hd|done].
  rewrite bool_decide_eq_true_2; [done|]. apply Hd. by apply elem_of_ancestors.
Qed.

Lemma isDir_realDir t d : realDir t d → isDir t d = true.
Proof.
  intros (_ & _ & Hd). unfold isDir. destruct (decide (d = [])) as [->|Hne]; [done|].
  rewrite (bool_decide_eq_true_2 (d ∈ _)); [by rewrite orb_true_r|]. apply Hd. by apply elem_of_ancestors.
Qed.

Lemma link_realDir t d : wf_tree t → realDir t d → tr_links t !! d = None.
Proof.
  intros Hw (_ & Hl & _). destruct (decide (d = [])) as [->|Hne].
  - destruct (tr_links t !! []) as [s|] eqn:E; [|done].
    destruct (wf_plain t Hw []) as [_ ?]; [right; right; by exists s|done].
  - apply Hl. by apply elem_of_ancestors.
Qed.

(** Nodes below a directory. *)
Lemma elem_of_nodes t p b :
  (p, b) ∈ nodes t ↔
  (b = false ∧ (is_Some (tr_files t !! p) ∨ is_Some (tr_links t !! p))) ∨ (b = true ∧ p ∈ tr_dirs t).
Proof.
  unfold nodes. rewrite !elem_of_app, !list_elem_of_fmap. split.
  - intros [([q s] & [= -> ->] & H)|[(q & [= -> ->] & H)|([q s] & [= -> ->] & H)]].
    + apply elem_of_map_to_list in H. left. eauto.
    + right. by rewrite elem_of_elements in H.
    + apply elem_of_map_to_list in H. left. eauto.
  - intros [[-> [[s H]|[s H]]]|[-> H]].
    + left. exists (p, s). by rewrite elem_of_map_to_list.
    + right. right. exists (p, s). by rewrite elem_of_map_to_list.
    + right. left. exists p. by rewrite elem_of_elements.
Qed.

#[export] Instance plain_dec c : Decision (plain c).
Proof. unfold plain. apply _. Defined.

(** Well-formedness, checked node by node. *)
Definition tree_check (t : Tree) : Prop :=
  Forall (λ n : Path * bool, Forall plain n.1 ∧ n.1 ≠ [] ∧
    Forall (λ q, q = n.1 ∨ q ∈ tr_dirs t) (ancestors n.1)) (nodes t) ∧
  Forall (λ p, tr_files t !! p = None ∧ tr_links t !! p = None) (elements (tr_dirs t)) ∧
  Forall (λ e, tr_links t !! e.1 = None) (map_to_list (tr_files t)).

#[export] Instance tree_check_dec t : Decision (tree_check t).
Proof. unfold tree_check. apply _. Defined.

Lemma wf_tree_check t : tree_check t → wf_tree t.
Proof.
  unfold tree_check. rewrite !Forall_forall. intros (Hn & Hd & Hf).
  assert (∀ p, isNode t p → ∃ b, (p, b) ∈ nodes t) as He.
  { intros p [H|[H|H]]; [exists false|exists true|exists false]; apply elem_of_nodes; eauto. }
  split.
  - intros p [b (H1 & H2 & _)%Hn]%He. done.
  - intros p q [b (_ & _ & H)%Hn]%He Hq Hne. rewrite Forall_forall in H. by destruct (H q Hq).
  - intros p Hp. apply Hd. by apply elem_of_elements.
  - intros p [c Hc]. apply (Hf (p, c)). by apply elem_of_map_to_list.
Qed.

Lemma unlinked_check t p : Forall (λ q, tr_links t !! q = None) (ancestors p) → unlinked t p.
Proof. rewrite Forall_forall. intros H q Hq. by apply H. Qed.

Lemma elem_of_nodesBelow t d rel b : (rel, b) ∈ nodesBelow d t ↔ rel ≠ [] ∧ (d ++ rel, b) ∈ nodes t.
Proof.
  unfold nodesBelow. rewrite elem_of_SliceStable, list_elem_of_omap. split.
  - intros ([p b'] & Hp & E). simpl in E. destruct (_ && _) eqn:Eg; [|done]. injection E as <- <-.
    apply andb_true_iff in Eg as [E1 E2]. apply bool_decide_eq_true in E1.
    apply negb_true_iff, bool_decide_eq_false in E2. split; [done|].
    rewrite <- (take_drop (length d) p) in Hp. by rewrite E1 in Hp.
  - intros [Hne Hn]. exists (d ++ rel, b). split; [done|]. simpl.
    rewrite take_app_length, drop_app_length, bool_decide_eq_true_2 by done. simpl.
    by rewrite bool_decide_eq_false_2.
Qed.

Lemma Walk_realDir t d : wf_tree t → realDir t d → Walk d t = Ok (([], true) :: nodesBelow d t).
Proof.
  intros Hw Hd. unfold Walk. rewrite find_realDir, isDir_realDir by done. simpl.
  by rewrite bool_decide_eq_true_2 by by apply link_realDir.
Qed.

(** Reading a file that is reached without links. *)
Lemma ReadFile_real t p c :
  wf_tree t → unlinked t p → tr_files t !! p = Some c → ReadFile p t = Ok c.
Proof.
  intros Hw Hl Hc. assert (isNode t p) as Hn by (left; by exists c).
  destruct (wf_plain t Hw p Hn) as [Hp Hne]. unfold ReadFile.
  rewrite find_dirs; [|done..|intros q Hq Hqp; by eapply wf_parent|done].
  rewrite (bool_decide_eq_true_2 (is_Some _)) by (by exists c). rewrite orb_true_r.
  unfold isDir. rewrite (bool_decide_eq_false_2 (p = [])) by done. simpl.
  rewrite bool_decide_eq_false_2; [by rewrite Hc|]. intros [Hf _]%(wf_dir t Hw). congruence.
Qed.

(** ** Packing a directory *)

(** The name of a visited node in the bundle. *)
Definition nameOf (rel : Path) : string := if bool_decide (rel = []) then "." else Join rel "/".

Lemma nameOf_inj p q : Forall plain p → Forall plain q → nameOf p = nameOf q → p ≠ [] → q ≠ [] → p = q.
Proof.
  intros Hp Hq E Np Nq. unfold nameOf in E. rewrite !bool_decide_eq_false_2 in E by done.
  rewrite <- (Split_Join p), <- (Split_Join q), E; [done|by apply plain_no_byte|done|by apply plain_no_byte|done].
Qed.

Section Pack.
Context (root : Path) (t : Tree).

(** The nodes that are packed. *)
Definition packedNode (visited : list (Path * bool)) (rel : Path) : Prop :=
  (rel, false) ∈ visited ∧ ".git" ∉ parent rel.

Lemma dirFiles_ok files visited :
  (∀ rel, packedNode visited rel → is_ok (ReadFile (root ++ rel) t) = true) →
  ∃ files', dirFiles root t files visited = Ok files'.
Proof.
  revert files. induction visited as [|[rel b] visited IH]; intros files Hr; [by eexists|]. simpl.
  assert (∀ rel, packedNode visited rel → is_ok (ReadFile (root ++ rel) t) = true) as Hrest.
  { intros r [H1 H2]. apply Hr. split; [by right|done]. }
  destruct b; simpl; [by apply IH|]. case_bool_decide as Hg; [by apply IH|].
  specialize (Hr rel (conj (list_elem_of_here _ _) Hg)).
  destruct (ReadFile (root ++ rel) t) as [c|]; [|done]. by apply IH.
Qed.

(** Nothing else gets in. *)
Lemma dirFiles_sound files visited files' name c :
  dirFiles root t files visited = Ok files' → files' !! name = Some c →
  files !! name = Some c ∨ ∃ rel, packedNode visited rel ∧ name = nameOf rel ∧ ReadFile (root ++ rel) t = Ok c.
Proof.
  revert files. induction visited as [|[rel b] visited IH]; intros files; simpl; [intros [= <-]; by left|].
  assert ((∃ r, packedNode visited r ∧ name = nameOf r ∧ ReadFile (root ++ r) t = Ok c) →
    ∃ r, packedNode ((rel, b) :: visited) r ∧ name = nameOf r ∧ ReadFile (root ++ r) t = Ok c) as Hmore.
  { intros (r & [H1 H2] & H3). exists r. split; [|done]. split; [by right|done]. }
  destruct b; simpl; [intros H1 H2; destruct (IH _ H1 H2); eauto|].
  case_bool_decide as Hg; [intros H1 H2; destruct (IH _ H1 H2); eauto|].
  destruct (ReadFile (root ++ rel) t) as [d|] eqn:Er; [|done]. simpl. fold (nameOf rel).
  intros H1 H2. destruct (IH _ H1 H2) as [H|H]; [|eauto]. rewrite lookup_insert_Some in H.
  destruct H as [[<- <-]|[_ H]]; [|by left]. right. exists rel. split_and!; [|done|done].
  split; [left|done].
Qed.

(** All of them do. *)
Lemma dirFiles_complete files visited files' rel c :
  (∀ r b, (r, b) ∈ visited → Forall plain r) → rel ≠ [] → Forall plain rel →
  dirFiles root t files visited = Ok files' → ReadFile (root ++ rel) t = Ok c →
  packedNode visited rel ∨ files !! nameOf rel = Some c → files' !! nameOf rel = Some c.
Proof.
  intros Hv Hne Hp H1 Hc. revert files H1. induction visited as [|[r b] visited IH]; intros files; simpl.
  { intros [= ->] [[H%elem_of_nil _]|H]; done. }
  assert (∀ r b, (r, b) ∈ visited → Forall plain r) as Hv' by (intros ?? H; eapply Hv; by right).
  assert (Forall plain r) as Hr by (eapply Hv; left). specialize (IH Hv').
  destruct (b || bool_decide (".git" ∈ parent r)) eqn:Eg.
  { intros H1 [[[H|H]%elem_of_cons Hg]|H]; [|by apply (IH _ H1); left|by apply (IH _ H1); right].
    injection H as -> <-. simpl in Eg. by apply bool_decide_eq_true in Eg. }
  destruct (ReadFile (root ++ r) t) as [d|] eqn:Er; [|done]. simpl. fold (nameOf r). intros H1 H2.
  apply (IH _ H1). destruct (decide (nameOf r = nameOf rel)) as [E|E].
  - right. destruct (decide (r = [])) as [->|Hr0].
    + (* "." is not the name of plain components *)
      exfalso. unfold nameOf in E. rewrite bool_decide_eq_true_2, bool_decide_eq_false_2 in E by done.
      pose proof (Split_Join rel (plain_no_byte _ Hp) Hne) as Hs. rewrite <- E in Hs. simpl in Hs. subst rel.
      apply Forall_singleton in Hp as (_ & Hd & _). done.
    + assert (r = rel) as -> by by apply nameOf_inj. rewrite lookup_insert_eq. congruence.
  - destruct H2 as [[[H|H]%elem_of_cons Hg]|H].
    + injection H as -> _. done.
    + by left.
    + right. by rewrite lookup_insert_ne.
Qed.

End Pack.

(** What a bundle of a directory is made of: the visited nodes, read through
    links. *)
Lemma BundleFromDirectory_visited `{!Archives, !MapOrder} root extra t visited :
  Walk (comps root) t = Ok visited → last (comps root) ≠ Some ".git" →
  BundleFromDirectory root extra t =
    (files ← dirFiles (comps root) t ∅ visited; BundleFromFiles (extra ∪ files)).
Proof.
  intros Hw Hg. unfold BundleFromDirectory. rewrite Hw. simpl. by rewrite (bool_decide_eq_false_2 (last _ = _)).
Qed.

(** ** Directories without links *)

Section Linkless.
Context (d : Path) (t : Tree) (Hwf : wf_tree t).
Context (Hplain : Forall plain d) (Hdirs : ∀ q, q ∈ ancestors d → q ∈ tr_dirs t) (Hlinks : linkless d t).

Lemma linkless_realDir : realDir t d.
Proof. split; [done|]. split; [|done]. intros q Hq. apply Hlinks. by left. Qed.

Lemma linkless_unlinked rel : unlinked t (d ++ rel).
Proof. intros q Hq. by apply Hlinks, (ancestor_cases d rel). Qed.

Lemma ReadFile_linkless rel c : tr_files t !! (d ++ rel) = Some c → ReadFile (d ++ rel) t = Ok c.
Proof. apply ReadFile_real; [done|apply linkless_unlinked]. Qed.

(** What a walk visits. *)
Definition visitedIn : list (Path * bool) := ([], true) :: nodesBelow d t.

Lemma Walk_linkless : Walk d t = Ok visitedIn.
Proof. apply Walk_realDir; [done|apply linkless_realDir]. Qed.

Lemma visited_file rel : (rel, false) ∈ visitedIn ↔ rel ≠ [] ∧ is_Some (tr_files t !! (d ++ rel)).
Proof.
  unfold visitedIn. rewrite elem_of_cons, elem_of_nodesBelow, elem_of_nodes. split.
  - intros [?|[Hne [[_ [?|[s Hs]]]|[? _]]]]; try done.
    rewrite (Hlinks (d ++ rel)) in Hs; [done|]. right. by exists rel.
  - intros [Hne Hf]. right. split; [done|]. left. by split; [|left].
Qed.

Lemma visited_plain rel b : (rel, b) ∈ visitedIn → Forall plain rel.
Proof.
  intros [H|H]%elem_of_cons; [by injection H as -> _|].
  apply elem_of_nodesBelow in H as [_ H]. apply elem_of_nodes in H.
  assert (isNode t (d ++ rel)) as Hn by (unfold isNode; destruct H as [[_ []]|[_ ?]]; eauto).
  apply (wf_plain t Hwf) in Hn as [Hn _]. by apply Forall_app in Hn as [_ ?].
Qed.

Lemma packed_linkless rel :
  packedNode visitedIn rel ↔ rel ≠ [] ∧ is_Some (tr_files t !! (d ++ rel)) ∧ ".git" ∉ parent rel.
Proof. unfold packedNode. rewrite visited_file. naive_solver. Qed.

(** The packed files. *)
Lemma dirFiles_linkless : ∃ files, dirFiles d t ∅ visitedIn = Ok files ∧
  ∀ name c, files !! name = Some c ↔
    ∃ rel, packedNode visitedIn rel ∧ name = nameOf rel ∧ tr_files t !! (d ++ rel) = Some c.
Proof.
  destruct (dirFiles_ok d t ∅ visitedIn) as [files Ef].
  { intros rel (_ & [c Hc] & _)%packed_linkless. by rewrite (ReadFile_linkless _ c). }
  exists files. split; [done|]. intros name c. split.
  - intros Hc. destruct (dirFiles_sound d t ∅ visitedIn files name c Ef Hc) as [H|(rel & H1 & H2 & H3)];
      [by rewrite lookup_empty in H|].
    exists rel. split_and!; [done..|]. apply packed_linkless in H1 as (_ & [c' Hc'] & _).
    rewrite (ReadFile_linkless _ c') in H3 by done. congruence.
  - intros (rel & Hp & -> & Hc). pose proof Hp as (Hne & _ & Hg)%packed_linkless.
    eapply (dirFiles_complete d t ∅ visitedIn); [apply visited_plain|done| |exact Ef|by apply ReadFile_linkless|by left].
    destruct Hp as [Hp _]. by eapply visited_plain.
Qed.

End Linkless.

(** C28: the bundle of a workspace holds the files of that workspace.  In a
    well-formed file system, take a directory, not called ".git", with no link
    on the way to it or in it.  [BundleFromDirectory] packs the files below it,
    each under its path relative to it and with its contents, except those in a
    directory called ".git"; to these it adds the extra files, which take
    precedence, and nothing else.  Files outside the directory do not matter. *)
Theorem bundle_contents (A : Archives) (o : MapOrder) (root : string) (extra : gmap string string) (t : Tree) :
  wf_tree t → (∀ q, q ∈ ancestors (comps root) → q ∈ tr_dirs t) → linkless (comps root) t →
  last (comps root) ≠ Some ".git" →
  ∃ files : gmap string string,
    BundleFromDirectory root extra t = BundleFromFiles (extra ∪ files) ∧
    (∀ rel, rel ≠ [] → Forall plain rel →
       files !! Join rel "/" = if bool_decide (".git" ∈ parent rel) then None else tr_files t !! (comps root ++ rel)) ∧
    ∀ name, is_Some (files !! name) → ∃ rel, rel ≠ [] ∧ Forall plain rel ∧ name = Join rel "/".
Proof.
  intros Hw Hd Hl Hg. pose proof (comps_plain root) as Hp. set (d := comps root) in *.
  destruct (dirFiles_linkless d t Hw Hl) as (files & Ef & Hf). exists files.
  assert (∀ rel, rel ≠ [] → Join rel "/" = nameOf rel) as Hname.
  { intros rel Hne. unfold nameOf. by rewrite bool_decide_eq_false_2. }
  split_and!.
  - rewrite (BundleFromDirectory_visited root extra t (visitedIn d t)); [|by apply Walk_linkless|done].
    fold d. by rewrite Ef.
  - intros rel Hne Hrel. rewrite Hname by done. apply option_eq. intros c. rewrite Hf. split.
    + intros (rel' & Hpk & E & Hc). pose proof Hpk as (Hne' & _ & Hgit)%packed_linkless; [|done..].
      assert (rel = rel') as <- by (apply nameOf_inj; try done; eapply visited_plain; [done|apply Hpk]).
      by rewrite bool_decide_eq_false_2.
    + case_bool_decide as Hgit; [done|]. intros Hc. exists rel. split_and!; [|done|done].
      apply packed_linkless; [done..|]. split_and!; [done|by exists c|done].
  - intros name [c (rel & Hpk & -> & _)%Hf]. pose proof Hpk as (Hne & _)%packed_linkless; [|done..].
    exists rel. rewrite Hname by done. split_and!; [done| |done]. eapply visited_plain; [done|apply Hpk].
Qed.

(** A clone with a file of the host linked into it. *)
Definition demo_clone : Tree :=
  mkTree {[["etc"; "passwd"] := "root"; ["tmp"; "b1"; "index.mjs"] := "x"; ["tmp"; "b1"; ".git"; "HEAD"] := "ref"]}
    {[["tmp"]; ["tmp"; "b1"]; ["tmp"; "b1"; ".git"]; ["etc"]]} ∅.

Definition demo_linked : Tree := demo_clone <| tr_links := {[["tmp"; "b1"; "notes.txt"] := "/etc/passwd"]} |>.

Lemma bundle_contents_witness :
  ∃ files : gmap string string,
    @BundleFromDirectory field_archives list_order "/tmp/b1" ∅ demo_clone =
      @BundleFromFiles field_archives list_order (∅ ∪ files) ∧
    files !! "index.mjs" = Some "x" ∧ files !! ".git/HEAD" = None.
Proof.
  destruct (bundle_contents field_archives list_order "/tmp/b1" ∅ demo_clone) as (files & E & Hf & _).
  - apply wf_tree_check, (bool_decide_eq_true_1 _). vm_compute. reflexivity.
  - apply Forall_forall, (bool_decide_eq_true_1 _). vm_compute. reflexivity.
  - intros q _. apply lookup_empty.
  - discriminate.
  - exists files. split; [exact E|].
    assert (Forall plain ["index.mjs"] ∧ Forall plain [".git"; "HEAD"]) as [P1 P2]
      by (apply (bool_decide_eq_true_1 _); vm_compute; reflexivity).
    split.
    + pose proof (Hf ["index.mjs"] ltac:(discriminate) P1) as H1. vm_compute in H1 |- *. exact H1.
    + pose proof (Hf [".git"; "HEAD"] ltac:(discriminate) P2) as H1. vm_compute in H1 |- *. exact H1.
Defined.

(** ** Links *)

Lemma resolve_app t follow fuel cur d rest :
  Forall plain d → (∀ q, q ≠ [] → q `prefix_of` d → tr_links t !! (cur ++ q) = None ∧ isDir t (cur ++ q) = true) →
  resolve t follow fuel cur (d ++ rest) = resolve t follow fuel (cur ++ d) rest.
Proof.
  intros Hp. revert cur. induction Hp as [|c d Hc Hp IH]; intros cur Hd; [by rewrite app_nil_r|].
  destruct (Hd [c]) as [Hl Hdir]; [done|by exists d|]. simpl app.
  rewrite resolve_step, Hdir by done. rewrite IH.
  - by rewrite <- app_assoc.
  - intros q Hq Hpre. rewrite <- app_assoc. apply (Hd (c :: q)); [done|by apply prefix_cons].
Qed.

(** A name in a real directory that is a link to an absolute path. *)
Lemma find_link t d name target :
  realDir t d → plain name → tr_links t !! (d ++ [name]) = Some target → isAbs target = true →
  find_node t true (d ++ [name]) = resolve t true 39 [] (Split target slash).
Proof.
  intros (Hp & Hl & Hd) (N1 & N2 & N3 & _) Ht Ha. unfold find_node. rewrite resolve_app; [|done|].
  - change maxLinks with 40. simpl. rewrite !bool_decide_eq_false_2 by done. simpl. by rewrite Ht, Ha, app_nil_r.
  - intros q Hq Hpre. assert (q ∈ ancestors d) as Hin by by apply elem_of_ancestors. split; [by apply Hl|].
    unfold isDir. simpl. by rewrite (bool_decide_eq_true_2 (q ∈ _)), orb_true_r by by apply Hd.
Qed.

Lemma ReadFile_link t d name q c :
  wf_tree t → realDir t d → plain name → tr_links t !! (d ++ [name]) = Some ("/" +:+ Join q "/") →
  unlinked t q → tr_files t !! q = Some c → ReadFile (d ++ [name]) t = Ok c.
Proof.
  intros Hw Hd Hn Ht Hl Hc. assert (isNode t q) as Hq by (left; by exists c).
  destruct (wf_plain t Hw q Hq) as [Hp Hne]. unfold ReadFile. rewrite (find_link _ _ _ _ Hd Hn Ht) by done.
  change ("/" +:+ Join q "/") with ("" +:+ "/" +:+ Join q "/").
  rewrite Split_slash, Split_Join by (done || by apply plain_no_byte). simpl Split. simpl app.
  assert (resolve t true 39 [] ("" :: q) = resolve t true 39 [] q) as -> by done.
  assert (isDir t q = false) as Ed.
  { unfold isDir. rewrite !bool_decide_eq_false_2; [done| |done]. intros [Hf _]%(wf_dir t Hw). congruence. }
  rewrite resolve_dirs; simpl.
  - rewrite (bool_decide_eq_true_2 (is_Some _)) by (by exists c). by rewrite orb_true_r, Ed, Hc.
  - done.
  - intros r Hr Hpre. apply Hl. by apply elem_of_ancestors.
  - intros r Hr Hrq Hpre. unfold isDir. rewrite (bool_decide_eq_true_2 (r ∈ _)); [by rewrite orb_true_r|].
    eapply (wf_parent t Hw q); [done|by apply elem_of_ancestors|done].
Qed.

(** A link in the repository carries a file of the build host into the
    bundle.  When the directory that is packed has a link to an absolute path
    anywhere in the file system, and the packing succeeds, the bundle holds the
    contents of the file the link leads to under the name of the link. *)
Theorem linked_file_packed (A : Archives) (o : MapOrder) (root name : string) (q : Path) (c : string)
    (extra : gmap string string) (t : Tree) (data : string) :
  wf_tree t → (∀ a, a ∈ ancestors (comps root) → a ∈ tr_dirs t) → unlinked t (comps root) →
  last (comps root) ≠ Some ".git" →
  tr_links t !! (comps root ++ [name]) = Some ("/" +:+ Join q "/") → unlinked t q → tr_files t !! q = Some c →
  extra !! name = None → BundleFromDirectory root extra t = Ok data →
  ∃ files, BundleFromFiles files = Ok data ∧ files !! name = Some c.
Proof.
  intros Hw Hd Hu Hg Ht Hq Hc He Hb. pose proof (comps_plain root) as Hp.
  assert (realDir t (comps root)) as Hr by done.
  destruct (wf_plain t Hw (comps root ++ [name])) as [[_ Hn]%Forall_app _]; [right; right; by eexists|].
  rewrite Forall_singleton in Hn. pose proof (Walk_realDir t _ Hw Hr) as Ew.
  rewrite (BundleFromDirectory_visited root extra t _ Ew Hg) in Hb.
  destruct (dirFiles (comps root) t ∅ _) as [files|] eqn:Ef; [|done]. exists (extra ∪ files). split; [done|].
  apply lookup_union_Some_raw. right. split; [done|].
  assert (name = nameOf [name]) as E by (unfold nameOf; by rewrite bool_decide_eq_false_2). rewrite E.
  eapply (dirFiles_complete (comps root) t ∅); [| | |exact Ef| |left].
  - apply (visited_plain _ t Hw).
  - done.
  - by apply Forall_singleton.
  - by eapply ReadFile_link.
  - split; [|by intros ?%elem_of_nil]. right. apply elem_of_nodesBelow. split; [done|].
    apply elem_of_nodes. left. split; [done|]. right. by eexists.
Qed.

Lemma linked_file_packed_witness :
  ∃ files data, @BundleFromDirectory field_archives list_order "/tmp/b1" ∅ demo_linked = Ok data ∧
    @BundleFromFiles field_archives list_order files = Ok data ∧ files !! "notes.txt" = Some "root".
Proof.
  destruct (@BundleFromDirectory field_archives list_order "/tmp/b1" ∅ demo_linked) as [data|] eqn:Eb;
    [|vm_compute in Eb; discriminate].
  destruct (linked_file_packed field_archives list_order "/tmp/b1" "notes.txt" ["etc"; "passwd"] "root" ∅
    demo_linked data) as (files & E & H).
  - apply wf_tree_check, (bool_decide_eq_true_1 _). vm_compute. reflexivity.
  - apply Forall_forall, (bool_decide_eq_true_1 _). vm_compute. reflexivity.
  - apply unlinked_check, (bool_decide_eq_true_1 _). vm_compute. reflexivity.
  - discriminate.
  - vm_compute. reflexivity.
  - apply unlinked_check, (bool_decide_eq_true_1 _). vm_compute. reflexivity.
  - vm_compute. reflexivity.
  - apply lookup_empty.
  - exact Eb.
  - exists files, data. auto.
Defined.

(** ** The build root *)

Lemma Split_Clean_abs repo :
  isAbs repo = true → Clean repo = repo → comps repo ≠ [] → Split repo slash = "" :: comps repo.
Proof.
  intros Ha Hc Hne. rewrite <- Hc at 1. unfold Clean. rewrite Ha. fold (comps repo).
  change ("/" +:+ Join (comps repo) "/") with ("" +:+ "/" +:+ Join (comps repo) "/").
  rewrite Split_slash, Split_Join by (done || apply plain_no_byte, comps_plain). done.
Qed.

Lemma Abs_Join `{!BuildTools} repo sub : isAbs repo = true →
  ∃ l, Forall plain l ∧ Abs (JoinPath repo sub) = Ok ("/" +:+ Join l "/").
Proof.
  intros Ha. assert (∃ l, Forall plain l ∧ JoinPath repo sub = "/" +:+ Join l "/") as (l & Hl & E).
  { destruct (decide (sub = "")) as [->|Hs].
    - exists (comps repo). split; [apply comps_plain|]. unfold JoinPath, Clean. simpl. by rewrite Ha.
    - destruct (comps_JoinPath repo sub Ha Hs) as [_ E]. eexists. split; [|exact E]. apply comps_plain. }
  exists l. split; [done|]. unfold Abs. rewrite E. change (isAbs ("/" +:+ _)) with true. cbn iota.
  unfold Clean. change (isAbs ("/" +:+ _)) with true. cbn iota. by fold (comps ("/" +:+ Join l "/")); rewrite comps_abs.
Qed.

Lemma resolveSubPath_below `{!BuildTools} repo sub root :
  isAbs repo = true → Clean repo = repo → resolveSubPath repo sub = Ok root →
  ∃ rel, Forall plain rel ∧ comps root = comps repo ++ rel.
Proof.
  intros Ha Hc. unfold resolveSubPath. case_match.
  { intros [= <-]. exists []. by rewrite app_nil_r. }
  assert (Abs repo = Ok repo) as -> by (unfold Abs; by rewrite Ha, Hc). simpl.
  destruct (Abs_Join repo sub Ha) as (l & Hl & ->). simpl. destruct (_ && _) eqn:Eg; [done|]. intros [= <-].
  rewrite comps_abs by done. apply andb_false_iff in Eg as [Eg|Eg]; apply negb_false_iff in Eg.
  - apply bool_decide_eq_true in Eg. exists []. rewrite app_nil_r. split; [done|].
    rewrite <- Eg. by rewrite comps_abs.
  - apply HasPrefix_spec in Eg as [r E]. rewrite string_app_assoc in E.
    assert (Split ("/" +:+ Join l "/") slash = Split repo slash ++ Split r slash) as Es by (by rewrite E, Split_slash).
    destruct (decide (l = [])) as [->|Hne].
    { simpl in Es. pose proof (Split_nonempty r slash). destruct (decide (comps repo = [])) as [Er|Er].
      - rewrite Er. by exists [].
      - rewrite (Split_Clean_abs repo Ha Hc Er) in Es. injection Es as Es. destruct (comps repo) as [|x l]; [done|].
        injection Es as _ Es. symmetry in Es. by apply app_eq_nil in Es as [_ ?]. }
    change ("/" +:+ Join l "/") with ("" +:+ "/" +:+ Join l "/") in Es.
    rewrite Split_slash, Split_Join in Es by (done || by apply plain_no_byte). simpl in Es.
    destruct (decide (comps repo = [])) as [Er|Er]; [rewrite Er; by exists l|].
    rewrite (Split_Clean_abs repo Ha Hc Er) in Es. injection Es as ->. eexists. split; [|done].
    by apply Forall_app in Hl as [_ ?].
Qed.

(** C29: the build root lies in the clone.  Whatever [subPath] a request gives,
    [resolveBuildRoot] returns a directory whose path is the clone's path or
    continues it, without "..", and refuses anything else.  When there is no
    link on that path, this is the directory that is built. *)
Theorem build_root_inside (T : BuildTools) (repo sub root : string) (t : Tree) :
  isAbs repo = true → Clean repo = repo → resolveBuildRoot repo sub t = Ok root →
  ∃ rel, Forall plain rel ∧ comps root = comps repo ++ rel ∧ Stat (comps root) t = Ok true ∧
    (linkless (comps repo) t → find_node t true (comps root) = Found (comps root)).
Proof.
  intros Ha Hc. unfold resolveBuildRoot. destruct (resolveSubPath repo sub) as [r|] eqn:Er; [|done]. simpl.
  destruct (Stat (comps r) t) as [[]|] eqn:Es; [|done..]. intros [= <-].
  destruct (resolveSubPath_below repo sub r Ha Hc Er) as (rel & Hp & E). exists rel. split_and!; [done..|].
  intros Hl. unfold Stat in Es.
  destruct (find_unlinked t true (comps r) (comps_plain _)) as [->|[Ef|[e Ef]]]; [|done|by rewrite Ef in Es..].
  rewrite E. intros q Hq. by apply Hl, (ancestor_cases _ rel).
Qed.

Lemma build_root_inside_witness :
  @resolveBuildRoot demo_tools "/tmp/b1" "../../etc" demo_clone =
    Err (plainErr ("subPath " +:+ quote "../../etc" +:+ " escapes repository root")) ∧
  ∃ rel, Forall plain rel ∧ comps "/tmp/b1/.git" = comps "/tmp/b1" ++ rel.
Proof.
  split; [vm_compute; reflexivity|].
  destruct (build_root_inside demo_tools "/tmp/b1" "x/../.git" "/tmp/b1/.git" demo_clone) as (rel & H1 & H2 & _);
    [reflexivity..|]. exists rel. exact (conj H1 H2).
Defined.
