(* ===== verification/SiteFacts.v ===== *)
(** * SiteFacts: what a website build delivers

    Theorems on [NextSite] and on the configuration of a Next.js build in
    [Workspace]: the static assets are the files of the workspace, and the
    repository's configuration survives its wrapper. *)

From Stdlib Require Import Ascii.
From stdpp Require Import base decidable tactics numbers list gmap strings.
From S2P Require Import Prelude Domain Artifacts Files Archive BuildTools NextSite Workspace WorkspaceFacts.

(** ** The static assets of a website *)

Lemma resolve_found t fuel cur rest q :
  Forall plain rest → (∀ q, q ≠ [] → q `prefix_of` rest → tr_links t !! (cur ++ q) = None) → rest ≠ [] →
  resolve t true fuel cur rest = Found q → isDir t q = true ∨ is_Some (tr_files t !! q).
Proof.
  intros Hp. revert cur. induction Hp as [|c rest Hc Hp IH]; intros cur Hl Hne; [done|].
  rewrite resolve_step; [|done|apply (Hl [c]); [done|by exists rest]].
  destruct (isDir t (cur ++ [c])) eqn:Ed.
  - destruct (decide (rest = [])) as [->|Hr].
    + intros E. left. destruct fuel; simpl in E; by injection E as <-.
    + apply IH; [|done]. intros r Hr0 Hpre. rewrite <- app_assoc. apply (Hl (c :: r)); [done|by apply prefix_cons].
  - destruct (tr_files t !! (cur ++ [c])) eqn:Ef; case_bool_decide; intros [= <-]. right. rewrite Ef. by eexists.
Qed.

(** Without links, reading a file is looking it up. *)
Lemma ReadFile_unlinked t p c :
  wf_tree t → Forall plain p → p ≠ [] → unlinked t p → ReadFile p t = Ok c ↔ tr_files t !! p = Some c.
Proof.
  intros Hw Hp Hne Hl. split; [|by apply ReadFile_real]. unfold ReadFile.
  destruct (find_unlinked t true p Hp Hl) as [E|[->|[e ->]]]; [|done..]. rewrite E.
  destruct (isDir t p) eqn:Ed; [done|]. intros [= <-].
  destruct (resolve_found t maxLinks [] p p Hp) as [?|[c Hc]]; [|done|exact E|congruence|by rewrite Hc].
  intros q Hq Hpre. apply Hl. by apply elem_of_ancestors.
Qed.

Lemma linkless_app d x t : linkless d t → linkless (d ++ x) t.
Proof.
  intros Hl q [Hq|(rel & Hr & ->)]; [by apply Hl, (ancestor_cases d x)|].
  apply Hl. right. exists (x ++ rel). rewrite app_assoc. split; [|done]. by intros [_ ?]%app_eq_nil.
Qed.

(** A name in a real directory: whether it is a directory. *)
Lemma dirExists_real t d x : wf_tree t → realDir t d → plain x → linkless d t →
  dirExists (d ++ [x]) t = Ok (bool_decide (d ++ [x] ∈ tr_dirs t)).
Proof.
  intros Hw (Hp & Hu & Hd) Hx Hl. unfold dirExists, Stat. rewrite find_dirs; [| |by apply linkless_unlinked|..].
  - assert (isDir t (d ++ [x]) = bool_decide (d ++ [x] ∈ tr_dirs t)) as Ei.
    { unfold isDir. by rewrite (bool_decide_eq_false_2 (d ++ [x] = [])) by (by destruct d). }
    case_bool_decide; simpl; [by rewrite Ei|]. case_bool_decide; simpl; [by rewrite Ei|done].
  - apply Forall_app. split; [done|by apply Forall_singleton].
  - intros q Hq Hne. rewrite ancestors_snoc in Hq. apply elem_of_app in Hq as [Hq|Hq%list_elem_of_singleton]; [by apply Hd|done].
  - by destruct d.
Qed.

(** The key of an asset. *)
Lemma asset_key prefix rel : isAbs prefix = true → Clean prefix = prefix → Forall plain rel → rel ≠ [] →
  JoinPath prefix (Join rel "/") = "/" +:+ Join (comps prefix ++ rel) "/".
Proof.
  intros Ha Hc Hp Hne. destruct (JoinPath_plain prefix rel Ha Hc Hp Hne) as [E _].
  assert (Join rel "/" ≠ "") as Hj.
  { intros E0. pose proof (Split_Join rel (plain_no_byte _ Hp) Hne) as Hs. rewrite E0 in Hs. simpl in Hs. subst rel.
    apply Forall_singleton in Hp as [? _]. done. }
  destruct (comps_JoinPath prefix (Join rel "/") Ha Hj) as [_ ->]. by rewrite E.
Qed.

Section Assets.
Context (t : Tree) (Hwf : wf_tree t).

#[local] Arguments HasPrefix : simpl never.

Lemma appendFiles_spec d prefix assets visited :
  isAbs prefix = true → Clean prefix = prefix → linkless d t →
  (∀ rel b, (rel, b) ∈ visited → Forall plain rel) →
  (∀ rel, (rel, false) ∈ visited → rel ≠ [] ∧ is_Some (tr_files t !! (d ++ rel))) →
  ∃ found, appendFiles d prefix t assets visited = Ok (assets ++ found) ∧
    ∀ key data, (key, data) ∈ found ↔ ∃ rel, (rel, false) ∈ visited ∧
      key = "/" +:+ Join (comps prefix ++ rel) "/" ∧ tr_files t !! (d ++ rel) = Some data.
Proof.
  intros Ha Hc Hl. revert assets. induction visited as [|[rel b] visited IH]; intros assets Hp Hv; simpl.
  { exists []. rewrite app_nil_r. split; [done|]. intros key data. split; [by intros ?%elem_of_nil|].
    by intros (rel & ?%elem_of_nil & _). }
  assert (∀ r b, (r, b) ∈ visited → Forall plain r) as Hp' by (intros ?? H; eapply Hp; by right).
  assert (∀ r, (r, false) ∈ visited → r ≠ [] ∧ is_Some (tr_files t !! (d ++ r))) as Hv' by (intros ? H; apply Hv; by right).
  destruct b.
  { destruct (IH assets Hp' Hv') as (found & -> & Hf). exists found. split; [done|]. intros key data. rewrite Hf.
    by setoid_rewrite elem_of_cons; split; intros (r & Hr & H); exists r; split; [by right| |by destruct Hr|]. }
  destruct (Hv rel (list_elem_of_here _ _)) as [Hne [c Hcont]].
  rewrite (ReadFile_linkless d t Hwf Hl rel c Hcont). simpl. rewrite bool_decide_eq_false_2 by done.
  rewrite asset_key by (done || eapply Hp; left). rewrite HasPrefix_app.
  destruct (IH (assets ++ [("/" +:+ Join (comps prefix ++ rel) "/", c)]) Hp' Hv') as (found & -> & Hf).
  eexists (_ :: found). rewrite <- app_assoc. split; [done|]. intros key data. rewrite elem_of_cons, Hf. split.
  - intros [[= -> ->]|(r & Hr & H)]; [exists rel|exists r]; (split; [|done]); [left|by right].
  - intros (r & [[= ->]|Hr]%elem_of_cons & -> & Hx); [left; congruence|right; by exists r].
Qed.

#[local] Arguments appendFiles : simpl never.

(** The files of a directory below a real one, when there is such a directory. *)
Lemma appendDir_spec root d x prefix assets :
  isAbs prefix = true → Clean prefix = prefix → comps root = d ++ [x] → realDir t d → plain x → linkless d t →
  ∃ found, appendDir root prefix assets t = Ok (assets ++ found) ∧
    ∀ key data, (key, data) ∈ found ↔ ∃ rel, rel ≠ [] ∧ Forall plain rel ∧
      key = "/" +:+ Join (comps prefix ++ rel) "/" ∧ tr_files t !! (d ++ [x] ++ rel) = Some data.
Proof.
  intros Ha Hc E Hd Hx Hl. unfold appendDir. rewrite E, dirExists_real by done. simpl.
  pose proof (linkless_app d [x] t Hl) as Hl'. case_bool_decide as Hin.
  - destruct Hd as (Hp & Hu & Hd). rewrite Walk_linkless; [|done| | |done].
    2:{ apply Forall_app. split; [done|by apply Forall_singleton]. }
    2:{ intros q Hq. rewrite ancestors_snoc in Hq.
        apply elem_of_app in Hq as [Hq|Hq%list_elem_of_singleton]; [by apply Hd|by subst]. }
    simpl. destruct (appendFiles_spec (d ++ [x]) prefix assets (visitedIn (d ++ [x]) t)) as (found & -> & Hf); try done.
    { intros rel b. by apply visited_plain. }
    { intros rel Hr. by apply visited_file in Hr. }
    exists found. split; [done|]. intros key data. rewrite Hf. split.
    + intros (rel & Hr & -> & Hdata). rewrite <- app_assoc in Hdata. exists rel. split_and!; [by apply visited_file in Hr as [? _]|by eapply visited_plain|done|done].
    + intros (rel & Hne & Hpl & -> & Hdata). exists rel. rewrite <- app_assoc. split_and!; [|done|done].
      apply visited_file; [done|]. split; [done|]. rewrite <- app_assoc. by eexists.
  - exists []. rewrite app_nil_r. split; [done|]. intros key data. split; [by intros ?%elem_of_nil|].
    intros (rel & Hne & _ & _ & Hdata). exfalso. apply Hin.
    apply (wf_parent t Hwf (d ++ [x] ++ rel)); [left; by eexists| |].
    + apply elem_of_ancestors. split; [by destruct d|]. rewrite app_assoc. by apply prefix_app_r.
    + rewrite app_assoc. intros Heq. apply Hne. apply (app_inv_head (d ++ [x])). by rewrite app_nil_r.
Qed.

End Assets.

(** The components of a path below an absolute root. *)
Lemma comps_under root name : isAbs root = true → Forall plain (Split name slash) →
  comps (JoinPath root name) = comps root ++ Split name slash.
Proof.
  intros Ha Hp. assert (name ≠ "") as Hn by (intros ->; apply Forall_singleton in Hp as [? _]; done).
  destruct (comps_JoinPath root name Ha Hn) as [-> _]. by rewrite clean_plain, reverse_involutive.
Qed.

(** The icon of the site: the first of two files. *)
Definition siteIcon (d : Path) (t : Tree) : option string :=
  match tr_files t !! (d ++ ["app"; "favicon.ico"]) with
  | Some data => Some data
  | None => tr_files t !! (d ++ ["src"; "app"; "favicon.ico"])
  end.

Lemma firstFavicon_spec root t : isAbs root = true → wf_tree t → linkless (comps root) t →
  firstFavicon [JoinPath root "app/favicon.ico"; JoinPath root "src/app/favicon.ico"] t =
    match siteIcon (comps root) t with Some data => [("/favicon.ico", data)] | None => [] end.
Proof.
  intros Ha Hw Hl. cbn [firstFavicon].
  assert (∀ l, Forall plain l → l ≠ [] → ReadFile (comps root ++ l) t =
    match tr_files t !! (comps root ++ l) with Some c => Ok c | None => ReadFile (comps root ++ l) t end ∧
    (tr_files t !! (comps root ++ l) = None → is_ok (ReadFile (comps root ++ l) t) = false)) as Hread.
  { intros l Hp Hne. assert (∀ c, ReadFile (comps root ++ l) t = Ok c ↔ tr_files t !! (comps root ++ l) = Some c) as H.
    { intros c. apply ReadFile_unlinked; [done| | |by apply linkless_unlinked].
      - apply Forall_app. split; [apply comps_plain|done].
      - by intros [_ ?]%app_eq_nil. }
    split.
    - destruct (tr_files t !! (comps root ++ l)) as [c|] eqn:Ec; [|done]. by apply H.
    - intros En. destruct (ReadFile (comps root ++ l) t) as [c|] eqn:Er; [|done].
      destruct (H c) as [H' _]. specialize (H' eq_refl). congruence. }
  assert (Forall plain ["app"; "favicon.ico"] ∧ Forall plain ["src"; "app"; "favicon.ico"]) as [P1 P2]
    by (apply (bool_decide_eq_true_1 _); vm_compute; reflexivity).
  rewrite (comps_under root "app/favicon.ico" Ha P1 : _ = comps root ++ ["app"; "favicon.ico"]).
  rewrite (comps_under root "src/app/favicon.ico" Ha P2 : _ = comps root ++ ["src"; "app"; "favicon.ico"]).
  unfold siteIcon. destruct (Hread _ P1 ltac:(done)) as [E1 N1], (Hread _ P2 ltac:(done)) as [E2 N2].
  destruct (tr_files t !! (comps root ++ ["app"; "favicon.ico"])); [by rewrite E1|].
  destruct (ReadFile (comps root ++ ["app"; "favicon.ico"]) t); [by specialize (N1 eq_refl)|].
  destruct (tr_files t !! (comps root ++ ["src"; "app"; "favicon.ico"])); [by rewrite E2|].
  destruct (ReadFile (comps root ++ ["src"; "app"; "favicon.ico"]) t); [by specialize (N2 eq_refl)|done].
Qed.

#[local] Arguments firstFavicon : simpl never.

(** The static assets of a website are its files.  For a built workspace
    without links, with a directory ".next", [collectNextStaticAssets] succeeds,
    and an asset is collected exactly when it is a file of ".next/static", under
    "/_next/static/" and its path, a file of "public", under its path, or the
    site's icon, with the contents of that file. *)
Theorem site_assets_spec (root : string) (t : Tree) :
  isAbs root = true → wf_tree t → linkless (comps root) t →
  (∀ q, q ∈ ancestors (comps root ++ [".next"]) → q ∈ tr_dirs t) →
  ∃ assets, collectNextStaticAssets root t = Ok assets ∧
    ∀ key data, (key, data) ∈ assets ↔
      (∃ rel, rel ≠ [] ∧ Forall plain rel ∧ key = "/_next/static/" +:+ Join rel "/" ∧
         tr_files t !! (comps root ++ [".next"; "static"] ++ rel) = Some data) ∨
      (∃ rel, rel ≠ [] ∧ Forall plain rel ∧ key = "/" +:+ Join rel "/" ∧
         tr_files t !! (comps root ++ ["public"] ++ rel) = Some data) ∨
      (key = "/favicon.ico" ∧ siteIcon (comps root) t = Some data).
Proof.
  intros Ha Hw Hl Hd. unfold collectNextStaticAssets. pose proof (comps_plain root) as Hp.
  assert (Forall plain [".next"; "static"] ∧ Forall plain ["public"]) as [P1 P2]
    by (apply (bool_decide_eq_true_1 _); vm_compute; reflexivity).
  assert (∀ q, q ∈ ancestors (comps root) → q ∈ tr_dirs t) as Hd0.
  { intros q Hq. apply Hd. rewrite ancestors_snoc. apply elem_of_app. by left. }
  pose proof (linkless_app _ [".next"] t Hl) as Hl1.
  destruct (appendDir_spec t Hw (JoinPath root ".next/static") (comps root ++ [".next"]) "static" "/_next/static" [])
    as (found1 & -> & H1); [done|done| | | |done|].
  { rewrite (comps_under root ".next/static" Ha P1). by rewrite <- app_assoc. }
  { apply linkless_realDir; [|done|done]. apply Forall_app. split; [done|]. by apply Forall_cons in P1 as [? _]; apply Forall_singleton. }
  { by apply Forall_cons in P1 as [_ [? _]%Forall_cons]. }
  simpl. destruct (appendDir_spec t Hw (JoinPath root "public") (comps root) "public" "/" found1)
    as (found2 & -> & H2); [done|done|by apply (comps_under root "public")|by apply linkless_realDir|by apply Forall_singleton in P2|done|].
  simpl. eexists. split; [done|]. intros key data. rewrite firstFavicon_spec by done.
  rewrite !elem_of_app, H1, H2.
  assert ((key, data) ∈ match siteIcon (comps root) t with Some data => [("/favicon.ico", data)] | None => [] end ↔
    key = "/favicon.ico" ∧ siteIcon (comps root) t = Some data) as ->.
  { destruct (siteIcon _ t); rewrite ?list_elem_of_singleton, ?elem_of_nil; naive_solver. }
  assert (∀ rel, rel ≠ [] → "/" +:+ Join (comps "/_next/static" ++ rel) "/" = "/_next/static/" +:+ Join rel "/") as E.
  { intros [|x rel] Hne; [done|]. change (comps "/_next/static") with ["_next"; "static"]. simpl. by rewrite ?string_app_assoc. }
  change (comps "/") with (@nil string). setoid_rewrite <- app_assoc. split.
  - intros [[(rel & Hne & Hpl & -> & Hx)|(rel & Hne & Hpl & -> & Hx)]|H]; [left|right; left|by right; right];
      exists rel; split_and!; try done. by rewrite E.
  - intros [(rel & Hne & Hpl & -> & Hx)|[(rel & Hne & Hpl & -> & Hx)|H]]; [left; left|left; right|by right];
      exists rel; split_and!; try done. by rewrite E.
Qed.

Definition demo_site : Tree :=
  mkTree {[["tmp"; "b1"; ".next"; "static"; "app.js"] := "js"; ["tmp"; "b1"; "public"; "logo.svg"] := "svg";
           ["tmp"; "b1"; "next.config.js"] := "config"; ["etc"; "passwd"] := "root"]}
    {[["tmp"]; ["tmp"; "b1"]; ["tmp"; "b1"; ".next"]; ["tmp"; "b1"; ".next"; "static"]; ["tmp"; "b1"; "public"];
      ["etc"]]} ∅.

Lemma site_assets_spec_witness :
  ∃ assets, collectNextStaticAssets "/tmp/b1" demo_site = Ok assets ∧
    ("/_next/static/app.js", "js") ∈ assets ∧ ("/logo.svg", "svg") ∈ assets.
Proof.
  destruct (site_assets_spec "/tmp/b1" demo_site) as (assets & E & H).
  - reflexivity.
  - apply wf_tree_check, (bool_decide_eq_true_1 _). vm_compute. reflexivity.
  - intros q _. apply lookup_empty.
  - apply Forall_forall, (bool_decide_eq_true_1 _). vm_compute. reflexivity.
  - exists assets. split; [exact E|].
    assert (Forall plain ["app.js"] ∧ Forall plain ["logo.svg"]) as [P1 P2]
      by (apply (bool_decide_eq_true_1 _); vm_compute; reflexivity).
    split; apply H; [left; exists ["app.js"]|right; left; exists ["logo.svg"]];
      (split; [discriminate|]; split; [assumption|]; split; vm_compute; reflexivity).
Defined.

(** ** The configuration of a Next.js build *)

Lemma movedTo_prefix p q k : movedTo p q k = None ↔ ¬ p `prefix_of` k.
Proof.
  unfold movedTo. case_bool_decide as E; split; try done.
  - intros []. rewrite <- E. apply prefix_take.
  - intros _ [r ->]. by rewrite take_app_length in E.
Qed.

(** Moving a path no key starts with. *)
Lemma moveMap_none {A} (p q : Path) (m : gmap Path A) :
  (∀ k, p `prefix_of` k → m !! k = None) → m !! q = None → moveMap p q m = m.
Proof.
  intros Hm Hq. unfold moveMap. rewrite delete_id by done.
  assert (omap (λ e, (λ k, (k, e.2)) <$> movedTo p q e.1) (map_to_list m) = []) as ->.
  { apply elem_of_nil_inv. intros [k x] ([k' x'] & Hin & Ho)%list_elem_of_omap. simpl in Ho.
    apply elem_of_map_to_list in Hin. replace (movedTo p q k') with (@None Path) in Ho; [done|].
    symmetry. apply movedTo_prefix. intros Hp. rewrite Hm in Hin; done. }
  simpl. rewrite (left_id_L ∅ (∪)). apply map_filter_id. intros k x Hk. apply movedTo_prefix. intros Hp.
  rewrite Hm in Hk; done.
Qed.

(** Moving a single entry. *)
Lemma moveMap_file {A} (p q : Path) (m : gmap Path A) c :
  m !! p = Some c → (∀ k, k ≠ p → p `prefix_of` k → m !! k = None) → m !! q = None →
  moveMap p q m = <[q := c]> (delete p m).
Proof.
  intros Hp Hm Hq. unfold moveMap. rewrite (delete_id m q) by done.
  assert (omap (λ e, (λ k, (k, e.2)) <$> movedTo p q e.1) (map_to_list m) = [(q, c)]) as ->.
  { apply Permutation_singleton_r. rewrite <- (insert_delete_id m p c Hp), map_to_list_insert by apply lookup_delete_eq.
    simpl. unfold movedTo at 1. rewrite bool_decide_eq_true_2 by (by rewrite take_ge).
    simpl. rewrite drop_all, app_nil_r. apply Permutation_skip.
    enough (omap (λ e, (λ k, (k, e.2)) <$> movedTo p q e.1) (map_to_list (delete p m)) = []) as E by (by rewrite <- E).
    apply elem_of_nil_inv. intros [k x] ([k' x'] & Hin & Ho)%list_elem_of_omap. simpl in Ho.
    apply elem_of_map_to_list, lookup_delete_Some in Hin as [Hne Hin].
    replace (movedTo p q k') with (@None Path) in Ho; [done|].
    symmetry. apply movedTo_prefix. intros Hpre. rewrite Hm in Hin; done. }
  simpl. rewrite insert_empty, <- insert_union_singleton_l. f_equal. apply map_eq. intros k. apply option_eq. intros x.
  rewrite map_lookup_filter_Some, lookup_delete_Some. simpl. rewrite movedTo_prefix. split.
  - intros [Hk Hn]. split; [|done]. by intros ->.
  - intros [Hne Hk]. split; [done|]. intros Hpre. rewrite Hm in Hk; done.
Qed.

Lemma moveSet_none (p q : Path) (s : gset Path) : (∀ k, p `prefix_of` k → k ∉ s) → moveSet p q s = s.
Proof.
  intros Hs. unfold moveSet. apply set_eq. intros k.
  rewrite elem_of_union, elem_of_list_to_set, list_elem_of_omap, elem_of_filter, movedTo_prefix. split.
  - intros [(k' & Hk' & E)|[_ ?]]; [|done]. apply elem_of_elements in Hk'.
    replace (movedTo p q k') with (@None Path) in E; [done|]. symmetry. apply movedTo_prefix. intros Hp.
    by apply (Hs k').
  - intros Hk. right. split; [|done]. intros Hp. by apply (Hs k).
Qed.

Section NextConfig.
Context (d : Path) (t : Tree).
Context (Hreal : realDir t d) (Hlinks : linkless d t).

(** A name in the build root. *)
Lemma find_name follow x : plain x →
  find_node t follow (d ++ [x]) =
    if bool_decide (d ++ [x] ∈ tr_dirs t) || bool_decide (is_Some (tr_files t !! (d ++ [x])))
    then Found (d ++ [x]) else Vacant (d ++ [x]).
Proof.
  intros Hx. destruct Hreal as (Hp & _ & Hd). apply find_dirs; [|by apply linkless_unlinked| |by destruct d].
  - apply Forall_app. split; [done|by apply Forall_singleton].
  - intros q Hq Hne. rewrite ancestors_snoc in Hq.
    apply elem_of_app in Hq as [Hq|Hq%list_elem_of_singleton]; [by apply Hd|done].
Qed.

Lemma isDir_name x : isDir t (d ++ [x]) = bool_decide (d ++ [x] ∈ tr_dirs t).
Proof. unfold isDir. by rewrite (bool_decide_eq_false_2 (d ++ [x] = [])) by (by destruct d). Qed.

Lemma nodeExists_name x : plain x →
  nodeExists (d ++ [x]) t =
    Ok (bool_decide (d ++ [x] ∈ tr_dirs t) || bool_decide (is_Some (tr_files t !! (d ++ [x])))).
Proof. intros Hx. unfold nodeExists, Stat. rewrite find_name by done. by destruct (_ || _). Qed.

Lemma WriteFile_name x data : plain x → d ++ [x] ∉ tr_dirs t →
  WriteFile (d ++ [x]) data t = (Ok tt, t <| tr_files := <[d ++ [x] := data]> (tr_files t) |>).
Proof.
  intros Hx Hn. unfold WriteFile. erewrite run_bind.
  2:{ unfold OpenFile. rewrite find_name, (bool_decide_eq_false_2 (d ++ [x] ∈ _)) by done. cbn [orb].
      destruct (bool_decide (is_Some _)); [|done]. by rewrite isDir_name, bool_decide_eq_false_2. }
  unfold writeTo, modify. f_equal. unfold rebuild, Tree_rebuild. simpl. by rewrite insert_insert_eq.
Qed.

(** Moving a file to a free name. *)
Lemma Rename_name x y c : wf_tree t → plain x → plain y → x ≠ y →
  tr_files t !! (d ++ [x]) = Some c → d ++ [y] ∉ tr_dirs t → tr_files t !! (d ++ [y]) = None →
  Rename (d ++ [x]) (d ++ [y]) t = (Ok tt, t <| tr_files := <[d ++ [y] := c]> (delete (d ++ [x]) (tr_files t)) |>).
Proof.
  intros Hw Hx Hy Hxy Hc Hny Hfy. assert (d ++ [x] ∉ tr_dirs t) as Hnx.
  { intros [Hf _]%(wf_dir t Hw). congruence. }
  assert (∀ k, k ≠ d ++ [x] → (d ++ [x]) `prefix_of` k → ¬ isNode t k) as Hbelow.
  { intros k Hne Hpre Hk. apply Hnx. apply (wf_parent t Hw k); [done| |done]. apply elem_of_ancestors.
    split; [by destruct d|done]. }
  unfold Rename. rewrite !find_name by done. rewrite Hfy, (bool_decide_eq_false_2 (d ++ [y] ∈ _)) by done.
  rewrite (bool_decide_eq_true_2 (is_Some (tr_files t !! (d ++ [x])))), orb_true_r by (by exists c).
  rewrite (bool_decide_eq_false_2 (is_Some None)) by (by intros []). cbn [orb].
  rewrite bool_decide_eq_false_2.
  - unfold rebuild, Tree_rebuild. simpl. f_equal. f_equal.
    + apply moveMap_file; [done| |done]. intros k Hne Hpre. destruct (tr_files t !! k) as [z|] eqn:Ek; [|done].
      destruct (Hbelow k Hne Hpre). left. by exists z.
    + apply moveSet_none. intros k Hpre Hk. destruct (decide (k = d ++ [x])) as [->|Hne]; [done|].
      apply (Hbelow k Hne Hpre). right. by left.
    + apply moveMap_none.
      * intros k Hpre. destruct (decide (k = d ++ [x])) as [->|Hne].
        { apply Hlinks. right. by exists [x]. }
        destruct (tr_links t !! k) as [z|] eqn:Ek; [|done].
        destruct (Hbelow k Hne Hpre). right. right. by exists z.
      * apply Hlinks. right. by exists [y].
  - rewrite take_ge by (rewrite !length_app; simpl; lia). intros E%(app_inv_head d). by injection E as ->.
Qed.

Context (root : string) (Habs : isAbs root = true) (Hroot : comps root = d).

(** Candidates that are not there are passed over. *)
Lemma ensureConfig_skip before rest w :
  ws_tree w = t → Forall (λ m, plain m ∧ (d ++ [m]) ∉ tr_dirs t ∧ tr_files t !! (d ++ [m]) = None) before →
  ensureConfig root (before ++ rest) w = ensureConfig root rest w.
Proof.
  intros Hw. induction 1 as [|m before (Hm & Hd & Hf) _ IH]; [done|]. simpl.
  rewrite (run_bind _ _ w false w); [exact IH|]. unfold reads. rewrite Hw.
  rewrite (comps_under root m Habs); rewrite (Split_no_byte m) by apply Hm; [|by apply Forall_singleton].
  rewrite Hroot, nodeExists_name, Hf, !bool_decide_eq_false_2 by (done || by intros []). done.
Qed.

End NextConfig.

Lemma onTree_run {A} (m : M Tree A) w r t' : m (ws_tree w) = (r, t') → onTree m w = (r, w <| ws_tree := t' |>).
Proof. unfold onTree. by intros ->. Qed.

Lemma wrapping_ok {A} pre (m : BM A) w a w' : m w = (Ok a, w') → wrapping pre m w = (Ok a, w').
Proof. intros E. unfold wrapping. by rewrite (run_bind _ _ _ _ _ (run_try _ _ _ _ E)). Qed.

Lemma backupNameOf_new name : name ∈ nextConfigNames →
  backupNameOf name ∉ nextConfigNames ∧ plain (backupNameOf name) ∧ plain name.
Proof.
  intros H. apply (proj1 (Forall_forall (λ name, backupNameOf name ∉ nextConfigNames ∧ plain (backupNameOf name) ∧
    plain name) nextConfigNames)); [|done]. apply (bool_decide_eq_true_1 _). vm_compute. reflexivity.
Qed.

(** A configuration that is there is wrapped; its backup is made once. *)
Lemma wrapConfig_run root d name w : 
  let t := ws_tree w in
  let config := d ++ [name] in
  let backup := d ++ [backupNameOf name] in
  let wrapper := nextStandaloneConfigWrapper name (backupNameOf name) in
  isAbs root = true → comps root = d → realDir t d → linkless d t → name ∈ nextConfigNames → wf_tree t →
  is_Some (tr_files t !! config) → backup ∉ tr_dirs t →
  ∃ lines, wrapConfig root name w = (Ok tt, (w <| ws_lines := lines |>)
    <| ws_tree := t <| tr_files := <[config := wrapper]>
         (match tr_files t !! backup with
          | Some _ => tr_files t
          | None => <[backup := default "" (tr_files t !! config)]> (tr_files t)
          end) |> |>).
Proof.
  intros t config backup wrapper Ha Hr Hd Hl Hn Hw [c Hc] Hb.
  destruct (backupNameOf_new name Hn) as (Hnew & Pb & Pn).
  assert (name ≠ backupNameOf name) as Hne by (intros E; by rewrite <- E in Hnew).
  assert (∀ x, plain x → comps (JoinPath root x) = d ++ [x]) as Hcomps.
  { intros x Hx. rewrite (comps_under root x Ha), Hr; rewrite (Split_no_byte x) by apply Hx; [done|by apply Forall_singleton]. }
  assert (config ∉ tr_dirs t) as Hcd by (intros [Hf _]%(wf_dir t Hw); unfold config in *; congruence).
  unfold wrapConfig. rewrite !Hcomps by done. fold config backup.
  rewrite (run_bind _ _ w (bool_decide (is_Some (tr_files t !! backup))) w).
  2:{ unfold reads. fold t. unfold backup in *. rewrite nodeExists_name by done. by rewrite (bool_decide_eq_false_2 (_ ∈ _)). }
  destruct (tr_files t !! backup) as [b|] eqn:Eb.
  - rewrite (run_bind _ _ w tt w) by done. erewrite run_bind.
    2:{ apply wrapping_ok. apply onTree_run. by apply (WriteFile_name d t). }
    eexists. reflexivity.
  - set (t1 := t <| tr_files := <[backup := c]> (delete config (tr_files t)) |>).
    erewrite run_bind.
    2:{ apply wrapping_ok. apply onTree_run. by apply (Rename_name d t Hd Hl name (backupNameOf name) c). }
    fold config backup t t1. erewrite run_bind.
    2:{ apply wrapping_ok. apply onTree_run. by apply (WriteFile_name d t1). }
    eexists. unfold record, modify, mret, M_ret. f_equal. unfold t1, rebuild, Workspace_rebuild, Tree_rebuild. simpl.
    f_equal. f_equal. fold config. rewrite Hc. simpl. rewrite <- insert_delete_eq.
    rewrite <- (insert_delete_eq (<[backup := c]> (tr_files t))). f_equal.
    rewrite !delete_insert_ne, delete_delete_eq; [done|..]; unfold backup, config; intros E%(app_inv_head d); congruence.
Qed.

(** Files written in a real directory keep the tree well-formed. *)
Lemma wf_write t d x c : wf_tree t → realDir t d → linkless d t → plain x → d ++ [x] ∉ tr_dirs t →
  wf_tree (t <| tr_files := <[d ++ [x] := c]> (tr_files t) |>).
Proof.
  intros [W1 W2 W3 W4] (Hp & _ & Hd) Hl Hx Hn.
  assert (∀ p, isNode (t <| tr_files := <[d ++ [x] := c]> (tr_files t) |>) p → p = d ++ [x] ∨ isNode t p) as Hnode.
  { intros p [[s Hs]|H]; [|by right; right]. simpl in Hs. apply lookup_insert_Some in Hs as [[<- _]|[_ Hs]]; [by left|].
    right. left. by exists s. }
  split; simpl.
  - intros p [-> |Hk]%Hnode; [|by apply W1]. split; [|by destruct d]. apply Forall_app. split; [done|by apply Forall_singleton].
  - intros p q [-> |Hk]%Hnode Hq Hne; [|by eapply W2]. rewrite ancestors_snoc in Hq.
    apply elem_of_app in Hq as [Hq|Hq%list_elem_of_singleton]; [by apply Hd|done].
  - intros p Hk. rewrite lookup_insert_ne; [by apply W3|]. by intros <-.
  - intros p [s [[<- _]|[_ Hs]]%lookup_insert_Some]; [apply Hl; right; by exists [x]|]. apply W4. by exists s.
Qed.

(** The whole step, when the configuration [name] comes first. *)
Lemma ensureNext_run root before name after w :
  let t := ws_tree w in
  let config := comps root ++ [name] in
  let backup := comps root ++ [backupNameOf name] in
  isAbs root = true → wf_tree t → (∀ q, q ∈ ancestors (comps root) → q ∈ tr_dirs t) → linkless (comps root) t →
  nextConfigNames = before ++ name :: after → (∀ m, m ∈ before → ¬ isNode t (comps root ++ [m])) →
  is_Some (tr_files t !! config) → backup ∉ tr_dirs t →
  ∃ w', ensureNextStandaloneConfig root w = (Ok tt, w') ∧
    ws_tree w' = t <| tr_files := <[config := nextStandaloneConfigWrapper name (backupNameOf name)]>
      (match tr_files t !! backup with
       | Some _ => tr_files t
       | None => <[backup := default "" (tr_files t !! config)]> (tr_files t)
       end) |>.
Proof.
  intros t config backup Ha Hw Hd Hl Hnames Hbefore Hc Hb.
  assert (name ∈ nextConfigNames) as Hn by (rewrite Hnames; set_solver).
  assert (realDir t (comps root)) as Hr by (apply linkless_realDir; [apply comps_plain|done|done]).
  destruct (wrapConfig_run root (comps root) name w) as [lines E]; try done.
  assert (ensureNextStandaloneConfig root w = wrapConfig root name w) as ->; [|rewrite E; by eexists].
  unfold ensureNextStandaloneConfig. rewrite Hnames.
  rewrite (ensureConfig_skip (comps root) t Hr Hl root Ha eq_refl before); [|done|].
  2:{ apply Forall_forall. intros m Hm. split_and!.
      - apply backupNameOf_new. rewrite Hnames. set_solver.
      - intros ?. apply (Hbefore m Hm). right. by left.
      - destruct (tr_files t !! (comps root ++ [m])) as [s|] eqn:Es; [|done]. destruct (Hbefore m Hm). left. by exists s. }
  cbn [ensureConfig]. rewrite (run_bind _ _ w true w); [done|]. unfold reads. fold t.
  destruct (backupNameOf_new name Hn) as (_ & _ & Pn).
  rewrite (comps_under root name Ha); rewrite (Split_no_byte name) by apply Pn; [|by apply Forall_singleton].
  rewrite (nodeExists_name (comps root)) by done. by rewrite (bool_decide_eq_true_2 (is_Some _)), orb_true_r.
Qed.

(** The configuration of a repository survives the wrapper.  When the build
    root has a Next.js configuration and no backup of it,
    [ensureNextStandaloneConfig] succeeds: the configuration that comes first in
    the order of the code is kept, unchanged, under its backup name, the wrapper
    that loads the backup takes its place, and nothing else changes.  Run again,
    it leaves the file system as it is; the backup is never overwritten. *)
Theorem next_config_kept (root name c : string) (before after : list string) (w : Workspace) :
  let t := ws_tree w in
  let config := comps root ++ [name] in
  let backup := comps root ++ [backupNameOf name] in
  isAbs root = true → wf_tree t → (∀ q, q ∈ ancestors (comps root) → q ∈ tr_dirs t) → linkless (comps root) t →
  nextConfigNames = before ++ name :: after →
  (∀ m, m ∈ before → ¬ isNode t (comps root ++ [m])) → tr_files t !! config = Some c → ¬ isNode t backup →
  ∃ w1 w2, ensureNextStandaloneConfig root w = (Ok tt, w1) ∧ ensureNextStandaloneConfig root w1 = (Ok tt, w2) ∧
    ws_tree w1 = t <| tr_files := <[config := nextStandaloneConfigWrapper name (backupNameOf name)]>
                                    (<[backup := c]> (tr_files t)) |> ∧
    ws_tree w2 = ws_tree w1.
Proof.
  intros t config backup Ha Hw Hd Hl Hnames Hbefore Hc Hb.
  assert (name ∈ nextConfigNames) as Hn by (rewrite Hnames; set_solver).
  destruct (backupNameOf_new name Hn) as (Hnew & Pb & Pn).
  assert (realDir t (comps root)) as Hr by (apply linkless_realDir; [apply comps_plain|done|done]).
  assert (backup ∉ tr_dirs t) as Hbd by (intros ?; apply Hb; right; by left).
  assert (config ∉ tr_dirs t) as Hcd by (intros [Hf _]%(wf_dir t Hw); congruence).
  assert (tr_files t !! backup = None) as Hbf.
  { destruct (tr_files t !! backup) as [s|] eqn:E; [|done]. destruct Hb. left. by exists s. }
  destruct (ensureNext_run root before name after w) as (w1 & E1 & T1); try done.
  fold t config backup in T1. rewrite Hbf, Hc in T1. cbn [default] in T1. exists w1.
  pose proof (wf_write t _ _ c Hw Hr Hl Pb Hbd) as Hw0.
  pose proof (wf_write _ _ _ (nextStandaloneConfigWrapper name (backupNameOf name)) Hw0 Hr Hl Pn Hcd) as Hw1.
  assert (ws_tree w1 = t <| tr_files := tr_files (ws_tree w1) |>) as Et by (by rewrite T1).
  assert (config ≠ backup) as Hne.
  { intros E%(app_inv_head (comps root)). injection E as E. by rewrite <- E in Hnew. }
  destruct (ensureNext_run root before name after w1) as (w2 & E2 & T2); try done.
  - by rewrite T1.
  - by rewrite T1.
  - by rewrite T1.
  - intros m Hm. rewrite T1. unfold isNode. simpl. rewrite !lookup_insert_ne; [by apply Hbefore|..];
      intros E%(app_inv_head (comps root)); injection E as <-.
    + apply Hnew. rewrite Hnames. set_solver.
    + assert (NoDup nextConfigNames) as Hnd by (apply (bool_decide_eq_true_1 _); vm_compute; reflexivity).
      rewrite Hnames in Hnd. apply NoDup_app in Hnd as (_ & Hdis & _). apply (Hdis name Hm). left.
  - rewrite T1. simpl. rewrite lookup_insert_eq. by eexists.
  - by rewrite T1.
  - exists w2. split_and!; [done..|]. rewrite T2, T1. unfold rebuild, Tree_rebuild. simpl. f_equal.
    fold config backup. rewrite lookup_insert_ne, lookup_insert_eq by done. by rewrite insert_insert_eq.
Qed.

Lemma next_config_kept_witness :
  let w := mkWorkspace demo_site [] 0 in
  ∃ w1 w2, ensureNextStandaloneConfig "/tmp/b1" w = (Ok tt, w1) ∧
    ensureNextStandaloneConfig "/tmp/b1" w1 = (Ok tt, w2) ∧
    tr_files (ws_tree w1) !! ["tmp"; "b1"; "next.config.lecrev.orig.js"] = Some "config" ∧ ws_tree w2 = ws_tree w1.
Proof.
  intros w.
  destruct (next_config_kept "/tmp/b1" "next.config.js" "config" ["next.config.ts"; "next.config.mjs"]
    ["next.config.cjs"] w) as (w1 & w2 & E1 & E2 & T1 & T2).
  - reflexivity.
  - apply wf_tree_check, (bool_decide_eq_true_1 _). vm_compute. reflexivity.
  - apply Forall_forall, (bool_decide_eq_true_1 _). vm_compute. reflexivity.
  - intros q _. apply lookup_empty.
  - reflexivity.
  - apply Forall_forall, (bool_decide_eq_true_1 _). vm_compute. reflexivity.
  - vm_compute. reflexivity.
  - apply (bool_decide_eq_true_1 _). vm_compute. reflexivity.
  - exists w1, w2. rewrite T2. split; [exact E1|]. split; [exact E2|]. split; [|reflexivity].
    rewrite T1. vm_compute. reflexivity.
Defined.
