(* ===== verification/Scheduler.v ===== *)
(** * Scheduler: region selection, queued and direct dispatch

    Models [internal/scheduler/service.go] and [internal/idempotency/hash.go].
    The region dispatchers the service holds are interface values; a
    [Dispatcher] is the record of their methods, the optional interfaces
    ([DirectDispatcher], [DirectStreamDispatcher], [WarmPreparer]) being
    [option] fields, as the type assertions of the code see them.  Timing
    variables and log calls are left out; they read the clock and change
    nothing.  [schedulePending] loops until nothing is left to dispatch, so it
    takes fuel and returns [None] when the fuel runs out. *)

From stdpp Require Import base decidable tactics numbers list gmap strings sorting.
From S2P Require Import Prelude Domain MemStore World Jobs.

(** ** Interfaces *)

(** [firecracker.HTTPStreamEvent] *)
Record HTTPStreamEvent := mkHTTPStreamEvent {
  hse_Type : string;
  hse_StatusCode : Z;
  hse_Headers : gmap string string;
  hse_Chunk : string;
}.

(** [onMeta] returns nothing and cannot fail; [onHTTPEvent] may. *)
Abbreviation OnMeta := (option (string → string → StartMode → World → World)).
Abbreviation OnHTTPEvent := (option (HTTPStreamEvent → WM unit)).

Record Dispatcher := mkDispatcher {
  d_Region : string;
  d_Stats : World → RegionStats;
  d_EnqueueExecution : Assignment → WM unit;
  d_ExecuteDirect : option (Assignment → WM DirectExecutionResult);
  d_ExecuteDirectStream : option (Assignment → OnMeta → OnHTTPEvent → WM DirectExecutionResult);
  d_PrepareFunctionWarm : option (FunctionVersion → WM unit);
}.

(** The fields of [Service] that do not change after construction. *)
Record SchedulerConfig := mkSchedulerConfig {
  sc_dispatchers : gmap string Dispatcher;
  sc_schedulingTimeout : Duration;
  sc_healthyWithin : Duration;
  sc_maxActiveExecutionJobsPerProject : Z;
}.

(** [New]: a later dispatcher of the same region replaces an earlier one. *)
Definition New (dispatchers : list Dispatcher) : SchedulerConfig :=
  {| sc_dispatchers := foldl (λ m d, <[d_Region d := d]> m) ∅ dispatchers;
     sc_schedulingTimeout := (10 * Second)%Z;
     sc_healthyWithin := (15 * Second)%Z;
     sc_maxActiveExecutionJobsPerProject := 200%Z |}.

Record candidate := mkCandidate {
  cd_region : string;
  cd_dispatcher : Dispatcher;
  cd_stats : RegionStats;
  cd_backlog : Z;
  cd_healthy : bool;
  cd_artifactLocal : bool;
  cd_lastHeartbeat : Time;
}.

(** [cloneEnvVars]: an empty map is copied to a nil map. *)
Definition cloneEnvVars (src : gmap string string) : option (gmap string string) :=
  if bool_decide (src = ∅) then None else Some src.

Definition activeStates : list JobState :=
  [JobStateQueued; JobStateScheduling; JobStateAssigned; JobStateRunning; JobStateRetrying].

Section Scheduler.
Context `{!GoEnv} (cfg : SchedulerConfig).

(** ** Enqueueing *)

Definition invokeRequestHash (versionID payload : string) : result string :=
  json_MarshalInvoke versionID (NormalizeJSON payload) ≫= λ encoded, Ok (sha256_hex encoded).

Definition enforceExecutionQuota (projectID : string) : WM unit :=
  let max := sc_maxActiveExecutionJobsPerProject cfg in
  if (max <=? 0)%Z then mret tt else
  count ← call (CountExecutionJobsByProjectStates projectID activeStates);
  if (max <=? count)%Z then
    fail (wrapErr ErrProjectExecutionQuota (": project " +:+ projectID +:+ " already has " +:+
      itoa count +:+ " active execution jobs (limit " +:+ itoa max +:+ ")"))
  else mret tt.

Definition enqueueExecution (version : FunctionVersion) (payload : string) : WM ExecutionJob :=
  enforceExecutionQuota (fv_ProjectID version) ≫= λ _,
  t ← now;
  id ← NewString;
  let job := mkExecutionJob id (fv_ID version) (fv_ProjectID version) "" JobStateQueued payload
               (fv_MaxRetries version) 0 "" "" None t t in
  call (PutExecutionJob job) ≫= λ _,
  wake ≫= λ _,
  mret job.

Definition replayExecution (projectID key requestHash : string) : WM ExecutionJob :=
  record ← call (GetIdempotencyRecord "invoke" projectID key);
  if negb (bool_decide (idem_RequestHash record = requestHash)) then
    fail (sentinel ErrIdempotencyConflict)
  else if negb (bool_decide (idem_Status record = IdempotencyStatusCompleted)) ||
          bool_decide (idem_ResourceID record = "") then
    fail (sentinel ErrIdempotencyInProgress)
  else call (GetExecutionJob (idem_ResourceID record)).

Definition DispatchExecutionIdempotent (versionID payload key : string) : WM ExecutionJob :=
  version ← call (GetFunctionVersion versionID);
  if negb (bool_decide (key = "")) then
    requestHash ← lift (invokeRequestHash versionID payload);
    t ← now;
    let record := mkIdempotencyRecord "invoke" (fv_ProjectID version) key requestHash ""
                    "execution_job" IdempotencyStatusPending t t in
    created ← try (call (CreateIdempotencyRecord record));
    match created with
    | Err e =>
        if errors_Is e ErrAlreadyExists
        then replayExecution (fv_ProjectID version) key requestHash
        else fail e
    | Ok _ =>
        enqueued ← try (enqueueExecution version payload);
        match enqueued with
        | Err e =>
            ignore (call (DeleteIdempotencyRecord (idem_Scope record) (idem_ProjectID record)
                            (idem_Key record))) ≫= λ _,
            fail e
        | Ok job =>
            t' ← now;
            let record := record <| idem_ResourceID := job_ID job |>
                                 <| idem_Status := IdempotencyStatusCompleted |>
                                 <| idem_UpdatedAt := t' |> in
            call (UpdateIdempotencyRecord record) ≫= λ _,
            mret job
        end
    end
  else enqueueExecution version payload.

Definition DispatchExecution (versionID payload : string) : WM ExecutionJob :=
  DispatchExecutionIdempotent versionID payload "".

Definition RetryExecution (jobID : string) : WM ExecutionJob :=
  job ← call (GetExecutionJob jobID);
  if (job_MaxRetries job <? job_AttemptCount job)%Z then
    fail (plainErr ("job " +:+ job_ID job +:+ " exceeded retry budget"))
  else
    t ← now;
    let job := job <| job_State := JobStateRetrying |> <| job_Error := "" |>
                   <| job_TargetRegion := "" |> <| job_UpdatedAt := t |> in
    call (UpdateExecutionJob job) ≫= λ _,
    wake ≫= λ _,
    mret job.

(** ** Ranking *)

Definition artifactRegionIndex (digest : string) : WM (gset string) :=
  if bool_decide (digest = "") then mret ∅ else
  artifact ← call (GetArtifact digest);
  mret (dom (art_Regions artifact)).

Definition regionHealthy (region : Region) (t : Time) (maxHeartbeatAge : Duration) : bool :=
  if negb (bool_decide (reg_State region = "active")) then false
  else if (maxHeartbeatAge <=? 0)%Z || IsZero (reg_LastHeartbeatAt region) then true
  else (Sub t (reg_LastHeartbeatAt region) <=? maxHeartbeatAge)%Z.

Definition rank_less (x y : candidate) : bool :=
  if negb (Bool.eqb (cd_healthy x) (cd_healthy y)) then cd_healthy x
  else if negb (Bool.eqb (cd_artifactLocal x) (cd_artifactLocal y)) then cd_artifactLocal x
  else if negb (cd_backlog x =? cd_backlog y)%Z then (cd_backlog x <? cd_backlog y)%Z
  else if negb (rs_FunctionWarm (cd_stats x) =? rs_FunctionWarm (cd_stats y))%Z
       then (rs_FunctionWarm (cd_stats y) <? rs_FunctionWarm (cd_stats x))%Z
  else if negb (rs_BlankWarm (cd_stats x) =? rs_BlankWarm (cd_stats y))%Z
       then (rs_BlankWarm (cd_stats y) <? rs_BlankWarm (cd_stats x))%Z
  else if negb (rs_AvailableHosts (cd_stats x) =? rs_AvailableHosts (cd_stats y))%Z
       then (rs_AvailableHosts (cd_stats y) <? rs_AvailableHosts (cd_stats x))%Z
  else if negb (cd_lastHeartbeat x =? cd_lastHeartbeat y)%Z
       then (cd_lastHeartbeat y <? cd_lastHeartbeat x)%Z
  else string_ltb (cd_region x) (cd_region y).

(** The candidate of one region: counters from the region snapshot when there
    is one, from the dispatcher otherwise. *)
Definition candidateFor (artifactRegions : gset string) (region : string) (d : Dispatcher) :
    WM candidate :=
  stats ← gets (d_Stats d);
  backlog ← call (CountActiveExecutionJobsByRegion region);
  snapshot ← try (call (GetRegion region));
  match snapshot with
  | Ok snap =>
      t ← now;
      let stats := mkRegionStats (reg_AvailableHosts snap) 0 (reg_BlankWarm snap)
                     (reg_FunctionWarm snap) in
      mret (mkCandidate region d stats backlog
              (regionHealthy snap t (sc_healthyWithin cfg))
              (bool_decide (region ∈ artifactRegions)) (reg_LastHeartbeatAt snap))
  | Err e =>
      if errors_Is e ErrNotFound
      then mret (mkCandidate region d stats backlog true
                   (bool_decide (region ∈ artifactRegions)) 0)
      else fail e
  end.

Fixpoint gatherCandidates (artifactRegions : gset string) (regions : list string) :
    WM (list candidate) :=
  match regions with
  | [] => mret []
  | region :: rest =>
      match sc_dispatchers cfg !! region with
      | None => gatherCandidates artifactRegions rest
      | Some d =>
          c ← candidateFor artifactRegions region d;
          cs ← gatherCandidates artifactRegions rest;
          mret (c :: cs)
      end
  end.

Definition rankDispatchers (version : FunctionVersion) : WM (list candidate) :=
  index ← try (artifactRegionIndex (fv_ArtifactDigest version));
  artifactRegions ←
    match index with
    | Ok regions => mret regions
    | Err e => if errors_Is e ErrNotFound then mret ∅ else fail e
    end;
  candidates ← gatherCandidates artifactRegions (fv_Regions version);
  match candidates with
  | [] => fail (plainErr ("no dispatcher available for [" +:+ Join (fv_Regions version) " " +:+ "]"))
  | _ => mret (SliceStable rank_less candidates)
  end.

Definition pickRegion (version : FunctionVersion) : WM (option (string * Dispatcher)) :=
  candidates ← rankDispatchers version;
  mret ((λ c, (cd_region c, cd_dispatcher c)) <$> head candidates).

(** ** Queued dispatch *)

Definition assignmentFor (version : FunctionVersion) (bundleKey attemptID jobID payload : string) :
    Assignment :=
  mkAssignment attemptID jobID (fv_ID version) (fv_ArtifactDigest version) bundleKey
    (fv_Entrypoint version) (cloneEnvVars (fv_EnvVars version)) (fv_EnvRefs version) payload
    (fv_NetworkPolicy version) (fv_TimeoutSec version) (fv_MemoryMB version).

(** The job goes back to the queue with the given text. *)
Definition backToQueue (job : ExecutionJob) (err : string) (t : Time) : ExecutionJob :=
  job <| job_State := JobStateQueued |> <| job_TargetRegion := "" |>
      <| job_Error := err |> <| job_UpdatedAt := t |>.

(** The attempt after a refused enqueue (two clock readings). *)
Definition failAttempt (attempt : Attempt) (err : string) : WM unit :=
  t1 ← now;
  t2 ← now;
  ignore (call (UpdateAttempt (attempt <| att_State := AttemptStateFailed |>
    <| att_Error := err |> <| att_LeaseExpiresAt := t1 |> <| att_UpdatedAt := t2 |>))).

(** The candidate loop of [dispatchJobAttempt]; [t] is its first clock
    reading, [errs] the errors collected so far. *)
Fixpoint tryCandidates (version : FunctionVersion) (bundleKey : string) (t : Time)
    (job : ExecutionJob) (errs : list string) (cs : list candidate) : WM unit :=
  match cs with
  | [] =>
      t' ← now;
      let job := backToQueue job (Join errs "; ") t' in
      ignore (call (UpdateExecutionJob job)) ≫= λ _,
      fail (plainErr (job_Error job))
  | c :: cs' =>
      id ← NewString;
      let attempt := mkAttempt id (job_ID job) (fv_ID version) "" (cd_region c)
                       AttemptStateAssigned StartModeUnset 0 0 (t + 30 * Second)%Z "" t t in
      let job := job <| job_LastAttemptID := id |> <| job_TargetRegion := cd_region c |>
                     <| job_State := JobStateAssigned |> <| job_Error := "" |>
                     <| job_UpdatedAt := t |> in
      call (PutAttempt attempt) ≫= λ _,
      call (UpdateExecutionJob job) ≫= λ _,
      sent ← try (d_EnqueueExecution (cd_dispatcher c)
                    (assignmentFor version bundleKey id (job_ID job) (job_Payload job)));
      match sent with
      | Ok _ =>
          t' ← now;
          call (UpdateExecutionJob (job <| job_AttemptCount := (job_AttemptCount job + 1)%Z |>
                                        <| job_UpdatedAt := t' |>))
      | Err e =>
          failAttempt attempt (Error e) ≫= λ _,
          if errors_Is e ErrNoExecutionCapacity then
            t' ← now;
            ignore (call (UpdateExecutionJob (backToQueue job "" t'))) ≫= λ _,
            fail e
          else tryCandidates version bundleKey t job
                 (errs ++ [cd_region c +:+ ": " +:+ Error e]) cs'
      end
  end.

Definition dispatchJobAttempt (version : FunctionVersion) (job : ExecutionJob) : WM unit :=
  t ← now;
  artifactMeta ← try (call (GetArtifact (fv_ArtifactDigest version)));
  match artifactMeta with
  | Err e =>
      ignore (call (UpdateExecutionJob (backToQueue job (Error e) t))) ≫= λ _,
      fail e
  | Ok artifact =>
      ranked ← try (rankDispatchers version);
      match ranked with
      | Err e =>
          ignore (call (UpdateExecutionJob (backToQueue job (Error e) t))) ≫= λ _,
          fail e
      | Ok candidates => tryCandidates version (art_BundleKey artifact) t job [] candidates
      end
  end.

Definition scheduleNext : WM bool :=
  t ← now;
  claimed ← try (call (ClaimNextExecutionJob [JobStateQueued; JobStateRetrying] JobStateScheduling t));
  match claimed with
  | Err e => if errors_Is e ErrNotFound then mret false else fail e
  | Ok job =>
      if (job_MaxRetries job <? job_AttemptCount job)%Z then
        t' ← now;
        call (UpdateExecutionJob (job <| job_State := JobStateFailed |>
          <| job_Error := "job " +:+ job_ID job +:+ " exceeded retry budget" |>
          <| job_UpdatedAt := t' |>)) ≫= λ _,
        mret true
      else
        found ← try (call (GetFunctionVersion (job_FunctionVersionID job)));
        match found with
        | Err e =>
            t' ← now;
            call (UpdateExecutionJob (job <| job_State := JobStateFailed |>
              <| job_Error := Error e |> <| job_UpdatedAt := t' |>)) ≫= λ _,
            mret true
        | Ok version =>
            dispatched ← try (dispatchJobAttempt version job);
            match dispatched with
            | Err e => mret (negb (errors_Is e ErrNoExecutionCapacity))
            | Ok _ => mret true
            end
        end
  end.

(** [None]: still running after [fuel] iterations. *)
Fixpoint schedulePending (fuel : nat) (w : World) : option (result unit * World) :=
  match fuel with
  | O => None
  | S fuel' =>
      match scheduleNext w with
      | (Err e, w') => Some (Err e, w')
      | (Ok false, w') => Some (Ok tt, w')
      | (Ok true, w') => schedulePending fuel' w'
      end
  end.

Definition recoverStaleScheduling : WM Z :=
  if (sc_schedulingTimeout cfg <=? 0)%Z then mret 0%Z else
  t ← now;
  recovered ← call (RequeueStaleExecutionJobs JobStateScheduling JobStateQueued
                      (t - sc_schedulingTimeout cfg)%Z t "scheduling claim expired before dispatch");
  (if (0 <? recovered)%Z then wake else mret tt) ≫= λ _,
  mret recovered.

(** ** Direct dispatch *)

Definition hasDirectDispatcher (version : FunctionVersion) : bool :=
  existsb (λ region,
    match sc_dispatchers cfg !! region with
    | None => false
    | Some d =>
        match d_ExecuteDirect d, d_ExecuteDirectStream d with
        | None, None => false
        | _, _ => true
        end
    end) (fv_Regions version).

Fixpoint directCandidates (version : FunctionVersion) (bundleKey payload : string)
    (onMeta : OnMeta) (onHTTPEvent : OnHTTPEvent)
    (sawDirect : bool) (capacityErrors dispatchErrors : list string) (cs : list candidate) :
    WM DirectExecutionResult :=
  match cs with
  | [] =>
      if negb sawDirect then fail (sentinel ErrDirectInvokeUnavailable)
      else if negb (bool_decide (capacityErrors = [])) && bool_decide (dispatchErrors = []) then
        fail (wrapErr ErrNoExecutionCapacity (": " +:+ Join capacityErrors "; "))
      else if negb (bool_decide (dispatchErrors = [])) then
        fail (plainErr ("direct invoke failed: " +:+ Join dispatchErrors "; "))
      else fail (sentinel ErrDirectInvokeUnavailable)
  | c :: cs' =>
      match d_ExecuteDirect (cd_dispatcher c) with
      | None =>
          directCandidates version bundleKey payload onMeta onHTTPEvent sawDirect
            capacityErrors dispatchErrors cs'
      | Some executeDirect =>
          u1 ← NewString;
          u2 ← NewString;
          let a := assignmentFor version bundleKey ("direct-attempt-" +:+ u1)
                     ("direct-job-" +:+ u2) payload in
          outcome ← try
            match d_ExecuteDirectStream (cd_dispatcher c) with
            | Some stream => stream a onMeta onHTTPEvent
            | None =>
                match onMeta with
                | Some f => modify (f (asg_JobID a) (asg_AttemptID a) StartModeUnset)
                | None => mret tt
                end ≫= λ _, executeDirect a
            end;
          match outcome with
          | Ok res => mret res
          | Err e =>
              let entry := cd_region c +:+ ": " +:+ Error e in
              if errors_Is e ContextCanceled || errors_Is e ContextDeadlineExceeded then fail e
              else if errors_Is e ErrNoExecutionCapacity then
                directCandidates version bundleKey payload onMeta onHTTPEvent true
                  (capacityErrors ++ [entry]) dispatchErrors cs'
              else
                directCandidates version bundleKey payload onMeta onHTTPEvent true
                  capacityErrors (dispatchErrors ++ [entry]) cs'
          end
      end
  end.

Definition ExecuteDirectStream (versionID payload : string) (onMeta : OnMeta)
    (onHTTPEvent : OnHTTPEvent) : WM DirectExecutionResult :=
  version ← call (GetFunctionVersion versionID);
  if negb (bool_decide (fv_State version = FunctionStateReady)) then
    fail (sentinel ErrFunctionVersionNotReady)
  else if negb (hasDirectDispatcher version) then fail (sentinel ErrDirectInvokeUnavailable)
  else
    artifactMeta ← call (GetArtifact (fv_ArtifactDigest version));
    candidates ← rankDispatchers version;
    directCandidates version (art_BundleKey artifactMeta) payload onMeta onHTTPEvent false [] []
      candidates.

Definition ExecuteDirect (versionID payload : string) : WM DirectExecutionResult :=
  ExecuteDirectStream versionID payload None None.

(** ** Warm preparation *)

Fixpoint prepareRegions (version : FunctionVersion) (successes : nat) (errs : list string)
    (regions : list string) : WM (nat * list string) :=
  match regions with
  | [] => mret (successes, errs)
  | region :: rest =>
      match sc_dispatchers cfg !! region with
      | None => prepareRegions version successes (errs ++ [region +:+ ": missing dispatcher"]) rest
      | Some d =>
          match d_PrepareFunctionWarm d with
          | None => prepareRegions version successes errs rest
          | Some prepare =>
              outcome ← try (prepare version);
              match outcome with
              | Err e => prepareRegions version successes (errs ++ [region +:+ ": " +:+ Error e]) rest
              | Ok _ => prepareRegions version (S successes) errs rest
              end
          end
      end
  end.

(** [PrepareFunctionVersion] of a non-nil version. *)
Definition PrepareFunctionVersion (version : FunctionVersion) : WM unit :=
  '(successes, errs) ← prepareRegions version 0 [] (fv_Regions version);
  if negb (bool_decide (successes = 0)) then mret tt
  else if negb (bool_decide (errs = [])) then
    fail (plainErr ("prepare function version " +:+ fv_ID version +:+ ": " +:+ Join errs "; "))
  else mret tt.

End Scheduler.

(** ** Contract of a region dispatcher

    What the scheduler relies on: whatever a dispatcher does with an assignment
    keeps the invariant of the shared store, provided the callbacks it is given
    do. *)
Class DispatcherOk (Inv : World → Prop) (d : Dispatcher) := {
  enqueue_keeps a : preserves Inv (d_EnqueueExecution d a);
  direct_keeps f a : d_ExecuteDirect d = Some f → preserves Inv (f a);
  stream_keeps f a onMeta onHTTPEvent :
    d_ExecuteDirectStream d = Some f →
    (∀ g j t m w, onMeta = Some g → Inv w → Inv (g j t m w)) →
    (∀ g ev, onHTTPEvent = Some g → preserves Inv (g ev)) →
    preserves Inv (f a onMeta onHTTPEvent);
  prepare_keeps f v : d_PrepareFunctionWarm d = Some f → preserves Inv (f v);
}.

(** ** The job invariant along the scheduler *)

Section SchedulerInvariant.
Context `{E : !GoEnv} (HR : rely E jobs_wf) (K : gmap string Coordinator → Prop).
Context (cfg : SchedulerConfig).
Abbreviation Inv := (inv_on jobs_wf K).
Context (Hd : map_Forall (λ _, DispatcherOk Inv) (sc_dispatchers cfg)).

Lemma keeps_enforceExecutionQuota p : preserves Inv (enforceExecutionQuota cfg p).
Proof. unfold enforceExecutionQuota. keep. Qed.
#[local] Hint Resolve keeps_enforceExecutionQuota : keeps.

Lemma keeps_enqueueExecution v payload :
  version_ok v → keeps Inv job_ok (enqueueExecution cfg v payload).
Proof. intros Hv. unfold enqueueExecution. keep. job_crush. Qed.
#[local] Hint Resolve keeps_enqueueExecution : keeps.

Lemma keeps_replayExecution p k h : keeps Inv job_ok (replayExecution p k h).
Proof. unfold replayExecution. keep. Qed.
#[local] Hint Resolve keeps_replayExecution : keeps.

Lemma keeps_DispatchExecutionIdempotent vid payload key :
  keeps Inv job_ok (DispatchExecutionIdempotent cfg vid payload key).
Proof. unfold DispatchExecutionIdempotent. keep. done. Qed.

Lemma keeps_RetryExecution id : keeps Inv job_ok (RetryExecution id).
Proof. unfold RetryExecution. keep. job_crush. Qed.

Lemma keeps_artifactRegionIndex d : preserves Inv (artifactRegionIndex d).
Proof. unfold artifactRegionIndex. keep. Qed.
#[local] Hint Resolve keeps_artifactRegionIndex : keeps.

(** The dispatcher of a candidate keeps the invariant. *)
Definition cand_ok (c : candidate) : Prop := DispatcherOk Inv (cd_dispatcher c).

Lemma keeps_candidateFor ar region d :
  DispatcherOk Inv d → keeps Inv cand_ok (candidateFor cfg ar region d).
Proof.
  intros Hok. unfold candidateFor. eapply keeps_bind; [by apply (keeps_gets _ _ (λ _, True))|].
  intros ? _. keep; done.
Qed.

Lemma keeps_gatherCandidates ar regions :
  keeps Inv (Forall cand_ok) (gatherCandidates cfg ar regions).
Proof.
  induction regions as [|r rest IH]; simpl; [by apply keeps_ret|].
  destruct (sc_dispatchers cfg !! r) eqn:Er; [|done].
  eapply keeps_bind; [by eapply keeps_candidateFor, Hd|]. intros c Hc.
  eapply keeps_bind; [done|]. intros cs Hcs. apply keeps_ret. by constructor.
Qed.
#[local] Hint Resolve keeps_gatherCandidates : keeps.

Lemma keeps_rankDispatchers v : keeps Inv (Forall cand_ok) (rankDispatchers cfg v).
Proof.
  unfold rankDispatchers. eapply keeps_bind; [eauto with keeps|]. intros index _.
  eapply (keeps_bind _ _ _ (λ _, True)); [keep; done|]. intros ar _. keep.
  rewrite SliceStable_perm. done.
Qed.
#[local] Hint Resolve keeps_rankDispatchers : keeps.

Lemma keeps_failAttempt a e : preserves Inv (failAttempt a e).
Proof. unfold failAttempt. keep. Qed.
#[local] Hint Resolve keeps_failAttempt : keeps.

Lemma keeps_tryCandidates v bk t errs job cs :
  attemptable job → Forall cand_ok cs → preserves Inv (tryCandidates v bk t job errs cs).
Proof.
  intros Hj Hcs. revert job errs Hj. induction Hcs as [|c cs Hc Hcs IH]; intros job errs Hj; simpl.
  - keep.
  - pose proof (@enqueue_keeps _ _ Hc) as He. keep.
Qed.
#[local] Hint Resolve keeps_tryCandidates : keeps.

Lemma keeps_dispatchJobAttempt v job :
  attemptable job → preserves Inv (dispatchJobAttempt cfg v job).
Proof. intros Hj. unfold dispatchJobAttempt. keep. Qed.
#[local] Hint Resolve keeps_dispatchJobAttempt : keeps.

Lemma keeps_scheduleNext : preserves Inv (scheduleNext cfg).
Proof.
  unfold scheduleNext. eapply keeps_bind; [eauto with keeps|]. intros t _.
  eapply keeps_bind; [by apply keeps_try, keeps_Claim|]. intros. keep.
Qed.

Lemma keeps_schedulePending fuel w r w' :
  Inv w → schedulePending cfg fuel w = Some (r, w') → Inv w'.
Proof.
  revert w. induction fuel as [|fuel IH]; intros w Hw; simpl; [done|].
  destruct (keeps_scheduleNext w Hw) as [Hw' _].
  destruct (scheduleNext cfg w) as [[[]|e] w1]; simpl in *.
  - by apply IH.
  - by intros [= _ <-].
  - by intros [= _ <-].
Qed.

Lemma keeps_recoverStaleScheduling : preserves Inv (recoverStaleScheduling cfg).
Proof.
  unfold recoverStaleScheduling. keep.
Qed.

Section Direct.
Context (onMeta : OnMeta) (onHTTPEvent : OnHTTPEvent).
Context (Hmeta : ∀ g j t m w, onMeta = Some g → Inv w → Inv (g j t m w)).
Context (Hevent : ∀ g ev, onHTTPEvent = Some g → preserves Inv (g ev)).

Lemma keeps_directCandidates v bk payload saw ce de cs :
  Forall cand_ok cs →
  preserves Inv (directCandidates v bk payload onMeta onHTTPEvent saw ce de cs).
Proof.
  intros Hcs. revert saw ce de. induction Hcs as [|c cs Hc Hcs IH]; intros saw ce de; simpl.
  - keep.
  - destruct (d_ExecuteDirect (cd_dispatcher c)) as [f|] eqn:Ef; [|done].
    pose proof (λ a, @direct_keeps _ _ Hc f a Ef) as Hf.
    do 2 (eapply keeps_bind; [eauto with keeps|]; intros ? _).
    eapply keeps_bind; [apply (keeps_try _ _ (λ _, True))|].
    + destruct (d_ExecuteDirectStream (cd_dispatcher c)) as [g|] eqn:Eg.
      * by apply (@stream_keeps _ _ Hc g).
      * eapply (keeps_bind _ _ _ (λ _, True)); [|intros; apply Hf].
        destruct onMeta as [h|]; [|by apply keeps_ret].
        apply keeps_modify; [done|]. intros. by apply (Hmeta h).
    + intros. keep.
Qed.
#[local] Hint Resolve keeps_directCandidates : keeps.

Lemma keeps_ExecuteDirectStream vid payload :
  preserves Inv (ExecuteDirectStream cfg vid payload onMeta onHTTPEvent).
Proof. unfold ExecuteDirectStream. keep. Qed.

End Direct.

Lemma keeps_prepareRegions v n errs regions : preserves Inv (prepareRegions cfg v n errs regions).
Proof.
  revert n errs. induction regions as [|r rest IH]; intros n errs; simpl; [by apply keeps_ret|].
  destruct (sc_dispatchers cfg !! r) as [d|] eqn:Er; [|done].
  destruct (d_PrepareFunctionWarm d) as [f|] eqn:Ef; [|done].
  pose proof (λ v, @prepare_keeps _ _ (Hd _ _ Er) f v Ef) as Hf. keep.
Qed.
#[local] Hint Resolve keeps_prepareRegions : keeps.

Lemma keeps_PrepareFunctionVersion v : preserves Inv (PrepareFunctionVersion cfg v).
Proof. unfold PrepareFunctionVersion. keep. Qed.

End SchedulerInvariant.
