(* ===== verification/SchedulerFacts.v ===== *)
(** * SchedulerFacts: what the scheduler guarantees

    Theorems on [Scheduler] in a quiet environment: the execution quota, the
    idempotent dispatch of invocations, the ranking of regions, and the
    scheduling loop, which drains the queue when every job can be served and
    never returns when one cannot. *)

From stdpp Require Import base decidable tactics numbers list gmap strings sorting.
From S2P Require Import Prelude Domain MemStore World Jobs Scheduler.

(** ** Enqueueing *)

Section Quiet.
Context (E : GoEnv) (Hq : quiet E) (cfg : SchedulerConfig).

(** The number the quota is about. *)
Definition activeCount (s : Store) (projectID : string) : Z :=
  count_map (λ j, bool_decide (job_ProjectID j = projectID) && in_states activeStates j)
    (st_executionJobs s).

Definition quotaFull (s : Store) (projectID : string) : bool :=
  (0 <? sc_maxActiveExecutionJobsPerProject cfg)%Z &&
  (sc_maxActiveExecutionJobsPerProject cfg <=? activeCount s projectID)%Z.

Definition newJob (v : FunctionVersion) (payload id : string) (t : Time) : ExecutionJob :=
  mkExecutionJob id (fv_ID v) (fv_ProjectID v) "" JobStateQueued payload (fv_MaxRetries v)
    0 "" "" None t t.

Lemma run_enforceExecutionQuota p w :
  ∃ r n, enforceExecutionQuota cfg p w = (r, w <| w_calls := n |>) ∧
    if quotaFull (w_store w) p
    then ∃ e, r = Err e ∧ errors_Is e ErrProjectExecutionQuota = true
    else r = Ok tt.
Proof.
  unfold enforceExecutionQuota, quotaFull. rewrite Z.leb_antisym.
  destruct (0 <? sc_maxActiveExecutionJobsPerProject cfg)%Z; simpl.
  2:{ exists (Ok tt), (w_calls w). by destruct w. }
  erewrite run_bind by (by apply run_call).
  unfold activeCount. destruct (_ <=? _)%Z; repeat eexists; by destruct w.
Qed.

Lemma run_enqueueExecution v payload w :
  ∃ r w', enqueueExecution cfg v payload w = (r, w') ∧ w_coords w' = w_coords w ∧
    if quotaFull (w_store w) (fv_ProjectID v)
    then (∃ e, r = Err e ∧ errors_Is e ErrProjectExecutionQuota = true) ∧ w_store w' = w_store w
    else ∃ job, job = newJob v payload (env_uuid (w_uid w)) (env_clock (w_tick w)) ∧
      r = Ok job ∧
      w_store w' = (w_store w)
        <| st_executionJobs := <[job_ID job := job]> (st_executionJobs (w_store w)) |> ∧
      w_wake w' = true.
Proof.
  unfold enqueueExecution.
  destruct (run_enforceExecutionQuota (fv_ProjectID v) w) as (r & n & Er & Hr).
  destruct (quotaFull _ _).
  - destruct Hr as (e & -> & He). erewrite run_bind_err by done. repeat eexists; eauto.
  - subst r. erewrite run_bind by done. erewrite run_bind by done. erewrite run_bind by done.
    cbn beta zeta. erewrite run_bind by (by apply run_call). by repeat eexists.
Qed.

(** The idempotency record a finished request leaves behind. *)
Definition completedRecord (projectID key requestHash jobID : string) (t t' : Time) :
    IdempotencyRecord :=
  mkIdempotencyRecord "invoke" projectID key requestHash jobID "execution_job"
    IdempotencyStatusCompleted t t'.

Lemma run_dispatch_first vid payload key v h w :
  st_functions (w_store w) !! vid = Some v →
  key ≠ "" →
  invokeRequestHash vid payload = Ok h →
  st_idempotency (w_store w) !! idempotencyKey "invoke" (fv_ProjectID v) key = None →
  quotaFull (w_store w) (fv_ProjectID v) = false →
  ∃ job t t' w', DispatchExecutionIdempotent cfg vid payload key w = (Ok job, w') ∧
    job = newJob v payload (env_uuid (w_uid w)) t ∧
    w_store w' = (w_store w)
      <| st_executionJobs := <[job_ID job := job]> (st_executionJobs (w_store w)) |>
      <| st_idempotency := <[idempotencyKey "invoke" (fv_ProjectID v) key :=
           completedRecord (fv_ProjectID v) key h (job_ID job) (env_clock (w_tick w)) t']>
             (st_idempotency (w_store w)) |>.
Proof.
  intros Hv Hk Hh Hn Hquota. unfold DispatchExecutionIdempotent, GetFunctionVersion.
  erewrite run_bind by (by apply run_find).
  rewrite (bool_decide_eq_false_2 (key = "")) by done. cbn [negb].
  erewrite run_bind by (unfold lift; by rewrite Hh).
  erewrite run_bind by done. cbn beta zeta.
  erewrite run_bind.
  2:{ eapply run_try, run_call; [done|]. unfold CreateIdempotencyRecord. cbn [w_store field_set].
      unfold record_key. cbn [idem_Scope idem_ProjectID idem_Key]. rewrite Hn. reflexivity. }
  cbn iota.
  match goal with |- context [mbind _ _ ?w0] =>
    destruct (run_enqueueExecution v payload w0) as (r & w' & Er & _ & Hr) end.
  erewrite run_bind by (by apply run_try). 
  unfold quotaFull, activeCount in Hr, Hquota. simpl in Hr. rewrite Hquota in Hr.
  destruct Hr as (job & Ej & -> & Hs & _).
  erewrite run_bind by done. cbn beta zeta.
  erewrite run_bind by (by apply run_call).
  do 4 eexists. split; [done|]. split; [done|]. simpl. rewrite Hs. simpl.
  unfold record_key. simpl. rewrite insert_insert_eq. reflexivity.
Qed.

Lemma run_dispatch_replay vid payload key v h w record :
  st_functions (w_store w) !! vid = Some v →
  key ≠ "" →
  invokeRequestHash vid payload = Ok h →
  st_idempotency (w_store w) !! idempotencyKey "invoke" (fv_ProjectID v) key = Some record →
  ∃ r w', DispatchExecutionIdempotent cfg vid payload key w = (r, w') ∧ w_store w' = w_store w ∧
    r = if bool_decide (idem_RequestHash record = h) then
          if bool_decide (idem_Status record = IdempotencyStatusCompleted) &&
             negb (bool_decide (idem_ResourceID record = ""))
          then (GetExecutionJob (idem_ResourceID record) (w_store w)).1
          else Err (sentinel ErrIdempotencyInProgress)
        else Err (sentinel ErrIdempotencyConflict).
Proof.
  intros Hv Hk Hh Hr. unfold DispatchExecutionIdempotent, GetFunctionVersion.
  erewrite run_bind by (by apply run_find).
  rewrite (bool_decide_eq_false_2 (key = "")) by done. cbn [negb].
  erewrite run_bind by (unfold lift; by rewrite Hh).
  erewrite run_bind by done. cbn beta zeta.
  erewrite run_bind.
  2:{ eapply run_try, run_call; [done|]. unfold CreateIdempotencyRecord. cbn [w_store field_set].
      unfold record_key. cbn [idem_Scope idem_ProjectID idem_Key]. rewrite Hr. reflexivity. }
  cbn iota. unfold errors_Is at 1.
  rewrite bool_decide_eq_true_2 by (simpl; set_solver).
  unfold replayExecution. unfold GetIdempotencyRecord.
  erewrite run_bind by (by apply run_find).
  destruct (bool_decide (idem_RequestHash record = h)); simpl; [|by repeat eexists].
  destruct (bool_decide (idem_Status record = _)); simpl; [|by repeat eexists].
  destruct (bool_decide (idem_ResourceID record = "")); simpl; [by repeat eexists|].
  unfold GetExecutionJob.
  destruct (st_executionJobs (w_store w) !! idem_ResourceID record) eqn:Ej.
  - erewrite run_find by done. do 2 eexists. split; [done|]. split; [done|].
    unfold find. by rewrite Ej.
  - erewrite run_find_none by done. do 2 eexists. split; [done|]. split; [done|].
    unfold find. by rewrite Ej.
Qed.
End Quiet.

(** ** Ranking *)

#[export] Instance rank_less_swo : StrictWeakOrder rank_less.
Proof.
  eapply (swo_ext (lex (less_flag cd_healthy) (lex (less_flag cd_artifactLocal)
    (lex (less_by cd_backlog)
    (lex (flip_less (less_by (λ c, rs_FunctionWarm (cd_stats c))))
    (lex (flip_less (less_by (λ c, rs_BlankWarm (cd_stats c))))
    (lex (flip_less (less_by (λ c, rs_AvailableHosts (cd_stats c))))
    (lex (flip_less (less_by cd_lastHeartbeat)) (less_str cd_region)))))))));
    [|apply _].
  intros x y. by rewrite !lex_flag_if, lex_by_if, !lex_by_flip_if.
Qed.

Section Rank.
Context (E : GoEnv) (Hq : quiet E) (cfg : SchedulerConfig).

Definition activeInRegion (s : Store) (region : string) : Z :=
  count_map (λ j, bool_decide (job_TargetRegion j = region) &&
         negb (in_states [JobStateSucceeded; JobStateFailed] j)) (st_executionJobs s).

(** What a candidate says about its region. *)
Definition candidate_spec (s : Store) (regions : gset string) (c : candidate) : Prop :=
  sc_dispatchers cfg !! cd_region c = Some (cd_dispatcher c) ∧
  cd_backlog c = activeInRegion s (cd_region c) ∧
  cd_artifactLocal c = bool_decide (cd_region c ∈ regions) ∧
  match st_regions s !! cd_region c with
  | None => cd_healthy c = true ∧ cd_lastHeartbeat c = 0%Z
  | Some snap => (∃ t, cd_healthy c = regionHealthy snap t (sc_healthyWithin cfg)) ∧
      cd_lastHeartbeat c = reg_LastHeartbeatAt snap
  end.

Lemma run_candidateFor ar region d w :
  sc_dispatchers cfg !! region = Some d →
  ∃ c w', candidateFor cfg ar region d w = (Ok c, w') ∧ same_state w w' ∧
    cd_region c = region ∧ candidate_spec (w_store w) ar c.
Proof.
  intros Hd. unfold candidateFor. erewrite run_bind by done.
  erewrite run_bind by (by apply run_call). unfold GetRegion.
  destruct (st_regions (w_store w) !! region) as [snap|] eqn:Er.
  - erewrite run_bind by (by eapply run_try, run_find). cbn iota.
    erewrite run_bind by done. do 2 eexists. split; [done|]. split; [done|]. split; [done|].
    unfold candidate_spec. simpl. rewrite Er. split_and!; eauto.
  - erewrite run_bind by (by eapply run_try, run_find_none). cbn iota. unfold errors_Is.
    rewrite bool_decide_eq_true_2 by (simpl; set_solver).
    do 2 eexists. split; [done|]. split; [done|]. split; [done|].
    unfold candidate_spec. simpl. by rewrite Er.
Qed.

Definition has_dispatcher (region : string) : bool :=
  match sc_dispatchers cfg !! region with Some _ => true | None => false end.

Lemma run_gatherCandidates ar regions w :
  ∃ cs w', gatherCandidates cfg ar regions w = (Ok cs, w') ∧ same_state w w' ∧
    cd_region <$> cs = filter (λ r, has_dispatcher r = true) regions ∧
    Forall (candidate_spec (w_store w) ar) cs.
Proof.
  revert w. induction regions as [|r rest IH]; intros w; simpl.
  { exists [], w. by repeat split. }
  destruct (sc_dispatchers cfg !! r) as [d|] eqn:Ed.
  2:{ rewrite filter_cons_False; [apply IH|]. unfold has_dispatcher. by rewrite Ed. }
  rewrite filter_cons_True by (unfold has_dispatcher; by rewrite Ed).
  destruct (run_candidateFor ar r d w Ed) as (c & w1 & E1 & S1 & R1 & C1).
  destruct (IH w1) as (cs & w2 & E2 & S2 & R2 & C2).
  erewrite run_bind by done. erewrite run_bind by done.
  exists (c :: cs), w2. split; [done|]. split; [by etrans|]. split.
  - by rewrite fmap_cons, R1, R2.
  - constructor; [done|]. destruct S1 as (S1 & _). by rewrite S1 in C2.
Qed.

(** The regions that hold the version's artifact. *)
Definition artifactRegionsOf (s : Store) (digest : string) : gset string :=
  if bool_decide (digest = "") then ∅
  else match st_artifacts s !! digest with Some a => dom (art_Regions a) | None => ∅ end.

Lemma run_rankDispatchers v w :
  ∃ r w', rankDispatchers cfg v w = (r, w') ∧ same_state w w' ∧
    match r with
    | Ok cs => cs ≠ [] ∧
        cd_region <$> cs ≡ₚ filter (λ r, has_dispatcher r = true) (fv_Regions v) ∧
        Forall (candidate_spec (w_store w) (artifactRegionsOf (w_store w) (fv_ArtifactDigest v))) cs ∧
        StronglySorted (not_after rank_less) cs
    | Err e => err_is e = [] ∧ Forall (λ r, has_dispatcher r = false) (fv_Regions v)
    end.
Proof.
  unfold rankDispatchers.
  assert (∃ w1, ∀ B (f : gset string → WM B),
    ((index ← try (artifactRegionIndex (fv_ArtifactDigest v));
      ar ← match index with
           | Ok regions => mret regions
           | Err e => if errors_Is e ErrNotFound then mret ∅ else fail e
           end; f ar) : WM B) w =
    f (artifactRegionsOf (w_store w) (fv_ArtifactDigest v)) w1 ∧ same_state w w1) as [w1 H].
  { unfold artifactRegionIndex, artifactRegionsOf, GetArtifact.
    case_bool_decide; [by exists w|].
    destruct (st_artifacts (w_store w) !! fv_ArtifactDigest v) as [a|] eqn:Ea.
    - eexists. intros B f.
      erewrite run_bind by (eapply run_try; by erewrite run_bind by (by apply run_find)).
      by erewrite run_bind by done.
    - eexists. intros B f.
      erewrite run_bind by (eapply run_try; by erewrite run_bind_err by (by apply run_find_none)).
      cbn iota. unfold errors_Is. rewrite bool_decide_eq_true_2 by (simpl; set_solver).
      by erewrite run_bind by done. }
  rewrite (proj1 (H _ _)). destruct (H unit (λ _, mret tt)) as [_ S1].
  destruct (run_gatherCandidates (artifactRegionsOf (w_store w) (fv_ArtifactDigest v))
    (fv_Regions v) w1) as (cs & w2 & E2 & S2 & R2 & C2).
  erewrite run_bind by done.
  assert (same_state w w2) as S3 by (by etrans).
  destruct S1 as (Es & _). rewrite Es in C2.
  destruct cs as [|c cs].
  - do 2 eexists. split; [done|]. split; [done|]. split; [done|].
    symmetry in R2. simpl in R2.
    apply Forall_forall. intros r Hr. destruct (has_dispatcher r) eqn:Eh; [|done].
    exfalso. apply (not_elem_of_nil r). change (r ∈ @nil string). rewrite <- R2.
    by apply list_elem_of_filter.
  - exists (Ok (SliceStable rank_less (c :: cs))), w2. split; [done|]. split; [done|]. split_and!.
    + intros Hn. by apply SliceStable_nil_iff in Hn.
    + by rewrite SliceStable_perm, R2.
    + by rewrite SliceStable_perm.
    + apply SliceStable_sorted. apply _.
Qed.

End Rank.

(** ** Draining the queue *)

Definition claimStates : list JobState := [JobStateQueued; JobStateRetrying].
Definition claimable (j : ExecutionJob) : bool := in_states claimStates j.
Definition pendingJobs (w : World) : Z := count_map claimable (st_executionJobs (w_store w)).

Definition jobs_keyed (s : Store) : Prop := keyed job_ID (st_executionJobs s).

(** The part of the store a dispatcher leaves alone when it takes an
    assignment. *)
Definition same_queue (w w' : World) : Prop :=
  st_executionJobs (w_store w') = st_executionJobs (w_store w) ∧
  st_functions (w_store w') = st_functions (w_store w) ∧
  st_artifacts (w_store w') = st_artifacts (w_store w).

(** What termination needs of a dispatcher: for an assignment whose attempt is
    stored, it either takes it or reports that it has no capacity. *)
Class PromptDispatcher (Q : World → Prop) (d : Dispatcher) := prompt_enqueue :
  ∀ a w, Q w → is_Some (st_attempts (w_store w) !! asg_AttemptID a) →
    ∃ r w', d_EnqueueExecution d a w = (r, w') ∧ same_queue w w' ∧ Q w' ∧
      match r with Ok _ => True | Err e => errors_Is e ErrNoExecutionCapacity = true end.

Section Claim.
Context (E : GoEnv) (Hq : quiet E).

Lemma run_claim w t :
  jobs_keyed (w_store w) →
  ∃ r w', call (ClaimNextExecutionJob claimStates JobStateScheduling t) w = (r, w') ∧
    w_coords w' = w_coords w ∧
    match r with
    | Ok j' => ∃ j, st_executionJobs (w_store w) !! job_ID j = Some j ∧ claimable j = true ∧
        j' = j <| job_State := JobStateScheduling |> <| job_UpdatedAt := t |> ∧
        w_store w' = (w_store w)
          <| st_executionJobs := <[job_ID j := j']> (st_executionJobs (w_store w)) |>
    | Err e => errors_Is e ErrNotFound = true ∧ w_store w' = w_store w ∧ pendingJobs w = 0%Z
    end.
Proof.
  intros Hk. unfold ClaimNextExecutionJob.
  pose proof (claim_fold_spec claimStates (map_iter 399 (st_executionJobs (w_store w))).*2) as Hc.
  destruct (foldl (claim_pick claimStates) None _) as [j|] eqn:Ef; simpl in *.
  - destruct Hc as [[Hj He] _]. apply elem_of_iter_snd in Hj as [k Hkj].
    assert (job_ID j = k) as <- by apply (keyed_lookup _ _ _ _ Hk Hkj).
    do 2 eexists. split; [apply run_call; [done|]; by rewrite Ef|]. split; [done|]. by exists j.
  - do 2 eexists. split; [apply run_call; [done|]; by rewrite Ef|]. split; [done|].
    split_and!; [done|done|]. apply count_map_zero. intros k x Hx. apply Hc, elem_of_iter_snd. eauto.
Qed.

End Claim.

(** Replacing the claimed job by one that is not claimable. *)
Lemma pending_claimed (m : gmap string ExecutionJob) j j' :
  m !! job_ID j = Some j → claimable j = true → claimable j' = false →
  count_map claimable (<[job_ID j := j']> m) = (count_map claimable m - 1)%Z.
Proof. intros Hj H1 H2. rewrite count_map_insert, Hj, H1, H2. lia. Qed.

(** *** Jobs whose artifact is missing *)

(** The scheduler will try the job, and cannot find its artifact. *)
Definition stuck (s : Store) (j : ExecutionJob) : Prop :=
  (job_AttemptCount j ≤ job_MaxRetries j)%Z ∧
  ∃ v, st_functions s !! job_FunctionVersionID j = Some v ∧
       st_artifacts s !! fv_ArtifactDigest v = None.

Record all_stuck (w : World) : Prop := {
  as_keyed : jobs_keyed (w_store w);
  as_stuck : ∀ k j, st_executionJobs (w_store w) !! k = Some j → claimable j = true →
    stuck (w_store w) j;
  as_some : ∃ k j, st_executionJobs (w_store w) !! k = Some j ∧ claimable j = true;
}.

Lemma scheduleNext_stuck (E : GoEnv) (Hq : quiet E) cfg w :
  all_stuck w → ∃ w', scheduleNext cfg w = (Ok true, w') ∧ all_stuck w'.
Proof.
  intros [Hk Hst Hs]. unfold scheduleNext. erewrite run_bind by done.
  match goal with |- context [mbind _ _ ?w0] => set (w1 := w0) end.
  destruct (run_claim E Hq w1 (env_clock (w_tick w)) Hk) as (r & w2 & Ec & _ & Hr).
  erewrite run_bind by (by apply run_try).
  destruct r as [j'|e].
  2:{ exfalso. destruct Hr as (_ & _ & Hz). destruct Hs as (k & j & Hj & Hc).
      unfold pendingJobs in Hz. change (w_store w1) with (w_store w) in Hz.
      pose proof (pending_claimed (st_executionJobs (w_store w)) j
        (j <| job_State := JobStateFailed |>)) as Hp.
      rewrite (keyed_lookup _ _ _ _ Hk Hj) in Hp. specialize (Hp Hj Hc eq_refl).
      pose proof (count_map_nonneg claimable
        (<[k := j <| job_State := JobStateFailed |>]> (st_executionJobs (w_store w)))). lia. }
  destruct Hr as (j & Hj & Hc & -> & Es). change (w_store w1) with (w_store w) in *.
  destruct (Hst _ _ Hj Hc) as (Hb & v & Hv & Ha). simpl.
  rewrite (proj2 (Z.ltb_ge _ _) Hb).
  unfold GetFunctionVersion. erewrite run_bind by (by eapply run_try, run_find; rewrite ?Es).
  cbn iota. unfold dispatchJobAttempt, GetArtifact.
  erewrite run_bind.
  2:{ eapply run_try. erewrite run_bind by done.
      erewrite run_bind by (by eapply run_try, run_find_none; simpl; rewrite ?Es).
      cbn iota. erewrite run_bind by (by eapply run_ignore, run_call). reflexivity. }
  cbn iota. eexists. split; [done|].
  split; simpl; rewrite Es; simpl; rewrite ?insert_insert_eq.
  - by apply keyed_insert_at.
  - intros k i. rewrite lookup_insert_Some. intros [[<- <-]|[Hne Hi]] Hci.
    + split; [done|]. by exists v.
    + by apply (Hst k).
  - do 2 eexists. split; [apply lookup_insert_eq|]. done.
Qed.

(** *** Jobs that can be served *)

(** A job went back to the queue because the region it was offered to had no
    capacity. *)
Definition refused (w : World) : Prop :=
  ∃ j a, st_executionJobs (w_store w) !! job_ID j = Some j ∧ job_State j = JobStateQueued ∧
    st_attempts (w_store w) !! job_LastAttemptID j = Some a ∧ att_State a = AttemptStateFailed.

Section Drain.
Context (E : GoEnv) (Hq : quiet E) (cfg : SchedulerConfig).
Context (Q : World → Prop) (HQ : ∀ w w', w_coords w' = w_coords w → Q w → Q w').
Context (Hd : map_Forall (λ _, PromptDispatcher Q) (sc_dispatchers cfg)).

(** Every function version has its artifact and a region with a dispatcher. *)
Definition servable (s : Store) : Prop := ∀ vid v, st_functions s !! vid = Some v →
  is_Some (st_artifacts s !! fv_ArtifactDigest v) ∧
  ∃ r, r ∈ fv_Regions v ∧ has_dispatcher cfg r = true.

(** The outcome of offering [job] to the first candidate. *)
Definition offered (job : ExecutionJob) (w : World) (r : result unit) (w' : World) : Prop :=
  Q w' ∧ st_functions (w_store w') = st_functions (w_store w) ∧
  st_artifacts (w_store w') = st_artifacts (w_store w) ∧
  ∃ j', job_ID j' = job_ID job ∧
    st_executionJobs (w_store w') = <[job_ID job := j']> (st_executionJobs (w_store w)) ∧
    match r with
    | Ok _ => job_State j' = JobStateAssigned ∧ job_AttemptCount j' = (job_AttemptCount job + 1)%Z
    | Err e => errors_Is e ErrNoExecutionCapacity = true ∧ job_State j' = JobStateQueued ∧
        ∃ a, st_attempts (w_store w') !! job_LastAttemptID j' = Some a ∧
             att_State a = AttemptStateFailed
    end.

Lemma run_tryCandidates v bk t job errs c cs w :
  PromptDispatcher Q (cd_dispatcher c) → Q w →
  ∃ r w', tryCandidates v bk t job errs (c :: cs) w = (r, w') ∧ offered job w r w'.
Proof.
  intros Hc HQw. simpl. erewrite run_bind by done. cbn zeta.
  erewrite run_bind by (by apply run_call). erewrite run_bind by (by apply run_call).
  match goal with |- context [mbind ?f (try ?m) ?w0] => set (w1 := w0); set (k := f) end.
  set (id := env_uuid (w_uid w)) in *.
  destruct (Hc (assignmentFor v bk id (job_ID job) (job_Payload job)) w1)
    as (r & w2 & Ee & (Ej & Ef & Ea) & HQ2 & Hr).
  { by apply (HQ w). } { simpl. rewrite lookup_insert_eq. done. }
  erewrite run_bind by (by apply run_try). subst k. cbn beta.
  assert (st_executionJobs (w_store w1) = <[job_ID job := job <| job_LastAttemptID := id |>
    <| job_TargetRegion := cd_region c |> <| job_State := JobStateAssigned |> <| job_Error := "" |>
    <| job_UpdatedAt := t |> ]> (st_executionJobs (w_store w))) as Ej1 by reflexivity.
  destruct r as [u|e].
  - erewrite run_bind by done. erewrite run_call by done.
    do 2 eexists. split; [done|]. split; [by apply (HQ w2)|]. simpl.
    split; [by rewrite Ef|]. split; [by rewrite Ea|]. eexists. split; [|split].
    2:{ rewrite Ej, Ej1, insert_insert_eq. reflexivity. }
    all: done.
  - unfold failAttempt. erewrite run_bind.
    2:{ erewrite run_bind by done. erewrite run_bind by done. by eapply run_ignore, run_call. }
    rewrite Hr. erewrite run_bind by done.
    erewrite run_bind by (by eapply run_ignore, run_call).
    do 2 eexists. split; [done|]. split; [by apply (HQ w2)|]. simpl.
    split; [by rewrite Ef|]. split; [by rewrite Ea|]. eexists. split; [|split].
    2:{ rewrite Ej, Ej1, insert_insert_eq. reflexivity. }
    + done.
    + split_and!; [done..|]. eexists. simpl. rewrite lookup_insert_eq. done.
Qed.

Lemma run_dispatchJobAttempt vid v job w :
  st_functions (w_store w) !! vid = Some v → servable (w_store w) → Q w →
  ∃ r w', dispatchJobAttempt cfg v job w = (r, w') ∧ offered job w r w'.
Proof.
  intros Hv Hs HQw. unfold dispatchJobAttempt. erewrite run_bind by done.
  destruct (Hs _ _ Hv) as [[art Hart] (reg & Hr & Hdisp)]. unfold GetArtifact.
  erewrite run_bind by (by eapply run_try, run_find). cbn iota.
  match goal with |- context [mbind _ _ ?w0] => set (w1 := w0) end.
  destruct (run_rankDispatchers E Hq cfg v w1) as (r & w2 & Er & (S1 & S2 & S3) & H).
  erewrite run_bind by (by apply run_try).
  destruct r as [cs|e].
  2:{ exfalso. destruct H as [_ H]. rewrite Forall_forall in H. rewrite (H _ Hr) in Hdisp. done. }
  destruct H as (Hne & _ & Hcs & _). destruct cs as [|c cs]; [done|].
  apply Forall_cons in Hcs as [(Hc & _) _].
  destruct (run_tryCandidates v (art_BundleKey art) (env_clock (w_tick w)) job [] c cs w2)
    as (r & w' & Et & Ho).
  { by eapply Hd. } { by apply (HQ w). }
  exists r, w'. split; [done|]. unfold offered in *. by rewrite S1 in Ho.
Qed.

(** What one pass of the loop leaves behind. *)
Definition pass_ok (w w' : World) (b : bool) : Prop :=
  Q w' ∧ jobs_keyed (w_store w') ∧ servable (w_store w') ∧
  if b then pendingJobs w' = (pendingJobs w - 1)%Z else pendingJobs w' = 0%Z ∨ refused w'.

(** The claimed job was moved out of the queue. *)
Lemma pass_claimed w w' j j' :
  Q w' → jobs_keyed (w_store w) → servable (w_store w) →
  st_functions (w_store w') = st_functions (w_store w) →
  st_artifacts (w_store w') = st_artifacts (w_store w) →
  st_executionJobs (w_store w) !! job_ID j = Some j → claimable j = true →
  st_executionJobs (w_store w') = <[job_ID j := j']> (st_executionJobs (w_store w)) →
  job_ID j' = job_ID j → claimable j' = false →
  pass_ok w w' true.
Proof.
  intros HQ' Hk Hs Ef Ea Hj Hc Ej Hid Hc'. split; [done|]. split_and!.
  - unfold jobs_keyed. rewrite Ej. by apply keyed_insert_at.
  - intros vid v. rewrite Ef, Ea. apply Hs.
  - unfold pendingJobs. rewrite Ej. by apply pending_claimed.
Qed.

(** The claimed job, marked failed. *)
Lemma run_giveUp w w2 j j1 err :
  Q w → jobs_keyed (w_store w) → servable (w_store w) →
  w_coords w2 = w_coords w →
  st_executionJobs (w_store w) !! job_ID j = Some j → claimable j = true →
  job_ID j1 = job_ID j →
  w_store w2 = (w_store w) <| st_executionJobs := <[job_ID j := j1]> (st_executionJobs (w_store w)) |> →
  ∃ w', (t' ← now; call (UpdateExecutionJob (j1 <| job_State := JobStateFailed |>
           <| job_Error := err |> <| job_UpdatedAt := t' |>)) ≫= λ _, mret true) w2 = (Ok true, w') ∧
    pass_ok w w' true.
Proof.
  intros HQw Hk Hs Ec Hj Hc Hid Es.
  erewrite run_bind by done. erewrite run_bind by (by apply run_call).
  eexists. split; [done|].
  apply (pass_claimed w _ j (j1 <| job_State := JobStateFailed |> <| job_Error := err |>
    <| job_UpdatedAt := env_clock (w_tick w2) |>)); simpl; try done.
  - by apply (HQ w).
  - by rewrite Es.
  - by rewrite Es.
  - rewrite Es, Hid. simpl. by rewrite insert_insert_eq.
Qed.

(** The claimed job, offered to a region. *)
Lemma run_offer w w2 j j1 v :
  Q w → jobs_keyed (w_store w) → servable (w_store w) →
  w_coords w2 = w_coords w →
  st_executionJobs (w_store w) !! job_ID j = Some j → claimable j = true →
  st_functions (w_store w) !! job_FunctionVersionID j = Some v →
  job_ID j1 = job_ID j →
  w_store w2 = (w_store w) <| st_executionJobs := <[job_ID j := j1]> (st_executionJobs (w_store w)) |> →
  ∃ b w', (dispatched ← try (dispatchJobAttempt cfg v j1);
           match dispatched with
           | Err e => mret (negb (errors_Is e ErrNoExecutionCapacity))
           | Ok _ => mret true
           end) w2 = (Ok b, w') ∧ pass_ok w w' b.
Proof.
  intros HQw Hk Hs Ec Hj Hc Hv Hid Es.
  destruct (run_dispatchJobAttempt (job_FunctionVersionID j) v j1 w2)
    as (r & w' & Er & HQ' & Ef & Ea & j'' & Hid' & Ej & Hr).
  { by rewrite Es. } { rewrite Es. exact Hs. } { by apply (HQ w). }
  erewrite run_bind by (by apply run_try).
  rewrite Es in Ef, Ea, Ej. simpl in Ef, Ea, Ej. rewrite Hid, insert_insert_eq in Ej.
  assert (job_ID j'' = job_ID j) as Hid'' by congruence.
  destruct r as [u|e].
  - exists true, w'. split; [done|]. eapply (pass_claimed w _ j j''); try done.
    unfold claimable, in_states. by rewrite (proj1 Hr).
  - destruct Hr as (He & Hst & a & Ha & Hfa). rewrite He. exists false, w'. split; [done|].
    split; [done|]. split_and!.
    + unfold jobs_keyed. rewrite Ej. by apply keyed_insert_at.
    + intros vid v0. rewrite Ef, Ea. apply Hs.
    + right. exists j'', a. rewrite Ej, Hid'', lookup_insert_eq. done.
Qed.

Lemma scheduleNext_progress w :
  Q w → jobs_keyed (w_store w) → servable (w_store w) →
  ∃ b w', scheduleNext cfg w = (Ok b, w') ∧ pass_ok w w' b.
Proof.
  intros HQw Hk Hs. unfold scheduleNext. erewrite run_bind by done.
  match goal with |- context [mbind _ _ ?w0] => set (w1 := w0) end.
  destruct (run_claim E Hq w1 (env_clock (w_tick w)) Hk) as (r & w2 & Ec & Ecoord & Hr).
  erewrite run_bind by (by apply run_try). destruct r as [j'|e].
  2:{ destruct Hr as (He & Es & Hz). rewrite He. exists false, w2. split; [done|].
      unfold pass_ok, pendingJobs in *. rewrite Es.
      split_and!; try done; [by apply (HQ w)|by left]. }
  destruct Hr as (j & Hj & Hc & -> & Es). cbn iota.
  destruct (_ <? _)%Z.
  - exists true. by eapply (run_giveUp w w2 j).
  - unfold GetFunctionVersion.
    destruct (st_functions (w_store w) !! job_FunctionVersionID j) as [v|] eqn:Ev.
    + erewrite run_bind by (by eapply run_try, run_find; rewrite ?Es).
      by eapply (run_offer w _ j).
    + erewrite run_bind by (by eapply run_try, run_find_none; rewrite ?Es).
      exists true. by eapply (run_giveUp w _ j).
Qed.

Lemma schedulePending_progress n w :
  Q w → jobs_keyed (w_store w) → servable (w_store w) → (pendingJobs w ≤ Z.of_nat n)%Z →
  ∃ w', schedulePending cfg (S n) w = Some (Ok tt, w') ∧ (pendingJobs w' = 0%Z ∨ refused w').
Proof.
  revert w. induction n as [|n IH]; intros w HQw Hk Hs Hp;
    destruct (scheduleNext_progress w HQw Hk Hs) as (b & w' & En & (HQ' & Hk' & Hs' & Hb));
    cbn [schedulePending]; rewrite En; destruct b; eauto.
  - exfalso. pose proof (count_map_nonneg claimable (st_executionJobs (w_store w'))).
    unfold pendingJobs in *. lia.
  - apply IH; [done..|]. lia.
Qed.

End Drain.

(** ** Concrete data for the witnesses *)

Definition demo_version : FunctionVersion :=
  mkFunctionVersion "v1" "p1" "fn" "node22" "index.mjs" 128 30 "none" ["eu"; "us"] ∅ [] 2 "b1"
    "bundle" "sha256:a" FunctionStateReady 1.
Definition demo_artifact : Artifact := mkArtifact "sha256:a" 10 "k/bundle.tgz" "k/startup.json" {["eu" := 1%Z]} 1.
Definition demo_world : World :=
  NewWorld <| w_store := NewStore <| st_functions := {["v1" := demo_version]} |>
    <| st_artifacts := {["sha256:a" := demo_artifact]} |> |>.

Definition demo_job : ExecutionJob :=
  mkExecutionJob "j1" "v1" "p1" "" JobStateQueued "{}" 2 0 "" "" None 5 5.

Definition with_job (j : ExecutionJob) (w : World) : World :=
  w <| w_store := (PutExecutionJob j (w_store w)).2 |>.

(** A region that takes every assignment. *)
Definition demo_dispatcher (region : string) : Dispatcher :=
  mkDispatcher region (λ _, mkRegionStats 1 0 0 0) (λ _, mret tt) None None None.

Definition demo_cfg : SchedulerConfig := New [demo_dispatcher "us"; demo_dispatcher "eu"].

#[export] Instance demo_dispatcher_prompt r : PromptDispatcher (λ _, True) (demo_dispatcher r).
Proof. intros a w _ _. by exists (Ok tt), w. Qed.

Lemma demo_cfg_prompt : map_Forall (λ _, PromptDispatcher (λ _, True)) (sc_dispatchers demo_cfg).
Proof. repeat apply map_Forall_insert_2; try apply _. apply map_Forall_empty. Qed.

(** ** Properties *)

(** C3: an invocation with an idempotency key is executed once.  The first
    request creates one queued job; afterwards, whatever else happened to the
    system, a request of the same project under the same key that hashes to the
    same value returns that job as it then stands, one that hashes to another
    value is refused with [ErrIdempotencyConflict], and neither changes the
    store (as long as the record and the job are still stored). *)
Theorem idempotent_dispatch (E : GoEnv) (cfg : SchedulerConfig) vid payload key v h (w : World) :
  quiet E →
  st_functions (w_store w) !! vid = Some v →
  key ≠ "" →
  invokeRequestHash vid payload = Ok h →
  env_uuid (w_uid w) ≠ "" →
  st_idempotency (w_store w) !! idempotencyKey "invoke" (fv_ProjectID v) key = None →
  quotaFull cfg (w_store w) (fv_ProjectID v) = false →
  ∃ job w1,
    DispatchExecutionIdempotent cfg vid payload key w = (Ok job, w1) ∧
    st_executionJobs (w_store w1) = <[job_ID job := job]> (st_executionJobs (w_store w)) ∧
    job_State job = JobStateQueued ∧ job_Payload job = payload ∧
    ∀ vid2 payload2 v2 h2 j2 (w2 : World),
      st_functions (w_store w2) !! vid2 = Some v2 →
      fv_ProjectID v2 = fv_ProjectID v →
      invokeRequestHash vid2 payload2 = Ok h2 →
      let k := idempotencyKey "invoke" (fv_ProjectID v) key in
      st_idempotency (w_store w2) !! k = st_idempotency (w_store w1) !! k →
      st_executionJobs (w_store w2) !! job_ID job = Some j2 →
      let '(r, w3) := DispatchExecutionIdempotent cfg vid2 payload2 key w2 in
      w_store w3 = w_store w2 ∧
      r = if bool_decide (h2 = h) then Ok j2 else Err (sentinel ErrIdempotencyConflict).
Proof.
  intros Hq Hv Hk Hh Hu Hn Hquota.
  destruct (run_dispatch_first E Hq cfg vid payload key v h w)
    as (job & t & t' & w1 & Ed & Ej & Es); [done..|].
  exists job, w1. split; [done|]. rewrite Es. simpl. subst job. split_and!; [done..|].
  intros vid2 payload2 v2 h2 j2 w2 Hv2 Hp Hh2. rewrite lookup_insert_eq. intros Hr Hj.
  rewrite <- Hp in Hr.
  destruct (run_dispatch_replay E Hq cfg vid2 payload2 key v2 h2 w2 _ Hv2 Hk Hh2 Hr)
    as (r & w3 & -> & Hs & ->).
  split; [done|]. unfold completedRecord. simpl.
  rewrite (bool_decide_eq_false_2 (env_uuid _ = "")) by done. simpl.
  rewrite (bool_decide_ext (h = h2) (h2 = h)) by done.
  unfold GetExecutionJob, find. simpl in Hj. by rewrite Hj.
Qed.

Lemma idempotent_dispatch_witness :
  ∃ job w1, @DispatchExecutionIdempotent demo_env (New []) "v1" "{}" "key-1" demo_world = (Ok job, w1) ∧
    (@DispatchExecutionIdempotent demo_env (New []) "v1" "{}" "key-1" w1).1 = Ok job ∧
    (@DispatchExecutionIdempotent demo_env (New []) "v1" "[1]" "key-1" w1).1 =
      Err (sentinel ErrIdempotencyConflict).
Proof.
  destruct (idempotent_dispatch demo_env (New []) "v1" "{}" "key-1" demo_version
    "sha:v1|{}" demo_world demo_quiet) as (job & w1 & Ed & Ej & _ & _ & H);
    [reflexivity|discriminate|reflexivity|discriminate|reflexivity|reflexivity|].
  exists job, w1. split; [exact Ed|].
  assert (st_functions (w_store w1) !! "v1" = Some demo_version) as Hf.
  { vm_compute in Ed. injection Ed as _ <-. reflexivity. }
  assert (st_executionJobs (w_store w1) !! job_ID job = Some job) as Hj
    by (rewrite Ej; apply lookup_insert_eq).
  pose proof (H "v1" "{}" demo_version "sha:v1|{}" job w1 Hf eq_refl eq_refl eq_refl Hj) as H1.
  pose proof (H "v1" "[1]" demo_version "sha:v1|[1]" job w1 Hf eq_refl eq_refl eq_refl Hj) as H2.
  destruct (DispatchExecutionIdempotent _ _ _ _ _) as [r w3] eqn:E1 in H1.
  destruct H1 as [_ ->]. rewrite E1.
  destruct (DispatchExecutionIdempotent _ _ _ _ _) as [r2 w4] eqn:E2 in H2.
  destruct H2 as [_ ->]. rewrite E2. split; reflexivity.
Defined.

(** The execution quota.  [enqueueExecution] accepts exactly when the limit
    is off or the project has fewer active jobs than the limit; it then stores
    one new queued job with a zero attempt count, wakes the scheduler, and with
    the limit on the project does not exceed it.  It refuses with
    [ErrProjectExecutionQuota] and without any effect on the store otherwise. *)
Theorem enqueue_quota_spec (E : GoEnv) (cfg : SchedulerConfig) v payload (w : World) :
  quiet E →
  let max := sc_maxActiveExecutionJobsPerProject cfg in
  let '(r, w') := enqueueExecution cfg v payload w in
  match r with
  | Ok job =>
      ((max ≤ 0)%Z ∨ (activeCount (w_store w) (fv_ProjectID v) < max)%Z) ∧
      job = newJob v payload (env_uuid (w_uid w)) (env_clock (w_tick w)) ∧
      w_store w' = (w_store w)
        <| st_executionJobs := <[job_ID job := job]> (st_executionJobs (w_store w)) |> ∧
      w_wake w' = true ∧
      ((0 < max)%Z → (activeCount (w_store w') (fv_ProjectID v) ≤ max)%Z)
  | Err e =>
      (0 < max ≤ activeCount (w_store w) (fv_ProjectID v))%Z ∧
      errors_Is e ErrProjectExecutionQuota = true ∧ w_store w' = w_store w
  end.
Proof.
  intros Hq max. destruct (run_enqueueExecution E Hq cfg v payload w) as (r & w' & -> & _ & H).
  unfold quotaFull in H. fold max in H.
  destruct (Z.ltb_spec 0 max), (Z.leb_spec max (activeCount (w_store w) (fv_ProjectID v)));
    simpl in H; try (destruct H as (job & -> & -> & Hs & Hw)); try (destruct H as [(e & -> & He) Hs]).
  1: done.
  all: split_and!; try done; try lia; rewrite Hs; unfold activeCount in *; simpl; intros _.
  pose proof (count_map_insert_le (λ j, bool_decide (job_ProjectID j = fv_ProjectID v) &&
    in_states activeStates j) (st_executionJobs (w_store w)) (env_uuid (w_uid w))
    (newJob v payload (env_uuid (w_uid w)) (env_clock (w_tick w)))). lia.
Qed.

Lemma enqueue_quota_spec_witness :
  let cfg := mkSchedulerConfig ∅ 0 0 1 in
  activeCount (w_store demo_world) "p1" = 0%Z ∧
  (activeCount (w_store (@enqueueExecution demo_env cfg demo_version "{}" demo_world).2) "p1" ≤ 1)%Z.
Proof.
  split; [reflexivity|].
  pose proof (enqueue_quota_spec demo_env (mkSchedulerConfig ∅ 0 0 1) demo_version "{}" demo_world
    demo_quiet) as H. cbv zeta in H.
  destruct (enqueueExecution _ _ _ _) as [[job|e] w'] eqn:Ee; [|vm_compute in Ee; discriminate].
  destruct H as (_ & _ & _ & _ & H). apply H. reflexivity.
Defined.

(** The region ranking.  [rankDispatchers] changes nothing; it fails exactly
    when no region of the version has a dispatcher, with an error that wraps no
    sentinel; otherwise it returns one candidate per region of the version that
    has a dispatcher, each with its region's backlog, artifact locality and
    health, ordered so that no candidate precedes one that ranks before it.  In
    particular a region is never tried before a healthy one unless it is healthy
    itself, and among equally healthy ones never before one that holds the
    artifact unless it holds it too. *)
Theorem rank_dispatchers_spec (E : GoEnv) (cfg : SchedulerConfig) v (w : World) :
  quiet E →
  ∃ r w', rankDispatchers cfg v w = (r, w') ∧ same_state w w' ∧
    match r with
    | Err e => err_is e = [] ∧ ∀ region, region ∈ fv_Regions v → sc_dispatchers cfg !! region = None
    | Ok cs =>
        cs ≠ [] ∧
        cd_region <$> cs ≡ₚ filter (λ r, has_dispatcher cfg r = true) (fv_Regions v) ∧
        Forall (candidate_spec cfg (w_store w) (artifactRegionsOf (w_store w) (fv_ArtifactDigest v))) cs ∧
        ∀ before c after d, cs = before ++ c :: after → d ∈ after →
          rank_less d c = false ∧
          (cd_healthy d = true → cd_healthy c = true) ∧
          (cd_healthy d = cd_healthy c → cd_artifactLocal d = true → cd_artifactLocal c = true)
    end.
Proof.
  intros Hq. destruct (run_rankDispatchers E Hq cfg v w) as (r & w' & Er & Hs & H).
  exists r, w'. split; [done|]. split; [done|]. destruct r as [cs|e].
  - destruct H as (H1 & H2 & H3 & H4). split_and!; [done..|].
    intros before c after d -> Hd.
    assert (rank_less d c = false) as Hr.
    { clear Er H1 H2 H3.
      induction before as [|b before IH]; simpl in H4; apply StronglySorted_inv in H4 as [H4 Hf].
      - rewrite Forall_forall in Hf. by apply Hf.
      - by apply IH. }
    split; [done|]. unfold rank_less in Hr.
    destruct (cd_healthy d), (cd_healthy c), (cd_artifactLocal d), (cd_artifactLocal c); done.
  - destruct H as [H1 H2]. split; [done|]. intros region Hr. rewrite Forall_forall in H2.
    specialize (H2 _ Hr). unfold has_dispatcher in H2. by destruct (sc_dispatchers cfg !! region).
Qed.

Lemma rank_dispatchers_spec_witness :
  ∃ cs w', @rankDispatchers demo_env demo_cfg demo_version demo_world = (Ok cs, w') ∧
    cd_region <$> cs = ["eu"; "us"] ∧ same_state demo_world w'.
Proof.
  destruct (rank_dispatchers_spec demo_env demo_cfg demo_version demo_world demo_quiet)
    as (r & w' & Er & Hs & H).
  destruct r as [cs|e]; [|vm_compute in Er; discriminate].
  exists cs, w'. split; [done|]. split; [|done].
  assert (fst <$> Some (@rankDispatchers demo_env demo_cfg demo_version demo_world) = Some (Ok cs)) as Ec
    by (by rewrite Er).
  vm_compute in Ec. injection Ec as <-. reflexivity.
Defined.

(** C23: the scheduling loop ends.  When job records are filed under their IDs,
    every function version has its artifact and a region with a dispatcher, and
    the dispatchers either take an assignment or report a lack of capacity, then
    [schedulePending] returns without error after at most one pass per pending
    job plus one; at the end no job is pending, or one was put back because its
    region had no capacity. *)
Theorem schedule_pending_terminates (E : GoEnv) (cfg : SchedulerConfig) (Q : World → Prop)
    (n : nat) (w : World) :
  quiet E →
  (∀ w w', w_coords w' = w_coords w → Q w → Q w') →
  map_Forall (λ _, PromptDispatcher Q) (sc_dispatchers cfg) →
  Q w → jobs_keyed (w_store w) → servable cfg (w_store w) → (pendingJobs w ≤ Z.of_nat n)%Z →
  ∃ w', schedulePending cfg (S n) w = Some (Ok tt, w') ∧ (pendingJobs w' = 0%Z ∨ refused w').
Proof. intros Hq HQ Hd. by apply (schedulePending_progress E Hq cfg Q). Qed.

Lemma schedule_pending_terminates_witness :
  ∃ w', @schedulePending demo_env demo_cfg 2 (with_job demo_job demo_world) = Some (Ok tt, w') ∧
    (pendingJobs w' = 0%Z ∨ refused w').
Proof.
  apply (schedule_pending_terminates demo_env demo_cfg (λ _, True) 1 (with_job demo_job demo_world)).
  - apply demo_quiet.
  - done.
  - apply demo_cfg_prompt.
  - exact I.
  - apply keyed_insert_at; [reflexivity|apply keyed_empty].
  - intros vid v. simpl. rewrite lookup_singleton_Some. intros [<- <-].
    split; [by eexists|]. exists "eu". split; [left|reflexivity].
  - vm_compute. discriminate.
Defined.

(** The scheduling loop does not end when it meets a job it cannot place:
    if the pending jobs are within their retry budget and their versions'
    artifacts are missing (a pending job at least), [schedulePending] is still
    running after any number of passes, because a job that fails to dispatch
    goes back to the queue and counts as dispatched. *)
Theorem schedule_pending_livelock (E : GoEnv) (cfg : SchedulerConfig) (w : World) :
  quiet E → all_stuck w → ∀ fuel, schedulePending cfg fuel w = None.
Proof.
  intros Hq Hs fuel. revert w Hs. induction fuel as [|fuel IH]; intros w Hs; [done|].
  destruct (scheduleNext_stuck E Hq cfg w Hs) as (w' & En & Hs'). simpl. rewrite En. by apply IH.
Qed.

Lemma schedule_pending_livelock_witness :
  @schedulePending demo_env demo_cfg 1000
    (with_job demo_job (demo_world <| w_store := (w_store demo_world) <| st_artifacts := ∅ |> |>)) = None.
Proof.
  apply (schedule_pending_livelock demo_env demo_cfg); [apply demo_quiet|]. split.
  - apply keyed_insert_at; [reflexivity|apply keyed_empty].
  - intros k j. simpl. rewrite lookup_insert_Some, lookup_empty. intros [[<- <-]|[_ [=]]] _.
    split; [by simpl; lia|]. exists demo_version. split; reflexivity.
  - exists "j1", demo_job. split; reflexivity.
Defined.
