(* ===== verification/Recovery.v ===== *)
(** * Recovery: expired leases

    Models [internal/recovery/service.go].  The service holds a [Retryer]
    interface value ([scheduler.Service] in the running system); [retry] is its
    one method. *)

From stdpp Require Import base decidable tactics numbers list gmap strings.
From S2P Require Import Prelude Domain MemStore World Jobs Scheduler.

Section Recovery.
Context `{!GoEnv} (retry : string → WM ExecutionJob).

Definition leaseExpiredText : string := "lease expired before completion".

Definition recoverAttempt (attempt : Attempt) : WM unit :=
  job ← call (GetExecutionJob (att_JobID attempt));
  latestAttempt ← call (GetAttempt (att_ID attempt));
  stop ← (if Terminal (att_State latestAttempt) then mret true
          else t ← now; mret (t <? att_LeaseExpiresAt latestAttempt)%Z);
  if stop : bool then mret tt else
  t ← now;
  let latestAttempt := latestAttempt <| att_State := AttemptStateFailed |>
        <| att_Error := leaseExpiredText |> <| att_LeaseExpiresAt := t |>
        <| att_UpdatedAt := t |> in
  call (UpdateAttempt latestAttempt) ≫= λ _,
  if (job_AttemptCount job <=? job_MaxRetries job)%Z then
    let job := job <| job_State := JobStateRetrying |> <| job_Error := att_Error latestAttempt |>
                   <| job_UpdatedAt := t |> in
    call (UpdateExecutionJob job) ≫= λ _,
    retried ← try (retry (job_ID job));
    match retried with
    | Err e =>
        t' ← now;
        call (UpdateExecutionJob (job <| job_State := JobStateFailed |>
          <| job_Error := Error e |> <| job_UpdatedAt := t' |>))
    | Ok _ => mret tt
    end
  else
    call (UpdateExecutionJob (job <| job_State := JobStateFailed |>
      <| job_Error := att_Error latestAttempt |> <| job_UpdatedAt := t |>)).

Definition recoverExpiredAttempts : WM unit :=
  t ← now;
  expired ← call (ListExpiredAttempts t);
  for_each expired (λ attempt,
    if Terminal (att_State attempt) then mret tt else recoverAttempt attempt).

End Recovery.

Section RecoveryInvariant.
Context `{E : !GoEnv} (HR : rely E jobs_wf) (K : gmap string Coordinator → Prop).
Context (retry : string → WM ExecutionJob).
Abbreviation Inv := (inv_on jobs_wf K).
Context (Hretry : ∀ id, keeps Inv job_ok (retry id)).

Lemma keeps_recoverAttempt a : preserves Inv (recoverAttempt retry a).
Proof.
  unfold recoverAttempt. do 2 (eapply keeps_bind; [eauto with keeps|]; intros ? ?).
  eapply (keeps_bind _ _ _ (λ _, True)); [keep|]. intros [] _; keep.
Qed.

Lemma keeps_recoverExpiredAttempts : preserves Inv (recoverExpiredAttempts retry).
Proof.
  unfold recoverExpiredAttempts. keep. apply keeps_for_each; [done|]. intros att _.
  destruct (Terminal (att_State att)); [by apply keeps_ret|apply keeps_recoverAttempt].
Qed.

End RecoveryInvariant.

(** ** Recovery in a quiet environment *)

Section RecoveryRun.
Context (E : GoEnv) (Hq : quiet E).

(** What [RetryExecution] makes of a job within its budget. *)
Definition retried (job : ExecutionJob) (t : Time) : ExecutionJob :=
  job <| job_State := JobStateRetrying |> <| job_Error := "" |> <| job_TargetRegion := "" |>
      <| job_UpdatedAt := t |>.

Lemma run_RetryExecution id job w :
  st_executionJobs (w_store w) !! id = Some job → (job_AttemptCount job ≤ job_MaxRetries job)%Z →
  ∃ t w', RetryExecution id w = (Ok (retried job t), w') ∧
    w_store w' = (w_store w) <| st_executionJobs :=
      <[job_ID job := retried job t]> (st_executionJobs (w_store w)) |>.
Proof.
  intros Hj Hb. unfold RetryExecution, GetExecutionJob. erewrite run_bind by (by apply run_find).
  rewrite (proj2 (Z.ltb_ge _ _) Hb). erewrite run_bind by done. cbn zeta.
  erewrite run_bind by (by apply run_call). by repeat eexists.
Qed.

Lemma RetryExecution_tick id w r w' : RetryExecution id w = (r, w') → (w_tick w ≤ w_tick w')%nat.
Proof.
  unfold RetryExecution. rewrite M_bind_eq, (call_ok _ _ Hq). simpl.
  destruct (GetExecutionJob id (w_store w)) as [[job|e] s]; simpl; [|intros [= _ <-]; simpl; lia].
  case_match; [intros [= _ <-]; simpl; lia|].
  erewrite run_bind by done. erewrite run_bind by (by apply run_call). intros [= _ <-]. simpl. lia.
Qed.

(** The attempt after its lease was found expired at [t]. *)
Definition expiredAt (t : Time) (a : Attempt) : Attempt :=
  a <| att_State := AttemptStateFailed |> <| att_Error := leaseExpiredText |>
    <| att_LeaseExpiresAt := t |> <| att_UpdatedAt := t |>.

(** Its job: put back for a retry within the budget, failed without. *)
Definition recoveredAt (t : Time) (job : ExecutionJob) : ExecutionJob :=
  if (job_AttemptCount job <=? job_MaxRetries job)%Z then retried job t
  else job <| job_State := JobStateFailed |> <| job_Error := leaseExpiredText |> <| job_UpdatedAt := t |>.

Lemma recoveredAt_ID t job : job_ID (recoveredAt t job) = job_ID job.
Proof. unfold recoveredAt. by destruct (_ <=? _)%Z. Qed.

(** A second expired attempt of the job changes nothing but the time. *)
Lemma recoveredAt_again t t' job : recoveredAt t' (recoveredAt t job) = recoveredAt t' job.
Proof. unfold recoveredAt. destruct (job_AttemptCount job <=? job_MaxRetries job)%Z eqn:Hb; cbn; by rewrite Hb. Qed.

Lemma run_recoverAttempt a0 a job w :
  att_ID a0 = att_ID a →
  st_attempts (w_store w) !! att_ID a = Some a →
  st_executionJobs (w_store w) !! att_JobID a0 = Some job → job_ID job = att_JobID a0 →
  Terminal (att_State a) = false →
  (att_LeaseExpiresAt a ≤ env_clock (w_tick w))%Z →
  ∃ t t' w', recoverAttempt RetryExecution a0 w = (Ok tt, w') ∧
    (w_tick w ≤ w_tick w')%nat ∧
    w_store w' = (w_store w)
      <| st_attempts := <[att_ID a := expiredAt t a]> (st_attempts (w_store w)) |>
      <| st_executionJobs := <[att_JobID a0 := recoveredAt t' job]> (st_executionJobs (w_store w)) |>.
Proof.
  intros Hid Ha Hj Hjid Ht Hl. unfold recoverAttempt, GetExecutionJob, GetAttempt.
  erewrite run_bind by (by apply run_find). rewrite Hid.
  erewrite run_bind by (by apply run_find). rewrite Ht.
  erewrite run_bind by (by erewrite run_bind by done). cbn beta.
  match goal with |- context [(?t <? att_LeaseExpiresAt a)%Z] =>
    change t with (env_clock (w_tick w)) end.
  rewrite (proj2 (Z.ltb_ge _ _) Hl). cbn iota.
  erewrite run_bind by done. cbn zeta. erewrite run_bind by (by apply run_call).
  unfold recoveredAt. destruct (Z.leb_spec (job_AttemptCount job) (job_MaxRetries job)) as [Hb|Hb].
  - erewrite run_bind by (by apply run_call).
    match goal with |- context [mbind _ (try (RetryExecution ?id)) ?w0] =>
      destruct (run_RetryExecution id (job <| job_State := JobStateRetrying |>
        <| job_Error := leaseExpiredText |> <| job_UpdatedAt := env_clock (S (w_tick w)) |>) w0)
        as (t' & w' & Er & Es) end.
    { simpl. apply lookup_insert_eq. } { done. }
    pose proof (RetryExecution_tick _ _ _ _ Er) as Htick.
    erewrite run_bind by (by apply run_try). exists (env_clock (S (w_tick w))), t', w'. split; [done|].
    split; [simpl in Htick; lia|]. rewrite Es, <- Hjid. simpl. rewrite insert_insert_eq. reflexivity.
  - erewrite run_call by done. do 2 exists (env_clock (S (w_tick w))). eexists.
    split; [done|]. rewrite <- Hjid. split; [simpl; lia|done].
Qed.

End RecoveryRun.

(** The attempts of the list are stored as listed, expired at [t], and their jobs
    are stored under their IDs. *)
Record recoverable (t : Time) (l : list Attempt) (s : Store) : Prop := {
  rc_nodup : NoDup (att_ID <$> l);
  rc_stored : ∀ a, a ∈ l → st_attempts s !! att_ID a = Some a;
  rc_expired : ∀ a, a ∈ l → attempt_expired t a = true;
  rc_jobs : ∀ a, a ∈ l → ∃ job, st_executionJobs s !! att_JobID a = Some job ∧
    job_ID job = att_JobID a;
}.

Lemma recoverable_tail t t' a l s job' :
  recoverable t (a :: l) s → job_ID job' = att_JobID a →
  recoverable t l (s
    <| st_attempts := <[att_ID a := expiredAt t' a]> (st_attempts s) |>
    <| st_executionJobs := <[att_JobID a := job']> (st_executionJobs s) |>).
Proof.
  intros [H1 H2 H3 H4] Hj. rewrite fmap_cons in H1. apply NoDup_cons in H1 as [Hn H1].
  split; simpl; [done| | |].
  - intros b Hb. rewrite lookup_insert_ne; [apply H2; by right|].
    intros Heq. apply Hn. rewrite Heq. by apply list_elem_of_fmap_2.
  - intros b Hb. apply H3. by right.
  - intros b Hb. destruct (decide (att_JobID b = att_JobID a)) as [->|Hne].
    + exists job'. by rewrite lookup_insert_eq.
    + rewrite lookup_insert_ne by done. apply H4. by right.
Qed.

Section RecoveryPass.
Context (E : GoEnv) (Hq : quiet E) (Hm : monotone_clock E).

(** What recovering the attempts [l] makes of attempts and jobs. *)
Definition pass_attempts (l : list Attempt) (m m' : gmap string Attempt) : Prop :=
  (∀ a, a ∈ l → ∃ t', m' !! att_ID a = Some (expiredAt t' a)) ∧
  (∀ id, id ∉ att_ID <$> l → m' !! id = m !! id).
Definition pass_jobs (l : list Attempt) (m m' : gmap string ExecutionJob) : Prop :=
  (∀ id job, m !! id = Some job → id ∈ att_JobID <$> l → ∃ t', m' !! id = Some (recoveredAt t' job)) ∧
  (∀ id, id ∉ att_JobID <$> l → m' !! id = m !! id).

Lemma pass_attempts_cons a l t m m' :
  NoDup (att_ID <$> a :: l) → pass_attempts l (<[att_ID a := expiredAt t a]> m) m' → pass_attempts (a :: l) m m'.
Proof.
  rewrite fmap_cons, NoDup_cons. intros [Hna _] [Hl Ho]. split.
  - intros b [->|Hb]%elem_of_cons; [|by apply Hl]. exists t. rewrite Ho by done. apply lookup_insert_eq.
  - intros id Hid. rewrite fmap_cons, not_elem_of_cons in Hid. destruct Hid as [Hne Hid].
    rewrite Ho by done. by rewrite lookup_insert_ne.
Qed.

Lemma pass_jobs_cons a l t job m m' :
  m !! att_JobID a = Some job → pass_jobs l (<[att_JobID a := recoveredAt t job]> m) m' → pass_jobs (a :: l) m m'.
Proof.
  intros Hj [Hl Ho]. split.
  - intros id job0 Hid Hin. rewrite fmap_cons, elem_of_cons in Hin. destruct (decide (id = att_JobID a)) as [->|Hne].
    + assert (job0 = job) as -> by congruence. destruct (decide (att_JobID a ∈ att_JobID <$> l)) as [Hin'|Hout].
      * destruct (Hl (att_JobID a) (recoveredAt t job)) as [t' Ht']; [apply lookup_insert_eq|done|].
        exists t'. by rewrite Ht', recoveredAt_again.
      * exists t. rewrite Ho by done. apply lookup_insert_eq.
    + destruct Hin as [?|Hin]; [done|]. apply Hl; [by rewrite lookup_insert_ne|done].
  - intros id Hid. rewrite fmap_cons, not_elem_of_cons in Hid. destruct Hid as [Hne Hid].
    rewrite Ho by done. by rewrite lookup_insert_ne.
Qed.

Lemma run_recoverAll t n l w :
  t = env_clock n → (n ≤ w_tick w)%nat → recoverable t l (w_store w) →
  ∃ w' As Js, for_each l (λ attempt, if Terminal (att_State attempt) then mret tt
                               else recoverAttempt RetryExecution attempt) w = (Ok tt, w') ∧
    w_store w' = (w_store w) <| st_attempts := As |> <| st_executionJobs := Js |> ∧
    pass_attempts l (st_attempts (w_store w)) As ∧ pass_jobs l (st_executionJobs (w_store w)) Js.
Proof.
  intros -> Hn Hr. revert w Hn Hr. induction l as [|a l IH]; intros w Hn Hr.
  { exists w, (st_attempts (w_store w)), (st_executionJobs (w_store w)). split; [done|]. split; [by destruct (w_store w)|].
    split; split; try done; [intros a Ha|intros id job _ Ha]; by apply not_elem_of_nil in Ha. }
  pose proof Hr as [H1 H2 H3 H4]. cbn [for_each].
  assert (attempt_expired (env_clock n) a = true) as He by (apply H3; left).
  unfold attempt_expired in He. apply andb_true_iff in He as [Ht He].
  apply andb_true_iff in He as [_ He]. apply negb_true_iff in Ht, He. apply Z.ltb_ge in He.
  rewrite Ht. destruct (H4 a) as (job & Hj & Hjid); [left|].
  destruct (run_recoverAttempt E Hq a a job w) as (t1 & t2 & w1 & Er & Htick & Es);
    [done|apply H2; left|done..| |].
  { etrans; [exact He|]. by apply Hm. }
  erewrite run_bind by done.
  destruct (IH w1) as (w' & As & Js & Ef & Es' & HA & HJ); [lia| |].
  { rewrite Es. apply recoverable_tail; [done|]. by rewrite recoveredAt_ID. }
  exists w', As, Js. split; [done|]. split; [by rewrite Es', Es|]. rewrite Es in HA, HJ. split.
  - exact (pass_attempts_cons a l t1 _ _ H1 HA).
  - exact (pass_jobs_cons a l t2 job _ _ Hj HJ).
Qed.

End RecoveryPass.

(** ** Properties *)

(** C35: a recovery pass.  With attempts and jobs stored under their IDs, a job for
    every attempt, a clock that does not run backwards, and no faults or other
    writers, [recoverExpiredAttempts] succeeds.  Afterwards every attempt whose
    lease had run out when the pass started (and which had not ended) is failed
    with the lease error, and the job of such an attempt is put back for another
    attempt (retrying, without error and region) when its attempts do not exceed
    its retry budget, and is failed with the lease error otherwise; nothing else
    of these records changes but their times, and every other attempt, every other
    job and the rest of the store are as before. *)
Theorem recovery_pass_spec (E : GoEnv) (w : World) :
  quiet E → monotone_clock E → store_wf (w_store w) →
  (∀ id a, st_attempts (w_store w) !! id = Some a →
     is_Some (st_executionJobs (w_store w) !! att_JobID a)) →
  let t := env_clock (w_tick w) in
  let expired id := ∃ aid a, st_attempts (w_store w) !! aid = Some a ∧ att_JobID a = id ∧ attempt_expired t a = true in
  ∃ w' As Js, recoverExpiredAttempts RetryExecution w = (Ok tt, w') ∧
    w_store w' = (w_store w) <| st_attempts := As |> <| st_executionJobs := Js |> ∧
    (∀ id a, st_attempts (w_store w) !! id = Some a →
       if attempt_expired t a then ∃ t', As !! id = Some (expiredAt t' a) else As !! id = Some a) ∧
    (∀ id, st_attempts (w_store w) !! id = None → As !! id = None) ∧
    (∀ id job, st_executionJobs (w_store w) !! id = Some job →
       (expired id → ∃ t', Js !! id = Some (
          if (job_AttemptCount job <=? job_MaxRetries job)%Z
          then job <| job_State := JobStateRetrying |> <| job_Error := "" |> <| job_TargetRegion := "" |>
                   <| job_UpdatedAt := t' |>
          else job <| job_State := JobStateFailed |> <| job_Error := leaseExpiredText |> <| job_UpdatedAt := t' |>)) ∧
       (¬ expired id → Js !! id = Some job)) ∧
    (∀ id, st_executionJobs (w_store w) !! id = None → Js !! id = None).
Proof.
  intros Hq Hm Hwf Hjobs t expired. unfold recoverExpiredAttempts. erewrite run_bind by done.
  erewrite run_bind by (by apply run_call). fold t.
  set (l := select 534 (attempt_expired t) (st_attempts (w_store w))).
  assert (∀ a, a ∈ l ↔ attempt_expired t a = true ∧ st_attempts (w_store w) !! att_ID a = Some a) as Hl.
  { intros a. unfold l. rewrite elem_of_select. split; [|intros [? ?]; eauto].
    intros [He [k Hk]]. split; [done|]. by rewrite (keyed_lookup _ _ _ _ (wf_attempts _ Hwf) Hk). }
  assert (∀ id, id ∈ att_JobID <$> l ↔ expired id) as Hx.
  { intros id. rewrite list_elem_of_fmap. split.
    - intros (a & -> & [He Ha]%Hl). by exists (att_ID a), a.
    - intros (aid & a & Ha & <- & He). exists a. split; [done|]. apply Hl. split; [done|].
      by rewrite (keyed_lookup _ _ _ _ (wf_attempts _ Hwf) Ha). }
  assert (recoverable t l (w_store w)) as Hr.
  { split.
    - apply (NoDup_select_id att_ID), Hwf.
    - intros a [_ ?]%Hl. done.
    - intros a [? _]%Hl. done.
    - intros a [_ Ha]%Hl. destruct (Hjobs _ _ Ha) as [job Hj]. exists job. split; [done|].
      by apply (keyed_lookup _ _ _ _ (wf_executionJobs _ Hwf)). }
  match goal with |- context [for_each _ _ ?w0] =>
    destruct (run_recoverAll E Hq Hm t (w_tick w) l w0) as (w' & As & Js & Ef & Es & [HA HAo] & [HJ HJo]) end;
    [done|simpl; lia|done|].
  exists w', As, Js. split; [exact Ef|]. split; [exact Es|].
  assert (∀ id, (∀ a, st_attempts (w_store w) !! id = Some a → attempt_expired t a = false) →
    As !! id = st_attempts (w_store w) !! id) as Hkeep.
  { intros id Hn. apply HAo. rewrite list_elem_of_fmap. intros (b & -> & [Hb Hs]%Hl). specialize (Hn b Hs). congruence. }
  split_and!.
  - intros id a Ha. assert (att_ID a = id) as Hid by apply (keyed_lookup _ _ _ _ (wf_attempts _ Hwf) Ha).
    subst id. destruct (attempt_expired t a) eqn:Ea; [by apply HA, Hl|]. rewrite Hkeep; [done|]. intros b. by rewrite Ha; intros [= <-].
  - intros id Hn. rewrite Hkeep; [done|]. intros a Ha. congruence.
  - intros id job Hj. split.
    + intros Hid%Hx. exact (HJ id job Hj Hid).
    + intros Hid. rewrite <- Hx in Hid. by rewrite (HJo id Hid).
  - intros id Hn. rewrite HJo; [done|]. rewrite Hx. intros (aid & a & Ha & <- & _). destruct (Hjobs _ _ Ha) as [job Hj].
    change (st_executionJobs (w_store w) !! att_JobID a = None) in Hn. congruence.
Qed.

(** A store with one running attempt whose lease has run out. *)
Definition expired_attempt : Attempt :=
  mkAttempt "a1" "j1" "v1" "h1" "eu" AttemptStateRunning StartModeCold 5 0 30 "" 1 1.
Definition expired_store (job : ExecutionJob) : Store :=
  (UpdateAttempt expired_attempt (PutExecutionJob job NewStore).2).2.
Definition expired_world (job : ExecutionJob) : World := NewWorld <| w_store := expired_store job |>.
Definition expired_job (attempts : Z) : ExecutionJob :=
  mkExecutionJob "j1" "v1" "p1" "eu" JobStateRunning "{}" 1 attempts "a1" "" None 5 5.

Lemma expired_store_wf n : store_wf (expired_store (expired_job n)).
Proof.
  split; try apply keyed_empty; apply keyed_insert_at; try reflexivity; apply keyed_empty.
Qed.

Lemma recovery_pass_spec_witness :
  ∃ w' t' t2, @recoverExpiredAttempts demo_env (@RetryExecution demo_env) (expired_world (expired_job 1)) =
      (Ok tt, w') ∧
    st_attempts (w_store w') !! "a1" = Some (expiredAt t' expired_attempt) ∧
    st_executionJobs (w_store w') !! "j1" = Some ((expired_job 1)
      <| job_State := JobStateRetrying |> <| job_Error := "" |> <| job_TargetRegion := "" |> <| job_UpdatedAt := t2 |>).
Proof.
  destruct (recovery_pass_spec demo_env (expired_world (expired_job 1)) demo_quiet demo_monotone
    (expired_store_wf 1)) as (w' & As & Js & Er & Es & HA & _ & HJ & _).
  - intros id a. simpl. rewrite lookup_insert_Some, lookup_empty.
    intros [[<- <-]|[_ [=]]]. exists (expired_job 1). reflexivity.
  - destruct (HA "a1" expired_attempt eq_refl) as [t' Ht].
    destruct (HJ "j1" (expired_job 1) eq_refl) as [Hx _]. destruct Hx as [t2 Ht2].
    { exists "a1", expired_attempt. split; [reflexivity|]. split; [reflexivity|]. vm_compute. reflexivity. }
    exists w', t', t2. rewrite Es. split; [exact Er|]. split; [exact Ht|exact Ht2].
Defined.
