(* ===== verification/Secrets.v ===== *)
(** * Secrets: regions catalogue and scoped secret resolution

    Models [internal/regions/catalog.go] and [internal/secrets] (resolver.go,
    provider.go and the handler of proxy.go).  The secret provider behind the
    resolver is an interface ([SecretProvider]); [MemoryProvider] implements it.
    JSON decoding of the proxy's request is an argument. *)

From Stdlib Require Import Ascii.
From stdpp Require Import base decidable tactics numbers list gmap strings.
From S2P Require Import Prelude Domain MemStore World SchedulerFacts.

(** ** Loops that collect trimmed, distinct, non-blank entries *)

(** One iteration: the entries seen so far and the output. *)
Definition collect_step (acc : gset string * list string) (entry : string) :
    gset string * list string :=
  let '(seen, out) := acc in
  let trimmed := TrimSpace entry in
  if bool_decide (trimmed = "") then (seen, out)
  else if bool_decide (trimmed ∈ seen) then (seen, out)
  else ({[trimmed]} ∪ seen, out ++ [trimmed]).

Definition normalizeSecretRefs (refs : list string) : list string :=
  (foldl collect_step (∅, []) refs).2.

(** What such a loop returns. *)
Lemma collect_fold l seen out :
  (∀ x, x ∈ seen ↔ x ∈ out) → NoDup out →
  let '(seen', out') := foldl collect_step (seen, out) l in
  NoDup out' ∧ ∀ x, x ∈ out' ↔ x ∈ out ∨ x ≠ "" ∧ ∃ y, y ∈ l ∧ TrimSpace y = x.
Proof.
  revert seen out. induction l as [|e l IH]; intros seen out Hs Hn; simpl.
  { split; [done|]. intros x. split; [by left|]. intros [?|(_ & y & Hy & _)]; [done|].
    by apply not_elem_of_nil in Hy. }
  case_bool_decide as He.
  { specialize (IH seen out Hs Hn). destruct (foldl _ _ l). destruct IH as [IH1 IH2].
    split; [done|]. intros x. rewrite IH2. set_solver. }
  case_bool_decide as Hin.
  { specialize (IH seen out Hs Hn). destruct (foldl _ _ l). destruct IH as [IH1 IH2].
    split; [done|]. intros x. rewrite IH2. set_solver. }
  specialize (IH ({[TrimSpace e]} ∪ seen) (out ++ [TrimSpace e])).
  destruct (foldl _ _ l). destruct IH as [IH1 IH2].
  - intros x. set_solver.
  - apply NoDup_app. split_and!; [done| |apply NoDup_singleton].
    intros x Hx. rewrite list_elem_of_singleton. intros ->. by apply Hin, Hs.
  - split; [done|]. intros x. rewrite IH2. set_solver.
Qed.

Lemma normalizeSecretRefs_spec refs :
  NoDup (normalizeSecretRefs refs) ∧
  ∀ x, x ∈ normalizeSecretRefs refs ↔ x ≠ "" ∧ ∃ y, y ∈ refs ∧ TrimSpace y = x.
Proof.
  unfold normalizeSecretRefs. pose proof (collect_fold refs ∅ []) as H.
  destruct (foldl _ _ refs) as [s o]. destruct H as [H1 H2].
  - set_solver.
  - constructor.
  - split; [done|]. intros x. rewrite H2. set_solver.
Qed.

(** ** Regions *)

Definition DefaultExecutionRegions : list string := ["ap-south-1"; "ap-south-2"; "ap-southeast-1"].
Definition DefaultPrimary : string := "ap-south-1".

(** The loop of [NormalizeExecutionRegions]. *)
Fixpoint normalizeRegions (acc : gset string * list string) (requested : list string) :
    result (list string) :=
  match requested with
  | [] => Ok acc.2
  | region :: rest =>
      let trimmed := TrimSpace region in
      if bool_decide (trimmed = "") then normalizeRegions acc rest
      else if negb (bool_decide (trimmed ∈ DefaultExecutionRegions)) then
        Err (plainErr ("unsupported region " +:+ quote trimmed +:+
          ": only APAC execution regions are enabled (" +:+ Join DefaultExecutionRegions ", " +:+ ")"))
      else normalizeRegions (collect_step acc region) rest
  end.

Definition NormalizeExecutionRegions (requested : list string) : result (list string) :=
  match requested with
  | [] => Ok DefaultExecutionRegions
  | _ =>
      match normalizeRegions (∅, []) requested with
      | Err e => Err e
      | Ok [] => Err (plainErr "at least one APAC execution region is required")
      | Ok l => Ok l
      end
  end.

Definition ParseCSV (value : string) : list string :=
  if blank value then []
  else filter (λ s, s ≠ "") (TrimSpace <$> Split value (ascii_of_N 44)).

Lemma normalizeRegions_fold l acc :
  normalizeRegions acc l =
  if decide (Forall (λ r, TrimSpace r = "" ∨ TrimSpace r ∈ DefaultExecutionRegions) l)
  then Ok (foldl collect_step acc l).2 else normalizeRegions acc l.
Proof.
  case_decide as Hl; [|done]. revert acc.
  induction Hl as [|r l Hr Hl IH]; intros acc; [done|]. simpl.
  destruct (decide (TrimSpace r = "")) as [Et|Et].
  - rewrite bool_decide_eq_true_2 by done. rewrite IH. f_equal. f_equal. f_equal.
    destruct acc. unfold collect_step. by rewrite bool_decide_eq_true_2.
  - rewrite bool_decide_eq_false_2 by done. rewrite bool_decide_eq_true_2 by naive_solver.
    simpl. by rewrite IH.
Qed.

Lemma normalizeRegions_ok l acc out :
  normalizeRegions acc l = Ok out →
  Forall (λ r, TrimSpace r = "" ∨ TrimSpace r ∈ DefaultExecutionRegions) l.
Proof.
  revert acc. induction l as [|r l IH]; intros acc; [constructor|]. simpl.
  case_bool_decide; [intros; constructor; [by left|by eapply IH]|].
  case_bool_decide; [|done]. simpl. intros. constructor; [by right|by eapply IH].
Qed.

Lemma NormalizeExecutionRegions_ok requested l :
  NormalizeExecutionRegions requested = Ok l →
  NoDup l ∧ l ≠ [] ∧ Forall (λ r, r ∈ DefaultExecutionRegions) l.
Proof.
  unfold NormalizeExecutionRegions. destruct requested as [|r0 rest].
  { intros [= <-]. split_and!; [by apply (bool_decide_unpack _)|done|by apply Forall_forall]. }
  destruct (normalizeRegions (∅, []) (r0 :: rest)) as [out|] eqn:En; [|done].
  pose proof (normalizeRegions_ok _ _ _ En) as Hall. rewrite normalizeRegions_fold, decide_True in En by done.
  pose proof (collect_fold (r0 :: rest) ∅ []) as Hc.
  destruct (foldl collect_step (∅, []) (r0 :: rest)) as [seen out']. change (Ok out' = Ok out) in En. injection En as ->.
  destruct Hc as [H1 H2]; [set_solver|constructor|].
  destruct out as [|a out]; [done|]. intros [= <-]. split_and!; [done|done|].
  rewrite Forall_forall in Hall. apply Forall_forall. intros r Hr.
  apply H2 in Hr as [?%not_elem_of_nil|(Hr & y & Hy & <-)]; [done|]. by destruct (Hall y Hy).
Qed.

(** A list of distinct trimmed entries is collected as it is. *)
Lemma collect_distinct l seen out :
  (∀ x, x ∈ seen ↔ x ∈ out) → NoDup (out ++ l) → Forall (λ x, x ≠ "" ∧ TrimSpace x = x) l →
  (foldl collect_step (seen, out) l).2 = out ++ l.
Proof.
  intros Hs Hn Hl. revert seen out Hs Hn. induction Hl as [|x l [Hx Et] Hl IH]; intros seen out Hs Hn; simpl.
  { by rewrite app_nil_r. }
  rewrite Et, bool_decide_eq_false_2 by done. rewrite bool_decide_eq_false_2.
  - rewrite (IH _ (out ++ [x])); [by rewrite <- app_assoc| |by rewrite <- app_assoc]. set_solver.
  - rewrite Hs. apply NoDup_app in Hn as (_ & Hd & _). intros Hin. by apply (Hd x Hin); left.
Qed.

Lemma NormalizeExecutionRegions_idem l :
  NoDup l → l ≠ [] → Forall (λ r, r ∈ DefaultExecutionRegions) l → NormalizeExecutionRegions l = Ok l.
Proof.
  intros Hn Hne Hl. assert (Forall (λ x, x ≠ "" ∧ TrimSpace x = x) l) as Ht.
  { eapply Forall_impl; [exact Hl|]. intros x Hx. unfold DefaultExecutionRegions in Hx.
    rewrite !elem_of_cons, elem_of_nil in Hx. by destruct Hx as [->|[->|[->|[]]]]. }
  unfold NormalizeExecutionRegions. destruct l as [|a l'] eqn:El; [done|]. rewrite <- El in *.
  rewrite normalizeRegions_fold, decide_True.
  - rewrite (collect_distinct l ∅ []); [|set_solver|done|done]. by rewrite El.
  - rewrite !Forall_forall in *. intros r Hr. right. destruct (Ht r Hr) as [_ ->]. by apply Hl.
Qed.

(** ** Providers *)

(** [Provider]: a successful answer is about the references asked for. *)
Class SecretProvider := {
  provider_Resolve : list string → result (gmap string string);
  provider_scope refs out :
    provider_Resolve refs = Ok out → ∀ k, is_Some (out !! k) → k ∈ refs;
}.

(** [MemoryProvider.Resolve] *)
Fixpoint resolveItems (items : gmap string string) (out : gmap string string) (refs : list string) :
    result (gmap string string) :=
  match refs with
  | [] => Ok out
  | ref :: rest =>
      match items !! ref with
      | None => Err (plainErr ("secret ref " +:+ quote ref +:+ " not found"))
      | Some value => resolveItems items (<[ref := value]> out) rest
      end
  end.

Definition MemoryProvider_Resolve (items : gmap string string) (refs : list string) :
    result (gmap string string) := resolveItems items ∅ refs.

Lemma resolveItems_spec items refs out out' :
  resolveItems items out refs = Ok out' →
  (∀ k, k ∈ refs → out' !! k = items !! k ∧ is_Some (items !! k)) ∧
  (∀ k, k ∉ refs → out' !! k = out !! k).
Proof.
  revert out. induction refs as [|r rest IH]; intros out; simpl.
  { intros [= <-]. split; [by intros k ?%not_elem_of_nil|done]. }
  destruct (items !! r) as [v|] eqn:Er; [|done]. intros H. destruct (IH _ H) as [H1 H2]. split.
  - intros k Hk. destruct (decide (k ∈ rest)) as [Hr|Hr]; [by apply H1|].
    apply elem_of_cons in Hk as [->|Hk]; [|done]. rewrite H2, lookup_insert_eq, Er by done. eauto.
  - intros k Hk. rewrite not_elem_of_cons in Hk. rewrite H2 by tauto.
    apply lookup_insert_ne. naive_solver.
Qed.

#[export] Program Instance MemoryProvider (items : gmap string string) : SecretProvider := {|
  provider_Resolve := MemoryProvider_Resolve items;
|}.
Next Obligation.
  intros items refs out H k [v Hk]. destruct (resolveItems_spec _ _ _ _ H) as [_ H2].
  destruct (decide (k ∈ refs)) as [|Hn]; [done|]. rewrite (H2 _ Hn), lookup_empty in Hk. done.
Qed.

(** ** Scoped resolution *)

Record ExecutionRequest := mkExecutionRequest {
  er_HostID : string;
  er_Region : string;
  er_FunctionVersionID : string;
  er_SecretRefs : list string;
}.

Section Resolver.
Context `{!GoEnv} `{!SecretProvider}.

Definition ResolveExecution (req : ExecutionRequest) : WM (gmap string string) :=
  if blank (er_HostID req) then fail (plainErr "hostId is required")
  else if blank (er_Region req) then fail (plainErr "region is required")
  else if blank (er_FunctionVersionID req) then fail (plainErr "functionVersionId is required")
  else
    let refs := normalizeSecretRefs (er_SecretRefs req) in
    if bool_decide (refs = []) then mret ∅ else
    host ← call (GetHost (er_HostID req));
    if negb (bool_decide (host_Region host = er_Region req)) then fail (sentinel ErrAccessDenied)
    else
      version ← call (GetFunctionVersion (er_FunctionVersionID req));
      if negb (bool_decide (er_Region req ∈ fv_Regions version)) then fail (sentinel ErrAccessDenied)
      else if negb (forallb (λ ref, bool_decide (ref ∈ fv_EnvRefs version)) refs)
      then fail (sentinel ErrAccessDenied)
      else lift (provider_Resolve refs).

(** [authorizedProxyToken]; the constant-time comparison compares. *)
Definition authorizedProxyToken (headerValue expectedToken : string) : bool :=
  let expectedToken := TrimSpace expectedToken in
  if bool_decide (expectedToken = "") then false
  else if negb (HasPrefix headerValue "Bearer ") then false
  else bool_decide (TrimSpace (TrimPrefix headerValue "Bearer ") = expectedToken).

(** The secrets, or a status with the text of [http.Error]. *)
Inductive ProxyResponse :=
| ProxySecrets (secrets : gmap string string)
| ProxyStatus (code : Z) (text : string).

(** [ProxyHandler.ServeHTTP]; [body] is the decoded request. *)
Definition ServeHTTP (token method authorization : string) (body : result ExecutionRequest) :
    WM ProxyResponse :=
  if negb (bool_decide (method = "POST")) then mret (ProxyStatus 405 "method not allowed")
  else if negb (authorizedProxyToken authorization token) then mret (ProxyStatus 401 "unauthorized")
  else
    match body with
    | Err e => mret (ProxyStatus 400 ("decode request: " +:+ Error e))
    | Ok req =>
        resolved ← try (ResolveExecution req);
        match resolved with
        | Ok secrets => mret (ProxySecrets secrets)
        | Err e =>
            mret (ProxyStatus (if errors_Is e ErrAccessDenied then 403
                               else if errors_Is e ErrNotFound then 404 else 400) (Error e))
        end
    end.

End Resolver.

(** ** Properties *)

(** Region normalization.  The result is either an error or a list without
    duplicates of supported regions, never empty, that contains exactly the
    supported regions named (after trimming) in a non-empty request, and all
    supported regions for an empty one; a request that names an unsupported
    region is refused. *)
Theorem normalize_regions_spec requested :
  match NormalizeExecutionRegions requested with
  | Ok l =>
      NoDup l ∧ l ≠ [] ∧ (∀ r, r ∈ l → r ∈ DefaultExecutionRegions) ∧
      (requested ≠ [] → ∀ r, r ∈ l ↔ r ≠ "" ∧ ∃ y, y ∈ requested ∧ TrimSpace y = r) ∧
      (∀ y, y ∈ requested → TrimSpace y = "" ∨ TrimSpace y ∈ DefaultExecutionRegions)
  | Err _ =>
      requested ≠ [] ∧
      ((∃ y, y ∈ requested ∧ TrimSpace y ≠ "" ∧ TrimSpace y ∉ DefaultExecutionRegions) ∨
       (∀ y, y ∈ requested → TrimSpace y = ""))
  end.
Proof.
  unfold NormalizeExecutionRegions. destruct requested as [|r0 rest] eqn:Er.
  { split_and!; [by apply (bool_decide_unpack _)|done|done|done|]. by intros y ?%not_elem_of_nil. }
  rewrite <- Er. assert (requested ≠ []) as Hne by (by rewrite Er). clear r0 rest Er.
  pose proof (normalizeRegions_fold requested (∅, [])) as Hf. rewrite Hf.
  pose proof (collect_fold requested ∅ []) as Hc.
  destruct (decide (Forall _ requested)) as [Hall|Hall].
  - destruct (foldl collect_step (∅, []) requested) as [s l]. destruct Hc as [H1 H2];
      [set_solver|constructor|]. simpl.
    assert (∀ x, x ∈ l ↔ x ≠ "" ∧ ∃ y, y ∈ requested ∧ TrimSpace y = x) as H3.
    { intros x. rewrite H2. set_solver. }
    rewrite Forall_forall in Hall. destruct l as [|a l].
    + split; [done|]. right. intros y Hy. destruct (decide (TrimSpace y = "")) as [|Hn]; [done|].
      exfalso. apply (not_elem_of_nil (TrimSpace y)), H3. eauto.
    + split_and!; [done|done| |done|done].
      intros r Hr. apply H3 in Hr as (Hr & y & Hy & <-). destruct (Hall y Hy); done.
  - destruct (normalizeRegions (∅, []) requested) as [l|e] eqn:En.
    { exfalso. apply Hall. by eapply normalizeRegions_ok. }
    split; [done|]. left. apply not_Forall_Exists in Hall; [|apply _].
    apply Exists_exists in Hall as (y & Hy & Hn). exists y. naive_solver.
Qed.

(** C36: least privilege of secret resolution.  When [ResolveExecution] returns
    secrets, every returned name is one the function version declares, the
    requesting host is registered in the region of the request, and the version
    is deployed there; nothing of the store changes.  This holds for any provider
    that answers only what it is asked. *)
Theorem resolve_least_privilege (E : GoEnv) (P : SecretProvider) req (w : World) out w' :
  quiet E →
  ResolveExecution req w = (Ok out, w') →
  w_store w' = w_store w ∧
  (out = ∅ ∨ ∃ host version,
     st_hosts (w_store w) !! er_HostID req = Some host ∧ host_Region host = er_Region req ∧
     st_functions (w_store w) !! er_FunctionVersionID req = Some version ∧
     er_Region req ∈ fv_Regions version ∧
     ∀ name, is_Some (out !! name) →
       name ∈ fv_EnvRefs version ∧ ∃ y, y ∈ er_SecretRefs req ∧ TrimSpace y = name).
Proof.
  intros Hq. unfold ResolveExecution. do 3 (case_match; [done|]). cbn zeta.
  destruct (normalizeSecretRefs_spec (er_SecretRefs req)) as [_ Hrefs].
  set (refs := normalizeSecretRefs (er_SecretRefs req)) in *.
  case_bool_decide; [intros [= <- <-]; auto|]. unfold GetHost, GetFunctionVersion.
  destruct (st_hosts (w_store w) !! er_HostID req) as [host|] eqn:Eh.
  2:{ by erewrite run_bind_err by (by apply run_find_none). }
  erewrite run_bind by (by apply run_find).
  destruct (bool_decide (host_Region host = er_Region req)) eqn:E1; [|done].
  apply bool_decide_eq_true in E1. cbn [negb].
  destruct (st_functions (w_store w) !! er_FunctionVersionID req) as [v|] eqn:Ev.
  2:{ by erewrite run_bind_err by (by apply run_find_none). }
  erewrite run_bind by (by apply run_find).
  destruct (bool_decide (er_Region req ∈ fv_Regions v)) eqn:E2; [|done].
  apply bool_decide_eq_true in E2. cbn [negb].
  destruct (forallb _ refs) eqn:E3; [|done]. rewrite forallb_forall in E3. cbn [negb].
  unfold lift. intros [= Ep <-]. split; [done|]. right. exists host, v. split_and!; try done.
  intros name Hn. apply (provider_scope _ _ Ep) in Hn. split.
  - apply list_elem_of_In, E3, bool_decide_eq_true in Hn. done.
  - apply Hrefs in Hn as [_ Hn]. done.
Qed.

Definition secret_world : World :=
  NewWorld <| w_store := NewStore
    <| st_hosts := {["h1" := mkHost "h1" "eu" "local" HostStateActive 1 0 0 ∅ 1]} |>
    <| st_functions := {["v1" := demo_version <| fv_EnvRefs := ["DB_URL"] |>]} |> |>.

Definition secret_run : result (gmap string string) * World :=
  @ResolveExecution demo_env (MemoryProvider {["DB_URL" := "x"; "OTHER" := "y"]})
    (mkExecutionRequest "h1" "eu" "v1" [" DB_URL "]) secret_world.

Lemma resolve_least_privilege_witness :
  secret_run.1 = Ok {["DB_URL" := "x"]} ∧ w_store secret_run.2 = w_store secret_world.
Proof.
  assert (secret_run.1 = Ok {["DB_URL" := "x"]}) as E1 by (vm_compute; reflexivity).
  split; [exact E1|].
  apply (resolve_least_privilege demo_env (MemoryProvider {["DB_URL" := "x"; "OTHER" := "y"]})
    (mkExecutionRequest "h1" "eu" "v1" [" DB_URL "]) secret_world {["DB_URL" := "x"]} secret_run.2 demo_quiet).
  rewrite <- E1. apply surjective_pairing.
Defined.

(** The secrets proxy answers only holders of the token.  With no token
    configured (blank text) every request is refused, and secrets are returned
    only for a POST whose header is "Bearer " followed by the configured token
    (up to surrounding white space). *)
Theorem proxy_requires_token (E : GoEnv) (P : SecretProvider) token method header body (w : World) :
  match (ServeHTTP token method header body w).1 with
  | Ok (ProxySecrets _) =>
      method = "POST" ∧ TrimSpace token ≠ "" ∧
      ∃ rest, header = "Bearer " +:+ rest ∧ TrimSpace rest = TrimSpace token
  | Ok (ProxyStatus code _) =>
      (method = "POST" → TrimSpace token = "" → code = 401%Z)
  | Err _ => False
  end.
Proof.
  unfold ServeHTTP. case_bool_decide as Hm; cbn [negb]; [|by intros ->].
  destruct (authorizedProxyToken header token) eqn:Ha; cbn [negb]; [|done].
  unfold authorizedProxyToken in Ha. case_bool_decide as Ht; [done|].
  destruct (HasPrefix header "Bearer ") eqn:Hp; cbn [negb] in Ha; [|done].
  apply bool_decide_eq_true in Ha.
  destruct body as [req|e]; [|by intros _ ?].
  rewrite M_bind_eq. unfold try. destruct (ResolveExecution req w) as [[out|e] w']; [|by intros _ ?].
  split; [done|]. split; [done|]. apply HasPrefix_spec in Hp as [rest ->].
  exists rest. split; [done|]. exact Ha.
Qed.
