(* ===== verification/Build.v ===== *)
(** * Build: deployments

    Models [internal/build/service.go] and [internal/build/replicator.go]:
    validation of a deploy request, idempotent creation of a function version,
    the build quota, the build job from its start to a published or failed
    version, and the replication of artifacts.

    [BuildEnv] holds what the service uses from outside: archives, commands and
    temporary directories ([BuildTools]), JSON, base64, the text of a time and
    random tokens.  The lines of a git workspace are stored after it is prepared.
    The object store is never nil, as in every process that starts the service.
    A build recorder is passed along explicitly; every line it takes is stored
    under the log key at once. *)

From Stdlib Require Import Ascii.
From stdpp Require Import base decidable tactics numbers list gmap strings.
From S2P Require Import Prelude Domain MemStore World Artifacts Files Archive BuildTools NextSite Workspace Secrets.

(** ** Requests *)

Definition defaultRuntime : string := "node22".
Definition defaultMemoryMB : Z := 128.
Definition defaultTimeoutSec : Z := 30.
Definition websiteMemoryMB : Z := 2048.
Definition websiteTimeoutSec : Z := 180.
Definition minMemoryMB : Z := 64.
Definition maxMemoryMB : Z := 4096.
Definition maxTimeoutSec : Z := 900.
Definition maxRetries : Z := 10.
Definition maxEnvVars : Z := 128.
Definition maxEnvRefs : Z := 128.
Definition maxArtifactSizeBytes : Z := 67108864.
Definition maxActiveBuildJobs : Z := 20.

Definition isWebsiteDeploy (source : DeploySource) : bool :=
  EqualFold (TrimSpace (map_getS (src_Metadata source) "deliveryKind")) "website" ||
  EqualFold (TrimSpace (map_getS (src_Metadata source) "framework")) "nextjs".

Definition byteIn (lo hi : N) (a : ascii) : bool :=
  (lo <=? N_of_ascii a)%N && (N_of_ascii a <=? hi)%N.
Definition isLetter (a : ascii) : bool := byteIn 65 90 a || byteIn 97 122 a.
Definition isDigit (a : ascii) : bool := byteIn 48 57 a.
Definition isUnderscore (a : ascii) : bool := byte_eqb a 95.

(** The bytes of the first rune of a valid UTF-8 text. *)
Definition firstRune (s : string) : string :=
  match s with
  | EmptyString => EmptyString
  | String a _ =>
      let n := N_of_ascii a in
      String.substring 0 (if (n <? 192)%N then 1 else if (n <? 224)%N then 2
                          else if (n <? 240)%N then 3 else 4) s
  end.

(** The runes of a name after the first: the first unsupported one. *)
Fixpoint badRune (s : string) : option string :=
  match s with
  | EmptyString => None
  | String a s' => if isLetter a || isDigit a || isUnderscore a then badRune s' else Some (firstRune s)
  end.

Definition validateEnvVar (key value : string) : result unit :=
  match TrimSpace key with
  | EmptyString => Err (plainErr "envVars cannot contain empty keys")
  | String a rest =>
      if negb (isLetter a || isUnderscore a) then
        Err (plainErr ("envVars key " +:+ quote key +:+ " must start with a letter or underscore"))
      else match badRune rest with
      | Some r => Err (plainErr ("envVars key " +:+ quote key +:+ " contains unsupported character " +:+
                                 quote r))
      | None =>
          if (16384 <? Z.of_nat (String.length value))%Z then
            Err (plainErr ("envVars value for " +:+ quote key +:+ " exceeds 16384 bytes"))
          else Ok tt
      end
  end.

Fixpoint validateEnvVars (vars : list (string * string)) : result unit :=
  match vars with
  | [] => Ok tt
  | (key, value) :: rest => validateEnvVar key value ≫= λ _, validateEnvVars rest
  end.

Fixpoint validateEnvRefs (vars : gmap string string) (refs : list string) : result unit :=
  match refs with
  | [] => Ok tt
  | ref :: rest =>
      if blank ref then Err (plainErr "envRefs cannot contain empty values")
      else match vars !! ref with
      | Some _ => Err (plainErr ("envRefs cannot overlap envVars key " +:+ quote ref))
      | None => validateEnvRefs vars rest
      end
  end.

Definition validateNetworkPolicy (policy : string) : result unit :=
  if bool_decide (policy = NetworkPolicyNone) || bool_decide (policy = NetworkPolicyFull) then Ok tt
  else if bool_decide (policy = NetworkPolicyAllowlist) then
    Err (plainErr ("network policy " +:+ quote policy +:+ " is not yet supported"))
  else Err (plainErr ("unsupported network policy " +:+ quote policy)).

Definition validateSource (source : DeploySource) : result unit :=
  if bool_decide (src_Type source = SourceTypeBundle) then
    if bool_decide (src_BundleBase64 source = "") && bool_decide (src_InlineFiles source = ∅)
    then Err (plainErr "bundle source requires bundleBase64 or inlineFiles") else Ok tt
  else if bool_decide (src_Type source = SourceTypeGit) then
    if blank (src_GitURL source) then Err (plainErr "gitUrl is required for git source") else Ok tt
  else Err (plainErr ("unsupported source type " +:+ quote (src_Type source))).

Section Validation.
Context `{!MapOrder}.

Definition validateDeployRequest (req : DeployRequest) : result unit :=
  if blank (dr_Entrypoint req) && negb (bool_decide (src_Type (dr_Source req) = SourceTypeGit)) then
    Err (plainErr "entrypoint is required")
  else if negb (bool_decide (dr_Runtime req = defaultRuntime)) then
    Err (plainErr ("unsupported runtime " +:+ quote (dr_Runtime req) +:+ ": only " +:+ defaultRuntime +:+
                   " is supported"))
  else if (dr_MemoryMB req <? minMemoryMB)%Z || (maxMemoryMB <? dr_MemoryMB req)%Z then
    Err (plainErr ("memoryMb must be between " +:+ itoa minMemoryMB +:+ " and " +:+ itoa maxMemoryMB))
  else if (dr_TimeoutSec req <? 1)%Z || (maxTimeoutSec <? dr_TimeoutSec req)%Z then
    Err (plainErr ("timeoutSec must be between 1 and " +:+ itoa maxTimeoutSec))
  else if (maxRetries <? dr_MaxRetries req)%Z then
    Err (plainErr ("maxRetries must be between 0 and " +:+ itoa maxRetries))
  else if (maxEnvRefs <? Z.of_nat (length (dr_EnvRefs req)))%Z then
    Err (plainErr ("envRefs cannot exceed " +:+ itoa maxEnvRefs +:+ " entries"))
  else if (maxEnvVars <? Z.of_nat (size (dr_EnvVars req)))%Z then
    Err (plainErr ("envVars cannot exceed " +:+ itoa maxEnvVars +:+ " entries"))
  else
    validateEnvVars (map_iter 302 (dr_EnvVars req)) ≫= λ _,
    validateEnvRefs (dr_EnvVars req) (dr_EnvRefs req) ≫= λ _,
    validateNetworkPolicy (dr_NetworkPolicy req) ≫= λ _,
    validateSource (dr_Source req).

(** The raises for a website, applied after the defaults. *)
Definition websiteDefaults (req : DeployRequest) : DeployRequest :=
  if isWebsiteDeploy (dr_Source req) then
    let req := if (dr_MemoryMB req <? websiteMemoryMB)%Z
               then req <| dr_MemoryMB := websiteMemoryMB |> else req in
    let req := if (dr_TimeoutSec req <? websiteTimeoutSec)%Z
               then req <| dr_TimeoutSec := websiteTimeoutSec |> else req in
    if bool_decide (dr_NetworkPolicy req = "") || bool_decide (dr_NetworkPolicy req = NetworkPolicyNone)
    then req <| dr_NetworkPolicy := NetworkPolicyFull |> else req
  else req.

(** The defaults of [normalizeDeployRequest]. *)
Definition applyDefaults (req : DeployRequest) : DeployRequest :=
  let req := if bool_decide (dr_Runtime req = "") then req <| dr_Runtime := defaultRuntime |> else req in
  let req := if (dr_TimeoutSec req =? 0)%Z then req <| dr_TimeoutSec := defaultTimeoutSec |> else req in
  let req := if (dr_MemoryMB req =? 0)%Z then req <| dr_MemoryMB := defaultMemoryMB |> else req in
  let req := websiteDefaults req in
  if bool_decide (dr_NetworkPolicy req = "") then req <| dr_NetworkPolicy := NetworkPolicyFull |> else req.

(** The checks on the time-out and the memory look at fields the defaults
    before them do not change. *)
Definition normalizeDeployRequest (req : DeployRequest) : result DeployRequest :=
  if bool_decide (dr_ProjectID req = "") then Err (plainErr "projectId is required")
  else if blank (dr_Name req) then Err (plainErr "name is required")
  else if (dr_TimeoutSec req <? 0)%Z then Err (plainErr "timeoutSec must be positive")
  else if (dr_MemoryMB req <? 0)%Z then Err (plainErr "memoryMb must be positive")
  else if (dr_MaxRetries req <? 0)%Z then Err (plainErr "maxRetries must be zero or greater")
  else
    regions ← NormalizeExecutionRegions (dr_Regions req);
    let req := (applyDefaults req) <| dr_Regions := regions |> in
    validateDeployRequest req ≫= λ _,
    Ok req.

End Validation.

(** ** The service *)

Record preparedBuildOutput := mkPreparedBuildOutput {
  pb_Bundle : string;
  pb_Startup : string;
  pb_Metadata : gmap string string;
  pb_Entrypoint : string;
  pb_Site : option preparedNextSite;
}.

Class BuildEnv := {
  build_archives :: Archives;
  build_tools :: BuildTools;
  format_RFC3339 : Time → string;
  json_MarshalDeploy : DeployRequest → result string;
  json_MarshalDeployHash : DeployRequest → result string;
  json_UnmarshalDeploy : string → result DeployRequest;
  json_MarshalManifest : DeployRequest → string → result string;
  json_MarshalStartup : string → string → Time → result string;
  json_MarshalSite : WebsiteManifest → result string;
  base64_Decode : string → result string;
  rand_Token : nat → result string;
}.

Record ReplicationRequest := mkReplicationRequest {
  rq_BundleKey : string;
  rq_Bundle : string;
  rq_StartupKey : string;
  rq_Startup : string;
  rq_Regions : list string;
}.

(** The service's optional collaborators and its limit. *)
Record BuildConfig := mkBuildConfig {
  bc_bus : option (string → string → WM unit);
  bc_warmer : option (FunctionVersion → WM unit);
  bc_replica : option (ReplicationRequest → WM (gmap string Time));
  bc_maxActiveBuildJobsPerProject : Z;
}.

Definition NewBuild : BuildConfig := mkBuildConfig None None None maxActiveBuildJobs.

(** The recorder of a build: its text and the key it is stored under, blank when
    it is not stored. *)
Record buildRecorder := mkBuildRecorder { rec_text : string; rec_key : string }.

Definition newline : string := String (ascii_of_N 10) EmptyString.

Section Build.
Context `{!GoEnv, !BuildEnv} (cfg : BuildConfig).

(** [Put] on the object store called [name]. *)
Definition putObject (name key data : string) : WM unit := λ w,
  let w1 := w <| w_calls := S (w_calls w) |> in
  match env_fault (w_calls w) with
  | Some e => (Err e, w1)
  | None =>
      let objects := (objectPut key data (default ∅ (w_objects w !! name))).2 in
      (Ok tt, w1 <| w_objects := <[name := objects]> (w_objects w) |>)
  end.

(** A draw from a source of fresh values. *)
Definition draw {A} (source : nat → A) : WM A := λ w,
  (Ok (source (w_uid w)), w <| w_uid := S (w_uid w) |>).

Definition Printf (rec : buildRecorder) (line : string) : WM buildRecorder :=
  t ← now;
  let rec := mkBuildRecorder (rec_text rec +:+ "[" +:+ format_RFC3339 t +:+ "] " +:+ line +:+ newline)
               (rec_key rec) in
  (if blank (rec_key rec) then mret tt
   else ignore (putObject "" (rec_key rec) (rec_text rec))) ≫= λ _,
  mret rec.

Fixpoint PrintAll (rec : buildRecorder) (lines : list string) : WM buildRecorder :=
  match lines with
  | [] => mret rec
  | line :: rest => rec ← Printf rec line; PrintAll rec rest
  end.

(** ** Request hashing and storage *)

Definition sanitizeDeployRequestForStorage (req : DeployRequest) : DeployRequest :=
  req <| dr_Source := (dr_Source req) <| src_GitURL := sanitizeGitURL (src_GitURL (dr_Source req)) |> |>.

(** The hashed struct has every field but the idempotency key. *)
Definition deployRequestHash (req : DeployRequest) : result string :=
  encoded ← json_MarshalDeployHash ((sanitizeDeployRequestForStorage req) <| dr_IdempotencyKey := "" |>);
  Ok (sha256_hex encoded).

Definition pickBuildRegion (targetRegions : list string) : string :=
  match targetRegions with [] => DefaultPrimary | region :: _ => region end.

(** ** Creation *)

Definition enforceBuildQuota (projectID : string) : WM unit :=
  let max := bc_maxActiveBuildJobsPerProject cfg in
  if (max <=? 0)%Z then mret tt else
  count ← call (CountBuildJobsByProjectStates projectID ["queued"; "running"]);
  if (max <=? count)%Z then
    fail (wrapErr ErrProjectBuildQuota (": project " +:+ projectID +:+ " already has " +:+
      itoa count +:+ " active build jobs (limit " +:+ itoa max +:+ ")"))
  else mret tt.

Definition initializeBuild (req : DeployRequest) : WM (FunctionVersion * BuildJob) :=
  t ← now;
  versionID ← NewString;
  buildJobID ← NewString;
  let logsKey := BuildLogsKey buildJobID in
  requestPayload ← lift (json_MarshalDeploy req);
  let version := mkFunctionVersion versionID (dr_ProjectID req) (dr_Name req) (dr_Runtime req)
    (dr_Entrypoint req) (dr_MemoryMB req) (dr_TimeoutSec req) (dr_NetworkPolicy req) (dr_Regions req)
    (dr_EnvVars req) (dr_EnvRefs req) (dr_MaxRetries req) buildJobID (src_Type (dr_Source req)) ""
    FunctionStateBuilding t in
  call (PutFunctionVersion version) ≫= λ _,
  let buildJob := mkBuildJob buildJobID versionID (pickBuildRegion (dr_Regions req))
    (buildMetadataForRequest req) "queued" "" logsKey requestPayload t t in
  call (PutBuildJob buildJob) ≫= λ _,
  putObject "" logsKey ("[" +:+ format_RFC3339 t +:+ "] build job " +:+ buildJobID +:+
    " queued for function version " +:+ versionID +:+ " in region " +:+ bj_TargetRegion buildJob +:+
    newline) ≫= λ _,
  mret (version, buildJob).

(** ** The end of a build *)

Definition markBuildFailed (version : FunctionVersion) (buildJob : BuildJob) (err : GoError) : WM unit :=
  t ← now;
  call (PutFunctionVersion (version <| fv_State := FunctionStateFailed |>)) ≫= λ _,
  call (PutBuildJob (buildJob <| bj_State := "failed" |> <| bj_Error := Error err |>
                              <| bj_UpdatedAt := t |>)) ≫= λ _,
  fail err.

Definition archiveBuildLogs (buildJob : BuildJob) (rec : buildRecorder) : WM BuildJob :=
  let key := BuildLogsKey (bj_ID buildJob) in
  putObject "" key (rec_text rec) ≫= λ _,
  mret (buildJob <| bj_LogsKey := key |>).

Definition markBuildFailedWithLogs (version : FunctionVersion) (buildJob : BuildJob)
    (rec : buildRecorder) (err : GoError) : WM unit :=
  rec ← Printf rec ("build job " +:+ bj_ID buildJob +:+ " failed: " +:+ Error err);
  archived ← try (archiveBuildLogs buildJob rec);
  match archived with
  | Ok buildJob => markBuildFailed version buildJob err
  | Err e =>
      markBuildFailed version buildJob
        (wrapText "" err (" (build log archival failed: " +:+ Error e +:+ ")"))
  end.

(** [if err != nil { return s.markBuildFailedWithLogs(...) }] *)
Definition orFail {A} (version : FunctionVersion) (buildJob : BuildJob) (rec : buildRecorder)
    (m : WM A) (k : A → WM unit) : WM unit :=
  r ← try m;
  match r with
  | Err e => markBuildFailedWithLogs version buildJob rec e
  | Ok a => k a
  end.

(** ** Building *)

(** The manifest and startup files of a build. *)
Definition manifestFiles (req : DeployRequest) (entrypoint : string) : WM (string * string) :=
  manifest ← lift (json_MarshalManifest req entrypoint);
  t ← now;
  startup ← lift (json_MarshalStartup entrypoint (dr_Runtime req) t);
  mret (manifest, startup).

(** The outcome is a value, so that the lines recorded before an error are
    kept. *)
Definition prepareBundle (req : DeployRequest) (rec : buildRecorder) :
    WM (buildRecorder * result preparedBuildOutput) :=
  let entrypoint := dr_Entrypoint req in
  files ← try (manifestFiles req entrypoint);
  match files with
  | Err e => mret (rec, Err e)
  | Ok (manifest, startup) =>
      let extra := <["function.json" := manifest]> {["startup.json" := startup]} in
      let output bundle := mkPreparedBuildOutput bundle startup ∅ entrypoint None in
      rec ← Printf rec "validating bundle source";
      if bool_decide (src_BundleBase64 (dr_Source req) = "") then
        rec ← Printf rec "packaging inline source files into immutable bundle";
        mret (rec, bundle ← BundleFromFiles (extra ∪ src_InlineFiles (dr_Source req)); Ok (output bundle))
      else
        rec ← Printf rec "decoding bundleBase64 payload";
        match base64_Decode (src_BundleBase64 (dr_Source req)) with
        | Err e => mret (rec, Err e)
        | Ok decoded =>
            tmpDir ← draw os_MkdirTemp;
            match tmpDir with
            | Err e => mret (rec, Err e)
            | Ok (tmpDir, tree) =>
                match ExtractTarGz decoded tmpDir tree with
                | (Err e, _) => mret (rec, Err e)
                | (Ok _, extracted) =>
                    rec ← Printf rec "extracted uploaded bundle archive for smoke validation";
                    mret (rec, bundle ← BundleFromDirectory tmpDir extra extracted; Ok (output bundle))
                end
            end
        end
  end.

Definition prepareGit (req : DeployRequest) (rec : buildRecorder) :
    WM (buildRecorder * result preparedBuildOutput) :=
  '(lines, workspace) ← draw (λ n, prepareGitWorkspace n req);
  rec ← PrintAll rec lines;
  match workspace with
  | Err e => mret (rec, Err e)
  | Ok ws =>
      let '(entrypoint, bundleRoot, metadata) :=
        match gw_site ws with
        | Some site => (ns_Entrypoint site, ns_BundleRoot site,
            <["deliveryKind" := "website"]> (<["framework" := "nextjs"]> (gw_metadata ws)))
        | None => (dr_Entrypoint req, gw_root ws, gw_metadata ws)
        end in
      files ← try (manifestFiles req entrypoint);
      match files with
      | Err e => mret (rec, Err e)
      | Ok (manifest, startup) =>
          rec ← Printf rec ("packaging prepared git workspace from " +:+ bundleRoot);
          mret (rec,
            bundle ← BundleFromDirectory bundleRoot
                       (<["function.json" := manifest]> {["startup.json" := startup]}) (gw_tree ws);
            Ok (mkPreparedBuildOutput bundle startup metadata entrypoint (gw_site ws)))
      end
  end.

Definition prepareBuildOutput (req : DeployRequest) (rec : buildRecorder) :
    WM (buildRecorder * result preparedBuildOutput) :=
  let kind := src_Type (dr_Source req) in
  if bool_decide (kind = SourceTypeBundle) then prepareBundle req rec
  else if bool_decide (kind = SourceTypeGit) then prepareGit req rec
  else mret (rec, Err (plainErr ("unsupported source type " +:+ quote kind))).

(** ** Publication *)

(** [RegionReplicator.Replicate] with stores for the regions [stores]. *)
Fixpoint replicateRegions (stores : gset string) (req : ReplicationRequest)
    (available : gmap string Time) (regions : list string) : WM (gmap string Time) :=
  match regions with
  | [] => mret available
  | region :: rest =>
      if negb (bool_decide (region ∈ stores)) then
        fail (plainErr ("artifact replication target " +:+ region +:+ " is not configured"))
      else
        bundled ← try (putObject region (rq_BundleKey req) (rq_Bundle req));
        match bundled with
        | Err e => fail (wrapText ("replicate bundle to " +:+ region +:+ ": ") e "")
        | Ok _ =>
            started ← try (putObject region (rq_StartupKey req) (rq_Startup req));
            match started with
            | Err e => fail (wrapText ("replicate startup metadata to " +:+ region +:+ ": ") e "")
            | Ok _ => t ← now; replicateRegions stores req (<[region := t]> available) rest
            end
        end
  end.

Definition Replicate (stores : gset string) (req : ReplicationRequest) : WM (gmap string Time) :=
  replicateRegions stores req ∅ (rq_Regions req).

Definition generateHTTPTriggerToken : WM string := token ← draw rand_Token; lift token.

(** The attempts to store a trigger under a fresh token. *)
Fixpoint createTrigger (attempts : nat) (version : FunctionVersion) : WM unit :=
  match attempts with
  | 0 => fail (plainErr ("create default http trigger for function version " +:+ fv_ID version +:+
                         ": exhausted token retries"))
  | S attempts =>
      token ← try generateHTTPTriggerToken;
      match token with
      | Err e => fail (wrapText "generate default http trigger token: " e "")
      | Ok token =>
          t ← now;
          put ← try (call (PutHTTPTrigger (mkHTTPTrigger token (fv_ProjectID version) (fv_ID version)
                  "default public function url" HTTPTriggerAuthModeNone true t)));
          match put with
          | Ok _ => mret tt
          | Err e =>
              if errors_Is e ErrAlreadyExists then createTrigger attempts version
              else fail (wrapText ("create default http trigger for function version " +:+
                                   fv_ID version +:+ ": ") e "")
          end
      end
  end.

Definition ensureDefaultHTTPTrigger (version : FunctionVersion) (rec : buildRecorder) : WM buildRecorder :=
  triggers ← try (call (ListHTTPTriggersByFunctionVersion (fv_ID version)));
  match triggers with
  | Err e => fail (wrapText ("list http triggers for function version " +:+ fv_ID version +:+ ": ") e "")
  | Ok (_ :: _) =>
      Printf rec ("default public http trigger already exists for function version " +:+ fv_ID version)
  | Ok [] =>
      createTrigger 3 version ≫= λ _,
      Printf rec ("created default public http trigger for function version " +:+ fv_ID version)
  end.

(** ** The build job *)

Definition bundleKeyOf (digest : string) : string := "artifacts/" +:+ digest +:+ "/bundle.tgz".
Definition startupKeyOf (digest : string) : string := "artifacts/" +:+ digest +:+ "/startup.json".

(** Where the artifact is available: as the replicator says, or marked in every
    requested region. *)
Definition artifactRegions (req : DeployRequest) (digest bundle startup : string) (t : Time) :
    WM (gmap string Time) :=
  match bc_replica cfg with
  | Some replicate =>
      replicate (mkReplicationRequest (bundleKeyOf digest) bundle (startupKeyOf digest) startup
                   (dr_Regions req))
  | None => mret (list_to_map ((λ region, (region, t)) <$> dr_Regions req))
  end.

Definition regionLine (region : string) : string :=
  match bc_replica cfg with
  | Some _ => "replicated artifact into region " +:+ region
  | None => "marked artifact available in region " +:+ region
  end.

Definition encodeWebsiteManifest (versionID staticPrefix entrypoint : string) (createdAt : Time) : result string :=
  json_MarshalSite (mkWebsiteManifest "nextjs" versionID staticPrefix entrypoint createdAt).

(** The objects of a website. *)
Definition uploadSite (version : FunctionVersion) (digest entrypoint : string) (t : Time)
    (site : preparedNextSite) : WM unit :=
  for_each (ns_StaticAssets site) (λ asset,
    putObject "" (SiteAssetObjectKey digest asset.1) asset.2) ≫= λ _,
  manifest ← lift (encodeWebsiteManifest (fv_ID version) (SiteAssetsPrefix digest) entrypoint t);
  putObject "" (SiteManifestKey digest) manifest.

Definition siteLines (digest : string) (site : preparedNextSite) : list string :=
  ["uploaded next.js site manifest to " +:+ SiteManifestKey digest;
   "uploaded " +:+ itoa (Z.of_nat (length (ns_StaticAssets site))) +:+ " next.js static assets to " +:+
     SiteAssetsPrefix digest].

(** [ProcessBuildJob] once the version is stored as ready. *)
Definition finishBuild (version : FunctionVersion) (buildJob : BuildJob) (rec : buildRecorder) : WM unit :=
  orFail version buildJob rec (ensureDefaultHTTPTrigger version rec) (λ rec,
  rec ← match bc_warmer cfg with
        | Some warmer =>
            if bool_decide (fv_EnvRefs version = []) then
              warmed ← try (warmer version);
              match warmed with
              | Err e => Printf rec ("warm preparation deferred for function version " +:+
                                     fv_ID version +:+ ": " +:+ Error e)
              | Ok _ => Printf rec ("function warm preparation ready for function version " +:+
                                    fv_ID version)
              end
            else Printf rec ("warm preparation skipped for function version " +:+ fv_ID version +:+
                             " because envRefs are configured")
        | None => mret rec
        end;
  rec ← Printf rec ("build job " +:+ bj_ID buildJob +:+ " completed successfully");
  archived ← try (archiveBuildLogs buildJob rec);
  buildJob ← match archived with
             | Ok buildJob => mret buildJob
             | Err e => Printf rec ("build log archival failed: " +:+ Error e) ≫= λ _, mret buildJob
             end;
  t ← now;
  call (PutBuildJob (buildJob <| bj_State := "succeeded" |> <| bj_Error := "" |>
                              <| bj_UpdatedAt := t |>))).

(** [ProcessBuildJob] from the prepared output to the ready version. *)
Definition publishBuild (version : FunctionVersion) (buildJob : BuildJob) (req : DeployRequest)
    (rec : buildRecorder) (prepared : preparedBuildOutput) : WM unit :=
  let bundle := pb_Bundle prepared in
  let startup := pb_Startup prepared in
  let buildJob := buildJob <| bj_Metadata := mergeBuildMetadata (bj_Metadata buildJob) (pb_Metadata prepared) |> in
  let bundleSize := Z.of_nat (String.length bundle) in
  if (maxArtifactSizeBytes <? bundleSize)%Z then
    markBuildFailedWithLogs version buildJob rec
      (plainErr ("artifact size " +:+ itoa bundleSize +:+ " exceeds limit of " +:+
                 itoa maxArtifactSizeBytes +:+ " bytes"))
  else
    let digest := sha256_hex bundle in
    rec ← Printf rec ("prepared immutable bundle digest=" +:+ digest +:+ " sizeBytes=" +:+ itoa bundleSize);
    orFail version buildJob rec (putObject "" (bundleKeyOf digest) bundle) (λ _,
    orFail version buildJob rec (putObject "" (startupKeyOf digest) startup) (λ _,
    rec ← Printf rec ("uploaded bundle to " +:+ bundleKeyOf digest +:+ " and startup metadata to " +:+
                      startupKeyOf digest);
    t ← now;
    orFail version buildJob rec (artifactRegions req digest bundle startup t) (λ regions,
    rec ← PrintAll rec (regionLine <$> dr_Regions req);
    let artifactMeta := mkArtifact digest bundleSize (bundleKeyOf digest) (startupKeyOf digest) regions t in
    let publish rec :=
      orFail version buildJob rec (call (PutArtifact artifactMeta)) (λ _,
      let version := version <| fv_ArtifactDigest := digest |> <| fv_Entrypoint := pb_Entrypoint prepared |>
                             <| fv_State := FunctionStateReady |> in
      orFail version buildJob rec (call (PutFunctionVersion version)) (λ _,
      finishBuild version buildJob rec)) in
    match pb_Site prepared with
    | None => publish rec
    | Some site =>
        orFail version buildJob rec (uploadSite version digest (pb_Entrypoint prepared) t site) (λ _,
        rec ← PrintAll rec (siteLines digest site);
        publish rec)
    end))).

(** [ProcessBuildJob] once the request is decoded and normalized. *)
Definition runBuild (version : FunctionVersion) (buildJob : BuildJob) (req : DeployRequest) : WM unit :=
  let buildJob := match json_MarshalDeploy (sanitizeDeployRequestForStorage req) with
                  | Ok payload => buildJob <| bj_Request := payload |>
                  | Err _ => buildJob
                  end in
  let buildJob := buildJob <| bj_State := "running" |> <| bj_Error := "" |> in
  let buildJob := if blank (bj_LogsKey buildJob)
                  then buildJob <| bj_LogsKey := BuildLogsKey (bj_ID buildJob) |> else buildJob in
  t ← now;
  let buildJob := buildJob <| bj_UpdatedAt := t |> in
  let version := version <| fv_State := FunctionStateBuilding |> <| fv_ArtifactDigest := "" |>
                         <| fv_Entrypoint := "" |> in
  call (PutFunctionVersion version) ≫= λ _,
  call (PutBuildJob buildJob) ≫= λ _,
  rec ← PrintAll (mkBuildRecorder "" (bj_LogsKey buildJob))
    ["build job " +:+ bj_ID buildJob +:+ " started for function version " +:+ fv_ID version +:+
       " in region " +:+ bj_TargetRegion buildJob;
     "source type=" +:+ src_Type (dr_Source req) +:+ " runtime=" +:+ dr_Runtime req +:+ " entrypoint=" +:+
       dr_Entrypoint req];
  '(rec, prepared) ← prepareBuildOutput req rec;
  match prepared with
  | Err e => markBuildFailedWithLogs version buildJob rec e
  | Ok prepared => publishBuild version buildJob req rec prepared
  end.

Definition ProcessBuildJob (buildJobID : string) : WM unit :=
  buildJob ← call (GetBuildJob buildJobID);
  if bool_decide (bj_State buildJob = "succeeded") then mret tt else
  version ← call (GetFunctionVersion (bj_FunctionVersionID buildJob));
  match json_UnmarshalDeploy (bj_Request buildJob) with
  | Err e => markBuildFailed version buildJob (wrapText "decode build request: " e "")
  | Ok req =>
      match normalizeDeployRequest req with
      | Err e => markBuildFailed version buildJob e
      | Ok req => runBuild version buildJob req
      end
  end.

(** ** Function versions *)

Definition createFunctionVersion (req : DeployRequest) : WM FunctionVersion :=
  req ← lift (normalizeDeployRequest req);
  enforceBuildQuota (dr_ProjectID req) ≫= λ _,
  '(version, buildJob) ← initializeBuild req;
  match bc_bus cfg with
  | Some PublishBuild =>
      published ← try (PublishBuild (bj_TargetRegion buildJob) (bj_ID buildJob));
      match published with
      | Err e =>
          ignore (markBuildFailed version buildJob (wrapText "publish build job: " e "")) ≫= λ _, fail e
      | Ok _ => mret version
      end
  | None =>
      ProcessBuildJob (bj_ID buildJob) ≫= λ _,
      call (GetFunctionVersion (fv_ID version))
  end.

Definition replayFunctionVersion (projectID key requestHash : string) : WM FunctionVersion :=
  record ← call (GetIdempotencyRecord "deploy" projectID key);
  if negb (bool_decide (idem_RequestHash record = requestHash)) then
    fail (sentinel ErrIdempotencyConflict)
  else if negb (bool_decide (idem_Status record = IdempotencyStatusCompleted)) ||
          bool_decide (idem_ResourceID record = "") then
    fail (sentinel ErrIdempotencyInProgress)
  else call (GetFunctionVersion (idem_ResourceID record)).

Definition createFunctionVersionIdempotent (req : DeployRequest) : WM FunctionVersion :=
  requestHash ← lift (deployRequestHash req);
  t ← now;
  let record := mkIdempotencyRecord "deploy" (dr_ProjectID req) (dr_IdempotencyKey req) requestHash ""
                  "function_version" IdempotencyStatusPending t t in
  created ← try (call (CreateIdempotencyRecord record));
  match created with
  | Err e =>
      if errors_Is e ErrAlreadyExists
      then replayFunctionVersion (dr_ProjectID req) (dr_IdempotencyKey req) requestHash
      else fail e
  | Ok _ =>
      version ← try (createFunctionVersion req);
      match version with
      | Err e =>
          ignore (call (DeleteIdempotencyRecord (idem_Scope record) (idem_ProjectID record)
                          (idem_Key record))) ≫= λ _,
          fail e
      | Ok version =>
          t' ← now;
          call (UpdateIdempotencyRecord (record <| idem_ResourceID := fv_ID version |>
                                                <| idem_Status := IdempotencyStatusCompleted |>
                                                <| idem_UpdatedAt := t' |>)) ≫= λ _,
          mret version
      end
  end.

Definition CreateFunctionVersion (req : DeployRequest) : WM FunctionVersion :=
  if negb (bool_decide (dr_IdempotencyKey req = "")) then createFunctionVersionIdempotent req
  else createFunctionVersion req.

End Build.
