(* ===== verification/BuildFacts.v ===== *)
(** * BuildFacts: what the build service guarantees

    Theorems on [Build]: the limits a deployment meets once its request is
    accepted, and that acceptance is stable; the end of every build job; the
    invariant that a ready version has its artifact; idempotent deployment. *)

From stdpp Require Import base decidable tactics numbers list gmap strings.
From S2P Require Import Prelude Domain MemStore World Jobs Artifacts Files Archive BuildTools NextSite Workspace Secrets.
From S2P Require Import Build.

(** ** Accepted requests *)

Record deploy_ok (r : DeployRequest) : Prop := {
  dk_project : dr_ProjectID r ≠ "";
  dk_name : blank (dr_Name r) = false;
  dk_entrypoint : blank (dr_Entrypoint r) = false ∨ src_Type (dr_Source r) = SourceTypeGit;
  dk_runtime : dr_Runtime r = "node22";
  dk_memory : (64 ≤ dr_MemoryMB r ≤ 4096)%Z;
  dk_timeout : (1 ≤ dr_TimeoutSec r ≤ 900)%Z;
  dk_retries : (0 ≤ dr_MaxRetries r ≤ 10)%Z;
  dk_regions : NoDup (dr_Regions r) ∧ dr_Regions r ≠ [] ∧
    Forall (λ x, x ∈ DefaultExecutionRegions) (dr_Regions r);
  dk_vars : size (dr_EnvVars r) ≤ 128 ∧
    map_Forall (λ k v, validateEnvVar k v = Ok tt) (dr_EnvVars r);
  dk_refs : length (dr_EnvRefs r) ≤ 128 ∧
    Forall (λ ref, blank ref = false ∧ dr_EnvVars r !! ref = None) (dr_EnvRefs r);
  dk_policy : dr_NetworkPolicy r = "none" ∨ dr_NetworkPolicy r = "full";
  dk_source : validateSource (dr_Source r) = Ok tt;
  dk_website : isWebsiteDeploy (dr_Source r) = true →
    (2048 ≤ dr_MemoryMB r ∧ 180 ≤ dr_TimeoutSec r)%Z ∧ dr_NetworkPolicy r = "full";
}.

Lemma validateEnvVars_ok l :
  validateEnvVars l = Ok tt ↔ Forall (λ kv, validateEnvVar kv.1 kv.2 = Ok tt) l.
Proof.
  induction l as [|[k v] l IH]; simpl; [by split|]. rewrite Forall_cons, <- IH. simpl.
  destruct (validateEnvVar k v) as [[]|]; simpl; naive_solver.
Qed.

Lemma validateEnvRefs_ok vars l :
  validateEnvRefs vars l = Ok tt ↔ Forall (λ ref, blank ref = false ∧ vars !! ref = None) l.
Proof.
  induction l as [|ref l IH]; simpl; [by split|]. rewrite Forall_cons, <- IH.
  destruct (blank ref), (vars !! ref); naive_solver.
Qed.

Lemma validateNetworkPolicy_ok p : validateNetworkPolicy p = Ok tt ↔ p = "none" ∨ p = "full".
Proof.
  unfold validateNetworkPolicy, NetworkPolicyNone, NetworkPolicyFull.
  repeat case_bool_decide; simpl; naive_solver.
Qed.

Lemma result_bind_ok {A B} (m : result A) (f : A → result B) b :
  (m ≫= f) = Ok b ↔ ∃ a, m = Ok a ∧ f a = Ok b.
Proof. destruct m; simpl; naive_solver. Qed.

Lemma guard_ok {A} (b : bool) e (r : result A) x :
  (if b then Err e else r) = Ok x ↔ b = false ∧ r = Ok x.
Proof. destruct b; naive_solver. Qed.

Lemma result_bind_unit (m : result unit) {A} (r : result A) x :
  (m ≫= λ _, r) = Ok x ↔ m = Ok tt ∧ r = Ok x.
Proof. destruct m as [[]|]; simpl; naive_solver. Qed.

Section Accepted.
Context `{!MapOrder}.

(** The fields a request is validated on; the order in which the variables are
    visited is irrelevant. *)
Lemma validateDeployRequest_ok r :
  validateDeployRequest r = Ok tt ↔
  (blank (dr_Entrypoint r) = false ∨ src_Type (dr_Source r) = SourceTypeGit) ∧
  dr_Runtime r = "node22" ∧ (64 ≤ dr_MemoryMB r ≤ 4096)%Z ∧ (1 ≤ dr_TimeoutSec r ≤ 900)%Z ∧
  (dr_MaxRetries r ≤ 10)%Z ∧ length (dr_EnvRefs r) ≤ 128 ∧ size (dr_EnvVars r) ≤ 128 ∧
  map_Forall (λ k v, validateEnvVar k v = Ok tt) (dr_EnvVars r) ∧
  Forall (λ ref, blank ref = false ∧ dr_EnvVars r !! ref = None) (dr_EnvRefs r) ∧
  (dr_NetworkPolicy r = "none" ∨ dr_NetworkPolicy r = "full") ∧ validateSource (dr_Source r) = Ok tt.
Proof.
  assert (map_Forall (λ k v, validateEnvVar k v = Ok tt) (dr_EnvVars r) ↔
    validateEnvVars (map_iter 302 (dr_EnvVars r)) = Ok tt) as ->.
  { rewrite validateEnvVars_ok, Forall_forall. split.
    - intros Hv [k v] Hkv. apply elem_of_map_iter in Hkv. by apply Hv.
    - intros Hv k v Hkv. by apply (Hv (k, v)), elem_of_map_iter. }
  rewrite <- validateEnvRefs_ok, <- validateNetworkPolicy_ok. unfold validateDeployRequest.
  unfold minMemoryMB, maxMemoryMB, maxTimeoutSec, maxRetries, maxEnvRefs, maxEnvVars, defaultRuntime.
  rewrite !guard_ok, !result_bind_unit. rewrite andb_false_iff, !negb_false_iff, !orb_false_iff,
    !Z.ltb_ge, !bool_decide_eq_true.
  split; intros; destruct_and?; split_and?; try done; lia.
Qed.

End Accepted.

(** ** Normalization *)

(** The request with every default and website raise applied, and the given
    regions. *)
Definition effective (req : DeployRequest) (regs : list string) : DeployRequest :=
  let web := isWebsiteDeploy (dr_Source req) in
  let memory := if (dr_MemoryMB req =? 0)%Z then 128%Z else dr_MemoryMB req in
  let timeout := if (dr_TimeoutSec req =? 0)%Z then 30%Z else dr_TimeoutSec req in
  let policy := dr_NetworkPolicy req in
  req <| dr_Runtime := if bool_decide (dr_Runtime req = "") then "node22" else dr_Runtime req |>
      <| dr_MemoryMB := if web then Z.max 2048 memory else memory |>
      <| dr_TimeoutSec := if web then Z.max 180 timeout else timeout |>
      <| dr_NetworkPolicy := if bool_decide (policy = "") || web && bool_decide (policy = "none")
                             then "full" else policy |>
      <| dr_Regions := regs |>.

Lemma websiteDefaults_eq r :
  isWebsiteDeploy (dr_Source r) = true →
  websiteDefaults r =
  r <| dr_MemoryMB := Z.max 2048 (dr_MemoryMB r) |> <| dr_TimeoutSec := Z.max 180 (dr_TimeoutSec r) |>
    <| dr_NetworkPolicy := if bool_decide (dr_NetworkPolicy r = "") || bool_decide (dr_NetworkPolicy r = "none")
                           then "full" else dr_NetworkPolicy r |>.
Proof.
  intros Hw. unfold websiteDefaults, websiteMemoryMB, websiteTimeoutSec, NetworkPolicyNone, NetworkPolicyFull.
  rewrite Hw. destruct r as [p n rt ep mem tmo pol regions vars refs mr ik src].
  cbn [dr_MemoryMB dr_TimeoutSec dr_NetworkPolicy].
  assert (Z.max 2048 mem = if (mem <? 2048)%Z then 2048 else mem)%Z as ->.
  { destruct (Z.ltb_spec mem 2048); lia. }
  assert (Z.max 180 tmo = if (tmo <? 180)%Z then 180 else tmo)%Z as ->.
  { destruct (Z.ltb_spec tmo 180); lia. }
  destruct (mem <? 2048)%Z; cbn -[bool_decide]; destruct (tmo <? 180)%Z; cbn -[bool_decide];
    by destruct (_ || _).
Qed.

Lemma if_set_policy (b : bool) r v :
  (if b then r <| dr_NetworkPolicy := v |> else r) =
  r <| dr_NetworkPolicy := if b then v else dr_NetworkPolicy r |>.
Proof. by destruct b, r. Qed.

(** The defaults before the website's. *)
Lemma if_set_defaults (b1 b2 b3 : bool) r v1 v2 v3 :
  (let r1 := if b1 then r <| dr_Runtime := v1 |> else r in
   let r2 := if b2 then r1 <| dr_TimeoutSec := v2 |> else r1 in
   if b3 then r2 <| dr_MemoryMB := v3 |> else r2) =
  r <| dr_Runtime := if b1 then v1 else dr_Runtime r |>
    <| dr_TimeoutSec := if b2 then v2 else dr_TimeoutSec r |>
    <| dr_MemoryMB := if b3 then v3 else dr_MemoryMB r |>.
Proof. by destruct b1, b2, b3, r. Qed.

Lemma applyDefaults_eq req regs : (applyDefaults req) <| dr_Regions := regs |> = effective req regs.
Proof.
  unfold applyDefaults.
  assert (∀ r v (b : bool), dr_TimeoutSec (if b then r <| dr_Runtime := v |> else r) = dr_TimeoutSec r ∧
    dr_MemoryMB (if b then r <| dr_Runtime := v |> else r) = dr_MemoryMB r) as H1 by (by intros ?? []).
  assert (∀ r v (b : bool), dr_MemoryMB (if b then r <| dr_TimeoutSec := v |> else r) = dr_MemoryMB r)
    as H2 by (by intros ?? []).
  cbv zeta. rewrite !H2. rewrite !(proj1 (H1 _ _ _)), !(proj2 (H1 _ _ _)).
  pose proof (if_set_defaults (bool_decide (dr_Runtime req = "")) (dr_TimeoutSec req =? 0)%Z
    (dr_MemoryMB req =? 0)%Z req defaultRuntime defaultTimeoutSec defaultMemoryMB) as E. cbv zeta in E.
  rewrite E. clear E H1 H2. unfold effective.
  rewrite if_set_policy. destruct (isWebsiteDeploy (dr_Source req)) eqn:Hw.
  - rewrite websiteDefaults_eq by done. destruct req. cbn -[bool_decide Z.max isWebsiteDeploy]. f_equal.
    repeat case_bool_decide; done.
  - unfold websiteDefaults. assert (∀ a b c, isWebsiteDeploy (dr_Source
      (req <| dr_Runtime := a |> <| dr_TimeoutSec := b |> <| dr_MemoryMB := c |>)) = false) as -> by done.
    destruct req. cbn -[bool_decide Z.max isWebsiteDeploy]. f_equal. by rewrite orb_false_r.
Qed.

Lemma normalize_ok `{!MapOrder} req r :
  normalizeDeployRequest req = Ok r ↔
  dr_ProjectID req ≠ "" ∧ blank (dr_Name req) = false ∧ (0 ≤ dr_TimeoutSec req)%Z ∧
  (0 ≤ dr_MemoryMB req)%Z ∧ (0 ≤ dr_MaxRetries req)%Z ∧
  ∃ regs, NormalizeExecutionRegions (dr_Regions req) = Ok regs ∧ r = effective req regs ∧
    validateDeployRequest r = Ok tt.
Proof.
  unfold normalizeDeployRequest. rewrite !guard_ok, bool_decide_eq_false, !Z.ltb_ge, result_bind_ok.
  do 5 (apply and_iff_compat_l). split; intros (regs & Hr & Hv); exists regs; (split; [exact Hr|]).
  - rewrite applyDefaults_eq in Hv. apply result_bind_unit in Hv as [Hv Hr']. injection Hr' as <-.
    split; [reflexivity|exact Hv].
  - rewrite applyDefaults_eq. apply result_bind_unit. destruct Hv as [<- Hv]. split; [exact Hv|reflexivity].
Qed.

Lemma effective_fixed r : deploy_ok r → effective r (dr_Regions r) = r.
Proof.
  intros [_ _ _ Hrt Hm Ht _ _ _ _ Hp _ Hw]. destruct r as [p n rt ep mem tmo pol regions vars refs mr ik src].
  simpl in Hrt, Hm, Ht, Hp, Hw. subst rt. unfold effective. cbn -[bool_decide Z.max Z.eqb isWebsiteDeploy].
  rewrite (proj2 (Z.eqb_neq mem 0)), (proj2 (Z.eqb_neq tmo 0)) by lia.
  rewrite (bool_decide_eq_false_2 (pol = "")) by (by destruct Hp as [-> | ->]).
  destruct (isWebsiteDeploy src); [|done]. destruct (Hw eq_refl) as [[? ?] ->].
  rewrite !Z.max_r by lia. done.
Qed.

Lemma effective_ok `{!MapOrder} req regs :
  dr_ProjectID req ≠ "" → blank (dr_Name req) = false → (0 ≤ dr_MaxRetries req)%Z →
  NormalizeExecutionRegions (dr_Regions req) = Ok regs →
  validateDeployRequest (effective req regs) = Ok tt → deploy_ok (effective req regs).
Proof.
  intros H1 H2 H3 Hr Hv. apply NormalizeExecutionRegions_ok in Hr.
  apply validateDeployRequest_ok in Hv as (V1 & V2 & V3 & V4 & V5 & V6 & V7 & V8 & V9 & V10 & V11).
  assert (isWebsiteDeploy (dr_Source req) = true →
    (2048 ≤ dr_MemoryMB (effective req regs) ∧ 180 ≤ dr_TimeoutSec (effective req regs))%Z ∧
    dr_NetworkPolicy (effective req regs) = "full") as Hw.
  { intros Hw. unfold effective. cbn [dr_MemoryMB dr_TimeoutSec dr_NetworkPolicy field_set]. rewrite Hw.
    split; [split; apply Z.le_max_l|]. clear -V10 Hw. unfold effective in V10.
    cbn [dr_NetworkPolicy field_set] in V10. rewrite Hw in V10.
    repeat case_bool_decide; simpl in *; try done; by destruct V10. }
  split; by (assumption || done).
Qed.

Lemma normalize_deploy_ok `{!MapOrder} req r : normalizeDeployRequest req = Ok r → deploy_ok r.
Proof.
  rewrite normalize_ok. intros (H1 & H2 & _ & _ & H5 & regs & Hr & -> & Hv). by apply effective_ok.
Qed.

Lemma deploy_ok_valid `{!MapOrder} r : deploy_ok r → validateDeployRequest r = Ok tt.
Proof.
  intros [H1 H2 H3 H4 H5 H6 H7 (H8 & H9 & H10) [H11 H12] [H13 H14] H15 H16 H17].
  apply validateDeployRequest_ok. split_and!; try done; lia.
Qed.

Lemma normalize_fixed `{!MapOrder} r : deploy_ok r → normalizeDeployRequest r = Ok r.
Proof.
  intros Hr. rewrite normalize_ok. pose proof (effective_fixed r Hr) as Ef. pose proof Hr as Hok.
  destruct Hr as [H1 H2 H3 H4 H5 H6 H7 (H8 & H9 & H10) [H11 H12] [H13 H14] H15 H16 H17].
  split_and!; try done; try lia. exists (dr_Regions r). split; [by apply NormalizeExecutionRegions_idem|].
  split; [done|]. by apply deploy_ok_valid.
Qed.

(** ** Runs in a quiet environment

    [wp m Q w]: the run of [m] from [w] ends in [Q]. *)

Definition wp {A} (m : WM A) (Q : result A → World → Prop) (w : World) : Prop := Q (m w).1 (m w).2.

Lemma wp_bind {A B} (m : WM A) (f : A → WM B) Q w :
  wp m (λ r w', match r with Ok a => wp (f a) Q w' | Err e => Q (Err e) w' end) w → wp (m ≫= f) Q w.
Proof. unfold wp. rewrite M_bind_eq. by destruct (m w) as [[a|e] w']. Qed.

Lemma wp_try {A B} (m : WM A) (f : result A → WM B) Q w :
  wp m (λ r w', wp (f r) Q w') w → wp (try m ≫= f) Q w.
Proof. unfold wp, try. rewrite M_bind_eq. by destruct (m w) as [r w']. Qed.

(** What recording and uploading change: no metadata, and among the objects of
    the primary store only build logs. *)
Definition object (w : World) (key : string) : option string :=
  default ∅ (w_objects w !! "") !! key.

Record logged (w w' : World) : Prop := {
  lg_store : w_store w' = w_store w;
  lg_objects key : HasPrefix key "builds/" = false → object w' key = object w key;
}.

#[export] Instance logged_preorder : PreOrder logged.
Proof.
  split; [by split|]. intros w1 w2 w3 [H1 H2] [H3 H4]. split; [congruence|].
  intros key Hk. by rewrite H4, H2.
Qed.

Section Quiet.
Context {E : GoEnv} {BE : BuildEnv} (Hq : quiet E).

(** [m] succeeds, and all it does is recording. *)
Definition talks {A} (V : A → Prop) (m : WM A) : Prop :=
  ∀ w, ∃ a w', m w = (Ok a, w') ∧ V a ∧ logged w w'.

Lemma wp_talks {A B} (V : A → Prop) (m : WM A) (f : A → WM B) Q w :
  talks V m → (∀ a w', V a → logged w w' → wp (f a) Q w') → wp (m ≫= f) Q w.
Proof. intros Hm Hf. destruct (Hm w) as (a & w' & E1 & Ha & Hl). apply wp_bind. unfold wp at 1.
  rewrite E1. cbn [fst snd]. by apply Hf. Qed.

Lemma talks_bind {A B} (V : A → Prop) (U : B → Prop) (m : WM A) (f : A → WM B) :
  talks V m → (∀ a, V a → talks U (f a)) → talks U (m ≫= f).
Proof.
  intros Hm Hf w. destruct (Hm w) as (a & w1 & E1 & Ha & Hl). destruct (Hf a Ha w1) as (b & w2 & E2 & Hb & Hl2).
  exists b, w2. rewrite (run_bind _ _ _ _ _ E1). split_and!; [done..|by etrans].
Qed.

Lemma talks_ret {A} (V : A → Prop) a : V a → talks V (mret a).
Proof. intros Ha w. by exists a, w. Qed.

Lemma talks_now : talks (λ _, True) now.
Proof. intros w. do 2 eexists. split; [done|]. by split. Qed.

Lemma talks_draw {A} (source : nat → A) : talks (λ _, True) (draw source).
Proof. intros w. do 2 eexists. split; [done|]. by split. Qed.

Lemma run_putObject name key data w :
  putObject name key data w = (Ok tt, w <| w_calls := S (w_calls w) |>
    <| w_objects := <[name := <[key := data]> (default ∅ (w_objects w !! name))]> (w_objects w) |>).
Proof. unfold putObject. by rewrite (proj1 Hq). Qed.

Lemma talks_putObject key data : HasPrefix key "builds/" = true → talks (λ _, True) (putObject "" key data).
Proof.
  intros Hk w. rewrite run_putObject. do 2 eexists. split; [done|]. split; [done|]. split; [done|].
  intros k Hn. unfold object. simpl. rewrite lookup_insert_eq. simpl.
  rewrite lookup_insert_ne; [done|]. intros ->. congruence.
Qed.

Lemma talks_ignore {A} (V : A → Prop) (m : WM A) : talks V m → talks (λ _, True) (ignore m).
Proof.
  intros Hm w. destruct (Hm w) as (a & w' & E1 & _ & Hl). exists tt, w'.
  by rewrite (run_ignore _ _ _ _ E1).
Qed.

(** A recorder that writes to the build logs, or nowhere. *)
Definition log_key (key : string) : Prop := HasPrefix key "builds/" = true.
Definition on_logs (rec : buildRecorder) : Prop := log_key (rec_key rec).

Lemma talks_Printf rec line : on_logs rec → talks on_logs (Printf rec line).
Proof.
  intros Hr. unfold Printf. eapply talks_bind; [apply talks_now|]. intros t _. cbn zeta.
  eapply (talks_bind (λ _, True)); [|intros; by apply talks_ret].
  destruct (blank _); [by apply talks_ret|]. eapply talks_ignore. by apply talks_putObject.
Qed.

Lemma talks_PrintAll lines rec : on_logs rec → talks on_logs (PrintAll rec lines).
Proof.
  revert rec. induction lines as [|line lines IH]; intros rec Hr; simpl; [by apply talks_ret|].
  eapply talks_bind; [by apply talks_Printf|]. intros. by apply IH.
Qed.

Lemma log_key_BuildLogsKey id : log_key (BuildLogsKey id).
Proof. apply (HasPrefix_app "builds/"). Qed.

Lemma talks_archive job rec :
  talks (λ j, j = job <| bj_LogsKey := BuildLogsKey (bj_ID job) |>) (archiveBuildLogs job rec).
Proof.
  unfold archiveBuildLogs. cbn zeta. eapply talks_bind; [apply talks_putObject, log_key_BuildLogsKey|].
  intros. by apply talks_ret.
Qed.

End Quiet.

(** ** The end of a build *)

Lemma string_app_inj s t u : s +:+ t = s +:+ u → t = u.
Proof. induction s as [|a s IH]; [done|]. rewrite !string_app_cons. intros [= H]. by apply IH. Qed.

Lemma bundleKey_not_log d : HasPrefix (bundleKeyOf d) "builds/" = false.
Proof. done. Qed.

Lemma bundleKey_not_startup d : bundleKeyOf d ≠ startupKeyOf d.
Proof. unfold bundleKeyOf, startupKeyOf. by intros H%string_app_inj%string_app_inj. Qed.

(** The records and objects a collaborator of the build service leaves alone. *)
Record tables_same (w w' : World) : Prop := {
  ts_functions : st_functions (w_store w') = st_functions (w_store w);
  ts_buildJobs : st_buildJobs (w_store w') = st_buildJobs (w_store w);
  ts_artifacts : st_artifacts (w_store w') = st_artifacts (w_store w);
  ts_triggers : st_httpTriggers (w_store w') = st_httpTriggers (w_store w);
  ts_objects key : HasPrefix key "builds/" = false → object w' key = object w key;
}.

Lemma logged_tables w w' : logged w w' → tables_same w w'.
Proof. intros [H1 H2]. split; by rewrite ?H1. Qed.

#[export] Instance tables_same_preorder : PreOrder tables_same.
Proof.
  split; [by split|]. intros w1 w2 w3 [H1 H2 H3 H4 H5] [K1 K2 K3 K4 K5].
  split; [congruence..|]. intros key Hk. by rewrite K5, H5.
Qed.

(** What the build service expects of its warm preparer and its replicator. *)
Class BuildCollaborators (cfg : BuildConfig) := {
  warmer_tables warmer v w : bc_warmer cfg = Some warmer → tables_same w (warmer v w).2;
  replica_tables replicate req w : bc_replica cfg = Some replicate → tables_same w (replicate req w).2;
}.

(** The version and the job of a build, and how they may end. *)
Record others_same (vid jid : string) (w w' : World) : Prop := {
  os_functions k : k ≠ vid → st_functions (w_store w') !! k = st_functions (w_store w) !! k;
  os_buildJobs k : k ≠ jid → st_buildJobs (w_store w') !! k = st_buildJobs (w_store w) !! k;
}.

(** A ready version with its artifact, its bundle under the key of its digest,
    and a public address. *)
Definition published `{!GoEnv} (vid jid : string) (w : World) : Prop :=
  ∃ v j a bundle token trigger,
    st_functions (w_store w) !! vid = Some v ∧ fv_State v = FunctionStateReady ∧
    st_buildJobs (w_store w) !! jid = Some j ∧ bj_State j = "succeeded" ∧ bj_Error j = "" ∧
    st_artifacts (w_store w) !! fv_ArtifactDigest v = Some a ∧ art_Digest a = fv_ArtifactDigest v ∧
    object w (art_BundleKey a) = Some bundle ∧ sha256_hex bundle = art_Digest a ∧
    art_SizeBytes a = Z.of_nat (String.length bundle) ∧ (art_SizeBytes a ≤ 67108864)%Z ∧
    st_httpTriggers (w_store w) !! token = Some trigger ∧ ht_FunctionVersionID trigger = vid.

Definition unpublished (vid jid : string) (err : GoError) (w : World) : Prop :=
  ∃ v j, st_functions (w_store w) !! vid = Some v ∧ fv_State v = FunctionStateFailed ∧
    st_buildJobs (w_store w) !! jid = Some j ∧ bj_State j = "failed" ∧ bj_Error j = Error err.

Definition outcome `{!GoEnv} (vid jid : string) (w0 : World) (r : result unit) (w : World) : Prop :=
  others_same vid jid w0 w ∧
  match r with Ok _ => published vid jid w | Err e => unpublished vid jid e w end.

Section Outcome.
Context {E : GoEnv} {BE : BuildEnv} (Hq : quiet E) (cfg : BuildConfig) `{!BuildCollaborators cfg}.
Context (vid jid : string) (w0 : World).
Abbreviation good := (outcome vid jid w0).
Abbreviation others := (others_same vid jid w0).

Lemma others_tables w w' : others w → tables_same w w' → others w'.
Proof. intros [H1 H2] [T1 T2 _ _ _]. split; intros; rewrite ?T1, ?T2; auto. Qed.

Lemma others_logged w w' : others w → logged w w' → others w'.
Proof. intros H1 H2. eapply others_tables; [done|by apply logged_tables]. Qed.

Lemma wp_markBuildFailed version job err w :
  fv_ID version = vid → bj_ID job = jid → others w → wp (markBuildFailed version job err) good w.
Proof.
  intros Hv Hj [H1 H2]. unfold markBuildFailed, wp. erewrite run_bind by done.
  erewrite run_bind by (by apply run_call). erewrite run_bind by (by apply run_call).
  unfold good. simpl. split.
  - split; intros k Hk; simpl; rewrite lookup_insert_ne by congruence; auto.
  - do 2 eexists. split; [rewrite Hv; apply lookup_insert_eq|]. split; [done|].
    split; [rewrite Hj; apply lookup_insert_eq|]. done.
Qed.

Lemma wp_markBuildFailedWithLogs version job rec err w :
  on_logs rec → fv_ID version = vid → bj_ID job = jid → others w →
  wp (markBuildFailedWithLogs version job rec err) good w.
Proof.
  intros Hr Hv Hj Ho. unfold markBuildFailedWithLogs.
  eapply wp_talks; [by apply talks_Printf|]. intros rec' w1 Hr' L1. apply wp_try.
  destruct (talks_archive Hq job rec' w1) as (j & w2 & E2 & -> & L2). unfold wp at 1. rewrite E2. cbn [fst snd].
  apply wp_markBuildFailed; [done|done|]. eapply others_logged; [|done]. by eapply others_logged.
Qed.

(** Each fallible step: its success continues, its failure ends the build. *)
Lemma wp_orFail {A} version job rec (m : WM A) (k : A → WM unit) w :
  on_logs rec → fv_ID version = vid → bj_ID job = jid →
  wp m (λ r w', match r with Ok a => wp (k a) good w' | Err _ => others w' end) w →
  wp (orFail version job rec m k) good w.
Proof.
  intros Hr Hv Hj Hm. unfold orFail. apply wp_try. revert Hm. unfold wp at 1 3.
  destruct (m w) as [[a|e] w']; [done|]. cbn [fst snd]. intros Ho. by apply wp_markBuildFailedWithLogs.
Qed.

(** A version that is stored as ready, with its artifact and bundle. *)
Record staged (version : FunctionVersion) (w : World) : Prop := {
  sg_others : others w;
  sg_version : st_functions (w_store w) !! vid = Some version;
  sg_ready : fv_State version = FunctionStateReady;
  sg_artifact : ∃ a bundle, st_artifacts (w_store w) !! fv_ArtifactDigest version = Some a ∧
    art_Digest a = fv_ArtifactDigest version ∧ art_BundleKey a = bundleKeyOf (art_Digest a) ∧
    object w (art_BundleKey a) = Some bundle ∧ sha256_hex bundle = art_Digest a ∧
    art_SizeBytes a = Z.of_nat (String.length bundle) ∧ (art_SizeBytes a ≤ 67108864)%Z;
}.

(** All of [tables_same] but the triggers. *)
Record core_same (w w' : World) : Prop := {
  cs_functions : st_functions (w_store w') = st_functions (w_store w);
  cs_buildJobs : st_buildJobs (w_store w') = st_buildJobs (w_store w);
  cs_artifacts : st_artifacts (w_store w') = st_artifacts (w_store w);
  cs_objects key : HasPrefix key "builds/" = false → object w' key = object w key;
}.

Lemma tables_core w w' : tables_same w w' → core_same w w'.
Proof. by intros []. Qed.

Lemma core_same_trans w1 w2 w3 : core_same w1 w2 → core_same w2 w3 → core_same w1 w3.
Proof.
  intros [H1 H2 H3 H4] [K1 K2 K3 K4]. split; [congruence..|]. intros key Hk. by rewrite K4, H4.
Qed.

Lemma others_core w w' : others w → core_same w w' → others w'.
Proof. intros [H1 H2] [T1 T2 _ _]. split; intros; rewrite ?T1, ?T2; auto. Qed.

Lemma staged_core version w w' : staged version w → core_same w w' → staged version w'.
Proof.
  intros [H1 H2 H3 (a & bundle & H4 & H5 & H6 & H7 & H8 & H9 & H10)] Hc. split.
  - by eapply others_core.
  - by rewrite (cs_functions _ _ Hc).
  - done.
  - exists a, bundle. rewrite (cs_artifacts _ _ Hc). split_and!; try done.
    rewrite H6, (cs_objects _ _ Hc) by apply bundleKey_not_log. by rewrite <- H6.
Qed.

Definition has_trigger (w : World) : Prop :=
  ∃ token trigger, st_httpTriggers (w_store w) !! token = Some trigger ∧ ht_FunctionVersionID trigger = vid.

Lemma wp_createTrigger n version w :
  fv_ID version = vid →
  wp (createTrigger n version) (λ r w', core_same w w' ∧
    match r with Ok _ => has_trigger w' | Err _ => True end) w.
Proof.
  intros Hv. revert w. induction n as [|n IH]; intros w; cbn [createTrigger]; [by split|].
  apply wp_try. unfold wp at 1. unfold generateHTTPTriggerToken, draw, lift. rewrite M_bind_eq. cbn [fst snd].
  destruct (rand_Token (w_uid w)) as [token|e]; [|by split]. apply wp_bind. unfold wp at 1. cbn [fst snd now].
  apply wp_try. match goal with |- context [PutHTTPTrigger ?tr] => set (trig := tr) end.
  match goal with |- wp (call _) _ ?w' => set (w1 := w') end.
  assert (call (PutHTTPTrigger trig) w1 = ((PutHTTPTrigger trig (w_store w1)).1,
    w1 <| w_calls := S (w_calls w1) |> <| w_store := (PutHTTPTrigger trig (w_store w1)).2 |>)) as Ec
    by apply (call_ok _ _ Hq).
  unfold wp at 1. rewrite Ec. cbn [fst snd]. unfold PutHTTPTrigger.
  destruct (st_httpTriggers (w_store w1) !! ht_Token trig) eqn:Et; cbn [fst snd].
  - destruct (IH (w1 <| w_calls := S (w_calls w1) |> <| w_store := w_store w1 |>)) as [C1 H1].
    split; [|exact H1]. eapply core_same_trans; [|exact C1]. by split.
  - split; [by split|]. exists token, trig. split; [apply lookup_insert_eq|done].
Qed.

Lemma wp_mono {A} (m : WM A) (Q R : result A → World → Prop) w :
  wp m Q w → (∀ r w', Q r w' → R r w') → wp m R w.
Proof. unfold wp. auto. Qed.

Lemma wp_talks_end {A} (V : A → Prop) (m : WM A) (Q : result A → World → Prop) w :
  talks V m → (∀ a w', V a → logged w w' → Q (Ok a) w') → wp m Q w.
Proof. intros Hm HQ. destruct (Hm w) as (a & w' & E1 & Ha & Hl). unfold wp. rewrite E1. by apply HQ. Qed.

Lemma has_trigger_tables w w' : has_trigger w → tables_same w w' → has_trigger w'.
Proof. intros (token & tr & H) T. exists token, tr. by rewrite (ts_triggers _ _ T). Qed.

Lemma wp_ensureDefaultHTTPTrigger version rec w :
  on_logs rec → fv_ID version = vid →
  wp (ensureDefaultHTTPTrigger version rec) (λ r w', core_same w w' ∧
    match r with Ok rec' => on_logs rec' ∧ has_trigger w' | Err _ => True end) w.
Proof.
  intros Hr Hv. unfold ensureDefaultHTTPTrigger. apply wp_try. unfold wp at 1. rewrite (call_ok _ _ Hq).
  cbn [fst snd ListHTTPTriggersByFunctionVersion].
  match goal with |- wp _ _ ?w' => set (w1 := w'); assert (tables_same w w1) as T1 by (by split) end.
  set (l := SliceStable _ _). destruct l as [|tr l'] eqn:El; unfold l in El; clear l.
  - apply wp_bind. eapply wp_mono; [by apply wp_createTrigger|]. intros [[]|e] w2 [C2 Ht].
    + eapply wp_talks_end; [by apply talks_Printf|]. intros rec' w3 Hr' L3. apply logged_tables in L3.
      split; [|split; [done|by eapply has_trigger_tables]].
      eapply core_same_trans; [by apply tables_core|]. eapply core_same_trans; [exact C2|by apply tables_core].
    + split; [|done]. eapply core_same_trans; [by apply tables_core|done].
  - eapply wp_talks_end; [by apply talks_Printf|]. intros rec' w2 Hr' L2. apply logged_tables in L2.
    assert (tables_same w w2) as T2 by (by etrans). split; [by apply tables_core|]. split; [done|].
    assert (tr ∈ SliceStable (oldest_first ht_CreatedAt ht_Token) (select 673
      (λ t, bool_decide (ht_FunctionVersionID t = fv_ID version)) (st_httpTriggers (w_store w)))) as Hin.
    { rewrite El. left. }
    apply elem_of_SliceStable, elem_of_select in Hin as [Hb [k Hk]]. apply bool_decide_eq_true in Hb.
    exists k, tr. rewrite (ts_triggers _ _ T2). split; [done|congruence].
Qed.

Lemma wp_finishBuild version job rec w :
  on_logs rec → fv_ID version = vid → bj_ID job = jid → staged version w →
  wp (finishBuild cfg version job rec) good w.
Proof.
  intros Hr Hv Hj Hs. unfold finishBuild. apply wp_orFail; [done..|].
  eapply wp_mono; [by apply wp_ensureDefaultHTTPTrigger|]. intros [rec1|e] w1 [C1 Ht].
  2:{ eapply others_core; [|done]. apply Hs. }
  destruct Ht as [Hr1 Ht]. pose proof (staged_core _ _ _ Hs C1) as Hs1. clear C1 Hs w.
  apply wp_bind. apply (wp_mono _ (λ r w', match r with
    | Ok rec' => on_logs rec' ∧ staged version w' ∧ has_trigger w' | Err _ => False end)).
  { assert (∀ m : WM buildRecorder, ∀ w', tables_same w1 w' → talks on_logs m →
      wp m (λ r w', match r with Ok rec' => on_logs rec' ∧ staged version w' ∧ has_trigger w'
            | Err _ => False end) w') as Htalk.
    { intros m w' T Hm. eapply wp_talks_end; [exact Hm|]. intros rec' w2 Hr' L2. apply logged_tables in L2.
      assert (tables_same w1 w2) as T2 by (by etrans). split; [done|].
      split; [eapply staged_core; [done|by apply tables_core]|by eapply has_trigger_tables]. }
    destruct (bc_warmer cfg) as [warmer|] eqn:Ew.
    - case_bool_decide; [|apply Htalk; [done|by apply talks_Printf]]. apply wp_try.
      pose proof (warmer_tables warmer version w1 Ew) as T. unfold wp at 1.
      destruct (warmer version w1) as [[[]|e] w2]; cbn [fst snd] in *;
        (apply Htalk; [done|by apply talks_Printf]).
    - apply Htalk; [done|by apply talks_ret]. }
  intros [rec2|e] w2; [|done]. intros (Hr2 & Hs2 & Ht2). clear dependent w1 rec1.
  eapply wp_talks; [by apply talks_Printf|]. intros rec3 w3 Hr3 L3.
  apply wp_try. destruct (talks_archive Hq job rec3 w3) as (j & w4 & E4 & -> & L4).
  unfold wp at 1. rewrite E4. cbn [fst snd]. apply wp_bind. unfold wp at 1. cbn [fst snd mret M_ret].
  apply wp_bind. unfold wp at 1. cbn [fst snd now].
  unfold wp. rewrite (call_ok _ _ Hq). cbn [fst snd PutBuildJob].
  assert (tables_same w2 w4) as T4 by (by etrans; apply logged_tables).
  pose proof (staged_core _ _ _ Hs2 (tables_core _ _ T4)) as [[O1 O2] S2 S3 (a & bundle & A1 & A2 & A3 & A4 & A5 & A6 & A7)].
  pose proof (has_trigger_tables _ _ Ht2 T4) as (token & tr & Htok & Hfv).
  split.
  - split; intros k Hk; [by apply O1|]. simpl. rewrite lookup_insert_ne by congruence. by apply O2.
  - eexists version, _, a, bundle, token, tr. split; [exact S2|]. split; [done|].
    split; [simpl; rewrite Hj; apply lookup_insert_eq|]. by split_and!.
Qed.

(** The bundle is stored under the key of its digest, and the records of other
    builds are as they were. *)
Definition uploaded (bundle : string) (w : World) : Prop :=
  others w ∧ object w (bundleKeyOf (sha256_hex bundle)) = Some bundle.

Lemma uploaded_tables bundle w w' : uploaded bundle w → tables_same w w' → uploaded bundle w'.
Proof.
  intros [H1 H2] T. split; [by eapply others_tables|]. by rewrite (ts_objects _ _ T).
Qed.

Lemma uploaded_logged bundle w w' : uploaded bundle w → logged w w' → uploaded bundle w'.
Proof. intros H L. eapply uploaded_tables; [done|by apply logged_tables]. Qed.

Lemma object_put w key data key' :
  object (putObject "" key data w).2 key' = if decide (key' = key) then Some data else object w key'.
Proof.
  rewrite (run_putObject Hq). unfold object. simpl. rewrite lookup_insert_eq. simpl.
  case_decide as Hk; [subst; apply lookup_insert_eq|]. by rewrite lookup_insert_ne.
Qed.

Lemma uploaded_put bundle w key data :
  key ≠ bundleKeyOf (sha256_hex bundle) → uploaded bundle w → uploaded bundle (putObject "" key data w).2.
Proof.
  intros Hk [[H1 H2] H3]. split; [|by rewrite object_put, decide_False].
  rewrite (run_putObject Hq). by split.
Qed.

Lemma putObject_ok key data w : (putObject "" key data w).1 = Ok tt.
Proof. by rewrite (run_putObject Hq). Qed.

Lemma site_key_not_bundle d path : SiteAssetObjectKey d path ≠ bundleKeyOf d.
Proof.
  unfold SiteAssetObjectKey. destruct (_ || _); [done|]. destruct path as [|a path]; [done|].
  by destruct (Ascii.eqb a slash).
Qed.

Lemma site_manifest_not_bundle d : SiteManifestKey d ≠ bundleKeyOf d.
Proof. unfold bundleKeyOf, SiteManifestKey. by intros H%string_app_inj%string_app_inj. Qed.

Lemma wp_uploadSite version entrypoint t site bundle w :
  uploaded bundle w →
  wp (uploadSite version (sha256_hex bundle) entrypoint t site) (λ _ w', uploaded bundle w') w.
Proof.
  intros Hu. unfold uploadSite. apply wp_bind. apply (wp_mono _ (λ _ w', uploaded bundle w')).
  - revert w Hu. induction (ns_StaticAssets site) as [|[path data] l IH]; intros w Hu; [done|].
    cbn [for_each]. apply wp_bind. unfold wp at 1. rewrite putObject_ok. apply IH, uploaded_put; [|done].
    apply site_key_not_bundle.
  - intros [[]|e] w1 H1; [|done]. apply wp_bind. unfold wp at 1, lift. cbn [fst snd].
    destruct (encodeWebsiteManifest _ _ _ _); [|done]. apply uploaded_put; [|done].
    apply site_manifest_not_bundle.
Qed.

Lemma wp_artifactRegions req bundle startup t w :
  uploaded bundle w →
  wp (artifactRegions cfg req (sha256_hex bundle) bundle startup t) (λ _ w', uploaded bundle w') w.
Proof.
  intros Hu. unfold artifactRegions. destruct (bc_replica cfg) as [replicate|] eqn:Er; [|done].
  unfold wp. eapply uploaded_tables; [exact Hu|by apply replica_tables].
Qed.

Lemma wp_publishBuild version job req rec prepared w :
  on_logs rec → fv_ID version = vid → bj_ID job = jid → others w →
  wp (publishBuild cfg version job req rec prepared) good w.
Proof.
  intros Hr Hv Hj Ho. unfold publishBuild. cbv zeta. set (job' := job <| bj_Metadata := _ |>).
  assert (bj_ID job' = jid) as Hj' by done. clearbody job'. clear job Hj.
  set (bundle := pb_Bundle prepared). destruct (Z.ltb_spec maxArtifactSizeBytes (Z.of_nat (String.length bundle))).
  { by apply wp_markBuildFailedWithLogs. }
  eapply wp_talks; [by apply talks_Printf|]. intros rec1 w1 Hr1 L1.
  apply wp_orFail; [done..|]. unfold wp at 1. rewrite putObject_ok.
  assert (uploaded bundle (putObject "" (bundleKeyOf (sha256_hex bundle)) bundle w1).2) as Hu.
  { split; [|by rewrite object_put, decide_True]. apply (others_logged _ _ Ho) in L1. destruct L1 as [O1 O2].
    rewrite (run_putObject Hq). by split. }
  revert Hu. generalize (putObject "" (bundleKeyOf (sha256_hex bundle)) bundle w1).2. clear dependent w w1 rec.
  intros w Hu. apply wp_orFail; [done..|]. unfold wp at 1. rewrite putObject_ok.
  apply (uploaded_put bundle w (startupKeyOf (sha256_hex bundle)) (pb_Startup prepared)) in Hu;
    [|intros Ek; by apply (bundleKey_not_startup (sha256_hex bundle))].
  revert Hu. generalize (putObject "" (startupKeyOf (sha256_hex bundle)) (pb_Startup prepared) w).2.
  clear w. intros w Hu.
  eapply wp_talks; [by apply talks_Printf|]. intros rec2 w2 Hr2 L2. apply (uploaded_logged _ _ _ Hu) in L2.
  apply wp_bind. unfold wp at 1. cbn [fst snd now]. apply wp_orFail; [done..|].
  eapply wp_mono; [apply wp_artifactRegions; eapply uploaded_logged; [exact L2|by split]|]. intros [regions|e] w3 Hu3; [|apply Hu3].
  eapply wp_talks; [by apply talks_PrintAll|]. intros rec4 w4 Hr4 L4. apply (uploaded_logged _ _ _ Hu3) in L4.
  set (meta := mkArtifact _ _ _ _ _ _).
  assert (∀ rec w, on_logs rec → uploaded bundle w →
    wp (orFail version job' rec (call (PutArtifact meta)) (λ _,
      orFail (version <| fv_ArtifactDigest := sha256_hex bundle |> <| fv_Entrypoint := pb_Entrypoint prepared |>
               <| fv_State := FunctionStateReady |>) job' rec
        (call (PutFunctionVersion (version <| fv_ArtifactDigest := sha256_hex bundle |>
               <| fv_Entrypoint := pb_Entrypoint prepared |> <| fv_State := FunctionStateReady |>))) (λ _,
        finishBuild cfg (version <| fv_ArtifactDigest := sha256_hex bundle |>
          <| fv_Entrypoint := pb_Entrypoint prepared |> <| fv_State := FunctionStateReady |>) job' rec))) good w)
    as Hpub.
  { intros rec5 w5 Hr' [[O1 O2] Hb]. apply wp_orFail; [done..|]. unfold wp at 1. rewrite (call_ok _ _ Hq).
    cbn [fst snd PutArtifact]. apply wp_orFail; [done..|]. unfold wp at 1. rewrite (call_ok _ _ Hq).
    cbn [fst snd PutFunctionVersion]. apply wp_finishBuild; [done..|]. split.
    - split; intros k Hk; simpl; [rewrite lookup_insert_ne by congruence; by apply O1|by apply O2].
    - simpl. rewrite Hv. apply lookup_insert_eq.
    - done.
    - exists meta, bundle. split; [apply lookup_insert_eq|]. split_and!; try done. }
  destruct (pb_Site prepared) as [site|]; [|by apply Hpub].
  apply wp_orFail; [done..|]. eapply wp_mono; [apply wp_uploadSite; exact L4|].
  intros [[]|e] w5 Hu5; [|apply Hu5]. eapply wp_talks; [by apply talks_PrintAll|].
  intros rec6 w6 Hr6 L6. apply Hpub; [done|]. by eapply uploaded_logged.
Qed.

Abbreviation recorded := (λ p : buildRecorder * result preparedBuildOutput, on_logs p.1).

Lemma talks_manifestFiles req entrypoint : talks (λ _, True) (try (manifestFiles req entrypoint)).
Proof.
  intros w. unfold manifestFiles, try, lift. rewrite M_bind_eq.
  destruct (json_MarshalManifest req entrypoint); [|by do 2 eexists].
  rewrite M_bind_eq. cbn [fst snd now]. rewrite M_bind_eq.
  destruct (json_MarshalStartup _ _ _); do 2 eexists; (split; [reflexivity|]); by split.
Qed.

Lemma talks_prepareBundle req rec : on_logs rec → talks recorded (prepareBundle req rec).
Proof.
  intros Hr. unfold prepareBundle. cbv zeta. eapply talks_bind; [apply talks_manifestFiles|].
  intros [[manifest startup]|e] _; [|by apply talks_ret].
  eapply talks_bind; [by apply talks_Printf|]. intros rec1 Hr1. case_bool_decide.
  - eapply talks_bind; [by apply talks_Printf|]. intros rec2 Hr2. by apply talks_ret.
  - eapply talks_bind; [by apply talks_Printf|]. intros rec2 Hr2.
    destruct (base64_Decode _); [|by apply talks_ret].
    eapply talks_bind; [apply talks_draw|]. intros [[tmp t0]|e] _; [|by apply talks_ret].
    destruct (ExtractTarGz _ _ _) as [[[]|e] tree]; [|by apply talks_ret].
    eapply talks_bind; [by apply talks_Printf|]. intros rec3 Hr3. by apply talks_ret.
Qed.

Lemma talks_prepareGit req rec : on_logs rec → talks recorded (prepareGit req rec).
Proof.
  intros Hr. unfold prepareGit. eapply talks_bind; [apply talks_draw|]. intros [lines ws] _.
  eapply talks_bind; [by apply talks_PrintAll|]. intros rec1 Hr1.
  destruct ws as [ws|e]; [|by apply talks_ret]. 
  match goal with |- talks _ (match ?x with _ => _ end) => destruct x as [[ep root] md] end.
  eapply talks_bind; [apply talks_manifestFiles|]. intros [[manifest startup]|e] _; [|by apply talks_ret].
  eapply talks_bind; [by apply talks_Printf|]. intros rec2 Hr2. by apply talks_ret.
Qed.

Lemma talks_prepareBuildOutput req rec : on_logs rec → talks recorded (prepareBuildOutput req rec).
Proof.
  intros Hr. unfold prepareBuildOutput. cbv zeta.
  repeat case_bool_decide; [by apply talks_prepareBundle|by apply talks_prepareGit|by apply talks_ret].
Qed.

Lemma wp_runBuild version job req w :
  fv_ID version = vid → bj_ID job = jid → bj_LogsKey job = BuildLogsKey jid → others w →
  wp (runBuild cfg version job req) good w.
Proof.
  intros Hv Hj Hk [O1 O2]. unfold runBuild.
  set (job1 := match json_MarshalDeploy _ with Ok payload => _ | Err _ => job end).
  assert (bj_ID job1 = jid ∧ bj_LogsKey job1 = BuildLogsKey jid) as [Hj1 Hk1].
  { unfold job1. by destruct (json_MarshalDeploy _). }
  clearbody job1. clear job Hj Hk. set (job2 := job1 <| bj_State := "running" |> <| bj_Error := "" |>).
  set (job3 := if blank (bj_LogsKey job2) then _ else job2).
  assert (bj_ID job3 = jid ∧ log_key (bj_LogsKey job3)) as [Hj3 Hk3].
  { unfold job3. destruct (blank _); (split; [exact Hj1|]); [apply log_key_BuildLogsKey|].
    simpl. rewrite Hk1. apply log_key_BuildLogsKey. }
  clearbody job3. clear job1 job2 Hj1 Hk1. apply wp_bind. unfold wp at 1. cbn [fst snd now]. cbv zeta.
  set (job4 := job3 <| bj_UpdatedAt := _ |>). assert (bj_ID job4 = jid ∧ log_key (bj_LogsKey job4)) as [Hj4 Hk4] by done.
  clearbody job4. clear job3 Hj3 Hk3.
  set (version' := version <| fv_State := FunctionStateBuilding |> <| fv_ArtifactDigest := "" |> <| fv_Entrypoint := "" |>).
  assert (fv_ID version' = vid) as Hv' by done. clearbody version'. clear version Hv.
  apply wp_bind. unfold wp at 1. rewrite (call_ok _ _ Hq). cbn [fst snd PutFunctionVersion].
  apply wp_bind. unfold wp at 1. rewrite (call_ok _ _ Hq). cbn [fst snd PutBuildJob].
  match goal with |- wp _ _ ?w' => assert (others w') as Ho; [|revert Ho; generalize w'; intros w1 Ho] end.
  { split; intros k Hk; simpl; rewrite lookup_insert_ne by congruence; auto. }
  eapply wp_talks; [by apply talks_PrintAll|]. intros rec w2 Hr L2. apply (others_logged _ _ Ho) in L2.
  eapply wp_talks; [by apply talks_prepareBuildOutput|]. intros [rec' [prepared|e]] w3 Hr' L3;
    apply (others_logged _ _ L2) in L3; [by apply wp_publishBuild|by apply wp_markBuildFailedWithLogs].
Qed.

Lemma wp_ProcessBuildJob job version :
  st_buildJobs (w_store w0) !! jid = Some job → bj_ID job = jid → bj_LogsKey job = BuildLogsKey jid →
  bj_FunctionVersionID job = vid → st_functions (w_store w0) !! vid = Some version → fv_ID version = vid →
  bj_State job ≠ "succeeded" →
  wp (ProcessBuildJob cfg jid) good w0.
Proof.
  intros Ej Hj Hk Hf Ev Hv Hs. unfold ProcessBuildJob, GetBuildJob, GetFunctionVersion.
  apply wp_bind. unfold wp at 1. rewrite (run_find Hq _ _ _ _ _ Ej). cbn [fst snd].
  rewrite bool_decide_eq_false_2 by done. apply wp_bind. unfold wp at 1. rewrite Hf.
  erewrite (run_find Hq) by exact Ev. cbn [fst snd].
  match goal with |- wp _ _ ?w' => assert (others w') as Ho by (by split) end.
  destruct (json_UnmarshalDeploy _) as [req|e]; [|by apply wp_markBuildFailed].
  destruct (normalizeDeployRequest req) as [req'|e]; [by apply wp_runBuild|by apply wp_markBuildFailed].
Qed.

End Outcome.

(** The replicator into regional stores meets the expectation. *)
Lemma tables_putObject `{!GoEnv} name key data w : name ≠ "" → tables_same w (putObject name key data w).2.
Proof.
  intros Hn. unfold putObject. destruct (env_fault (w_calls w)); [by split|]. split; try done.
  intros k _. unfold object. simpl. by rewrite lookup_insert_ne.
Qed.

Lemma tables_replicate `{!GoEnv} stores req : "" ∉ stores → ∀ regions available w,
  tables_same w (replicateRegions stores req available regions w).2.
Proof.
  intros Hs regions. induction regions as [|region regions IH]; intros available w; simpl; [done|].
  case_bool_decide as Hin; [|done]. simpl. assert (region ≠ "") as Hne by congruence.
  unfold try. rewrite M_bind_eq.
  pose proof (tables_putObject region (rq_BundleKey req) (rq_Bundle req) w Hne) as T1.
  destruct (putObject region _ _ w) as [[[]|e] w1]; [|done]. simpl in T1. rewrite M_bind_eq.
  pose proof (tables_putObject region (rq_StartupKey req) (rq_Startup req) w1 Hne) as T2.
  destruct (putObject region _ _ w1) as [[[]|e] w2]; [|by etrans]. simpl in T2. rewrite M_bind_eq.
  cbn [now]. etrans; [exact T1|]. etrans; [exact T2|]. etrans; [|apply IH]. by split.
Qed.

#[export] Instance replicator_collaborators `{!GoEnv} bus stores max :
  TCEq (bool_decide ("" ∈ stores)) false →
  BuildCollaborators (mkBuildConfig bus None (Some (Replicate stores)) max).
Proof.
  intros Hs. apply TCEq_eq, bool_decide_eq_false in Hs. split; [done|].
  intros replicate req w [= <-]. by apply tables_replicate.
Qed.

(** ** Deployments under an idempotency key *)

Section DeployOnce.
Context {E : GoEnv} {BE : BuildEnv} (Hq : quiet E) (cfg : BuildConfig).

(** The key under which a request's record is stored. *)
Definition deployKey (req : DeployRequest) : string :=
  idempotencyKey "deploy" (dr_ProjectID req) (dr_IdempotencyKey req).

(** The record of a finished deployment. *)
Definition completedDeploy (req : DeployRequest) (h : string) (v : FunctionVersion) (t t' : Time) :
    IdempotencyRecord :=
  mkIdempotencyRecord "deploy" (dr_ProjectID req) (dr_IdempotencyKey req) h (fv_ID v)
    "function_version" IdempotencyStatusCompleted t t'.

(** The first request leaves a completed record, or none at all. *)
Lemma run_deploy_first req h w :
  dr_IdempotencyKey req ≠ "" → deployRequestHash req = Ok h →
  st_idempotency (w_store w) !! deployKey req = None →
  let '(r, w') := CreateFunctionVersion cfg req w in
  match r with
  | Ok v => ∃ t t', st_idempotency (w_store w') !! deployKey req = Some (completedDeploy req h v t t')
  | Err _ => st_idempotency (w_store w') !! deployKey req = None
  end.
Proof.
  intros Hk Hh Hn. unfold CreateFunctionVersion. rewrite (bool_decide_eq_false_2 (_ = "")) by done. cbn [negb].
  unfold createFunctionVersionIdempotent. erewrite run_bind by (unfold lift; by rewrite Hh).
  erewrite run_bind by done. cbn beta zeta. erewrite run_bind.
  2:{ eapply run_try, (run_call Hq). unfold CreateIdempotencyRecord. cbn [w_store field_set].
      unfold record_key. cbn [idem_Scope idem_ProjectID idem_Key]. fold (deployKey req). rewrite Hn. reflexivity. }
  cbn iota. match goal with |- context [mbind _ _ ?w0] => destruct (createFunctionVersion cfg req w0) as [r w1] eqn:Er end.
  erewrite run_bind by (by apply run_try). destruct r as [v|e].
  - erewrite run_bind by done. erewrite run_bind by (by apply (run_call Hq)).
    cbn [mret M_ret]. do 2 eexists. apply lookup_insert_eq.
  - erewrite run_bind by (eapply run_ignore; by apply (run_call Hq)). cbn. apply lookup_delete_eq.
Qed.

(** A later request is answered from the record and writes nothing. *)
Lemma run_deploy_replay req h w record :
  dr_IdempotencyKey req ≠ "" → deployRequestHash req = Ok h →
  st_idempotency (w_store w) !! deployKey req = Some record →
  let '(r, w') := CreateFunctionVersion cfg req w in
  w_store w' = w_store w ∧
  r = if bool_decide (idem_RequestHash record = h) then
        if bool_decide (idem_Status record = IdempotencyStatusCompleted) &&
           negb (bool_decide (idem_ResourceID record = ""))
        then (GetFunctionVersion (idem_ResourceID record) (w_store w)).1
        else Err (sentinel ErrIdempotencyInProgress)
      else Err (sentinel ErrIdempotencyConflict).
Proof.
  intros Hk Hh Hr. unfold CreateFunctionVersion. rewrite (bool_decide_eq_false_2 (_ = "")) by done. cbn [negb].
  unfold createFunctionVersionIdempotent. erewrite run_bind by (unfold lift; by rewrite Hh).
  erewrite run_bind by done. cbn beta zeta. erewrite run_bind.
  2:{ eapply run_try, (run_call Hq). unfold CreateIdempotencyRecord. cbn [w_store field_set].
      unfold record_key. cbn [idem_Scope idem_ProjectID idem_Key]. fold (deployKey req). rewrite Hr. reflexivity. }
  cbn iota. unfold errors_Is at 1. rewrite bool_decide_eq_true_2 by (simpl; set_solver).
  unfold replayFunctionVersion, GetIdempotencyRecord. erewrite run_bind by (by apply (run_find Hq)).
  destruct (bool_decide (idem_RequestHash record = h)); simpl; [|by split].
  destruct (bool_decide (idem_Status record = _)); simpl; [|by split].
  destruct (bool_decide (idem_ResourceID record = "")); simpl; [by split|].
  unfold GetFunctionVersion. destruct (st_functions (w_store w) !! idem_ResourceID record) eqn:Ej.
  - erewrite (run_find Hq) by done. unfold find. by rewrite Ej.
  - erewrite (run_find_none Hq) by done. unfold find. by rewrite Ej.
Qed.

End DeployOnce.

(** ** The system invariant along the build service *)

(** What the invariant needs of the service's collaborators. *)
Class BuildKeeps (Inv : World → Prop) (cfg : BuildConfig) := {
  bus_keeps publish region id : bc_bus cfg = Some publish → preserves Inv (publish region id);
  warmer_keeps warmer v : bc_warmer cfg = Some warmer → preserves Inv (warmer v);
  replica_keeps replicate req : bc_replica cfg = Some replicate → preserves Inv (replicate req);
}.

Section BuildInvariant.
Context `{E : !GoEnv, BE : !BuildEnv} (HR : rely E jobs_wf) (HA : artifacts_kept E).
Context (K : gmap string Coordinator → Prop).
Abbreviation Inv := (inv_on jobs_wf K).
Context (cfg : BuildConfig) `{Hcfg : !BuildKeeps Inv cfg}.

Lemma keeps_putObject name key data : preserves Inv (putObject name key data).
Proof. intros w [H1 H2]. unfold putObject. destruct (env_fault _); split; try done; by split. Qed.

Lemma keeps_draw {A} (source : nat → A) : preserves Inv (draw source).
Proof. intros w Hw. by split. Qed.
#[local] Hint Resolve keeps_putObject keeps_draw : keeps.

Lemma keeps_Printf rec line : preserves Inv (Printf rec line).
Proof. unfold Printf. keep. Qed.
#[local] Hint Resolve keeps_Printf : keeps.

Lemma keeps_PrintAll lines rec : preserves Inv (PrintAll rec lines).
Proof. revert rec. induction lines as [|line lines IH]; intros rec; simpl; keep. Qed.
#[local] Hint Resolve keeps_PrintAll : keeps.

Lemma keeps_markBuildFailed version job err :
  version_ok version → preserves Inv (markBuildFailed version job err).
Proof. intros Hv. unfold markBuildFailed. keep. Qed.
#[local] Hint Resolve keeps_markBuildFailed : keeps.

Lemma keeps_archiveBuildLogs job rec : preserves Inv (archiveBuildLogs job rec).
Proof. unfold archiveBuildLogs. keep. Qed.
#[local] Hint Resolve keeps_archiveBuildLogs : keeps.

Lemma keeps_markBuildFailedWithLogs version job rec err :
  version_ok version → preserves Inv (markBuildFailedWithLogs version job rec err).
Proof. intros Hv. unfold markBuildFailedWithLogs. keep. Qed.
#[local] Hint Resolve keeps_markBuildFailedWithLogs : keeps.

Lemma keeps_orFail {A} version job rec (m : WM A) (k : A → WM unit) :
  version_ok version → preserves Inv m → (∀ a, preserves Inv (k a)) → preserves Inv (orFail version job rec m k).
Proof. intros Hv Hm Hk. unfold orFail. keep. Qed.

Lemma keeps_manifestFiles req entrypoint : preserves Inv (manifestFiles req entrypoint).
Proof. unfold manifestFiles. keep. Qed.
#[local] Hint Resolve keeps_manifestFiles : keeps.

Lemma keeps_prepareBuildOutput req rec : preserves Inv (prepareBuildOutput req rec).
Proof.
  unfold prepareBuildOutput, prepareBundle, prepareGit. cbv zeta. keep.
Qed.
#[local] Hint Resolve keeps_prepareBuildOutput : keeps.

Lemma keeps_generateHTTPTriggerToken : preserves Inv generateHTTPTriggerToken.
Proof. unfold generateHTTPTriggerToken. keep. Qed.
#[local] Hint Resolve keeps_generateHTTPTriggerToken : keeps.

Lemma keeps_createTrigger n version : preserves Inv (createTrigger n version).
Proof. induction n as [|n IH]; simpl; keep. Qed.
#[local] Hint Resolve keeps_createTrigger : keeps.

Lemma keeps_ensureDefaultHTTPTrigger version rec : preserves Inv (ensureDefaultHTTPTrigger version rec).
Proof. unfold ensureDefaultHTTPTrigger. keep. Qed.
#[local] Hint Resolve keeps_ensureDefaultHTTPTrigger : keeps.

Lemma keeps_artifactRegions req d b st t : preserves Inv (artifactRegions cfg req d b st t).
Proof. unfold artifactRegions. destruct (bc_replica cfg) eqn:?; [by eapply replica_keeps|keep]. Qed.

Lemma keeps_uploadSite version d e t site : preserves Inv (uploadSite version d e t site).
Proof.
  unfold uploadSite. eapply (keeps_bind _ _ _ (λ _, True)); [|intros ? _; keep].
  apply keeps_for_each; [done|]. intros. apply keeps_putObject.
Qed.

Lemma keeps_finishBuild version job rec : version_ok version → preserves Inv (finishBuild cfg version job rec).
Proof.
  intros Hv. unfold finishBuild. apply keeps_orFail; [done|apply keeps_ensureDefaultHTTPTrigger|]. intros rec1.
  eapply (keeps_bind _ _ _ (λ _, True)).
  - destruct (bc_warmer cfg) eqn:Ew; [|keep]. case_bool_decide; [|keep].
    eapply (keeps_bind _ _ _ (λ _, True)); [|intros [] _; keep].
    eapply keeps_mono; [apply keeps_try; by eapply warmer_keeps|done].
  - intros rec2 _. keep.
Qed.

(** The artifact record is stored before the ready version that names it. *)
Lemma keeps_publish version version' job rec meta (k : unit → WM unit) :
  version_ok version → version_ok version' → fv_ArtifactDigest version' = art_Digest meta →
  (∀ a, preserves Inv (k a)) →
  preserves Inv (orFail version job rec (call (PutArtifact meta)) (λ _,
    orFail version' job rec (call (PutFunctionVersion version')) k)).
Proof.
  intros Hv Hv' Hd Hk w Hw. split; [|done]. unfold orFail at 1. unfold try. rewrite M_bind_eq.
  pose proof (keeps_PutArtifact HR K meta w Hw) as [Hw1 _].
  destruct (call (PutArtifact meta) w) as [[[]|e] w1] eqn:E1; [|by apply keeps_markBuildFailedWithLogs].
  assert (is_Some (st_artifacts (w_store w1) !! art_Digest meta)) as Ha.
  { unfold call in E1. destruct (env_fault (w_calls w)); [done|]. injection E1 as <-. simpl.
    by rewrite lookup_insert_eq. }
  simpl in Hw1. unfold orFail, try. rewrite M_bind_eq. destruct Hw1 as [Hj1 HK1].
  apply (HR (w_calls w1)) in Hj1. apply (HA (w_calls w1)) in Ha.
  unfold call. destruct (env_fault (w_calls w1)) as [e|].
  { apply keeps_markBuildFailedWithLogs; [done|]. by split. }
  apply Hk. split; [|done]. destruct Hj1 as [H1 H2 H3]. split; simpl; [done| |].
  - by apply map_Forall_insert_2.
  - apply map_Forall_insert_2; [|done]. intros _. by rewrite Hd.
Qed.

Lemma keeps_publishBuild version job req rec prepared :
  version_ok version → preserves Inv (publishBuild cfg version job req rec prepared).
Proof.
  intros Hv. unfold publishBuild. cbv zeta. destruct (_ <? _)%Z; [by apply keeps_markBuildFailedWithLogs|].
  eapply keeps_bind; [apply keeps_Printf|]. intros rec1 _. apply keeps_orFail; [done|apply keeps_putObject|].
  intros _. apply keeps_orFail; [done|apply keeps_putObject|]. intros _.
  eapply keeps_bind; [apply keeps_Printf|]. intros rec2 _. eapply keeps_bind; [apply keeps_now|]. intros t _.
  apply keeps_orFail; [done|apply keeps_artifactRegions|]. intros regions.
  eapply keeps_bind; [apply keeps_PrintAll|]. intros rec3 _.
  destruct (pb_Site prepared) as [site|].
  2:{ apply keeps_publish; [done..|]. intros _. by apply keeps_finishBuild. }
  apply keeps_orFail; [done|apply keeps_uploadSite|]. intros _.
  eapply keeps_bind; [apply keeps_PrintAll|]. intros rec4 _.
  apply keeps_publish; [done..|]. intros _. by apply keeps_finishBuild.
Qed.
#[local] Hint Resolve keeps_publishBuild : keeps.

Lemma keeps_ProcessBuildJob id : preserves Inv (ProcessBuildJob cfg id).
Proof. unfold ProcessBuildJob, runBuild. keep. Qed.
#[local] Hint Resolve keeps_ProcessBuildJob : keeps.

Lemma keeps_enforceBuildQuota p : preserves Inv (enforceBuildQuota cfg p).
Proof. unfold enforceBuildQuota. keep. Qed.
#[local] Hint Resolve keeps_enforceBuildQuota : keeps.

Lemma keeps_initializeBuild req :
  deploy_ok req → keeps Inv (λ p, version_ok p.1) (initializeBuild req).
Proof.
  intros Hr. pose proof (proj1 (dk_retries _ Hr)) as Hv. unfold initializeBuild. keep.
  exact Hv.
Qed.

Lemma keeps_createFunctionVersion req : keeps Inv version_ok (createFunctionVersion cfg req).
Proof.
  unfold createFunctionVersion. eapply keeps_bind.
  { apply (keeps_lift _ _ (λ r, normalizeDeployRequest req = Ok r)). done. }
  intros r Hr. apply normalize_deploy_ok in Hr.
  eapply keeps_bind; [apply keeps_enforceBuildQuota|]. intros _ _.
  eapply keeps_bind; [by apply keeps_initializeBuild|]. intros [version job] Hv. simpl in Hv.
  destruct (bc_bus cfg) eqn:Eb; [|keep; done].
  eapply (keeps_bind _ _ _ (λ _, True)); [|intros [] _; keep; done].
  eapply keeps_mono; [apply keeps_try; by eapply bus_keeps|done].
Qed.
#[local] Hint Resolve keeps_createFunctionVersion : keeps.

Lemma keeps_CreateFunctionVersion req : keeps Inv version_ok (CreateFunctionVersion cfg req).
Proof.
  unfold CreateFunctionVersion, createFunctionVersionIdempotent, replayFunctionVersion. keep; done.
Qed.

End BuildInvariant.

(** The replicator keeps the invariant: it writes only objects. *)
Lemma keeps_Replicate `{!GoEnv} J K stores req : preserves (inv_on J K) (Replicate stores req).
Proof.
  unfold Replicate. generalize (∅ : gmap string Time). induction (rq_Regions req) as [|region regions IH];
    intros available; simpl; [by apply keeps_ret|].
  assert (∀ name key data, preserves (inv_on J K) (putObject name key data)) as Hp.
  { intros name key data w [H1 H2]. unfold putObject. destruct (env_fault _); split; try done; by split. }
  case_bool_decide; simpl; [|apply keeps_fail].
  eapply keeps_bind; [by apply keeps_try, Hp|]. intros [[]|e] _; [|apply keeps_fail].
  eapply keeps_bind; [by apply keeps_try, Hp|]. intros [[]|e] _; [|apply keeps_fail].
  eapply keeps_bind; [apply keeps_now|]. intros t _. apply IH.
Qed.

(** ** Properties *)

(** Deployment limits.  A request is accepted exactly when its time-out and
    memory are not negative, its regions are supported and, with every default
    and website raise applied, it meets the limits (memory 64 to 4096 MB, time-out 1
    to 900 s, at most 10 retries, 128 variables and 128 secret references with
    well-formed and disjoint names, a supported runtime, network policy and
    source, distinct supported regions; a website gets at least 2048 MB, 180 s
    and network access); the accepted request is that one.  Accepting is
    stable: an accepted request is accepted again, unchanged, whatever the
    iteration orders, as the build job does when it normalizes the stored
    request once more. *)
Theorem deploy_normalize_spec (o : MapOrder) req r :
  (normalizeDeployRequest req = Ok r ↔
   (0 ≤ dr_TimeoutSec req)%Z ∧ (0 ≤ dr_MemoryMB req)%Z ∧
   ∃ regs, NormalizeExecutionRegions (dr_Regions req) = Ok regs ∧ r = effective req regs ∧ deploy_ok r) ∧
  (normalizeDeployRequest req = Ok r → ∀ o' : MapOrder, @normalizeDeployRequest o' r = Ok r).
Proof.
  split.
  - rewrite normalize_ok. split.
    + intros (H1 & H2 & H3 & H4 & H5 & regs & Hr & -> & Hv). split_and!; [done..|].
      exists regs. split_and!; [done..|]. by apply effective_ok.
    + intros (H3 & H4 & regs & Hr & Er & D). split; [rewrite Er in D; exact (dk_project _ D)|].
      split; [rewrite Er in D; exact (dk_name _ D)|]. split; [exact H3|]. split; [exact H4|].
      split; [rewrite Er in D; exact (proj1 (dk_retries _ D))|]. exists regs. split; [exact Hr|].
      split; [exact Er|]. by apply deploy_ok_valid.
  - intros Hr o'. apply normalize_fixed. exact (@normalize_deploy_ok o req r Hr).
Qed.

Definition demo_request : DeployRequest :=
  mkDeployRequest "p1" "hello" "" "index.mjs" 0 0 "" ["ap-south-1"] ∅ [] 1 ""
    (mkDeploySource SourceTypeBundle "" {["index.mjs" := "export {}"]} "" "" "" ∅ ∅).

Definition demo_build_env : BuildEnv := {|
  build_archives := demo_archives [];
  build_tools := demo_tools;
  format_RFC3339 t := itoa t;
  json_MarshalDeploy _ := Ok "request";
  json_MarshalDeployHash r := Ok (dr_Name r);
  json_UnmarshalDeploy _ := Ok demo_request;
  json_MarshalManifest _ e := Ok ("manifest " +:+ e);
  json_MarshalStartup e _ _ := Ok ("startup " +:+ e);
  json_MarshalSite _ := Ok "site";
  base64_Decode s := Ok s;
  rand_Token n := Ok ("token-" +:+ itoa (Z.of_nat n));
|}.

(** A queued build job and its version, and a replicator for one region. *)
Definition demo_build_world : World :=
  NewWorld <| w_store := NewStore
    <| st_buildJobs := {["b1" := mkBuildJob "b1" "v1" "ap-south-1" ∅ "queued" "" (BuildLogsKey "b1") "request" 1 1]} |>
    <| st_functions := {["v1" := mkFunctionVersion "v1" "p1" "hello" "node22" "index.mjs" 128 30 "full"
         ["ap-south-1"] ∅ [] 1 "b1" SourceTypeBundle "" FunctionStateBuilding 1]} |> |>.

Definition demo_build_cfg : BuildConfig :=
  mkBuildConfig None None (Some (@Replicate demo_env {["ap-south-1"]})) 20.

(** C20: every build ends.  When no store call fails, a build job that has not
    succeeded is taken to one of two ends.  Either [ProcessBuildJob] returns no
    error, the job is "succeeded", and its version is ready, with an artifact
    record under the version's digest, the bundle stored under the artifact's key
    (the digest is the SHA-256 of those bytes, at most 64 MiB) and a public
    address; or it returns an error, the job is "failed" with that error, and
    the version is failed.  Nothing is left "running", and no other version or
    build job changes. *)
Theorem build_outcome (E : GoEnv) (BE : BuildEnv) cfg jid vid job version (w : World) :
  quiet E → BuildCollaborators cfg →
  st_buildJobs (w_store w) !! jid = Some job → bj_ID job = jid → bj_LogsKey job = BuildLogsKey jid →
  bj_State job ≠ "succeeded" → bj_FunctionVersionID job = vid →
  st_functions (w_store w) !! vid = Some version → fv_ID version = vid →
  let '(r, w') := ProcessBuildJob cfg jid w in
  others_same vid jid w w' ∧
  match r with Ok _ => published vid jid w' | Err e => unpublished vid jid e w' end.
Proof.
  intros Hq Hc Hj H1 H2 H3 H4 Hv H5. pose proof (wp_ProcessBuildJob Hq cfg vid jid w job version) as H.
  unfold wp in H. destruct (ProcessBuildJob cfg jid w) as [r w']. by apply H.
Qed.

Lemma build_outcome_witness :
  let '(r, w') := @ProcessBuildJob demo_env demo_build_env demo_build_cfg "b1" demo_build_world in
  r = Ok tt ∧ @published demo_env "v1" "b1" w'.
Proof.
  pose proof (build_outcome demo_env demo_build_env demo_build_cfg "b1" "v1"
    (mkBuildJob "b1" "v1" "ap-south-1" ∅ "queued" "" (BuildLogsKey "b1") "request" 1 1)
    (mkFunctionVersion "v1" "p1" "hello" "node22" "index.mjs" 128 30 "full"
       ["ap-south-1"] ∅ [] 1 "b1" SourceTypeBundle "" FunctionStateBuilding 1) demo_build_world demo_quiet) as H.
  assert ((@ProcessBuildJob demo_env demo_build_env demo_build_cfg "b1" demo_build_world).1 = Ok tt) as Hr
    by (vm_compute; reflexivity).
  destruct (ProcessBuildJob _ _ _) as [r w']. cbn [fst] in Hr. subst r.
  split; [reflexivity|]. apply H; try reflexivity; [|discriminate].
  apply replicator_collaborators. reflexivity.
Defined.

(** C21: a deployment with an idempotency key happens once.  When the first
    request under a key succeeds, then afterwards, whatever else happened to the
    system, a request of the same project under the same key that hashes to the same
    value returns the stored version, one that hashes to another value is
    refused with [ErrIdempotencyConflict], and neither changes the store (as long
    as the record and the version are still stored).  When the first request
    fails, for whatever reason, the key is free again.  While a request is in
    progress its key is refused to others. *)
Theorem deploy_idempotent (E : GoEnv) (BE : BuildEnv) cfg req h (w : World) :
  quiet E → dr_IdempotencyKey req ≠ "" → deployRequestHash req = Ok h →
  st_idempotency (w_store w) !! deployKey req = None →
  (let '(r, w1) := CreateFunctionVersion cfg req w in
  match r with
  | Err _ => st_idempotency (w_store w1) !! deployKey req = None
  | Ok v => ∀ req2 h2 v2 w2,
      deployKey req2 = deployKey req → dr_IdempotencyKey req2 ≠ "" → deployRequestHash req2 = Ok h2 →
      st_idempotency (w_store w2) !! deployKey req = st_idempotency (w_store w1) !! deployKey req →
      fv_ID v ≠ "" → st_functions (w_store w2) !! fv_ID v = Some v2 →
      let '(r2, w3) := CreateFunctionVersion cfg req2 w2 in
      w_store w3 = w_store w2 ∧
      r2 = if bool_decide (h = h2) then Ok v2 else Err (sentinel ErrIdempotencyConflict)
  end) ∧
  (∀ record w2, st_idempotency (w_store w2) !! deployKey req = Some record →
     idem_RequestHash record = h → idem_Status record = IdempotencyStatusPending →
     let '(r2, w3) := CreateFunctionVersion cfg req w2 in
     w_store w3 = w_store w2 ∧ r2 = Err (sentinel ErrIdempotencyInProgress)).
Proof.
  intros Hq Hk Hh Hn. split.
  - pose proof (run_deploy_first Hq cfg req h w Hk Hh Hn) as H1.
    destruct (CreateFunctionVersion cfg req w) as [[v|e] w1]; [|exact H1]. destruct H1 as (t & t' & H1).
    intros req2 h2 v2 w2 Ek Hk2 Hh2 Hr Hv Hf. rewrite H1, <- Ek in Hr.
    pose proof (run_deploy_replay Hq cfg req2 h2 w2 _ Hk2 Hh2 Hr) as H2.
    destruct (CreateFunctionVersion cfg req2 w2) as [r2 w3]. destruct H2 as [Hs ->].
    split; [done|]. unfold completedDeploy. cbn [idem_RequestHash idem_Status idem_ResourceID].
    rewrite (bool_decide_eq_false_2 (fv_ID v = "")) by done. cbn [negb andb].
    unfold GetFunctionVersion, find. by rewrite Hf.
  - intros record w2 Hr H2 H3. pose proof (run_deploy_replay Hq cfg req h w2 _ Hk Hh Hr) as H4.
    destruct (CreateFunctionVersion cfg req w2) as [r2 w3]. destruct H4 as [Hs ->].
    split; [exact Hs|]. rewrite H2, H3. by rewrite bool_decide_eq_true_2.
Qed.

(** The same request twice, then another function under the same key. *)
Lemma deploy_idempotent_witness :
  let req := demo_request <| dr_IdempotencyKey := "key-1" |> in
  let run1 := @CreateFunctionVersion demo_env demo_build_env NewBuild req NewWorld in
  let run2 := @CreateFunctionVersion demo_env demo_build_env NewBuild req run1.2 in
  let run3 := @CreateFunctionVersion demo_env demo_build_env NewBuild (req <| dr_Name := "other" |>) run1.2 in
  (∃ v, run1.1 = Ok v ∧ run2.1 = Ok v) ∧ run3.1 = Err (sentinel ErrIdempotencyConflict).
Proof.
  set (req := demo_request <| dr_IdempotencyKey := "key-1" |>).
  pose proof (deploy_idempotent demo_env demo_build_env NewBuild req "sha:hello" NewWorld demo_quiet) as H.
  specialize (H ltac:(discriminate) ltac:(vm_compute; reflexivity) ltac:(reflexivity)) as [H _].
  intros req' run1 run2 run3. unfold req' in *. clear req'.
  assert (match run1.1 with Ok v => bool_decide (fv_ID v = "uuid-0") | Err _ => false end = true) as Hv
    by (vm_compute; reflexivity).
  assert (match run1.1 with Ok v => st_functions (w_store run1.2) !! "uuid-0" = Some v
          | Err _ => False end) as Hf by (vm_compute; reflexivity).
  unfold run2, run3. clear run2 run3. fold run1 in H. clearbody run1.
  destruct run1 as [[v|e] w1]; cbn [fst snd] in *; [|discriminate].
  apply bool_decide_eq_true in Hv. rewrite <- Hv in Hf. assert (fv_ID v ≠ "") as Hn by (rewrite Hv; discriminate).
  pose proof (H req "sha:hello" v w1) as H1. pose proof (H (req <| dr_Name := "other" |>) "sha:other" v w1) as H2.
  do 2 (specialize (H1 ltac:(first [reflexivity|discriminate])); specialize (H2 ltac:(first [reflexivity|discriminate]))).
  specialize (H1 ltac:(vm_compute; reflexivity) eq_refl Hn Hf).
  specialize (H2 ltac:(vm_compute; reflexivity) eq_refl Hn Hf).
  clear H Hf Hv Hn. destruct (@CreateFunctionVersion demo_env demo_build_env NewBuild req w1) as [r2 w2].
  destruct H1 as [_ ->]. clearbody req.
  destruct (@CreateFunctionVersion demo_env demo_build_env NewBuild _ w1) as [r3 w3]. destruct H2 as [_ ->].
  split; [exists v; split; reflexivity|reflexivity].
Defined.
