(* ===== verification/Http.v ===== *)
(** * Http: requests, responses and the streaming writer

    What [internal/httpapi/server.go] uses of [net/http] and [encoding/json],
    and its functions that write responses: the plain, JSON and raw replies,
    the result of a function as an HTTP response, and the writer that forwards a
    streamed response ([httpDirectStreamWriter]).

    A request carries what [net/http] and the router deliver: the parsed query,
    the headers under their canonical names, the context cookie, the body with
    the error that ended its reading.  A decoded JSON value ([any]) is a [Json];
    a number is what its integer conversion and its printed form show of it.

    What a client receives is shown in [HttpStream]. *)

From Stdlib Require Import Ascii.
From stdpp Require Import base decidable tactics numbers list gmap strings sorting.
From S2P Require Import Prelude Text Domain MemStore World Scheduler Artifacts Files Archive BuildTools NextSite Workspace Build.

(** ** Headers *)

(** [validHeaderFieldByte] of [net/textproto]: the bytes of a token. *)
Definition isTokenByte (a : ascii) : bool :=
  isLetter a || isDigit a || existsb (byte_eqb a) [33; 35; 36; 37; 38; 39; 42; 43; 45; 46; 94; 95; 96; 124; 126]%N.

Definition ascii_upper (a : ascii) : ascii :=
  let n := N_of_ascii a in
  if (97 <=? n)%N && (n <=? 122)%N then ascii_of_N (n - 32) else a.

Fixpoint canonical_go (upper : bool) (s : string) : string :=
  match s with
  | EmptyString => EmptyString
  | String a s' =>
      String (if upper then ascii_upper a else ascii_lower a) (canonical_go (byte_eqb a 45) s')
  end.

Fixpoint allBytes (p : ascii → bool) (s : string) : bool :=
  match s with EmptyString => true | String a s' => p a && allBytes p s' end.

(** [textproto.CanonicalMIMEHeaderKey] *)
Definition CanonicalHeaderKey (key : string) : string :=
  if allBytes isTokenByte key then canonical_go true key else key.

Definition headerGet (h : Header) (key : string) : string :=
  match h !! CanonicalHeaderKey key with Some (v :: _) => v | _ => "" end.
Definition headerSet (key value : string) (h : Header) : Header := <[CanonicalHeaderKey key := [value]]> h.
Definition headerAdd (key value : string) (h : Header) : Header :=
  let k := CanonicalHeaderKey key in <[k := default [] (h !! k) ++ [value]]> h.

(** ** Requests *)

Record HTTPRequest := mkHTTPRequest {
  hr_Method : string;
  hr_Path : string;
  hr_Wild : string;
  hr_RawQuery : string;
  hr_Query : gmap string (list string);
  hr_RequestURI : string;
  hr_URLScheme : string;
  hr_URLHost : string;
  hr_Host : string;
  hr_RemoteAddr : string;
  hr_Header : Header;
  hr_Cookie : option string;
  hr_Body : string;
  hr_BodyErr : option GoError;
}.

#[export] Instance HTTPRequest_rebuild : Rebuild HTTPRequest := λ r,
  mkHTTPRequest (hr_Method r) (hr_Path r) (hr_Wild r) (hr_RawQuery r) (hr_Query r) (hr_RequestURI r)
    (hr_URLScheme r) (hr_URLHost r) (hr_Host r) (hr_RemoteAddr r) (hr_Header r) (hr_Cookie r)
    (hr_Body r) (hr_BodyErr r).

Definition requestHeader (r : HTTPRequest) (key : string) : string := headerGet (hr_Header r) key.

(** [r.URL.Query().Get(key)] *)
Definition queryGet (r : HTTPRequest) (key : string) : string :=
  match hr_Query r !! key with Some (v :: _) => v | _ => "" end.

(** [io.ReadAll(io.LimitReader(r.Body, 1<<20))] *)
Definition maxRequestBody : Z := 1048576.
Definition readBody (r : HTTPRequest) : result string :=
  if (maxRequestBody <=? Z.of_nat (String.length (hr_Body r)))%Z
  then Ok (String.substring 0 (Z.to_nat maxRequestBody) (hr_Body r))
  else match hr_BodyErr r with Some e => Err e | None => Ok (hr_Body r) end.

(** [strings.TrimRight(s, "/")] *)
Fixpoint trimSlashes (s : string) : string :=
  match s with
  | EmptyString => EmptyString
  | String a s' =>
      match trimSlashes s' with
      | EmptyString => if Ascii.eqb a slash then EmptyString else String a EmptyString
      | t => String a t
      end
  end.

Definition requestScheme (r : HTTPRequest) : string :=
  let forwarded := TrimSpace (requestHeader r "X-Forwarded-Proto") in
  if negb (bool_decide (forwarded = "")) then forwarded
  else if negb (blank (hr_URLScheme r)) then hr_URLScheme r else "http".

Definition requestHost (r : HTTPRequest) : string :=
  let forwarded := TrimSpace (requestHeader r "X-Forwarded-Host") in
  if negb (bool_decide (forwarded = "")) then forwarded
  else if negb (blank (hr_Host r)) then hr_Host r
  else if negb (blank (hr_URLHost r)) then hr_URLHost r
  else "localhost".

Definition publicBaseURL (r : HTTPRequest) : string := requestScheme r +:+ "://" +:+ requestHost r.

Definition fullRequestURL (r : HTTPRequest) : string := publicBaseURL r +:+ hr_RequestURI r.

Definition triggerRequestPath (r : HTTPRequest) : string :=
  let pathValue := TrimSpace (hr_Wild r) in
  if bool_decide (pathValue = "") then "/" else "/" +:+ TrimPrefix pathValue "/".

Definition websiteRequestPath : HTTPRequest → string := triggerRequestPath.

Definition normalizedWebsitePath (rawPath : string) : string :=
  if blank rawPath then "/" else if HasPrefix rawPath "/" then rawPath else "/" +:+ rawPath.

(** ** The environment of the server *)

(** The bodies of [internal/httpapi/types.go] that requests carry. *)
Record createFunctionRequest := mkCreateFunctionRequest {
  cf_Name : string;
  cf_Environment : string;
  cf_Runtime : string;
  cf_Entrypoint : string;
  cf_MemoryMB : Z;
  cf_TimeoutSec : Z;
  cf_NetworkPolicy : string;
  cf_Regions : list string;
  cf_EnvVars : gmap string string;
  cf_EnvRefs : list string;
  cf_MaxRetries : Z;
  cf_IdempotencyKey : string;
  cf_Source : string;
}.

Record createProjectRequest := mkCreateProjectRequest { cp_ID : string; cp_Name : string }.
Record invokeRequest := mkInvokeRequest { iv_Payload : string; iv_IdempotencyKey : string }.
Record createWebhookTriggerRequest := mkCreateWebhookTriggerRequest { cw_Description : string; cw_Token : string }.
Record createHTTPTriggerRequest := mkCreateHTTPTriggerRequest {
  ch_Description : string;
  ch_Token : string;
  ch_AuthMode : string;
}.
Record drainHostRequest := mkDrainHostRequest { dh_Reason : string }.

(** JSON decoding and encoding, MIME types, URL parsing, Unicode lower case, the
    process environment, random tokens and the failures of client connections. *)
Class HttpEnv := {
  json_DecodeFunction : string → option GoError → result createFunctionRequest;
  json_DecodeSource : string → result DeploySource;
  json_DecodeProject : string → option GoError → result createProjectRequest;
  json_DecodeInvoke : string → option GoError → result invokeRequest;
  json_DecodeWebhook : string → option GoError → result createWebhookTriggerRequest;
  json_DecodeHTTPTrigger : string → option GoError → result createHTTPTriggerRequest;
  json_DecodeDrain : string → option GoError → result drainHostRequest;
  json_DecodeManifest : string → result WebsiteManifest;
  json_Valid : string → bool;
  json_Unmarshal : string → result Json;
  json_Marshal : Json → result string;
  base64_Encode : string → string;
  fmt_Sprint : Json → string;
  mime_TypeByExtension : string → string;
  http_DetectContentType : string → string;
  url_ParsePath : string → result string;
  strings_ToLower : string → string;
  os_PublicBaseURL : string;
  os_PublicWebsiteBaseURL : string;
  rand_TriggerToken : nat → result string;
  http_CookieValue : string → string;
  conn_fault : string → nat → option GoError;
}.

(** ** Writing a response *)

Definition NewConn : Conn := mkConn ∅ None "" false false 200 "" StartModeUnset.

Definition connOf (conn : string) (w : World) : Conn := default NewConn (w_conns w !! conn).

Definition onConn (conn : string) (f : Conn → Conn) (w : World) : World :=
  w <| w_conns := <[conn := f (connOf conn w)]> (w_conns w) |>.

Definition validStatus (code : Z) : bool := (100 <=? code)%Z && (code <=? 999)%Z.

(** [WriteHeader]: only the first call counts, and an invalid code panics. *)
Definition sendHeader (code : Z) (c : Conn) : Conn :=
  match cn_Sent c with
  | Some _ => c
  | None => c <| cn_Sent := Some (code, cn_Header c) |>
  end.

Section Http.
Context `{!GoEnv, !BuildEnv, !HttpEnv}.

Definition setHeader (conn key value : string) : WM unit :=
  modify (onConn conn (λ c, c <| cn_Header := headerSet key value (cn_Header c) |>)).

Definition addHeader (conn key value : string) : WM unit :=
  modify (onConn conn (λ c, c <| cn_Header := headerAdd key value (cn_Header c) |>)).

Definition WriteHeader (conn : string) (code : Z) : WM unit :=
  if validStatus code then modify (onConn conn (sendHeader code))
  else fail (plainErr ("panic: invalid WriteHeader code " +:+ itoa code)).

(** [Write] sends the header with 200 first, when it was not sent. *)
Definition Write (conn data : string) : WM unit :=
  modify (onConn conn (sendHeader 200)) ≫= λ _,
  c ← gets (connOf conn);
  match conn_fault conn (String.length (cn_Body c)) with
  | Some e => fail e
  | None => modify (onConn conn (λ c, c <| cn_Body := cn_Body c +:+ data |>))
  end.

(** [http.Error] *)
Definition httpError (conn msg : string) (status : Z) : WM unit :=
  setHeader conn "Content-Type" "text/plain; charset=utf-8" ≫= λ _,
  setHeader conn "X-Content-Type-Options" "nosniff" ≫= λ _,
  WriteHeader conn status ≫= λ _,
  ignore (Write conn (msg +:+ newline)).

Definition writeRaw (conn : string) (status : Z) (contentType data : string) : WM unit :=
  setHeader conn "Content-Type" contentType ≫= λ _,
  WriteHeader conn status ≫= λ _,
  ignore (Write conn data).

(** [writeJSON] of an encoded value. *)
Definition writeJSON (conn : string) (status : Z) (value : result string) : WM unit :=
  setHeader conn "Content-Type" "application/json" ≫= λ _,
  WriteHeader conn status ≫= λ _,
  match value with Ok text => ignore (Write conn (text +:+ newline)) | Err _ => mret tt end.

(** The status of an error: what the switch leaves to its default is the
    client's fault. *)
Definition errorStatus (e : GoError) : Z :=
  if errors_Is e ContextDeadlineExceeded then 504
  else if errors_Is e ArtifactErrNotFound then 404
  else if errors_Is e ErrAccessDenied then 403
  else if errors_Is e ErrProjectBuildQuota || errors_Is e ErrProjectExecutionQuota then 429
  else if errors_Is e ErrNoExecutionCapacity || errors_Is e ErrDirectInvokeUnavailable then 503
  else if errors_Is e ErrNotFound then 404
  else if errors_Is e ErrFunctionVersionNotReady || errors_Is e ErrBuildLogsNotReady ||
          errors_Is e ErrExecutionResultNotReady then 409
  else if errors_Is e ErrIdempotencyConflict || errors_Is e ErrIdempotencyInProgress ||
          errors_Is e ErrAlreadyExists then 409
  else 400.

Definition writeServiceError (conn : string) (e : GoError) : WM unit :=
  httpError conn (Error e) (errorStatus e).

(** ** Latencies *)

Definition computeLatencyMs (startedAt finishedAt : Time) : Z :=
  if IsZero startedAt || IsZero finishedAt || (finishedAt <? startedAt)%Z then 0
  else
    let latencyMs := Milliseconds (Sub finishedAt startedAt) in
    if (latencyMs =? 0)%Z && (startedAt <? finishedAt)%Z then 1 else latencyMs.

Definition withJobLatency (job : ExecutionJob) : ExecutionJob :=
  match job_Result job with
  | None => job
  | Some res =>
      job <| job_Result := Some (res <| jr_LatencyMs := computeLatencyMs (jr_StartedAt res) (jr_FinishedAt res) |>) |>
  end.

Definition jobLatencyMs (job : ExecutionJob) : Z :=
  match job_Result job with
  | None => 0
  | Some res => computeLatencyMs (jr_StartedAt res) (jr_FinishedAt res)
  end.

Definition withAttemptLatency (attempts : list Attempt) : list Attempt :=
  (λ a, if Terminal (att_State a)
        then a <| att_LatencyMs := computeLatencyMs (att_StartedAt a) (att_UpdatedAt a) |> else a) <$> attempts.

Definition httpTriggerTimeout (timeoutSec : Z) : Duration :=
  if (timeoutSec <=? 0)%Z then (30 * Second)%Z
  else
    let timeout := int64_of (int64_of (timeoutSec + 10) * Second) in
    let timeout := if (timeout <? 10 * Second)%Z then (10 * Second)%Z else timeout in
    if (180 * Second <? timeout)%Z then (180 * Second)%Z else timeout.

(** ** The result of a function as a response *)

Definition withLatencyValue (value : Json) (latencyMs : Z) : Json :=
  match value with
  | JObj m => JObj (<["latencyMs" := JNum latencyMs (itoa latencyMs)]> m)
  | _ => value
  end.

Definition withLatencyJSON (output : string) (latencyMs : Z) : string :=
  match json_Unmarshal output with
  | Err _ => output
  | Ok value =>
      match json_Marshal (withLatencyValue value latencyMs) with
      | Ok encoded => encoded
      | Err _ => output
      end
  end.

(** The dynamic types [encoding/json] produces. *)
Definition toInt (value : Json) : result Z :=
  match value with JNum n _ => Ok n | _ => Err (plainErr "invalid integer value") end.

Definition toBool (value : option Json) : result bool :=
  match value with
  | None | Some JNull => Ok false
  | Some (JBool b) => Ok b
  | Some _ => Err (plainErr "invalid boolean value")
  end.

Definition addHeaderValue (h : Header) (kv : string * Json) : Header :=
  match kv.2 with
  | JStr s => headerAdd kv.1 s h
  | JArr l => foldl (λ h item, headerAdd kv.1 (fmt_Sprint item) h) h l
  | v => headerAdd kv.1 (fmt_Sprint v) h
  end.

Definition toHTTPHeader (value : Json) : result Header :=
  match value with
  | JNull => Ok ∅
  | JObj m => Ok (foldl addHeaderValue ∅ (map_iter 2226 m))
  | _ => Err (plainErr "invalid headers in http function output")
  end.

(** The body and the headers with the content type it got. *)
Definition encodeHTTPResponseBody (value : option Json) (headers : Header) (rawBase64Flag : option Json) :
    result (string * Header) :=
  isBase64Encoded ← toBool rawBase64Flag;
  let withType t := if bool_decide (headerGet headers "Content-Type" = "")
                    then headerSet "Content-Type" t headers else headers in
  match value with
  | None | Some JNull => Ok ("", headers)
  | Some (JStr s) =>
      if isBase64Encoded : bool then data ← base64_Decode s; Ok (data, headers)
      else Ok (s, withType "text/plain; charset=utf-8")
  | Some v => data ← json_Marshal v; Ok (data, withType "application/json")
  end.

(** [None]: the output is not a structured response. *)
Definition decodeHTTPFunctionResult (output : string) (latencyMs : Z) :
    result (option (Z * Header * string)) :=
  match json_Unmarshal output with
  | Ok (JObj payload) =>
      match payload !! "statusCode" with
      | None => Ok None
      | Some rawStatus =>
          match toInt rawStatus with
          | Ok statusCode =>
              if validStatus statusCode then
                headers ← match payload !! "headers" with Some raw => toHTTPHeader raw | None => Ok ∅ end;
                let body := (λ v, withLatencyValue v latencyMs) <$> payload !! "body" in
                '(data, headers) ← encodeHTTPResponseBody body headers (payload !! "isBase64Encoded");
                Ok (Some (statusCode, headers, data))
              else Err (plainErr "invalid statusCode in http function output")
          | Err _ => Err (plainErr "invalid statusCode in http function output")
          end
      end
  | _ => Ok None
  end.

Definition streamThreshold : Z := 65536.
Definition streamChunkSize : Z := 262144.

(** The writes of a large body; [n] bounds the number of chunks. *)
Fixpoint writeChunks (n : nat) (conn body : string) (offset : Z) : WM unit :=
  match n with
  | 0 => mret tt
  | S n =>
      if (offset <? Z.of_nat (String.length body))%Z then
        Write conn (String.substring (Z.to_nat offset) (Z.to_nat streamChunkSize) body) ≫= λ _,
        writeChunks n conn body (offset + streamChunkSize)
      else mret tt
  end.

Definition writeHTTPResponseBody (conn body : string) : WM unit :=
  if bool_decide (body = "") then mret tt
  else if (Z.of_nat (String.length body) <? streamThreshold)%Z then Write conn body
  else writeChunks (String.length body) conn body 0.

Definition writeHTTPFunctionResult (conn method output : string) (latencyMs : Z) : WM unit :=
  decoded ← lift (decodeHTTPFunctionResult output latencyMs);
  match decoded with
  | None =>
      setHeader conn "Content-Type" "application/json" ≫= λ _,
      WriteHeader conn 200 ≫= λ _,
      if bool_decide (method = "HEAD") then mret tt
      else ignore (writeHTTPResponseBody conn (withLatencyJSON output latencyMs))
  | Some (statusCode, headers, body) =>
      for_each (map_iter 2137 headers) (λ kv, for_each kv.2 (addHeader conn kv.1)) ≫= λ _,
      WriteHeader conn statusCode ≫= λ _,
      if bool_decide (method = "HEAD") || bool_decide (body = "") then mret tt
      else ignore (writeHTTPResponseBody conn body)
  end.

(** ** The streaming writer *)

Definition latencyTrailerHeader : string := "X-Lecrev-Latency-Ms".

(** The receiver's constant fields. *)
Record httpDirectStreamWriter := mkStreamWriter {
  sw_conn : string;
  sw_method : string;
  sw_token : string;
  sw_versionID : string;
}.

Definition newHTTPDirectStreamWriter (conn method token versionID : string) : WM httpDirectStreamWriter :=
  modify (onConn conn (λ c, c <| sw_started := false |> <| sw_closed := false |> <| sw_status := 200%Z |>
                              <| sw_jobID := "" |> <| sw_startMode := StartModeUnset |>)) ≫= λ _,
  mret (mkStreamWriter conn method token versionID).

Definition declareLatencyTrailer (c : Conn) : Conn :=
  let current := default [] (cn_Header c !! "Trailer") in
  if existsb (λ value, existsb (λ name, EqualFold (TrimSpace name) latencyTrailerHeader)
                         (Split value ","%char)) current
  then c
  else c <| cn_Header := headerAdd "Trailer" latencyTrailerHeader (cn_Header c) |>.

Definition setMeta (w : httpDirectStreamWriter) (jobID : string) (startMode : StartMode) (c : Conn) : Conn :=
  if sw_started c then c else
  let set k v c := c <| cn_Header := headerSet k v (cn_Header c) |> in
  let c := if blank jobID then c else set "X-Lecrev-Job-Id" jobID (c <| sw_jobID := jobID |>) in
  let c := set "X-Lecrev-Function-Version-Id" (sw_versionID w) c in
  let c := if blank (sw_token w) then c else set "X-Lecrev-Function-Url-Token" (sw_token w) c in
  if bool_decide (startMode = StartModeUnset) then c
  else set "X-Lecrev-Start-Mode" (startModeText startMode) (c <| sw_startMode := startMode |>).

Definition SetMeta (w : httpDirectStreamWriter) (jobID : string) (startMode : StartMode) : WM unit :=
  modify (onConn (sw_conn w) (setMeta w jobID startMode)).

(** Both branches of the code set the same header. *)
Definition SetLatency (w : httpDirectStreamWriter) (latencyMs : Z) : WM unit :=
  if (latencyMs <=? 0)%Z then mret tt
  else setHeader (sw_conn w) latencyTrailerHeader (itoa latencyMs).

Definition Started (w : httpDirectStreamWriter) : WM bool :=
  gets (λ world, sw_started (connOf (sw_conn w) world)).

(** [declareLatencyTrailer(); WriteHeader(w.status); w.started = true] *)
Definition startStream (w : httpDirectStreamWriter) : WM unit :=
  modify (onConn (sw_conn w) declareLatencyTrailer) ≫= λ _,
  c ← gets (connOf (sw_conn w));
  WriteHeader (sw_conn w) (sw_status c) ≫= λ _,
  modify (onConn (sw_conn w) (λ c, c <| sw_started := true |>)).

Definition HandleEvent (w : httpDirectStreamWriter) (event : HTTPStreamEvent) : WM unit :=
  c ← gets (connOf (sw_conn w));
  if sw_closed c then mret tt
  else if bool_decide (hse_Type event = "http_start") then
    if sw_started c then mret tt else
    modify (onConn (sw_conn w) declareLatencyTrailer) ≫= λ _,
    (if (0 <? hse_StatusCode event)%Z
     then modify (onConn (sw_conn w) (λ c, c <| sw_status := hse_StatusCode event |>)) else mret tt) ≫= λ _,
    for_each (map_iter 1463 (hse_Headers event)) (λ kv,
      if bool_decide (kv.1 = "") then mret tt else setHeader (sw_conn w) kv.1 kv.2) ≫= λ _,
    c ← gets (connOf (sw_conn w));
    WriteHeader (sw_conn w) (sw_status c) ≫= λ _,
    modify (onConn (sw_conn w) (λ c, c <| sw_started := true |>))
  else if bool_decide (hse_Type event = "http_chunk") then
    (if sw_started c then mret tt else startStream w) ≫= λ _,
    if bool_decide (sw_method w = "HEAD") || bool_decide (hse_Chunk event = "") then mret tt
    else Write (sw_conn w) (hse_Chunk event)
  else if bool_decide (hse_Type event = "http_end") then
    (if sw_started c then mret tt else startStream w) ≫= λ _,
    modify (onConn (sw_conn w) (λ c, c <| sw_closed := true |>))
  else mret tt.

Definition CloseStream (w : httpDirectStreamWriter) : WM unit :=
  modify (onConn (sw_conn w) (λ c, c <| sw_closed := true |>)).

End Http.
