(* ===== verification/HttpApi.v ===== *)
(** * HttpApi: the public interface of the control plane

    Models [internal/httpapi/server.go], [types.go] and [internal/apikey/hash.go].
    The router of the server is a library; it hands a request to one endpoint
    with the parameters of its path ([Endpoint]).  An endpoint under [/v1] runs
    behind the authentication middleware and ends by writing one reply
    ([Reply]); the public addresses ([/f], [/w], [/v1/triggers/webhook] and the
    fallback of a website) write to the connection as they go.  A deadline of a
    request is the deadline of the dispatchers the configuration holds; the
    polling loop of a trigger gets the number of ticks before its deadline.  A
    panic of the handler is the error it ends with. *)

From Stdlib Require Import Ascii.
From stdpp Require Import base decidable tactics numbers list gmap strings sorting.
From S2P Require Import Prelude Text Domain MemStore World Scheduler Artifacts Files Archive BuildTools NextSite Workspace Build Http.

(** ** The bodies of answers *)

Record functionVersionSummary := mkFunctionVersionSummary {
  fs_ID : string;
  fs_Name : string;
  fs_Runtime : string;
  fs_State : FunctionState;
  fs_Entrypoint : string;
  fs_MemoryMB : Z;
  fs_TimeoutSec : Z;
  fs_NetworkPolicy : string;
  fs_Regions : list string;
  fs_BuildJobID : string;
  fs_ArtifactDigest : string;
  fs_CreatedAt : Time;
}.

Record buildJobSummary := mkBuildJobSummary {
  bs_ID : string;
  bs_FunctionVersionID : string;
  bs_TargetRegion : string;
  bs_State : string;
  bs_Error : string;
  bs_LogsReady : bool;
  bs_CreatedAt : Time;
  bs_UpdatedAt : Time;
}.

Record executionResultSummary := mkExecutionResultSummary {
  ers_ExitCode : Z;
  ers_HostID : string;
  ers_Region : string;
  ers_StartedAt : Time;
  ers_FinishedAt : Time;
  ers_LatencyMs : Z;
  ers_LogsReady : bool;
  ers_OutputReady : bool;
}.

Record executionJobSummary := mkExecutionJobSummary {
  js_ID : string;
  js_FunctionVersionID : string;
  js_TargetRegion : string;
  js_State : JobState;
  js_MaxRetries : Z;
  js_AttemptCount : Z;
  js_LastAttemptID : string;
  js_Error : string;
  js_Result : option executionResultSummary;
  js_CreatedAt : Time;
  js_UpdatedAt : Time;
}.

Record projectOverviewResponse := mkProjectOverviewResponse {
  po_Project : Project;
  po_Functions : Z;
  po_BuildsByState : gmap string Z;
  po_JobsByState : gmap string Z;
  po_RecentFunctions : list functionVersionSummary;
  po_RecentBuildJobs : list buildJobSummary;
  po_RecentJobs : list executionJobSummary;
}.

Record deploymentSummary := mkDeploymentSummary {
  ds_ID : string;
  ds_ProjectID : string;
  ds_ProjectName : string;
  ds_FunctionVersionID : string;
  ds_Name : string;
  ds_Runtime : string;
  ds_SourceType : string;
  ds_Environment : string;
  ds_Branch : string;
  ds_CommitSHA : string;
  ds_GitURL : string;
  ds_Status : string;
  ds_FunctionState : FunctionState;
  ds_Regions : list string;
  ds_Build : option buildJobSummary;
  ds_LastJob : option executionJobSummary;
  ds_CreatedAt : Time;
  ds_UpdatedAt : Time;
}.

Record httpTriggerResponse := mkHttpTriggerResponse { htr_Trigger : HTTPTrigger; htr_URL : string }.

Record functionSiteResponse := mkFunctionSiteResponse {
  fsr_FunctionVersionID : string;
  fsr_Framework : string;
  fsr_DynamicEntrypoint : string;
  fsr_StaticPrefix : string;
  fsr_PreviewURL : string;
  fsr_FunctionURL : string;
  fsr_CreatedAt : Time;
}.

Record functionWarmRegionStatus := mkFunctionWarmRegionStatus {
  wrs_Region : string;
  wrs_State : string;
  wrs_AvailableHosts : Z;
  wrs_AvailableFullNetworkSlots : Z;
  wrs_BlankWarm : Z;
  wrs_FunctionWarm : Z;
  wrs_Ready : bool;
  wrs_UpdatedAt : Time;
}.

Record functionWarmStatusResponse := mkFunctionWarmStatusResponse {
  wsr_FunctionVersionID : string;
  wsr_Ready : bool;
  wsr_Regions : list functionWarmRegionStatus;
}.

(** The values the handlers encode. *)
Inductive Payload :=
| PProject (p : Project)
| PProjects (l : list Project)
| PVersion (v : FunctionVersion)
| PDeployment (d : deploymentSummary)
| PDeployments (l : list deploymentSummary)
| POverview (o : projectOverviewResponse)
| PFunctions (l : list functionVersionSummary)
| PBuildJobs (l : list buildJobSummary)
| PJobs (l : list executionJobSummary)
| PBuildJob (j : BuildJob)
| PJob (j : ExecutionJob)
| PAttempts (l : list Attempt)
| PCosts (l : list CostRecord)
| PSite (r : functionSiteResponse)
| PRegions (l : list Region)
| PHosts (l : list Host)
| PWarmPools (l : list WarmPool)
| PWarmStatus (r : functionWarmStatusResponse)
| PWebhook (t : WebhookTrigger)
| PWebhooks (l : list WebhookTrigger)
| PHTTPTrigger (t : httpTriggerResponse)
| PHTTPTriggers (l : list httpTriggerResponse)
| PMap (m : gmap string Json).

Class PayloadEnv := json_EncodePayload : Payload → result string.

(** What a handler under [/v1] answers. *)
Inductive Reply :=
| ReplyError (status : Z) (msg : string)
| ReplyJSON (status : Z) (value : Payload)
| ReplyRaw (status : Z) (contentType data : string).

(** ** Texts and limits *)

Definition defaultProjectListLimit : Z := 50.
Definition defaultOverviewItemLimit : Z := 8.
Definition maxListLimit : Z := 200.
Definition websiteContextCookieName : string := "lecrev_website_version".
Definition websiteContextCookieTTL : Duration := (6 * 3600 * Second)%Z.

(** [strings.ToLower] as far as ASCII letters appear in its result: besides the
    ASCII capitals, U+0130 becomes [i] and U+212A becomes [k]. *)
Fixpoint lowerOrbit (s : string) : string :=
  match s with
  | String a ((String b r) as s') =>
      if byte_eqb a 196 && byte_eqb b 176 then String "i"%char (lowerOrbit r)
      else match r with
           | String c r' =>
               if byte_eqb a 226 && byte_eqb b 132 && byte_eqb c 170
               then String "k"%char (lowerOrbit r') else String a (lowerOrbit s')
           | EmptyString => String a (lowerOrbit s')
           end
  | _ => s
  end.
Definition ToLower (s : string) : string := ToLowerASCII (lowerOrbit s).

Definition isSlugByte (a : ascii) : bool := byteIn 97 122 a || isDigit a.
Definition dash : ascii := ascii_of_N 45.

(** The loop of [normalizeProjectID]: [started] once something was written,
    [lastDash] when that was a dash.  A rune that is no letter or digit, of
    however many bytes, leaves at most one dash. *)
Fixpoint slug (started lastDash : bool) (s : string) : string :=
  match s with
  | EmptyString => EmptyString
  | String a s' =>
      if isSlugByte a then String a (slug true false s')
      else if negb started || lastDash then slug started lastDash s'
      else String dash (slug true true s')
  end.

Fixpoint trimDashesLeft (s : string) : string :=
  match s with
  | String a s' => if Ascii.eqb a dash then trimDashesLeft s' else s
  | EmptyString => s
  end.

Fixpoint trimDashesRight (s : string) : string :=
  match s with
  | EmptyString => EmptyString
  | String a s' =>
      match trimDashesRight s' with
      | EmptyString => if Ascii.eqb a dash then EmptyString else String a EmptyString
      | t => String a t
      end
  end.

Definition normalizeProjectID (rawID name : string) : string :=
  let source := TrimSpace rawID in
  let source := if bool_decide (source = "") then name else source in
  trimDashesRight (trimDashesLeft (slug false false (ToLower source))).

Definition idempotencyKeyOf (headerValue bodyValue : string) : string :=
  if blank headerValue then TrimSpace bodyValue else TrimSpace headerValue.

Definition normalizeHTTPTriggerAuthMode (raw : string) : result HTTPTriggerAuthMode :=
  let mode := ToLower (TrimSpace raw) in
  if bool_decide (mode = "") then Ok HTTPTriggerAuthModeNone
  else if bool_decide (mode = "none") then Ok HTTPTriggerAuthModeNone
  else if bool_decide (mode = "api_key") then Ok HTTPTriggerAuthModeAPIKey
  else Err (plainErr ("unsupported http trigger authMode " +:+ quote raw)).

(** [strconv.Atoi]: a number outside 64 bits is an error. *)
Definition digitVal (a : ascii) : Z := Z.of_N (N_of_ascii a) - 48.
Fixpoint digits (acc : Z) (s : string) : option Z :=
  match s with
  | EmptyString => Some acc
  | String a s' => if isDigit a then digits (acc * 10 + digitVal a)%Z s' else None
  end.
Definition Atoi (s : string) : option Z :=
  let body := match s with
              | String a s' => if byte_eqb a 43 || byte_eqb a 45 then s' else s
              | EmptyString => s
              end in
  let neg := match s with String a _ => byte_eqb a 45 | EmptyString => false end in
  if bool_decide (body = "") then None else
  n ← digits 0 body;
  let n := if neg then (- n)%Z else n in
  if (- 2 ^ 63 <=? n)%Z && (n <? 2 ^ 63)%Z then Some n else None.

Definition queryLimit (r : HTTPRequest) (fallback : Z) : result Z :=
  let raw := TrimSpace (queryGet r "limit") in
  if bool_decide (raw = "") then Ok fallback else
  match Atoi raw with
  | None => Err (plainErr ("invalid limit " +:+ quote raw))
  | Some limit =>
      if (limit <? 1)%Z || (maxListLimit <? limit)%Z
      then Err (plainErr ("limit must be between 1 and " +:+ itoa maxListLimit))
      else Ok limit
  end.

(** [limitFunctionVersions], [limitBuildJobs], [limitExecutionJobs] and the
    slicing of the lists of projects and deployments. *)
Definition limitItems {A} (items : list A) (limit : Z) : list A :=
  if (Z.of_nat (length items) <=? limit)%Z then items else take (Z.to_nat limit) items.

(** ** Summaries *)

Definition summarizeFunctionVersion (v : FunctionVersion) : functionVersionSummary :=
  mkFunctionVersionSummary (fv_ID v) (fv_Name v) (fv_Runtime v) (fv_State v) (fv_Entrypoint v)
    (fv_MemoryMB v) (fv_TimeoutSec v) (fv_NetworkPolicy v) (fv_Regions v) (fv_BuildJobID v)
    (fv_ArtifactDigest v) (fv_CreatedAt v).

Definition summarizeBuildJob (j : BuildJob) : buildJobSummary :=
  mkBuildJobSummary (bj_ID j) (bj_FunctionVersionID j) (bj_TargetRegion j) (bj_State j) (bj_Error j)
    (negb (blank (bj_LogsKey j))) (bj_CreatedAt j) (bj_UpdatedAt j).

Definition summarizeResult (res : JobResult) : executionResultSummary :=
  mkExecutionResultSummary (jr_ExitCode res) (jr_HostID res) (jr_Region res) (jr_StartedAt res)
    (jr_FinishedAt res) (computeLatencyMs (jr_StartedAt res) (jr_FinishedAt res))
    (negb (blank (jr_LogsKey res))) (negb (blank (jr_OutputKey res))).

Definition summarizeExecutionJob (j : ExecutionJob) : executionJobSummary :=
  mkExecutionJobSummary (job_ID j) (job_FunctionVersionID j) (job_TargetRegion j) (job_State j)
    (job_MaxRetries j) (job_AttemptCount j) (job_LastAttemptID j) (job_Error j)
    (summarizeResult <$> job_Result j) (job_CreatedAt j) (job_UpdatedAt j).

Definition countBy {A} (state : A → string) (items : list A) : gmap string Z :=
  foldl (λ counts item, <[state item := (default 0 (counts !! state item) + 1)%Z]> counts) ∅ items.
Definition countBuildJobsByState : list BuildJob → gmap string Z := countBy bj_State.
Definition countExecutionJobsByState : list ExecutionJob → gmap string Z :=
  countBy (λ j, jobStateText (job_State j)).

Definition deploymentStatus (version : FunctionVersion) (build : option buildJobSummary)
    (job : option executionJobSummary) : string :=
  let buildFailed := match build with
    | Some b => bool_decide (bs_State b = "failed") || negb (blank (bs_Error b)) | None => false end in
  let jobFailed := match job with
    | Some j => bool_decide (js_State j = JobStateFailed) || negb (blank (js_Error j)) | None => false end in
  let jobSucceeded := match job with
    | Some j => bool_decide (js_State j = JobStateSucceeded) | None => false end in
  if bool_decide (fv_State version = FunctionStateFailed) then "failed"
  else if buildFailed then "failed"
  else if jobFailed then "failed"
  else if jobSucceeded then "active"
  else if bool_decide (fv_State version = FunctionStateReady) then "ready"
  else "building".

(** The first of the jobs of each version. *)
Definition firstByVersion {A} (versionOf : A → string) (jobs : list A) : gmap string A :=
  foldl (λ m job, match m !! versionOf job with Some _ => m | None => <[versionOf job := job]> m end) ∅ jobs.

Section Summaries.
Context `{!BuildEnv, !HttpEnv}.

Definition decodeDeploymentRequest (raw : string) : option DeployRequest :=
  if bool_decide (raw = "") then None
  else match json_UnmarshalDeploy raw with Ok request => Some request | Err _ => None end.

Definition orElse (s t : string) : string := if bool_decide (s = "") then t else s.

(** Environment, branch, commit and repository of a build. *)
Definition buildOrigin (job : BuildJob) : string * string * string * string :=
  let meta k := TrimSpace (map_getS (bj_Metadata job) k) in
  match decodeDeploymentRequest (bj_Request job) with
  | Some request =>
      (orElse (meta "environment") (deploymentEnvironment (dr_Source request)),
       orElse (meta "branch") (TrimSpace (src_GitRef (dr_Source request))),
       meta "commitSha",
       orElse (meta "gitUrl") (TrimSpace (src_GitURL (dr_Source request))))
  | None => (meta "environment", meta "branch", meta "commitSha", meta "gitUrl")
  end.

Definition summarizeDeployment (project : Project) (builds : gmap string BuildJob)
    (jobs : gmap string ExecutionJob) (version : FunctionVersion) : deploymentSummary :=
  let build := builds !! fv_ID version in
  let job := jobs !! fv_ID version in
  let '(environment, branch, commitSHA, gitURL) :=
    match build with Some b => buildOrigin b | None => ("", "", "", "") end in
  let updatedAt := match build with Some b => Z.max (fv_CreatedAt version) (bj_UpdatedAt b)
                                  | None => fv_CreatedAt version end in
  let updatedAt := match job with Some j => Z.max updatedAt (job_UpdatedAt j) | None => updatedAt end in
  let buildSummary := summarizeBuildJob <$> build in
  let jobSummary := summarizeExecutionJob <$> job in
  mkDeploymentSummary (fv_ID version) (prj_ID project) (prj_Name project) (fv_ID version) (fv_Name version)
    (fv_Runtime version) (fv_SourceType version) environment branch commitSHA gitURL
    (deploymentStatus version buildSummary jobSummary) (fv_State version) (fv_Regions version)
    buildSummary jobSummary (fv_CreatedAt version) updatedAt.

Definition summarizeDeployments (project : Project) (versions : list FunctionVersion)
    (buildJobs : list BuildJob) (jobs : list ExecutionJob) : list deploymentSummary :=
  summarizeDeployment project (firstByVersion bj_FunctionVersionID buildJobs)
    (firstByVersion job_FunctionVersionID jobs) <$> versions.

Definition filterDeploymentSummaries (items : list deploymentSummary)
    (statusFilter environmentFilter : string) : list deploymentSummary :=
  filter (λ item,
    (bool_decide (statusFilter = "") || bool_decide (strings_ToLower (ds_Status item) = statusFilter)) &&
    (bool_decide (environmentFilter = "") ||
     bool_decide (strings_ToLower (TrimSpace (ds_Environment item)) = environmentFilter)) = true) items.

Definition sortDeployments : list deploymentSummary → list deploymentSummary :=
  SliceStable (newest_first ds_CreatedAt ds_ID).

Definition httpTriggerToResponse (trigger : HTTPTrigger) (url : string) : httpTriggerResponse :=
  mkHttpTriggerResponse trigger url.

Definition publicFunctionURL (r : HTTPRequest) (token : string) : string :=
  let configured := TrimSpace os_PublicBaseURL in
  trimSlashes (if bool_decide (configured = "") then publicBaseURL r else configured) +:+ "/f/" +:+ token.

Definition publicWebsiteURL (r : HTTPRequest) (versionID : string) : string :=
  let configured := TrimSpace os_PublicWebsiteBaseURL in
  trimSlashes (if bool_decide (configured = "") then publicBaseURL r else configured) +:+ "/w/" +:+ versionID.

(** Only white space of JSON: [Decode] then ends with [io.EOF]. *)
Definition jsonSpace (a : ascii) : bool := existsb (byte_eqb a) [9; 10; 13; 32]%N.

Definition decodeOptionalJSON {A} (decode : string → option GoError → result A) (zero : A)
    (r : HTTPRequest) : result A :=
  if allBytes jsonSpace (hr_Body r) && match hr_BodyErr r with None => true | _ => false end
  then Ok zero else decode (hr_Body r) (hr_BodyErr r).

End Summaries.

Definition latestExecutionJobForVersion (versionID : string) (jobs : list ExecutionJob) : option ExecutionJob :=
  head (filter (λ j, job_FunctionVersionID j = versionID) jobs).

(** ** The server *)

Record authContext := mkAuthContext { auth_TenantID : string; auth_IsAdmin : bool }.

(** The collaborators of [Server]; [srv_admins] are the [DrainHost] operations by
    region. *)
Record Server := mkServer {
  srv_scheduler : SchedulerConfig;
  srv_builder : BuildConfig;
  srv_admins : gmap string (string → string → WM unit);
}.

(** The errors of authentication; both are sentinels of the package. *)
Inductive AuthError := errMissingAPIKey | errInvalidAPIKey | authStoreError (e : GoError).

Definition apiKeyFromRequest (r : HTTPRequest) : string :=
  let rawKey := TrimSpace (requestHeader r "X-API-Key") in
  if negb (bool_decide (rawKey = "")) then rawKey else
  let authz := TrimSpace (requestHeader r "Authorization") in
  if (7 <=? String.length authz)%nat && EqualFold (String.substring 0 7 authz) "Bearer "
  then TrimSpace (String.substring 7 (String.length authz - 7) authz) else "".

Section HttpApi.
Context `{!GoEnv, !BuildEnv, !HttpEnv, !PayloadEnv} (srv : Server).

(** [apikey.Hash] *)
Definition apikeyHash (raw : string) : string := sha256_hex raw.

Definition authenticateAPIKey (rawKey : string) : WM (authContext + AuthError) :=
  let rawKey := TrimSpace rawKey in
  if bool_decide (rawKey = "") then mret (inr errMissingAPIKey) else
  let keyHash := apikeyHash rawKey in
  record ← try (call (GetAPIKeyByHash keyHash));
  match record with
  | Err e => mret (inr (if errors_Is e ErrNotFound then errInvalidAPIKey else authStoreError e))
  | Ok record =>
      if key_Disabled record || negb (bool_decide (key_KeyHash record = keyHash))
      then mret (inr errInvalidAPIKey)
      else
        t ← now;
        ignore (call (TouchAPIKeyLastUsed keyHash t)) ≫= λ _,
        mret (inl (mkAuthContext (key_TenantID record) (key_IsAdmin record)))
  end.

(** [objects.Get] on the primary object store. *)
Definition getObject (key : string) : WM string := λ w,
  let w1 := w <| w_calls := S (w_calls w) |> in
  match env_fault (w_calls w) with
  | Some e => (Err e, w1)
  | None => ((objectGet key (default ∅ (w_objects w !! ""))).1, w1)
  end.

(** [if err != nil { writeServiceError(w, err); return }] *)
Definition serviceError (e : GoError) : Reply := ReplyError (errorStatus e) (Error e).
Definition orReply {A} (m : WM A) (k : A → WM Reply) : WM Reply :=
  r ← try m;
  match r with Err e => mret (serviceError e) | Ok a => k a end.

(** [if err != nil { http.Error(w, ..., http.StatusBadRequest); return }] *)
Definition orBadRequest {A} (pre : string) (m : result A) (k : A → WM Reply) : WM Reply :=
  match m with Err e => mret (ReplyError 400 (pre +:+ Error e)) | Ok a => k a end.

(** ** Authorization *)

Definition authorizedProject (auth : authContext) (projectID : string) : WM Project :=
  project ← call (GetProject projectID);
  if negb (auth_IsAdmin auth) && negb (bool_decide (prj_TenantID project = auth_TenantID auth))
  then fail (sentinel ErrAccessDenied) else mret project.

Definition authorizeProject (auth : authContext) (projectID : string) : WM unit :=
  authorizedProject auth projectID ≫= λ _, mret tt.

Definition requireAdmin (auth : authContext) : WM unit :=
  if auth_IsAdmin auth then mret tt else fail (sentinel ErrAccessDenied).

Definition ensureProject (projectID tenantID name : string) : WM Project :=
  t ← now; call (EnsureProject t projectID tenantID name).

Definition ensureAuthorizedProject (auth : authContext) (projectID defaultName : string) : WM Project :=
  project ← try (call (GetProject projectID));
  match project with
  | Ok project =>
      if negb (auth_IsAdmin auth) && negb (bool_decide (prj_TenantID project = auth_TenantID auth))
      then fail (sentinel ErrAccessDenied) else mret project
  | Err e =>
      if errors_Is e ErrNotFound then ensureProject projectID (auth_TenantID auth) defaultName
      else fail e
  end.

Definition authorizedJob (auth : authContext) (jobID : string) : WM ExecutionJob :=
  job ← call (GetExecutionJob jobID);
  authorizeProject auth (job_ProjectID job) ≫= λ _, mret job.

Definition authorizedBuildJob (auth : authContext) (jobID : string) : WM (BuildJob * FunctionVersion) :=
  job ← call (GetBuildJob jobID);
  version ← call (GetFunctionVersion (bj_FunctionVersionID job));
  authorizeProject auth (fv_ProjectID version) ≫= λ _, mret (job, version).

(** The version of a path, when its project is the caller's. *)
Definition authorizedVersion (auth : authContext) (versionID : string) : WM FunctionVersion :=
  version ← call (GetFunctionVersion versionID);
  authorizeProject auth (fv_ProjectID version) ≫= λ _, mret version.

Definition loadAuthorizedDeployment (auth : authContext) (deploymentID : string) :
    WM (deploymentSummary * option BuildJob * option ExecutionJob) :=
  version ← call (GetFunctionVersion deploymentID);
  project ← authorizedProject auth (fv_ProjectID version);
  buildJob ← (if blank (fv_BuildJobID version) then mret None
              else
                job ← try (call (GetBuildJob (fv_BuildJobID version)));
                match job with
                | Ok job => mret (Some job)
                | Err e => if errors_Is e ErrNotFound then mret None else fail e
                end);
  jobs ← call (ListExecutionJobsByProject (fv_ProjectID version));
  let latestJob := latestExecutionJobForVersion (fv_ID version) jobs in
  match summarizeDeployments project [version] (option_list buildJob) (option_list latestJob) with
  | [] => fail (sentinel ErrNotFound)
  | summary :: _ => mret (summary, buildJob, latestJob)
  end.

(** ** Stored logs and output *)

Definition storedData (key inline : string) : WM string :=
  let key := TrimSpace key in
  if bool_decide (key = "") then mret inline else
  data ← try (getObject key);
  match data with
  | Ok data => mret data
  | Err e => if errors_Is e ArtifactErrNotFound then mret inline else fail e
  end.

Definition executionLogsData (job : ExecutionJob) : WM string :=
  match job_Result job with
  | None => fail (sentinel ErrExecutionResultNotReady)
  | Some res => storedData (jr_LogsKey res) (jr_Logs res)
  end.

Definition executionOutputData (job : ExecutionJob) : WM string :=
  match job_Result job with
  | None => fail (sentinel ErrExecutionResultNotReady)
  | Some res => storedData (jr_OutputKey res) (if bool_decide (jr_Output res = "") then "null" else jr_Output res)
  end.

Definition textPlain : string := "text/plain; charset=utf-8".

(** ** Handlers under [/v1] *)

Definition createProject (auth : authContext) (r : HTTPRequest) : WM Reply :=
  orBadRequest "decode request: " (json_DecodeProject (hr_Body r) (hr_BodyErr r)) (λ body,
  let name := TrimSpace (cp_Name body) in
  if bool_decide (name = "") then mret (ReplyError 400 "name is required") else
  let projectID := normalizeProjectID (TrimSpace (cp_ID body)) name in
  if bool_decide (projectID = "") then mret (ReplyError 400 "project id is required") else
  orReply (ensureProject projectID (auth_TenantID auth) name) (λ project,
  mret (ReplyJSON 201 (PProject project)))).

Definition createFunction (auth : authContext) (r : HTTPRequest) (projectID : string) : WM Reply :=
  if bool_decide (projectID = "") then mret (ReplyError 400 "missing projectID") else
  orReply (ensureAuthorizedProject auth projectID projectID) (λ _,
  orBadRequest "decode request: " (json_DecodeFunction (hr_Body r) (hr_BodyErr r)) (λ body,
  orBadRequest "decode source: " (json_DecodeSource (cf_Source body)) (λ source,
  let environment := strings_ToLower (TrimSpace (cf_Environment body)) in
  let source := if bool_decide (environment = "") then source
                else source <| src_Metadata := <["environment" := environment]> (src_Metadata source) |> in
  orReply (CreateFunctionVersion (srv_builder srv)
    (mkDeployRequest projectID (cf_Name body) (cf_Runtime body) (cf_Entrypoint body) (cf_MemoryMB body)
       (cf_TimeoutSec body) (cf_NetworkPolicy body) (cf_Regions body) (cf_EnvVars body) (cf_EnvRefs body)
       (cf_MaxRetries body) (cf_IdempotencyKey body) source)) (λ version,
  mret (ReplyJSON 201 (PVersion version)))))).

(** The loop over the projects. *)
Fixpoint gatherDeployments (projects : list Project) : WM (list deploymentSummary) :=
  match projects with
  | [] => mret []
  | project :: rest =>
      versions ← call (ListFunctionVersionsByProject (prj_ID project));
      buildJobs ← call (ListBuildJobsByProject (prj_ID project));
      jobs ← call (ListExecutionJobsByProject (prj_ID project));
      others ← gatherDeployments rest;
      mret (summarizeDeployments project versions buildJobs jobs ++ others)
  end.

Definition listDeploymentsForProjects (r : HTTPRequest) (projects : list Project) : WM Reply :=
  orBadRequest "" (queryLimit r defaultProjectListLimit) (λ limit,
  let statusFilter := strings_ToLower (TrimSpace (queryGet r "status")) in
  let environmentFilter := strings_ToLower (TrimSpace (queryGet r "environment")) in
  orReply (gatherDeployments projects) (λ deployments,
  let deployments := sortDeployments (filterDeploymentSummaries deployments statusFilter environmentFilter) in
  mret (ReplyJSON 200 (PDeployments (limitItems deployments limit))))).

Definition listDeployments (auth : authContext) (r : HTTPRequest) : WM Reply :=
  orReply (call (ListProjectsByTenant (auth_TenantID auth))) (listDeploymentsForProjects r).

Definition listProjects (auth : authContext) (r : HTTPRequest) : WM Reply :=
  orBadRequest "" (queryLimit r defaultProjectListLimit) (λ limit,
  orReply (call (ListProjectsByTenant (auth_TenantID auth))) (λ projects,
  mret (ReplyJSON 200 (PProjects (limitItems projects limit))))).

Definition listProjectDeployments (auth : authContext) (r : HTTPRequest) (projectID : string) : WM Reply :=
  orReply (authorizedProject auth projectID) (λ project, listDeploymentsForProjects r [project]).

Definition getDeployment (auth : authContext) (id : string) : WM Reply :=
  orReply (loadAuthorizedDeployment auth id) (λ d, mret (ReplyJSON 200 (PDeployment d.1.1))).

Definition getDeploymentLogs (auth : authContext) (id : string) : WM Reply :=
  orReply (loadAuthorizedDeployment auth id) (λ '(_, buildJob, latestJob),
  let finishedJob := j ← latestJob; if bool_decide (is_Some (job_Result j)) then Some j else None in
  let loggedBuild := b ← buildJob; if blank (bj_LogsKey b) then None else Some b in
  match finishedJob, loggedBuild, latestJob with
  | Some j, _, _ => orReply (executionLogsData j) (λ data, mret (ReplyRaw 200 textPlain data))
  | None, Some b, _ => orReply (getObject (bj_LogsKey b)) (λ data, mret (ReplyRaw 200 textPlain data))
  | None, None, Some _ => mret (serviceError (sentinel ErrExecutionResultNotReady))
  | None, None, None => mret (serviceError (sentinel ErrBuildLogsNotReady))
  end).

Definition getDeploymentOutput (auth : authContext) (id : string) : WM Reply :=
  orReply (loadAuthorizedDeployment auth id) (λ '(_, _, latestJob),
  match latestJob with
  | None => mret (serviceError (sentinel ErrExecutionResultNotReady))
  | Some j => orReply (executionOutputData j) (λ data, mret (ReplyRaw 200 "application/json" data))
  end).

Definition getProject (auth : authContext) (projectID : string) : WM Reply :=
  orReply (authorizedProject auth projectID) (λ project, mret (ReplyJSON 200 (PProject project))).

Definition getProjectOverview (auth : authContext) (r : HTTPRequest) (projectID : string) : WM Reply :=
  orReply (authorizedProject auth projectID) (λ project,
  orBadRequest "" (queryLimit r defaultOverviewItemLimit) (λ limit,
  orReply (call (ListFunctionVersionsByProject (prj_ID project))) (λ versions,
  orReply (call (ListBuildJobsByProject (prj_ID project))) (λ buildJobs,
  orReply (call (ListExecutionJobsByProject (prj_ID project))) (λ jobs,
  mret (ReplyJSON 200 (POverview (mkProjectOverviewResponse project (Z.of_nat (length versions))
    (countBuildJobsByState buildJobs) (countExecutionJobsByState jobs)
    (summarizeFunctionVersion <$> limitItems versions limit)
    (summarizeBuildJob <$> limitItems buildJobs limit)
    (summarizeExecutionJob <$> limitItems jobs limit))))))))).

Definition listProjectFunctions (auth : authContext) (r : HTTPRequest) (projectID : string) : WM Reply :=
  orReply (authorizedProject auth projectID) (λ project,
  orBadRequest "" (queryLimit r defaultProjectListLimit) (λ limit,
  orReply (call (ListFunctionVersionsByProject (prj_ID project))) (λ versions,
  mret (ReplyJSON 200 (PFunctions (summarizeFunctionVersion <$> limitItems versions limit)))))).

Definition listProjectBuildJobs (auth : authContext) (r : HTTPRequest) (projectID : string) : WM Reply :=
  orReply (authorizedProject auth projectID) (λ project,
  orBadRequest "" (queryLimit r defaultProjectListLimit) (λ limit,
  orReply (call (ListBuildJobsByProject (prj_ID project))) (λ buildJobs,
  mret (ReplyJSON 200 (PBuildJobs (summarizeBuildJob <$> limitItems buildJobs limit)))))).

Definition listProjectJobs (auth : authContext) (r : HTTPRequest) (projectID : string) : WM Reply :=
  orReply (authorizedProject auth projectID) (λ project,
  orBadRequest "" (queryLimit r defaultProjectListLimit) (λ limit,
  orReply (call (ListExecutionJobsByProject (prj_ID project))) (λ jobs,
  mret (ReplyJSON 200 (PJobs (summarizeExecutionJob <$> limitItems jobs limit)))))).

Definition invokeFunction (auth : authContext) (r : HTTPRequest) (versionID : string) : WM Reply :=
  if bool_decide (versionID = "") then mret (ReplyError 400 "missing versionID") else
  orReply (call (GetFunctionVersion versionID)) (λ version,
  if negb (bool_decide (fv_State version = FunctionStateReady))
  then mret (serviceError (sentinel ErrFunctionVersionNotReady)) else
  orReply (authorizeProject auth (fv_ProjectID version)) (λ _,
  orBadRequest "decode request: " (json_DecodeInvoke (hr_Body r) (hr_BodyErr r)) (λ body,
  orReply (DispatchExecutionIdempotent (srv_scheduler srv) versionID (iv_Payload body)
    (idempotencyKeyOf (requestHeader r "Idempotency-Key") (iv_IdempotencyKey body))) (λ job,
  mret (ReplyJSON 202 (PJob (withJobLatency job))))))).

Definition prepareFunction (auth : authContext) (versionID : string) : WM Reply :=
  orReply (requireAdmin auth) (λ _,
  if bool_decide (versionID = "") then mret (ReplyError 400 "missing versionID") else
  orReply (call (GetFunctionVersion versionID)) (λ version,
  if negb (bool_decide (fv_State version = FunctionStateReady))
  then mret (serviceError (sentinel ErrFunctionVersionNotReady)) else
  orReply (PrepareFunctionVersion (srv_scheduler srv) version) (λ _,
  mret (ReplyJSON 202 (PMap (<["ok" := JBool true]> (<["functionVersionId" := JStr (fv_ID version)]>
    {["state" := JStr "queued"]}))))))).

Definition getBuildJob (auth : authContext) (jobID : string) : WM Reply :=
  orReply (authorizedBuildJob auth jobID) (λ jv, mret (ReplyJSON 200 (PBuildJob jv.1))).

Definition getBuildJobLogs (auth : authContext) (jobID : string) : WM Reply :=
  orReply (authorizedBuildJob auth jobID) (λ jv,
  if blank (bj_LogsKey jv.1) then mret (serviceError (sentinel ErrBuildLogsNotReady)) else
  orReply (getObject (bj_LogsKey jv.1)) (λ data, mret (ReplyRaw 200 textPlain data))).

Definition getJob (auth : authContext) (jobID : string) : WM Reply :=
  orReply (authorizedJob auth jobID) (λ job, mret (ReplyJSON 200 (PJob (withJobLatency job)))).

Definition listJobAttempts (auth : authContext) (jobID : string) : WM Reply :=
  orReply (authorizedJob auth jobID) (λ _,
  orReply (call (ListAttemptsByJob jobID)) (λ attempts,
  mret (ReplyJSON 200 (PAttempts (withAttemptLatency attempts))))).

Definition listJobCosts (auth : authContext) (jobID : string) : WM Reply :=
  orReply (authorizedJob auth jobID) (λ _,
  orReply (call (ListCostRecordsByJob jobID)) (λ records,
  mret (ReplyJSON 200 (PCosts records)))).

Definition getJobLogs (auth : authContext) (jobID : string) : WM Reply :=
  orReply (authorizedJob auth jobID) (λ job,
  orReply (executionLogsData job) (λ data, mret (ReplyRaw 200 textPlain data))).

Definition getJobOutput (auth : authContext) (jobID : string) : WM Reply :=
  orReply (authorizedJob auth jobID) (λ job,
  orReply (executionOutputData job) (λ data, mret (ReplyRaw 200 "application/json" data))).

Definition getFunction (auth : authContext) (versionID : string) : WM Reply :=
  orReply (authorizedVersion auth versionID) (λ version, mret (ReplyJSON 200 (PVersion version))).

Definition websiteManifest (version : FunctionVersion) : WM WebsiteManifest :=
  data ← getObject (SiteManifestKey (fv_ArtifactDigest version));
  match json_DecodeManifest data with
  | Ok manifest => mret manifest
  | Err e => fail (wrapText "decode site manifest: " e "")
  end.

Definition getFunctionSite (auth : authContext) (r : HTTPRequest) (versionID : string) : WM Reply :=
  orReply (authorizedVersion auth versionID) (λ version,
  orReply (websiteManifest version) (λ manifest,
  triggers ← try (call (ListHTTPTriggersByFunctionVersion (fv_ID version)));
  let functionURL := match triggers with
    | Ok triggers =>
        match filter (λ t, ht_Enabled t = true) triggers with
        | t :: _ => publicFunctionURL r (ht_Token t)
        | [] => ""
        end
    | Err _ => ""
    end in
  mret (ReplyJSON 200 (PSite (mkFunctionSiteResponse (fv_ID version) (wm_Framework manifest)
    (wm_DynamicEntrypoint manifest) (wm_StaticPrefix manifest) (publicWebsiteURL r (fv_ID version))
    functionURL (wm_CreatedAt manifest)))))).

Definition listRegions : WM Reply :=
  orReply (call ListRegions) (λ regions, mret (ReplyJSON 200 (PRegions regions))).

Definition listRegionHosts (auth : authContext) (region : string) : WM Reply :=
  orReply (requireAdmin auth) (λ _,
  orReply (call (ListHostsByRegion region)) (λ hosts, mret (ReplyJSON 200 (PHosts hosts)))).

Definition listWarmPools (auth : authContext) (region : string) : WM Reply :=
  orReply (requireAdmin auth) (λ _,
  orReply (call (ListWarmPoolsByRegion region)) (λ pools, mret (ReplyJSON 200 (PWarmPools pools)))).

(** ** Warm status *)

(** One pool of a region, with the sums so far. *)
Definition addPool (versionID : string) (st : functionWarmRegionStatus) (pool : WarmPool) :
    functionWarmRegionStatus :=
  let blankWarm := (wrs_BlankWarm st + wp_BlankWarm pool)%Z in
  let mine := bool_decide (wp_FunctionVersionID pool = versionID) in
  mkFunctionWarmRegionStatus (wrs_Region st) (wrs_State st) (wrs_AvailableHosts st)
    (wrs_AvailableFullNetworkSlots st) blankWarm
    (if mine then wrs_FunctionWarm st + wp_FunctionWarm pool else wrs_FunctionWarm st)%Z (wrs_Ready st)
    (if mine then Z.max (wrs_UpdatedAt st) (wp_UpdatedAt pool) else wrs_UpdatedAt st).

Definition regionWarmStatus (index : gmap string Region) (versionID regionName : string)
    (pools : list WarmPool) : functionWarmRegionStatus :=
  let start := match index !! regionName with
    | Some region => mkFunctionWarmRegionStatus regionName (reg_State region) (reg_AvailableHosts region)
                       (reg_AvailableFullNetworkSlots region) 0 0 false 0
    | None => mkFunctionWarmRegionStatus regionName "degraded" 0 0 0 0 false 0
    end in
  let st := foldl (addPool versionID) start pools in
  mkFunctionWarmRegionStatus (wrs_Region st) (wrs_State st) (wrs_AvailableHosts st)
    (wrs_AvailableFullNetworkSlots st) (wrs_BlankWarm st) (wrs_FunctionWarm st)
    (bool_decide (wrs_State st = "active") && (0 <? wrs_FunctionWarm st)%Z) (wrs_UpdatedAt st).

Fixpoint gatherWarmStatus (index : gmap string Region) (versionID : string) (regions : list string) :
    WM (list functionWarmRegionStatus) :=
  match regions with
  | [] => mret []
  | region :: rest =>
      pools ← call (ListWarmPoolsByRegion region);
      others ← gatherWarmStatus index versionID rest;
      mret (regionWarmStatus index versionID region pools :: others)
  end.

Definition getFunctionWarmStatus (auth : authContext) (versionID : string) : WM Reply :=
  orReply (authorizedVersion auth versionID) (λ version,
  orReply (call ListRegions) (λ regions,
  let index := foldl (λ m region, <[reg_Name region := region]> m) ∅ regions in
  orReply (gatherWarmStatus index (fv_ID version) (fv_Regions version)) (λ statuses,
  mret (ReplyJSON 200 (PWarmStatus
    (mkFunctionWarmStatusResponse (fv_ID version) (existsb wrs_Ready statuses) statuses)))))).

(** ** Administration and triggers *)

Definition drainHost (auth : authContext) (r : HTTPRequest) (region hostID : string) : WM Reply :=
  orReply (requireAdmin auth) (λ _,
  match srv_admins srv !! region with
  | None => mret (ReplyError 404 ("no coordinator admin available for region " +:+ region))
  | Some DrainHost =>
      orBadRequest "decode request: " (decodeOptionalJSON json_DecodeDrain (mkDrainHostRequest "") r) (λ body,
      orReply (DrainHost hostID (TrimSpace (dh_Reason body))) (λ _,
      mret (ReplyJSON 202 (PMap (<["region" := JStr region]> (<["hostId" := JStr hostID]>
        (<["state" := JStr "draining"]> {["reason" := JStr (TrimSpace (dh_Reason body))]})))))))
  end).

(** [generateTriggerToken] and [generateWebhookToken]. *)
Definition generateTriggerToken : WM (result string) := draw rand_TriggerToken.

Definition createWebhookTrigger (auth : authContext) (r : HTTPRequest) (versionID : string) : WM Reply :=
  orReply (authorizedVersion auth versionID) (λ version,
  orBadRequest "decode request: "
    (decodeOptionalJSON json_DecodeWebhook (mkCreateWebhookTriggerRequest "" "") r) (λ body,
  let token := TrimSpace (cw_Token body) in
  token ← (if bool_decide (token = "") then generateTriggerToken else mret (Ok token));
  match token with
  | Err e => mret (ReplyError 500 (Error e))
  | Ok token =>
      t ← now;
      let trigger := mkWebhookTrigger token (fv_ProjectID version) (fv_ID version)
                       (TrimSpace (cw_Description body)) true t in
      orReply (call (PutWebhookTrigger trigger)) (λ _, mret (ReplyJSON 201 (PWebhook trigger)))
  end)).

Definition createHTTPTrigger (auth : authContext) (r : HTTPRequest) (versionID : string) : WM Reply :=
  orReply (authorizedVersion auth versionID) (λ version,
  if negb (bool_decide (fv_State version = FunctionStateReady))
  then mret (serviceError (sentinel ErrFunctionVersionNotReady)) else
  orBadRequest "decode request: "
    (decodeOptionalJSON json_DecodeHTTPTrigger (mkCreateHTTPTriggerRequest "" "" "") r) (λ body,
  let token := TrimSpace (ch_Token body) in
  token ← (if bool_decide (token = "") then generateTriggerToken else mret (Ok token));
  match token with
  | Err e => mret (ReplyError 500 (Error e))
  | Ok token =>
      orBadRequest "" (normalizeHTTPTriggerAuthMode (ch_AuthMode body)) (λ authMode,
      t ← now;
      let trigger := mkHTTPTrigger token (fv_ProjectID version) (fv_ID version)
                       (TrimSpace (ch_Description body)) authMode true t in
      orReply (call (PutHTTPTrigger trigger)) (λ _,
      mret (ReplyJSON 201 (PHTTPTrigger (httpTriggerToResponse trigger (publicFunctionURL r token))))))
  end)).

Definition listHTTPTriggers (auth : authContext) (r : HTTPRequest) (versionID : string) : WM Reply :=
  orReply (authorizedVersion auth versionID) (λ _,
  orReply (call (ListHTTPTriggersByFunctionVersion versionID)) (λ triggers,
  mret (ReplyJSON 200 (PHTTPTriggers
    ((λ t, httpTriggerToResponse t (publicFunctionURL r (ht_Token t))) <$> triggers))))).

Definition listWebhookTriggers (auth : authContext) (versionID : string) : WM Reply :=
  orReply (authorizedVersion auth versionID) (λ _,
  orReply (call (ListWebhookTriggersByFunctionVersion versionID)) (λ triggers,
  mret (ReplyJSON 200 (PWebhooks triggers)))).

(** ** Routes under [/v1] *)

Inductive Endpoint :=
| EpCreateProject
| EpListDeployments
| EpGetDeployment (id : string)
| EpGetDeploymentLogs (id : string)
| EpGetDeploymentOutput (id : string)
| EpListProjects
| EpGetProject (projectID : string)
| EpGetProjectOverview (projectID : string)
| EpListProjectDeployments (projectID : string)
| EpListProjectFunctions (projectID : string)
| EpListProjectBuildJobs (projectID : string)
| EpListProjectJobs (projectID : string)
| EpCreateFunction (projectID : string)
| EpGetBuildJob (jobID : string)
| EpGetBuildJobLogs (jobID : string)
| EpInvokeFunction (versionID : string)
| EpGetJob (jobID : string)
| EpGetJobLogs (jobID : string)
| EpGetJobOutput (jobID : string)
| EpGetFunction (versionID : string)
| EpGetFunctionSite (versionID : string)
| EpGetFunctionWarmStatus (versionID : string)
| EpPrepareFunction (versionID : string)
| EpCreateHTTPTrigger (versionID : string)
| EpListHTTPTriggers (versionID : string)
| EpCreateWebhookTrigger (versionID : string)
| EpListWebhookTriggers (versionID : string)
| EpListRegions
| EpListWarmPools (region : string)
| EpListRegionHosts (region : string)
| EpListJobAttempts (jobID : string)
| EpListJobCosts (jobID : string)
| EpDrainHost (region hostID : string).

Definition handle (ep : Endpoint) (auth : authContext) (r : HTTPRequest) : WM Reply :=
  match ep with
  | EpCreateProject => createProject auth r
  | EpListDeployments => listDeployments auth r
  | EpGetDeployment id => getDeployment auth id
  | EpGetDeploymentLogs id => getDeploymentLogs auth id
  | EpGetDeploymentOutput id => getDeploymentOutput auth id
  | EpListProjects => listProjects auth r
  | EpGetProject id => getProject auth id
  | EpGetProjectOverview id => getProjectOverview auth r id
  | EpListProjectDeployments id => listProjectDeployments auth r id
  | EpListProjectFunctions id => listProjectFunctions auth r id
  | EpListProjectBuildJobs id => listProjectBuildJobs auth r id
  | EpListProjectJobs id => listProjectJobs auth r id
  | EpCreateFunction id => createFunction auth r id
  | EpGetBuildJob id => getBuildJob auth id
  | EpGetBuildJobLogs id => getBuildJobLogs auth id
  | EpInvokeFunction id => invokeFunction auth r id
  | EpGetJob id => getJob auth id
  | EpGetJobLogs id => getJobLogs auth id
  | EpGetJobOutput id => getJobOutput auth id
  | EpGetFunction id => getFunction auth id
  | EpGetFunctionSite id => getFunctionSite auth r id
  | EpGetFunctionWarmStatus id => getFunctionWarmStatus auth id
  | EpPrepareFunction id => prepareFunction auth id
  | EpCreateHTTPTrigger id => createHTTPTrigger auth r id
  | EpListHTTPTriggers id => listHTTPTriggers auth r id
  | EpCreateWebhookTrigger id => createWebhookTrigger auth r id
  | EpListWebhookTriggers id => listWebhookTriggers auth id
  | EpListRegions => listRegions
  | EpListWarmPools region => listWarmPools auth region
  | EpListRegionHosts region => listRegionHosts auth region
  | EpListJobAttempts id => listJobAttempts auth id
  | EpListJobCosts id => listJobCosts auth id
  | EpDrainHost region hostID => drainHost auth r region hostID
  end.

Definition writeReply (conn : string) (reply : Reply) : WM unit :=
  match reply with
  | ReplyError status msg => httpError conn msg status
  | ReplyJSON status value => writeJSON conn status (json_EncodePayload value)
  | ReplyRaw status contentType data => writeRaw conn status contentType data
  end.

(** The answer to an unauthenticated request. *)
Definition authReply (e : AuthError) : Reply :=
  match e with
  | errMissingAPIKey => ReplyError 401 "missing X-API-Key"
  | errInvalidAPIKey => ReplyError 401 "invalid X-API-Key"
  | authStoreError e => ReplyError 500 (Error e)
  end.

(** [authMiddleware] around the endpoint. *)
Definition replyV1 (ep : Endpoint) (r : HTTPRequest) : WM Reply :=
  auth ← authenticateAPIKey (apiKeyFromRequest r);
  match auth with
  | inr e => mret (authReply e)
  | inl auth => handle ep auth r
  end.

Definition setCORSHeaders (conn : string) (r : HTTPRequest) : WM unit :=
  let origin := TrimSpace (requestHeader r "Origin") in
  setHeader conn "Access-Control-Allow-Origin" (orElse origin "*") ≫= λ _,
  setHeader conn "Access-Control-Allow-Headers" "Content-Type, X-API-Key, Idempotency-Key, Authorization" ≫= λ _,
  setHeader conn "Access-Control-Allow-Methods" "GET, HEAD, POST, PUT, PATCH, DELETE, OPTIONS" ≫= λ _,
  setHeader conn "Access-Control-Expose-Headers"
    "Content-Type, Trailer, X-Lecrev-Job-Id, X-Lecrev-Function-Version-Id, X-Lecrev-Function-Url-Token, X-Lecrev-Latency-Ms" ≫= λ _,
  setHeader conn "Access-Control-Max-Age" "600" ≫= λ _,
  addHeader conn "Vary" "Origin".

(** [corsMiddleware] *)
Definition withCORS (conn : string) (r : HTTPRequest) (next : WM unit) : WM unit :=
  setCORSHeaders conn r ≫= λ _,
  if bool_decide (hr_Method r = "OPTIONS") then WriteHeader conn 204 else next.

Definition serveV1 (conn : string) (ep : Endpoint) (r : HTTPRequest) : WM unit :=
  withCORS conn r (reply ← replyV1 ep r; writeReply conn reply).

End HttpApi.
