(* ===== verification/HttpPublic.v ===== *)
(** * HttpPublic: function addresses, webhooks and websites

    Models the part of [internal/httpapi/server.go] that serves callers without
    an account: [invokeHTTPTrigger], [invokeWebhook], [serveWebsite] and the
    fallback that finds the website of a request from its referer or cookie.
    [waits] tells, for the polling loop of a request, how many ticks pass before
    its context is done and with which error it ends. *)

From Stdlib Require Import Ascii.
From stdpp Require Import base decidable tactics numbers list gmap strings sorting.
From S2P Require Import Prelude Text Domain MemStore World Scheduler Artifacts Files Archive BuildTools NextSite Workspace Build Http HttpApi.

Section HttpPublic.
Context `{!GoEnv, !BuildEnv, !HttpEnv, !PayloadEnv} (srv : Server).

(** ** Payloads *)

Definition jStrings (l : list string) : Json := JArr (JStr <$> l).
Definition jFirst (m : gmap string (list string)) : Json :=
  JObj (omap (λ values, match values with v :: _ => Some (JStr v) | [] => None end) m).
Definition jMulti (m : gmap string (list string)) : Json := JObj (jStrings <$> m).

Definition buildWebhookPayload (r : HTTPRequest) (token : string) : result string :=
  body ← readBody r;
  let trimmed := TrimSpace body in
  payloadBody ← (if bool_decide (trimmed = "") then Ok (JRaw "null")
                 else if json_Valid body then Ok (JRaw body)
                 else encoded ← json_Marshal (JStr trimmed); Ok (JRaw encoded));
  json_Marshal (JObj (list_to_map
    [("trigger", JStr "webhook"); ("token", JStr token); ("method", JStr (hr_Method r));
     ("path", JStr (hr_Path r)); ("query", jMulti (hr_Query r)); ("headers", jMulti (hr_Header r));
     ("body", payloadBody)])).

(** The body as a value, as text, in base 64, and whether it is encoded. *)
Definition decodeHTTPPayloadBody (body : string) : result (Json * string * string * bool) :=
  if bool_decide (body = "") then Ok (JNull, "", "", false)
  else if json_Valid body then
    payload ← json_Unmarshal body;
    Ok (payload, body, base64_Encode body, false)
  else Ok (JStr body, body, base64_Encode body, false).

Definition buildHTTPPayloadForPath (r : HTTPRequest) (token functionPath : string) : result string :=
  body ← readBody r;
  '(payloadBody, rawBodyText, base64Body, isBase64) ← decodeHTTPPayloadBody body;
  json_Marshal (JObj (list_to_map
    [("trigger", JStr "http"); ("token", JStr token);
     ("request", JObj (list_to_map
        [("method", JStr (hr_Method r)); ("scheme", JStr (requestScheme r)); ("host", JStr (requestHost r));
         ("url", JStr (fullRequestURL r)); ("path", JStr functionPath); ("rawPath", JStr (hr_Path r));
         ("rawQuery", JStr (hr_RawQuery r)); ("headers", jFirst (hr_Header r));
         ("multiValueHeaders", jMulti (hr_Header r)); ("query", jFirst (hr_Query r));
         ("multiValueQuery", jMulti (hr_Query r)); ("body", payloadBody); ("bodyText", JStr rawBodyText);
         ("bodyBase64", JStr base64Body); ("isBase64Encoded", JBool isBase64);
         ("remoteAddr", JStr (hr_RemoteAddr r))]))])).

Definition buildHTTPPayload (r : HTTPRequest) (token : string) : result string :=
  buildHTTPPayloadForPath r token (triggerRequestPath r).

(** ** Waiting for a job *)

(** The job that was read last, and the error: the loop returns no job when the
    store fails. *)
Fixpoint waitForExecutionJob (ticks : nat) (done : GoError) (jobID : string) :
    WM (option ExecutionJob * option GoError) :=
  job ← try (call (GetExecutionJob jobID));
  match job with
  | Err e => mret (None, Some e)
  | Ok job =>
      if bool_decide (job_State job = JobStateSucceeded) || bool_decide (job_State job = JobStateFailed)
      then mret (Some job, None)
      else match ticks with
           | 0 => mret (Some job, Some done)
           | S ticks => waitForExecutionJob ticks done jobID
           end
  end.

Definition isDone (e : GoError) : bool := errors_Is e ContextDeadlineExceeded || errors_Is e ContextCanceled.

(** Writing a [map[string]any]. *)
Definition writeMap (conn : string) (status : Z) (m : list (string * Json)) : WM unit :=
  writeJSON conn status (json_EncodePayload (PMap (list_to_map m))).

Definition jNum (n : Z) : Json := JNum n (itoa n).

(** [job.ID] of the pointer the loop returned. *)
Definition jobIDOf (job : option ExecutionJob) : WM string :=
  match job with
  | Some job => mret (job_ID job)
  | None => fail (plainErr "panic: invalid memory address or nil pointer dereference")
  end.

(** ** Direct results *)

Definition returnDirectHTTPResult (sw : httpDirectStreamWriter) (res : DirectExecutionResult) : WM unit :=
  let conn := sw_conn sw in
  let latencyMs := match der_Result res with Some jr => jr_LatencyMs jr | None => 0%Z end in
  let latencyMs := if (latencyMs <=? 0)%Z && negb (IsZero (der_FinishedAt res))
                   then computeLatencyMs (der_StartedAt res) (der_FinishedAt res) else latencyMs in
  let latencyMs := if (latencyMs <=? 0)%Z then 1%Z else latencyMs in
  SetMeta sw (der_JobID res) (der_StartMode res) ≫= λ _,
  SetLatency sw latencyMs ≫= λ _,
  started ← Started sw;
  let failed := writeMap conn 502
    [("jobId", JStr (der_JobID res)); ("functionVersionId", JStr (sw_versionID sw));
     ("state", JStr (jobStateText (der_State res))); ("error", JStr (der_Error res));
     ("latencyMs", jNum latencyMs)] in
  match der_Result res with
  | Some jr =>
      if negb (bool_decide (der_State res = JobStateSucceeded)) then
        if started : bool then mret tt else failed
      else if started : bool then CloseStream sw
      else
        written ← try (writeHTTPFunctionResult conn (sw_method sw) (jr_Output jr) latencyMs);
        match written with
        | Ok _ => mret tt
        | Err e =>
            writeMap conn 502
              [("jobId", JStr (der_JobID res)); ("functionVersionId", JStr (sw_versionID sw));
               ("state", JStr (jobStateText JobStateFailed)); ("error", JStr (Error e));
               ("latencyMs", jNum latencyMs)]
        end
  | None => if started : bool then mret tt else failed
  end.

(** The direct execution behind a request, streaming into its response. *)
Definition executeStreaming (sw : httpDirectStreamWriter) (versionID payload : string) :
    WM (result DirectExecutionResult) :=
  try (ExecuteDirectStream (srv_scheduler srv) versionID payload
    (Some (λ jobID _ startMode, onConn (sw_conn sw) (setMeta sw jobID startMode)))
    (Some (HandleEvent sw))).

(** ** Websites *)

Definition attachWebsiteContextCookie (conn : string) (r : HTTPRequest) (versionID : string) : WM unit :=
  if blank versionID then mret tt else
  addHeader conn "Set-Cookie" (websiteContextCookieName +:+ "=" +:+ http_CookieValue versionID +:+
    "; Path=/; Max-Age=" +:+ itoa (Z.quot websiteContextCookieTTL Second) +:+ "; HttpOnly" +:+
    (if EqualFold (requestScheme r) "https" then "; Secure" else "") +:+ "; SameSite=Lax").

Definition attachWebsiteContextCookieIfWebsite (conn : string) (r : HTTPRequest) (version : FunctionVersion) :
    WM unit :=
  manifest ← try (websiteManifest version);
  match manifest with
  | Err _ => mret tt
  | Ok _ => attachWebsiteContextCookie conn r (fv_ID version)
  end.

Definition loadWebsiteContextVersion (versionID : string) : WM (FunctionVersion * WebsiteManifest) :=
  if blank versionID then fail (sentinel ErrNotFound) else
  version ← call (GetFunctionVersion versionID);
  if negb (bool_decide (fv_State version = FunctionStateReady))
  then fail (sentinel ErrFunctionVersionNotReady) else
  manifest ← websiteManifest version;
  mret (version, manifest).

Definition pathSegmentAfterPrefix (fullPath pre : string) : string :=
  if HasPrefix fullPath pre then TrimSpace (hd "" (Split (TrimPrefix fullPath pre) slash)) else "".

Definition resolveWebsiteContextVersionFromReferer (referer : string) :
    WM (FunctionVersion * WebsiteManifest) :=
  let trimmed := TrimSpace referer in
  if bool_decide (trimmed = "") then fail (sentinel ErrNotFound) else
  path ← lift (url_ParsePath trimmed);
  let refererPath := normalizedWebsitePath path in
  let versionID := pathSegmentAfterPrefix refererPath "/w/" in
  if negb (bool_decide (versionID = "")) then loadWebsiteContextVersion versionID else
  let token := pathSegmentAfterPrefix refererPath "/f/" in
  if negb (bool_decide (token = "")) then
    trigger ← call (GetHTTPTrigger token);
    loadWebsiteContextVersion (ht_FunctionVersionID trigger)
  else fail (sentinel ErrNotFound).

Definition resolveWebsiteContextVersion (r : HTTPRequest) : WM (FunctionVersion * WebsiteManifest) :=
  found ← try (resolveWebsiteContextVersionFromReferer (requestHeader r "Referer"));
  match found with
  | Ok vm => mret vm
  | Err _ =>
      match hr_Cookie r with
      | None => fail (sentinel ErrNotFound)
      | Some value => loadWebsiteContextVersion (TrimSpace value)
      end
  end.

(** [path.Ext] *)
Fixpoint pathExt_go (s ext : string) : string :=
  match s with
  | EmptyString => ext
  | String a s' =>
      if Ascii.eqb a slash then pathExt_go s' "" else if byte_eqb a 46 then pathExt_go s' s else pathExt_go s' ext
  end.
Definition pathExt (s : string) : string := pathExt_go s "".

Definition serveWebsiteStaticAsset (conn : string) (r : HTTPRequest) (digest requestPath : string) : WM bool :=
  if blank digest || blank requestPath || bool_decide (requestPath = "/") then mret false else
  data ← try (getObject (SiteAssetObjectKey digest requestPath));
  match data with
  | Err _ => mret false
  | Ok data =>
      let byExt := mime_TypeByExtension (pathExt requestPath) in
      let contentType := if bool_decide (byExt = "") then http_DetectContentType data else byExt in
      setHeader conn "Cache-Control" (if HasPrefix requestPath "/_next/static/"
        then "public, max-age=31536000, immutable" else "public, max-age=300") ≫= λ _,
      setHeader conn "Content-Type" contentType ≫= λ _,
      WriteHeader conn 200 ≫= λ _,
      (if bool_decide (hr_Method r = "HEAD") then mret tt else ignore (Write conn data)) ≫= λ _,
      mret true
  end.

Definition isGetOrHead (r : HTTPRequest) : bool :=
  bool_decide (hr_Method r = "GET") || bool_decide (hr_Method r = "HEAD").

(** [serveWebsiteRequest] of a version with its manifest, once no static asset
    was served. *)
Definition runWebsite (conn : string) (r : HTTPRequest) (waits : nat * GoError) (version : FunctionVersion)
    (manifest : WebsiteManifest) (sitePath : string) : WM unit :=
  match buildHTTPPayloadForPath r "" sitePath with
  | Err e => httpError conn (Error e) 400
  | Ok payload =>
      sw ← newHTTPDirectStreamWriter conn (hr_Method r) "" (fv_ID version);
      direct ← executeStreaming sw (fv_ID version) payload;
      match direct with
      | Ok res => returnDirectHTTPResult sw res
      | Err directErr =>
          if negb (errors_Is directErr ErrDirectInvokeUnavailable) &&
             negb (errors_Is directErr ErrNoExecutionCapacity) then
            if isDone directErr then
              writeMap conn 504
                [("functionVersionId", JStr (fv_ID version)); ("state", JStr "timeout");
                 ("message", JStr "website preview did not complete before the response deadline");
                 ("framework", JStr (wm_Framework manifest))]
            else writeServiceError conn directErr
          else
            dispatched ← try (DispatchExecutionIdempotent (srv_scheduler srv) (fv_ID version) payload
                                (idempotencyKeyOf (requestHeader r "Idempotency-Key") ""));
            match dispatched with
            | Err e => writeServiceError conn e
            | Ok job =>
                '(job, err) ← waitForExecutionJob waits.1 waits.2 (job_ID job);
                match err, job with
                | Some e, _ =>
                    if isDone e then
                      jobID ← jobIDOf job;
                      writeMap conn 504
                        [("jobId", JStr jobID); ("functionVersionId", JStr (fv_ID version));
                         ("state", JStr "timeout");
                         ("message", JStr "website preview did not complete before the response deadline")]
                    else writeServiceError conn e
                | None, None => mret tt
                | None, Some job =>
                    let job := withJobLatency job in
                    match job_Result job with
                    | Some jr =>
                        if bool_decide (job_State job = JobStateSucceeded) then
                          written ← try (writeHTTPFunctionResult conn (hr_Method r) (jr_Output jr)
                                           (jobLatencyMs job));
                          match written with
                          | Ok _ => mret tt
                          | Err e =>
                              writeMap conn 502
                                [("jobId", JStr (job_ID job)); ("functionVersionId", JStr (fv_ID version));
                                 ("state", JStr (jobStateText JobStateFailed)); ("error", JStr (Error e))]
                          end
                        else
                          writeMap conn 502
                            [("jobId", JStr (job_ID job)); ("functionVersionId", JStr (fv_ID version));
                             ("state", JStr (jobStateText (job_State job))); ("error", JStr (job_Error job))]
                    | None =>
                        writeMap conn 502
                          [("jobId", JStr (job_ID job)); ("functionVersionId", JStr (fv_ID version));
                           ("state", JStr (jobStateText (job_State job))); ("error", JStr (job_Error job))]
                    end
                end
            end
      end
  end.

Definition serveWebsiteRequest (conn : string) (r : HTTPRequest) (waits : nat * GoError)
    (version : FunctionVersion) (manifest : WebsiteManifest) (sitePath : string) : WM unit :=
  served ← (if isGetOrHead r then serveWebsiteStaticAsset conn r (fv_ArtifactDigest version) sitePath
            else mret false);
  if served : bool then mret tt else runWebsite conn r waits version manifest sitePath.

(** Whether a website was found; the fallbacks of the public addresses. *)
Definition serveWebsiteContext (conn : string) (r : HTTPRequest) (waits : nat * GoError) (requestPath : string) :
    WM bool :=
  found ← try (resolveWebsiteContextVersion r);
  match found with
  | Err _ => mret false
  | Ok (version, manifest) =>
      attachWebsiteContextCookie conn r (fv_ID version) ≫= λ _,
      serveWebsiteRequest conn r waits version manifest requestPath ≫= λ _,
      mret true
  end.

Definition serveWebsiteContextRequest (conn : string) (r : HTTPRequest) (waits : nat * GoError) : WM bool :=
  serveWebsiteContext conn r waits (normalizedWebsitePath (hr_Path r)).

Definition serveWebsitePrefixedFallback (conn : string) (r : HTTPRequest) (waits : nat * GoError)
    (pre : string) : WM bool :=
  serveWebsiteContext conn r waits
    (normalizedWebsitePath (TrimPrefix (normalizedWebsitePath (hr_Path r)) pre)).

Definition serveWebsite (conn : string) (r : HTTPRequest) (waits : nat * GoError) (versionID : string) : WM unit :=
  if bool_decide (versionID = "") then httpError conn "missing versionID" 400 else
  found ← try (call (GetFunctionVersion versionID));
  match found with
  | Err e =>
      fallback ← (if isGetOrHead r then serveWebsitePrefixedFallback conn r waits "/w" else mret false);
      if fallback : bool then mret tt else writeServiceError conn e
  | Ok version =>
      if negb (bool_decide (fv_State version = FunctionStateReady))
      then httpError conn "website preview not ready" 503 else
      loaded ← try (websiteManifest version);
      match loaded with
      | Err e => writeServiceError conn e
      | Ok manifest =>
          attachWebsiteContextCookie conn r (fv_ID version) ≫= λ _,
          serveWebsiteRequest conn r waits version manifest (websiteRequestPath r)
      end
  end.

Definition handleWebsiteContextFallback (conn : string) (r : HTTPRequest) (waits : nat * GoError) : WM unit :=
  let requestPath := normalizedWebsitePath (hr_Path r) in
  if existsb (HasPrefix requestPath) ["/v1/"; "/api/"; "/healthz"; "/metrics"]
  then httpError conn "404 page not found" 404 else
  served ← serveWebsiteContextRequest conn r waits;
  if served : bool then mret tt else httpError conn "404 page not found" 404.

(** ** Webhooks *)

Definition invokeWebhook (conn : string) (r : HTTPRequest) (token : string) : WM unit :=
  trigger ← try (call (GetWebhookTrigger token));
  match trigger with
  | Err _ => httpError conn "webhook trigger not found" 404
  | Ok trigger =>
      if negb (wt_Enabled trigger) then httpError conn "webhook trigger not found" 404 else
      match buildWebhookPayload r token with
      | Err e => httpError conn (Error e) 400
      | Ok payload =>
          job ← try (DispatchExecutionIdempotent (srv_scheduler srv) (wt_FunctionVersionID trigger) payload
                       (idempotencyKeyOf (requestHeader r "Idempotency-Key") ""));
          match job with
          | Err e => writeServiceError conn e
          | Ok job => writeJSON conn 202 (json_EncodePayload (PJob (withJobLatency job)))
          end
      end
  end.

(** ** Function addresses *)

(** [None] when the trigger needs no key. *)
Definition authContextForHTTPTrigger (r : HTTPRequest) (trigger : HTTPTrigger) :
    WM (option authContext + AuthError) :=
  match ht_AuthMode trigger with
  | HTTPTriggerAuthModeNone => mret (inl None)
  | HTTPTriggerAuthModeAPIKey =>
      auth ← authenticateAPIKey (apiKeyFromRequest r);
      mret (match auth with inl auth => inl (Some auth) | inr e => inr e end)
  end.

(** The queued execution after a direct one was not possible. *)
Definition dispatchTrigger (conn : string) (r : HTTPRequest) (waits : nat * GoError) (token : string)
    (version : FunctionVersion) (versionID payload : string) (requestStartedAt : Time) : WM unit :=
  dispatched ← try (DispatchExecutionIdempotent (srv_scheduler srv) versionID payload
                      (idempotencyKeyOf (requestHeader r "Idempotency-Key") ""));
  match dispatched with
  | Err e => writeServiceError conn e
  | Ok job =>
      '(job, err) ← waitForExecutionJob waits.1 waits.2 (job_ID job);
      match err, job with
      | Some e, _ =>
          t ← now;
          let latencyMs := computeLatencyMs requestStartedAt t in
          if isDone e then
            setHeader conn "X-Lecrev-Latency-Ms" (itoa latencyMs) ≫= λ _,
            jobID ← jobIDOf job;
            writeMap conn 504
              [("jobId", JStr jobID); ("functionVersionId", JStr (fv_ID version)); ("state", JStr "timeout");
               ("message", JStr "function url execution did not complete before the response deadline");
               ("latencyMs", jNum latencyMs)]
          else writeServiceError conn e
      | None, None => mret tt
      | None, Some job =>
          let job := withJobLatency job in
          let latencyMs := jobLatencyMs job in
          latencyMs ← (if (latencyMs =? 0)%Z then t ← now; mret (computeLatencyMs requestStartedAt t)
                       else mret latencyMs);
          setHeader conn "X-Lecrev-Job-Id" (job_ID job) ≫= λ _,
          setHeader conn "X-Lecrev-Function-Version-Id" (fv_ID version) ≫= λ _,
          setHeader conn "X-Lecrev-Function-Url-Token" token ≫= λ _,
          setHeader conn "X-Lecrev-Latency-Ms" (itoa latencyMs) ≫= λ _,
          let report state err := writeMap conn 502
            [("jobId", JStr (job_ID job)); ("functionVersionId", JStr (fv_ID version)); ("state", JStr state);
             ("error", JStr err); ("latencyMs", jNum latencyMs)] in
          match job_Result job with
          | Some jr =>
              if bool_decide (job_State job = JobStateSucceeded) then
                written ← try (writeHTTPFunctionResult conn (hr_Method r) (jr_Output jr) latencyMs);
                match written with
                | Ok _ => mret tt
                | Err e => report (jobStateText (job_State job)) (Error e)
                end
              else report (jobStateText (job_State job)) (job_Error job)
          | None => report (jobStateText (job_State job)) (job_Error job)
          end
      end
  end.

(** [invokeHTTPTrigger] once the caller may invoke the ready version. *)
Definition runTrigger (conn : string) (r : HTTPRequest) (waits : nat * GoError) (token : string)
    (trigger : HTTPTrigger) (version : FunctionVersion) (requestStartedAt : Time) : WM unit :=
  attachWebsiteContextCookieIfWebsite conn r version ≫= λ _,
  match buildHTTPPayload r token with
  | Err e => httpError conn (Error e) 400
  | Ok payload =>
      sw ← newHTTPDirectStreamWriter conn (hr_Method r) token (fv_ID version);
      direct ← executeStreaming sw (ht_FunctionVersionID trigger) payload;
      match direct with
      | Ok res => returnDirectHTTPResult sw res
      | Err directErr =>
          if errors_Is directErr ErrNoExecutionCapacity || errors_Is directErr ErrDirectInvokeUnavailable then
            dispatchTrigger conn r waits token version (ht_FunctionVersionID trigger) payload requestStartedAt
          else if isDone directErr then
            t ← now;
            let latencyMs := computeLatencyMs requestStartedAt t in
            setHeader conn "X-Lecrev-Latency-Ms" (itoa latencyMs) ≫= λ _,
            writeMap conn 504
              [("functionVersionId", JStr (fv_ID version)); ("state", JStr "timeout");
               ("message", JStr "function url execution did not complete before the response deadline");
               ("latencyMs", jNum latencyMs)]
          else writeServiceError conn directErr
      end
  end.

Definition invokeHTTPTrigger (conn : string) (r : HTTPRequest) (waits : nat * GoError) (token : string) : WM unit :=
  requestStartedAt ← now;
  found ← try (call (GetHTTPTrigger token));
  match (match found with Ok trigger => if ht_Enabled trigger then Some trigger else None | Err _ => None end) with
  | None =>
      fallback ← (if isGetOrHead r then serveWebsitePrefixedFallback conn r waits "/f" else mret false);
      if fallback : bool then mret tt else httpError conn "http trigger not found" 404
  | Some trigger =>
      auth ← authContextForHTTPTrigger r trigger;
      match auth with
      | inr errMissingAPIKey => httpError conn "missing X-API-Key" 401
      | inr errInvalidAPIKey => httpError conn "invalid X-API-Key" 401
      | inr (authStoreError e) => httpError conn (Error e) 401
      | inl auth =>
          loaded ← try (call (GetFunctionVersion (ht_FunctionVersionID trigger)));
          match loaded with
          | Err e => writeServiceError conn e
          | Ok version =>
              allowed ← try (match auth with
                             | Some auth => authorizeProject auth (fv_ProjectID version)
                             | None => mret tt
                             end);
              match allowed with
              | Err e => writeServiceError conn e
              | Ok _ =>
                  if negb (bool_decide (fv_State version = FunctionStateReady))
                  then httpError conn "function url not ready" 503
                  else runTrigger conn r waits token trigger version requestStartedAt
              end
          end
      end
  end.

(** ** The whole server *)

Inductive Route :=
| RouteHealthz
| RouteTrigger (token : string)
| RouteWebsite (versionID : string)
| RouteWebhook (token : string)
| RouteV1 (ep : Endpoint)
| RouteFallback
| RouteNotFound.

Definition serve (conn : string) (r : HTTPRequest) (waits : nat * GoError) (route : Route) : WM unit :=
  match route with
  | RouteV1 ep => serveV1 srv conn ep r
  | RouteHealthz => withCORS conn r (
      setHeader conn "Content-Type" "application/json" ≫= λ _,
      match json_EncodePayload (PMap (<["ok" := JBool true]> {["status" := JStr "healthy"]})) with
      | Ok text => ignore (Write conn (text +:+ newline))
      | Err _ => mret tt
      end)
  | RouteTrigger token => withCORS conn r (invokeHTTPTrigger conn r waits token)
  | RouteWebsite versionID => withCORS conn r (serveWebsite conn r waits versionID)
  | RouteWebhook token => withCORS conn r (invokeWebhook conn r token)
  | RouteFallback => withCORS conn r (handleWebsiteContextFallback conn r waits)
  | RouteNotFound => withCORS conn r (httpError conn "404 page not found" 404)
  end.

End HttpPublic.
