(* ===== verification/HttpInv.v ===== *)
(** * HttpInv: the system invariant along the HTTP server

    Whatever request arrives, on whatever route, the invariant of the shared
    state holds after it ([keeps_serve]). *)

From stdpp Require Import base decidable tactics numbers list gmap strings sorting.
From S2P Require Import Prelude Text Domain MemStore World Jobs Scheduler SchedulerFacts.
From S2P Require Import Artifacts Files Archive BuildTools NextSite Workspace Build BuildFacts Http HttpApi HttpPublic.

(** What the invariant needs of the server's collaborators. *)
Class ServerKeeps `{!GoEnv} (Inv : World → Prop) (srv : Server) := {
  sk_scheduler : map_Forall (λ _, DispatcherOk Inv) (sc_dispatchers (srv_scheduler srv));
  sk_builder :: BuildKeeps Inv (srv_builder srv);
  sk_admins : map_Forall (λ _ drain, ∀ hostID reason, preserves Inv (drain hostID reason)) (srv_admins srv);
}.

Section HttpInvariant.
Context `{E : !GoEnv, BE : !BuildEnv, HE : !HttpEnv, PE : !PayloadEnv}.
Context (HR : rely E jobs_wf) (HA : artifacts_kept E) (K : gmap string Coordinator → Prop).
Abbreviation Inv := (inv_on jobs_wf K).
Context (srv : Server) `{Hs : !ServerKeeps Inv srv}.

(** ** Writing *)

Lemma inv_onConn conn f w : Inv w → Inv (onConn conn f w).
Proof. done. Qed.

Lemma keeps_onConn conn f : preserves Inv (modify (onConn conn f)).
Proof. by apply keeps_modify. Qed.

Lemma keeps_gets_any {A} (f : World → A) : preserves Inv (gets f).
Proof. by apply keeps_gets. Qed.
#[local] Hint Resolve keeps_onConn keeps_gets_any : keeps.

Lemma keeps_setHeader conn k v : preserves Inv (setHeader conn k v).
Proof. apply keeps_onConn. Qed.
Lemma keeps_addHeader conn k v : preserves Inv (addHeader conn k v).
Proof. apply keeps_onConn. Qed.
Lemma keeps_WriteHeader conn code : preserves Inv (WriteHeader conn code).
Proof. unfold WriteHeader. keep. Qed.
Lemma keeps_Write conn data : preserves Inv (Write conn data).
Proof. unfold Write. keep. Qed.
#[local] Hint Resolve keeps_setHeader keeps_addHeader keeps_WriteHeader keeps_Write : keeps.

Lemma keeps_httpError conn msg status : preserves Inv (httpError conn msg status).
Proof. unfold httpError. keep. Qed.
Lemma keeps_writeRaw conn status ct data : preserves Inv (writeRaw conn status ct data).
Proof. unfold writeRaw. keep. Qed.
Lemma keeps_writeJSON conn status v : preserves Inv (writeJSON conn status v).
Proof. unfold writeJSON. keep. Qed.
#[local] Hint Resolve keeps_httpError keeps_writeRaw keeps_writeJSON : keeps.

Lemma keeps_writeServiceError conn e : preserves Inv (writeServiceError conn e).
Proof. apply keeps_httpError. Qed.
Lemma keeps_writeMap conn status m : preserves Inv (writeMap conn status m).
Proof. apply keeps_writeJSON. Qed.
Lemma keeps_writeChunks n conn body : ∀ offset, preserves Inv (writeChunks n conn body offset).
Proof. induction n as [|n IH]; intros offset; simpl; keep. Qed.
#[local] Hint Resolve keeps_writeServiceError keeps_writeMap keeps_writeChunks : keeps.

Lemma keeps_writeHTTPResponseBody conn body : preserves Inv (writeHTTPResponseBody conn body).
Proof. unfold writeHTTPResponseBody. keep. Qed.
#[local] Hint Resolve keeps_writeHTTPResponseBody : keeps.

Lemma keeps_writeHTTPFunctionResult conn m out l : preserves Inv (writeHTTPFunctionResult conn m out l).
Proof.
  unfold writeHTTPFunctionResult. eapply (keeps_bind _ _ _ (λ _, True)); [by apply keeps_lift|]. intros [[[st h] body]|] _; [|keep].
  eapply (keeps_bind _ _ _ (λ _, True)); [|intros; keep].
  apply keeps_for_each; [done|]. intros kv _. apply keeps_for_each; [done|]. intros. apply keeps_addHeader.
Qed.
#[local] Hint Resolve keeps_writeHTTPFunctionResult : keeps.

Lemma keeps_newStream conn m t v : preserves Inv (newHTTPDirectStreamWriter conn m t v).
Proof. unfold newHTTPDirectStreamWriter. keep. Qed.
Lemma keeps_SetMeta sw j m : preserves Inv (SetMeta sw j m).
Proof. apply keeps_onConn. Qed.
Lemma keeps_SetLatency sw l : preserves Inv (SetLatency sw l).
Proof. unfold SetLatency. keep. Qed.
Lemma keeps_Started sw : preserves Inv (Started sw).
Proof. apply keeps_gets_any. Qed.
Lemma keeps_CloseStream sw : preserves Inv (CloseStream sw).
Proof. apply keeps_onConn. Qed.
Lemma keeps_startStream sw : preserves Inv (startStream sw).
Proof. unfold startStream. keep. Qed.
#[local] Hint Resolve keeps_newStream keeps_SetMeta keeps_SetLatency keeps_Started keeps_CloseStream
  keeps_startStream : keeps.

Lemma keeps_HandleEvent sw ev : preserves Inv (HandleEvent sw ev).
Proof.
  unfold HandleEvent. eapply keeps_bind; [apply keeps_gets_any|]. intros c _.
  destruct (sw_closed c); [keep|]. case_bool_decide.
  - destruct (sw_started c); [keep|]. eapply keeps_bind; [apply keeps_onConn|]. intros _ _.
    eapply (keeps_bind _ _ _ (λ _, True)); [keep|]. intros _ _.
    eapply (keeps_bind _ _ _ (λ _, True)); [|intros; keep].
    apply keeps_for_each; [done|]. intros kv _. keep.
  - keep.
Qed.
#[local] Hint Resolve keeps_HandleEvent : keeps.

(** ** Handlers *)

Lemma keeps_getObject key : preserves Inv (getObject key).
Proof. intros w Hw. unfold getObject. by destruct (env_fault _). Qed.
#[local] Hint Resolve keeps_getObject : keeps.

Lemma keeps_authenticateAPIKey raw : preserves Inv (authenticateAPIKey raw).
Proof. unfold authenticateAPIKey. keep. Qed.
#[local] Hint Resolve keeps_authenticateAPIKey : keeps.

Lemma keeps_orReply {A} (V : A → Prop) (m : WM A) k :
  keeps Inv V m → (∀ a, V a → preserves Inv (k a)) → preserves Inv (orReply m k).
Proof.
  intros Hm Hk. unfold orReply. eapply keeps_bind; [by apply keeps_try|]. intros [a|e] Ha; [|keep].
  apply Hk. by apply Ha.
Qed.

Lemma keeps_authorizedProject auth p : preserves Inv (authorizedProject auth p).
Proof. unfold authorizedProject. keep. Qed.
#[local] Hint Resolve keeps_authorizedProject : keeps.
Lemma keeps_authorizeProject auth p : preserves Inv (authorizeProject auth p).
Proof. unfold authorizeProject. keep. Qed.
Lemma keeps_requireAdmin auth : preserves Inv (requireAdmin auth).
Proof. unfold requireAdmin. keep. Qed.
Lemma keeps_ensureProject p t n : preserves Inv (ensureProject p t n).
Proof. unfold ensureProject. keep. Qed.
#[local] Hint Resolve keeps_authorizeProject keeps_requireAdmin keeps_ensureProject : keeps.
Lemma keeps_ensureAuthorizedProject auth p n : preserves Inv (ensureAuthorizedProject auth p n).
Proof. unfold ensureAuthorizedProject. keep. Qed.
Lemma keeps_authorizedJob auth id : preserves Inv (authorizedJob auth id).
Proof. unfold authorizedJob. keep. Qed.
Lemma keeps_authorizedBuildJob auth id : preserves Inv (authorizedBuildJob auth id).
Proof. unfold authorizedBuildJob. keep. Qed.
Lemma keeps_authorizedVersion auth id : preserves Inv (authorizedVersion auth id).
Proof. unfold authorizedVersion. keep. Qed.
Lemma keeps_loadAuthorizedDeployment auth id : preserves Inv (loadAuthorizedDeployment auth id).
Proof. unfold loadAuthorizedDeployment. keep. Qed.
Lemma keeps_storedData k i : preserves Inv (storedData k i).
Proof. unfold storedData. keep. Qed.
#[local] Hint Resolve keeps_ensureAuthorizedProject keeps_authorizedJob keeps_authorizedBuildJob
  keeps_authorizedVersion keeps_loadAuthorizedDeployment keeps_storedData : keeps.
Lemma keeps_executionLogsData j : preserves Inv (executionLogsData j).
Proof. unfold executionLogsData. keep. Qed.
Lemma keeps_executionOutputData j : preserves Inv (executionOutputData j).
Proof. unfold executionOutputData. keep. Qed.
Lemma keeps_gatherDeployments ps : preserves Inv (gatherDeployments ps).
Proof. induction ps; simpl; keep. Qed.
Lemma keeps_gatherWarmStatus i v rs : preserves Inv (gatherWarmStatus i v rs).
Proof. induction rs; simpl; keep. Qed.
Lemma keeps_websiteManifest v : preserves Inv (websiteManifest v).
Proof. unfold websiteManifest. keep. Qed.
Lemma keeps_token : preserves Inv generateTriggerToken.
Proof. apply keeps_draw. Qed.
#[local] Hint Resolve keeps_executionLogsData keeps_executionOutputData keeps_gatherDeployments
  keeps_gatherWarmStatus keeps_websiteManifest keeps_token : keeps.

(** A handler: every call whose error is answered, then the rest. *)
Ltac reply_step :=
  match goal with
  | |- keeps _ _ (orReply _ _) => eapply keeps_orReply; [solve [eauto with keeps nocore]|intros ? ?]
  | |- keeps _ _ (orBadRequest _ ?m _) => unfold orBadRequest; destruct m eqn:?
  | |- keeps _ _ (match ?x with _ => _ end) => destruct x eqn:?
  | |- keeps _ _ (let '(_, _) := ?x in _) => destruct x
  | _ => keep_step
  end.
Ltac reply := repeat (reply_step; cbn beta zeta in * ).

Lemma keeps_invoke vid payload key : preserves Inv (DispatchExecutionIdempotent (srv_scheduler srv) vid payload key).
Proof. by eapply keeps_mono; [apply keeps_DispatchExecutionIdempotent|]. Qed.
Lemma keeps_prepare v : preserves Inv (PrepareFunctionVersion (srv_scheduler srv) v).
Proof. apply (keeps_PrepareFunctionVersion _ _ sk_scheduler). Qed.
Lemma keeps_deploy req : preserves Inv (CreateFunctionVersion (srv_builder srv) req).
Proof. eapply keeps_mono; [apply keeps_CreateFunctionVersion; [done|done|apply Hs]|done]. Qed.
Lemma keeps_drain region drain hostID reason :
  srv_admins srv !! region = Some drain → preserves Inv (drain hostID reason).
Proof. intros Hr. exact (sk_admins _ _ Hr hostID reason). Qed.
#[local] Hint Resolve keeps_invoke keeps_prepare keeps_deploy keeps_drain : keeps.

Lemma keeps_listDeploymentsForProjects r ps : preserves Inv (listDeploymentsForProjects r ps).
Proof. unfold listDeploymentsForProjects. reply. Qed.
#[local] Hint Resolve keeps_listDeploymentsForProjects : keeps.

Lemma keeps_handle ep auth r : preserves Inv (handle srv ep auth r).
Proof.
  destruct ep; cbn [handle]; lazymatch goal with |- keeps _ _ ?h => unfold_head h end; reply.
Qed.

Lemma keeps_writeReply conn reply : preserves Inv (writeReply conn reply).
Proof. destruct reply; simpl; keep. Qed.
#[local] Hint Resolve keeps_handle keeps_writeReply : keeps.

Lemma keeps_replyV1 ep r : preserves Inv (replyV1 srv ep r).
Proof. unfold replyV1. keep. Qed.
#[local] Hint Resolve keeps_replyV1 : keeps.

Lemma keeps_setCORSHeaders conn r : preserves Inv (setCORSHeaders conn r).
Proof.
  unfold setCORSHeaders. cbv zeta. do 5 (eapply keeps_bind; [apply keeps_setHeader|intros ? _]). apply keeps_addHeader.
Qed.

Lemma keeps_withCORS conn r next : preserves Inv next → preserves Inv (withCORS conn r next).
Proof.
  intros Hn. unfold withCORS. eapply keeps_bind; [apply keeps_setCORSHeaders|intros ? _].
  case_bool_decide; [apply keeps_WriteHeader|done].
Qed.

(** ** Public addresses *)

Lemma keeps_waitForExecutionJob n e id : preserves Inv (waitForExecutionJob n e id).
Proof. induction n as [|n IH]; simpl; keep. Qed.
Lemma keeps_jobIDOf j : preserves Inv (jobIDOf j).
Proof. unfold jobIDOf. keep. Qed.
#[local] Hint Resolve keeps_waitForExecutionJob keeps_jobIDOf : keeps.

Lemma keeps_returnDirect sw res : preserves Inv (returnDirectHTTPResult sw res).
Proof. unfold returnDirectHTTPResult. keep. Qed.

Lemma keeps_executeStreaming sw vid payload : preserves Inv (executeStreaming srv sw vid payload).
Proof.
  unfold executeStreaming. eapply keeps_mono; [apply keeps_try, (keeps_ExecuteDirectStream HR K _ sk_scheduler)|done].
  - intros g j t m w [= <-] Hw. by apply inv_onConn.
  - intros g ev [= <-]. apply keeps_HandleEvent.
Qed.
#[local] Hint Resolve keeps_returnDirect keeps_executeStreaming : keeps.

Lemma keeps_cookie conn r v : preserves Inv (attachWebsiteContextCookie conn r v).
Proof. unfold attachWebsiteContextCookie. keep. Qed.
#[local] Hint Resolve keeps_cookie : keeps.
Lemma keeps_cookieIf conn r v : preserves Inv (attachWebsiteContextCookieIfWebsite conn r v).
Proof. unfold attachWebsiteContextCookieIfWebsite. keep. Qed.
Lemma keeps_loadWebsite v : preserves Inv (loadWebsiteContextVersion v).
Proof. unfold loadWebsiteContextVersion. keep. Qed.
#[local] Hint Resolve keeps_cookieIf keeps_loadWebsite : keeps.
Lemma keeps_resolveReferer s : preserves Inv (resolveWebsiteContextVersionFromReferer s).
Proof. unfold resolveWebsiteContextVersionFromReferer. keep. Qed.
#[local] Hint Resolve keeps_resolveReferer : keeps.
Lemma keeps_resolveWebsite r : preserves Inv (resolveWebsiteContextVersion r).
Proof. unfold resolveWebsiteContextVersion. keep. Qed.
Lemma keeps_staticAsset conn r d p : preserves Inv (serveWebsiteStaticAsset conn r d p).
Proof. unfold serveWebsiteStaticAsset. keep. Qed.
#[local] Hint Resolve keeps_resolveWebsite keeps_staticAsset : keeps.

Lemma keeps_runWebsite conn r waits v m p : preserves Inv (runWebsite srv conn r waits v m p).
Proof. unfold runWebsite. keep. Qed.
#[local] Hint Resolve keeps_runWebsite : keeps.
Lemma keeps_serveWebsiteRequest conn r waits v m p : preserves Inv (serveWebsiteRequest srv conn r waits v m p).
Proof. unfold serveWebsiteRequest. keep. Qed.
#[local] Hint Resolve keeps_serveWebsiteRequest : keeps.
Lemma keeps_websiteContext conn r waits p : preserves Inv (serveWebsiteContext srv conn r waits p).
Proof. unfold serveWebsiteContext. keep. Qed.
#[local] Hint Resolve keeps_websiteContext : keeps.
Lemma keeps_contextRequest conn r waits : preserves Inv (serveWebsiteContextRequest srv conn r waits).
Proof. apply keeps_websiteContext. Qed.
Lemma keeps_prefixedFallback conn r waits p : preserves Inv (serveWebsitePrefixedFallback srv conn r waits p).
Proof. apply keeps_websiteContext. Qed.
#[local] Hint Resolve keeps_contextRequest keeps_prefixedFallback : keeps.

Lemma keeps_serveWebsite conn r waits v : preserves Inv (serveWebsite srv conn r waits v).
Proof. unfold serveWebsite. keep. Qed.
Lemma keeps_fallback conn r waits : preserves Inv (handleWebsiteContextFallback srv conn r waits).
Proof.
  unfold handleWebsiteContextFallback. cbv zeta. destruct (existsb _ _); [apply keeps_httpError|].
  eapply keeps_bind; [apply keeps_contextRequest|]. intros [] _; [by apply keeps_ret|apply keeps_httpError].
Qed.
Lemma keeps_invokeWebhook conn r token : preserves Inv (invokeWebhook srv conn r token).
Proof. unfold invokeWebhook. keep. Qed.
Lemma keeps_dispatchTrigger conn r waits token v vid payload t :
  preserves Inv (dispatchTrigger srv conn r waits token v vid payload t).
Proof. unfold dispatchTrigger. keep. Qed.
#[local] Hint Resolve keeps_dispatchTrigger : keeps.
Lemma keeps_runTrigger conn r waits token tr v t : preserves Inv (runTrigger srv conn r waits token tr v t).
Proof. unfold runTrigger. keep. Qed.
Lemma keeps_triggerAuth r tr : preserves Inv (authContextForHTTPTrigger r tr).
Proof. unfold authContextForHTTPTrigger. keep. Qed.
#[local] Hint Resolve keeps_runTrigger keeps_triggerAuth : keeps.
Lemma keeps_allowed (auth : option authContext) p :
  keeps Inv (λ _, True) (try (match auth with Some auth => authorizeProject auth p | None => mret tt end)).
Proof. eapply keeps_mono; [apply (keeps_try _ _ (λ _, True))|done]. keep. Qed.
#[local] Hint Resolve keeps_allowed : keeps.
Lemma keeps_invokeHTTPTrigger conn r waits token : preserves Inv (invokeHTTPTrigger srv conn r waits token).
Proof. unfold invokeHTTPTrigger. keep. Qed.

Theorem keeps_serve conn r waits route : preserves Inv (serve srv conn r waits route).
Proof.
  destruct route; cbn [serve]; try unfold serveV1; apply keeps_withCORS; try solve [keep];
    auto using keeps_serveWebsite, keeps_fallback, keeps_invokeWebhook, keeps_invokeHTTPTrigger.
Qed.

End HttpInvariant.
