(* ===== verification/HttpFacts.v ===== *)
(** * HttpFacts: what callers of the HTTP interface can rely on

    Authentication, the guards of function addresses, project identifiers, and a
    website that needs no key. *)

From Stdlib Require Import Ascii.
From stdpp Require Import base decidable tactics numbers list gmap strings sorting.
From S2P Require Import Prelude Text Domain MemStore World Jobs Scheduler SchedulerFacts.
From S2P Require Import Artifacts Files Archive BuildTools NextSite Workspace Build BuildFacts Http HttpApi HttpPublic.

(** ** An environment for concrete runs *)

Definition demo_source : DeploySource :=
  mkDeploySource SourceTypeBundle "" {["index.mjs" := "export {}"]} "" "" "" ∅ ∅.

Definition demo_http_env : HttpEnv := {|
  json_DecodeFunction _ _ := Ok (mkCreateFunctionRequest "hello" "" "" "index.mjs" 0 0 "" ["ap-south-1"] ∅ [] 1 "" "source");
  json_DecodeSource _ := Ok demo_source;
  json_DecodeProject body _ := Ok (mkCreateProjectRequest "" body);
  json_DecodeInvoke body _ := Ok (mkInvokeRequest body "");
  json_DecodeWebhook _ _ := Ok (mkCreateWebhookTriggerRequest "" "hook");
  json_DecodeHTTPTrigger _ _ := Ok (mkCreateHTTPTriggerRequest "" "tok" "api_key");
  json_DecodeDrain _ _ := Ok (mkDrainHostRequest "");
  json_DecodeManifest data := if bool_decide (data = "site") then Ok (mkWebsiteManifest "nextjs" "" "" "" 0)
                              else Err (plainErr "invalid manifest");
  json_Valid _ := true;
  json_Unmarshal s := Ok (JStr s);
  json_Marshal _ := Ok "{}";
  base64_Encode s := s;
  fmt_Sprint _ := "value";
  mime_TypeByExtension _ := "text/html";
  http_DetectContentType _ := "text/plain";
  url_ParsePath s := Ok s;
  strings_ToLower := ToLower;
  os_PublicBaseURL := "";
  os_PublicWebsiteBaseURL := "";
  rand_TriggerToken n := Ok ("trigger-" +:+ itoa (Z.of_nat n));
  http_CookieValue s := s;
  conn_fault _ _ := None;
|}.

Definition demo_payload_env : PayloadEnv := λ _, Ok "{}".

Definition demo_get (key : string) : HTTPRequest :=
  mkHTTPRequest "GET" "/" "" "" ∅ "/" "" "" "lecrev.dev" "127.0.0.1" {["X-Api-Key" := [key]]} None "{}" None.

(** ** Authentication *)

Section Authentication.
Context {E : GoEnv} {BE : BuildEnv} {HE : HttpEnv}.

(** The stored record a raw key is valid under. *)
Definition validKey (s : Store) (rawKey : string) : option APIKey :=
  let rawKey := TrimSpace rawKey in
  if bool_decide (rawKey = "") then None else
  record ← st_apiKeys s !! apikeyHash rawKey;
  if key_Disabled record || negb (bool_decide (key_KeyHash record = apikeyHash rawKey)) then None
  else Some record.

(** The caller a request authenticates. *)
Definition callerOf (s : Store) (r : HTTPRequest) : option authContext :=
  (λ record, mkAuthContext (key_TenantID record) (key_IsAdmin record)) <$> validKey s (apiKeyFromRequest r).

(** The store after a key was used: only the time of that key's last use is new. *)
Definition keyUsed (rawKey : string) (s s' : Store) : Prop :=
  ∃ record t, validKey s rawKey = Some record ∧
    s' = s <| st_apiKeys := <[apikeyHash (TrimSpace rawKey) := record <| key_LastUsedAt := t |>]> (st_apiKeys s) |>.

Local Ltac refuse_key := eexists _, _; split; [reflexivity|]; split; [|by eauto].

Lemma run_authenticateAPIKey (Hq : quiet E) rawKey w :
  match validKey (w_store w) rawKey with
  | Some record => ∃ w', authenticateAPIKey rawKey w =
      (Ok (inl (mkAuthContext (key_TenantID record) (key_IsAdmin record))), w') ∧
      same_state (w <| w_store := w_store w' |>) w' ∧ keyUsed rawKey (w_store w) (w_store w')
  | None => ∃ e w', authenticateAPIKey rawKey w = (Ok (inr e), w') ∧ same_state w w' ∧
      (e = errMissingAPIKey ∨ e = errInvalidAPIKey)
  end.
Proof.
  destruct (validKey (w_store w) rawKey) as [record|] eqn:Ev; pose proof Ev as Ev0; unfold validKey in Ev;
    unfold authenticateAPIKey, GetAPIKeyByHash.
  - destruct (bool_decide (TrimSpace rawKey = "")) eqn:Eb; [done|].
    destruct (st_apiKeys (w_store w) !! apikeyHash (TrimSpace rawKey)) as [rec|] eqn:El; [|done]. simpl in Ev.
    destruct (key_Disabled rec || _) eqn:Ed; [done|]. injection Ev as ->.
    erewrite run_bind by (apply run_try; by apply (run_find Hq)). cbn beta iota. rewrite Ed.
    erewrite run_bind by done. erewrite run_bind.
    2:{ eapply run_ignore. apply (run_call Hq). unfold TouchAPIKeyLastUsed. simpl. by rewrite El. }
    eexists. split; [done|]. split; [done|]. exists record. eexists. split; [done|]. done.
  - destruct (bool_decide (TrimSpace rawKey = "")) eqn:Eb; [by refuse_key|].
    destruct (st_apiKeys (w_store w) !! apikeyHash (TrimSpace rawKey)) as [rec|] eqn:El; simpl in Ev.
    + destruct (key_Disabled rec || _) eqn:Ed; [|done].
      erewrite run_bind by (apply run_try; by apply (run_find Hq)). cbn beta iota. rewrite Ed.
      by refuse_key.
    + erewrite run_bind by (apply run_try; by apply (run_find_none Hq)). by refuse_key.
Qed.

End Authentication.

(** ** Responses *)

(** Nothing but the responses in progress differs. *)
Definition conn_only (w w' : World) : Prop :=
  w_store w' = w_store w ∧ w_coords w' = w_coords w ∧ w_wake w' = w_wake w ∧ w_objects w' = w_objects w.

#[export] Instance conn_only_preorder : PreOrder conn_only.
Proof.
  split; [by intros w|]. intros w1 w2 w3 (A1 & A2 & A3 & A4) (B1 & B2 & B3 & B4). repeat split; congruence.
Qed.

Lemma same_conn_only w w' : same_state w w' → conn_only w w'.
Proof. by intros (H1 & H2 & H3 & H4 & H5). Qed.

(** The client got this status. *)
Definition answered (conn : string) (status : Z) (w : World) : Prop :=
  ∃ h, cn_Sent (connOf conn w) = Some (status, h).

Definition unanswered (conn : string) (w : World) : Prop := cn_Sent (connOf conn w) = None.

Section Responses.
Context {E : GoEnv} {BE : BuildEnv} {HE : HttpEnv}.

Lemma connOf_onConn conn f w : connOf conn (onConn conn f w) = f (connOf conn w).
Proof. unfold connOf, onConn. simpl. by rewrite lookup_insert_eq. Qed.

Lemma run_setHeader conn k v w : unanswered conn w →
  ∃ w', setHeader conn k v w = (Ok tt, w') ∧ conn_only w w' ∧ unanswered conn w'.
Proof.
  intros Hw. eexists. split; [reflexivity|]. split; [done|]. unfold unanswered. by rewrite connOf_onConn.
Qed.

Lemma run_addHeader conn k v w : unanswered conn w →
  ∃ w', addHeader conn k v w = (Ok tt, w') ∧ conn_only w w' ∧ unanswered conn w'.
Proof.
  intros Hw. eexists. split; [reflexivity|]. split; [done|]. unfold unanswered. by rewrite connOf_onConn.
Qed.

Lemma run_WriteHeader conn status w : validStatus status = true → unanswered conn w →
  ∃ w', WriteHeader conn status w = (Ok tt, w') ∧ conn_only w w' ∧ answered conn status w'.
Proof.
  intros Hs Hw. unfold WriteHeader. rewrite Hs. eexists. split; [reflexivity|]. split; [done|].
  eexists. rewrite connOf_onConn. unfold sendHeader. by rewrite Hw.
Qed.

Lemma run_ignoreWrite conn data status w : answered conn status w →
  ∃ w', ignore (Write conn data) w = (Ok tt, w') ∧ conn_only w w' ∧ answered conn status w'.
Proof.
  intros [h Hh]. unfold ignore, try, Write. unfold mbind, M_bind, modify, gets, fail. simpl.
  destruct (conn_fault _ _); eexists; (split; [reflexivity|]); (split; [done|]);
    exists h; rewrite ?connOf_onConn; unfold sendHeader; rewrite Hh; done.
Qed.

Lemma run_httpError conn msg status w : validStatus status = true → unanswered conn w →
  ∃ w', httpError conn msg status w = (Ok tt, w') ∧ conn_only w w' ∧ answered conn status w'.
Proof.
  intros Hs H0. unfold httpError.
  destruct (run_setHeader conn "Content-Type" "text/plain; charset=utf-8" w H0) as (w1 & E1 & C1 & H1).
  destruct (run_setHeader conn "X-Content-Type-Options" "nosniff" w1 H1) as (w2 & E2 & C2 & H2).
  destruct (run_WriteHeader conn status w2 Hs H2) as (w3 & E3 & C3 & H3).
  destruct (run_ignoreWrite conn (msg +:+ newline) status w3 H3) as (w4 & E4 & C4 & H4).
  exists w4. rewrite (run_bind _ _ _ _ _ E1), (run_bind _ _ _ _ _ E2), (run_bind _ _ _ _ _ E3), E4.
  split; [done|]. split; [|done]. by repeat (etrans; [eassumption|]).
Qed.

(** Every error has a valid status. *)
Lemma errorStatus_valid e : validStatus (errorStatus e) = true.
Proof. unfold errorStatus. by repeat case_match. Qed.

Lemma run_setCORSHeaders conn r w : unanswered conn w →
  ∃ w', setCORSHeaders conn r w = (Ok tt, w') ∧ conn_only w w' ∧ unanswered conn w'.
Proof.
  intros H0. eexists. split; [reflexivity|]. split; [done|].
  unfold unanswered. by rewrite !connOf_onConn.
Qed.

(** The rest of a handler after its headers. *)
Lemma run_withCORS conn r (next : WM unit) w (Q : result unit * World → Prop) :
  hr_Method r ≠ "OPTIONS" → unanswered conn w →
  (∀ w', conn_only w w' → unanswered conn w' → Q (next w')) → Q (withCORS conn r next w).
Proof.
  intros Hm Hw HQ. unfold withCORS. destruct (run_setCORSHeaders conn r w Hw) as (w' & E' & C' & H').
  rewrite (run_bind _ _ _ _ _ E'), bool_decide_eq_false_2 by done. by apply HQ.
Qed.

End Responses.

(** ** Authentication of the interface *)

(** C5: The authentication of [/v1].  A request whose key is stored, enabled and
    filed under its own hash is handled with exactly the tenant and the rights
    of that key, after the key's time of last use was recorded and nothing else
    was changed.  Any other request (no key, a blank one, an unknown or
    disabled one) is answered with 401 by the middleware, the handler does not
    run, and the state stays as it was. *)
Theorem authentication_spec (E : GoEnv) (BE : BuildEnv) (HE : HttpEnv) (srv : Server) (ep : Endpoint)
    (r : HTTPRequest) (w : World) :
  quiet E →
  match callerOf (w_store w) r with
  | Some auth => ∃ w', replyV1 srv ep r w = handle srv ep auth r w' ∧
      same_state (w <| w_store := w_store w' |>) w' ∧ keyUsed (apiKeyFromRequest r) (w_store w) (w_store w')
  | None => ∃ msg w', replyV1 srv ep r w = (Ok (ReplyError 401 msg), w') ∧ same_state w w'
  end.
Proof.
  intros Hq. pose proof (run_authenticateAPIKey Hq (apiKeyFromRequest r) w) as Ha. unfold callerOf, replyV1.
  destruct (validKey _ _) as [record|]; simpl.
  - destruct Ha as (w' & Ew & Hs & Hu). exists w'. by rewrite (run_bind _ _ _ _ _ Ew).
  - destruct Ha as (e & w' & Ew & Hs & He). rewrite (run_bind _ _ _ _ _ Ew).
    destruct He as [-> | ->]; by eexists _, w'.
Qed.

Definition demo_key : APIKey := mkAPIKey "sha:k1" "t1" "" false false 1 0.
Definition demo_http_server : Server := mkServer demo_cfg demo_build_cfg ∅.
Definition demo_http_world : World := NewWorld <| w_store := NewStore
  <| st_apiKeys := {["sha:k1" := demo_key]} |> <| st_projects := {["p1" := mkProject "p1" "t1" "one" 1]} |> |>.

(** A key that is known, and one that is not. *)
Lemma authentication_spec_witness :
  (∃ w', @replyV1 demo_env demo_build_env demo_http_env demo_http_server (EpGetProject "p1") (demo_get "k1")
           demo_http_world =
         @handle demo_env demo_build_env demo_http_env demo_http_server (EpGetProject "p1")
           (mkAuthContext "t1" false) (demo_get "k1") w') ∧
  (∃ msg w', @replyV1 demo_env demo_build_env demo_http_env demo_http_server (EpGetProject "p1") (demo_get "k2")
               demo_http_world = (Ok (ReplyError 401 msg), w')).
Proof.
  split.
  - destruct (authentication_spec demo_env demo_build_env demo_http_env demo_http_server (EpGetProject "p1")
      (demo_get "k1") demo_http_world demo_quiet) as (w' & H & _). by exists w'.
  - destruct (authentication_spec demo_env demo_build_env demo_http_env demo_http_server (EpGetProject "p1")
      (demo_get "k2") demo_http_world demo_quiet) as (msg & w' & H & _). by exists msg, w'.
Defined.

(** ** The guard of function addresses *)

Section Guard.
Context {E : GoEnv} {BE : BuildEnv} {HE : HttpEnv} {PE : PayloadEnv}.

(** Whether the caller may use a function address: the address is public, or
    the request has a valid key of an administrator or of the tenant that owns
    the function's project. *)
Definition mayInvoke (s : Store) (r : HTTPRequest) (trigger : HTTPTrigger) : bool :=
  match ht_AuthMode trigger with
  | HTTPTriggerAuthModeNone => true
  | HTTPTriggerAuthModeAPIKey =>
      match callerOf s r, st_functions s !! ht_FunctionVersionID trigger with
      | Some auth, Some version =>
          match st_projects s !! fv_ProjectID version with
          | Some project => auth_IsAdmin auth || bool_decide (prj_TenantID project = auth_TenantID auth)
          | None => false
          end
      | _, _ => false
      end
  end.

(** What a turnedAway request leaves behind. *)
Definition turnedAway (conn rawKey : string) (w : World) (res : result unit * World) : Prop :=
  res.1 = Ok tt ∧ (∃ status, answered conn status res.2 ∧ status ∈ [401; 403; 404]%Z) ∧
  conn_only (w <| w_store := w_store res.2 |>) res.2 ∧
  (w_store res.2 = w_store w ∨ keyUsed rawKey (w_store w) (w_store res.2)).

Lemma refuse conn rawKey w w1 msg status :
  unanswered conn w1 → conn_only (w <| w_store := w_store w1 |>) w1 →
  w_store w1 = w_store w ∨ keyUsed rawKey (w_store w) (w_store w1) →
  status ∈ [401; 403; 404]%Z → turnedAway conn rawKey w (httpError conn msg status w1).
Proof.
  intros Hu (C1 & C2 & C3 & C4) Hs Hst.
  destruct (run_httpError conn msg status w1) as (w2 & E2 & (D1 & D2 & D3 & D4) & Ha); [|done|].
  { by rewrite !elem_of_cons, elem_of_nil in Hst; destruct Hst as [-> |[-> |[-> |[]]]]. }
  rewrite E2. split; [done|]. split; [by exists status|]. simpl in *. rewrite D1. split; [|done].
  repeat split; simpl; congruence.
Qed.

Lemma unanswered_same conn w w' : same_state w w' → unanswered conn w → unanswered conn w'.
Proof. intros (_ & _ & _ & _ & H5). unfold unanswered, connOf. by rewrite H5. Qed.

Lemma keyUsed_tables rawKey s s' : keyUsed rawKey s s' →
  st_functions s' = st_functions s ∧ st_projects s' = st_projects s.
Proof. by intros (record & t & _ & ->). Qed.

(** The error a caller gets who may not use the address. *)
Lemma run_authorize_refused (Hq : quiet E) auth version w :
  match st_projects (w_store w) !! fv_ProjectID version with
  | Some project => auth_IsAdmin auth || bool_decide (prj_TenantID project = auth_TenantID auth)
  | None => false
  end = false →
  ∃ e w', authorizeProject auth (fv_ProjectID version) w = (Err e, w') ∧ same_state w w' ∧
    errorStatus e ∈ [401; 403; 404]%Z.
Proof.
  intros Hp. unfold authorizeProject, authorizedProject, GetProject.
  destruct (st_projects (w_store w) !! fv_ProjectID version) as [project|] eqn:Ep.
  - apply orb_false_iff in Hp as [Ha Ht]. eexists _, _. erewrite run_bind_err; [split; [done|]|].
    2:{ erewrite run_bind by (by apply (run_find Hq)). by rewrite Ha, Ht. }
    split; [done|]. vm_compute. set_solver.
  - eexists _, _. erewrite run_bind_err; [split; [done|]|].
    2:{ erewrite run_bind_err by (by apply (run_find_none Hq)). done. }
    split; [done|]. unfold notFound. set_solver.
Qed.

Lemma guard_invoke (Hq : quiet E) srv conn r waits token trigger w :
  st_httpTriggers (w_store w) !! token = Some trigger → ht_Enabled trigger = true →
  mayInvoke (w_store w) r trigger = false → unanswered conn w →
  turnedAway conn (apiKeyFromRequest r) w (invokeHTTPTrigger srv conn r waits token w).
Proof.
  intros Ht He Hm Hu. unfold invokeHTTPTrigger, GetHTTPTrigger.
  erewrite run_bind by done. erewrite run_bind by (apply run_try; by apply (run_find Hq)).
  cbn beta iota. rewrite He. unfold authContextForHTTPTrigger. unfold mayInvoke in Hm.
  destruct (ht_AuthMode trigger); [done|].
  set (w1 := w <| w_tick := S (w_tick w) |> <| w_calls := S (w_calls w) |>).
  change (_ <| w_calls := _ |>) with w1.
  pose proof (run_authenticateAPIKey Hq (apiKeyFromRequest r) w1) as Ha. unfold callerOf in Hm.
  change (w_store w1) with (w_store w) in Ha. destruct (validKey _ _) as [record|] eqn:Ev; simpl in Hm.
  - destruct Ha as (w2 & E2 & S2 & U2). erewrite run_bind by (by erewrite run_bind).
    cbn beta iota. pose proof (keyUsed_tables _ _ _ U2) as [Ef Ep].
    assert (unanswered conn w2) as Hu2 by (by eapply unanswered_same; [exact S2|]).
    assert (∀ w3, same_state w2 w3 → ∀ e, errorStatus e ∈ [401; 403; 404]%Z →
      turnedAway conn (apiKeyFromRequest r) w (writeServiceError conn e w3)) as Hr.
    { intros w3 S3 e Hst. apply refuse; [by eapply unanswered_same| | |done].
      - destruct S2 as (_ & A2 & A3 & A4 & _), S3 as (B1 & B2 & B3 & B4 & _). repeat split; simpl in *; congruence.
      - right. destruct S3 as (-> & _). done. }
    unfold GetFunctionVersion. rewrite <- Ef in Hm.
    destruct (st_functions (w_store w2) !! _) as [version|] eqn:Evn.
    + erewrite run_bind by (apply run_try; by apply (run_find Hq)). cbn beta iota. rewrite <- Ep in Hm.
      set (w3 := w2 <| w_calls := S (w_calls w2) |>).
      destruct (run_authorize_refused Hq (mkAuthContext (key_TenantID record) (key_IsAdmin record)) version w3 Hm)
        as (e & w4 & E4 & S4 & H4).
      erewrite run_bind by (by apply run_try). by apply Hr.
    + erewrite run_bind by (apply run_try; by apply (run_find_none Hq)). apply Hr; [done|]. set_solver.
  - destruct Ha as (e & w2 & E2 & S2 & Hk). erewrite run_bind by (by erewrite run_bind). cbn beta iota.
    assert (unanswered conn w2) as Hu2 by (by eapply unanswered_same).
    destruct S2 as (A1 & A2 & A3 & A4 & A5).
    destruct Hk as [-> | ->]; (apply refuse; [done| |by left|set_solver]); repeat split; simpl in *; congruence.
Qed.

End Guard.

(** C6: A function address that asks for an API key is guarded.  When the
    address exists, is enabled and asks for a key, and the request has no valid
    key of an administrator or of the owning tenant, the client is answered
    with 401, 403 or 404 and nothing is executed: no record of the store
    changes except the time of last use of a key that was valid, no region, no
    wake-up signal and no stored object changes. *)
Theorem trigger_guard (E : GoEnv) (BE : BuildEnv) (HE : HttpEnv) (PE : PayloadEnv) (srv : Server)
    (conn : string) (r : HTTPRequest) (waits : nat * GoError) (token : string) (trigger : HTTPTrigger)
    (w : World) :
  quiet E → st_httpTriggers (w_store w) !! token = Some trigger → ht_Enabled trigger = true →
  mayInvoke (w_store w) r trigger = false → unanswered conn w → hr_Method r ≠ "OPTIONS" →
  turnedAway conn (apiKeyFromRequest r) w (serve srv conn r waits (RouteTrigger token) w).
Proof.
  intros Hq Ht He Hm Hu Ho. unfold serve. apply run_withCORS; [done..|].
  intros w' C' Hu'. pose proof C' as (A1 & A2 & A3 & A4).
  destruct (guard_invoke Hq srv conn r waits token trigger w') as (H1 & H2 & H3 & H4); rewrite ?A1; [done..|].
  split; [done|]. split; [done|]. rewrite A1 in H4. split; [|done].
  destruct H3 as (B1 & B2 & B3 & B4). repeat split; simpl in *; congruence.
Qed.

Definition guarded_world (mode : HTTPTriggerAuthMode) (enabled : bool) : World := NewWorld <| w_store := NewStore
  <| st_apiKeys := {["sha:k1" := demo_key]} |>
  <| st_projects := {["p1" := mkProject "p1" "t2" "one" 1]} |>
  <| st_functions := {["v1" := demo_version]} |> <| st_artifacts := {["sha256:a" := demo_artifact]} |>
  <| st_httpTriggers := {["tok" := mkHTTPTrigger "tok" "p1" "v1" "" mode enabled 1]} |> |>.

(** Another tenant's key. *)
Lemma trigger_guard_witness :
  @turnedAway demo_env "c" "k1" (guarded_world HTTPTriggerAuthModeAPIKey true)
    (@serve demo_env demo_build_env demo_http_env demo_payload_env demo_http_server "c" (demo_get "k1")
       (0, sentinel ContextDeadlineExceeded) (RouteTrigger "tok") (guarded_world HTTPTriggerAuthModeAPIKey true)).
Proof.
  apply (trigger_guard demo_env demo_build_env demo_http_env demo_payload_env demo_http_server "c" (demo_get "k1")
    (0, sentinel ContextDeadlineExceeded) "tok" (mkHTTPTrigger "tok" "p1" "v1" "" HTTPTriggerAuthModeAPIKey true 1));
    done.
Defined.

(** The world above with a website behind the version, and a request that
    carries no key. *)
Definition site_world : World := (guarded_world HTTPTriggerAuthModeAPIKey false)
  <| w_objects := {["" := {[SiteManifestKey (fv_ArtifactDigest demo_version) := "site"]}]} |>.
Definition anonymous : HTTPRequest := (demo_get "") <| hr_Header := ∅ |>.

(** The guard does not cover websites.  The only address of version [v1]
    asks for a key and is disabled, and the request carries no key; the address
    itself is refused, and yet the same request to [/w/v1] executes the version:
    an execution job for [v1] is stored. *)
Theorem website_without_key :
  let serve := @serve demo_env demo_build_env demo_http_env demo_payload_env demo_http_server "c" anonymous
    (0, sentinel ContextDeadlineExceeded) in
  @mayInvoke demo_env (w_store site_world) anonymous
    (mkHTTPTrigger "tok" "p1" "v1" "" HTTPTriggerAuthModeAPIKey false 1) = false ∧
  st_executionJobs (w_store (serve (RouteTrigger "tok") site_world).2) = ∅ ∧
  map_to_list (job_FunctionVersionID <$> st_executionJobs (w_store (serve (RouteWebsite "v1") site_world).2)) =
    [("uuid-0", "v1")].
Proof. by vm_compute. Qed.

(** ** Project identifiers *)

(** Groups of small letters and digits with single dashes between them;
    [lastDash] when a group has to follow. *)
Fixpoint slugForm (lastDash : bool) (s : string) : bool :=
  match s with
  | EmptyString => negb lastDash
  | String a s' =>
      if Ascii.eqb a dash then negb lastDash && slugForm true s'
      else isSlugByte a && slugForm false s'
  end.

(** The same with a dash at the end allowed. *)
Fixpoint slugPrefix (lastDash : bool) (s : string) : bool :=
  match s with
  | EmptyString => true
  | String a s' =>
      if Ascii.eqb a dash then negb lastDash && slugPrefix true s'
      else isSlugByte a && slugPrefix false s'
  end.

(** What holds of the 256 bytes, by looking at each. *)
Ltac all_bytes a := destruct a as [[] [] [] [] [] [] [] []]; vm_compute; done.

Lemma slugByte_dash a : isSlugByte a = true → Ascii.eqb a dash = false.
Proof. all_bytes a. Qed.

Lemma slug_prefix started lastDash s : (started = false → lastDash = false) →
  slugPrefix (negb started || lastDash) (slug started lastDash s) = true.
Proof.
  revert started lastDash. induction s as [|a s IH]; intros started lastDash Hs; [done|]. simpl.
  destruct (isSlugByte a) eqn:Ea; simpl.
  - rewrite (slugByte_dash a Ea), Ea. simpl. by apply (IH true false).
  - destruct started, lastDash; simpl; [by apply (IH true true)|by apply (IH true true)| |by apply (IH false false)].
    by specialize (Hs eq_refl).
Qed.

Lemma trimDashesLeft_prefix s : slugPrefix true s = true → trimDashesLeft s = s.
Proof. destruct s as [|a s]; [done|]. simpl. by destruct (Ascii.eqb a dash). Qed.

Lemma trimDashesRight_form s lastDash : slugPrefix lastDash s = true →
  trimDashesRight s = "" ∨ slugForm lastDash (trimDashesRight s) = true.
Proof.
  revert lastDash. induction s as [|a s IH]; intros lastDash Hs; [by left|]. simpl in *.
  destruct (Ascii.eqb a dash) eqn:Ea.
  - apply andb_true_iff in Hs as [Hd Hs]. destruct (IH true Hs) as [-> |Hf]; [by left|].
    destruct (trimDashesRight s); [by left|]. right. simpl in *. by rewrite Ea, Hd.
  - apply andb_true_iff in Hs as [Hb Hs]. right. destruct (IH false Hs) as [-> |Hf]; simpl.
    + by rewrite Ea, Hb.
    + destruct (trimDashesRight s); simpl in *; by rewrite Ea, Hb.
Qed.

(** A byte that trimming and lowering leave alone. *)
Definition plainByte (a : ascii) : bool := isSlugByte a || Ascii.eqb a dash.

Lemma plain_space1 a : plainByte a = true → space1 a = false.
Proof. all_bytes a. Qed.
Lemma plain_lower a : plainByte a = true → ascii_lower a = a.
Proof. all_bytes a. Qed.
Lemma plain_high a n : plainByte a = true → (128 <= n)%N → byte_eqb a n = false.
Proof.
  intros Ha Hn. assert (N_of_ascii a < 128)%N as Hl by (revert Ha; all_bytes a).
  unfold byte_eqb. apply N.eqb_neq. lia.
Qed.

Lemma plain_spaces a b c : plainByte a = true →
  space2 a b = false ∧ space2 b a = false ∧ space3 a b c = false ∧ space3 c b a = false.
Proof.
  intros Ha. unfold space2, space3. assert (N_of_ascii a < 128)%N as Hl by (revert Ha; all_bytes a).
  unfold byte_eqb. split_and!; apply not_true_is_false; intros Hb; cbv zeta in Hb;
    rewrite ?orb_true_iff, ?andb_true_iff, ?orb_true_iff, ?andb_true_iff, ?N.eqb_eq, ?N.leb_le in Hb; lia.
Qed.

Lemma trim_front_plain sp1 sp2 sp3 s :
  (∀ a, plainByte a = true → sp1 a = false) →
  (∀ a b c, plainByte a = true → sp2 a b = false ∧ sp3 a b c = false) →
  allBytes plainByte s = true → trim_front sp1 sp2 sp3 s = s.
Proof.
  intros H1 H23 Hs. destruct s as [|a [|b [|c s]]]; simpl in *; [done|..];
    apply andb_true_iff in Hs as [Ha _]; rewrite (H1 a Ha); [done|..].
  - by rewrite (proj1 (H23 a b b Ha)).
  - destruct (H23 a b c Ha) as [-> ->]. done.
Qed.

Lemma allBytes_rev_app p s t :
  allBytes p (String.rev_app s t) = allBytes p s && allBytes p t.
Proof. revert t. induction s as [|a s IH]; intros t; simpl; [done|]. rewrite IH. simpl. by destruct (p a), (allBytes p s). Qed.

Lemma rev_app_rev s t u : String.rev_app (String.rev_app s t) u = String.rev_app t (s +:+ u).
Proof. revert t u. induction s as [|a s IH]; intros t u; simpl; [done|]. by rewrite IH. Qed.

Lemma TrimSpace_plain s : allBytes plainByte s = true → TrimSpace s = s.
Proof.
  intros Hs. unfold TrimSpace, TrimLeftSpace, TrimRightSpace.
  rewrite (trim_front_plain space1 space2 space3 s); [|apply plain_space1|intros a b c Ha; split; by apply (plain_spaces a b c)|done].
  rewrite trim_front_plain; [|apply plain_space1|intros a b c Ha; split; by apply (plain_spaces a b c)|].
  - unfold String.rev. rewrite rev_app_rev. simpl. apply string_app_nil_r.
  - unfold String.rev. by rewrite allBytes_rev_app, Hs.
Qed.

Lemma ToLower_plain s : allBytes plainByte s = true → ToLower s = s.
Proof.
  intros Hs. assert (lowerOrbit s = s) as Ho.
  { induction s as [|a s IH]; [done|]. simpl in Hs. apply andb_true_iff in Hs as [Ha Hs].
    destruct s as [|b s]; [done|]. specialize (IH Hs). cbn [lowerOrbit].
    rewrite (plain_high a 196 Ha), (plain_high a 226 Ha) by lia. cbn [andb].
    destruct s as [|c s]; f_equal; exact IH. }
  unfold ToLower. rewrite Ho. clear Ho. unfold ToLowerASCII.
  induction s as [|a s IH]; [done|]. simpl in *. apply andb_true_iff in Hs as [Ha Hs].
  by rewrite (plain_lower a Ha), IH.
Qed.

Lemma slugForm_plain lastDash s : slugForm lastDash s = true → allBytes plainByte s = true.
Proof.
  revert lastDash. induction s as [|a s IH]; intros lastDash Hs; [done|]. simpl in *. unfold plainByte at 1.
  destruct (Ascii.eqb a dash); apply andb_true_iff in Hs as [Hb Hs]; rewrite (IH _ Hs);
    [by rewrite orb_true_r|by rewrite Hb].
Qed.

Lemma slug_form started lastDash s :
  slugForm (negb started || lastDash) s = true → slug started lastDash s = s.
Proof.
  revert started lastDash. induction s as [|a s IH]; intros started lastDash Hs; [done|]. simpl in *.
  destruct (Ascii.eqb_spec a dash) as [->|Hne].
  - apply andb_true_iff in Hs as [Hd Hs]. destruct started, lastDash; try done. simpl.
    f_equal. by apply IH.
  - apply andb_true_iff in Hs as [Hb Hs]. rewrite Hb. f_equal. by apply IH.
Qed.

Lemma trimDashesRight_id lastDash s : slugForm lastDash s = true → trimDashesRight s = s.
Proof.
  revert lastDash. induction s as [|a s IH]; intros lastDash Hs; [done|]. simpl in *.
  destruct (Ascii.eqb a dash) eqn:Ea; apply andb_true_iff in Hs as [Hb Hs]; rewrite (IH _ Hs); by destruct s.
Qed.

(** Project identifiers are canonical.  Whatever identifier and name a
    client sends, the identifier of the project is empty (and refused) or
    consists of groups of small ASCII letters and digits with single dashes
    between them; an identifier of that form is kept as it is, so normalizing
    is idempotent. *)
Theorem project_id_spec (rawID name : string) :
  (normalizeProjectID rawID name = "" ∨ slugForm true (normalizeProjectID rawID name) = true) ∧
  (∀ id, slugForm true id = true → normalizeProjectID id name = id) ∧
  (normalizeProjectID rawID name ≠ "" →
   normalizeProjectID (normalizeProjectID rawID name) name = normalizeProjectID rawID name).
Proof.
  assert (∀ id, slugForm true id = true → normalizeProjectID id name = id) as Hfix.
  { intros id Hid. pose proof (slugForm_plain _ _ Hid) as Hp. unfold normalizeProjectID.
    rewrite (TrimSpace_plain _ Hp). rewrite bool_decide_eq_false_2 by (by intros ->).
    rewrite (ToLower_plain _ Hp), (slug_form false false id Hid).
    rewrite trimDashesLeft_prefix; [by apply (trimDashesRight_id true)|].
    rewrite <- (slug_form false false id Hid). by apply (slug_prefix false false). }
  assert (normalizeProjectID rawID name = "" ∨ slugForm true (normalizeProjectID rawID name) = true) as Hform.
  { unfold normalizeProjectID. set (source := if bool_decide (TrimSpace rawID = "") then name else TrimSpace rawID).
    pose proof (slug_prefix false false (ToLower source) (λ _, eq_refl)) as Hp. simpl in Hp.
    rewrite (trimDashesLeft_prefix _ Hp). by apply trimDashesRight_form. }
  split; [done|]. split; [done|]. intros Hne. destruct Hform as [|Hform]; [done|by apply Hfix].
Qed.
