(* ===== verification/HttpStream.v ===== *)
(** * HttpStream: what a client receives

    The bytes and the status of a response, for a streamed function
    ([httpDirectStreamWriter] of [internal/httpapi/server.go]) and for a
    buffered one ([writeHTTPResponseBody]), over a connection that does not
    break. *)

From Stdlib Require Import Ascii.
From stdpp Require Import base decidable tactics numbers list gmap strings sorting.
From S2P Require Import Prelude Text Domain MemStore World Scheduler SchedulerFacts.
From S2P Require Import Artifacts Files Archive BuildTools NextSite Workspace Build BuildFacts Http HttpApi HttpPublic HttpFacts.

(** ** What the events of a stream describe *)





Section Stream.
Context {E : GoEnv} {BE : BuildEnv} {HE : HttpEnv}.
Context (Hconn : ∀ conn n, conn_fault conn n = None) (sw : httpDirectStreamWriter).

Abbreviation conn := (sw_conn sw).



Definition runs (m : WM unit) (w w' : World) : Prop := m w = (Ok tt, w').

Lemma runs_bind m (k : unit → WM unit) w w1 w2 : runs m w w1 → runs (k tt) w1 w2 → runs (m ≫= k) w w2.
Proof. unfold runs. intros E1 E2. by rewrite (run_bind _ _ _ _ _ E1). Qed.
















End Stream.




(** A status code of the function that HTTP does not know ends the handler in a
    panic. *)
Lemma stream_bad_status_panics {E : GoEnv} {BE : BuildEnv} {HE : HttpEnv} sw code chunk w :
  sw_closed (connOf (sw_conn sw) w) = false → sw_started (connOf (sw_conn sw) w) = false →
  (0 < code)%Z → validStatus code = false →
  (HandleEvent sw (mkHTTPStreamEvent "http_start" code ∅ chunk) w).1 =
    Err (plainErr ("panic: invalid WriteHeader code " +:+ itoa code)).
Proof.
  intros Hc Hs Hp Hv. unfold HandleEvent. erewrite run_bind by done. rewrite Hc, Hs. simpl.
  erewrite run_bind by done. rewrite (proj2 (Z.ltb_lt 0 code) Hp). erewrite run_bind by done.
  assert (map_iter 1463 (∅ : gmap string string) = []) as -> by (apply Permutation_nil; by rewrite map_iter_perm).
  erewrite run_bind by done. erewrite run_bind by done. rewrite connOf_onConn. simpl.
  unfold WriteHeader. by rewrite Hv.
Qed.

(** ** Buffered responses *)

Lemma substring_nil n m : String.substring n m "" = "".
Proof. by destruct n, m. Qed.

Lemma substring_app n a b s :
  String.substring n a s +:+ String.substring (n + a) b s = String.substring n (a + b) s.
Proof.
  revert n a. induction s as [|x s IH]; intros n a; [by rewrite !substring_nil|].
  destruct n as [|n]; [destruct a as [|a]|]; simpl; [done| |apply IH].
  rewrite string_app_cons. f_equal. apply (IH 0).
Qed.

Lemma substring_long n a b s :
  String.length s ≤ n + a → String.length s ≤ n + b → String.substring n a s = String.substring n b s.
Proof.
  revert n a b. induction s as [|x s IH]; intros n a b Ha Hb; [by rewrite !substring_nil|]. simpl in *.
  destruct n as [|n]; simpl; [|apply IH; lia].
  destruct a as [|a], b as [|b]; [lia..|]. f_equal. apply IH; lia.
Qed.

Lemma substring_0_all s : String.substring 0 (String.length s) s = s.
Proof. induction s as [|x s IH]; simpl; [done|]. by rewrite IH. Qed.

Section Buffered.
Context {E : GoEnv} {BE : BuildEnv} {HE : HttpEnv} (Hconn : ∀ conn n, conn_fault conn n = None).

(** The header is out with some status and the body has grown by [data]. *)
Definition wrote (conn data : string) (w w' : World) : Prop :=
  conn_only w w' ∧ cn_Body (connOf conn w') = cn_Body (connOf conn w) +:+ data ∧
  cn_Sent (connOf conn w') = cn_Sent (sendHeader 200 (connOf conn w)).

Lemma run_Write conn data w : ∃ w', runs (Write conn data) w w' ∧ wrote conn data w w'.
Proof.
  eexists. split; [|split; [|split]].
  - unfold runs, Write. erewrite run_bind by done. erewrite run_bind by done. by rewrite Hconn.
  - done.
  - rewrite !connOf_onConn. simpl. unfold sendHeader. by destruct (cn_Sent _).
  - by rewrite !connOf_onConn.
Qed.

Lemma wrote_trans conn a b w w' w'' : wrote conn a w w' → wrote conn b w' w'' → wrote conn (a +:+ b) w w''.
Proof.
  intros (C1 & B1 & S1) (C2 & B2 & S2). split; [by etrans|]. rewrite B2, B1, string_app_assoc. split; [done|].
  rewrite S2, <- S1. unfold sendHeader at 1. destruct (cn_Sent (connOf conn w')) eqn:Ew; [by rewrite Ew|].
  exfalso. revert S1. unfold sendHeader. by destruct (cn_Sent (connOf conn w)) eqn:E0; rewrite ?E0.
Qed.

(** The loop writes what is left of the body. *)
Lemma run_writeChunks conn body n offset w :
  (0 ≤ offset < Z.of_nat (String.length body))%Z →
  (Z.of_nat (String.length body) ≤ offset + Z.of_nat n * streamChunkSize)%Z →
  ∃ w', runs (writeChunks n conn body offset) w w' ∧
    wrote conn (String.substring (Z.to_nat offset) (String.length body) body) w w'.
Proof.
  revert offset w. induction n as [|n IH]; intros offset w Ho Hn; [lia|]. cbn [writeChunks].
  rewrite (proj2 (Z.ltb_lt _ _) (proj2 Ho)).
  set (chunk := String.substring (Z.to_nat offset) (Z.to_nat streamChunkSize) body).
  destruct (run_Write conn chunk w) as (w1 & E1 & W1).
  assert (0 < streamChunkSize)%Z as Hc by done.
  destruct (decide (offset + streamChunkSize < Z.of_nat (String.length body))%Z) as [Hlt|Hge].
  - destruct (IH (offset + streamChunkSize)%Z w1) as (w2 & E2 & W2); [lia..|].
    exists w2. split; [by eapply runs_bind|]. pose proof (wrote_trans _ _ _ _ _ _ W1 W2) as W.
    rewrite Z2Nat.inj_add in W by lia. unfold chunk in W. rewrite substring_app in W.
    rewrite (substring_long _ (String.length body) (Z.to_nat streamChunkSize + String.length body)) by lia. done.
  - exists w1. split.
    + eapply runs_bind; [done|]. destruct n as [|n]; [done|]. cbn [writeChunks].
      by rewrite (proj2 (Z.ltb_ge _ _)) by lia.
    + unfold chunk in W1. rewrite (substring_long _ _ (String.length body)) in W1 by lia. done.
Qed.

End Buffered.

(** A body is written whole.  However large it is, and whether it goes out
    at once or in chunks of 256 KiB, the bytes the client gets are the body's,
    in order and once, the loop over the chunks ends, and the status that was
    sent stays as it was (200 when none was, nothing for an empty body). *)
Theorem response_body_spec (E : GoEnv) (BE : BuildEnv) (HE : HttpEnv) (conn body : string) (w : World) :
  (∀ conn n, conn_fault conn n = None) →
  ∃ w', writeHTTPResponseBody conn body w = (Ok tt, w') ∧
    cn_Body (connOf conn w') = cn_Body (connOf conn w) +:+ body ∧
    fst <$> cn_Sent (connOf conn w') =
      (if bool_decide (body = "") then fst <$> cn_Sent (connOf conn w)
       else Some (default 200%Z (fst <$> cn_Sent (connOf conn w)))).
Proof.
  intros Hf. unfold writeHTTPResponseBody. destruct (bool_decide_reflect (body = "")) as [->|Hne].
  { exists w. by rewrite string_app_nil_r. }
  assert (∃ w', runs (if (Z.of_nat (String.length body) <? streamThreshold)%Z then Write conn body
                      else writeChunks (String.length body) conn body 0) w w' ∧ wrote conn body w w')
    as (w' & E' & _ & Hb & Hs).
  { destruct (_ <? _)%Z; [by apply run_Write|].
    destruct (run_writeChunks Hf conn body (String.length body) 0 w) as (w' & E' & W').
    - destruct body; [done|]. simpl. lia.
    - unfold streamChunkSize. lia.
    - exists w'. split; [done|]. by rewrite substring_0_all in W'. }
  exists w'. split; [exact E'|]. split; [done|]. rewrite Hs. unfold sendHeader. by destruct (cn_Sent (connOf conn w)) eqn:Ew; rewrite ?Ew.
Qed.

Lemma response_body_spec_witness :
  ∃ w', @writeHTTPResponseBody demo_http_env "c" "hello" NewWorld = (Ok tt, w') ∧
    cn_Body (connOf "c" w') = "hello" ∧ fst <$> cn_Sent (connOf "c" w') = Some 200%Z.
Proof. by apply (response_body_spec demo_env demo_build_env demo_http_env "c" "hello" NewWorld). Defined.
