(* ===== verification/Tenancy.v ===== *)
(** * Tenancy: a tenant sees only its own data

    The abstract specification of the reading half of the HTTP interface is a
    server that holds the data of one tenant only ([view]).  The real server,
    which holds everybody's data, refines it: to every reading request it gives
    the answer of the private server, except that it may refuse with
    "forbidden" what the private server does not find ([denied]), and that
    webhook triggers, which the code lists in map order, may come in another
    order ([reply_sim]).

    [sees V m1 m2] relates a run [m1] on the shared data with a run [m2] on the
    tenant's view. *)

From stdpp Require Import base decidable tactics numbers list gmap strings sorting.
From S2P Require Import Prelude Text Domain MemStore World Scheduler SchedulerFacts.
From S2P Require Import Artifacts Files Archive BuildTools NextSite Workspace Build BuildFacts Http HttpApi HttpFacts.

(** ** The view of a tenant *)

Section View.
Context (T : string) (s : Store).

Definition ownsProject (projectID : string) : bool :=
  match st_projects s !! projectID with
  | Some project => bool_decide (prj_TenantID project = T)
  | None => false
  end.

Definition ownsVersion (versionID : string) : bool :=
  match st_functions s !! versionID with
  | Some version => ownsProject (fv_ProjectID version)
  | None => false
  end.

Definition ownsJob (jobID : string) : bool :=
  match st_executionJobs s !! jobID with
  | Some job => ownsProject (job_ProjectID job)
  | None => false
  end.

Definition restrict {A} (p : A → bool) (m : gmap string A) : gmap string A :=
  filter (λ kx, p kx.2 = true) m.

Definition view : Store := s
  <| st_projects := restrict (λ p, bool_decide (prj_TenantID p = T)) (st_projects s) |>
  <| st_functions := restrict (λ v, ownsProject (fv_ProjectID v)) (st_functions s) |>
  <| st_buildJobs := restrict (λ j, ownsVersion (bj_FunctionVersionID j)) (st_buildJobs s) |>
  <| st_executionJobs := restrict (λ j, ownsProject (job_ProjectID j)) (st_executionJobs s) |>
  <| st_attempts := restrict (λ a, ownsJob (att_JobID a)) (st_attempts s) |>
  <| st_costRecords := restrict (λ c, ownsJob (cost_JobID c)) (st_costRecords s) |>
  <| st_webhookTriggers := restrict (λ t, ownsVersion (wt_FunctionVersionID t)) (st_webhookTriggers s) |>
  <| st_httpTriggers := restrict (λ t, ownsVersion (ht_FunctionVersionID t)) (st_httpTriggers s) |>
  <| st_idempotency := ∅ |> <| st_artifacts := ∅ |> <| st_apiKeys := ∅ |> <| st_hosts := ∅ |>.

End View.

Lemma lookup_restrict {A} (p : A → bool) (m : gmap string A) k :
  restrict p m !! k = match m !! k with Some x => if p x then Some x else None | None => None end.
Proof.
  unfold restrict. destruct (m !! k) as [x|] eqn:E.
  - destruct (p x) eqn:Ep.
    + by apply map_lookup_filter_Some.
    + apply map_lookup_filter_None. right. intros y Hy. simpl. congruence.
  - apply map_lookup_filter_None. by left.
Qed.

(** ** Listings of the view *)

Lemma select_perm_maps `{!MapOrder} {A} s1 s2 (p1 p2 : A → bool) (m1 m2 : gmap string A) :
  (∀ k x, m1 !! k = Some x ∧ p1 x = true ↔ m2 !! k = Some x ∧ p2 x = true) →
  select s1 p1 m1 ≡ₚ select s2 p2 m2.
Proof.
  intros Hm. unfold select. apply fmap_Permutation, NoDup_Permutation.
  - apply NoDup_filter. rewrite map_iter_perm. apply NoDup_map_to_list.
  - apply NoDup_filter. rewrite map_iter_perm. apply NoDup_map_to_list.
  - intros [k x]. rewrite !list_elem_of_filter, !map_iter_perm, !elem_of_map_to_list. simpl.
    specialize (Hm k x). tauto.
Qed.

Lemma select_sort_maps `{!MapOrder} {A} (id : A → string) (less : A → A → bool) `{!StrictWeakOrder less}
    s1 s2 (p1 p2 : A → bool) (m1 m2 : gmap string A) :
  keyed id m1 → (∀ x y, less x y = false → less y x = false → id x = id y) →
  (∀ k x, m1 !! k = Some x ∧ p1 x = true ↔ m2 !! k = Some x ∧ p2 x = true) →
  SliceStable less (select s1 p1 m1) = SliceStable less (select s2 p2 m2).
Proof.
  intros Hk Hl Hm. apply SliceStable_perm_eq; [done| |by apply select_perm_maps].
  intros x y Hx Hy H1 H2. eapply (select_keyed_inj id); eauto.
Qed.

(** ** Related runs *)

(** Errors a caller cannot tell apart from "no such thing". *)
Definition hidden (e : GoError) : Prop := errorStatus e = 403%Z ∨ errorStatus e = 404%Z.

Lemma hidden_notFound kind id : hidden (notFound kind id).
Proof. by right. Qed.

Lemma hidden_denied : hidden (sentinel ErrAccessDenied).
Proof. by left. Qed.

Definition denied (reply : Reply) : Prop :=
  match reply with ReplyError status _ => status = 403%Z ∨ status = 404%Z | _ => False end.

Definition reply_sim (a b : Reply) : Prop :=
  a = b ∨ (denied a ∧ denied b) ∨
  ∃ status l1 l2, a = ReplyJSON status (PWebhooks l1) ∧ b = ReplyJSON status (PWebhooks l2) ∧ l1 ≡ₚ l2.

#[export] Instance reply_sim_refl : Reflexive reply_sim.
Proof. by left. Qed.

Definition rel {A} (V : A → A → Prop) (r1 r2 : result A) : Prop :=
  match r1, r2 with
  | Ok a, Ok b => V a b
  | Err e1, Err e2 => e1 = e2 ∨ (hidden e1 ∧ hidden e2)
  | _, _ => False
  end.

(** The bodies of the reading handlers. *)
Ltac unfold_handlers :=
  unfold handle, listDeployments, getDeployment, getDeploymentLogs, getDeploymentOutput, listProjects, getProject,
    getProjectOverview, listProjectDeployments, listProjectFunctions, listProjectBuildJobs, listProjectJobs,
    getBuildJob, getBuildJobLogs, getJob, getJobLogs, getJobOutput, getFunction, getFunctionSite,
    getFunctionWarmStatus, listHTTPTriggers, listWebhookTriggers, listRegions, listWarmPools, listRegionHosts,
    listJobAttempts, listJobCosts; simpl.

Section Sees.
Context {E : GoEnv} {BE : BuildEnv} {HE : HttpEnv} (Hq : quiet E) (T : string) (s : Store).
Context (Hwf : store_wf s).

Record agree (w1 w2 : World) : Prop := {
  ag_store : w_store w1 = s;
  ag_view : w_store w2 = view T s;
  ag_objects : w_objects w2 = w_objects w1;
}.

Definition sees {A} (V : A → A → Prop) (m1 m2 : WM A) : Prop :=
  ∀ w1 w2, agree w1 w2 →
    agree (m1 w1).2 (m2 w2).2 ∧ rel V (m1 w1).1 (m2 w2).1.

Lemma sees_ret {A} (V : A → A → Prop) a b : V a b → sees V (mret a) (mret b).
Proof. by intros HV w1 w2 Hw. Qed.

Lemma sees_fail {A} (V : A → A → Prop) e : sees V (fail e) (fail e).
Proof. intros w1 w2 Hw. split; [done|by left]. Qed.

Lemma sees_bind {A B} (V : A → A → Prop) (U : B → B → Prop) (m1 m2 : WM A) (f1 f2 : A → WM B) :
  sees V m1 m2 → (∀ a b, V a b → sees U (f1 a) (f2 b)) → sees U (m1 ≫= f1) (m2 ≫= f2).
Proof.
  intros Hm Hf w1 w2 Hw. destruct (Hm w1 w2 Hw) as [Hw' Hr]. rewrite !M_bind_eq.
  destruct (m1 w1) as [[a|e1] w1'], (m2 w2) as [[b|e2] w2']; try done. by apply Hf.
Qed.

Lemma sees_mono {A} (V U : A → A → Prop) (m1 m2 : WM A) :
  sees V m1 m2 → (∀ a b, V a b → U a b) → sees U m1 m2.
Proof.
  intros Hm HV w1 w2 Hw. destruct (Hm w1 w2 Hw) as [Hw' Hr]. split; [done|].
  destruct (m1 w1).1, (m2 w2).1; simpl in *; auto.
Qed.

(** The error itself, when the caller inspects it. *)
Lemma sees_try_eq {A} (m : WM A) :
  (∀ w1 w2, agree w1 w2 → agree (m w1).2 (m w2).2 ∧ (m w1).1 = (m w2).1) →
  sees eq (try m) (try m).
Proof.
  intros Hm w1 w2 Hw. destruct (Hm w1 w2 Hw) as [Hw' Hr]. unfold try.
  destruct (m w1), (m w2). by split.
Qed.

Lemma sees_try {A} (V : A → A → Prop) (m1 m2 : WM A) : sees V m1 m2 → sees (rel V) (try m1) (try m2).
Proof.
  intros Hm w1 w2 Hw. destruct (Hm w1 w2 Hw) as [Hw' Hr]. unfold try. by destruct (m1 w1), (m2 w2).
Qed.

Lemma sees_orReply {A} (V : A → A → Prop) (m1 m2 : WM A) (k1 k2 : A → WM Reply) :
  sees V m1 m2 → (∀ a b, V a b → sees reply_sim (k1 a) (k2 b)) →
  sees reply_sim (orReply m1 k1) (orReply m2 k2).
Proof.
  intros Hm Hk w1 w2 Hw. destruct (Hm w1 w2 Hw) as [Hw' Hr]. unfold orReply, try. rewrite !M_bind_eq.
  destruct (m1 w1) as [[a|e1] w1'], (m2 w2) as [[b|e2] w2']; try done; [by apply Hk|].
  split; [done|]. simpl. destruct Hr as [->|[H1 H2]]; [by left|]. right. left. done.
Qed.

Lemma sees_orBadRequest {A} pre (r : result A) (k1 k2 : A → WM Reply) :
  (∀ a, sees reply_sim (k1 a) (k2 a)) → sees reply_sim (orBadRequest pre r k1) (orBadRequest pre r k2).
Proof. intros Hk. destruct r; simpl; [done|]. by apply sees_ret. Qed.

(** A store call with the same result on the view. *)
Lemma sees_read {A} (V : A → A → Prop) (op : StoreM A) :
  (op s).2 = s → (op (view T s)).2 = view T s → rel V (op s).1 (op (view T s)).1 →
  sees V (call op) (call op).
Proof.
  intros H1 H2 Hr w1 w2 [E1 E2 E3]. rewrite !(call_ok _ _ Hq). simpl. rewrite E1, E2. split; [|done].
  split; simpl; [done..|]. done.
Qed.

Lemma getObject_same key w1 w2 : agree w1 w2 →
  agree (getObject key w1).2 (getObject key w2).2 ∧ (getObject key w1).1 = (getObject key w2).1.
Proof.
  intros [E1 E2 E3]. unfold getObject. rewrite !(proj1 Hq). simpl. rewrite E3. done.
Qed.

Lemma sees_getObject key : sees eq (getObject key) (getObject key).
Proof.
  intros w1 w2 Hw. destruct (getObject_same key w1 w2 Hw) as [H1 H2]. split; [done|].
  rewrite H2. destruct (getObject key w2).1; simpl; [done|by left].
Qed.

(** ** Lookups *)

Lemma view_project id :
  st_projects (view T s) !! id = match st_projects s !! id with
    | Some p => if bool_decide (prj_TenantID p = T) then Some p else None | None => None end.
Proof. apply lookup_restrict. Qed.

Abbreviation auth := (mkAuthContext T false).

(** On the shared data, a computation that ends in a hidden error. *)
Definition denies {A} (m : WM A) : Prop :=
  ∀ w, w_store w = s →
    w_store (m w).2 = s ∧ w_objects (m w).2 = w_objects w ∧ ∃ e, (m w).1 = Err e ∧ hidden e.

Lemma denies_bind {A B} (m : WM A) (f : A → WM B) : denies m → denies (m ≫= f).
Proof.
  intros Hm w Hw. destruct (Hm w Hw) as (H1 & H2 & e & He & Hh). rewrite M_bind_eq.
  destruct (m w) as [[a|e'] w']; simpl in *; [done|]. split; [done|]. split; [done|]. exists e. split; [congruence|done].
Qed.

Lemma denies_find {A B} (proj : Store → gmap string A) kind id (k : A → WM B) :
  (∀ x, proj s !! id = Some x → denies (k x)) → denies (call (find proj kind id) ≫= k).
Proof.
  intros Hk w Hw. rewrite M_bind_eq. destruct (proj s !! id) as [x|] eqn:Ex.
  - rewrite (run_find Hq _ _ _ _ x) by (by rewrite Hw).
    set (w' := w <| w_calls := S (w_calls w) |>). exact (Hk x eq_refl w' Hw).
  - rewrite (run_find_none Hq) by (by rewrite Hw). simpl. eauto using hidden_notFound.
Qed.

(** A lookup whose record may be invisible to the tenant: what follows runs on
    a record the tenant owns, and refuses on one it does not. *)
Lemma sees_lookup {A B} (proj : Store → gmap string A) kind id (own : A → bool) (V : B → B → Prop)
    (k : A → WM B) :
  proj (view T s) = restrict own (proj s) →
  (∀ x, proj s !! id = Some x → own x = true → sees V (k x) (k x)) →
  (∀ x, proj s !! id = Some x → own x = false → denies (k x)) →
  sees V (call (find proj kind id) ≫= k) (call (find proj kind id) ≫= k).
Proof.
  intros Hv Hk Hd w1 w2 Hw. pose proof Hw as [E1 E2 E3]. rewrite !M_bind_eq.
  pose proof (lookup_restrict own (proj s) id) as Hl. destruct (proj s !! id) as [x|] eqn:Ex.
  - rewrite (run_find Hq proj kind id w1 x) by (by rewrite E1).
    destruct (own x) eqn:Eo.
    + rewrite (run_find Hq proj kind id w2 x) by (by rewrite E2, Hv).
      apply (Hk x); [done..|]. by split.
    + rewrite (run_find_none Hq proj kind id w2) by (by rewrite E2, Hv).
      set (w1' := w1 <| w_calls := S (w_calls w1) |>).
      destruct (Hd x eq_refl Eo w1' E1) as (H1 & H2 & e & He & Hh).
      destruct (k x w1') as [r w1'']. cbn [fst snd] in *. subst r. split; [|right; split; [done|]].
      * split; [done|exact E2|]. by rewrite H2.
      * apply hidden_notFound.
  - rewrite (run_find_none Hq proj kind id w1) by (by rewrite E1).
    rewrite (run_find_none Hq proj kind id w2) by (by rewrite E2, Hv). split; [done|]. by left.
Qed.

Lemma sees_authorizedProject id :
  sees (λ a b, a = b ∧ prj_ID a = id ∧ ownsProject T s id = true)
    (authorizedProject auth id) (authorizedProject auth id).
Proof.
  unfold authorizedProject, GetProject.
  apply (sees_lookup _ _ _ (λ p, bool_decide (prj_TenantID p = T))); [done|..]; intros p Hp Ho; simpl; rewrite Ho.
  - apply sees_ret. split; [done|]. split; [by apply (keyed_lookup _ _ _ _ (wf_projects _ Hwf) Hp)|].
    unfold ownsProject. by rewrite Hp.
  - intros w Hw. eauto using hidden_denied.
Qed.

Lemma denies_authorizedProject id : ownsProject T s id = false → denies (authorizedProject auth id).
Proof.
  intros Ho. apply denies_find. intros p Hp. unfold ownsProject in Ho. rewrite Hp in Ho. simpl. rewrite Ho.
  intros w Hw. eauto using hidden_denied.
Qed.

Lemma sees_authorizeProject id :
  sees (λ _ _, True) (authorizeProject auth id) (authorizeProject auth id).
Proof.
  eapply sees_bind; [apply sees_authorizedProject|]. intros. by apply sees_ret.
Qed.

Lemma denies_authorizeProject id : ownsProject T s id = false → denies (authorizeProject auth id).
Proof. intros. by apply denies_bind, denies_authorizedProject. Qed.

Lemma sees_authorizedVersion id :
  sees (λ a b, a = b ∧ fv_ID a = id ∧ ownsVersion T s id = true ∧ st_functions s !! id = Some a)
    (authorizedVersion auth id) (authorizedVersion auth id).
Proof.
  unfold authorizedVersion, GetFunctionVersion.
  apply (sees_lookup _ _ _ (λ v, ownsProject T s (fv_ProjectID v))); [done|..]; intros v Hv Ho.
  - eapply sees_bind; [apply sees_authorizeProject|]. intros. apply sees_ret. split; [done|].
    split; [by apply (keyed_lookup _ _ _ _ (wf_functions _ Hwf) Hv)|]. unfold ownsVersion. by rewrite Hv.
  - by apply denies_bind, denies_authorizeProject.
Qed.

Lemma sees_authorizedJob id :
  sees (λ a b, a = b ∧ ownsJob T s id = true) (authorizedJob auth id) (authorizedJob auth id).
Proof.
  unfold authorizedJob, GetExecutionJob.
  apply (sees_lookup _ _ _ (λ j, ownsProject T s (job_ProjectID j))); [done|..]; intros j Hj Ho.
  - eapply sees_bind; [apply sees_authorizeProject|]. intros. apply sees_ret. split; [done|].
    unfold ownsJob. by rewrite Hj.
  - by apply denies_bind, denies_authorizeProject.
Qed.

Lemma denies_version {A} id (k : FunctionVersion → WM A) :
  ownsVersion T s id = false →
  denies (call (GetFunctionVersion id) ≫= λ v, authorizeProject auth (fv_ProjectID v) ≫= λ _, k v).
Proof.
  intros Ho. apply denies_find. intros v Hv. apply denies_bind, denies_authorizeProject.
  unfold ownsVersion in Ho. by rewrite Hv in Ho.
Qed.

Lemma sees_authorizedBuildJob id :
  sees (λ a b, a = b) (authorizedBuildJob auth id) (authorizedBuildJob auth id).
Proof.
  unfold authorizedBuildJob, GetBuildJob.
  apply (sees_lookup _ _ _ (λ j, ownsVersion T s (bj_FunctionVersionID j))); [done|..]; intros j Hj Ho.
  - unfold GetFunctionVersion.
    apply (sees_lookup _ _ _ (λ v, ownsProject T s (fv_ProjectID v))); [done|..]; intros v Hv Ho'.
    + eapply sees_bind; [apply sees_authorizeProject|]. intros. by apply sees_ret.
    + by apply denies_bind, denies_authorizeProject.
  - by apply (denies_version _ (λ v, mret (j, v))).
Qed.

(** ** Listings *)

(** A method that only reads. *)
Lemma sees_list {A} (V : A → A → Prop) (op : StoreM A) (f : Store → A) :
  (∀ s, op s = (Ok (f s), s)) → V (f s) (f (view T s)) → sees V (call op) (call op).
Proof. intros Ho HV. apply sees_read; by rewrite !Ho. Qed.

(** A listing of records that the tenant owns is the same on the view. *)
Lemma select_view {A} (p p' q : A → bool) (m : gmap string A) k x :
  (∀ x, p x = true → q x = true ∧ p' x = true) → (∀ x, p' x = true → p x = true) →
  m !! k = Some x ∧ p x = true ↔ restrict q m !! k = Some x ∧ p' x = true.
Proof.
  intros H1 H2. rewrite lookup_restrict. destruct (m !! k) as [y|] eqn:E'; [|naive_solver].
  destruct (q y) eqn:Eq; [naive_solver|]. split; [|by intros [[=] _]].
  intros [[= ->] Hp]. destruct (H1 x Hp). congruence.
Qed.

Lemma sees_sorted {A} (idOf : A → string) (less : A → A → bool) site (p : Store → A → bool)
    (proj : Store → gmap string A) (q : A → bool) (op : StoreM (list A)) :
  (∀ s, op s = (Ok (SliceStable less (select site (p s) (proj s))), s)) →
  StrictWeakOrder less → keyed idOf (proj s) → (∀ x y, less x y = false → less y x = false → idOf x = idOf y) →
  proj (view T s) = restrict q (proj s) →
  (∀ x, p s x = true → q x = true ∧ p (view T s) x = true) →
  (∀ x, p (view T s) x = true → p s x = true) →
  sees eq (call op) (call op).
Proof.
  intros Ho Hs Hk Hl Hv H1 H2. apply (sees_list _ _ _ Ho).
  apply (select_sort_maps idOf); [done..|]. intros k x. rewrite Hv. by apply select_view.
Qed.

Lemma sees_ListProjectsByTenant :
  sees (λ a b, a = b ∧ Forall (λ p, ownsProject T s (prj_ID p) = true) a)
    (call (ListProjectsByTenant T)) (call (ListProjectsByTenant T)).
Proof.
  eapply sees_list; [done|]. simpl. split.
  - apply (select_sort_maps prj_ID); [apply _|apply (wf_projects _ Hwf)|apply newest_first_total|].
    set (own := λ p : Project, bool_decide (prj_TenantID p = T)). intros k x. by apply (select_view own own own).
  - apply Forall_forall. intros p Hp. apply elem_of_SliceStable in Hp.
    apply elem_of_select in Hp as [Hp [k Hk]]. unfold ownsProject.
    by rewrite (keyed_lookup _ _ _ _ (wf_projects _ Hwf) Hk), Hk.
Qed.

Lemma sees_ListFunctionVersionsByProject id : ownsProject T s id = true →
  sees eq (call (ListFunctionVersionsByProject id)) (call (ListFunctionVersionsByProject id)).
Proof.
  intros Ho. eapply (sees_sorted fv_ID _ _ (λ _ v, bool_decide (fv_ProjectID v = id)) st_functions);
    [done|apply _|apply (wf_functions _ Hwf)|apply newest_first_total|done| |done].
  intros v Hv. split; [|done]. simpl. by rewrite (bool_decide_eq_true_1 _ Hv).
Qed.

Lemma sees_ListExecutionJobsByProject id : ownsProject T s id = true →
  sees eq (call (ListExecutionJobsByProject id)) (call (ListExecutionJobsByProject id)).
Proof.
  intros Ho. eapply (sees_sorted job_ID _ _ (λ _ j, bool_decide (job_ProjectID j = id)) st_executionJobs);
    [done|apply _|apply (wf_executionJobs _ Hwf)|apply newest_first_total|done| |done].
  intros j Hj. split; [|done]. simpl. by rewrite (bool_decide_eq_true_1 _ Hj).
Qed.

Lemma sees_ListAttemptsByJob id : ownsJob T s id = true →
  sees eq (call (ListAttemptsByJob id)) (call (ListAttemptsByJob id)).
Proof.
  intros Ho. eapply (sees_sorted att_ID _ _ (λ _ a, bool_decide (att_JobID a = id)) st_attempts);
    [done|apply _|apply (wf_attempts _ Hwf)|apply oldest_first_total|done| |done].
  intros j Hj. split; [|done]. simpl. by rewrite (bool_decide_eq_true_1 _ Hj).
Qed.

Lemma sees_ListCostRecordsByJob id : ownsJob T s id = true →
  sees eq (call (ListCostRecordsByJob id)) (call (ListCostRecordsByJob id)).
Proof.
  intros Ho. eapply (sees_sorted cost_ID _ _ (λ _ a, bool_decide (cost_JobID a = id)) st_costRecords);
    [done|apply _|apply (wf_costRecords _ Hwf)|apply oldest_first_total|done| |done].
  intros j Hj. split; [|done]. simpl. by rewrite (bool_decide_eq_true_1 _ Hj).
Qed.

Lemma sees_ListHTTPTriggers id : ownsVersion T s id = true →
  sees eq (call (ListHTTPTriggersByFunctionVersion id)) (call (ListHTTPTriggersByFunctionVersion id)).
Proof.
  intros Ho. eapply (sees_sorted ht_Token _ _ (λ _ t, bool_decide (ht_FunctionVersionID t = id)) st_httpTriggers);
    [done|apply _|apply (wf_httpTriggers _ Hwf)|apply oldest_first_total|done| |done].
  intros j Hj. split; [|done]. simpl. by rewrite (bool_decide_eq_true_1 _ Hj).
Qed.

Lemma sees_ListWebhookTriggers id : ownsVersion T s id = true →
  sees (≡ₚ) (call (ListWebhookTriggersByFunctionVersion id)) (call (ListWebhookTriggersByFunctionVersion id)).
Proof.
  intros Ho. eapply sees_list; [done|]. set (p := λ t, bool_decide (wt_FunctionVersionID t = id)).
  apply select_perm_maps. intros k x.
  apply (select_view p p (λ t, ownsVersion T s (wt_FunctionVersionID t))); [|done].
  intros t Ht. by rewrite (bool_decide_eq_true_1 _ Ht).
Qed.

(** A build job belongs to the project of its version. *)
Lemma view_build_job id j :
  ownsProject T s id = true →
  (build_job_in_project s id j = true →
   ownsVersion T s (bj_FunctionVersionID j) = true ∧ build_job_in_project (view T s) id j = true) ∧
  (build_job_in_project (view T s) id j = true → build_job_in_project s id j = true).
Proof.
  intros Ho. unfold build_job_in_project, ownsVersion.
  pose proof (lookup_restrict (λ v, ownsProject T s (fv_ProjectID v)) (st_functions s) (bj_FunctionVersionID j)) as Hl.
  change (restrict _ _) with (st_functions (view T s)) in Hl. rewrite Hl.
  destruct (st_functions s !! _) as [v|]; [|done].
  destruct (ownsProject T s (fv_ProjectID v)) eqn:Ev; [done|]. split; [|done].
  intros Hb%bool_decide_eq_true_1. congruence.
Qed.

Lemma sees_ListBuildJobsByProject id : ownsProject T s id = true →
  sees eq (call (ListBuildJobsByProject id)) (call (ListBuildJobsByProject id)).
Proof.
  intros Ho.
  eapply (sees_sorted bj_ID _ _ (λ s j, build_job_in_project s id j) st_buildJobs);
    [done|apply _|apply (wf_buildJobs _ Hwf)|apply newest_first_total|done|..]; intros j; by apply view_build_job.
Qed.

Lemma sees_ListRegions : sees eq (call ListRegions) (call ListRegions).
Proof. by eapply sees_list. Qed.

Lemma sees_ListWarmPools region : sees eq (call (ListWarmPoolsByRegion region)) (call (ListWarmPoolsByRegion region)).
Proof. by eapply sees_list. Qed.

(** ** Composite readings *)

(** The build job a version refers to is the version's own. *)
Context (Hlink : ∀ id v j, st_functions s !! id = Some v → st_buildJobs s !! fv_BuildJobID v = Some j →
                   bj_FunctionVersionID j = id).

(** The build of an owned version, which may be missing. *)
Lemma sees_ownBuild id v :
  st_functions s !! id = Some v → ownsProject T s (fv_ProjectID v) = true →
  sees eq (try (call (GetBuildJob (fv_BuildJobID v)))) (try (call (GetBuildJob (fv_BuildJobID v)))).
Proof.
  intros Hv Ho w1 w2 Hw. pose proof Hw as [E1 E2 E3]. unfold try, GetBuildJob.
  destruct (st_buildJobs s !! fv_BuildJobID v) as [j|] eqn:Ej.
  - rewrite (run_find Hq _ _ _ w1 j) by (by rewrite E1). rewrite (run_find Hq _ _ _ w2 j); [done|].
    rewrite E2. simpl. rewrite lookup_restrict, Ej. unfold ownsVersion.
    by rewrite (Hlink _ _ _ Hv Ej), Hv, Ho.
  - rewrite (run_find_none Hq _ _ _ w1) by (by rewrite E1). rewrite (run_find_none Hq _ _ _ w2); [done|].
    rewrite E2. simpl. by rewrite lookup_restrict, Ej.
Qed.

Lemma sees_loadAuthorizedDeployment id :
  sees eq (loadAuthorizedDeployment auth id) (loadAuthorizedDeployment auth id).
Proof.
  unfold loadAuthorizedDeployment, GetFunctionVersion.
  apply (sees_lookup _ _ _ (λ v, ownsProject T s (fv_ProjectID v))); [done|..]; intros v Hv Ho;
    [|by apply denies_bind, denies_authorizedProject].
  eapply sees_bind; [apply sees_authorizedProject|]. intros p _ (<- & _ & _).
  apply (sees_bind eq).
  - destruct (blank _); [by apply sees_ret|]. eapply sees_bind; [by eapply sees_ownBuild|].
    intros [j|e] ? <-; [by apply sees_ret|]. destruct (errors_Is e ErrNotFound); [by apply sees_ret|apply sees_fail].
  - intros b _ <-. eapply sees_bind; [by apply sees_ListExecutionJobsByProject|]. intros jobs _ <-.
    by apply sees_ret.
Qed.

Lemma sees_storedData key inline : sees eq (storedData key inline) (storedData key inline).
Proof.
  unfold storedData. destruct (bool_decide _); [by apply sees_ret|].
  apply (sees_bind eq); [apply sees_try_eq, getObject_same|]. intros [d|e] ? <-; [by apply sees_ret|].
  destruct (errors_Is _ _); [by apply sees_ret|apply sees_fail].
Qed.

Lemma sees_executionLogsData job : sees eq (executionLogsData job) (executionLogsData job).
Proof. unfold executionLogsData. destruct (job_Result job); [apply sees_storedData|apply sees_fail]. Qed.

Lemma sees_executionOutputData job : sees eq (executionOutputData job) (executionOutputData job).
Proof. unfold executionOutputData. destruct (job_Result job); [apply sees_storedData|apply sees_fail]. Qed.

Lemma sees_websiteManifest v : sees eq (websiteManifest v) (websiteManifest v).
Proof.
  eapply sees_bind; [apply sees_getObject|]. intros d _ <-.
  destruct (json_DecodeManifest d); [by apply sees_ret|apply sees_fail].
Qed.

Lemma sees_gatherDeployments projects :
  Forall (λ p, ownsProject T s (prj_ID p) = true) projects →
  sees eq (gatherDeployments projects) (gatherDeployments projects).
Proof.
  induction 1 as [|p rest Hp _ IH]; simpl; [by apply sees_ret|].
  eapply sees_bind; [by apply sees_ListFunctionVersionsByProject|]. intros vs _ <-.
  eapply sees_bind; [by apply sees_ListBuildJobsByProject|]. intros bs _ <-.
  eapply sees_bind; [by apply sees_ListExecutionJobsByProject|]. intros js _ <-.
  eapply sees_bind; [apply IH|]. intros ds _ <-. by apply sees_ret.
Qed.

Lemma sees_gatherWarmStatus index id regions :
  sees eq (gatherWarmStatus index id regions) (gatherWarmStatus index id regions).
Proof.
  induction regions as [|r rest IH]; simpl; [by apply sees_ret|].
  eapply sees_bind; [apply sees_ListWarmPools|]. intros ps _ <-.
  eapply sees_bind; [apply IH|]. intros os _ <-. by apply sees_ret.
Qed.

Lemma sees_requireAdmin : sees (λ _ _, False) (requireAdmin auth) (requireAdmin auth).
Proof. apply sees_fail. Qed.

Lemma sees_reply reply : sees reply_sim (mret reply) (mret reply).
Proof. by apply sees_ret. Qed.

Lemma sees_deploymentsFor r projects :
  Forall (λ p, ownsProject T s (prj_ID p) = true) projects →
  sees reply_sim (listDeploymentsForProjects r projects) (listDeploymentsForProjects r projects).
Proof.
  intros Hp. apply sees_orBadRequest. intros limit.
  eapply sees_orReply; [by apply sees_gatherDeployments|]. intros ds _ <-. apply sees_reply.
Qed.

Lemma sees_webhooks status l1 l2 : l1 ≡ₚ l2 →
  sees reply_sim (mret (ReplyJSON status (PWebhooks l1))) (mret (ReplyJSON status (PWebhooks l2))).
Proof. intros Hp. apply sees_ret. right. right. by exists status, l1, l2. Qed.

Lemma owned_one p : ownsProject T s (prj_ID p) = true → Forall (λ p, ownsProject T s (prj_ID p) = true) [p].
Proof. intros. by constructor. Qed.

(** ** The handlers *)

Create HintDb sees.
#[local] Hint Resolve sees_reply sees_authorizedProject sees_authorizedVersion sees_authorizedJob
  sees_authorizedBuildJob sees_loadAuthorizedDeployment sees_ListProjectsByTenant
  sees_ListFunctionVersionsByProject sees_ListExecutionJobsByProject sees_ListBuildJobsByProject
  sees_ListAttemptsByJob sees_ListCostRecordsByJob sees_ListHTTPTriggers sees_ListWebhookTriggers
  sees_ListRegions sees_executionLogsData sees_executionOutputData sees_websiteManifest
  sees_getObject sees_gatherWarmStatus sees_requireAdmin sees_deploymentsFor sees_webhooks owned_one : sees.

(** Follow a handler: a call answers the same on both sides, up to what its
    [sees] lemma says of the results. *)
Ltac sees :=
  repeat first
    [ progress intros
    | progress cbv beta in *
    | match goal with
      | H : _ ∧ _ |- _ => destruct H
      | H : False |- _ => destruct H
      | H : _ = _ |- sees _ _ _ => progress subst
      end
    | by eauto with sees
    | apply sees_orBadRequest
    | eapply sees_orReply; [by eauto with sees|]
    | case_match ].

(** The endpoints that only read. *)
Definition reads (ep : Endpoint) : bool :=
  match ep with
  | EpCreateProject | EpCreateFunction _ | EpInvokeFunction _ | EpPrepareFunction _
  | EpCreateHTTPTrigger _ | EpCreateWebhookTrigger _ | EpDrainHost _ _ => false
  | _ => true
  end.

Lemma sees_getFunctionSite r id :
  sees reply_sim (getFunctionSite auth r id) (getFunctionSite auth r id).
Proof.
  eapply sees_orReply; [apply sees_authorizedVersion|]. intros v _ (<- & Hid & Ho & _).
  eapply sees_orReply; [apply sees_websiteManifest|]. intros m _ <-.
  eapply (sees_bind (rel eq)); [apply sees_try, sees_ListHTTPTriggers; by rewrite Hid|].
  intros [l1|e1] [l2|e2] Hr; try done; [simpl in Hr; subst|]; apply sees_reply.
Qed.

Lemma sees_handle srv ep r : reads ep = true →
  sees reply_sim (handle srv ep auth r) (handle srv ep auth r).
Proof.
  intros Hr. destruct ep; try discriminate Hr.
  all: try (unfold handle; apply sees_getFunctionSite).
  all: clear Hr; unfold_handlers; sees.
Qed.

End Sees.

(** ** A handler always answers *)

Definition answers {A} (m : WM A) : Prop := ∀ w, ∃ a, (m w).1 = Ok a.

Lemma answers_ret {A} (a : A) : answers (mret a).
Proof. intros w. by exists a. Qed.

Lemma answers_try {A B} (m : WM A) (f : result A → WM B) : (∀ r, answers (f r)) → answers (try m ≫= f).
Proof. intros Hf w. unfold try. rewrite M_bind_eq. destruct (m w) as [r w']. apply Hf. Qed.

Lemma answers_orReply {A} (m : WM A) k : (∀ a, answers (k a)) → answers (orReply m k).
Proof. intros Hk. apply answers_try. intros [a|e]; [apply Hk|apply answers_ret]. Qed.

Lemma answers_orBadRequest {A} pre (r : result A) k : (∀ a, answers (k a)) → answers (orBadRequest pre r k).
Proof. intros Hk. destruct r; [apply Hk|apply answers_ret]. Qed.

Lemma answers_handle `{!GoEnv, !BuildEnv, !HttpEnv} srv ep auth r :
  reads ep = true → answers (handle srv ep auth r).
Proof.
  intros Hr. destruct ep; try discriminate Hr; clear Hr; unfold_handlers;
    repeat first [ progress intros | apply answers_ret | apply answers_orReply | apply answers_orBadRequest
                 | apply answers_try | progress unfold listDeploymentsForProjects | case_match ].
Qed.

(** ** The refinement *)

(** Every version that names a build job names its own. *)
Definition builds_linked (s : Store) : Prop := ∀ id v j,
  st_functions s !! id = Some v → st_buildJobs s !! fv_BuildJobID v = Some j → bj_FunctionVersionID j = id.

(** C4: Tenants are isolated when they read.  Take a tenant without
    administrator rights and a second server that holds nothing but the
    tenant's own projects, versions, builds, jobs, attempts, costs and triggers
    ([view]).  To every reading endpoint under [/v1] the shared server answers
    as the private one does: the same status and value, webhook triggers up to
    their order, or both refuse with 403 or 404.  In particular no answer
    depends on the records of other tenants.  Reading changes no record. *)
Theorem api_reads_isolated (E : GoEnv) (BE : BuildEnv) (HE : HttpEnv) (srv : Server) (T : string)
    (ep : Endpoint) (r : HTTPRequest) (w private : World) :
  quiet E → store_wf (w_store w) → builds_linked (w_store w) → reads ep = true →
  w_store private = view T (w_store w) → w_objects private = w_objects w →
  ∃ reply reply',
    (handle srv ep (mkAuthContext T false) r w).1 = Ok reply ∧
    (handle srv ep (mkAuthContext T false) r private).1 = Ok reply' ∧
    reply_sim reply reply' ∧
    w_store (handle srv ep (mkAuthContext T false) r w).2 = w_store w.
Proof.
  intros Hq Hwf Hl Hr Hs Ho.
  destruct (sees_handle Hq T (w_store w) Hwf Hl srv ep r Hr w private) as [[Hw' _ _] Hrel]; [by split|].
  destruct (answers_handle srv ep (mkAuthContext T false) r Hr w) as [a Ha].
  destruct (answers_handle srv ep (mkAuthContext T false) r Hr private) as [b Hb].
  exists a, b. rewrite Ha, Hb in Hrel. done.
Qed.

(** Two tenants with a project and a job each. *)
Definition shared_store : Store := NewStore
  <| st_projects := {["p1" := mkProject "p1" "t1" "one" 1; "p2" := mkProject "p2" "t2" "two" 2]} |>
  <| st_executionJobs := {["j1" := demo_job <| job_ID := "j1" |> <| job_ProjectID := "p1" |>;
                           "j2" := demo_job <| job_ID := "j2" |> <| job_ProjectID := "p2" |>]} |>.
Definition shared_world : World := NewWorld <| w_store := shared_store |>.
Definition private_world : World := NewWorld <| w_store := view "t1" shared_store |>.
Definition demo_server : Server := mkServer demo_cfg demo_build_cfg ∅.

(** The first tenant lists its project, and is refused the other's job. *)
Lemma api_reads_isolated_witness :
  (∃ reply reply', (@handle demo_env demo_build_env demo_http_env demo_server (EpGetJob "j2")
                      (mkAuthContext "t1" false) (demo_get "k") shared_world).1 = Ok reply ∧
                   denied reply ∧ reply_sim reply reply') ∧
  st_projects (view "t1" shared_store) = {["p1" := mkProject "p1" "t1" "one" 1]}.
Proof.
  split; [|by vm_compute].
  destruct (api_reads_isolated demo_env demo_build_env demo_http_env demo_server "t1" (EpGetJob "j2")
    (demo_get "k") shared_world private_world) as (reply & reply' & H1 & _ & H3 & _).
  - apply demo_quiet.
  - split; by apply (bool_decide_eq_true_1 (keyed _ _)).
  - intros id v j Hv. simpl in Hv. by rewrite lookup_empty in Hv.
  - done.
  - done.
  - done.
  - exists reply, reply'. split; [done|]. split; [|done]. revert H1. vm_compute. intros [= <-]. by left.
Defined.
