(* ===== verification/Coordinator.v ===== *)
(** * Coordinator: host sessions, assignment, lease updates

    Models [internal/coordinator/service.go].  The coordinator of a region is
    the entry of [w_coords] under the region's name (a missing entry is a
    coordinator just built by [New]).  Its methods run under the coordinator's
    mutex or touch only the store, so each is one function of the world.  A
    [select] that sends on a session's channel is resolved by [select_send]:
    Go picks at random when the channel has room and the context is done.
    Goroutines are recorded in [c_spawned]; their bodies are functions of their
    own ([retryGoroutine], [deliverGoroutine]).  Embedded executors are node
    agents, modelled in [NodeAgent]. *)

From stdpp Require Import base decidable tactics numbers list gmap strings sorting.
From S2P Require Import Prelude Domain MemStore World Scheduler Artifacts.

(** ** State access *)

(** [New] with a retryer set. *)
Definition NewCoordinator (region : string) : Coordinator :=
  mkCoordinator region true (20 * Second)%Z (5 * Second)%Z ∅ ∅ ∅ [].

Definition coordOf (w : World) (cid : string) : Coordinator :=
  default (NewCoordinator cid) (w_coords w !! cid).

Definition putCoord (cid : string) (c : Coordinator) (w : World) : World :=
  w <| w_coords := <[cid := c]> (w_coords w) |>.

Definition getC (cid : string) : WM Coordinator := gets (λ w, coordOf w cid).
Definition setC (cid : string) (c : Coordinator) : WM unit := modify (putCoord cid c).

Definition putSession (c : Coordinator) (hostID : string) (session : hostSession) : Coordinator :=
  c <| c_hosts := <[hostID := session]> (c_hosts c) |>.

Definition putHostOf (c : Coordinator) (hostID : string) (session : hostSession) (h : Host) :
    Coordinator :=
  putSession c hostID (session <| hs_host := h |>).

Definition spawn (cid : string) (g : Goroutine) : WM unit :=
  c ← getC cid; setC cid (c <| c_spawned := c_spawned c ++ [g] |>).

(** The context of a call, and which ready case a [select] takes. *)
Record Ctx := mkCtx { ctx_Err : option GoError; ctx_pick : bool }.
Definition Background : Ctx := mkCtx None true.

Inductive SelectOutcome := SelSend | SelDone (e : GoError) | SelDefault.

Definition select_send (room : bool) (ctx : Ctx) : SelectOutcome :=
  match ctx_Err ctx with
  | None => if room then SelSend else SelDefault
  | Some e => if room && ctx_pick ctx then SelSend else SelDone e
  end.

(** [make(chan *regionv1.CoordinatorMessage, 32)] *)
Definition sendChCap : nat := 32.
Definition hasRoom (ch : option (list CoordinatorMessage)) : bool :=
  match ch with Some q => (length q <? sendChCap)%nat | None => false end.

Definition isFull (networkPolicy : string) : bool :=
  bool_decide (networkPolicy = NetworkPolicyFull).
Definition fullOf (networkPolicy : string) : Z := if isFull networkPolicy then 1 else 0.

(** ** Pure helpers *)

Definition hostActive (h : Host) : bool := bool_decide (host_State h = HostStateActive).

Definition warmMap (metrics : list WarmPoolMetric) : gmap string Z :=
  foldl (λ m x, <[wpm_FunctionVersionId x := wpm_Available x]> m) ∅ metrics.

Definition startTimeOr (fallback startedAt : Time) : Time :=
  if IsZero startedAt then fallback else startedAt.

Definition classifyStartMode (h : Host) (functionVersionID : string) : StartMode :=
  if (0 <? map_get0 (host_FunctionWarm h) functionVersionID)%Z then StartModeFunctionWarm
  else if (0 <? host_BlankWarm h)%Z then StartModeBlankWarm
  else StartModeCold.

(** [cloneStringMap]: an empty or nil map is copied to a nil map. *)
Definition cloneStringMap (src : option (gmap string string)) : option (gmap string string) :=
  match src with
  | None => None
  | Some m => if bool_decide (m = ∅) then None else Some m
  end.

Section Coordinator.
Context `{!GoEnv}.
Context (cid : string).

Definition warmPoolsForHost (h : Host) (updatedAt : Time) : list WarmPool :=
  if negb (hostActive h) then [] else
  let blank := if (0 <? host_BlankWarm h)%Z
               then [mkWarmPool (host_Region h) (host_ID h) "" (host_BlankWarm h) 0 updatedAt]
               else [] in
  let functionIDs := SliceStable string_ltb
        (filter (λ kc, (0 <? kc.2)%Z = true) (map_iter 1078 (host_FunctionWarm h))).*1 in
  blank ++ ((λ f, mkWarmPool (host_Region h) (host_ID h) f 0
                    (map_get0 (host_FunctionWarm h) f) updatedAt) <$> functionIDs).

(** One iteration of the loop of [Stats]. *)
Definition stats_step (stats : RegionStats) (e : string * hostSession) : RegionStats :=
  let h := hs_host e.2 in
  if negb (hostActive h) then stats else
  let stats := if (0 <? host_AvailableSlots h)%Z
               then stats <| rs_AvailableHosts := (rs_AvailableHosts stats + 1)%Z |> else stats in
  let stats := stats
    <| rs_AvailableFullNetworkSlots :=
         (rs_AvailableFullNetworkSlots stats + host_AvailableFullNetworkSlots h)%Z |>
    <| rs_BlankWarm := (rs_BlankWarm stats + host_BlankWarm h)%Z |> in
  foldl (λ st kc, st <| rs_FunctionWarm := (rs_FunctionWarm st + kc.2)%Z |>) stats
    (map_iter 103 (host_FunctionWarm h)).

Definition zeroStats : RegionStats := mkRegionStats 0 0 0 0.

Definition Stats (w : World) : RegionStats :=
  foldl stats_step zeroStats (map_iter 94 (c_hosts (coordOf w cid))).

(** ** Region snapshot *)

Record RegionAcc := mkRegionAcc { ra_stats : RegionStats; ra_heartbeat : Time; ra_connected : Z }.

Definition persist_step (region : string) (acc : RegionAcc) (e : string * hostSession) : RegionAcc :=
  let h := hs_host e.2 in
  if negb (bool_decide (host_Region h = region)) then acc else
  let connected := if hostActive h then (ra_connected acc + 1)%Z else ra_connected acc in
  let stats := ra_stats acc in
  let stats := if hostActive h && (0 <? host_AvailableSlots h)%Z
               then stats <| rs_AvailableHosts := (rs_AvailableHosts stats + 1)%Z |> else stats in
  let stats := if hostActive h then
      foldl (λ st kc, st <| rs_FunctionWarm := (rs_FunctionWarm st + kc.2)%Z |>)
        (stats <| rs_AvailableFullNetworkSlots :=
                    (rs_AvailableFullNetworkSlots stats + host_AvailableFullNetworkSlots h)%Z |>
               <| rs_BlankWarm := (rs_BlankWarm stats + host_BlankWarm h)%Z |>)
        (map_iter 1162 (host_FunctionWarm h))
    else stats in
  let heartbeat := if (ra_heartbeat acc <? host_LastHeartbeat h)%Z then host_LastHeartbeat h
                   else ra_heartbeat acc in
  mkRegionAcc stats heartbeat connected.

Definition persistRegionLocked : WM unit :=
  c ← getC cid;
  let acc := foldl (persist_step (c_region c)) (mkRegionAcc zeroStats 0 0)
               (map_iter 1149 (c_hosts c)) in
  lastHeartbeat ← (if IsZero (ra_heartbeat acc) then now else mret (ra_heartbeat acc));
  let stats := ra_stats acc in
  let down := (ra_connected acc =? 0)%Z in
  call (PutRegion (mkRegion (c_region c) (if down then "degraded" else "active")
    (rs_AvailableHosts stats) (rs_AvailableFullNetworkSlots stats) (rs_BlankWarm stats)
    (rs_FunctionWarm stats) lastHeartbeat (if down then "no active hosts connected" else ""))).

Definition persistRegion : WM unit := persistRegionLocked.

(** ** Host selection *)

Record pickCandidate := mkPick { pk_id : string; pk_session : hostSession; pk_score : Z }.

Definition pick_less (x y : pickCandidate) : bool := (pk_score y <? pk_score x)%Z.

Definition hostUsable (networkPolicy : string) (h : Host) : bool :=
  hostActive h && (0 <? host_AvailableSlots h)%Z &&
  negb (isFull networkPolicy && (host_AvailableFullNetworkSlots h <=? 0)%Z).

Definition hostScore (functionVersionID : string) (h : Host) : Z :=
  int64_of (map_get0 (host_FunctionWarm h) functionVersionID * 1000 + host_BlankWarm h * 100 +
            host_AvailableSlots h).

Definition pickCandidates (networkPolicy : string) (score : Host → Z) (site : nat)
    (hosts : gmap string hostSession) : list pickCandidate :=
  (λ e, mkPick e.1 e.2 (score (hs_host e.2))) <$>
    filter (λ e, hostUsable networkPolicy (hs_host e.2) = true) (map_iter site hosts).

(** The host after a reservation. *)
Definition reserveOn (h : Host) (functionVersionID networkPolicy : string) (mode : StartMode) : Host :=
  let h := h <| host_AvailableSlots := (host_AvailableSlots h - 1)%Z |> in
  let h := if isFull networkPolicy
           then h <| host_AvailableFullNetworkSlots := (host_AvailableFullNetworkSlots h - 1)%Z |>
           else h in
  match mode with
  | StartModeFunctionWarm =>
      let n := map_get0 (host_FunctionWarm h) functionVersionID in
      if (0 <? n)%Z
      then h <| host_FunctionWarm := <[functionVersionID := (n - 1)%Z]> (host_FunctionWarm h) |>
      else h
  | StartModeBlankWarm =>
      if (0 <? host_BlankWarm h)%Z then h <| host_BlankWarm := (host_BlankWarm h - 1)%Z |> else h
  | _ => h
  end.

(** The three writes that publish a host's counters; their errors are
    dropped. *)
Definition publishHost (h : Host) : WM unit :=
  ignore (call (UpdateHost h)) ≫= λ _,
  t ← now;
  ignore (call (ReplaceWarmPoolsForHost (host_Region h) (host_ID h) (warmPoolsForHost h t))) ≫= λ _,
  ignore persistRegionLocked.

Definition noActiveHosts (region : string) : string :=
  "no active hosts available in region " +:+ region.

Definition pickHost (a : Assignment) : WM (string * hostSession * StartMode) :=
  c ← getC cid;
  match SliceStable pick_less
          (pickCandidates (asg_NetworkPolicy a) (hostScore (asg_FunctionVersionID a)) 803 (c_hosts c)) with
  | [] => fail (plainErr (noActiveHosts (c_region c)))
  | chosen :: _ =>
      let h := hs_host (pk_session chosen) in
      let mode := classifyStartMode h (asg_FunctionVersionID a) in
      let h' := reserveOn h (asg_FunctionVersionID a) (asg_NetworkPolicy a) mode in
      setC cid (putHostOf c (pk_id chosen) (pk_session chosen) h') ≫= λ _,
      publishHost h' ≫= λ _,
      mret (pk_id chosen, (pk_session chosen) <| hs_host := h' |>, mode)
  end.

Definition warmScore (h : Host) : Z := int64_of (host_BlankWarm h * 100 + host_AvailableSlots h).

Definition pickWarmHost (functionVersionID networkPolicy : string) :
    WM (string * hostSession * bool) :=
  c ← getC cid;
  match head (filter (λ e, hostActive (hs_host e.2) &&
                (0 <? map_get0 (host_FunctionWarm (hs_host e.2)) functionVersionID)%Z = true)
                (map_iter 849 (c_hosts c))) with
  | Some (id, session) => mret (id, session, true)
  | None =>
      match SliceStable pick_less (pickCandidates networkPolicy warmScore 858 (c_hosts c)) with
      | [] => fail (plainErr (noActiveHosts (c_region c) +:+ " for function warm prep"))
      | chosen :: _ =>
          let h' := reserveOn (hs_host (pk_session chosen)) functionVersionID networkPolicy
                      StartModeUnset in
          setC cid (putHostOf c (pk_id chosen) (pk_session chosen) h') ≫= λ _,
          publishHost h' ≫= λ _,
          mret (pk_id chosen, (pk_session chosen) <| hs_host := h' |>, false)
      end
  end.

(** ** Releasing reservations *)

Definition releaseHostSlot (hostID networkPolicy : string) : WM unit :=
  c ← getC cid;
  match c_hosts c !! hostID with
  | None => mret tt
  | Some session =>
      let h := hs_host session in
      let h' := if hostActive h then
          h <| host_AvailableSlots := (host_AvailableSlots h + 1)%Z |>
            <| host_AvailableFullNetworkSlots :=
                 (host_AvailableFullNetworkSlots h + fullOf networkPolicy)%Z |>
        else h in
      setC cid (putHostOf c hostID session h') ≫= λ _,
      ignore (call (UpdateHost h')) ≫= λ _,
      ignore persistRegionLocked
  end.

Definition unreserveOn (h : Host) (functionVersionID networkPolicy : string) (mode : StartMode) :
    Host :=
  let h := h <| host_AvailableSlots := (host_AvailableSlots h + 1)%Z |>
             <| host_AvailableFullNetworkSlots :=
                  (host_AvailableFullNetworkSlots h + fullOf networkPolicy)%Z |> in
  match mode with
  | StartModeFunctionWarm =>
      h <| host_FunctionWarm := <[functionVersionID :=
             (map_get0 (host_FunctionWarm h) functionVersionID + 1)%Z]> (host_FunctionWarm h) |>
  | StartModeBlankWarm => h <| host_BlankWarm := (host_BlankWarm h + 1)%Z |>
  | _ => h
  end.

Definition restoreHostReservation (hostID functionVersionID : string) (mode : StartMode)
    (networkPolicy : string) : WM unit :=
  c ← getC cid;
  match c_hosts c !! hostID with
  | None => mret tt
  | Some session =>
      let h' := unreserveOn (hs_host session) functionVersionID networkPolicy mode in
      setC cid (putHostOf c hostID session h') ≫= λ _,
      publishHost h'
  end.

Definition restorePreparationReservation (hostID networkPolicy : string) : WM unit :=
  c ← getC cid;
  match c_hosts c !! hostID with
  | None => mret tt
  | Some session =>
      let h' := unreserveOn (hs_host session) "" networkPolicy StartModeUnset in
      setC cid (putHostOf c hostID session h') ≫= λ _,
      publishHost h'
  end.

(** The send of a control message to a session chosen by the caller. *)
Definition enqueueControl (hostID : string) (msg : CoordinatorMessage) : WM unit :=
  c ← getC cid;
  match c_hosts c !! hostID with
  | Some session =>
      setC cid (putSession c hostID (session <| hs_sendCh := (λ q, q ++ [msg]) <$> hs_sendCh session |>))
  | None => mret tt
  end.

(** ** Assignment *)

Definition wireAssignment (a : Assignment) : ExecutionAssignment :=
  mkExecutionAssignment (asg_AttemptID a) (asg_JobID a) (asg_FunctionVersionID a)
    (asg_ArtifactDigest a) (asg_ArtifactBundleKey a) (asg_Entrypoint a)
    (cloneStringMap (asg_EnvVars a)) (asg_Payload a) (asg_EnvRefs a) (asg_NetworkPolicy a)
    (int32_of (asg_TimeoutSec a)) (int32_of (asg_MemoryMB a)).

(** [pickHost] with its capacity error turned into [ErrNoExecutionCapacity]. *)
Definition pickHostForExecution (a : Assignment) : WM (string * hostSession * StartMode) :=
  picked ← try (pickHost a);
  match picked with
  | Ok p => mret p
  | Err e =>
      if Contains (Error e) "no active hosts available"
      then fail (wrapErr ErrNoExecutionCapacity (": " +:+ Error e))
      else fail e
  end.

Definition controlChannelFull (hostID : string) : GoError :=
  plainErr ("host " +:+ hostID +:+ " control channel full").

Definition assignExecution (ctx : Ctx) (a : Assignment) : WM unit :=
  '(hostID, session, mode) ← pickHostForExecution a;
  attempt ← call (GetAttempt (asg_AttemptID a));
  t ← now;
  call (UpdateAttempt (attempt <| att_HostID := hostID |> <| att_StartMode := mode |>
                               <| att_UpdatedAt := t |>)) ≫= λ _,
  let execAssignment := wireAssignment a in
  if hs_executor session then spawn cid (GoExecute hostID execAssignment) else
  match select_send (hasRoom (hs_sendCh session)) ctx with
  | SelSend => enqueueControl hostID (MsgAssignment execAssignment)
  | SelDone e =>
      restoreHostReservation hostID (asg_FunctionVersionID a) mode (asg_NetworkPolicy a) ≫= λ _,
      fail e
  | SelDefault =>
      restoreHostReservation hostID (asg_FunctionVersionID a) mode (asg_NetworkPolicy a) ≫= λ _,
      fail (controlChannelFull hostID)
  end.

(** [bus] is the [dispatch.ExecutionBus] of the coordinator, if one is set. *)
Definition EnqueueExecution (bus : option (string → Assignment → WM unit)) (ctx : Ctx)
    (a : Assignment) : WM unit :=
  match bus with
  | Some publish => c ← getC cid; publish (c_region c) a
  | None => assignExecution ctx a
  end.

(** ** Registration, heartbeats, drain, loss of a host *)

Definition registerHostSession (msg : RegisterHost) (sendCh : option (list CoordinatorMessage))
    (executor preparer : bool) : WM unit :=
  t ← now;
  let h := mkHost (rh_HostId msg) (rh_Region msg) (rh_Driver msg) HostStateActive
             (rh_AvailableSlots msg) (rh_AvailableFullNetworkSlots msg) (rh_BlankWarm msg)
             (warmMap (rh_FunctionWarm msg)) t in
  c ← getC cid;
  setC cid (putSession c (host_ID h) (mkHostSession h sendCh executor preparer)) ≫= λ _,
  call (PutHost h) ≫= λ _,
  t' ← now;
  call (ReplaceWarmPoolsForHost (host_Region h) (host_ID h) (warmPoolsForHost h t')) ≫= λ _,
  persistRegion.

Definition updateHeartbeatContext (msg : HostHeartbeat) : WM unit :=
  c ← getC cid;
  match c_hosts c !! hb_HostId msg with
  | None => fail (plainErr ("heartbeat for unknown host " +:+ hb_HostId msg))
  | Some session =>
      t ← now;
      let h := (hs_host session) <| host_AvailableSlots := hb_AvailableSlots msg |>
                 <| host_AvailableFullNetworkSlots := hb_AvailableFullNetworkSlots msg |>
                 <| host_BlankWarm := hb_BlankWarm msg |>
                 <| host_FunctionWarm := warmMap (hb_FunctionWarm msg) |>
                 <| host_LastHeartbeat := t |> in
      setC cid (putHostOf c (hb_HostId msg) session h) ≫= λ _,
      call (UpdateHost h) ≫= λ _,
      t' ← now;
      call (ReplaceWarmPoolsForHost (host_Region h) (host_ID h) (warmPoolsForHost h t')) ≫= λ _,
      persistRegion
  end.

Definition DrainHost (ctx : Ctx) (hostID reason : string) : WM unit :=
  c ← getC cid;
  match c_hosts c !! hostID with
  | None => fail (plainErr ("host " +:+ hostID +:+ " not registered in region " +:+ c_region c))
  | Some session =>
      let h := (hs_host session) <| host_State := HostStateDraining |>
                 <| host_AvailableSlots := 0%Z |> <| host_AvailableFullNetworkSlots := 0%Z |> in
      setC cid (putHostOf c hostID session h) ≫= λ _,
      call (UpdateHost h) ≫= λ _,
      call (ReplaceWarmPoolsForHost (host_Region h) (host_ID h) []) ≫= λ _,
      persistRegion ≫= λ _,
      match hs_sendCh session with
      | None => mret tt
      | Some _ =>
          match select_send (hasRoom (hs_sendCh session)) ctx with
          | SelSend => enqueueControl hostID (MsgDrain hostID reason)
          | SelDone e => fail e
          | SelDefault => fail (controlChannelFull hostID)
          end
      end
  end.

(** A host that is gone offers nothing. *)
Definition hostDown (h : Host) : Host :=
  h <| host_State := HostStateDown |> <| host_AvailableSlots := 0%Z |>
    <| host_AvailableFullNetworkSlots := 0%Z |> <| host_BlankWarm := 0%Z |>
    <| host_FunctionWarm := ∅ |>.

Definition removeSession (c : Coordinator) (hostID : string) : Coordinator :=
  c <| c_hosts := delete hostID (c_hosts c) |>.

Definition markHostDown (hostID : string) : WM unit :=
  c ← getC cid;
  match c_hosts c !! hostID with
  | None => mret tt
  | Some session =>
      let h := hostDown (hs_host session) in
      ignore (call (UpdateHost h)) ≫= λ _,
      ignore (call (ReplaceWarmPoolsForHost (host_Region h) (host_ID h) [])) ≫= λ _,
      setC cid (removeSession c hostID) ≫= λ _,
      ignore persistRegionLocked
  end.

Definition markStoredHostDown (h : Host) (cutoff : Time) : WM unit :=
  c ← getC cid;
  next ←
    match c_hosts c !! host_ID h with
    | Some session =>
        if (cutoff <? host_LastHeartbeat (hs_host session))%Z then mret None
        else
          let h' := hostDown (hs_host session) in
          setC cid (removeSession c (host_ID h')) ≫= λ _, mret (Some h')
    | None => mret (Some (hostDown h))
    end;
  match next with
  | None => mret tt
  | Some h' =>
      call (UpdateHost h') ≫= λ _,
      call (ReplaceWarmPoolsForHost (host_Region h') (host_ID h') []) ≫= λ _,
      persistRegion
  end.

Definition reapStaleHosts : WM unit :=
  c ← getC cid;
  if (c_staleHostAfter c <=? 0)%Z then mret tt else
  t ← now;
  let cutoff := (t - c_staleHostAfter c)%Z in
  hosts ← call (ListHostsByRegion (c_region c));
  for_each hosts (λ h,
    if bool_decide (host_State h = HostStateDown) then mret tt
    else if (cutoff <? host_LastHeartbeat h)%Z then mret tt
    else markStoredHostDown h cutoff).

(** ** Direct invocation waiters *)

Definition terminalUpdate (u : AssignmentUpdate) : bool :=
  bool_decide (au_State u = ASSIGNMENT_STATE_SUCCEEDED) ||
  bool_decide (au_State u = ASSIGNMENT_STATE_FAILED).

(** [make(chan *regionv1.AssignmentUpdate, 16)] *)
Definition updatesCap : nat := 16.

Definition putWaiter (c : Coordinator) (attemptID : string) (wt : directInvokeWaiter) : Coordinator :=
  c <| c_waiters := <[attemptID := wt]> (c_waiters c) |>.

(** A non-blocking send on the waiter's channel: [None] when it has no room. *)
Definition trySend (q : list AssignmentUpdate) (u : AssignmentUpdate) :
    option (list AssignmentUpdate) :=
  if (length q <? updatesCap)%nat then Some (q ++ [u]) else None.

Definition handleDirectInvokeUpdate (msg : AssignmentUpdate) : WM bool :=
  c ← getC cid;
  if negb (bool_decide (au_AttemptId msg ∈ c_directInvokes c)) then mret false else
  let terminal := terminalUpdate msg in
  let c := if terminal
           then c <| c_directInvokes := c_directInvokes c ∖ {[au_AttemptId msg]} |> else c in
  setC cid c ≫= λ _,
  match c_waiters c !! au_AttemptId msg with
  | Some (mkDirectInvokeWaiter (Some q) false) =>
      match trySend q msg with
      | Some q' =>
          setC cid (putWaiter c (au_AttemptId msg) (mkDirectInvokeWaiter (Some q') false)) ≫= λ _,
          mret true
      | None =>
          (if terminal then spawn cid (GoDeliver msg) else mret tt) ≫= λ _,
          mret true
      end
  | _ => mret true
  end.

(** The goroutine that delivers a final update to a full channel: [false] while
    it is blocked. *)
Definition deliverGoroutine (msg : AssignmentUpdate) : WM bool :=
  c ← getC cid;
  match c_waiters c !! au_AttemptId msg with
  | Some (mkDirectInvokeWaiter (Some q) canceled) =>
      match trySend q msg with
      | Some q' =>
          setC cid (putWaiter c (au_AttemptId msg) (mkDirectInvokeWaiter (Some q') canceled)) ≫= λ _,
          mret true
      | None => mret false
      end
  | _ => mret false
  end.

Definition cancelDirectInvoke (attemptID : string) : WM unit :=
  c ← getC cid;
  if bool_decide (attemptID ∈ c_directInvokes c)
  then setC cid (putWaiter c attemptID (mkDirectInvokeWaiter None true))
  else mret tt.

Definition removeDirectInvoke (attemptID : string) : WM unit :=
  c ← getC cid;
  setC cid (c <| c_directInvokes := c_directInvokes c ∖ {[attemptID]} |>).

(** ** Assignment updates *)

Definition resultOf (msg : AssignmentUpdate) (t : Time) (attempt : Attempt) : JobResult :=
  mkJobResult (au_ExitCode msg) (au_Logs msg)
    (ExecutionLogsKey (au_JobId msg) (au_AttemptId msg)) (au_OutputJson msg)
    (ExecutionOutputKey (au_JobId msg) (au_AttemptId msg)) (au_HostId msg) (au_Region msg)
    (startTimeOr t (att_StartedAt attempt)) t 0.

(** The [switch] of [handleAssignmentUpdate] on the loaded records. *)
Definition applyUpdate (retrySet : bool) (msg : AssignmentUpdate) (t : Time)
    (attempt : Attempt) (job : ExecutionJob) : Attempt * ExecutionJob :=
  let attempt := attempt <| att_UpdatedAt := t |> <| att_HostID := au_HostId msg |> in
  let live st := attempt <| att_State := st |>
    <| att_StartedAt := if IsZero (att_StartedAt attempt) then t else att_StartedAt attempt |>
    <| att_LeaseExpiresAt := (t + 30 * Second)%Z |> in
  let '(attempt, job) :=
    match au_State msg with
    | ASSIGNMENT_STATE_UNSPECIFIED => (attempt, job)
    | ASSIGNMENT_STATE_STARTING =>
        (live AttemptStateStarting, job <| job_State := JobStateAssigned |>)
    | ASSIGNMENT_STATE_RUNNING =>
        (live AttemptStateRunning, job <| job_State := JobStateRunning |>)
    | ASSIGNMENT_STATE_SUCCEEDED =>
        (attempt <| att_State := AttemptStateSucceeded |> <| att_LeaseExpiresAt := t |>,
         job <| job_State := JobStateSucceeded |> <| job_Error := "" |>
             <| job_Result := Some (resultOf msg t attempt) |>)
    | ASSIGNMENT_STATE_FAILED =>
        (attempt <| att_State := AttemptStateFailed |> <| att_LeaseExpiresAt := t |>
                 <| att_Error := au_ErrorMessage msg |>,
         job <| job_Error := au_ErrorMessage msg |>
             <| job_Result := Some (resultOf msg t attempt) |>
             <| job_State := if (job_AttemptCount job <=? job_MaxRetries job)%Z && retrySet
                             then JobStateRetrying else JobStateFailed |>)
    end in
  (attempt, job <| job_UpdatedAt := t |>).

(** The billed milliseconds of an attempt that ended at [finishedAt]. *)
Definition billedMs (finishedAt startedAt : Time) : Z :=
  let runtime := Sub finishedAt startedAt in
  let runtime := if (runtime <? 0)%Z then 0%Z else runtime in
  let ms := Milliseconds runtime in
  if (ms =? 0)%Z && negb (IsZero finishedAt) && negb (IsZero startedAt) &&
     negb (finishedAt <? startedAt)%Z then 1%Z else ms.

Definition isWarm (m : StartMode) : bool :=
  bool_decide (m = StartModeBlankWarm) || bool_decide (m = StartModeFunctionWarm).

Definition recordCost (attempt : Attempt) (job : ExecutionJob) : WM unit :=
  match job_Result job with
  | None => mret tt
  | Some res =>
      version ← call (GetFunctionVersion (job_FunctionVersionID job));
      project ← call (GetProject (job_ProjectID job));
      let runtimeMs := billedMs (jr_FinishedAt res)
                         (startTimeOr (jr_FinishedAt res) (att_StartedAt attempt)) in
      t ← now;
      call (PutCostRecord (mkCostRecord (att_ID attempt) (prj_TenantID project) (prj_ID project)
        (job_ID job) (att_ID attempt) (jr_HostID res) (jr_Region res) (att_StartMode attempt)
        runtimeMs (int64_of (fv_MemoryMB version * runtimeMs))
        (if isWarm (att_StartMode attempt) then runtimeMs else 0)
        (Z.of_nat (String.length (jr_Logs res) + String.length (jr_Output res))) t))
  end.

Definition handleAssignmentUpdate (msg : AssignmentUpdate) : WM unit :=
  direct ← handleDirectInvokeUpdate msg;
  if direct : bool then mret tt else
  attempt ← call (GetAttempt (au_AttemptId msg));
  job ← call (GetExecutionJob (au_JobId msg));
  t ← now;
  c ← getC cid;
  let '(attempt, job) := applyUpdate (c_retry c) msg t attempt job in
  call (UpdateAttempt attempt) ≫= λ _,
  call (UpdateExecutionJob job) ≫= λ _,
  (if terminalUpdate msg then recordCost attempt job else mret tt) ≫= λ _,
  if bool_decide (au_State msg = ASSIGNMENT_STATE_FAILED) &&
     bool_decide (job_State job = JobStateRetrying)
  then spawn cid (GoRetry (job_ID job)) else mret tt.

(** The retry goroutine; [retry] is the [Retryer]'s method. *)
Definition retryGoroutine (retry : string → WM ExecutionJob) (jobID : string) : WM unit :=
  retried ← try (retry jobID);
  match retried with
  | Ok _ => mret tt
  | Err e =>
      latest ← try (call (GetExecutionJob jobID));
      match latest with
      | Err _ => mret tt
      | Ok latest =>
          t ← now;
          ignore (call (UpdateExecutionJob (latest <| job_State := JobStateFailed |>
            <| job_Error := Error e |> <| job_UpdatedAt := t |>)))
      end
  end.

(** ** Warm preparation *)

(** [PrepareFunctionWarm] of a non-nil version. *)
Definition PrepareFunctionWarm (ctx : Ctx) (version : FunctionVersion) : WM unit :=
  artifactMeta ← call (GetArtifact (fv_ArtifactDigest version));
  '(hostID, session, alreadyWarm) ← pickWarmHost (fv_ID version) (fv_NetworkPolicy version);
  if alreadyWarm : bool then mret tt else
  let msg := mkPrepareSnapshot hostID SNAPSHOT_KIND_FUNCTION (fv_ID version)
               (art_BundleKey artifactMeta) (fv_Entrypoint version)
               (cloneStringMap (Some (fv_EnvVars version))) (fv_NetworkPolicy version)
               (int32_of (fv_TimeoutSec version)) (int32_of (fv_MemoryMB version)) in
  if hs_preparer session then spawn cid (GoPrepare hostID msg) else
  match select_send (hasRoom (hs_sendCh session)) ctx with
  | SelSend => enqueueControl hostID (MsgPrepare msg)
  | SelDone e =>
      restorePreparationReservation hostID (fv_NetworkPolicy version) ≫= λ _, fail e
  | SelDefault =>
      restorePreparationReservation hostID (fv_NetworkPolicy version) ≫= λ _,
      fail (controlChannelFull hostID)
  end.

(** ** Direct execution

    After the assignment is sent, [ExecuteDirectStream] waits in a loop while
    the rest of the system runs.  A run of the loop is given by a list of
    [WaitEvent]s: an action of the rest of the system on the world, or one
    execution of the [select] with the context as it is then.  When the list
    ends the context has expired. *)

Inductive WaitEvent :=
| EvOther (f : World → World)
| EvSelect (ctx : Ctx).

Definition directStart (a : Assignment) (ctx : Ctx) (onMeta : OnMeta) :
    WM (Assignment * StartMode) :=
  a ← (if blank (asg_AttemptID a)
       then u ← NewString; mret (a <| asg_AttemptID := "direct-attempt-" +:+ u |>)
       else mret a);
  a ← (if blank (asg_JobID a)
       then u ← NewString; mret (a <| asg_JobID := "direct-job-" +:+ u |>)
       else mret a);
  '(hostID, session, startMode) ← pickHostForExecution a;
  match onMeta with
  | Some f => modify (f (asg_JobID a) (asg_AttemptID a) startMode)
  | None => mret tt
  end ≫= λ _,
  c ← getC cid;
  setC cid (putWaiter (c <| c_directInvokes := {[asg_AttemptID a]} ∪ c_directInvokes c |>)
              (asg_AttemptID a) (mkDirectInvokeWaiter (Some []) false)) ≫= λ _,
  let execAssignment := wireAssignment a in
  (if hs_executor session then spawn cid (GoExecute hostID execAssignment) else
   match select_send (hasRoom (hs_sendCh session)) ctx with
   | SelSend => enqueueControl hostID (MsgAssignment execAssignment)
   | SelDone e =>
       removeDirectInvoke (asg_AttemptID a) ≫= λ _,
       restoreHostReservation hostID (asg_FunctionVersionID a) startMode (asg_NetworkPolicy a) ≫= λ _,
       fail e
   | SelDefault =>
       removeDirectInvoke (asg_AttemptID a) ≫= λ _,
       restoreHostReservation hostID (asg_FunctionVersionID a) startMode (asg_NetworkPolicy a) ≫= λ _,
       fail (controlChannelFull hostID)
   end) ≫= λ _,
  mret (a, startMode).

(** The value returned for a final update. *)
Definition directResult (a : Assignment) (startMode : StartMode) (startedAt finishedAt : Time)
    (update : AssignmentUpdate) : DirectExecutionResult :=
  let ms := Milliseconds (Sub finishedAt startedAt) in
  mkDirectExecutionResult (asg_JobID a) (asg_AttemptID a)
    (if bool_decide (au_State update = ASSIGNMENT_STATE_FAILED) then JobStateFailed
     else JobStateSucceeded)
    (au_ErrorMessage update) startMode
    (Some (mkJobResult (au_ExitCode update) (au_Logs update) "" (au_OutputJson update) ""
             (au_HostId update) (au_Region update) startedAt finishedAt
             (if (ms <=? 0)%Z then 1%Z else ms)))
    finishedAt startedAt.

(** One received update: [None] to go on waiting.  [unmarshal] is
    [json.Unmarshal] into an [HTTPStreamEvent]. *)
Definition directReceive (unmarshal : string → result HTTPStreamEvent) (onHTTPEvent : OnHTTPEvent)
    (a : Assignment) (startMode : StartMode) (startedAt : Time) (update : AssignmentUpdate) :
    WM (option DirectExecutionResult) :=
  match au_State update with
  | ASSIGNMENT_STATE_UNSPECIFIED => mret None
  | ASSIGNMENT_STATE_STARTING | ASSIGNMENT_STATE_RUNNING =>
      match onHTTPEvent with
      | Some f =>
          if bool_decide (au_OutputJson update = "") then mret None
          else event ← lift (unmarshal (au_OutputJson update)); f event ≫= λ _, mret None
      | None => mret None
      end
  | ASSIGNMENT_STATE_SUCCEEDED | ASSIGNMENT_STATE_FAILED =>
      finishedAt ← now;
      mret (Some (directResult a startMode startedAt finishedAt update))
  end.

(** Receive from the waiter's channel, if an update is buffered. *)
Definition directPop (attemptID : string) : WM (option AssignmentUpdate) :=
  c ← getC cid;
  match c_waiters c !! attemptID with
  | Some (mkDirectInvokeWaiter (Some (u :: q)) canceled) =>
      setC cid (putWaiter c attemptID (mkDirectInvokeWaiter (Some q) canceled)) ≫= λ _,
      mret (Some u)
  | _ => mret None
  end.

Definition directCanceled {A} (attemptID : string) (e : GoError) : WM A :=
  cancelDirectInvoke attemptID ≫= λ _, fail e.

(** One execution of the [select]: with the context done and an update buffered
    either case may be taken. *)
Definition directSelect (unmarshal : string → result HTTPStreamEvent) (onHTTPEvent : OnHTTPEvent)
    (a : Assignment) (startMode : StartMode) (startedAt : Time) (ctx : Ctx) :
    WM (option DirectExecutionResult) :=
  let receive :=
    u ← directPop (asg_AttemptID a);
    match u with
    | Some u => directReceive unmarshal onHTTPEvent a startMode startedAt u
    | None =>
        match ctx_Err ctx with
        | Some e => directCanceled (asg_AttemptID a) e
        | None => mret None
        end
    end in
  match ctx_Err ctx with
  | Some e => if ctx_pick ctx then receive else directCanceled (asg_AttemptID a) e
  | None => receive
  end.

Fixpoint directWait (unmarshal : string → result HTTPStreamEvent) (onHTTPEvent : OnHTTPEvent)
    (a : Assignment) (startMode : StartMode) (startedAt : Time) (events : list WaitEvent) :
    WM DirectExecutionResult :=
  match events with
  | [] => directCanceled (asg_AttemptID a) (sentinel ContextDeadlineExceeded)
  | EvOther f :: rest =>
      modify f ≫= λ _, directWait unmarshal onHTTPEvent a startMode startedAt rest
  | EvSelect ctx :: rest =>
      r ← directSelect unmarshal onHTTPEvent a startMode startedAt ctx;
      match r with
      | Some res => mret res
      | None => directWait unmarshal onHTTPEvent a startMode startedAt rest
      end
  end.

Definition ExecuteDirectStreamC (unmarshal : string → result HTTPStreamEvent) (ctx : Ctx)
    (a : Assignment) (onMeta : OnMeta) (onHTTPEvent : OnHTTPEvent) (events : list WaitEvent) :
    WM DirectExecutionResult :=
  startedAt ← now;
  '(a, startMode) ← directStart a ctx onMeta;
  directWait unmarshal onHTTPEvent a startMode startedAt events.

(** ** The control stream of a host *)

Inductive StreamEvent :=
| RecvMessage (m : AgentMessage)
| RecvEOF
| RecvErr (e : GoError)
| SendErr (e : GoError).

Inductive ControlOutcome :=
| Continue (hostID : string)
| Return (err : option GoError).

Definition streamLost (hostID : string) (err : option GoError) : WM ControlOutcome :=
  (if bool_decide (hostID = "") then mret tt else markHostDown hostID) ≫= λ _,
  mret (Return err).

(** A handler whose error ends the stream. *)
Definition orReturn (hostID : string) (m : WM unit) : WM ControlOutcome :=
  r ← try m;
  match r with Ok _ => mret (Continue hostID) | Err e => mret (Return (Some e)) end.

(** One iteration of the loop of [Control] (a stream registers one host). *)
Definition controlStep (hostID : string) (ev : StreamEvent) : WM ControlOutcome :=
  match ev with
  | SendErr e => streamLost hostID (Some e)
  | RecvEOF => streamLost hostID None
  | RecvErr e => streamLost hostID (Some e)
  | RecvMessage (MsgRegister msg) =>
      orReturn (rh_HostId msg)
        (registerHostSession msg (Some []) false false ≫= λ _,
         enqueueControl (rh_HostId msg) (MsgRegistered (rh_HostId msg)))
  | RecvMessage (MsgHeartbeat msg) => orReturn hostID (updateHeartbeatContext msg)
  | RecvMessage (MsgAssignmentUpdate msg) => orReturn hostID (handleAssignmentUpdate msg)
  end.

Fixpoint Control (hostID : string) (events : list StreamEvent) : WM ControlOutcome :=
  match events with
  | [] => mret (Continue hostID)
  | ev :: rest =>
      o ← controlStep hostID ev;
      match o with
      | Continue hostID' => Control hostID' rest
      | Return err => mret (Return err)
      end
  end.

(** ** The coordinator as a dispatcher of the scheduler *)

Definition asDispatcher (bus : option (string → Assignment → WM unit))
    (unmarshal : string → result HTTPStreamEvent) (ctx : Ctx) (events : list WaitEvent) :
    Dispatcher :=
  mkDispatcher cid Stats (EnqueueExecution bus ctx)
    (Some (λ a, ExecuteDirectStreamC unmarshal ctx a None None events))
    (Some (λ a onMeta onHTTPEvent, ExecuteDirectStreamC unmarshal ctx a onMeta onHTTPEvent events))
    (Some (PrepareFunctionWarm ctx)).

End Coordinator.
