(* ===== verification/CoordinatorInv.v ===== *)
(** * CoordinatorInv: the coordinator's memory and the system invariant

    Which host [pickHost] and [pickWarmHost] choose, why no counter of a host
    becomes negative, and that every handler of the coordinator keeps the system
    invariant, so that a coordinator meets the contract of a dispatcher. *)

From stdpp Require Import base decidable tactics numbers list gmap strings sorting.
From S2P Require Import Prelude Domain MemStore World Jobs Scheduler Artifacts Coordinator.

(** ** What the coordinators' memory goes through

    Store calls, clock readings and UUIDs leave the coordinators alone, so the
    memory of a coordinator changes only where the code assigns to it. *)

Definition coords_fixed {A} (m : WM A) : Prop := ∀ w, w_coords (m w).2 = w_coords w.

Section Fixed.
Context `{E : !GoEnv}.

Lemma fixed_ret {A} (a : A) : coords_fixed (mret a).
Proof. by intros w. Qed.

Lemma fixed_bind {A B} (m : WM A) (f : A → WM B) :
  coords_fixed m → (∀ a, coords_fixed (f a)) → coords_fixed (m ≫= f).
Proof.
  intros Hm Hf w. specialize (Hm w). unfold mbind, M_bind.
  destruct (m w) as [[a|e] w']; [|done]. simpl in *. by rewrite Hf.
Qed.

Lemma fixed_ignore {A} (m : WM A) : coords_fixed m → coords_fixed (ignore m).
Proof. intros Hm w. specialize (Hm w). unfold ignore, try, mbind, M_bind. by destruct (m w). Qed.

Lemma fixed_now : coords_fixed now.
Proof. by intros w. Qed.

Lemma fixed_call {A} (op : StoreM A) : coords_fixed (call op).
Proof.
  intros w. unfold call. destruct (env_fault _); [done|]. simpl. by destruct (op _).
Qed.

Lemma run_ignored {A} (m : WM A) w : ∃ w', ignore m w = (Ok tt, w').
Proof. unfold ignore, try, mbind, M_bind. destruct (m w). eauto. Qed.

End Fixed.

Section Memory.
Context `{E : !GoEnv} (cid : string).

Lemma fixed_persistRegionLocked : coords_fixed (persistRegionLocked cid).
Proof.
  apply fixed_bind; [by intros w|]. intros c. apply fixed_bind.
  - case_match; [apply fixed_now|apply fixed_ret].
  - intros. apply fixed_call.
Qed.

(** Publishing never fails and leaves the memory alone. *)
Lemma publishHost_ok h w :
  ∃ w', publishHost cid h w = (Ok tt, w') ∧ w_coords w' = w_coords w.
Proof.
  assert (coords_fixed (publishHost cid h)) as Hf.
  { unfold publishHost. apply fixed_bind; [apply fixed_ignore, fixed_call|]. intros _.
    apply fixed_bind; [apply fixed_now|]. intros t.
    apply fixed_bind; [apply fixed_ignore, fixed_call|]. intros _.
    apply fixed_ignore, fixed_persistRegionLocked. }
  specialize (Hf w). exists (publishHost cid h w).2. split; [|done].
  apply injective_projections; [|done]. simpl. unfold publishHost.
  destruct (run_ignored (call (UpdateHost h)) w) as [w1 E1]. erewrite run_bind by done.
  erewrite run_bind by done.
  match goal with |- context [mbind _ (ignore ?m) ?w0] =>
    destruct (run_ignored m w0) as [w2 E2] end.
  erewrite run_bind by done.
  match goal with |- context [ignore ?m ?w0] => destruct (run_ignored m w0) as [w3 ->] end.
  done.
Qed.

Lemma coordOf_put c w : coordOf (putCoord cid c w) cid = c.
Proof. unfold coordOf, putCoord. simpl. by rewrite lookup_insert_eq. Qed.

Lemma coordOf_coords w w' : w_coords w' = w_coords w → coordOf w' cid = coordOf w cid.
Proof. intros Ec. unfold coordOf. by rewrite Ec. Qed.

(** ** Choosing a host *)

#[export] Instance pick_less_swo : StrictWeakOrder pick_less.
Proof. eapply (swo_ext (flip_less (less_by pk_score))); [done|apply _]. Qed.

Lemma elem_of_pickCandidates np score site hosts p :
  p ∈ pickCandidates np score site hosts ↔
  hosts !! pk_id p = Some (pk_session p) ∧ hostUsable np (hs_host (pk_session p)) = true ∧
  pk_score p = score (hs_host (pk_session p)).
Proof.
  unfold pickCandidates. rewrite list_elem_of_fmap. split.
  - intros ([id s] & -> & Hin). apply list_elem_of_filter in Hin as [Hu Hin].
    rewrite elem_of_map_iter in Hin. done.
  - intros (H1 & H2 & H3). exists (pk_id p, pk_session p). split.
    + destruct p; simpl in *. by rewrite H3.
    + apply list_elem_of_filter. split; [done|]. by apply elem_of_map_iter.
Qed.

(** The first of the sorted candidates: usable, with the highest score. *)
Definition best_host (np : string) (score : Host → Z) (hosts : gmap string hostSession)
    (id : string) (s : hostSession) : Prop :=
  hosts !! id = Some s ∧ hostUsable np (hs_host s) = true ∧
  ∀ id' s', hosts !! id' = Some s' → hostUsable np (hs_host s') = true →
    (score (hs_host s') ≤ score (hs_host s))%Z.

Lemma pick_first np score site hosts :
  match SliceStable pick_less (pickCandidates np score site hosts) with
  | p :: _ => best_host np score hosts (pk_id p) (pk_session p)
  | [] => ∀ id s, hosts !! id = Some s → hostUsable np (hs_host s) = false
  end.
Proof.
  destruct (SliceStable _ _) as [|p l] eqn:Es.
  - apply SliceStable_nil_iff in Es. intros id s Hs.
    destruct (hostUsable np (hs_host s)) eqn:Hu; [|done]. exfalso.
    apply (not_elem_of_nil (mkPick id s (score (hs_host s)))). rewrite <- Es.
    by apply elem_of_pickCandidates.
  - assert (p ∈ pickCandidates np score site hosts) as Hp.
    { rewrite <- (elem_of_SliceStable pick_less), Es. left. }
    apply elem_of_pickCandidates in Hp as (H1 & H2 & H3). split_and!; [done..|].
    intros id' s' Hs' Hu'.
    pose proof (SliceStable_head_min pick_less p (pickCandidates np score site hosts) l
      (mkPick id' s' (score (hs_host s'))) Es) as Hm.
    rewrite elem_of_pickCandidates in Hm. specialize (Hm ltac:(done)).
    unfold pick_less in Hm. simpl in Hm. rewrite H3 in Hm. apply Z.ltb_ge in Hm. done.
Qed.

Lemma pickHost_cases a w :
  let c := coordOf w cid in
  match pickHost cid a w with
  | (Ok (hostID, s', mode), w') =>
      ∃ s, best_host (asg_NetworkPolicy a) (hostScore (asg_FunctionVersionID a)) (c_hosts c) hostID s ∧
        mode = classifyStartMode (hs_host s) (asg_FunctionVersionID a) ∧
        s' = s <| hs_host := reserveOn (hs_host s) (asg_FunctionVersionID a) (asg_NetworkPolicy a) mode |> ∧
        coordOf w' cid = putSession c hostID s' ∧
        ∀ cid', cid' ≠ cid → coordOf w' cid' = coordOf w cid'
  | (Err e, w') =>
      e = plainErr (noActiveHosts (c_region c)) ∧ w' = w ∧
      ∀ id s, c_hosts c !! id = Some s → hostUsable (asg_NetworkPolicy a) (hs_host s) = false
  end.
Proof.
  intros c. unfold pickHost. erewrite run_bind by done. fold c.
  pose proof (pick_first (asg_NetworkPolicy a) (hostScore (asg_FunctionVersionID a)) 803 (c_hosts c)) as Hp.
  destruct (SliceStable _ _) as [|p l]; [done|].
  erewrite run_bind by done.
  match goal with |- context [mbind _ (publishHost cid ?h) ?w0] =>
    destruct (publishHost_ok h w0) as (w' & Ew & Ec) end.
  erewrite run_bind by done. simpl. exists (pk_session p). split_and!; try done.
  - rewrite (coordOf_coords _ _ Ec). apply coordOf_put.
  - intros cid' Hne. unfold coordOf. rewrite Ec. simpl. by rewrite lookup_insert_ne.
Qed.

End Memory.

(** ** The counters of a host

    No reservation takes a counter below zero: what the region reports as free
    is never negative. *)

Record host_ok (h : Host) : Prop := {
  ok_slots : (0 ≤ host_AvailableSlots h)%Z;
  ok_full : (0 ≤ host_AvailableFullNetworkSlots h)%Z;
  ok_blank : (0 ≤ host_BlankWarm h)%Z;
  ok_warm : ∀ f, (0 ≤ map_get0 (host_FunctionWarm h) f)%Z;
}.

(** What a coordinator stores of a host is what its agent reports, and nothing in
    [registerHostSession] and [updateHeartbeatContext] looks at the signs: the
    counters are non-negative when the reports are ([honest]). *)
Definition coord_ok (honest : Prop) (c : Coordinator) : Prop :=
  map_Forall (λ _ s, honest → host_ok (hs_host s)) (c_hosts c).
Definition coords_ok (honest : Prop) (m : gmap string Coordinator) : Prop :=
  map_Forall (λ _, coord_ok honest) m.

Lemma map_get0_insert m k v f :
  map_get0 (<[k := v]> m) f = if decide (f = k) then v else map_get0 m f.
Proof.
  unfold map_get0. case_decide; subst; [by rewrite lookup_insert_eq|by rewrite lookup_insert_ne].
Qed.

(** *** Host updates *)

Lemma hostUsable_spec np h :
  hostUsable np h = true ↔
  host_State h = HostStateActive ∧ (0 < host_AvailableSlots h)%Z ∧
  (np = NetworkPolicyFull → (0 < host_AvailableFullNetworkSlots h)%Z).
Proof.
  unfold hostUsable, hostActive, isFull. rewrite !andb_true_iff, negb_true_iff, andb_false_iff.
  rewrite bool_decide_eq_true, bool_decide_eq_false, Z.ltb_lt, Z.leb_gt. split.
  - intros [[H1 H2] [H3|H3]]; [done|]. by split_and!.
  - intros (H1 & H2 & H3). split; [done|]. destruct (decide (np = NetworkPolicyFull)); auto.
Qed.

Lemma reserveOn_ok np h f mode :
  hostUsable np h = true → host_ok h → host_ok (reserveOn h f np mode).
Proof.
  intros (Ha & Hs & Hf)%hostUsable_spec [H1 H2 H3 H4].
  unfold reserveOn, isFull. case_bool_decide as Hn; [specialize (Hf Hn)|];
    destruct mode; simpl; try (split; simpl; auto; lia).
  all: case_match eqn:Eb; apply Z.ltb_lt in Eb || apply Z.ltb_ge in Eb; split; simpl in *; auto; try lia.
  all: intros g; rewrite map_get0_insert; case_decide; [lia|auto].
Qed.

Lemma fullOf_nonneg np : (0 ≤ fullOf np)%Z.
Proof. unfold fullOf. destruct (isFull np); lia. Qed.

Lemma unreserveOn_ok np h f mode : host_ok h → host_ok (unreserveOn h f np mode).
Proof.
  intros [H1 H2 H3 H4]. pose proof (fullOf_nonneg np). unfold unreserveOn.
  destruct mode; split; simpl; auto; try lia.
  intros g. rewrite map_get0_insert. case_decide; [|auto]. specialize (H4 f). lia.
Qed.

Lemma hostDown_ok h : host_ok (hostDown h).
Proof. split; simpl; try lia. intros f. unfold map_get0. rewrite lookup_empty. done. Qed.

Lemma drained_ok h : host_ok h → host_ok (h <| host_State := HostStateDraining |>
  <| host_AvailableSlots := 0%Z |> <| host_AvailableFullNetworkSlots := 0%Z |>).
Proof. intros []. by split. Qed.

(** The counters an agent reports. *)
Definition metrics_ok (l : list WarmPoolMetric) : Prop := Forall (λ m, 0 ≤ wpm_Available m)%Z l.

Lemma warmMap_ok l f : metrics_ok l → (0 ≤ map_get0 (warmMap l) f)%Z.
Proof.
  unfold warmMap. intros Hl.
  assert (∀ m : gmap string Z, (∀ f, 0 ≤ map_get0 m f)%Z →
    (0 ≤ map_get0 (foldl (λ m x, <[wpm_FunctionVersionId x := wpm_Available x]> m) m l) f)%Z) as H.
  { induction Hl as [|x l Hx Hl IH]; intros m Hm; simpl; [auto|]. apply IH. intros g.
    rewrite map_get0_insert. case_decide; auto. }
  apply H. intros g. unfold map_get0. rewrite lookup_empty. done.
Qed.

Definition register_ok (m : RegisterHost) : Prop :=
  (0 ≤ rh_AvailableSlots m ∧ 0 ≤ rh_AvailableFullNetworkSlots m ∧ 0 ≤ rh_BlankWarm m)%Z ∧
  metrics_ok (rh_FunctionWarm m).
Definition heartbeat_ok (m : HostHeartbeat) : Prop :=
  (0 ≤ hb_AvailableSlots m ∧ 0 ≤ hb_AvailableFullNetworkSlots m ∧ 0 ≤ hb_BlankWarm m)%Z ∧
  metrics_ok (hb_FunctionWarm m).

(** The messages of an agent, and the events of its control stream. *)
Definition report_ok (m : AgentMessage) : Prop :=
  match m with
  | MsgRegister m => register_ok m
  | MsgHeartbeat m => heartbeat_ok m
  | MsgAssignmentUpdate _ => True
  end.
Definition stream_event_ok (ev : StreamEvent) : Prop :=
  match ev with RecvMessage m => report_ok m | _ => True end.

(** *** Operations

    The system invariant: [jobs_wf] on the store, whatever the agents report, and
    [coords_ok] on the coordinators. *)

Section CoordinatorInvariant.
Context `{E : !GoEnv} (HR : rely E jobs_wf) (cid : string) {honest : Prop}.
Abbreviation Inv := (inv_on jobs_wf (coords_ok honest)).
Abbreviation coord_ok := (coord_ok honest).

Lemma keeps_getC : keeps Inv coord_ok (getC cid).
Proof.
  apply keeps_gets. intros w [_ Hw]. unfold coordOf. destruct (w_coords w !! cid) eqn:El; simpl.
  - by eapply Hw.
  - apply map_Forall_empty.
Qed.

Lemma keeps_setC c : coord_ok c → preserves Inv (setC cid c).
Proof.
  intros Hc. apply keeps_modify; [done|]. intros w [Hs Hw]. split; [done|].
  by apply map_Forall_insert_2.
Qed.

Lemma coord_ok_putHostOf c id s h : coord_ok c → (honest → host_ok h) → coord_ok (putHostOf c id s h).
Proof. intros Hc Hh. unfold coord_ok. simpl. by apply map_Forall_insert_2. Qed.

Lemma coord_ok_putSession c id s : coord_ok c → (honest → host_ok (hs_host s)) → coord_ok (putSession c id s).
Proof. intros Hc Hh. unfold coord_ok. simpl. by apply map_Forall_insert_2. Qed.

Lemma coord_ok_remove c id : coord_ok c → coord_ok (removeSession c id).
Proof. intros Hc. unfold coord_ok. simpl. by apply map_Forall_delete. Qed.

Lemma coord_ok_lookup c id s : coord_ok c → c_hosts c !! id = Some s → honest → host_ok (hs_host s).
Proof. intros Hc. apply Hc. Qed.

#[local] Hint Resolve keeps_getC keeps_setC coord_ok_putHostOf coord_ok_putSession coord_ok_remove
  unreserveOn_ok hostDown_ok drained_ok coord_ok_lookup : keeps.
(** Assignments to the other fields of a coordinator. *)
#[local] Hint Extern 3 (coord_ok _) => eassumption : keeps.

Lemma keeps_spawn g : preserves Inv (spawn cid g).
Proof. unfold spawn. keep. Qed.
#[local] Hint Resolve keeps_spawn : keeps.

Lemma keeps_persistRegionLocked : preserves Inv (persistRegionLocked cid).
Proof. unfold persistRegionLocked. keep. Qed.

Lemma keeps_persistRegion : preserves Inv (persistRegion cid).
Proof. apply keeps_persistRegionLocked. Qed.
#[local] Hint Resolve keeps_persistRegionLocked keeps_persistRegion : keeps.

Lemma keeps_publishHost h : preserves Inv (publishHost cid h).
Proof. unfold publishHost. keep. Qed.
#[local] Hint Resolve keeps_publishHost : keeps.

Lemma keeps_pickHost a : preserves Inv (pickHost cid a).
Proof.
  unfold pickHost. eapply keeps_bind; [eauto with keeps|]. intros c Hc.
  pose proof (pick_first (asg_NetworkPolicy a) (hostScore (asg_FunctionVersionID a)) 803 (c_hosts c)) as Hp.
  destruct (SliceStable _ _) as [|p l]; [apply keeps_fail|]. destruct Hp as (Hs & Hu & _).
  pose proof (λ Hh, reserveOn_ok _ _ (asg_FunctionVersionID a)
    (classifyStartMode (hs_host (pk_session p)) (asg_FunctionVersionID a)) Hu (Hc _ _ Hs Hh)). keep.
Qed.

Lemma keeps_pickWarmHost f np : preserves Inv (pickWarmHost cid f np).
Proof.
  unfold pickWarmHost. eapply keeps_bind; [eauto with keeps|]. intros c Hc.
  destruct (head _) as [[id s]|]; [by apply keeps_ret|].
  pose proof (pick_first np warmScore 858 (c_hosts c)) as Hp.
  destruct (SliceStable _ _) as [|p l]; [apply keeps_fail|]. destruct Hp as (Hs & Hu & _).
  pose proof (λ Hh, reserveOn_ok _ _ f StartModeUnset Hu (Hc _ _ Hs Hh)). keep.
Qed.

Lemma keeps_restoreHostReservation h f m p : preserves Inv (restoreHostReservation cid h f m p).
Proof. unfold restoreHostReservation. keep. Qed.

Lemma keeps_restorePreparationReservation h p :
  preserves Inv (restorePreparationReservation cid h p).
Proof. unfold restorePreparationReservation. keep. Qed.

Lemma keeps_releaseHostSlot id np : preserves Inv (releaseHostSlot cid id np).
Proof.
  unfold releaseHostSlot. eapply keeps_bind; [eauto with keeps|]. intros c Hc.
  destruct (c_hosts c !! id) as [s|] eqn:Es; [|by apply keeps_ret]. cbn zeta.
  assert (honest → host_ok (if hostActive (hs_host s) then
    (hs_host s) <| host_AvailableSlots := (host_AvailableSlots (hs_host s) + 1)%Z |>
      <| host_AvailableFullNetworkSlots :=
        (host_AvailableFullNetworkSlots (hs_host s) + fullOf np)%Z |> else hs_host s)).
  { intros Hh. destruct (Hc _ _ Es Hh) as [H1 H2 H3 H4]. pose proof (fullOf_nonneg np).
    destruct (hostActive _); split; simpl; auto; lia. }
  keep.
Qed.

Lemma keeps_enqueueControl id m : preserves Inv (enqueueControl cid id m).
Proof.
  unfold enqueueControl. eapply keeps_bind; [eauto with keeps|]. intros c Hc.
  destruct (c_hosts c !! id) as [s|] eqn:Es; [|by apply keeps_ret].
  apply keeps_setC, coord_ok_putSession; [done|]. exact (Hc _ _ Es).
Qed.
#[local] Hint Resolve keeps_pickHost keeps_pickWarmHost keeps_restoreHostReservation
  keeps_restorePreparationReservation keeps_enqueueControl : keeps.

Lemma keeps_pickHostForExecution a : preserves Inv (pickHostForExecution cid a).
Proof. unfold pickHostForExecution. keep. Qed.
#[local] Hint Resolve keeps_pickHostForExecution : keeps.

Lemma keeps_assignExecution ctx a : preserves Inv (assignExecution cid ctx a).
Proof. unfold assignExecution. keep. Qed.

Lemma keeps_registerHostSession m ch e p :
  (honest → register_ok m) → preserves Inv (registerHostSession cid m ch e p).
Proof.
  intros Hm. unfold registerHostSession.
  assert (∀ t, honest → host_ok (mkHost (rh_HostId m) (rh_Region m) (rh_Driver m) HostStateActive
    (rh_AvailableSlots m) (rh_AvailableFullNetworkSlots m) (rh_BlankWarm m)
    (warmMap (rh_FunctionWarm m)) t))
    by (intros t ((H1 & H2 & H3) & H4)%Hm; split; simpl; auto using warmMap_ok).
  keep.
Qed.

Lemma keeps_updateHeartbeatContext m :
  (honest → heartbeat_ok m) → preserves Inv (updateHeartbeatContext cid m).
Proof.
  intros Hm. unfold updateHeartbeatContext.
  assert (∀ h t, honest → host_ok (h <| host_AvailableSlots := hb_AvailableSlots m |>
    <| host_AvailableFullNetworkSlots := hb_AvailableFullNetworkSlots m |>
    <| host_BlankWarm := hb_BlankWarm m |> <| host_FunctionWarm := warmMap (hb_FunctionWarm m) |>
    <| host_LastHeartbeat := t |>))
    by (intros h t ((H1 & H2 & H3) & H4)%Hm; split; simpl; auto using warmMap_ok).
  keep.
Qed.

Lemma keeps_DrainHost ctx h r : preserves Inv (DrainHost cid ctx h r).
Proof. unfold DrainHost. keep. Qed.

Lemma keeps_markHostDown h : preserves Inv (markHostDown cid h).
Proof. unfold markHostDown. keep. Qed.
#[local] Hint Resolve keeps_assignExecution keeps_registerHostSession keeps_updateHeartbeatContext
  keeps_markHostDown : keeps.

Lemma keeps_markStoredHostDown h cutoff : preserves Inv (markStoredHostDown cid h cutoff).
Proof. unfold markStoredHostDown. keep. Qed.

Lemma keeps_reapStaleHosts : preserves Inv (reapStaleHosts cid).
Proof.
  unfold reapStaleHosts. keep. apply keeps_for_each; [done|]. intros h _. keep.
  apply keeps_markStoredHostDown.
Qed.

Lemma keeps_handleDirectInvokeUpdate m : preserves Inv (handleDirectInvokeUpdate cid m).
Proof.
  unfold handleDirectInvokeUpdate. eapply keeps_bind; [eauto with keeps|]. intros c Hc.
  case_match; [by apply keeps_ret|]. cbn zeta.
  match goal with |- context [setC cid ?c'] =>
    assert (coord_ok c') as Hc' by (by destruct (terminalUpdate m)); generalize dependent c' end.
  intros c' Hc'. keep.
Qed.

Lemma keeps_deliverGoroutine m : preserves Inv (deliverGoroutine cid m).
Proof. unfold deliverGoroutine. keep. Qed.

Lemma keeps_cancelDirectInvoke a : preserves Inv (cancelDirectInvoke cid a).
Proof. unfold cancelDirectInvoke. keep. Qed.

Lemma keeps_removeDirectInvoke a : preserves Inv (removeDirectInvoke cid a).
Proof. unfold removeDirectInvoke. keep. Qed.
#[local] Hint Resolve keeps_handleDirectInvokeUpdate keeps_cancelDirectInvoke
  keeps_removeDirectInvoke : keeps.

Lemma applyUpdate_job_ok retry msg t att j :
  job_ok j → job_ok (applyUpdate retry msg t att j).2.
Proof.
  intros []. unfold applyUpdate. destruct (au_State msg); split; simpl; try done; try by eauto.
  all: by case_match.
Qed.

Lemma keeps_recordCost a j : preserves Inv (recordCost a j).
Proof. unfold recordCost. keep. Qed.
#[local] Hint Resolve keeps_recordCost : keeps.

Lemma keeps_handleAssignmentUpdate m : preserves Inv (handleAssignmentUpdate cid m).
Proof.
  unfold handleAssignmentUpdate. keep.
  match goal with Hj : job_ok ?j, E : applyUpdate ?r ?m ?t ?a ?j = _ |- _ =>
    pose proof (applyUpdate_job_ok r m t a j Hj) as Hok; rewrite E in Hok; simpl in Hok end.
  keep.
Qed.
#[local] Hint Resolve keeps_handleAssignmentUpdate : keeps.

Lemma keeps_retryGoroutine retry id :
  (∀ id, keeps Inv job_ok (retry id)) → preserves Inv (retryGoroutine retry id).
Proof. intros Hr. unfold retryGoroutine. keep. Qed.

Lemma keeps_PrepareFunctionWarm ctx v : preserves Inv (PrepareFunctionWarm cid ctx v).
Proof. unfold PrepareFunctionWarm. keep. Qed.

Lemma keeps_orReturn h m : preserves Inv m → preserves Inv (orReturn h m).
Proof. intros Hm. unfold orReturn. keep. Qed.

Lemma keeps_controlStep h ev : (honest → stream_event_ok ev) → preserves Inv (controlStep cid h ev).
Proof.
  intros Hev. unfold controlStep, streamLost.
  destruct ev as [[]| | |]; simpl in Hev; keep; apply keeps_orReturn; keep.
Qed.

Lemma keeps_Control h events :
  Forall (λ ev, honest → stream_event_ok ev) events → preserves Inv (Control cid h events).
Proof.
  intros Hev. revert h. induction Hev as [|ev events Hev Hevs IH]; intros h; simpl; [by apply keeps_ret|].
  eapply keeps_bind; [by apply keeps_controlStep|]. intros. keep.
Qed.

Section DirectStream.
Context (unmarshal : string → result HTTPStreamEvent) (onMeta : OnMeta) (onHTTPEvent : OnHTTPEvent).
Context (Hmeta : ∀ g j t m w, onMeta = Some g → Inv w → Inv (g j t m w)).
Context (Hevent : ∀ g ev, onHTTPEvent = Some g → preserves Inv (g ev)).

Definition event_ok (ev : WaitEvent) : Prop :=
  match ev with EvOther f => ∀ w, Inv w → Inv (f w) | EvSelect _ => True end.

Lemma keeps_directStart a ctx : preserves Inv (directStart cid a ctx onMeta).
Proof.
  unfold directStart.
  do 2 (eapply (keeps_bind _ _ _ (λ _, True)); [keep|]; intros ? _).
  eapply keeps_bind; [eauto with keeps|]. intros [[hostID session] mode] _.
  eapply (keeps_bind _ _ _ (λ _, True)).
  { destruct onMeta as [g|]; [|by apply keeps_ret]. apply keeps_modify; [done|].
    intros. by apply (Hmeta g). }
  intros. keep.
Qed.

Lemma keeps_directPop a : preserves Inv (directPop cid a).
Proof. unfold directPop. keep. Qed.
#[local] Hint Resolve keeps_directPop keeps_directStart : keeps.

Lemma keeps_directReceive a m t u :
  preserves Inv (directReceive unmarshal onHTTPEvent a m t u).
Proof.
  unfold directReceive. destruct onHTTPEvent as [g|]; [|keep].
  pose proof (λ ev, Hevent g ev eq_refl). keep.
Qed.
#[local] Hint Resolve keeps_directReceive : keeps.

Lemma keeps_directWait a m t events :
  Forall event_ok events → preserves Inv (directWait cid unmarshal onHTTPEvent a m t events).
Proof.
  induction 1 as [|[f|ctx] events Hev Hevs IH]; simpl.
  - unfold directCanceled. keep.
  - eapply (keeps_bind _ _ _ (λ _, True)); [by apply keeps_modify|]. done.
  - eapply (keeps_bind _ _ _ (λ _, True)); [|intros; keep].
    unfold directSelect, directCanceled. cbn zeta. keep.
Qed.
#[local] Hint Resolve keeps_directWait : keeps.

Lemma keeps_ExecuteDirectStreamC ctx a events :
  Forall event_ok events →
  preserves Inv (ExecuteDirectStreamC cid unmarshal ctx a onMeta onHTTPEvent events).
Proof. intros. unfold ExecuteDirectStreamC. keep. Qed.

End DirectStream.

(** A coordinator meets the contract the scheduler asks of its dispatchers, if
    its bus (when it has one) keeps the invariant. *)
#[export] Instance coordinator_DispatcherOk bus unmarshal ctx events :
  (∀ publish r a, bus = Some publish → preserves Inv (publish r a)) →
  Forall event_ok events →
  DispatcherOk Inv (asDispatcher cid bus unmarshal ctx events).
Proof.
  intros Hbus Hev. split; simpl.
  - intros a. unfold EnqueueExecution. destruct bus as [publish|].
    + pose proof (Hbus publish). keep.
    + eauto with keeps.
  - intros f a [= <-]. by apply keeps_ExecuteDirectStreamC.
  - intros f a m h [= <-] ??. by apply keeps_ExecuteDirectStreamC.
  - intros f v [= <-]. apply keeps_PrepareFunctionWarm.
Qed.

End CoordinatorInvariant.
