(* ===== verification/System.v ===== *)
(** * System: the control plane as a transition system

    One step is one handler of one service: an HTTP request on any route, a
    call of the scheduler, a pass of its loop, a recovery pass, a message on a
    host's control stream, an update of an embedded host, a goroutine a
    coordinator started, a deployment, a build job.  The handlers are the
    definitions of the components; inside a handler other writers may act between
    any two store calls ([env_other]).  The dispatchers of a configuration carry
    the context of a call, so a call runs under one of several configurations
    ([servers]).  The system invariant holds in every reachable state,
    for every choice of dispatchers that meet their contract. *)

From stdpp Require Import base decidable tactics numbers list gmap strings sorting relations.
From S2P Require Import Prelude Domain MemStore World Jobs Scheduler SchedulerFacts Recovery.
From S2P Require Import Artifacts Archive Build BuildFacts Coordinator CoordinatorInv.
From S2P Require Import Http HttpApi HttpPublic HttpInv HttpFacts.

Section System.
Context `{E : !GoEnv, BE : !BuildEnv, HE : !HttpEnv, PE : !PayloadEnv}.
Context (servers : Server → Prop) (reports : AgentMessage → Prop).

Inductive sys_step : World → World → Prop :=
| sys_put_key key w : sys_step w (call (PutAPIKey key) w).2
| sys_http srv conn r waits route w :
    servers srv → sys_step w (serve srv conn r waits route w).2
| sys_dispatch srv vid payload key w :
    servers srv → sys_step w (DispatchExecutionIdempotent (srv_scheduler srv) vid payload key w).2
| sys_retry id w : sys_step w (RetryExecution id w).2
| sys_direct srv vid payload w :
    servers srv → sys_step w (ExecuteDirect (srv_scheduler srv) vid payload w).2
| sys_prepare srv v w :
    servers srv → sys_step w (PrepareFunctionVersion (srv_scheduler srv) v w).2
| sys_schedule srv w : servers srv → sys_step w (scheduleNext (srv_scheduler srv) w).2
| sys_recover_scheduling srv w :
    servers srv → sys_step w (recoverStaleScheduling (srv_scheduler srv) w).2
| sys_recover_leases w : sys_step w (recoverExpiredAttempts RetryExecution w).2
| sys_stream cid hostID ev w :
    match ev with RecvMessage m => reports m | _ => True end → sys_step w (controlStep cid hostID ev w).2
| sys_register_embedded cid msg executor preparer w :
    reports (MsgRegister msg) → sys_step w (registerHostSession cid msg None executor preparer w).2
| sys_heartbeat_embedded cid msg w :
    reports (MsgHeartbeat msg) → sys_step w (updateHeartbeatContext cid msg w).2
| sys_update_embedded cid msg w : sys_step w (handleAssignmentUpdate cid msg w).2
| sys_consume cid ctx a w : sys_step w (assignExecution cid ctx a w).2
| sys_drain cid ctx hostID reason w : sys_step w (DrainHost cid ctx hostID reason w).2
| sys_release cid hostID np w : sys_step w (releaseHostSlot cid hostID np w).2
| sys_reap cid w : sys_step w (reapStaleHosts cid w).2
| sys_retry_goroutine jobID w : sys_step w (retryGoroutine RetryExecution jobID w).2
| sys_deliver_goroutine cid msg w : sys_step w (deliverGoroutine cid msg w).2
| sys_deploy srv req w : servers srv → sys_step w (CreateFunctionVersion (srv_builder srv) req w).2
| sys_build srv id w : servers srv → sys_step w (ProcessBuildJob (srv_builder srv) id w).2.

(** The reports have no negative counter. *)
Definition honest : Prop := ∀ m, reports m → report_ok m.
Abbreviation Inv := (inv_on jobs_wf (coords_ok honest)).

Lemma sys_step_inv w w' :
  rely E jobs_wf → artifacts_kept E → (∀ srv, servers srv → ServerKeeps Inv srv) →
  sys_step w w' → Inv w → Inv w'.
Proof.
  intros HR HA Hk Hs Hw. pose proof (keeps_RetryExecution HR (coords_ok honest)) as Hretry.
  pose proof (λ srv Hv, @sk_scheduler _ _ _ (Hk srv Hv)) as Hd.
  pose proof (λ srv Hv, @sk_builder _ _ _ (Hk srv Hv)) as Hb.
  destruct Hs; match goal with |- inv_on _ _ (?m ?w).2 => cut (∃ V, keeps Inv V m);
    [intros [V HV]; by apply HV|eexists] end.
  - apply keeps_frames; [done|]. solve_frames.
  - apply keeps_serve; [done|done|by apply Hk].
  - apply keeps_DispatchExecutionIdempotent; [done].
  - apply Hretry.
  - by apply keeps_ExecuteDirectStream; [|apply Hd|..].
  - by apply keeps_PrepareFunctionVersion, Hd.
  - by apply keeps_scheduleNext, Hd.
  - by apply keeps_recoverStaleScheduling.
  - by apply keeps_recoverExpiredAttempts.
  - apply keeps_controlStep; [done|]. intros Hm. destruct ev; [by apply Hm|done..].
  - apply keeps_registerHostSession; [done|]. intros Hm. by apply (Hm (MsgRegister _)).
  - apply keeps_updateHeartbeatContext; [done|]. intros Hm. by apply (Hm (MsgHeartbeat _)).
  - by apply keeps_handleAssignmentUpdate.
  - by apply keeps_assignExecution.
  - by apply keeps_DrainHost.
  - by apply keeps_releaseHostSlot.
  - by apply keeps_reapStaleHosts.
  - by apply keeps_retryGoroutine.
  - by apply keeps_deliverGoroutine.
  - apply keeps_CreateFunctionVersion; [done|done|by apply Hb].
  - apply keeps_ProcessBuildJob; [done|done|by apply Hb].
Qed.

End System.

Lemma inv_new honest : inv_on jobs_wf (coords_ok honest) NewWorld.
Proof. split; [apply jobs_wf_new|apply map_Forall_empty]. Qed.

(** ** A running system for the witnesses *)

(** One region whose dispatcher is its coordinator. *)
Definition region_cfg `{!GoEnv} (region : string) : SchedulerConfig :=
  New [asDispatcher region None (λ _, Err (plainErr "no json")) Background []].

Lemma region_cfg_ok `{E : !GoEnv} honest region :
  rely E jobs_wf →
  map_Forall (λ _, DispatcherOk (inv_on jobs_wf (coords_ok honest))) (sc_dispatchers (region_cfg region)).
Proof.
  intros HR. apply map_Forall_insert_2; [|apply map_Forall_empty].
  by apply coordinator_DispatcherOk; [| |constructor].
Qed.

Definition demo_register : RegisterHost :=
  mkRegisterHost "h1" "eu" "local" 2 0 [mkWarmPoolMetric "v1" 1] 1.

Lemma demo_register_ok : register_ok demo_register.
Proof. split; [simpl; lia|]. apply Forall_singleton. simpl. lia. Qed.

Definition demo_region : SchedulerConfig := @region_cfg demo_env "eu".

(** A deployed version, a registered host, an invocation, a pass of the loop. *)
Definition demo_w0 : World := (@call demo_env _ (PutArtifact demo_artifact) NewWorld).2.
Definition demo_w1 : World := (@call demo_env _ (PutFunctionVersion demo_version) demo_w0).2.
Definition demo_w2 : World :=
  (@registerHostSession demo_env "eu" demo_register None true true demo_w1).2.
Definition demo_w3 : World :=
  (@DispatchExecutionIdempotent demo_env demo_region "v1" "{}" "" demo_w2).2.
Definition demo_w4 : World := (@scheduleNext demo_env demo_region demo_w3).2.

(** The build service as the running system wires it: versions are prepared
    through the scheduler and artifacts are replicated into regional stores. *)
Definition system_build `{!GoEnv} (cfg : SchedulerConfig) (stores : gset string) : BuildConfig :=
  mkBuildConfig None (Some (PrepareFunctionVersion cfg)) (Some (Replicate stores)) maxActiveBuildJobs.

Lemma system_build_keeps `{E : !GoEnv} honest cfg stores :
  rely E jobs_wf →
  map_Forall (λ _, DispatcherOk (inv_on jobs_wf (coords_ok honest))) (sc_dispatchers cfg) →
  BuildKeeps (inv_on jobs_wf (coords_ok honest)) (system_build cfg stores).
Proof.
  intros HR Hd. split; [done| |].
  - intros warmer v [= <-]. by apply keeps_PrepareFunctionVersion.
  - intros replicate req [= <-]. apply keeps_Replicate.
Qed.

(** A key is stored and a host registers; a function is deployed and built over
    HTTP, invoked over HTTP, and scheduled. *)
Definition live_cfg : SchedulerConfig := @region_cfg demo_env "ap-south-1".
Definition live_server : Server :=
  mkServer live_cfg (@system_build demo_env live_cfg {["ap-south-1"]}) ∅.
Definition live_register : RegisterHost :=
  mkRegisterHost "h1" "ap-south-1" "local" 2 0 [] 2.
Definition live_key : APIKey := mkAPIKey "sha:k1" "t1" "" false false 0 0.
Definition live_post : HTTPRequest := (demo_get "k1") <| hr_Method := "POST" |>.
Definition live_serve (ep : Endpoint) (w : World) : World :=
  (@serve demo_env demo_build_env demo_http_env demo_payload_env live_server "c1" live_post
     (0, sentinel ContextDeadlineExceeded) (RouteV1 ep) w).2.
Definition live_w0 : World := (@call demo_env _ (PutAPIKey live_key) NewWorld).2.
Definition live_w1 : World :=
  (@registerHostSession demo_env "ap-south-1" live_register None true true live_w0).2.
Definition live_w2 : World := live_serve (EpCreateFunction "p1") live_w1.
Definition live_w3 : World := live_serve (EpInvokeFunction "uuid-0") live_w2.
Definition live_w4 : World := (@scheduleNext demo_env live_cfg live_w3).2.

Lemma lookup_check {A} (m : gmap string A) k (f : A → bool) :
  match m !! k with Some x => f x | None => false end = true → ∃ x, m !! k = Some x ∧ f x = true.
Proof. destruct (m !! k); [eauto|done]. Qed.

(** ** Properties *)

(** C1: the system invariant.  In every state reached by any sequence of HTTP
    requests and of handlers of the build service, the scheduler, the recovery
    loop and the coordinators (with infrastructure faults and other writers that
    keep the invariant between any two store calls), whatever the agents report,
    every execution job has been attempted at most once more than its retry
    budget, a succeeded job has its result and no error, a queued job is charged
    to no region, and every ready function version has the artifact record it
    names; and when the registrations and heartbeats of the agents have no
    negative counter, no host of any coordinator has a negative number of free
    slots, full-network slots or warm instances. *)
Theorem system_invariant (E : GoEnv) (BE : BuildEnv) (HE : HttpEnv) (PE : PayloadEnv)
    (servers : Server → Prop) (reports : AgentMessage → Prop) (w : World) :
  let honest := honest reports in
  rely E jobs_wf →
  artifacts_kept E →
  (∀ srv, servers srv → ServerKeeps (inv_on jobs_wf (coords_ok honest)) srv) →
  rtc (sys_step servers reports) NewWorld w →
  (∀ id j, st_executionJobs (w_store w) !! id = Some j →
     (0 ≤ job_AttemptCount j ≤ job_MaxRetries j + 1)%Z ∧
     (job_State j = JobStateSucceeded → job_Error j = "" ∧ is_Some (job_Result j)) ∧
     (job_State j = JobStateQueued → job_TargetRegion j = "")) ∧
  (∀ id v, st_functions (w_store w) !! id = Some v → fv_State v = FunctionStateReady →
     is_Some (st_artifacts (w_store w) !! fv_ArtifactDigest v)) ∧
  (honest → ∀ cid c id s,
     w_coords w !! cid = Some c → c_hosts c !! id = Some s → host_ok (hs_host s)).
Proof.
  intros honest HR HA Hk Hr.
  assert (inv_on jobs_wf (coords_ok honest) w) as [[Hj _ Hv] Hc].
  { pose proof (inv_new honest) as Hi. induction Hr; [done|]. by eapply IHHr, sys_step_inv. }
  split_and!.
  - intros id j Hl. by destruct (Hj _ _ Hl).
  - intros id v Hl. exact (Hv _ _ Hl).
  - intros Hh cid c id s Hl Hs. exact (Hc _ _ Hl _ _ Hs Hh).
Qed.

Lemma system_invariant_witness :
  let servers := eq live_server in
  rtc (@sys_step demo_env demo_build_env demo_http_env demo_payload_env servers report_ok)
    NewWorld live_w4 ∧
  (∃ j, st_executionJobs (w_store live_w4) !! "uuid-3" = Some j ∧ job_State j = JobStateAssigned ∧
    (0 ≤ job_AttemptCount j ≤ job_MaxRetries j + 1)%Z) ∧
  ∃ s, c_hosts (coordOf live_w4 "ap-south-1") !! "h1" = Some s ∧
    host_AvailableSlots (hs_host s) = 0%Z ∧ host_ok (hs_host s).
Proof.
  intros servers.
  assert (rtc (@sys_step demo_env demo_build_env demo_http_env demo_payload_env servers report_ok)
    NewWorld live_w4) as Hr.
  { refine (rtc_l _ _ live_w0 _ (sys_put_key _ _ live_key NewWorld) _).
    refine (rtc_l _ _ live_w1 _
      (sys_register_embedded _ _ "ap-south-1" live_register true true live_w0 _) _);
      [split; [simpl; lia|apply Forall_nil; exact I]|].
    refine (rtc_l _ _ live_w2 _ (sys_http _ _ live_server "c1" live_post _ _ live_w1 eq_refl) _).
    refine (rtc_l _ _ live_w3 _ (sys_http _ _ live_server "c1" live_post _ _ live_w2 eq_refl) _).
    exact (rtc_once _ _ (sys_schedule _ _ live_server live_w3 eq_refl)). }
  split; [exact Hr|].
  pose proof (region_cfg_ok (E := demo_env) (honest report_ok) "ap-south-1"
    (quiet_rely _ _ demo_quiet)) as Hd.
  assert (∀ srv, servers srv →
    @ServerKeeps demo_env (inv_on jobs_wf (coords_ok (honest report_ok))) srv) as Hk.
  { intros srv <-. split; [exact Hd| |apply map_Forall_empty].
    apply (system_build_keeps _ _ _ (quiet_rely _ _ demo_quiet) Hd). }
  pose proof (system_invariant demo_env demo_build_env demo_http_env demo_payload_env servers report_ok
    live_w4 (quiet_rely _ _ demo_quiet) (quiet_artifacts_kept _ demo_quiet) Hk Hr) as (HJ & _ & HC).
  split.
  - destruct (lookup_check (st_executionJobs (w_store live_w4)) "uuid-3"
      (λ j, bool_decide (job_State j = JobStateAssigned))) as (j & Hj & Cj); [vm_compute; reflexivity|].
    apply bool_decide_eq_true in Cj. exists j. split; [exact Hj|]. split; [exact Cj|].
    exact (proj1 (HJ "uuid-3" j Hj)).
  - destruct (lookup_check (c_hosts (coordOf live_w4 "ap-south-1")) "h1"
      (λ s, Z.eqb (host_AvailableSlots (hs_host s)) 0)) as (s & Hs & Cs); [vm_compute; reflexivity|].
    apply Z.eqb_eq in Cs. exists s. split; [exact Hs|]. split; [exact Cs|].
    assert (is_Some (w_coords live_w4 !! "ap-south-1")) as [c Hc]
      by (apply (bool_decide_eq_true_1 _); vm_compute; reflexivity).
    apply (HC (λ m Hm, Hm) "ap-south-1" c "h1" s Hc).
    unfold coordOf in Hs. rewrite Hc in Hs. exact Hs.
Defined.

(** Nothing refuses a report with a negative counter: the region takes the
    counters of a heartbeat as they come. *)
Definition demo_bad_heartbeat : HostHeartbeat := mkHostHeartbeat "h1" "eu" (-1) 0 [] 0.

Lemma report_unchecked :
  let w := (@updateHeartbeatContext demo_env "eu" demo_bad_heartbeat demo_w2).2 in
  sys_step (E := demo_env) (BE := demo_build_env) (HE := demo_http_env) (PE := demo_payload_env)
    (eq live_server) (λ _, True) demo_w2 w ∧
  ∃ s, c_hosts (coordOf w "eu") !! "h1" = Some s ∧ host_AvailableSlots (hs_host s) = (-1)%Z.
Proof.
  intros w. split; [by apply sys_heartbeat_embedded|].
  destruct (lookup_check (c_hosts (coordOf w "eu")) "h1"
    (λ s, Z.eqb (host_AvailableSlots (hs_host s)) (-1))) as (s & Hs & Cs); [vm_compute; reflexivity|].
  apply Z.eqb_eq in Cs. eauto.
Qed.

(** Attempts that have all ended leave nothing for the recovery loop. *)
Lemma no_expired `{!MapOrder} (s : Store) before :
  forallb (λ kx, Terminal (att_State kx.2)) (map_to_list (st_attempts s)) = true →
  ListExpiredAttempts before s = (Ok [], s).
Proof.
  rewrite forallb_forall. intros Ht. unfold ListExpiredAttempts.
  destruct (select 534 _ _) as [|a l] eqn:Es; [done|]. exfalso.
  assert (a ∈ select 534 (attempt_expired before) (st_attempts s)) as Hin by (rewrite Es; left).
  rewrite elem_of_select in Hin. destruct Hin as [He [k Hk]].
  apply elem_of_map_to_list in Hk. apply list_elem_of_In, Ht in Hk. simpl in Hk.
  unfold attempt_expired in He. by rewrite Hk in He.
Qed.

(** The final update of the attempt that [demo_w4] assigns. *)
Definition demo_success : AssignmentUpdate :=
  mkAssignmentUpdate "h1" "eu" "uuid-1" "uuid-0" ASSIGNMENT_STATE_SUCCEEDED "" "{}" "" 0.

(** [demo_env] with one more writer: the coordinator handles that update just
    before the 22nd store call. *)
Definition race_env : GoEnv := {|
  env_order := list_order;
  env_clock := @env_clock demo_env;
  env_uuid := @env_uuid demo_env;
  env_fault _ := None;
  env_other n s := if Nat.eqb n 21
    then w_store (@handleAssignmentUpdate demo_env "eu" demo_success (NewWorld <| w_store := s |>)).2
    else s;
  json_Compact := @json_Compact demo_env;
  json_MarshalInvoke := @json_MarshalInvoke demo_env;
  sha256_hex := @sha256_hex demo_env;
|}.

Definition race_w4 : World := (@scheduleNext race_env (@region_cfg race_env "eu") demo_w3).2.

(** A success can be lost.  The scheduler writes the job back, with the
    attempt counted, after the region has taken the assignment; an execution
    that finishes in between is overwritten.  In the run [race_w4] the attempt
    ends as succeeded while its job stays assigned without a result; no lease is
    left to expire and the job is not claimable, so neither the recovery loop
    nor the scheduler ever touches it again. *)
Theorem lost_success :
  ∃ j a,
    st_executionJobs (w_store race_w4) !! "uuid-0" = Some j ∧
    job_State j = JobStateAssigned ∧ job_Result j = None ∧ claimable j = false ∧
    job_LastAttemptID j = "uuid-1" ∧
    st_attempts (w_store race_w4) !! "uuid-1" = Some a ∧ att_State a = AttemptStateSucceeded ∧
    ∀ before, @ListExpiredAttempts list_order before (w_store race_w4) = (Ok [], w_store race_w4).
Proof.
  destruct (lookup_check (st_executionJobs (w_store race_w4)) "uuid-0" (λ j,
    bool_decide (job_State j = JobStateAssigned) && bool_decide (job_LastAttemptID j = "uuid-1") &&
    match job_Result j with None => true | _ => false end)) as (j & Hj & Cj);
    [vm_compute; reflexivity|].
  destruct (lookup_check (st_attempts (w_store race_w4)) "uuid-1" (λ a,
    bool_decide (att_State a = AttemptStateSucceeded))) as (a & Ha & Ca); [vm_compute; reflexivity|].
  rewrite !andb_true_iff, !bool_decide_eq_true in Cj. rewrite bool_decide_eq_true in Ca.
  destruct Cj as [[Hs Hl] Hr]. exists j, a.
  do 2 (split; [assumption|]). 
  split; [destruct (job_Result j); [discriminate Hr|reflexivity]|].
  split; [unfold claimable, in_states; rewrite Hs; reflexivity|]. do 3 (split; [assumption|]).
  intros before. apply no_expired. vm_compute. reflexivity.
Qed.
