(* ===== verification/CoordinatorFacts.v ===== *)
(** * CoordinatorFacts: what a regional coordinator guarantees

    Theorems on [Coordinator]: the choice of a host and the reservation on it,
    the round trip of a reservation whose message cannot be sent, the effect of
    an assignment update on attempt, job and cost record, the delivery of
    updates to a waiting direct invocation, and the statistics of a region. *)

From stdpp Require Import base decidable tactics numbers list gmap strings sorting relations.
From S2P Require Import Prelude Domain MemStore World Jobs Scheduler SchedulerFacts Artifacts.
From S2P Require Import Coordinator CoordinatorInv System.

(** ** Reservations *)

Lemma reserve_unreserve h f np :
  unreserveOn (reserveOn h f np (classifyStartMode h f)) f np (classifyStartMode h f) = h.
Proof.
  unfold classifyStartMode, reserveOn, unreserveOn, fullOf.
  destruct h as [id rg dr st sl fl bl fw hb]. simpl.
  destruct (Z.ltb_spec 0 (map_get0 fw f)) as [Hw|Hw]; simpl.
  - assert (<[f := (map_get0 (<[f := (map_get0 fw f - 1)%Z]> fw) f + 1)%Z]>
      (<[f := (map_get0 fw f - 1)%Z]> fw) = fw) as Ew.
    { rewrite insert_insert_eq, map_get0_insert, decide_True by done. apply insert_id.
      unfold map_get0 in *. destruct (fw !! f); simpl in *; [f_equal; lia|lia]. }
    destruct (isFull np); simpl; destruct (Z.ltb_spec 0 (map_get0 fw f)); try lia; simpl;
      rewrite Ew; f_equal; lia.
  - destruct (Z.ltb_spec 0 bl); simpl; destruct (isFull np); simpl;
      try (destruct (Z.ltb_spec 0 bl); try lia; simpl); f_equal; lia.
Qed.

(** What the coordinator does to a session whose host it reserved and then gave
    back. *)
Lemma restore_coord `{E : !GoEnv} cid hostID f mode np w s :
  c_hosts (coordOf w cid) !! hostID = Some s →
  ∃ w', restoreHostReservation cid hostID f mode np w = (Ok tt, w') ∧
    coordOf w' cid = putHostOf (coordOf w cid) hostID s (unreserveOn (hs_host s) f np mode).
Proof.
  intros Hs. unfold restoreHostReservation. erewrite run_bind by done. rewrite Hs. cbn zeta.
  erewrite run_bind by done.
  match goal with |- context [publishHost cid ?h ?w0] =>
    destruct (publishHost_ok cid h w0) as (w' & Ew & Ec) end.
  exists w'. split; [done|]. rewrite (coordOf_coords _ _ _ Ec). apply coordOf_put.
Qed.

(** Choosing a host writes hosts, warm pools and the region, nothing else. *)
Lemma pickHost_attempts (E : GoEnv) cid a w :
  quiet E → st_attempts (w_store (pickHost cid a w).2) = st_attempts (w_store w).
Proof.
  intros Hq. set (A := st_attempts (w_store w)).
  assert (∀ B (op : StoreM B), (∀ s, st_attempts (op s).2 = st_attempts s) →
    preserves (λ w, st_attempts (w_store w) = A) (call op)) as Hcall.
  { intros B op Ho w0 H0. rewrite (call_ok _ _ Hq). split; [|done]. simpl. by rewrite Ho. }
  assert (∀ h, preserves (λ w, st_attempts (w_store w) = A) (publishHost cid h)) as Hp.
  { intros h. unfold publishHost, persistRegionLocked, ignore.
    repeat first [ apply keeps_ret; done | apply Hcall; done | by intros ? ?
      | eapply (keeps_mono _ _ (λ r, ∀ a, r = Ok a → True)); [apply keeps_try|done]
      | eapply (keeps_bind _ _ _ (λ _, True)); [|intros ? _] | case_match ]. }
  unfold pickHost. assert (preserves (λ w, st_attempts (w_store w) = A) (pickHost cid a)) as H.
  { unfold pickHost. eapply (keeps_bind _ _ _ (λ _, True)); [by intros ? ?|]. intros c _.
    case_match; [by intros ? ?|]. eapply (keeps_bind _ _ _ (λ _, True)); [by intros ? ?|]. intros _ _.
    eapply keeps_bind; [apply Hp|]. by intros ? ? ? ?. }
  by apply H.
Qed.

(** ** Updates *)

Section Quiet.
Context (E : GoEnv) (Hq : quiet E) (cid : string).

(** An update of an attempt nobody waits for is applied to the stored records. *)
Lemma run_update msg w att job :
  au_AttemptId msg ∉ c_directInvokes (coordOf w cid) →
  st_attempts (w_store w) !! au_AttemptId msg = Some att →
  st_executionJobs (w_store w) !! au_JobId msg = Some job →
  ∃ t w1 att' job', applyUpdate (c_retry (coordOf w cid)) msg t att job = (att', job') ∧
    w_store w1 = (w_store w)
      <| st_attempts := <[att_ID att' := att']> (st_attempts (w_store w)) |>
      <| st_executionJobs := <[job_ID job' := job']> (st_executionJobs (w_store w)) |> ∧
    w_coords w1 = w_coords w ∧
    handleAssignmentUpdate cid msg w =
      ((if terminalUpdate msg then recordCost att' job' else mret tt) ≫= λ _,
       if bool_decide (au_State msg = ASSIGNMENT_STATE_FAILED) &&
          bool_decide (job_State job' = JobStateRetrying)
       then spawn cid (GoRetry (job_ID job')) else mret tt) w1.
Proof.
  intros Hd Ha Hj. unfold handleAssignmentUpdate.
  erewrite run_bind.
  2:{ unfold handleDirectInvokeUpdate. erewrite run_bind by done.
      rewrite bool_decide_eq_false_2 by done. reflexivity. }
  unfold GetAttempt, GetExecutionJob. cbn iota.
  erewrite run_bind by (by apply run_find). erewrite run_bind by (by apply run_find).
  erewrite run_bind by done. erewrite run_bind by done.
  match goal with |- context [applyUpdate ?r ?m ?t ?a ?j] =>
    destruct (applyUpdate r m t a j) as [att' job'] eqn:Eu; exists t end.
  eexists _, att', job'. split; [exact Eu|].
  erewrite run_bind by (by apply run_call). erewrite run_bind by (by apply run_call).
  split; [|split]; [| |reflexivity]; done.
Qed.

Lemma run_recordCost att job res v p w :
  job_Result job = Some res →
  st_functions (w_store w) !! job_FunctionVersionID job = Some v →
  st_projects (w_store w) !! job_ProjectID job = Some p →
  ∃ t w', recordCost att job w = (Ok tt, w') ∧ w_coords w' = w_coords w ∧
    w_store w' = (w_store w) <| st_costRecords :=
      <[att_ID att := mkCostRecord (att_ID att) (prj_TenantID p) (prj_ID p) (job_ID job) (att_ID att)
          (jr_HostID res) (jr_Region res) (att_StartMode att)
          (billedMs (jr_FinishedAt res) (startTimeOr (jr_FinishedAt res) (att_StartedAt att)))
          (int64_of (fv_MemoryMB v *
             billedMs (jr_FinishedAt res) (startTimeOr (jr_FinishedAt res) (att_StartedAt att))))
          (if isWarm (att_StartMode att) then
             billedMs (jr_FinishedAt res) (startTimeOr (jr_FinishedAt res) (att_StartedAt att)) else 0)
          (Z.of_nat (String.length (jr_Logs res) + String.length (jr_Output res))) t]>
        (st_costRecords (w_store w)) |>.
Proof.
  intros Hr Hv Hp. unfold recordCost. rewrite Hr. unfold GetFunctionVersion, GetProject.
  erewrite run_bind by (by apply run_find). erewrite run_bind by (by apply run_find).
  cbn zeta. erewrite run_bind by done. erewrite run_call by done. by repeat eexists.
Qed.

End Quiet.

(** ** Region statistics *)

(** What one session contributes. *)
Definition activeSlots (s : hostSession) : Z :=
  if hostActive (hs_host s) && (0 <? host_AvailableSlots (hs_host s))%Z then 1 else 0.
Definition ifActive (f : Host → Z) (s : hostSession) : Z :=
  if hostActive (hs_host s) then f (hs_host s) else 0.
Definition warmTotal (h : Host) : Z := sum_list_with_Z snd (map_to_list (host_FunctionWarm h)).

(** The totals over a set of sessions. *)
Definition regionTotals (hosts : gmap string hostSession) : RegionStats :=
  let sum f := sum_list_with_Z (λ e : string * hostSession, f e.2) (map_to_list hosts) in
  mkRegionStats (sum activeSlots) (sum (ifActive host_AvailableFullNetworkSlots))
    (sum (ifActive host_BlankWarm)) (sum (ifActive warmTotal)).

Definition addStats (x : RegionStats) (s : hostSession) : RegionStats :=
  mkRegionStats (rs_AvailableHosts x + activeSlots s)
    (rs_AvailableFullNetworkSlots x + ifActive host_AvailableFullNetworkSlots s)
    (rs_BlankWarm x + ifActive host_BlankWarm s) (rs_FunctionWarm x + ifActive warmTotal s).

Section Totals.
Context `{E : !GoEnv}.

Lemma foldl_warm (l : list (string * Z)) st :
  foldl (λ st kc, st <| rs_FunctionWarm := (rs_FunctionWarm st + kc.2)%Z |>) st l =
  st <| rs_FunctionWarm := (rs_FunctionWarm st + sum_list_with_Z snd l)%Z |>.
Proof.
  revert st. induction l as [|[k c] l IH]; intros [a b d f]; simpl; [by rewrite Z.add_0_r|].
  rewrite IH. simpl. by rewrite Z.add_assoc.
Qed.

Lemma stats_step_add st e : stats_step st e = addStats st e.2.
Proof.
  unfold stats_step, addStats, activeSlots, ifActive, warmTotal. destruct st as [a b d f].
  destruct (hostActive (hs_host e.2)); cbn [negb andb]; [|simpl; by rewrite !Z.add_0_r].
  rewrite foldl_warm, (sum_list_with_Z_perm _ _ _ (map_iter_perm _ _ _)).
  destruct (0 <? _)%Z; simpl; by rewrite ?Z.add_0_r.
Qed.

Lemma foldl_addStats (l : list (string * hostSession)) st :
  foldl (λ st e, addStats st e.2) st l =
  mkRegionStats (rs_AvailableHosts st + sum_list_with_Z (λ e, activeSlots e.2) l)
    (rs_AvailableFullNetworkSlots st +
       sum_list_with_Z (λ e, ifActive host_AvailableFullNetworkSlots e.2) l)
    (rs_BlankWarm st + sum_list_with_Z (λ e, ifActive host_BlankWarm e.2) l)
    (rs_FunctionWarm st + sum_list_with_Z (λ e, ifActive warmTotal e.2) l).
Proof.
  revert st. induction l as [|e l IH]; intros st; simpl.
  - destruct st. by rewrite !Z.add_0_r.
  - rewrite IH. simpl. by rewrite !Z.add_assoc.
Qed.

Lemma foldl_ext {A B} (f g : B → A → B) (l : list A) b :
  (∀ b x, x ∈ l → f b x = g b x) → foldl f b l = foldl g b l.
Proof.
  revert b. induction l as [|x l IH]; intros b H; simpl; [done|].
  rewrite H by left. apply IH. intros. apply H. by right.
Qed.

Lemma Stats_totals cid w : Stats cid w = regionTotals (c_hosts (coordOf w cid)).
Proof.
  unfold Stats. rewrite (foldl_ext _ (λ st e, addStats st e.2)) by (intros; apply stats_step_add).
  rewrite foldl_addStats. unfold regionTotals. by rewrite !map_iter_perm.
Qed.

(** The accumulator of [persistRegionLocked] over sessions of the region. *)
Lemma persist_fold region (l : list (string * hostSession)) acc :
  (∀ e, e ∈ l → host_Region (hs_host e.2) = region) →
  let acc' := foldl (persist_step region) acc l in
  ra_stats acc' = foldl (λ st e, addStats st e.2) (ra_stats acc) l ∧
  (ra_connected acc ≤ ra_connected acc')%Z ∧
  (ra_connected acc = ra_connected acc' ↔ Forall (λ e, hostActive (hs_host e.2) = false) l).
Proof.
  revert acc. induction l as [|e l IH]; intros acc Hl; simpl.
  - split; [done|]. split; [lia|]. split; [constructor|done].
  - assert (persist_step region acc e =
      mkRegionAcc (addStats (ra_stats acc) e.2)
        (if (ra_heartbeat acc <? host_LastHeartbeat (hs_host e.2))%Z
         then host_LastHeartbeat (hs_host e.2) else ra_heartbeat acc)
        (ra_connected acc + if hostActive (hs_host e.2) then 1 else 0)) as ->.
    { rewrite <- stats_step_add. unfold persist_step, stats_step.
      rewrite bool_decide_eq_true_2 by (apply Hl; left). cbn [negb].
      destruct (hostActive (hs_host e.2)); cbn [negb andb]; [|by rewrite Z.add_0_r].
      f_equal. rewrite !foldl_warm, !(sum_list_with_Z_perm _ _ _ (map_iter_perm _ _ _)). done. }
    destruct (IH (mkRegionAcc (addStats (ra_stats acc) e.2)
        (if (ra_heartbeat acc <? host_LastHeartbeat (hs_host e.2))%Z
         then host_LastHeartbeat (hs_host e.2) else ra_heartbeat acc)
        (ra_connected acc + if hostActive (hs_host e.2) then 1 else 0)))
      as (IH1 & IH2 & IH3); [intros; apply Hl; by right|]. simpl in *.
    split; [done|]. rewrite Forall_cons. destruct (hostActive (hs_host e.2)).
    + split; [lia|]. split; [lia|]. by intros [? _].
    + rewrite Z.add_0_r in *. split; [done|]. rewrite IH3. split; [done|]. by intros [_ ?].
Qed.

End Totals.

(** ** Properties *)

(** C19: the host [pickHost] chooses.  It succeeds exactly when some connected
    host is active with a free slot (and a free full-network slot when the
    policy is "full"); the chosen host is one of those and none of them has a
    higher score; one slot (and one full-network slot, and the warm instance of
    the start mode) is taken from it and no other session changes.  When no host
    qualifies it fails and changes nothing.  This holds whatever the store
    does. *)
Theorem pick_host_spec (E : GoEnv) cid a (w : World) :
  let hosts := c_hosts (coordOf w cid) in
  let np := asg_NetworkPolicy a in
  let qualifies h := host_State h = HostStateActive ∧ (0 < host_AvailableSlots h)%Z ∧
        (np = NetworkPolicyFull → (0 < host_AvailableFullNetworkSlots h)%Z) in
  match pickHost cid a w with
  | (Ok (hostID, s', mode), w') =>
      ∃ s, hosts !! hostID = Some s ∧ qualifies (hs_host s) ∧
        (∀ id' t, hosts !! id' = Some t → qualifies (hs_host t) →
           (hostScore (asg_FunctionVersionID a) (hs_host t) ≤
            hostScore (asg_FunctionVersionID a) (hs_host s))%Z) ∧
        mode = classifyStartMode (hs_host s) (asg_FunctionVersionID a) ∧
        s' = s <| hs_host := reserveOn (hs_host s) (asg_FunctionVersionID a) np mode |> ∧
        host_AvailableSlots (hs_host s') = (host_AvailableSlots (hs_host s) - 1)%Z ∧
        host_AvailableFullNetworkSlots (hs_host s') =
          (host_AvailableFullNetworkSlots (hs_host s) - fullOf np)%Z ∧
        c_hosts (coordOf w' cid) = <[hostID := s']> hosts
  | (Err e, w') => w' = w ∧ ∀ id s, hosts !! id = Some s → ¬ qualifies (hs_host s)
  end.
Proof.
  intros hosts np qualifies. pose proof (pickHost_cases cid a w) as H. cbv zeta in H.
  destruct (pickHost cid a w) as [[[[hostID s'] mode]|e] w'].
  - destruct H as (s & (Hs & Hu & Hm) & Hmode & Hs' & Hc & _). exists s.
    split; [done|]. split; [by apply hostUsable_spec|]. split.
    { intros id' t Ht Hq. by apply (Hm id'), hostUsable_spec. }
    split; [done|]. split; [done|]. subst s'. split_and!.
    + unfold reserveOn. destruct (isFull _), mode; simpl; try done; by case_match.
    + unfold reserveOn, fullOf, np. destruct (isFull _), mode; simpl; try lia;
        try (by case_match; simpl; lia).
    + by rewrite Hc.
  - destruct H as (_ & -> & H). split; [done|]. intros id s Hs Hq. apply hostUsable_spec in Hq.
    specialize (H _ _ Hs). unfold np in Hq. congruence.
Qed.

(** A reservation that cannot be used is given back exactly.  When every
    connected host is remote and its control channel is full, [assignExecution]
    fails and the coordinator's memory, counters and warm instances included, is
    what it was before the call. *)
Theorem assign_full_channel_restores (E : GoEnv) cid a (w : World) att :
  quiet E →
  st_attempts (w_store w) !! asg_AttemptID a = Some att →
  map_Forall (λ _ s, hs_executor s = false ∧ hasRoom (hs_sendCh s) = false) (c_hosts (coordOf w cid)) →
  ∃ e w', assignExecution cid Background a w = (Err e, w') ∧ coordOf w' cid = coordOf w cid.
Proof.
  intros Hq Ha Hfull. unfold assignExecution, pickHostForExecution.
  pose proof (pickHost_cases cid a w) as Hp. cbv zeta in Hp.
  assert (st_attempts (w_store (pickHost cid a w).2) = st_attempts (w_store w)) as Eatt
    by apply pickHost_attempts, Hq.
  destruct (pickHost cid a w) as [[[[hostID s'] mode]|e] w1] eqn:Ep.
  - destruct Hp as (s & (Hs & _) & Hmode & Hs' & Hc & _). destruct (Hfull _ _ Hs) as [Hex Hroom].
    erewrite run_bind by (by erewrite run_bind by (by apply run_try)).
    unfold GetAttempt. erewrite run_bind by (by apply run_find; simpl in Eatt; rewrite ?Eatt).
    erewrite run_bind by done. erewrite run_bind by (by apply run_call). cbn zeta.
    subst s'. cbn [hs_executor hs_sendCh field_set]. rewrite Hex, Hroom. cbn.
    match goal with |- context [mbind _ (restoreHostReservation _ _ ?f ?m ?np) ?w0] =>
      destruct (restore_coord cid hostID f m np w0
        (s <| hs_host := reserveOn (hs_host s) f np mode |>)) as (w' & Er & Ec) end.
    { change (coordOf _ cid) with (coordOf w1 cid). rewrite Hc. simpl. apply lookup_insert_eq. }
    erewrite run_bind by done. do 2 eexists. split; [done|]. rewrite Ec. cbn [hs_host field_set].
    change (coordOf _ cid) with (coordOf w1 cid) at 1. rewrite Hc, Hmode, reserve_unreserve.
    unfold putHostOf, putSession. simpl. rewrite insert_insert_eq.
    rewrite insert_id by (rewrite Hs; by destruct s). by destruct (coordOf w cid).
  - destruct Hp as (-> & -> & _). erewrite run_bind_err; [by do 2 eexists|].
    erewrite run_bind by (by apply run_try). cbn. by case_match.
Qed.

(** A region with one remote host; [n] messages wait on its channel. *)
Definition remote_world (n : nat) : World :=
  let h := mkHost "h1" "eu" "local" HostStateActive 2 1 1 {["v1" := 1%Z]} 7 in
  let q := replicate n (MsgRegistered "h1") in
  let c := putSession (NewCoordinator "eu") "h1" (mkHostSession h (Some q) false false) in
  let att := mkAttempt "a1" "j1" "v1" "" "eu" AttemptStateAssigned StartModeUnset 0 0 30 "" 1 1 in
  putCoord "eu" c (demo_world <| w_store := (w_store demo_world)
    <| st_attempts := {["a1" := att]} |> |>).

Definition demo_assignment : Assignment :=
  mkAssignment "a1" "j1" "v1" "sha256:a" "k/bundle.tgz" "index.mjs" None [] "{}" "full" 30 128.

Lemma assign_full_channel_restores_witness :
  ∃ e w', @assignExecution demo_env "eu" Background demo_assignment (remote_world 32) = (Err e, w') ∧
    coordOf w' "eu" = coordOf (remote_world 32) "eu".
Proof.
  apply (assign_full_channel_restores demo_env "eu" demo_assignment (remote_world 32)
    (mkAttempt "a1" "j1" "v1" "" "eu" AttemptStateAssigned StartModeUnset 0 0 30 "" 1 1)).
  - apply demo_quiet.
  - reflexivity.
  - apply map_Forall_insert_2; [split; reflexivity|apply map_Forall_empty].
Defined.

(** When the attempt record cannot be read, [assignExecution] fails after it
    has reserved a host, and the reservation is not given back: the chosen host
    keeps one slot less. *)
Theorem assign_missing_attempt_leaks (E : GoEnv) cid a (w : World) hostID s :
  quiet E →
  st_attempts (w_store w) !! asg_AttemptID a = None →
  c_hosts (coordOf w cid) = {[hostID := s]} →
  hostUsable (asg_NetworkPolicy a) (hs_host s) = true →
  ∃ e w' s', assignExecution cid Background a w = (Err e, w') ∧
    c_hosts (coordOf w' cid) = {[hostID := s']} ∧
    host_AvailableSlots (hs_host s') = (host_AvailableSlots (hs_host s) - 1)%Z.
Proof.
  intros Hq Ha Hh Hu. unfold assignExecution, pickHostForExecution.
  pose proof (pickHost_cases cid a w) as Hp. cbv zeta in Hp.
  assert (st_attempts (w_store (pickHost cid a w).2) = st_attempts (w_store w)) as Eatt
    by apply pickHost_attempts, Hq.
  destruct (pickHost cid a w) as [[[[hostID' s'] mode]|e] w1] eqn:Ep.
  2:{ destruct Hp as (_ & _ & Hn). rewrite (Hn hostID s) in Hu; [done|].
      by rewrite Hh, lookup_singleton_eq. }
  destruct Hp as (s1 & (Hs & _) & _ & Hs' & Hc & _).
  rewrite Hh in Hs. apply lookup_singleton_Some in Hs as [<- <-].
  erewrite run_bind by (by erewrite run_bind by (by apply run_try)). unfold GetAttempt.
  erewrite run_bind_err by (by apply run_find_none; simpl in Eatt; rewrite ?Eatt).
  eexists _, _, s'. split; [done|].
  change (coordOf _ cid) with (coordOf w1 cid). rewrite Hc. simpl. rewrite Hh.
  split; [apply insert_singleton_eq|]. subst s'. unfold reserveOn.
  destruct (isFull _), mode; simpl; try done; by case_match.
Qed.

Lemma assign_missing_attempt_leaks_witness :
  ∃ e w' s', @assignExecution demo_env "eu" Background (demo_assignment <| asg_AttemptID := "a2" |>)
      (remote_world 0) = (Err e, w') ∧
    c_hosts (coordOf w' "eu") = {["h1" := s']} ∧ host_AvailableSlots (hs_host s') = 1%Z.
Proof.
  exact (assign_missing_attempt_leaks demo_env "eu" (demo_assignment <| asg_AttemptID := "a2" |>)
    (remote_world 0) "h1" _ demo_quiet eq_refl eq_refl eq_refl).
Defined.

(** A final successful update of a queued execution.  The attempt becomes
    succeeded with its lease closed; the job becomes succeeded, without error,
    with a result that carries the update's exit code, logs, output, host and
    region and the object keys of this job and attempt; one cost record, under
    the attempt's ID, is added for the tenant of the project; nothing else of
    the store changes and no retry is started. *)
Theorem update_success_spec (E : GoEnv) cid msg (w : World) att job v p :
  quiet E →
  au_State msg = ASSIGNMENT_STATE_SUCCEEDED →
  au_AttemptId msg ∉ c_directInvokes (coordOf w cid) →
  st_attempts (w_store w) !! au_AttemptId msg = Some att →
  st_executionJobs (w_store w) !! au_JobId msg = Some job →
  st_functions (w_store w) !! job_FunctionVersionID job = Some v →
  st_projects (w_store w) !! job_ProjectID job = Some p →
  ∃ t w' att' job' cost,
    handleAssignmentUpdate cid msg w = (Ok tt, w') ∧ w_coords w' = w_coords w ∧
    w_store w' = (w_store w)
      <| st_attempts := <[att_ID att := att']> (st_attempts (w_store w)) |>
      <| st_executionJobs := <[job_ID job := job']> (st_executionJobs (w_store w)) |>
      <| st_costRecords := <[att_ID att := cost]> (st_costRecords (w_store w)) |> ∧
    att' = att <| att_State := AttemptStateSucceeded |> <| att_HostID := au_HostId msg |>
               <| att_LeaseExpiresAt := t |> <| att_UpdatedAt := t |> ∧
    job' = job <| job_State := JobStateSucceeded |> <| job_Error := "" |>
               <| job_Result := Some (resultOf msg t att) |> <| job_UpdatedAt := t |> ∧
    cost_TenantID cost = prj_TenantID p ∧ cost_JobID cost = job_ID job ∧
    cost_CPUMs cost = billedMs t (startTimeOr t (att_StartedAt att)) ∧
    cost_MemoryMBMs cost = int64_of (fv_MemoryMB v * cost_CPUMs cost).
Proof.
  intros Hq Hst Hd Ha Hj Hv Hp.
  destruct (run_update E Hq cid msg w att job Hd Ha Hj)
    as (t & w1 & att' & job' & Eu & Es & Ec & Eh).
  unfold applyUpdate in Eu. rewrite Hst in Eu. injection Eu as <- <-. simpl in Es.
  assert (terminalUpdate msg = true) as Ht by (unfold terminalUpdate; by rewrite Hst).
  rewrite Ht, Hst in Eh.
  match type of Eh with context [recordCost ?a ?j] =>
    destruct (run_recordCost E Hq a j (resultOf msg t att) v p w1)
      as (t' & w' & Er & Ec' & Es') end;
    [done|by rewrite Es|by rewrite Es|].
  rewrite (run_bind _ _ _ _ _ Er) in Eh.
  eexists t, w', _, _, _. split; [exact Eh|]. split; [congruence|].
  split; [rewrite Es', Es; simpl; reflexivity|]. by split_and!.
Qed.

Definition demo_project : Project := mkProject "p1" "tenant" "p1" 1.

(** [remote_world] with the project and the job of its attempt. *)
Definition running_world (j : ExecutionJob) : World :=
  (remote_world 0) <| w_store := (w_store (remote_world 0))
    <| st_projects := {["p1" := demo_project]} |>
    <| st_executionJobs := {["j1" := j]} |> |>.

Definition demo_update (st : AssignmentState) : AssignmentUpdate :=
  mkAssignmentUpdate "h1" "eu" "a1" "j1" st "log" "{}" "boom" 1.

Definition running_job : ExecutionJob :=
  mkExecutionJob "j1" "v1" "p1" "eu" JobStateRunning "{}" 2 1 "a1" "" None 5 5.

Lemma update_success_spec_witness :
  ∃ w', @handleAssignmentUpdate demo_env "eu" (demo_update ASSIGNMENT_STATE_SUCCEEDED)
      (running_world running_job) = (Ok tt, w') ∧
    job_State <$> st_executionJobs (w_store w') !! "j1" = Some JobStateSucceeded.
Proof.
  destruct (update_success_spec demo_env "eu" (demo_update ASSIGNMENT_STATE_SUCCEEDED)
    (running_world running_job)
    (mkAttempt "a1" "j1" "v1" "" "eu" AttemptStateAssigned StartModeUnset 0 0 30 "" 1 1)
    running_job demo_version demo_project demo_quiet eq_refl)
    as (t & w' & att' & job' & cost & Eh & _ & Es & _ & Ej & _); try reflexivity.
  { vm_compute. intros H. discriminate H. }
  exists w'. split; [exact Eh|]. rewrite Es, Ej. reflexivity.
Defined.

(** A failed update of a queued execution.  Attempt and job take the
    update's error message; the job is set to retry, and the retry goroutine of
    that job is started, exactly when its attempts do not exceed the retry
    budget and the coordinator has a retryer; otherwise it fails for good and no
    goroutine is started. *)
Theorem update_failure_spec (E : GoEnv) cid msg (w : World) att job v p :
  quiet E →
  au_State msg = ASSIGNMENT_STATE_FAILED →
  au_AttemptId msg ∉ c_directInvokes (coordOf w cid) →
  st_attempts (w_store w) !! au_AttemptId msg = Some att →
  st_executionJobs (w_store w) !! au_JobId msg = Some job →
  st_functions (w_store w) !! job_FunctionVersionID job = Some v →
  st_projects (w_store w) !! job_ProjectID job = Some p →
  let again := (job_AttemptCount job <=? job_MaxRetries job)%Z && c_retry (coordOf w cid) in
  ∃ t w' att' job',
    handleAssignmentUpdate cid msg w = (Ok tt, w') ∧
    st_attempts (w_store w') = <[att_ID att := att']> (st_attempts (w_store w)) ∧
    st_executionJobs (w_store w') = <[job_ID job := job']> (st_executionJobs (w_store w)) ∧
    att_State att' = AttemptStateFailed ∧ att_Error att' = au_ErrorMessage msg ∧
    att_LeaseExpiresAt att' = t ∧
    job_Error job' = au_ErrorMessage msg ∧ job_AttemptCount job' = job_AttemptCount job ∧
    job_State job' = (if again then JobStateRetrying else JobStateFailed) ∧
    c_spawned (coordOf w' cid) =
      c_spawned (coordOf w cid) ++ (if again then [GoRetry (job_ID job)] else []).
Proof.
  intros Hq Hst Hd Ha Hj Hv Hp again.
  destruct (run_update E Hq cid msg w att job Hd Ha Hj)
    as (t & w1 & att' & job' & Eu & Es & Ec & Eh).
  unfold applyUpdate in Eu. rewrite Hst in Eu. fold again in Eu. injection Eu as <- <-. simpl in Es.
  assert (terminalUpdate msg = true) as Ht by (unfold terminalUpdate; by rewrite Hst).
  rewrite Ht, Hst in Eh.
  match type of Eh with context [recordCost ?a ?j] =>
    destruct (run_recordCost E Hq a j (resultOf msg t att) v p w1)
      as (t' & w' & Er & Ec' & Es') end;
    [done|by rewrite Es|by rewrite Es|].
  rewrite (run_bind _ _ _ _ _ Er) in Eh.
  assert (coordOf w' cid = coordOf w cid) as Ecoord by (apply coordOf_coords; congruence).
  destruct again; cbn in Eh; rewrite Eh; eexists t, _, _, _; (split; [done|]);
    simpl; rewrite ?Es', ?Es; simpl; split_and!; try reflexivity.
  - rewrite coordOf_put. simpl. by rewrite Ecoord.
  - by rewrite Ecoord, app_nil_r.
Qed.

Lemma update_failure_spec_witness :
  ∃ w', @handleAssignmentUpdate demo_env "eu" (demo_update ASSIGNMENT_STATE_FAILED)
      (running_world running_job) = (Ok tt, w') ∧
    c_spawned (coordOf w' "eu") = [GoRetry "j1"].
Proof.
  destruct (update_failure_spec demo_env "eu" (demo_update ASSIGNMENT_STATE_FAILED)
    (running_world running_job)
    (mkAttempt "a1" "j1" "v1" "" "eu" AttemptStateAssigned StartModeUnset 0 0 30 "" 1 1)
    running_job demo_version demo_project demo_quiet eq_refl)
    as (t & w' & att' & job' & Eh & _ & _ & _ & _ & _ & _ & _ & _ & Es); try reflexivity.
  { vm_compute. intros H. discriminate H. }
  exists w'. split; [exact Eh|]. rewrite Es. reflexivity.
Defined.

(** A job that has ended can be revived.  A "running" update (late, repeated
    or of an earlier attempt) of a succeeded job sets the job back to running
    and its attempt to running with a new lease, so the job that had its result
    counts as active again and can be retried when the lease expires. *)
Theorem late_update_revives (E : GoEnv) cid msg (w : World) att job :
  quiet E →
  au_State msg = ASSIGNMENT_STATE_RUNNING →
  au_AttemptId msg ∉ c_directInvokes (coordOf w cid) →
  st_attempts (w_store w) !! au_AttemptId msg = Some att →
  st_executionJobs (w_store w) !! au_JobId msg = Some job →
  job_ID job = au_JobId msg → att_ID att = au_AttemptId msg →
  att_State att = AttemptStateSucceeded → job_State job = JobStateSucceeded →
  ∃ w' att' job', handleAssignmentUpdate cid msg w = (Ok tt, w') ∧
    st_executionJobs (w_store w') !! au_JobId msg = Some job' ∧ job_State job' = JobStateRunning ∧
    st_attempts (w_store w') !! au_AttemptId msg = Some att' ∧ att_State att' = AttemptStateRunning.
Proof.
  intros Hq Hst Hd Ha Hj Hid Hida _ _.
  destruct (run_update E Hq cid msg w att job Hd Ha Hj)
    as (t & w1 & att' & job' & Eu & Es & Ec & Eh).
  unfold applyUpdate in Eu. rewrite Hst in Eu. injection Eu as <- <-. simpl in Es.
  assert (terminalUpdate msg = false) as Ht by (unfold terminalUpdate; by rewrite Hst).
  rewrite Ht, Hst in Eh. rewrite Hid, Hida in Es.
  eexists w1, _, _. split; [exact Eh|]. rewrite Es. simpl. rewrite !lookup_insert_eq. done.
Qed.

Lemma late_update_revives_witness :
  let w := (@handleAssignmentUpdate demo_env "eu" (demo_update ASSIGNMENT_STATE_SUCCEEDED)
              (running_world running_job)).2 in
  ∃ w' att' job', @handleAssignmentUpdate demo_env "eu" (demo_update ASSIGNMENT_STATE_RUNNING) w =
      (Ok tt, w') ∧
    st_executionJobs (w_store w') !! "j1" = Some job' ∧ job_State job' = JobStateRunning ∧
    st_attempts (w_store w') !! "a1" = Some att' ∧ att_State att' = AttemptStateRunning.
Proof.
  intros w. eapply (late_update_revives demo_env "eu" (demo_update ASSIGNMENT_STATE_RUNNING) w).
  - apply demo_quiet.
  - reflexivity.
  - vm_compute. intros H. discriminate H.
  - vm_compute. reflexivity.
  - vm_compute. reflexivity.
  - reflexivity.
  - reflexivity.
  - reflexivity.
  - reflexivity.
Defined.

(** Billing.  For a version within the memory limit and an attempt that
    started at a known time not after its end, the billed time is the elapsed
    time in whole milliseconds and at least one, and the memory cost is the exact
    product: the 64-bit multiplication does not overflow. *)
Theorem cost_exact memoryMB (startedAt finishedAt : Time) :
  (0 ≤ memoryMB ≤ 4096)%Z → (0 < startedAt ≤ finishedAt)%Z →
  (finishedAt - startedAt ≤ maxDuration)%Z →
  billedMs finishedAt startedAt = Z.max 1 ((finishedAt - startedAt) / Millisecond) ∧
  int64_of (memoryMB * billedMs finishedAt startedAt) =
    (memoryMB * Z.max 1 ((finishedAt - startedAt) / Millisecond))%Z.
Proof.
  intros Hm Hs Hd. set (d := (finishedAt - startedAt)%Z) in *.
  assert (billedMs finishedAt startedAt = Z.max 1 (d / Millisecond)) as Eb.
  { unfold billedMs, Sub, Milliseconds, IsZero. fold d.
    unfold minDuration, maxDuration in *.
    rewrite Z.min_r, Z.max_r by lia. rewrite (proj2 (Z.ltb_ge d 0)) by lia.
    rewrite Z.quot_div_nonneg by (unfold Millisecond; lia).
    rewrite (proj2 (Z.eqb_neq finishedAt 0)), (proj2 (Z.eqb_neq startedAt 0)) by lia.
    rewrite (proj2 (Z.ltb_ge finishedAt startedAt)) by lia. simpl.
    pose proof (Z.div_pos d Millisecond).
    destruct (Z.eqb_spec (d / Millisecond) 0); simpl; unfold Millisecond in *; lia. }
  split; [exact Eb|]. rewrite Eb. apply int64_of_id.
  assert (0 ≤ d / Millisecond ≤ 9223372036855)%Z.
  { unfold maxDuration in *. split; [apply Z.div_pos; unfold Millisecond; lia|].
    apply Z.div_le_upper_bound; unfold Millisecond; lia. }
  nia.
Qed.

Lemma cost_exact_witness :
  billedMs 5000000 4000000 = 1%Z ∧
  int64_of (4096 * billedMs 5000000 4000000) = (4096 * Z.max 1 ((5000000 - 4000000) / Millisecond))%Z.
Proof.
  split; [reflexivity|]. apply (cost_exact 4096 4000000 5000000).
  - lia.
  - lia.
  - vm_compute. discriminate.
Defined.

(** Updates of a direct invocation.  An update for a registered attempt is
    always consumed by the waiter, never by the job tables.  A final update
    unregisters the attempt and reaches the waiting call: it is appended to the
    channel, or, when the channel is full, handed to a goroutine that sends it.
    An intermediate update (a piece of a streamed response) is appended when
    there is room and is dropped without trace when 16 updates are buffered. *)
Theorem direct_update_delivery cid msg (w : World) q :
  au_AttemptId msg ∈ c_directInvokes (coordOf w cid) →
  c_waiters (coordOf w cid) !! au_AttemptId msg = Some (mkDirectInvokeWaiter (Some q) false) →
  ∃ w', handleDirectInvokeUpdate cid msg w = (Ok true, w') ∧ w_store w' = w_store w ∧
    let c := coordOf w cid in
    let c' := coordOf w' cid in
    c_directInvokes c' =
      (if terminalUpdate msg then c_directInvokes c ∖ {[au_AttemptId msg]} else c_directInvokes c) ∧
    if (length q <? 16)%nat
    then c_waiters c' !! au_AttemptId msg = Some (mkDirectInvokeWaiter (Some (q ++ [msg])) false) ∧
         c_spawned c' = c_spawned c
    else c_waiters c' = c_waiters c ∧
         c_spawned c' = c_spawned c ++ (if terminalUpdate msg then [GoDeliver msg] else []).
Proof.
  intros Hin Hw. unfold handleDirectInvokeUpdate. erewrite run_bind by done.
  rewrite bool_decide_eq_true_2 by done. cbn [negb]. cbn zeta. erewrite run_bind by done.
  assert (c_waiters (if terminalUpdate msg then (coordOf w cid) <| c_directInvokes :=
    c_directInvokes (coordOf w cid) ∖ {[au_AttemptId msg]} |> else coordOf w cid) !! au_AttemptId msg =
    Some (mkDirectInvokeWaiter (Some q) false)) as Hw' by (by destruct (terminalUpdate msg)).
  rewrite Hw'. cbn iota. unfold trySend, updatesCap.
  destruct (length q <? 16)%nat.
  - erewrite run_bind by done. eexists. split; [done|]. split; [done|].
    rewrite coordOf_put. simpl. rewrite lookup_insert_eq.
    by destruct (terminalUpdate msg).
  - destruct (terminalUpdate msg); erewrite run_bind by done; eexists; (split; [done|]);
      (split; [done|]); rewrite coordOf_put; simpl.
    + rewrite coordOf_put. simpl. done.
    + by rewrite app_nil_r.
Qed.

(** A coordinator on whose attempt ["a1"] a direct invocation waits. *)
Definition waiting_world (n : nat) : World :=
  putCoord "eu" ((NewCoordinator "eu") <| c_directInvokes := {["a1"]} |>
    <| c_waiters := {["a1" := mkDirectInvokeWaiter
         (Some (replicate n (demo_update ASSIGNMENT_STATE_RUNNING))) false]} |>) NewWorld.

Lemma direct_update_delivery_witness :
  (∃ w', handleDirectInvokeUpdate "eu" (demo_update ASSIGNMENT_STATE_RUNNING)
           (waiting_world 16) = (Ok true, w') ∧ c_waiters (coordOf w' "eu") = c_waiters (coordOf (waiting_world 16) "eu")) ∧
  (∃ w', handleDirectInvokeUpdate "eu" (demo_update ASSIGNMENT_STATE_SUCCEEDED)
           (waiting_world 16) = (Ok true, w') ∧
         c_spawned (coordOf w' "eu") = [GoDeliver (demo_update ASSIGNMENT_STATE_SUCCEEDED)]).
Proof.
  split.
  - destruct (direct_update_delivery "eu" (demo_update ASSIGNMENT_STATE_RUNNING)
      (waiting_world 16) (replicate 16 (demo_update ASSIGNMENT_STATE_RUNNING)))
      as (w' & Eh & _ & _ & H); [vm_compute; reflexivity|reflexivity|].
    exists w'. split; [exact Eh|]. exact (proj1 H).
  - destruct (direct_update_delivery "eu" (demo_update ASSIGNMENT_STATE_SUCCEEDED)
      (waiting_world 16) (replicate 16 (demo_update ASSIGNMENT_STATE_RUNNING)))
      as (w' & Eh & _ & _ & H); [vm_compute; reflexivity|reflexivity|].
    exists w'. split; [exact Eh|]. exact (proj2 H).
Defined.

(** The stored region is the region's statistics.  When the sessions of a
    coordinator belong to its region, [persistRegionLocked] stores exactly the
    counters [Stats] computes (whatever the iteration orders), with state
    "active" when some host is active and "degraded", with an error text,
    when none is. *)
Theorem persist_region_spec (E : GoEnv) cid (w : World) :
  quiet E →
  map_Forall (λ _ s, host_Region (hs_host s) = c_region (coordOf w cid)) (c_hosts (coordOf w cid)) →
  ∃ reg w', persistRegionLocked cid w = (Ok tt, w') ∧
    w_store w' = (w_store w) <| st_regions := <[reg_Name reg := reg]> (st_regions (w_store w)) |> ∧
    reg_Name reg = c_region (coordOf w cid) ∧
    mkRegionStats (reg_AvailableHosts reg) (reg_AvailableFullNetworkSlots reg) (reg_BlankWarm reg)
      (reg_FunctionWarm reg) = Stats cid w ∧
    (reg_State reg = "active" ∧ reg_LastError reg = "" ∧
       (∃ id s, c_hosts (coordOf w cid) !! id = Some s ∧ hostActive (hs_host s) = true) ∨
     reg_State reg = "degraded" ∧ reg_LastError reg = "no active hosts connected" ∧
       (∀ id s, c_hosts (coordOf w cid) !! id = Some s → hostActive (hs_host s) = false)).
Proof.
  intros Hq Hreg. unfold persistRegionLocked. erewrite run_bind by done. cbn zeta.
  set (c := coordOf w cid) in *.
  pose proof (persist_fold (c_region c) (map_iter 1149 (c_hosts c)) (mkRegionAcc zeroStats 0 0)) as Hf.
  cbv zeta in Hf. set (acc := foldl _ _ _) in *. simpl in Hf.
  destruct Hf as (H1 & H2 & H3).
  { intros [id s] Hin. apply elem_of_map_iter in Hin. by apply (Hreg id). }
  assert (ra_stats acc = Stats cid w) as Hst.
  { rewrite H1, Stats_totals, foldl_addStats. unfold regionTotals. fold c. by rewrite !map_iter_perm. }
  assert (∃ t w1, (if IsZero (ra_heartbeat acc) then now else mret (ra_heartbeat acc)) w = (Ok t, w1) ∧
    w_store w1 = w_store w) as (t & w1 & Et & Es).
  { destruct (IsZero _); by do 2 eexists. }
  erewrite run_bind by done. erewrite run_call by done.
  eexists (mkRegion _ _ _ _ _ _ _ _), _. split; [reflexivity|]. simpl. rewrite Es. split; [done|].
  split; [done|]. split; [rewrite Hst; by destruct (Stats cid w)|].
  destruct (Z.eqb_spec (ra_connected acc) 0) as [Hz|Hz].
  - right. split_and!; [done|done|]. intros id s Hs.
    assert (Forall (λ e, hostActive (hs_host e.2) = false) (map_iter 1149 (c_hosts c))) as Ha
      by (apply H3; lia).
    rewrite Forall_forall in Ha. apply (Ha (id, s)). by apply elem_of_map_iter.
  - left. split_and!; [done|done|].
    destruct (decide (Forall (λ e, hostActive (hs_host e.2) = false) (map_iter 1149 (c_hosts c)))) as [Ha|Ha].
    { apply H3 in Ha. lia. }
    apply not_Forall_Exists in Ha; [|apply _]. apply Exists_exists in Ha as ([id s] & Hin & Ha).
    apply elem_of_map_iter in Hin. exists id, s. split; [done|]. simpl in Ha. by destruct (hostActive _).
Qed.

Lemma persist_region_spec_witness :
  ∃ reg w', @persistRegionLocked demo_env "eu" (remote_world 0) = (Ok tt, w') ∧
    mkRegionStats (reg_AvailableHosts reg) (reg_AvailableFullNetworkSlots reg) (reg_BlankWarm reg)
      (reg_FunctionWarm reg) = mkRegionStats 1 1 1 1.
Proof.
  destruct (persist_region_spec demo_env "eu" (remote_world 0) demo_quiet)
    as (reg & w' & Ep & _ & _ & Hs & _).
  { apply map_Forall_insert_2; [reflexivity|apply map_Forall_empty]. }
  exists reg, w'. split; [exact Ep|]. rewrite Hs. reflexivity.
Defined.

(** An error of a handler ends the control stream without taking the host
    out of service.  When the store fails during a heartbeat, [Control] returns
    the error, and the host's session, whose channel the returning function
    closes, is still registered with the state it had and the reported slots, so
    it can still be chosen for assignments. *)
Theorem control_error_keeps_session (E : GoEnv) cid hostID msg (w : World) s e :
  hb_HostId msg = hostID →
  c_hosts (coordOf w cid) !! hostID = Some s →
  env_fault (w_calls w) = Some e →
  ∃ w' s', controlStep cid hostID (RecvMessage (MsgHeartbeat msg)) w = (Ok (Return (Some e)), w') ∧
    c_hosts (coordOf w' cid) !! hostID = Some s' ∧
    host_State (hs_host s') = host_State (hs_host s) ∧
    host_AvailableSlots (hs_host s') = hb_AvailableSlots msg ∧ hs_sendCh s' = hs_sendCh s.
Proof.
  intros Hid Hs Hf. unfold controlStep, orReturn.
  erewrite run_bind.
  2:{ eapply run_try. unfold updateHeartbeatContext. erewrite run_bind by done. rewrite Hid, Hs.
      erewrite run_bind by done. cbn zeta. erewrite run_bind by done.
      erewrite run_bind_err; [reflexivity|]. unfold call. simpl. rewrite Hf. reflexivity. }
  cbn iota. do 2 eexists. split; [done|]. simpl.
  match goal with |- context [coordOf ?w0 cid] =>
    assert (c_hosts (coordOf w0 cid) !! hostID = Some (s <| hs_host := (hs_host s)
       <| host_AvailableSlots := hb_AvailableSlots msg |>
       <| host_AvailableFullNetworkSlots := hb_AvailableFullNetworkSlots msg |>
       <| host_BlankWarm := hb_BlankWarm msg |> <| host_FunctionWarm := warmMap (hb_FunctionWarm msg) |>
       <| host_LastHeartbeat := env_clock (w_tick w) |> |>)) as -> end.
  { unfold coordOf. simpl. rewrite lookup_insert_eq. simpl. apply lookup_insert_eq. }
  done.
Qed.

(** [demo_env] whose first store call fails. *)
Definition faulty_env : GoEnv := {|
  env_order := list_order;
  env_clock := @env_clock demo_env;
  env_uuid := @env_uuid demo_env;
  env_fault n := if Nat.eqb n 0 then Some (plainErr "connection reset") else None;
  env_other _ s := s;
  json_Compact := @json_Compact demo_env;
  json_MarshalInvoke := @json_MarshalInvoke demo_env;
  sha256_hex := @sha256_hex demo_env;
|}.

Lemma control_error_keeps_session_witness :
  ∃ w' s', @controlStep faulty_env "eu" "h1"
      (RecvMessage (MsgHeartbeat (mkHostHeartbeat "h1" "eu" 2 1 [] 1))) (remote_world 0) =
      (Ok (Return (Some (plainErr "connection reset"))), w') ∧
    c_hosts (coordOf w' "eu") !! "h1" = Some s' ∧ host_State (hs_host s') = HostStateActive.
Proof.
  destruct (control_error_keeps_session faulty_env "eu" "h1" (mkHostHeartbeat "h1" "eu" 2 1 [] 1)
    (remote_world 0)
    (mkHostSession (mkHost "h1" "eu" "local" HostStateActive 2 1 1 {["v1" := 1%Z]} 7) (Some []) false false)
    (plainErr "connection reset")) as (w' & s' & Ec & Hs & Hst & _); [reflexivity..|].
  exists w', s'. split; [exact Ec|]. split; [exact Hs|exact Hst].
Defined.
