(* ===== verification/Buses.v ===== *)
(** * Buses: the in-memory queues

    Models [internal/dispatch/memory.go], the queue between scheduler and
    coordinator, and [internal/build/memorybus.go], the queue of build jobs.
    Both keep one buffered channel per region.  Channels live in a heap: a
    publisher or consumer holds the channel it was given, also after [Close] has
    removed it from the bus.

    The dispatch bus is a transition system: publishers, consumers and the
    goroutines that requeue a refused assignment take turns.  A call on a closed
    bus only returns an error, and a send on a closed channel ends the process;
    neither is a step. *)

From Stdlib Require Import Ascii.
From stdpp Require Import base decidable tactics numbers list gmap strings.
From S2P Require Import Prelude Domain.

(** ** Channels *)

Record Chan (A : Type) := mkChan {
  ch_items : list A;
  ch_cap : nat;
  ch_closed : bool;
}.
Arguments mkChan {A} _ _ _.
Arguments ch_items {A} _.
Arguments ch_cap {A} _.
Arguments ch_closed {A} _.

Inductive SendResult (A : Type) := Sent (c : Chan A) | SendBlocks | SendPanics.
Arguments Sent {A} _.
Arguments SendBlocks {A}.
Arguments SendPanics {A}.

(** [ch <- x] *)
Definition chanSend {A} (c : Chan A) (x : A) : SendResult A :=
  if ch_closed c then SendPanics
  else if length (ch_items c) <? ch_cap c then Sent (mkChan (ch_items c ++ [x]) (ch_cap c) false)
  else SendBlocks.

Inductive RecvResult (A : Type) := Received (x : A) (c : Chan A) | RecvClosed | RecvBlocks.
Arguments Received {A} _ _.
Arguments RecvClosed {A}.
Arguments RecvBlocks {A}.

(** [x, ok := <-ch] *)
Definition chanRecv {A} (c : Chan A) : RecvResult A :=
  match ch_items c with
  | x :: rest => Received x (mkChan rest (ch_cap c) (ch_closed c))
  | [] => if ch_closed c then RecvClosed else RecvBlocks
  end.

(** The state of a bus: the channels ever made, and those it still names. *)
Record MemoryBus (A : Type) := mkMemoryBus {
  mb_buffer : nat;
  mb_chans : list (Chan A);
  mb_names : gmap string nat;
  mb_closed : bool;
}.
Arguments mkMemoryBus {A} _ _ _ _.
Arguments mb_buffer {A} _.
Arguments mb_chans {A} _.
Arguments mb_names {A} _.
Arguments mb_closed {A} _.

(** The channel of a region, made when there is none. *)
Definition channelOf {A} (region : string) (b : MemoryBus A) : nat * MemoryBus A :=
  match mb_names b !! region with
  | Some ch => (ch, b)
  | None =>
      let ch := length (mb_chans b) in
      (ch, mkMemoryBus (mb_buffer b) (mb_chans b ++ [mkChan [] (mb_buffer b) false])
             (<[region := ch]> (mb_names b)) (mb_closed b))
  end.

(** [close] on every channel the bus names. *)
Definition closeNamed {A} (b : MemoryBus A) : list (Chan A) :=
  imap (λ i c, if existsb (λ e, Nat.eqb e.2 i) (map_to_list (mb_names b))
               then mkChan (ch_items c) (ch_cap c) true else c) (mb_chans b).

Definition setChan {A} (ch : nat) (c : Chan A) (b : MemoryBus A) : MemoryBus A :=
  mkMemoryBus (mb_buffer b) (<[ch := c]> (mb_chans b)) (mb_names b) (mb_closed b).

(** ** The dispatch bus *)

Definition NewDispatchBus (buffer : Z) : MemoryBus Assignment :=
  mkMemoryBus (if (buffer <=? 0)%Z then 256 else Z.to_nat buffer) [] ∅ false.

Definition dispatchQueue (region : string) (b : MemoryBus Assignment) : result nat * MemoryBus Assignment :=
  if mb_closed b then (Err (sentinel ContextCanceled), b)
  else let '(ch, b) := channelOf region b in (Ok ch, b).

Definition CloseDispatch (b : MemoryBus Assignment) : MemoryBus Assignment :=
  if mb_closed b then b else mkMemoryBus (mb_buffer b) (closeNamed b) ∅ true.

(** What a goroutine that uses the bus is about to do. *)
Inductive busThread :=
| Publishing (ch : nat) (a : Assignment)
| Consuming (region : string) (ch : nat)
| Handling (region : string) (ch : nat) (a : Assignment)
| Sleeping (region : string) (a : Assignment)
| Requeueing (ch : nat) (a : Assignment).

(** [ds_cancelled]: whether the consumers' context is done.  [ds_accepted],
    [ds_done] and [ds_lost] record the assignments sent by publishers, handled
    without an error, and given up by a requeueing goroutine. *)
Record DispatchState := mkDispatchState {
  ds_bus : MemoryBus Assignment;
  ds_threads : list busThread;
  ds_cancelled : bool;
  ds_accepted : list Assignment;
  ds_done : list Assignment;
  ds_lost : list Assignment;
}.

#[export] Instance DispatchState_rebuild : Rebuild DispatchState :=
  λ r, mkDispatchState (ds_bus r) (ds_threads r) (ds_cancelled r) (ds_accepted r) (ds_done r) (ds_lost r).

(** Replacing a goroutine by others. *)
Definition becomes (th : busThread) (ths : list busThread) (s s' : list busThread) : Prop :=
  ∃ l r, s = l ++ th :: r ∧ s' = l ++ ths ++ r.

(** One step of [PublishExecution], [ConsumeExecution], the goroutine it starts,
    [Close], or the cancellation of the consumers' context. *)
Inductive dispatchStep (s : DispatchState) : DispatchState → Prop :=
| step_publish region a ch b :
    dispatchQueue region (ds_bus s) = (Ok ch, b) →
    dispatchStep s (s <| ds_bus := b |> <| ds_threads := ds_threads s ++ [Publishing ch a] |>)
| step_publish_send ch a c c' ths :
    becomes (Publishing ch a) [] (ds_threads s) ths →
    mb_chans (ds_bus s) !! ch = Some c → chanSend c a = Sent c' →
    dispatchStep s (s <| ds_bus := setChan ch c' (ds_bus s) |> <| ds_threads := ths |>
                      <| ds_accepted := ds_accepted s ++ [a] |>)
| step_publish_done ch a ths :
    becomes (Publishing ch a) [] (ds_threads s) ths →
    dispatchStep s (s <| ds_threads := ths |>)
| step_consume region ch b :
    dispatchQueue region (ds_bus s) = (Ok ch, b) →
    dispatchStep s (s <| ds_bus := b |> <| ds_threads := ds_threads s ++ [Consuming region ch] |>)
| step_receive region ch c a c' ths :
    becomes (Consuming region ch) [Handling region ch a] (ds_threads s) ths →
    mb_chans (ds_bus s) !! ch = Some c → chanRecv c = Received a c' →
    dispatchStep s (s <| ds_bus := setChan ch c' (ds_bus s) |> <| ds_threads := ths |>)
| step_consume_closed region ch c ths :
    becomes (Consuming region ch) [] (ds_threads s) ths →
    mb_chans (ds_bus s) !! ch = Some c → chanRecv c = RecvClosed →
    dispatchStep s (s <| ds_threads := ths |>)
| step_consume_done region ch ths :
    becomes (Consuming region ch) [] (ds_threads s) ths → ds_cancelled s = true →
    dispatchStep s (s <| ds_threads := ths |>)
| step_handled region ch a ths :
    becomes (Handling region ch a) [Consuming region ch] (ds_threads s) ths →
    dispatchStep s (s <| ds_threads := ths |> <| ds_done := ds_done s ++ [a] |>)
| step_refused region ch a ths :
    becomes (Handling region ch a) [Consuming region ch; Sleeping region a] (ds_threads s) ths →
    dispatchStep s (s <| ds_threads := ths |>)
| step_sleep_done region a ths :
    becomes (Sleeping region a) [] (ds_threads s) ths → ds_cancelled s = true →
    dispatchStep s (s <| ds_threads := ths |> <| ds_lost := ds_lost s ++ [a] |>)
| step_wake region a ch b ths :
    dispatchQueue region (ds_bus s) = (Ok ch, b) →
    becomes (Sleeping region a) [Requeueing ch a] (ds_threads s) ths →
    dispatchStep s (s <| ds_bus := b |> <| ds_threads := ths |>)
| step_wake_closed region a e b ths :
    dispatchQueue region (ds_bus s) = (Err e, b) →
    becomes (Sleeping region a) [] (ds_threads s) ths →
    dispatchStep s (s <| ds_threads := ths |> <| ds_lost := ds_lost s ++ [a] |>)
| step_requeue ch a c c' ths :
    becomes (Requeueing ch a) [] (ds_threads s) ths →
    mb_chans (ds_bus s) !! ch = Some c → chanSend c a = Sent c' →
    dispatchStep s (s <| ds_bus := setChan ch c' (ds_bus s) |> <| ds_threads := ths |>)
| step_cancel : dispatchStep s (s <| ds_cancelled := true |>)
| step_close : dispatchStep s (s <| ds_bus := CloseDispatch (ds_bus s) |>).

Definition dispatchInit (buffer : Z) : DispatchState := mkDispatchState (NewDispatchBus buffer) [] false [] [] [].

(** ** The build bus *)

Definition NewBuildBus (buffer : Z) : MemoryBus string :=
  mkMemoryBus (if (buffer <=? 0)%Z then 64 else Z.to_nat buffer) [] ∅ false.

(** [Close]; the bus does not remember it. *)
Definition CloseBuild (b : MemoryBus string) : MemoryBus string :=
  mkMemoryBus (mb_buffer b) (closeNamed b) ∅ (mb_closed b).

(** [PublishBuild]; [None] when the channel is full and the call waits for its
    context. *)
Definition PublishBuild (region buildJobID : string) (b : MemoryBus string) : option (MemoryBus string) :=
  let '(ch, b) := channelOf region b in
  c ← mb_chans b !! ch;
  match chanSend c buildJobID with
  | Sent c' => Some (setChan ch c' b)
  | SendBlocks | SendPanics => None
  end.

(** How far a consumer gets: it waits for the next job, or it has returned. *)
Inductive ConsumeEnd := Waits | Returns (r : result unit).

(** [ConsumeBuild] on the channel of its region, while its context is live.  One
    unit of [fuel] is a turn of the loop; with more turns than queued jobs the
    loop gets to its end or waits. *)
Fixpoint ConsumeBuild {W} (fuel : nat) (handler : string → M W unit) (c : Chan string) (w : W) :
    ConsumeEnd * Chan string * W :=
  match fuel with
  | 0 => (Waits, c, w)
  | S fuel =>
      match chanRecv c with
      | RecvBlocks => (Waits, c, w)
      | RecvClosed => (Returns (Ok tt), c, w)
      | Received buildJobID c' =>
          match handler buildJobID w with
          | (Err e, w') => (Returns (Err e), c', w')
          | (Ok _, w') => ConsumeBuild fuel handler c' w'
          end
      end
  end.
