(* ===== verification/BusFacts.v ===== *)
(** * BusFacts: the dispatch bus keeps its assignments

    The invariant of the transition system of [Buses]. *)

From Stdlib Require Import Ascii.
From stdpp Require Import base decidable tactics numbers list gmap strings.
From S2P Require Import Prelude Domain Buses.

(** ** What is under way *)

Definition held (th : busThread) : list Assignment :=
  match th with
  | Publishing _ _ | Consuming _ _ => []
  | Handling _ _ a | Sleeping _ a | Requeueing _ a => [a]
  end.

Definition queued (b : MemoryBus Assignment) : list Assignment := mb_chans b ≫= ch_items.

(** The assignments that are in a channel, being handled or about to be sent
    again. *)
Definition inFlight (s : DispatchState) : list Assignment := queued (ds_bus s) ++ (ds_threads s ≫= held).

Lemma becomes_held th ths s s' : becomes th ths s s' →
  held th ++ (s' ≫= held) ≡ₚ (ths ≫= held) ++ (s ≫= held).
Proof.
  intros (l & r & -> & ->). rewrite !bind_app, bind_cons.
  rewrite (Permutation_app_swap_app (held th)). rewrite (Permutation_app_swap_app (ths ≫= held)).
  apply Permutation_app_head. by rewrite Permutation_app_swap_app.
Qed.

Lemma setChan_queued ch c c' (b : MemoryBus Assignment) l :
  mb_chans b !! ch = Some c → ch_items c' ≡ₚ l ++ ch_items c → queued (setChan ch c' b) ≡ₚ l ++ queued b.
Proof.
  intros Hc Hp. unfold queued, setChan. simpl. rewrite <- (take_drop_middle (mb_chans b) ch c Hc) at 2.
  rewrite insert_take_drop by (by eapply lookup_lt_Some).
  rewrite !bind_app, !bind_cons, Hp, <- (assoc_L (++)). by rewrite Permutation_app_swap_app.
Qed.

Lemma queued_received ch c c' a (b : MemoryBus Assignment) :
  mb_chans b !! ch = Some c → chanRecv c = Received a c' → queued b ≡ₚ a :: queued (setChan ch c' b).
Proof.
  intros Hc Hr. unfold chanRecv in Hr. destruct (ch_items c) as [|x rest] eqn:Ei; [by destruct (ch_closed c)|].
  injection Hr as -> <-.
  assert (setChan ch c (setChan ch (mkChan rest (ch_cap c) (ch_closed c)) b) = b) as E.
  { unfold setChan. simpl. rewrite list_insert_insert_eq, list_insert_id by done. by destruct b. }
  rewrite <- E at 1. apply (setChan_queued ch (mkChan rest (ch_cap c) (ch_closed c)) c _ [a]); [|by rewrite Ei].
  simpl. rewrite list_lookup_insert_eq; [done|]. by eapply lookup_lt_Some.
Qed.

Lemma queued_sent ch c c' a (b : MemoryBus Assignment) :
  mb_chans b !! ch = Some c → chanSend c a = Sent c' → queued (setChan ch c' b) ≡ₚ a :: queued b.
Proof.
  intros Hc Hs. apply (setChan_queued ch c c' b [a] Hc). unfold chanSend in Hs.
  destruct (ch_closed c); [done|]. destruct (_ <? _); [|done]. injection Hs as <-. simpl. symmetry. apply Permutation_cons_append.
Qed.

Lemma queued_channelOf region ch (b b' : MemoryBus Assignment) : channelOf region b = (ch, b') → queued b' = queued b.
Proof.
  unfold channelOf. destruct (mb_names b !! region); intros [= <- <-]; [done|].
  unfold queued. simpl. rewrite bind_app. simpl. by rewrite app_nil_r.
Qed.

Lemma queued_dispatchQueue region r b b' : dispatchQueue region b = (r, b') → queued b' = queued b.
Proof.
  unfold dispatchQueue. destruct (mb_closed b); [by intros [= _ <-]|].
  destruct (channelOf region b) as [ch b1] eqn:E. intros [= _ <-]. by eapply queued_channelOf.
Qed.

Lemma imap_items (f : nat → Chan Assignment → Chan Assignment) l :
  (∀ i c, ch_items (f i c) = ch_items c) → imap f l ≫= ch_items = l ≫= ch_items.
Proof.
  revert f. induction l as [|c l IH]; intros f Hf; [done|]. rewrite imap_cons, !bind_cons, Hf. f_equal.
  apply IH. intros i c'. apply Hf.
Qed.

Lemma queued_Close b : queued (CloseDispatch b) = queued b.
Proof.
  unfold CloseDispatch. destruct (mb_closed b); [done|]. unfold queued, closeNamed. cbn [mb_chans].
  apply imap_items. intros i c. by destruct (existsb _ _).
Qed.

(** ** The invariant *)

Record dispatch_ok (buffer : nat) (s : DispatchState) : Prop := {
  dk_conserved : ds_accepted s ≡ₚ ds_done s ++ ds_lost s ++ inFlight s;
  dk_kept : ds_cancelled s = false → mb_closed (ds_bus s) = false → ds_lost s = [];
  dk_buffer : mb_buffer (ds_bus s) = buffer;
  dk_bounded c : c ∈ mb_chans (ds_bus s) → length (ch_items c) ≤ ch_cap c ∧ ch_cap c = buffer;
}.

Lemma bounded_channelOf buffer region ch (b b' : MemoryBus Assignment) :
  channelOf region b = (ch, b') → mb_buffer b = buffer →
  (∀ c, c ∈ mb_chans b → length (ch_items c) ≤ ch_cap c ∧ ch_cap c = buffer) →
  mb_buffer b' = buffer ∧ mb_closed b' = mb_closed b ∧
  ∀ c, c ∈ mb_chans b' → length (ch_items c) ≤ ch_cap c ∧ ch_cap c = buffer.
Proof.
  unfold channelOf. destruct (mb_names b !! region); intros [= <- <-] Hb Hc; [done|]. simpl. split_and!; [done|done|].
  intros c [Hin|Hin%list_elem_of_singleton]%elem_of_app; [by apply Hc|]. subst. simpl. split; [lia|done].
Qed.

Lemma bounded_setChan buffer ch c c' (b : MemoryBus Assignment) :
  mb_chans b !! ch = Some c → ch_cap c' = ch_cap c →
  (length (ch_items c) ≤ ch_cap c → length (ch_items c') ≤ ch_cap c) →
  (∀ c, c ∈ mb_chans b → length (ch_items c) ≤ ch_cap c ∧ ch_cap c = buffer) →
  ∀ x, x ∈ mb_chans (setChan ch c' b) → length (ch_items x) ≤ ch_cap x ∧ ch_cap x = buffer.
Proof.
  intros Hl Hcap Hlen Hc x Hx. simpl in Hx. apply list_elem_of_lookup in Hx as [i Hi].
  apply list_lookup_insert_Some in Hi as [(<- & -> & _)|[_ Hi]].
  - rewrite Hcap. destruct (Hc c) as [H1 H2]; [by eapply list_elem_of_lookup_2|]. auto.
  - apply Hc. by eapply list_elem_of_lookup_2.
Qed.

Lemma bounded_sent buffer ch c c' a (b : MemoryBus Assignment) :
  mb_chans b !! ch = Some c → chanSend c a = Sent c' →
  (∀ c, c ∈ mb_chans b → length (ch_items c) ≤ ch_cap c ∧ ch_cap c = buffer) →
  ∀ x, x ∈ mb_chans (setChan ch c' b) → length (ch_items x) ≤ ch_cap x ∧ ch_cap x = buffer.
Proof.
  intros Hl Hs. unfold chanSend in Hs. destruct (ch_closed c); [done|]. destruct (_ <? _) eqn:El; [|done].
  injection Hs as <-. apply Nat.ltb_lt in El. apply (bounded_setChan buffer ch c); [done|done|].
  intros _. simpl. rewrite length_app. simpl. lia.
Qed.

Lemma bounded_received buffer ch c c' a (b : MemoryBus Assignment) :
  mb_chans b !! ch = Some c → chanRecv c = Received a c' →
  (∀ c, c ∈ mb_chans b → length (ch_items c) ≤ ch_cap c ∧ ch_cap c = buffer) →
  ∀ x, x ∈ mb_chans (setChan ch c' b) → length (ch_items x) ≤ ch_cap x ∧ ch_cap x = buffer.
Proof.
  intros Hl Hr. unfold chanRecv in Hr. destruct (ch_items c) as [|y rest] eqn:Ei; [by destruct (ch_closed c)|].
  injection Hr as _ <-. apply (bounded_setChan buffer ch c); [done|done|]. rewrite Ei. simpl. lia.
Qed.

Lemma perm_insert (x : Assignment) l1 l2 l3 l4 : l1 ≡ₚ l2 ++ l3 ++ l4 → l1 ++ [x] ≡ₚ l2 ++ l3 ++ x :: l4.
Proof. intros ->. rewrite <- Permutation_cons_append, <- !Permutation_middle. done. Qed.

Lemma perm_done (x : Assignment) l2 l3 l4 : (l2 ++ [x]) ++ l3 ++ l4 ≡ₚ l2 ++ l3 ++ x :: l4.
Proof. rewrite <- (assoc_L (++)). simpl. apply Permutation_app_head, Permutation_middle. Qed.

Lemma perm_lost (x : Assignment) l2 l3 l4 : l2 ++ (l3 ++ [x]) ++ l4 ≡ₚ l2 ++ l3 ++ x :: l4.
Proof. by rewrite <- (assoc_L (++)). Qed.

(** Every step accounts for every assignment. *)
Lemma dispatchStep_conserved s s' : dispatchStep s s' →
  ds_accepted s ≡ₚ ds_done s ++ ds_lost s ++ inFlight s → ds_accepted s' ≡ₚ ds_done s' ++ ds_lost s' ++ inFlight s'.
Proof.
  unfold inFlight. intros Hs Hc.
  destruct Hs as [region a ch b Hq|ch a c c' ths Hb Hl Hch|ch a ths Hb|region ch b Hq|region ch c a c' ths Hb Hl Hch
    |region ch c ths Hb _ _|region ch ths Hb _|region ch a ths Hb|region ch a ths Hb|region a ths Hb _
    |region a ch b ths Hq Hb|region a e b ths _ Hb|ch a c c' ths Hb Hl Hch| |];
    try (apply becomes_held in Hb; simpl in Hb; rewrite ?app_nil_r in Hb); simpl.
  - rewrite bind_app, (queued_dispatchQueue _ _ _ _ Hq). simpl. by rewrite !app_nil_r.
  - rewrite (queued_sent _ _ _ _ _ Hl Hch), Hb. by apply perm_insert.
  - by rewrite Hb.
  - rewrite bind_app, (queued_dispatchQueue _ _ _ _ Hq). simpl. by rewrite !app_nil_r.
  - rewrite Hb, Hc, (queued_received _ _ _ _ _ Hl Hch). by rewrite <- Permutation_middle.
  - by rewrite Hb.
  - by rewrite Hb.
  - rewrite perm_done, Hc, <- Hb. by rewrite <- Permutation_middle.
  - rewrite Hc. apply Permutation_app_head, Permutation_app_head, Permutation_app_head. by eapply Permutation_cons_inv.
  - rewrite perm_lost, Hc, <- Hb. by rewrite <- Permutation_middle.
  - rewrite (queued_dispatchQueue _ _ _ _ Hq), Hc. do 3 apply Permutation_app_head. symmetry. by eapply Permutation_cons_inv.
  - rewrite perm_lost, Hc, <- Hb. by rewrite <- Permutation_middle.
  - rewrite (queued_sent _ _ _ _ _ Hl Hch), Hc, <- Hb. by rewrite <- Permutation_middle.
  - done.
  - by rewrite queued_Close.
Qed.

Lemma dispatchQueue_open region ch b b' : dispatchQueue region b = (Ok ch, b') →
  mb_closed b = false ∧ channelOf region b = (ch, b').
Proof. unfold dispatchQueue. destruct (mb_closed b); [done|]. destruct (channelOf region b). by intros [= -> ->]. Qed.

Lemma dispatchStep_ok buffer s s' : dispatch_ok buffer s → dispatchStep s s' → dispatch_ok buffer s'.
Proof.
  intros [Hc Hk Hb Hbd] Hs. pose proof (dispatchStep_conserved s s' Hs Hc) as Hc'.
  assert ((ds_cancelled s' = false → mb_closed (ds_bus s') = false → ds_lost s' = []) ∧
    mb_buffer (ds_bus s') = buffer ∧
    ∀ c, c ∈ mb_chans (ds_bus s') → length (ch_items c) ≤ ch_cap c ∧ ch_cap c = buffer) as (H1 & H2 & H3);
    [|by split].
  destruct Hs as [region a ch b [Ho Hq]%dispatchQueue_open|ch a c c' ths _ Hl Hch|ch a ths _
    |region ch b [Ho Hq]%dispatchQueue_open|region ch c a c' ths _ Hl Hch
    |region ch c ths _ _ _|region ch ths _ _|region ch a ths _|region ch a ths _|region a ths _ Hcan
    |region a ch b ths [Ho Hq]%dispatchQueue_open _|region a e b ths Hq _|ch a c c' ths _ Hl Hch| |]; simpl; try done.
  - destruct (bounded_channelOf buffer _ _ _ _ Hq Hb Hbd) as (B1 & B2 & B3). rewrite B2. done.
  - split_and!; [done|done|]. by eapply bounded_sent.
  - destruct (bounded_channelOf buffer _ _ _ _ Hq Hb Hbd) as (B1 & B2 & B3). rewrite B2. done.
  - split_and!; [done|done|]. by eapply bounded_received.
  - split_and!; [congruence|done|done].
  - destruct (bounded_channelOf buffer _ _ _ _ Hq Hb Hbd) as (B1 & B2 & B3). rewrite B2. done.
  - unfold dispatchQueue in Hq. destruct (mb_closed (ds_bus s)) eqn:Eo; [by split_and!|]. by destruct (channelOf _ _).
  - split_and!; [done|done|]. by eapply bounded_sent.
  - unfold CloseDispatch. destruct (mb_closed (ds_bus s)) eqn:Eo; [by rewrite Eo|]. simpl. split_and!; [done|done|].
    intros c Hin. unfold closeNamed in Hin. apply elem_of_lookup_imap in Hin as (i & y & -> & Hy).
    destruct (Hbd y) as [? ?]; [by eapply list_elem_of_lookup_2|]. by destruct (existsb _ _).
Qed.

(** C25: no accepted assignment gets lost on the bus.  In every state that
    publishers, consumers and requeueing goroutines can reach from an empty
    dispatch bus, in any order of their steps, the assignments accepted so far
    are, one by one, those handled without an error, those in a channel, those
    being handled and those waiting to be sent again; none is given up unless
    the bus was closed or the consumers' context cancelled.  No channel ever
    holds more than the buffer size. *)
Theorem dispatch_bus_conserves (buffer : Z) (s : DispatchState) :
  rtc dispatchStep (dispatchInit buffer) s →
  ds_accepted s ≡ₚ ds_done s ++ ds_lost s ++ inFlight s ∧
  (ds_cancelled s = false → mb_closed (ds_bus s) = false → ds_lost s = []) ∧
  ∀ c, c ∈ mb_chans (ds_bus s) →
    (Z.of_nat (length (ch_items c)) ≤ if (buffer <=? 0)%Z then 256 else buffer)%Z.
Proof.
  intros Hr. set (n := if (buffer <=? 0)%Z then 256 else Z.to_nat buffer).
  assert (dispatch_ok n s) as [H1 H2 _ H4].
  { assert (dispatch_ok n (dispatchInit buffer)) as H0.
    { split; [done|done|done|]. by intros c ?%elem_of_nil. }
    induction Hr as [|s1 s2 s3 Hstep _ IH]; [done|]. apply IH. by eapply dispatchStep_ok. }
  split_and!; [done|done|]. intros c Hc. apply H4 in Hc as [Hc1 Hc2]. unfold n in *.
  destruct (Z.leb_spec buffer 0); lia.
Qed.

Definition demo_assignment : Assignment := mkAssignment "a1" "j1" "v1" "d1" "k1" "index.mjs" None [] "{}" "none" 30 128.

(** An assignment that is published, received and refused. *)
Definition demo_refused : DispatchState :=
  mkDispatchState (mkMemoryBus 1 [mkChan [] 1 false] {["eu" := 0]} false)
    [Consuming "eu" 0; Sleeping "eu" demo_assignment] false [demo_assignment] [] [].

Lemma dispatch_bus_conserves_witness :
  rtc dispatchStep (dispatchInit 1) demo_refused ∧ ds_lost demo_refused = [] ∧ inFlight demo_refused = [demo_assignment].
Proof.
  assert (rtc dispatchStep (dispatchInit 1) demo_refused) as Hr.
  { eapply rtc_l; [apply (step_publish _ "eu" demo_assignment); reflexivity|].
    eapply rtc_l; [eapply step_publish_send; [exists [], []; split; reflexivity|reflexivity|reflexivity]|].
    eapply rtc_l; [apply (step_consume _ "eu"); reflexivity|].
    eapply rtc_l; [eapply step_receive; [exists [], []; split; reflexivity|reflexivity|reflexivity]|].
    eapply rtc_l; [eapply step_refused; exists [], []; split; reflexivity|]. apply rtc_refl. }
  split; [exact Hr|]. destruct (dispatch_bus_conserves 1 demo_refused Hr) as (_ & Hl & _).
  split; [apply Hl; reflexivity|reflexivity].
Defined.
