(* ===== verification/BuildQueue.v ===== *)
(** * BuildQueue: the consumer of build jobs

    The build bus of [Buses] with the build service as its handler, as
    [RunBuildConsumer] connects them. *)

From Stdlib Require Import Ascii.
From stdpp Require Import base decidable tactics numbers list gmap strings.
From S2P Require Import Prelude Domain MemStore World Jobs Artifacts Files Archive BuildTools NextSite Workspace Secrets.
From S2P Require Import Build BuildFacts Buses.

(** [RunBuildConsumer] with a memory bus. *)
Definition RunBuildConsumer `{!GoEnv, !BuildEnv} (cfg : BuildConfig) (fuel : nat) (c : Chan string) (w : World) :
    ConsumeEnd * Chan string * World :=
  ConsumeBuild fuel (ProcessBuildJob cfg) c w.

(** A job that can be built, and its version. *)
Definition buildable (w : World) (jv : string * string) : Prop :=
  ∃ job version,
    st_buildJobs (w_store w) !! jv.1 = Some job ∧ bj_ID job = jv.1 ∧ bj_LogsKey job = BuildLogsKey jv.1 ∧
    bj_State job ≠ "succeeded" ∧ bj_FunctionVersionID job = jv.2 ∧
    st_functions (w_store w) !! jv.2 = Some version ∧ fv_ID version = jv.2.

Definition built (w : World) (jv : string * string) : Prop :=
  ∃ job version,
    st_buildJobs (w_store w) !! jv.1 = Some job ∧ bj_State job = "succeeded" ∧
    st_functions (w_store w) !! jv.2 = Some version ∧ fv_State version = FunctionStateReady.

(** The records of a job and its version. *)
Definition untouched (w w' : World) (jv : string * string) : Prop :=
  st_buildJobs (w_store w') !! jv.1 = st_buildJobs (w_store w) !! jv.1 ∧
  st_functions (w_store w') !! jv.2 = st_functions (w_store w) !! jv.2.

Lemma untouched_trans w1 w2 w3 jv : untouched w1 w2 jv → untouched w2 w3 jv → untouched w1 w3 jv.
Proof. intros [H1 H2] [H3 H4]. by split; etrans. Qed.

Lemma buildable_untouched w w' jv : untouched w w' jv → buildable w jv → buildable w' jv.
Proof. intros [H1 H2]. unfold buildable. by rewrite H1, H2. Qed.

Lemma built_untouched w w' jv : untouched w w' jv → built w jv → built w' jv.
Proof. intros [H1 H2]. unfold built. by rewrite H1, H2. Qed.

Section Queue.
Context {E : GoEnv} {BE : BuildEnv} (Hq : quiet E) (cfg : BuildConfig) `{!BuildCollaborators cfg}.

(** One job. *)
Lemma run_build jv w : buildable w jv →
  let '(r, w') := ProcessBuildJob cfg jv.1 w in
  (∀ x, x.1 ≠ jv.1 → x.2 ≠ jv.2 → untouched w w' x) ∧
  match r with Ok _ => built w' jv | Err e => unpublished jv.2 jv.1 e w' end.
Proof.
  intros (job & version & H1 & H2 & H3 & H4 & H5 & H6 & H7).
  pose proof (wp_ProcessBuildJob Hq cfg jv.2 jv.1 w job version H1 H2 H3 H5 H6 H7 H4) as H. unfold wp in H.
  destruct (ProcessBuildJob cfg jv.1 w) as [r w']. destruct H as [[O1 O2] Ho]. split.
  - intros x N1 N2. split; [by apply O2|by apply O1].
  - destruct r; [|done]. destruct Ho as (v & j & ? & ? & ? & ? & A1 & A2 & A3 & A4 & _). by exists j, v.
Qed.

Definition consumed (jobs : list (string * string)) (c : Chan string) (w : World)
    (out : ConsumeEnd * Chan string * World) : Prop :=
  let '(r, c', w') := out in
  match r with
  | Waits => ch_closed c = false ∧ ch_items c' = [] ∧ Forall (built w') jobs
  | Returns (Ok _) => ch_closed c = true ∧ ch_items c' = [] ∧ Forall (built w') jobs
  | Returns (Err e) => ∃ before jv after, jobs = before ++ jv :: after ∧ ch_items c' = after.*1 ∧
      Forall (built w') before ∧ unpublished jv.2 jv.1 e w' ∧ Forall (untouched w w') after
  end.

Lemma run_consume jobs fuel c w :
  ch_items c = jobs.*1 → length jobs < fuel → NoDup jobs.*1 → NoDup jobs.*2 → Forall (buildable w) jobs →
  consumed jobs c w (RunBuildConsumer cfg fuel c w) ∧
  ∀ x, x.1 ∉ jobs.*1 → x.2 ∉ jobs.*2 → untouched w (RunBuildConsumer cfg fuel c w).2 x.
Proof.
  unfold RunBuildConsumer.
  revert fuel c w. induction jobs as [|jv jobs IH]; intros fuel c w Hi Hf N1 N2 Hb;
    (destruct fuel as [|fuel]; [simpl in Hf; lia|]); cbn [ConsumeBuild]; unfold chanRecv; rewrite Hi; cbn [fmap list_fmap].
  { destruct (ch_closed c) eqn:Ec; simpl; by rewrite ?Ec. }
  apply NoDup_cons in N1 as [J1 N1], N2 as [J2 N2]. apply Forall_cons in Hb as [Hb1 Hb].
  pose proof (run_build jv w Hb1) as H. destruct (ProcessBuildJob cfg jv.1 w) as [[[]|e] w1]; destruct H as [Hu Ho].
  - assert (Forall (untouched w w1) jobs) as Hj.
    { apply Forall_forall. intros x Hx. apply Hu; intros Ex; [apply J1|apply J2]; rewrite <- Ex; by apply list_elem_of_fmap_2. }
    set (c1 := mkChan jobs.*1 (ch_cap c) (ch_closed c)).
    destruct (IH fuel c1 w1) as [Hc Hx]; [done|simpl in Hf; lia|done|done| |].
    { rewrite !Forall_forall in *. intros x Hin. eapply buildable_untouched; [by apply Hj|by apply Hb]. }
    destruct (ConsumeBuild fuel (ProcessBuildJob cfg) c1 w1) as [[r c'] w']. cbn [snd] in *.
    assert (built w' jv) as Hjv by (eapply built_untouched; [by apply Hx|done]). split.
    + unfold consumed in *. destruct r as [|[]].
      { destruct Hc as (H1 & H2 & H3). split_and!; [done|done|by constructor]. }
      { destruct Hc as (H1 & H2 & H3). split_and!; [done|done|by constructor]. }
      destruct Hc as (before & bad & after & -> & H1 & H2 & H3 & H4). exists (jv :: before), bad, after.
      split_and!; [done|done|by constructor|done|]. apply Forall_app in Hj as [_ [_ Hj]%Forall_cons].
      rewrite !Forall_forall in *. intros x Hin. eapply untouched_trans; [by apply Hj|by apply H4].
    + intros x X1 X2. apply not_elem_of_cons in X1 as [? ?], X2 as [? ?]. eapply untouched_trans; [by apply Hu|by apply Hx].
  - split.
    + exists [], jv, jobs. split_and!; [done|done|done|done|]. apply Forall_forall. intros x Hx.
      apply Hu; intros Ex; [apply J1|apply J2]; rewrite <- Ex; by apply list_elem_of_fmap_2.
    + intros x X1 X2. apply not_elem_of_cons in X1 as [? ?], X2 as [? ?]. by apply Hu.
Qed.

End Queue.

(** C24: what becomes of the queued builds.  When no store call fails and the
    queued jobs are different jobs of different versions, the consumer gets to
    all of them in turn: either every build succeeds, and the consumer waits for
    more (or returns, when the bus is closed), or it returns with the error of
    the first build that fails; the builds before that one have succeeded, that
    one is failed, and all later ones are left in the queue, their jobs and
    versions as they were, with no consumer. *)
Theorem build_consumer_spec (E : GoEnv) (BE : BuildEnv) (cfg : BuildConfig) (jobs : list (string * string))
    (c : Chan string) (w : World) :
  quiet E → BuildCollaborators cfg →
  ch_items c = jobs.*1 → NoDup jobs.*1 → NoDup jobs.*2 → Forall (buildable w) jobs →
  let '(r, c', w') := RunBuildConsumer cfg (S (length jobs)) c w in
  match r with
  | Waits => ch_closed c = false ∧ ch_items c' = [] ∧ Forall (built w') jobs
  | Returns (Ok _) => ch_closed c = true ∧ ch_items c' = [] ∧ Forall (built w') jobs
  | Returns (Err e) => ∃ before jv after, jobs = before ++ jv :: after ∧ ch_items c' = after.*1 ∧
      Forall (built w') before ∧ unpublished jv.2 jv.1 e w' ∧ Forall (untouched w w') after
  end.
Proof.
  intros Hq Hc Hi N1 N2 Hb.
  destruct (run_consume Hq cfg jobs (S (length jobs)) c w Hi ltac:(lia) N1 N2 Hb) as [H _]. exact H.
Qed.

(** A queue of two builds, the first of a version whose request is refused. *)
Definition demo_queue_world : World :=
  demo_build_world <| w_store := (w_store demo_build_world)
    <| st_buildJobs := <["b2" := mkBuildJob "b2" "v2" "ap-south-1" ∅ "queued" "" (BuildLogsKey "b2") "request" 1 1]>
         (st_buildJobs (w_store demo_build_world)) |>
    <| st_functions := <["v2" := mkFunctionVersion "v2" "p1" "hello" "node22" "index.mjs" 128 30 "full"
         ["ap-south-1"] ∅ [] 1 "b2" SourceTypeBundle "" FunctionStateBuilding 1]>
         (st_functions (w_store demo_build_world)) |> |>.

Definition failing_env : BuildEnv := {|
  build_archives := demo_archives [];
  build_tools := demo_tools;
  format_RFC3339 t := itoa t;
  json_MarshalDeploy _ := Ok "request";
  json_MarshalDeployHash r := Ok (dr_Name r);
  json_UnmarshalDeploy _ := Err (plainErr "unexpected end of JSON input");
  json_MarshalManifest _ e := Ok ("manifest " +:+ e);
  json_MarshalStartup e _ _ := Ok ("startup " +:+ e);
  json_MarshalSite _ := Ok "site";
  base64_Decode s := Ok s;
  rand_Token n := Ok ("token-" +:+ itoa (Z.of_nat n));
|}.

Lemma build_consumer_spec_witness :
  let '(r, c', w') := @RunBuildConsumer demo_env failing_env demo_build_cfg 3 (mkChan ["b1"; "b2"] 64 false)
    demo_queue_world in
  ch_items c' = ["b2"] ∧ untouched demo_queue_world w' ("b2", "v2").
Proof.
  pose proof (build_consumer_spec demo_env failing_env demo_build_cfg [("b1", "v1"); ("b2", "v2")]
    (mkChan ["b1"; "b2"] 64 false) demo_queue_world demo_quiet) as H.
  assert (match (@RunBuildConsumer demo_env failing_env demo_build_cfg 3 (mkChan ["b1"; "b2"] 64 false)
    demo_queue_world).1 with (Returns (Err _), c) => ch_items c = ["b2"] | _ => False end) as Hr
    by (vm_compute; reflexivity).
  change (S (length [("b1", "v1"); ("b2", "v2")])) with 3 in H.
  destruct (RunBuildConsumer _ _ _ _) as [[r c'] w']. cbn [fst] in Hr. destruct r as [|[[]|e]]; [done|done|].
  split; [exact Hr|]. destruct H as (before & jv & after & E & Ec & _ & _ & Hu).
  - apply replicator_collaborators. reflexivity.
  - reflexivity.
  - apply (bool_decide_eq_true_1 _). reflexivity.
  - apply (bool_decide_eq_true_1 _). reflexivity.
  - apply Forall_cons. split; [|apply Forall_singleton]; do 2 eexists;
      (split; [reflexivity|]; split; [reflexivity|]; split; [reflexivity|]; split; [discriminate|];
       split; [reflexivity|]; split; reflexivity).
  - rewrite Hr in Ec. destruct before as [|x before]; [|destruct before as [|y before]; [|]].
    + injection E as <- <-. rewrite Forall_singleton in Hu. exact Hu.
    + injection E as <- <- <-. discriminate.
    + apply (f_equal length) in E. rewrite length_cons, length_cons in E. simpl in E. rewrite length_app in E. simpl in E. lia.
Defined.
