(* ===== verification/NetworkPool.v ===== *)
(** * NetworkPool: tap devices for full-network execution

    Models [internal/firecracker/microvm/network_pool.go]: the pool of tap
    devices of a host ([networkPool], [networkLease]) and the plan of its
    subnets ([buildTapPoolConfigs]) on 32-bit words.  [netip.ParsePrefix] is
    written out for IPv4; every other text is refused, as the source refuses it
    (by a parse error or because the address is not IPv4).

    A pool method runs under the pool's mutex, so it is one function of the
    pool.  The polling loops of [acquire] and [acquireSpecific] take the list of
    what the other holders do while the caller sleeps; when it ends the
    caller's context has expired. *)

From Stdlib Require Import Ascii.
From stdpp Require Import base decidable tactics numbers list gmap strings pretty relations.
From S2P Require Import Prelude.

Record networkConfig := mkNetworkConfig {
  nc_TapDevice : string;
  nc_GuestMAC : string;
  nc_GuestIP : string;
  nc_GatewayIP : string;
  nc_Netmask : string;
}.

Definition zeroNetworkConfig : networkConfig := mkNetworkConfig "" "" "" "" "".

Record networkPool := mkNetworkPool {
  np_order : list string;
  np_cfgs : gmap string networkConfig;
  np_inUse : gmap string bool;
  np_next : nat;
}.

#[export] Instance networkPool_rebuild : Rebuild networkPool := λ r,
  mkNetworkPool (np_order r) (np_cfgs r) (np_inUse r) (np_next r).

(** A lease; [nl_done] is the state of its [sync.Once]. *)
Record networkLease := mkNetworkLease { nl_cfg : networkConfig; nl_done : bool }.

(** ** Construction *)

Fixpoint addConfigs (pool : networkPool) (configs : list networkConfig) : result networkPool :=
  match configs with
  | [] => Ok pool
  | cfg :: rest =>
      if blank (nc_TapDevice cfg) then Err (plainErr "network pool entry missing tap device")
      else if blank (nc_GuestIP cfg) || blank (nc_GatewayIP cfg) || blank (nc_Netmask cfg) then
        Err (plainErr ("network pool entry " +:+ nc_TapDevice cfg +:+ " missing guest network tuple"))
      else
        let tapDevice := TrimSpace (nc_TapDevice cfg) in
        addConfigs (mkNetworkPool (np_order pool ++ [tapDevice])
                      (<[tapDevice := cfg]> (np_cfgs pool))
                      (<[tapDevice := false]> (np_inUse pool)) (np_next pool)) rest
  end.

(** [None] is the nil pool. *)
Definition newNetworkPool (configs : list networkConfig) : result (option networkPool) :=
  match configs with
  | [] => Ok None
  | _ => match addConfigs (mkNetworkPool [] ∅ ∅ 0) configs with
         | Ok pool => Ok (Some pool)
         | Err e => Err e
         end
  end.

(** ** Acquiring and releasing *)

Definition used (pool : networkPool) (tapDevice : string) : bool :=
  default false (np_inUse pool !! tapDevice).

Definition take (pool : networkPool) (tapDevice : string) : networkPool :=
  pool <| np_inUse := <[tapDevice := true]> (np_inUse pool) |>.

(** The loop over the offsets of [acquireNextLocked]. *)
Fixpoint scanFrom (pool : networkPool) (offsets : list nat) : option networkConfig * networkPool :=
  match offsets with
  | [] => (None, pool)
  | offset :: rest =>
      let index := ((np_next pool + offset) mod length (np_order pool))%nat in
      let tapDevice := nth index (np_order pool) "" in
      if used pool tapDevice then scanFrom pool rest
      else (Some (default zeroNetworkConfig (np_cfgs pool !! tapDevice)),
            (take pool tapDevice) <| np_next := ((index + 1) mod length (np_order pool))%nat |>)
  end.

Definition acquireNextLocked (pool : networkPool) : option networkConfig * networkPool :=
  scanFrom pool (seq 0 (length (np_order pool))).

Definition noPool : GoError := plainErr "full-network execution requires a configured tap pool".

(** [others]: what happens to the pool during each sleep. *)
Fixpoint acquire (others : list (networkPool → networkPool)) (pool : networkPool) :
    result networkLease * networkPool :=
  match acquireNextLocked pool with
  | (Some cfg, pool') => (Ok (mkNetworkLease cfg false), pool')
  | (None, pool') =>
      match others with
      | [] => (Err (sentinel ContextDeadlineExceeded), pool')
      | f :: rest => acquire rest (f pool')
      end
  end.

Fixpoint acquireSpecificLoop (others : list (networkPool → networkPool)) (tapDevice : string)
    (pool : networkPool) : result networkLease * networkPool :=
  match np_cfgs pool !! tapDevice with
  | None => (Err (plainErr ("unknown tap device " +:+ tapDevice)), pool)
  | Some cfg =>
      if used pool tapDevice then
        match others with
        | [] => (Err (sentinel ContextDeadlineExceeded), pool)
        | f :: rest => acquireSpecificLoop rest tapDevice (f pool)
        end
      else (Ok (mkNetworkLease cfg false), take pool tapDevice)
  end.

Definition acquireSpecific (others : list (networkPool → networkPool)) (tapDevice : string)
    (pool : networkPool) : result networkLease * networkPool :=
  let tapDevice := TrimSpace tapDevice in
  if bool_decide (tapDevice = "") then (Err (plainErr "tap device is required"), pool)
  else acquireSpecificLoop others tapDevice pool.

Definition release (tapDevice : string) (pool : networkPool) : networkPool :=
  if bool_decide (tapDevice = "") then pool else
  match np_inUse pool !! tapDevice with
  | Some _ => pool <| np_inUse := <[tapDevice := false]> (np_inUse pool) |>
  | None => pool
  end.

(** [networkLease.Release]: only the first call has an effect. *)
Definition Release (l : networkLease) (pool : networkPool) : networkLease * networkPool :=
  if nl_done l then (l, pool)
  else (mkNetworkLease (nl_cfg l) true, release (TrimSpace (nc_TapDevice (nl_cfg l))) pool).

(** ** The address plan *)

Definition dot : ascii := ascii_of_N 46.
Definition slashByte : ascii := ascii_of_N 47.

Definition byteOf (v : Z) (shift : Z) : Z := (Z.shiftr v shift mod 256)%Z.

(** [uint32ToIPv4(value).String()] *)
Definition ipString (v : Z) : string :=
  itoa (byteOf v 24) +:+ String dot (itoa (byteOf v 16) +:+ String dot
    (itoa (byteOf v 8) +:+ String dot (itoa (byteOf v 0)))).

Definition prefixLengthToMask (bits : Z) : string :=
  ipString (if (0 <? bits)%Z then uint32_of (Z.shiftl (2 ^ 32 - 1) (32 - bits)) else 0%Z).

(** [%02x] *)
Definition hex2 (v : Z) : string :=
  String (hex_digit (Z.to_N (v / 16))) (String (hex_digit (Z.to_N (v mod 16))) "").

Definition guestMACForIP (v : Z) : string :=
  "06:00:" +:+ hex2 (byteOf v 24) +:+ ":" +:+ hex2 (byteOf v 16) +:+ ":" +:+
  hex2 (byteOf v 8) +:+ ":" +:+ hex2 (byteOf v 0).

Definition digit (a : ascii) : option Z :=
  let n := N_of_ascii a in
  if (48 <=? n)%N && (n <=? 57)%N then Some (Z.of_N n - 48)%Z else None.

Fixpoint digits (acc : Z) (s : string) : option Z :=
  match s with
  | EmptyString => Some acc
  | String a s' => match digit a with Some d => digits (acc * 10 + d)%Z s' | None => None end
  end.

(** A decimal number without leading zeros, at most [max]. *)
Definition parseField (max : Z) (s : string) : option Z :=
  match s with
  | EmptyString => None
  | String a EmptyString => digits 0 s
  | String a _ =>
      if Ascii.eqb a (ascii_of_N 48) then None
      else match digits 0 s with
           | Some n => if (n <=? max)%Z then Some n else None
           | None => None
           end
  end.

(** [netip.ParseAddr] on dotted decimal text, as [ipv4ToUint32] sees it. *)
Definition parseIPv4 (s : string) : option Z :=
  match Split s dot with
  | [a; b; c; d] =>
      match parseField 255 a, parseField 255 b, parseField 255 c, parseField 255 d with
      | Some w, Some x, Some y, Some z =>
          Some (w * 2 ^ 24 + x * 2 ^ 16 + y * 2 ^ 8 + z)%Z
      | _, _, _, _ => None
      end
  | _ => None
  end.

(** [netip.ParsePrefix] for IPv4: an address and a number of bits. *)
Definition parseIPv4Prefix (s : string) : option (Z * Z) :=
  match Split s slashByte with
  | [addr; bits] =>
      match parseIPv4 addr, parseField 32 bits with
      | Some v, Some b => Some (v, b)
      | _, _ => None
      end
  | _ => None
  end.

(** [1 << n] on 32 bits. *)
Definition shl1 (n : Z) : Z := uint32_of (Z.shiftl 1 n).

(** [Prefix.Masked] *)
Definition masked (v bits : Z) : Z := (v / 2 ^ (32 - bits) * 2 ^ (32 - bits))%Z.

Definition subnetBase (base blockSize : Z) (i : nat) : Z :=
  uint32_of (base + uint32_of (Z.of_nat i * blockSize)).

Definition tapConfig (devicePrefix netmask : string) (base blockSize : Z) (i : nat) : networkConfig :=
  let sb := subnetBase base blockSize i in
  let guest := uint32_of (sb + 2) in
  mkNetworkConfig (devicePrefix +:+ pretty i) (guestMACForIP guest) (ipString guest)
    (ipString (uint32_of (sb + 1))) netmask.

Definition buildTapPoolConfigs (devicePrefix : string) (count : Z) (networkCIDR : string)
    (subnetPrefix : Z) : result (list networkConfig) :=
  if (count <=? 0)%Z then Ok [] else
  let devicePrefix := if blank devicePrefix then "tap" else devicePrefix in
  let subnetPrefix := if (subnetPrefix <=? 0)%Z then 30%Z else subnetPrefix in
  match parseIPv4Prefix (TrimSpace networkCIDR) with
  | None => Err (plainErr ("parse tap network cidr " +:+ quote networkCIDR))
  | Some (addr, bits) =>
      if (subnetPrefix <? bits)%Z || (30 <? subnetPrefix)%Z then
        Err (plainErr ("tap subnet prefix must be between " +:+ itoa bits +:+ " and 30"))
      else
        let blockSize := shl1 (32 - subnetPrefix) in
        let base := masked addr bits in
        let networkSize := shl1 (32 - bits) in
        let required := uint32_of (uint32_of count * blockSize) in
        if (networkSize <? required)%Z then
          Err (plainErr ("tap network cidr " +:+ ipString base +:+ "/" +:+ itoa bits +:+
            " does not have capacity for " +:+ itoa count +:+ " /" +:+ itoa subnetPrefix +:+ " subnets"))
        else Ok (tapConfig devicePrefix (prefixLengthToMask subnetPrefix) base blockSize
                   <$> seq 0 (Z.to_nat count))
  end.

(** The fields of [Config] that choose the pool. *)
Record TapConfig := mkTapConfig {
  tc_TapDevice : string; tc_GuestMAC : string; tc_GuestIP : string; tc_GatewayIP : string;
  tc_Netmask : string; tc_TapDevicePrefix : string; tc_TapCount : Z; tc_TapNetworkCIDR : string;
  tc_TapSubnetPrefix : Z;
}.

Definition networkConfigs (c : TapConfig) : result (list networkConfig) :=
  if (0 <? tc_TapCount c)%Z then
    buildTapPoolConfigs (tc_TapDevicePrefix c) (tc_TapCount c) (tc_TapNetworkCIDR c)
      (tc_TapSubnetPrefix c)
  else if blank (tc_TapDevice c) then Ok []
  else Ok [mkNetworkConfig (TrimSpace (tc_TapDevice c)) (TrimSpace (tc_GuestMAC c))
             (TrimSpace (tc_GuestIP c)) (TrimSpace (tc_GatewayIP c)) (TrimSpace (tc_Netmask c))].

Definition buildNetworkPool (c : TapConfig) : result (option networkPool) :=
  match networkConfigs c with
  | Ok configs => newNetworkPool configs
  | Err e => Err e
  end.

Definition isFullNetworkPolicy (policy : string) : bool := EqualFoldASCII (TrimSpace policy) "full".

(** ** The pool and its leases as a transition system *)

Definition leaseTap (l : networkLease) : string := TrimSpace (nc_TapDevice (nl_cfg l)).
Definition live (ls : list networkLease) : list string :=
  leaseTap <$> filter (λ l, nl_done l = false) ls.

Inductive pool_step : networkPool * list networkLease → networkPool * list networkLease → Prop :=
| step_acquire p ls cfg p' :
    acquireNextLocked p = (Some cfg, p') → pool_step (p, ls) (p', mkNetworkLease cfg false :: ls)
| step_acquireSpecific p ls tap l p' :
    acquireSpecific [] tap p = (Ok l, p') → pool_step (p, ls) (p', l :: ls)
| step_Release p before l after l' p' :
    Release l p = (l', p') → pool_step (p, before ++ l :: after) (p', before ++ l' :: after).

Record pool_inv (p : networkPool) (ls : list networkLease) : Prop := {
  pi_cfgs : ∀ t cfg, np_cfgs p !! t = Some cfg → TrimSpace (nc_TapDevice cfg) = t ∧ t ≠ "";
  pi_order : ∀ t, t ∈ np_order p ↔ is_Some (np_cfgs p !! t);
  pi_inUse : ∀ t, is_Some (np_inUse p !! t) ↔ is_Some (np_cfgs p !! t);
  pi_nodup : NoDup (live ls);
  pi_live : ∀ t, used p t = true ↔ t ∈ live ls;
}.

Lemma addConfigs_inv configs p p' :
  pool_inv p [] → addConfigs p configs = Ok p' → pool_inv p' [].
Proof.
  revert p. induction configs as [|cfg rest IH]; intros p Hp; simpl; [by intros [= <-]|].
  destruct (blank (nc_TapDevice cfg)) eqn:Eb; [done|]. case_match; [done|].
  apply IH. destruct Hp as [H1 H2 H3 H4 H5]. split; simpl.
  - intros t c. rewrite lookup_insert_Some. intros [[<- <-]|[_ Hc]]; [|by apply H1].
    split; [done|]. by apply bool_decide_eq_false in Eb.
  - intros t. rewrite elem_of_app, list_elem_of_singleton, H2, lookup_insert_is_Some'. naive_solver.
  - intros t. rewrite !lookup_insert_is_Some', H3. done.
  - done.
  - intros t. rewrite <- H5. unfold used. simpl.
    destruct (decide (t = TrimSpace (nc_TapDevice cfg))) as [->|Hne].
    + rewrite lookup_insert_eq. simpl. split; [done|]. intros Hu.
      apply H5 in Hu. by apply not_elem_of_nil in Hu.
    + by rewrite lookup_insert_ne.
Qed.

Lemma newNetworkPool_inv configs p : newNetworkPool configs = Ok (Some p) → pool_inv p [].
Proof.
  unfold newNetworkPool. destruct configs as [|cfg rest]; [done|].
  destruct (addConfigs _ _) as [p'|e] eqn:Ea; [|done]. intros [= ->].
  eapply addConfigs_inv; [|exact Ea]. split; simpl.
  - intros t c. by rewrite lookup_empty.
  - intros t. rewrite lookup_empty. split; [by intros ?%not_elem_of_nil|by intros [? ?]].
  - intros t. by rewrite !lookup_empty.
  - constructor.
  - intros t. unfold used. simpl. rewrite lookup_empty. split; [done|by intros ?%not_elem_of_nil].
Qed.

(** Taking a free device for a new lease. *)
Lemma take_inv p ls t cfg :
  pool_inv p ls → np_cfgs p !! t = Some cfg → used p t = false →
  pool_inv (take p t) (mkNetworkLease cfg false :: ls).
Proof.
  intros [H1 H2 H3 H4 H5] Hc Hu. destruct (H1 _ _ Hc) as [Ht _].
  assert (live (mkNetworkLease cfg false :: ls) = t :: live ls) as El.
  { unfold live. rewrite filter_cons_True by done. rewrite fmap_cons. unfold leaseTap at 1. simpl.
    by rewrite Ht. }
  split; simpl; [done|done| | |].
  - intros t'. rewrite lookup_insert_is_Some', H3. split; [|by right].
    intros [<-|?]; [by rewrite Hc; eexists|done].
  - rewrite El. apply NoDup_cons. split; [|done]. rewrite <- H5. by rewrite Hu.
  - intros t'. rewrite El, elem_of_cons, <- H5. unfold used. simpl.
    destruct (decide (t' = t)) as [->|Hne].
    + rewrite lookup_insert_eq. simpl. naive_solver.
    + rewrite lookup_insert_ne by done. naive_solver.
Qed.

Lemma scanFrom_spec p offsets :
  match scanFrom p offsets with
  | (None, p') => p' = p ∧ ∀ o, o ∈ offsets →
      used p (nth ((np_next p + o) mod length (np_order p)) (np_order p) "") = true
  | (Some cfg, p') => ∃ o, o ∈ offsets ∧
      let t := nth ((np_next p + o) mod length (np_order p)) (np_order p) "" in
      used p t = false ∧ cfg = default zeroNetworkConfig (np_cfgs p !! t) ∧
      p' = (take p t) <| np_next := ((((np_next p + o) mod length (np_order p)) + 1)
                                       mod length (np_order p))%nat |>
  end.
Proof.
  induction offsets as [|o rest IH]; simpl.
  - split; [done|]. by intros o ?%not_elem_of_nil.
  - destruct (used p _) eqn:Eu.
    + destruct (scanFrom p rest) as [[cfg|] p'].
      * destruct IH as (o' & Ho & H). exists o'. split; [by right|done].
      * destruct IH as [-> IH]. split; [done|]. intros o' [->|Ho]%elem_of_cons; [done|by apply IH].
    + exists o. split; [left|]. done.
Qed.

Lemma pool_inv_next p ls n : pool_inv p ls → pool_inv (p <| np_next := n |>) ls.
Proof. by intros []. Qed.

(** The offsets [0 .. n-1] from any start visit every index. *)
Lemma offsets_cover (n next i : nat) : (i < n)%nat → ∃ o, (o < n)%nat ∧ ((next + o) mod n = i)%nat.
Proof.
  intros Hi. exists ((i + (n - next mod n)) mod n)%nat. split; [apply Nat.mod_upper_bound; lia|].
  rewrite <- Nat.Div0.add_mod_idemp_l, Nat.Div0.add_mod_idemp_r.
  pose proof (Nat.mod_upper_bound next n ltac:(lia)).
  replace (next mod n + (i + (n - next mod n)))%nat with (i + 1 * n)%nat by lia.
  rewrite Nat.Div0.mod_add. by apply Nat.mod_small.
Qed.

Lemma acquireNextLocked_inv p ls cfg p' :
  pool_inv p ls → acquireNextLocked p = (Some cfg, p') →
  pool_inv p' (mkNetworkLease cfg false :: ls).
Proof.
  intros Hp Ha. unfold acquireNextLocked in Ha.
  pose proof (scanFrom_spec p (seq 0 (length (np_order p)))) as Hs. rewrite Ha in Hs.
  destruct Hs as (o & Ho & Hu & Hc & ->). apply pool_inv_next.
  set (t := nth _ _ _) in *. apply elem_of_seq in Ho.
  assert (t ∈ np_order p) as Ht.
  { apply list_elem_of_In, nth_In, Nat.mod_upper_bound. lia. }
  apply (pi_order p ls Hp) in Ht as [cfg' Hc']. rewrite Hc' in Hc. simpl in Hc. subst cfg'.
  by apply take_inv.
Qed.

Lemma release_inv p before l after :
  pool_inv p (before ++ l :: after) →
  pool_inv (Release l p).2 (before ++ (Release l p).1 :: after).
Proof.
  intros Hp. unfold Release. destruct (nl_done l) eqn:Ed; [done|]. simpl.
  destruct Hp as [H1 H2 H3 H4 H5].
  assert (live (before ++ l :: after) = live before ++ leaseTap l :: live after) as El.
  { unfold live. by rewrite filter_app, filter_cons_True, fmap_app, fmap_cons. }
  assert (live (before ++ mkNetworkLease (nl_cfg l) true :: after) = live before ++ live after) as El'.
  { unfold live. by rewrite filter_app, filter_cons_False, fmap_app by done. }
  rewrite El in H4, H5. fold (leaseTap l). set (t := leaseTap l) in *.
  assert (used p t = true) as Hu by (apply H5; set_solver).
  unfold used in Hu. destruct (np_inUse p !! t) as [b|] eqn:Et; simpl in Hu; [subst b|done].
  assert (is_Some (np_cfgs p !! t)) as Hsc by (apply H3; rewrite Et; by eexists).
  destruct Hsc as [cfg Hc].
  assert (t ≠ "") as Hne by (by apply (H1 t cfg)).
  unfold release. rewrite bool_decide_eq_false_2 by done. rewrite Et.
  assert (NoDup (live before ++ live after) ∧ t ∉ live before ++ live after) as [Hnd Hnin].
  { rewrite <- Permutation_middle in H4. by apply NoDup_cons in H4 as [? ?]. }
  split; simpl; [done|done| |by rewrite El'|].
  - intros t'. rewrite lookup_insert_is_Some', H3. split; [|by right].
    intros [<-|?]; [by rewrite Hc; eexists|done].
  - intros t'. rewrite El'. unfold used. simpl. destruct (decide (t' = t)) as [->|Hne'].
    + rewrite lookup_insert_eq. simpl. split; [done|]. intros. done.
    + rewrite lookup_insert_ne by done. change (default false (np_inUse p !! t')) with (used p t').
      rewrite H5. set_solver.
Qed.

Lemma pool_step_inv p ls p' ls' :
  pool_inv p ls → pool_step (p, ls) (p', ls') → pool_inv p' ls'.
Proof.
  intros Hp Hs. inversion Hs; subst.
  - by eapply acquireNextLocked_inv.
  - unfold acquireSpecific in *. case_bool_decide; [done|]. simpl in *.
    destruct (np_cfgs p !! TrimSpace tap) as [cfg|] eqn:Ec; [|done].
    destruct (used p (TrimSpace tap)) eqn:Eu; [done|].
    match goal with H : (Ok _, _) = _ |- _ => injection H as <- <- end.
    by apply take_inv.
  - match goal with H : Release ?l ?p = (?a, ?b) |- _ =>
      pose proof (release_inv _ _ _ _ Hp) as Hr; rewrite H in Hr; exact Hr end.
Qed.

(** ** Addresses *)

(** Checked for each of the 256 values. *)
Lemma octet_roundtrip_all :
  forallb (λ n, bool_decide (parseField 255 (itoa (Z.of_nat n)) = Some (Z.of_nat n)) &&
                no_byte dot (itoa (Z.of_nat n))) (seq 0 256) = true.
Proof. vm_compute. reflexivity. Qed.

Lemma octet_roundtrip v :
  (0 ≤ v < 256)%Z → parseField 255 (itoa v) = Some v ∧ no_byte dot (itoa v) = true.
Proof.
  intros Hv. pose proof octet_roundtrip_all as H. rewrite forallb_forall in H.
  specialize (H (Z.to_nat v)). rewrite Z2Nat.id in H by lia.
  rewrite in_seq, andb_true_iff, bool_decide_eq_true in H. apply H. lia.
Qed.

Lemma byteOf_range v s : (0 ≤ byteOf v s < 256)%Z.
Proof. apply Z.mod_pos_bound. lia. Qed.

Lemma bytes_sum v :
  (0 ≤ v < 2 ^ 32)%Z →
  (byteOf v 24 * 2 ^ 24 + byteOf v 16 * 2 ^ 16 + byteOf v 8 * 2 ^ 8 + byteOf v 0 = v)%Z.
Proof.
  intros Hv. unfold byteOf. rewrite !Z.shiftr_div_pow2 by lia.
  rewrite Z.pow_0_r, Z.div_1_r.
  change (2 ^ 24)%Z with 16777216%Z. change (2 ^ 16)%Z with 65536%Z. change (2 ^ 8)%Z with 256%Z.
  rewrite (Z.mod_small (v / 16777216)) by (split; [apply Z.div_pos; lia|apply Z.div_lt_upper_bound; lia]).
  assert (v / 65536 = v / 256 / 256)%Z as -> by (by rewrite Z.div_div by lia).
  assert (v / 16777216 = v / 256 / 256 / 256)%Z as -> by (by rewrite !Z.div_div by lia).
  pose proof (Z.div_mod v 256 ltac:(lia)).
  pose proof (Z.div_mod (v / 256) 256 ltac:(lia)).
  pose proof (Z.div_mod (v / 256 / 256) 256 ltac:(lia)). lia.
Qed.

Lemma parse_ipString v : (0 ≤ v < 2 ^ 32)%Z → parseIPv4 (ipString v) = Some v.
Proof.
  intros Hv. unfold parseIPv4, ipString.
  destruct (octet_roundtrip _ (byteOf_range v 24)) as [P1 D1].
  destruct (octet_roundtrip _ (byteOf_range v 16)) as [P2 D2].
  destruct (octet_roundtrip _ (byteOf_range v 8)) as [P3 D3].
  destruct (octet_roundtrip _ (byteOf_range v 0)) as [P4 D4].
  rewrite !Split_app, Split_no_byte by done. rewrite P1, P2, P3, P4. f_equal. by apply bytes_sum.
Qed.

Lemma shl1_pow n : (0 ≤ n < 32)%Z → shl1 n = (2 ^ n)%Z.
Proof.
  intros Hn. unfold shl1, uint32_of. rewrite Z.shiftl_1_l. apply Z.mod_small.
  split; [apply Z.pow_nonneg; lia|]. apply Z.pow_lt_mono_r; lia.
Qed.

Lemma parseField_range max s n : (9 ≤ max)%Z → parseField max s = Some n → (0 ≤ n ≤ max)%Z.
Proof.
  assert (∀ s acc n, (0 ≤ acc)%Z → digits acc s = Some n → (0 ≤ n)%Z) as Hpos.
  { clear. induction s as [|a s IH]; simpl; intros acc n Ha; [intros [= <-]; done|].
    unfold digit. generalize (N_of_ascii a). intros k.
    destruct (N.leb_spec 48 k), (N.leb_spec k 57); simpl; try done. apply IH. lia. }
  intros Hmax. unfold parseField. destruct s as [|a [|b s]]; [done| |].
  - cbn [digits]. unfold digit. generalize (N_of_ascii a). intros k.
    destruct (N.leb_spec 48 k), (N.leb_spec k 57); simpl; try done. intros [= <-]. lia.
  - case_match; [done|]. destruct (digits 0 _) eqn:Ed; [|done].
    case_match eqn:Em; [|done]. intros [= <-]. apply Z.leb_le in Em.
    split; [|done]. eapply Hpos; [|exact Ed]. lia.
Qed.

Lemma parseIPv4_range s v : parseIPv4 s = Some v → (0 ≤ v < 2 ^ 32)%Z.
Proof.
  unfold parseIPv4. destruct (Split s dot) as [|a [|b [|c [|d [|]]]]]; try done.
  destruct (parseField 255 a) eqn:E1; [|done]. destruct (parseField 255 b) eqn:E2; [|done].
  destruct (parseField 255 c) eqn:E3; [|done]. destruct (parseField 255 d) eqn:E4; [|done].
  apply parseField_range in E1, E2, E3, E4; try lia. intros [= <-]. lia.
Qed.

Lemma parseIPv4Prefix_range s v b :
  parseIPv4Prefix s = Some (v, b) → (0 ≤ v < 2 ^ 32)%Z ∧ (0 ≤ b ≤ 32)%Z.
Proof.
  unfold parseIPv4Prefix. destruct (Split s slashByte) as [|a [|c [|]]]; try done.
  destruct (parseIPv4 a) eqn:E1; [|done]. destruct (parseField 32 c) eqn:E2; [|done].
  intros [= <- <-]. apply parseIPv4_range in E1. apply parseField_range in E2; [|lia]. done.
Qed.

(** The network of a prefix fits in 32 bits. *)
Lemma masked_range v b :
  (0 ≤ v < 2 ^ 32)%Z → (0 ≤ b ≤ 32)%Z → (0 ≤ masked v b ∧ masked v b + 2 ^ (32 - b) ≤ 2 ^ 32)%Z.
Proof.
  intros Hv Hb. unfold masked. set (k := (2 ^ (32 - b))%Z).
  assert (0 < k)%Z as Hk by (apply Z.pow_pos_nonneg; lia).
  assert (2 ^ 32 = 2 ^ b * k)%Z as E by (unfold k; rewrite <- Z.pow_add_r by lia; f_equal; lia).
  split; [apply Z.mul_nonneg_nonneg; [apply Z.div_pos|]; lia|].
  assert (v / k < 2 ^ b)%Z by (apply Z.div_lt_upper_bound; lia). nia.
Qed.

(** Without wrap-around the subnets are consecutive blocks of the network. *)
Lemma subnetBase_exact base block n i :
  (0 ≤ base)%Z → (0 < block)%Z → (base + Z.of_nat n * block ≤ 2 ^ 32)%Z → (i < n)%nat →
  subnetBase base block i = (base + Z.of_nat i * block)%Z.
Proof.
  intros Hb Hk Hn Hi. unfold subnetBase, uint32_of.
  assert (0 ≤ Z.of_nat i * block ∧ Z.of_nat i * block + block ≤ Z.of_nat n * block)%Z by nia.
  rewrite (Z.mod_small (Z.of_nat i * block)) by lia. apply Z.mod_small. lia.
Qed.

(** ** Properties *)

(** C32: a tap device is leased to one holder at a time.  From a new pool, after
    any sequence of acquisitions (next free or specific) and releases (repeated
    releases of a lease included), no device is held by two unreleased leases,
    a device is marked in use exactly when such a lease holds it, and
    [acquireNextLocked] fails only when every device of the pool is held. *)
Theorem pool_exclusive configs p0 p ls :
  newNetworkPool configs = Ok (Some p0) →
  rtc pool_step (p0, []) (p, ls) →
  NoDup (live ls) ∧
  (∀ t, used p t = true ↔ t ∈ live ls) ∧
  ((acquireNextLocked p).1 = None ↔ ∀ t, t ∈ np_order p → t ∈ live ls).
Proof.
  intros Hn Hr. apply newNetworkPool_inv in Hn.
  assert (∀ x y, rtc pool_step x y → pool_inv x.1 x.2 → pool_inv y.1 y.2) as Hinv.
  { intros x y H. induction H as [|[p1 l1] [p2 l2] z Hs _ IH]; [done|]. intros H1.
    apply IH. by eapply pool_step_inv. }
  apply (Hinv _ _ Hr) in Hn as Hp. simpl in Hp. pose proof Hp as [H1 H2 H3 H4 H5].
  split; [done|]. split; [done|]. unfold acquireNextLocked.
  pose proof (scanFrom_spec p (seq 0 (length (np_order p)))) as Hs.
  destruct (scanFrom p _) as [[cfg|] p']; simpl.
  - split; [done|]. intros Hall. destruct Hs as (o & Ho & Hu & _). exfalso.
    apply elem_of_seq in Ho. set (t := nth _ _ _) in *.
    assert (t ∈ np_order p) as Ht by (apply list_elem_of_In, nth_In, Nat.mod_upper_bound; lia).
    apply Hall, H5 in Ht. congruence.
  - split; [|done]. intros _ t Ht. apply H5. destruct Hs as [_ Hs].
    apply list_elem_of_In, (In_nth _ _ "") in Ht as (i & Hi & <-).
    destruct (offsets_cover (length (np_order p)) (np_next p) i Hi) as (o & Ho & <-).
    apply Hs. apply elem_of_seq. lia.
Qed.

Definition demo_net (t : string) : networkConfig := mkNetworkConfig t "" "10.0.0.2" "10.0.0.1" "255.255.255.252".
Definition demo_pool : networkPool :=
  mkNetworkPool ["tap0"; "tap1"] {["tap0" := demo_net "tap0"; "tap1" := demo_net "tap1"]}
    {["tap0" := false; "tap1" := false]} 0.

Lemma pool_exclusive_witness :
  newNetworkPool [demo_net "tap0"; demo_net "tap1"] = Ok (Some demo_pool) ∧
  NoDup (live [mkNetworkLease (demo_net "tap1") false; mkNetworkLease (demo_net "tap0") false]).
Proof.
  assert (newNetworkPool [demo_net "tap0"; demo_net "tap1"] = Ok (Some demo_pool)) as Hn
    by (vm_compute; reflexivity).
  split; [exact Hn|].
  refine (proj1 (pool_exclusive _ demo_pool
    (acquireNextLocked (acquireNextLocked demo_pool).2).2 _ Hn _)).
  eapply rtc_l; [apply step_acquire; vm_compute; reflexivity|].
  eapply rtc_l; [apply step_acquire; vm_compute; reflexivity|]. apply rtc_refl.
Defined.

(** C40: the address plan.  When the requested blocks fit without wrapping 32
    bits, an accepted plan has one entry per device; its guest and gateway
    addresses are the second and first address of consecutive blocks that start
    at the network's base, lie inside the network, and do not overlap, and the
    printed addresses read back as these numbers, so all guests and gateways are
    pairwise different. *)
Theorem tap_plan_disjoint devicePrefix count cidr subnetPrefix configs addr bits :
  (0 < subnetPrefix)%Z →
  parseIPv4Prefix (TrimSpace cidr) = Some (addr, bits) →
  (0 < count)%Z → (0 < bits)%Z → (count * 2 ^ (32 - subnetPrefix) < 2 ^ 32)%Z →
  buildTapPoolConfigs devicePrefix count cidr subnetPrefix = Ok configs →
  let block := (2 ^ (32 - subnetPrefix))%Z in
  let base := masked addr bits in
  length configs = Z.to_nat count ∧
  ∀ i cfg, configs !! i = Some cfg →
    let first := (base + Z.of_nat i * block)%Z in
    (base ≤ first ∧ first + block ≤ base + 2 ^ (32 - bits) ∧ 4 ≤ block)%Z ∧
    parseIPv4 (nc_GatewayIP cfg) = Some (first + 1)%Z ∧
    parseIPv4 (nc_GuestIP cfg) = Some (first + 2)%Z.
Proof.
  intros Hsp Hpre Hc Hbits Hwrap Hb block base. unfold buildTapPoolConfigs in Hb.
  rewrite (proj2 (Z.leb_gt count 0) Hc), (proj2 (Z.leb_gt subnetPrefix 0) Hsp), Hpre in Hb.
  destruct (parseIPv4Prefix_range _ _ _ Hpre) as [Haddr Hbr].
  destruct (masked_range addr bits Haddr ltac:(lia)) as [Hb0 Hb1]. fold base in Hb0, Hb1, Hb.
  destruct ((subnetPrefix <? bits)%Z || (30 <? subnetPrefix)%Z) eqn:Eo; [done|].
  apply orb_false_iff in Eo as [E1%Z.ltb_ge E2%Z.ltb_ge].
  rewrite !shl1_pow in Hb by lia. fold block in Hb, Hwrap.
  assert (4 ≤ block)%Z as Hblk.
  { change 4%Z with (2 ^ 2)%Z. apply Z.pow_le_mono_r; lia. }
  assert (uint32_of (uint32_of count * block) = count * block)%Z as Er.
  { unfold uint32_of. rewrite (Z.mod_small count) by nia. apply Z.mod_small. nia. }
  rewrite Er in Hb. destruct (Z.ltb_spec (2 ^ (32 - bits)) (count * block)) as [|Hcap]; [done|].
  injection Hb as <-. split; [by rewrite length_fmap, length_seq|].
  intros i cfg Hi. rewrite list_lookup_fmap, fmap_Some in Hi. destruct Hi as (j & Hj & ->).
  apply lookup_seq in Hj as [-> Hj]. simpl.
  assert (Z.of_nat i * block + block ≤ count * block)%Z by nia.
  assert (0 ≤ Z.of_nat i * block)%Z by nia.
  assert (subnetBase base block i = base + Z.of_nat i * block)%Z as Esb.
  { apply (subnetBase_exact _ _ (Z.to_nat count)); [done|lia| |done]. lia. }
  unfold uint32_of. rewrite Esb. rewrite !Z.mod_small by lia.
  rewrite !parse_ipString by lia. split_and!; [lia..|done|done].
Qed.

Lemma tap_plan_disjoint_witness :
  ∃ configs, buildTapPoolConfigs "tap" 2 "10.0.0.0/24" 30 = Ok configs ∧ length configs = 2%nat.
Proof.
  destruct (buildTapPoolConfigs "tap" 2 "10.0.0.0/24" 30) as [configs|e] eqn:Eb;
    [|vm_compute in Eb; discriminate].
  exists configs. split; [reflexivity|].
  refine (proj1 (tap_plan_disjoint "tap" 2 "10.0.0.0/24" 30 configs 167772160 24 _ _ _ _ _ Eb)).
  - lia.
  - vm_compute. reflexivity.
  - lia.
  - lia.
  - vm_compute. reflexivity.
Defined.

(** The capacity check wraps.  The product of count and block size is taken
    modulo 2^32, so a plan of three blocks of half the address space is accepted
    for a network that holds one, and gives two devices the same addresses. *)
Theorem tap_plan_overflow :
  ∃ configs a b, buildTapPoolConfigs "tap" 3 "0.0.0.0/1" 1 = Ok configs ∧
    configs !! 0%nat = Some a ∧ configs !! 2%nat = Some b ∧
    nc_TapDevice a ≠ nc_TapDevice b ∧ nc_GuestIP a = nc_GuestIP b ∧ nc_GuestMAC a = nc_GuestMAC b.
Proof.
  do 3 eexists. split; [vm_compute; reflexivity|]. split; [reflexivity|]. split; [reflexivity|].
  split; [intros H; discriminate H|]. split; reflexivity.
Qed.
