(* ===== verification/NodeAgent.v ===== *)
(** * NodeAgent: running assignments on a host

    Models [internal/nodeagent] (service.go, maps.go), [timetrace.Combine] and
    the interfaces of [internal/firecracker/driver.go].  The state of an agent
    is a record; what it sends to its coordinator is appended to [ag_sent] and
    the goroutines it starts to [ag_spawned].  A handler that fails has
    panicked: the process ends there.

    The driver is an interface value ([Driver]); an execution is described by
    what happens while it runs ([RunEvent]: a tick of the heartbeat goroutine, a
    streamed response event with its JSON encoding, an action of other
    goroutines on the agent) and by its result.  [do_inflight] says whether a
    heartbeat that fired before the end is sent after the final update: the
    heartbeat goroutine is cancelled, not waited for.  Elapsed times reach the
    logs only; [trace n] is the text of the trace recorder after [n] entries. *)

From stdpp Require Import base decidable tactics numbers list gmap strings relations.
From S2P Require Import Prelude Domain MemStore World Scheduler SchedulerFacts Artifacts Coordinator.
From S2P Require Import CoordinatorInv System CoordinatorFacts Secrets NetworkPool.

(** ** Driver interface *)

Record ExecuteRequest := mkExecuteRequest {
  xr_AttemptID : string;
  xr_JobID : string;
  xr_FunctionID : string;
  xr_Entrypoint : string;
  xr_ArtifactBundle : string;
  xr_Payload : string;
  xr_Env : option (gmap string string);
  xr_Timeout : Duration;
  xr_MemoryMB : Z;
  xr_NetworkPolicy : string;
  xr_Region : string;
  xr_HostID : string;
  xr_EnableStreaming : bool;
}.

Record ExecuteResult := mkExecuteResult {
  xs_ExitCode : Z;
  xs_Logs : string;
  xs_Output : string;
  xs_PlatformTrace : string;
}.

Record WarmInventory := mkWarmInventory { wi_BlankWarm : Z; wi_FunctionWarm : gmap string Z }.

Inductive AgentGoroutine :=
| GoArchive (jobID attemptID logs output : string)
| GoWarm (req : ExecuteRequest) (functionVersionID : string) (release : bool).

(** ** State *)

Record Agent := mkAgent {
  ag_hostID : string;
  ag_region : string;
  ag_driverName : string;
  ag_maxSlots : Z;
  ag_maxFullNetwork : Z;
  ag_availableSlots : Z;
  ag_availableFull : Z;
  ag_blankWarm : Z;
  ag_functionWarm : gmap string Z;
  ag_bundleCache : gmap string string;
  ag_objects : Objects;
  ag_sent : list AgentMessage;
  ag_spawned : list AgentGoroutine;
}.

#[export] Instance Agent_rebuild : Rebuild Agent := λ r,
  mkAgent (ag_hostID r) (ag_region r) (ag_driverName r) (ag_maxSlots r) (ag_maxFullNetwork r)
    (ag_availableSlots r) (ag_availableFull r) (ag_blankWarm r) (ag_functionWarm r)
    (ag_bundleCache r) (ag_objects r) (ag_sent r) (ag_spawned r).

Inductive RunEvent :=
| RunTick
| RunStream (encoded : string)
| RunOther (f : Agent → Agent).

Record DriverOutcome := mkDriverOutcome {
  do_result : option ExecuteResult;
  do_err : option GoError;
  do_events : list RunEvent;
  do_inflight : bool;
}.

(** The optional interfaces are [option] fields. *)
Record Driver := mkDriver {
  drv_Name : string;
  drv_Execute : ExecuteRequest → DriverOutcome;
  drv_PostExecutionWarmer : option (ExecuteRequest → option GoError);
  drv_SlotInventory : option (Z → WarmInventory);
  drv_Inventory : option WarmInventory;
}.

Abbreviation AM A := (M Agent A).

(** [_ = f(...)] *)
Definition ignoreA {A} (m : AM A) : AM unit := try m ≫= λ _, mret tt.

(** ** Construction *)

(** [Config.withDefaults]; [numCPU] is [runtime.NumCPU()]. *)
Definition withDefaults (numCPU maxAssignments maxFull : Z) : Z * Z :=
  let maxAssignments := if (maxAssignments <=? 0)%Z then 4%Z else maxAssignments in
  let hostCPUs := if (numCPU <=? 0)%Z then 1%Z else numCPU in
  let maxFull := if (maxFull <=? 0)%Z then hostCPUs else maxFull in
  (maxAssignments, if (maxAssignments <? maxFull)%Z then maxAssignments else maxFull).

Definition NewWithConfig (numCPU maxAssignments maxFull : Z) (hostID region : string)
    (driver : Driver) (objects : Objects) : Agent :=
  let '(slots, full) := withDefaults numCPU maxAssignments maxFull in
  mkAgent hostID region (if blank (drv_Name driver) then "unknown" else TrimSpace (drv_Name driver))
    slots full slots full 1 ∅ ∅ objects [] [].

(** ** Slots *)

Definition reserveSlot (a : Agent) : Agent :=
  if (0 <? ag_availableSlots a)%Z
  then a <| ag_availableSlots := (ag_availableSlots a - 1)%Z |> else a.

Definition releaseSlot (a : Agent) : Agent :=
  if (ag_availableSlots a <? ag_maxSlots a)%Z
  then a <| ag_availableSlots := (ag_availableSlots a + 1)%Z |> else a.

Definition applyDrain (a : Agent) : Agent :=
  a <| ag_availableSlots := 0%Z |> <| ag_availableFull := 0%Z |> <| ag_blankWarm := 0%Z |>
    <| ag_functionWarm := ∅ |>.

Definition reserveAssignmentSlots (networkPolicy : string) (a : Agent) : Agent :=
  let a := reserveSlot a in
  if isFullNetworkPolicy networkPolicy && (0 <? ag_availableFull a)%Z
  then a <| ag_availableFull := (ag_availableFull a - 1)%Z |> else a.

Definition releaseAssignmentSlots (networkPolicy : string) (a : Agent) : Agent :=
  let a := releaseSlot a in
  if isFullNetworkPolicy networkPolicy && (ag_availableFull a <? ag_maxFullNetwork a)%Z
  then a <| ag_availableFull := (ag_availableFull a + 1)%Z |> else a.

(** ** Messages *)

Definition minInt (left right : Z) : Z := if (left <? right)%Z then left else right.

Section Agent.
Context `{!MapOrder} (driver : Driver).

Definition warmInventory (a : Agent) : WarmInventory :=
  match drv_SlotInventory driver with
  | Some f => f (ag_availableSlots a)
  | None =>
      match drv_Inventory driver with
      | Some inv => inv
      | None => mkWarmInventory (minInt (ag_blankWarm a) (ag_availableSlots a))
                  ((λ n, minInt n (ag_availableSlots a)) <$> ag_functionWarm a)
      end
  end.

Definition warmMetrics (input : gmap string Z) : list WarmPoolMetric :=
  (λ kc, mkWarmPoolMetric kc.1 (int32_of kc.2)) <$> map_iter 767 input.

Definition registrationMessage (a : Agent) : RegisterHost :=
  let inventory := warmInventory a in
  mkRegisterHost (ag_hostID a) (ag_region a) (ag_driverName a) (int32_of (ag_availableSlots a))
    (int32_of (wi_BlankWarm inventory)) (warmMetrics (wi_FunctionWarm inventory))
    (int32_of (ag_availableFull a)).

Definition heartbeatMessage (a : Agent) : HostHeartbeat :=
  let inventory := warmInventory a in
  mkHostHeartbeat (ag_hostID a) (ag_region a) (int32_of (ag_availableSlots a))
    (int32_of (wi_BlankWarm inventory)) (warmMetrics (wi_FunctionWarm inventory))
    (int32_of (ag_availableFull a)).

Definition send (m : AgentMessage) : AM unit := modify (λ a, a <| ag_sent := ag_sent a ++ [m] |>).

Definition sendHeartbeat : AM unit :=
  m ← gets heartbeatMessage; send (MsgHeartbeat m).

Definition spawnA (g : AgentGoroutine) : AM unit :=
  modify (λ a, a <| ag_spawned := ag_spawned a ++ [g] |>).

Definition emitUpdate (msg : ExecutionAssignment) (state : AssignmentState)
    (logs output errMsg : string) (exitCode : Z) : AM unit :=
  a ← gets id;
  send (MsgAssignmentUpdate (mkAssignmentUpdate (ag_hostID a) (ag_region a) (ea_AttemptId msg)
    (ea_JobId msg) state logs output errMsg (int32_of exitCode))).

(** ** Results *)

(** [timetrace.Combine] *)
Definition newline : string := String (Ascii.ascii_of_N 10) "".
Definition Combine (trace logs : string) : string :=
  let trace := TrimSpace trace in
  let logs := TrimSpace logs in
  if bool_decide (trace = "") then logs
  else if bool_decide (logs = "") then trace
  else trace +:+ newline +:+ logs.

Definition maxExecutionLogBytes : Z := 8388608.
Definition maxExecutionOutputBytes : Z := 33554432.

Definition strLen (s : string) : Z := Z.of_nat (String.length s).

(** The first [n] bytes. *)
Fixpoint firstBytes (n : nat) (s : string) : string :=
  match n, s with
  | S n', String a s' => String a (firstBytes n' s')
  | _, _ => EmptyString
  end.

(** Logs, output and the limit error. *)
Definition enforceExecutionResultLimits (logs output : string) : string * string * option GoError :=
  let '(logs', e1) :=
    if (maxExecutionLogBytes <? strLen logs)%Z
    then (firstBytes (Z.to_nat maxExecutionLogBytes) logs,
          ["execution logs exceeded limit of " +:+ itoa maxExecutionLogBytes +:+ " bytes"])
    else (logs, []) in
  let '(output', e2) :=
    if (maxExecutionOutputBytes <? strLen output)%Z
    then ("", ["execution output exceeded limit of " +:+ itoa maxExecutionOutputBytes +:+ " bytes"])
    else (output, []) in
  let errs := e1 ++ e2 in
  (logs', output', if bool_decide (errs = []) then None else Some (plainErr (Join errs "; "))).

(** [combineErrorMessages] of a non-nil first error. *)
Definition combineErrorMessages (primary : GoError) (secondary : option GoError) : string :=
  match secondary with
  | None => Error primary
  | Some e => Error primary +:+ "; " +:+ Error e
  end.

Definition terminalExitCode (exitCode : Z) : Z := if (exitCode =? 0)%Z then 1%Z else exitCode.

(** ** Objects *)

Definition loadBundle (bundleKey : string) : AM string :=
  let bundleKey := TrimSpace bundleKey in
  if bool_decide (bundleKey = "") then fail (plainErr "artifact bundle key is required") else
  a ← gets id;
  match ag_bundleCache a !! bundleKey with
  | Some cached => mret cached
  | None =>
      bundle ← lift (objectGet bundleKey (ag_objects a)).1;
      modify (λ a, a <| ag_bundleCache := <[bundleKey := bundle]> (ag_bundleCache a) |>) ≫= λ _,
      mret bundle
  end.

(** The body of the archiving goroutine. *)
Definition archiveExecutionArtifacts (jobID attemptID logs output : string) : AM unit :=
  modify (λ a, a <| ag_objects :=
    (objectPut (ExecutionOutputKey jobID attemptID)
       (if bool_decide (output = "") then "null" else output)
       (objectPut (ExecutionLogsKey jobID attemptID) logs (ag_objects a)).2).2 |>).

(** ** Execution *)

Definition isDirectStreamAttempt (attemptID : string) : bool :=
  HasPrefix (TrimSpace attemptID) "direct-attempt-".

Definition shouldHoldSlotDuringWarmPrepare (_ : ExecuteRequest) : bool := false.

(** [for key, value := range secrets { env[key] = value }]: writing to a nil map
    panics. *)
Definition addSecrets (env : option (gmap string string)) (secrets : gmap string string) :
    AM (option (gmap string string)) :=
  if bool_decide (secrets = ∅) then mret env else
  match env with
  | Some m => mret (Some (secrets ∪ m))
  | None => fail (plainErr "panic: assignment to entry in nil map")
  end.

(** What the agent sends while the driver runs. *)
Fixpoint runEvents (msg : ExecutionAssignment) (streaming : bool) (events : list RunEvent) : AM unit :=
  match events with
  | [] => mret tt
  | ev :: rest =>
      match ev with
      | RunTick => emitUpdate msg ASSIGNMENT_STATE_RUNNING "" "" "" 0
      | RunStream encoded =>
          if streaming then emitUpdate msg ASSIGNMENT_STATE_RUNNING "" encoded "" 0 else mret tt
      | RunOther f => modify f
      end ≫= λ _, runEvents msg streaming rest
  end.

Definition executeRequest (msg : ExecutionAssignment) (bundle : string)
    (env : option (gmap string string)) (a : Agent) : ExecuteRequest :=
  mkExecuteRequest (ea_AttemptId msg) (ea_JobId msg) (ea_FunctionVersionId msg) (ea_Entrypoint msg)
    bundle (ea_PayloadJson msg) env (ea_TimeoutSec msg * Second)%Z (ea_MemoryMb msg)
    (ea_NetworkPolicy msg) (ag_region a) (ag_hostID a) (isDirectStreamAttempt (ea_AttemptId msg)).

(** The final update, and the heartbeat that may follow it. *)
Definition emitFinal (msg : ExecutionAssignment) (inflight : bool) (state : AssignmentState)
    (logs output errMsg : string) (exitCode : Z) : AM unit :=
  emitUpdate msg state logs output errMsg exitCode ≫= λ _,
  if inflight then emitUpdate msg ASSIGNMENT_STATE_RUNNING "" "" "" 0 else mret tt.

(** [executeAssignment] from the point where the driver is called. *)
Definition runDriver (trace : nat → string) (msg : ExecutionAssignment) (req : ExecuteRequest) :
    AM unit :=
  let out := drv_Execute driver req in
  runEvents msg (xr_EnableStreaming req) (do_events out) ≫= λ _,
  let '(logs, output, limitErr) :=
    match do_result out with
    | Some r => enforceExecutionResultLimits
                  (Combine (trace 3) (Combine (xs_PlatformTrace r) (xs_Logs r))) (xs_Output r)
    | None => enforceExecutionResultLimits (trace 3) ""
    end in
  let exitCode := match do_result out with Some r => xs_ExitCode r | None => 1%Z end in
  let failed errMsg :=
    spawnA (GoArchive (ea_JobId msg) (ea_AttemptId msg) logs output) ≫= λ _,
    emitFinal msg (do_inflight out) ASSIGNMENT_STATE_FAILED logs output errMsg
      (terminalExitCode exitCode) ≫= λ _,
    modify (releaseAssignmentSlots (ea_NetworkPolicy msg)) ≫= λ _,
    sendHeartbeat in
  match do_err out with
  | Some e => failed (combineErrorMessages e limitErr)
  | None =>
      match limitErr with
      | Some e => failed (Error e)
      | None =>
          spawnA (GoArchive (ea_JobId msg) (ea_AttemptId msg) logs output) ≫= λ _,
          emitFinal msg (do_inflight out) ASSIGNMENT_STATE_SUCCEEDED logs output "" exitCode ≫= λ _,
          if shouldHoldSlotDuringWarmPrepare req
          then spawnA (GoWarm req (ea_FunctionVersionId msg) true)
          else
            modify (releaseAssignmentSlots (ea_NetworkPolicy msg)) ≫= λ _,
            sendHeartbeat ≫= λ _,
            spawnA (GoWarm req (ea_FunctionVersionId msg) false)
      end
  end.

(** A failure before the driver is called: the update, then the deferred
    release. *)
Definition failEarly (msg : ExecutionAssignment) (logs errMsg : string) : AM unit :=
  emitUpdate msg ASSIGNMENT_STATE_FAILED logs "" errMsg 1 ≫= λ _,
  modify (releaseAssignmentSlots (ea_NetworkPolicy msg)).

Definition executeAssignment (resolve : ExecutionRequest → result (gmap string string))
    (trace : nat → string) (msg : ExecutionAssignment) : AM unit :=
  modify (reserveAssignmentSlots (ea_NetworkPolicy msg)) ≫= λ _,
  emitUpdate msg ASSIGNMENT_STATE_STARTING "" "" "" 0 ≫= λ _,
  let bundleKey := TrimSpace (ea_ArtifactBundleKey msg) in
  if bool_decide (bundleKey = "") then
    failEarly msg (trace 0) "assignment missing artifact_bundle_key"
  else
    bundle ← try (loadBundle bundleKey);
    match bundle with
    | Err e => failEarly msg (trace 1) (Error e)
    | Ok bundle =>
        a ← gets id;
        match resolve (mkExecutionRequest (ag_hostID a) (ag_region a) (ea_FunctionVersionId msg)
                         (ea_EnvRefs msg)) with
        | Err e => failEarly msg (trace 2) (Error e)
        | Ok secrets =>
            env ← addSecrets (cloneStringMap (ea_EnvVars msg)) secrets;
            emitUpdate msg ASSIGNMENT_STATE_RUNNING "" "" "" 0 ≫= λ _,
            runDriver trace msg (executeRequest msg bundle env a)
        end
    end.

(** The body of the goroutine [prepareWarmAsync] starts. *)
Definition warmGoroutine (networkPolicy : string) (req : ExecuteRequest)
    (functionVersionID : string) (release : bool) : AM unit :=
  match drv_PostExecutionWarmer driver with
  | Some _ => mret tt
  | None => modify (λ a, a <| ag_functionWarm := <[functionVersionID := 1%Z]> (ag_functionWarm a) |>)
  end ≫= λ _,
  (if release then modify (releaseAssignmentSlots networkPolicy) else mret tt) ≫= λ _,
  sendHeartbeat.

(** [prepareSnapshot]: the driver's own state is its business; the agent's is
    the bundle cache and the slots. *)
Definition prepareSnapshot (msg : PrepareSnapshot) : AM unit :=
  modify (reserveAssignmentSlots (ps_NetworkPolicy msg)) ≫= λ _,
  match ps_SnapshotKind msg with
  | SNAPSHOT_KIND_FUNCTION =>
      if blank (ps_FunctionVersionId msg) || blank (ps_ArtifactBundleKey msg) then mret tt
      else match drv_PostExecutionWarmer driver with
           | None => mret tt
           | Some _ => ignoreA (loadBundle (ps_ArtifactBundleKey msg))
           end
  | _ => mret tt
  end ≫= λ _,
  modify (releaseAssignmentSlots (ps_NetworkPolicy msg)) ≫= λ _,
  sendHeartbeat.

(** One message of the coordinator ([Run]'s loop). *)
Definition handleCoordinatorMessage (resolve : ExecutionRequest → result (gmap string string))
    (trace : nat → string) (m : CoordinatorMessage) : AM unit :=
  match m with
  | MsgRegistered _ => mret tt
  | MsgAssignment a => executeAssignment resolve trace a
  | MsgPrepare p => prepareSnapshot p
  | MsgDrain _ _ => modify applyDrain ≫= λ _, sendHeartbeat
  | MsgTerminate _ _ _ => mret tt
  end.

End Agent.

(** ** The updates a handler sends *)

Definition updates (ms : list AgentMessage) : list AssignmentUpdate :=
  omap (λ m, match m with MsgAssignmentUpdate u => Some u | _ => None end) ms.

(** From an agent of host [h] in region [r], the method appends updates [l] with
    [Q], and stays that host. *)
Definition emits (h r : string) {A} (m : AM A) (Q : A → list AssignmentUpdate → Prop) : Prop :=
  ∀ a, ag_hostID a = h → ag_region a = r →
    ag_hostID (m a).2 = h ∧ ag_region (m a).2 = r ∧
    ∃ l, updates (ag_sent (m a).2) = updates (ag_sent a) ++ l ∧ ∀ x, (m a).1 = Ok x → Q x l.

Definition silent (f : Agent → Agent) : Prop := ∀ a,
  ag_hostID (f a) = ag_hostID a ∧ ag_region (f a) = ag_region a ∧
  updates (ag_sent (f a)) = updates (ag_sent a).

Section Emits.
Context (h r : string).

Lemma emits_ret {A} (x : A) (Q : A → list AssignmentUpdate → Prop) : Q x [] → emits h r (mret x) Q.
Proof. intros HQ a H1 H2. split_and!; [done..|]. exists []. rewrite app_nil_r. split; [done|]. by intros ? [= <-]. Qed.

Lemma emits_fail {A} e (Q : A → list AssignmentUpdate → Prop) : emits h r (fail e) Q.
Proof. intros a H1 H2. split_and!; [done..|]. exists []. rewrite app_nil_r. split; [done|]. intros ? [=]. Qed.

Lemma emits_bind {A B} (m : AM A) (f : A → AM B) P Q :
  emits h r m P →
  (∀ x l1, P x l1 → emits h r (f x) (λ y l2, Q y (l1 ++ l2))) → emits h r (m ≫= f) Q.
Proof.
  intros Hm Hf a H1 H2. destruct (Hm a H1 H2) as (E1 & E2 & l1 & El & HP).
  rewrite M_bind_eq. destruct (m a) as [[x|e] a1]; simpl in *.
  - destruct (Hf x l1 (HP x eq_refl) a1 E1 E2) as (F1 & F2 & l2 & Fl & HQ).
    split_and!; [done..|]. exists (l1 ++ l2). rewrite Fl, El, app_assoc. done.
  - split_and!; [done..|]. exists l1. split; [done|]. intros ? [=].
Qed.

Lemma emits_silent (f : Agent → Agent) : silent f → emits h r (modify f) (λ _ l, l = []).
Proof.
  intros Hf a H1 H2. destruct (Hf a) as (F1 & F2 & F3). simpl. split_and!; [congruence..|].
  exists []. by rewrite app_nil_r.
Qed.

Lemma emits_gets {A} (f : Agent → A) :
  emits h r (gets f) (λ x l, l = [] ∧ ∃ a, x = f a ∧ ag_hostID a = h ∧ ag_region a = r).
Proof.
  intros a H1 H2. split_and!; [done..|]. exists []. rewrite app_nil_r. split; [done|].
  intros ? [= <-]. eauto.
Qed.

Lemma emits_mono {A} (m : AM A) (P Q : A → list AssignmentUpdate → Prop) :
  emits h r m P → (∀ x l, P x l → Q x l) → emits h r m Q.
Proof. intros Hm Hi a H1 H2. destruct (Hm a H1 H2) as (E1 & E2 & l & El & HP). naive_solver. Qed.

(** A method that sends no update, before another. *)
Lemma emits_then {A B} (m : AM A) (f : A → AM B) Q :
  emits h r m (λ _ l, l = []) → (∀ x, emits h r (f x) Q) → emits h r (m ≫= f) Q.
Proof. intros Hm Hf. eapply emits_bind; [exact Hm|]. intros x l1 ->. apply Hf. Qed.

Lemma emits_try {A} (m : AM A) :
  emits h r m (λ _ l, l = []) → (∀ a, updates (ag_sent (m a).2) = updates (ag_sent a)) →
  emits h r (try m) (λ _ l, l = []).
Proof.
  intros Hm Hs a H1 H2. destruct (Hm a H1 H2) as (E1 & E2 & _). specialize (Hs a).
  unfold try. destruct (m a) as [x a1]; simpl in *. split_and!; [done..|].
  exists []. by rewrite app_nil_r.
Qed.

(** The update of this host for an assignment. *)
Definition updateOf (msg : ExecutionAssignment) (st : AssignmentState) (u : AssignmentUpdate) : Prop :=
  au_HostId u = h ∧ au_Region u = r ∧ au_AttemptId u = ea_AttemptId msg ∧
  au_JobId u = ea_JobId msg ∧ au_State u = st.

Lemma emits_update msg st logs output err code :
  emits h r (emitUpdate msg st logs output err code) (λ _ l, ∃ u, l = [u] ∧ updateOf msg st u).
Proof.
  intros a H1 H2. simpl. split_and!; [done..|]. eexists. split.
  - unfold updates. rewrite omap_app. simpl. reflexivity.
  - intros x _. eexists. split; [done|]. by repeat split.
Qed.

Lemma emits_spawn g : emits h r (spawnA g) (λ _ l, l = []).
Proof. by apply emits_silent. Qed.

Lemma silent_release np : silent (releaseAssignmentSlots np).
Proof.
  intros a. unfold releaseAssignmentSlots, releaseSlot.
  destruct (_ <? ag_maxSlots a)%Z; simpl; destruct (_ && _); done.
Qed.

Lemma silent_reserve np : silent (reserveAssignmentSlots np).
Proof.
  intros a. unfold reserveAssignmentSlots, reserveSlot.
  destruct (0 <? ag_availableSlots a)%Z; simpl; destruct (_ && _); done.
Qed.

Context `{!MapOrder} (driver : Driver).

Lemma emits_heartbeat : emits h r (sendHeartbeat driver) (λ _ l, l = []).
Proof.
  intros a H1 H2. simpl. split_and!; [done..|]. exists []. split; [|done].
  unfold updates. rewrite omap_app. simpl. done.
Qed.

Lemma emits_loadBundle key : emits h r (loadBundle key) (λ _ l, l = []).
Proof.
  unfold loadBundle. cbn zeta. case_bool_decide; [apply emits_fail|].
  eapply emits_bind; [apply emits_gets|]. intros a l1 [-> _].
  destruct (ag_bundleCache a !! _); [by apply emits_ret|].
  apply emits_then.
  { unfold lift. intros b H1 H2. split_and!; [done..|]. exists []. by rewrite app_nil_r. }
  intros bundle. apply emits_then; [by apply emits_silent|]. intros _. by apply emits_ret.
Qed.

Lemma loadBundle_sent key a : updates (ag_sent (loadBundle key a).2) = updates (ag_sent a).
Proof.
  unfold loadBundle. cbn zeta. case_bool_decide; [done|]. simpl.
  rewrite M_bind_eq. simpl. destruct (ag_bundleCache a !! _); [done|].
  rewrite M_bind_eq. unfold lift. by destruct (objectGet _ _).1.
Qed.

(** *** The protocol of an assignment *)

Definition running msg (u : AssignmentUpdate) : Prop := updateOf msg ASSIGNMENT_STATE_RUNNING u.
Definition final msg (u : AssignmentUpdate) : Prop :=
  updateOf msg ASSIGNMENT_STATE_SUCCEEDED u ∨ updateOf msg ASSIGNMENT_STATE_FAILED u.

(** Any number of running updates, one final one, and at most one running update
    after it, which requires a heartbeat in flight. *)
Definition tail_protocol (inflight : bool) msg (l : list AssignmentUpdate) : Prop :=
  ∃ mid u late, l = mid ++ u :: late ∧ Forall (running msg) mid ∧ final msg u ∧
    (late = [] ∨ inflight = true ∧ ∃ v, late = [v] ∧ running msg v).

Definition event_silent (ev : RunEvent) : Prop :=
  match ev with RunOther f => silent f | _ => True end.

Lemma emits_runEvents msg streaming events :
  Forall event_silent events →
  emits h r (runEvents msg streaming events) (λ _ l, Forall (running msg) l).
Proof.
  induction 1 as [|ev events Hev Hevs IH]; simpl; [by apply emits_ret; constructor|].
  eapply (emits_bind _ _ (λ _ l, Forall (running msg) l)).
  - destruct ev as [|enc|f]; [|destruct streaming|].
    1,2: eapply emits_mono; [apply emits_update|]; intros _ l (u & -> & Hu); by constructor.
    + by apply emits_ret; constructor.
    + eapply emits_mono; [by apply emits_silent|]. intros _ l ->. constructor.
  - intros ? l1 Hl1. eapply emits_mono; [exact IH|]. intros ? l2 Hl2. by apply Forall_app.
Qed.

Lemma emits_final msg inflight st logs output err code :
  st = ASSIGNMENT_STATE_SUCCEEDED ∨ st = ASSIGNMENT_STATE_FAILED →
  emits h r (emitFinal msg inflight st logs output err code) (λ _ l, tail_protocol inflight msg l).
Proof.
  intros Hst. eapply emits_bind; [apply emits_update|]. intros _ l1 (u & -> & Hu).
  assert (final msg u) as Hf by (destruct Hst as [-> | ->]; [by left|by right]).
  destruct inflight.
  - eapply emits_mono; [apply emits_update|]. intros _ l2 (v & -> & Hv).
    exists [], u, [v]. split_and!; [done|constructor|done|]. right. eauto.
  - apply emits_ret. exists [], u, []. split_and!; [done|constructor|done|by left].
Qed.

Lemma tail_protocol_app inflight msg l1 l2 :
  Forall (running msg) l1 → tail_protocol inflight msg l2 → tail_protocol inflight msg (l1 ++ l2).
Proof.
  intros H1 (mid & u & late & -> & H2 & H3 & H4). exists (l1 ++ mid), u, late.
  rewrite <- app_assoc. split_and!; [done|by apply Forall_app|done|done].
Qed.

Lemma emits_tail {A} (m : AM A) (f : A → AM unit) inflight msg :
  emits h r m (λ _ l, tail_protocol inflight msg l) →
  (∀ x, emits h r (f x) (λ _ l, l = [])) →
  emits h r (m ≫= f) (λ _ l, tail_protocol inflight msg l).
Proof.
  intros Hm Hf. eapply emits_bind; [exact Hm|]. intros x l1 Hl1.
  eapply emits_mono; [apply Hf|]. intros _ l2 ->. by rewrite app_nil_r.
Qed.

Lemma emits_runDriver trace msg req :
  Forall event_silent (do_events (drv_Execute driver req)) →
  emits h r (runDriver driver trace msg req)
    (λ _ l, tail_protocol (do_inflight (drv_Execute driver req)) msg l).
Proof.
  intros Hev. unfold runDriver. cbn zeta.
  eapply emits_bind; [by apply emits_runEvents|]. intros ? l1 Hl1.
  assert (∀ m : AM unit,
    emits h r m (λ _ l, tail_protocol (do_inflight (drv_Execute driver req)) msg l) →
    emits h r m (λ _ l, tail_protocol (do_inflight (drv_Execute driver req)) msg (l1 ++ l))) as Hpre.
  { intros m Hm. eapply emits_mono; [exact Hm|]. intros ? l. by apply tail_protocol_app. }
  destruct (match do_result _ with Some _ => _ | None => _ end) as [[logs output] limitErr].
  assert (∀ st err code, st = ASSIGNMENT_STATE_SUCCEEDED ∨ st = ASSIGNMENT_STATE_FAILED → ∀ k,
    emits h r (k : AM unit) (λ _ l, l = []) →
    emits h r (spawnA (GoArchive (ea_JobId msg) (ea_AttemptId msg) logs output) ≫= λ _,
      emitFinal msg (do_inflight (drv_Execute driver req)) st logs output err code ≫= λ _,
      modify (releaseAssignmentSlots (ea_NetworkPolicy msg)) ≫= λ _, k)
      (λ _ l, tail_protocol (do_inflight (drv_Execute driver req)) msg l)) as Hend.
  { intros st err code Hst k Hk. apply emits_then; [apply emits_spawn|]. intros _.
    apply emits_tail; [by apply emits_final|]. intros _.
    apply emits_then; [apply emits_silent, silent_release|]. done. }
  apply Hpre. destruct (do_err _); [|destruct limitErr].
  - apply Hend; [by right|]. apply emits_heartbeat.
  - apply Hend; [by right|]. apply emits_heartbeat.
  - apply Hend; [by left|]. apply emits_then; [apply emits_heartbeat|]. intros _. apply emits_spawn.
Qed.

Lemma emits_failEarly msg logs err inflight :
  emits h r (failEarly msg logs err) (λ _ l, tail_protocol inflight msg l).
Proof.
  eapply emits_bind; [apply emits_update|]. intros _ l1 (u & -> & Hu).
  eapply emits_mono; [apply emits_silent, silent_release|]. intros _ l ->.
  exists [], u, []. split_and!; [done|constructor|by right|by left].
Qed.

Lemma emits_addSecrets env secrets : emits h r (addSecrets env secrets) (λ _ l, l = []).
Proof.
  unfold addSecrets. case_bool_decide; [by apply emits_ret|].
  destruct env; [by apply emits_ret|apply emits_fail].
Qed.

Lemma emits_executeAssignment resolve trace msg :
  (∀ req, Forall event_silent (do_events (drv_Execute driver req))) →
  emits h r (executeAssignment driver resolve trace msg)
    (λ _ l, ∃ u rest inflight, l = u :: rest ∧ updateOf msg ASSIGNMENT_STATE_STARTING u ∧
      tail_protocol inflight msg rest ∧
      ((∀ req, do_inflight (drv_Execute driver req) = false) → inflight = false)).
Proof.
  intros Hev. unfold executeAssignment.
  apply emits_then; [apply emits_silent, silent_reserve|]. intros _.
  eapply emits_bind; [apply emits_update|]. intros _ l1 (u & -> & Hu). cbn zeta.
  assert (∀ b (m : AM unit), emits h r m (λ _ l, tail_protocol b msg l) →
    ((∀ req, do_inflight (drv_Execute driver req) = false) → b = false) →
    emits h r m (λ _ l, ∃ u0 rest inflight, [u] ++ l = u0 :: rest ∧
      updateOf msg ASSIGNMENT_STATE_STARTING u0 ∧ tail_protocol inflight msg rest ∧
      ((∀ req, do_inflight (drv_Execute driver req) = false) → inflight = false))) as Hwrap.
  { intros b m Hm Hb. eapply emits_mono; [exact Hm|]. intros ? l Hl. by exists u, l, b. }
  case_bool_decide; [by eapply (Hwrap false); [apply emits_failEarly|]|].
  apply emits_then; [apply emits_try; [apply emits_loadBundle|apply loadBundle_sent]|].
  intros [bundle|e]; [|by eapply (Hwrap false); [apply emits_failEarly|]].
  eapply emits_bind; [apply emits_gets|]. intros a l [-> _]. simpl app.
  destruct (resolve _) as [secrets|e]; [|by eapply (Hwrap false); [apply emits_failEarly|]].
  apply emits_then; [apply emits_addSecrets|]. intros env.
  eapply (Hwrap (do_inflight (drv_Execute driver (executeRequest msg bundle env a)))); [|auto].
  eapply emits_bind; [apply emits_update|]. intros _ l2 (v & -> & Hv).
  eapply emits_mono; [by apply emits_runDriver|]. intros ? l3 Hl3.
  apply tail_protocol_app; [|done]. by constructor.
Qed.

End Emits.

(** ** Slots *)

Record agent_ok (a : Agent) : Prop := {
  ok_agent_slots : (0 ≤ ag_availableSlots a ≤ ag_maxSlots a)%Z;
  ok_agent_full : (0 ≤ ag_availableFull a ≤ ag_maxFullNetwork a)%Z;
}.

Lemma reserve_ok np a : agent_ok a → agent_ok (reserveAssignmentSlots np a).
Proof.
  intros []. unfold reserveAssignmentSlots, reserveSlot.
  destruct (Z.ltb_spec 0 (ag_availableSlots a)); simpl; destruct (isFullNetworkPolicy np); simpl;
    try destruct (Z.ltb_spec 0 (ag_availableFull a)); split; simpl; lia.
Qed.

Lemma release_ok np a : agent_ok a → agent_ok (releaseAssignmentSlots np a).
Proof.
  intros []. unfold releaseAssignmentSlots, releaseSlot.
  destruct (Z.ltb_spec (ag_availableSlots a) (ag_maxSlots a)); simpl;
    destruct (isFullNetworkPolicy np); simpl;
    try destruct (Z.ltb_spec (ag_availableFull a) (ag_maxFullNetwork a)); split; simpl; lia.
Qed.

Section AgentInvariant.
Context `{!MapOrder} (driver : Driver).
Context (Hother : ∀ req, Forall (λ ev, match ev with RunOther f => ∀ a, agent_ok a → agent_ok (f a)
  | _ => True end) (do_events (drv_Execute driver req))).

Lemma keeps_modify_ok f : (∀ a, agent_ok a → agent_ok (f a)) → preserves agent_ok (modify f).
Proof. by apply keeps_modify. Qed.

Lemma keeps_frame {A} (m : AM A) :
  (∀ a, ag_availableSlots (m a).2 = ag_availableSlots a ∧ ag_maxSlots (m a).2 = ag_maxSlots a ∧
        ag_availableFull (m a).2 = ag_availableFull a ∧ ag_maxFullNetwork (m a).2 = ag_maxFullNetwork a) →
  preserves agent_ok m.
Proof.
  intros Hm a [H1 H2]. destruct (Hm a) as (E1 & E2 & E3 & E4). split; [|done]. split; congruence.
Qed.

Lemma ok_send m : preserves agent_ok (send m).
Proof. by apply keeps_frame. Qed.
Lemma ok_heartbeat : preserves agent_ok (sendHeartbeat driver).
Proof. by apply keeps_frame. Qed.
Lemma ok_spawn g : preserves agent_ok (spawnA g).
Proof. by apply keeps_frame. Qed.
Lemma ok_emit msg st l o e c : preserves agent_ok (emitUpdate msg st l o e c).
Proof. by apply keeps_frame. Qed.
Lemma ok_gets {A} (f : Agent → A) : preserves agent_ok (gets f).
Proof. by apply keeps_frame. Qed.
Lemma ok_reserve np : preserves agent_ok (modify (reserveAssignmentSlots np)).
Proof. apply keeps_modify_ok. intros. by apply reserve_ok. Qed.
Lemma ok_release np : preserves agent_ok (modify (releaseAssignmentSlots np)).
Proof. apply keeps_modify_ok. intros. by apply release_ok. Qed.
Lemma ok_loadBundle key : preserves agent_ok (loadBundle key).
Proof.
  apply keeps_frame. intros a. unfold loadBundle. cbn zeta. case_bool_decide; [done|].
  rewrite M_bind_eq. simpl. destruct (ag_bundleCache a !! _); [done|].
  rewrite M_bind_eq. unfold lift. by destruct (objectGet _ _).1.
Qed.
Lemma ok_try {A} (m : AM A) : preserves agent_ok m → preserves agent_ok (try m).
Proof. intros Hm. eapply keeps_mono; [by apply keeps_try|]. done. Qed.
Lemma ok_addSecrets env s : preserves agent_ok (addSecrets env s).
Proof. unfold addSecrets. case_bool_decide; [by apply keeps_ret|]. destruct env; [by apply keeps_ret|apply keeps_fail]. Qed.

Create HintDb agent.
#[local] Hint Resolve ok_send ok_heartbeat ok_spawn ok_emit ok_gets ok_reserve ok_release ok_loadBundle
  ok_try ok_addSecrets keeps_fail : agent.

Ltac agent_keep :=
  repeat match goal with
  | |- keeps _ _ (mbind _ _) => eapply (keeps_bind _ _ _ (λ _, True)); [|intros ? ?]
  | |- keeps _ _ (mret _) => by apply keeps_ret
  | |- keeps _ _ (match ?x with _ => _ end) => destruct x eqn:?
  | |- keeps _ _ _ => solve [eauto with agent]
  end.

Lemma ok_runEvents msg streaming req :
  preserves agent_ok (runEvents msg streaming (do_events (drv_Execute driver req))).
Proof.
  generalize (Hother req). generalize (do_events (drv_Execute driver req)).
  induction 1 as [|ev events Hev Hevs IH]; simpl; agent_keep. by apply keeps_modify_ok.
Qed.
#[local] Hint Resolve ok_runEvents : agent.

Lemma ok_emitFinal msg b st l o e c : preserves agent_ok (emitFinal msg b st l o e c).
Proof. unfold emitFinal. agent_keep. Qed.
#[local] Hint Resolve ok_emitFinal : agent.

Lemma ok_runDriver trace msg req : preserves agent_ok (runDriver driver trace msg req).
Proof. unfold runDriver. cbn zeta. agent_keep. Qed.
#[local] Hint Resolve ok_runDriver : agent.

Lemma ok_executeAssignment resolve trace msg :
  preserves agent_ok (executeAssignment driver resolve trace msg).
Proof. unfold executeAssignment, failEarly. cbn zeta. agent_keep. Qed.

Lemma ok_prepareSnapshot msg : preserves agent_ok (prepareSnapshot driver msg).
Proof. unfold prepareSnapshot, ignoreA. agent_keep. Qed.

Lemma ok_handleCoordinatorMessage resolve trace m :
  preserves agent_ok (handleCoordinatorMessage driver resolve trace m).
Proof.
  destruct m; simpl; try (by apply keeps_ret).
  - apply ok_executeAssignment.
  - agent_keep. apply keeps_modify_ok. intros b []. split; simpl; lia.
  - apply ok_prepareSnapshot.
Qed.

End AgentInvariant.

Lemma firstBytes_prefix n s : ∃ rest, s = firstBytes n s +:+ rest.
Proof.
  revert s. induction n as [|n IH]; intros [|c s]; simpl; try (by eexists).
  destruct (IH s) as [rest Hr]. exists rest. rewrite string_app_cons. by rewrite <- Hr.
Qed.

Lemma firstBytes_length n s : (strLen (firstBytes n s) ≤ Z.of_nat n)%Z.
Proof.
  unfold strLen. revert s. induction n as [|n IH]; intros [|c s]; cbn [firstBytes String.length]; try lia.
  specialize (IH s). lia.
Qed.

(** ** Properties *)

(** A driver whose execution succeeds; [inflight] as in [DriverOutcome]. *)
Definition demo_driver (inflight : bool) : Driver :=
  mkDriver "local" (λ _, mkDriverOutcome (Some (mkExecuteResult 0 "ok" "{}" "")) None [RunTick] inflight)
    None None None.

Definition demo_agent : Agent :=
  NewWithConfig 8 2 1 "h1" "eu" (demo_driver false) {["k/bundle.tgz" := "zip"]}.

Definition demo_exec (env : option (gmap string string)) : ExecutionAssignment :=
  mkExecutionAssignment "a1" "j1" "v1" "sha256:a" "k/bundle.tgz" "index.mjs" env "{}" ["DB_URL"]
    "none" 30 128.

(** The slots an agent reports.  Whatever messages it handles (and whatever
    its other goroutines do, if they respect the bounds), the free slots stay
    between zero and the configured maximum, for ordinary and for full-network
    slots. *)
Theorem agent_slot_bounds (o : MapOrder) driver resolve trace m (a : Agent) :
  (∀ req, Forall (λ ev, match ev with RunOther f => ∀ a, agent_ok a → agent_ok (f a) | _ => True end)
     (do_events (drv_Execute driver req))) →
  (0 ≤ ag_availableSlots a ≤ ag_maxSlots a)%Z →
  (0 ≤ ag_availableFull a ≤ ag_maxFullNetwork a)%Z →
  let a' := (handleCoordinatorMessage driver resolve trace m a).2 in
  (0 ≤ ag_availableSlots a' ≤ ag_maxSlots a')%Z ∧ (0 ≤ ag_availableFull a' ≤ ag_maxFullNetwork a')%Z.
Proof.
  intros Ho H1 H2 a'.
  destruct (ok_handleCoordinatorMessage driver Ho resolve trace m a) as [[H3 H4] _]; [by split|done].
Qed.

Lemma agent_slot_bounds_witness :
  let a' := (@handleCoordinatorMessage list_order (demo_driver false) (λ _, Ok ∅) (λ _, "")
    (MsgAssignment (demo_exec None)) demo_agent).2 in
  (0 ≤ ag_availableSlots a' ≤ ag_maxSlots a')%Z ∧ (0 ≤ ag_availableFull a' ≤ ag_maxFullNetwork a')%Z.
Proof.
  apply (agent_slot_bounds list_order (demo_driver false)).
  - intros req. repeat constructor.
  - vm_compute. split; discriminate.
  - vm_compute. split; discriminate.
Defined.

(** Secrets without environment variables crash the agent.  An assignment
    with no environment variables whose bundle is found and whose secret
    references resolve to at least one secret never gets past the "starting"
    update: the environment map is nil and writing the secret to it panics. *)
Theorem agent_secret_panic (o : MapOrder) driver resolve trace msg (a : Agent) bundle secrets :
  ea_EnvVars msg = None →
  TrimSpace (ea_ArtifactBundleKey msg) ≠ "" →
  TrimSpace (TrimSpace (ea_ArtifactBundleKey msg)) = TrimSpace (ea_ArtifactBundleKey msg) →
  ag_bundleCache a !! TrimSpace (ea_ArtifactBundleKey msg) = Some bundle →
  (∀ req, resolve req = Ok secrets) → secrets ≠ ∅ →
  ∃ a' u, executeAssignment driver resolve trace msg a =
      (Err (plainErr "panic: assignment to entry in nil map"), a') ∧
    ag_sent a' = ag_sent a ++ [MsgAssignmentUpdate u] ∧ au_State u = ASSIGNMENT_STATE_STARTING.
Proof.
  intros He Hk Htrim Hc Hr Hs. unfold executeAssignment. erewrite run_bind by done.
  erewrite run_bind by done. cbn zeta. rewrite bool_decide_eq_false_2 by done.
  destruct (silent_reserve (ea_NetworkPolicy msg) a) as (R1 & R2 & _).
  assert (ag_bundleCache (reserveAssignmentSlots (ea_NetworkPolicy msg) a) = ag_bundleCache a ∧
    ag_sent (reserveAssignmentSlots (ea_NetworkPolicy msg) a) = ag_sent a) as [Rc Rs].
  { unfold reserveAssignmentSlots, reserveSlot.
    destruct (0 <? ag_availableSlots a)%Z; simpl; by destruct (_ && _). }
  erewrite run_bind.
  2:{ eapply run_try. unfold loadBundle. cbn zeta. rewrite Htrim, bool_decide_eq_false_2 by done.
      erewrite run_bind by done. simpl. rewrite Rc, Hc. reflexivity. }
  cbn iota. erewrite run_bind by done. rewrite Hr, He. cbn.
  unfold addSecrets. rewrite bool_decide_eq_false_2 by done.
  erewrite run_bind_err by done. do 2 eexists. split; [reflexivity|]. simpl. rewrite Rs. done.
Qed.

Lemma agent_secret_panic_witness :
  let cached := demo_agent <| ag_bundleCache := {["k/bundle.tgz" := "zip"]} |> in
  ∃ a' u, @executeAssignment list_order (demo_driver false) (λ _, Ok {["DB_URL" := "x"]}) (λ _, "")
      (demo_exec None) cached = (Err (plainErr "panic: assignment to entry in nil map"), a') ∧
    ag_sent a' = ag_sent cached ++ [MsgAssignmentUpdate u] ∧ au_State u = ASSIGNMENT_STATE_STARTING.
Proof.
  intros cached.
  apply (agent_secret_panic list_order (demo_driver false) (λ _, Ok {["DB_URL" := "x"]}) (λ _, "")
    (demo_exec None) cached "zip" {["DB_URL" := "x"]}).
  - reflexivity.
  - vm_compute. discriminate.
  - vm_compute. reflexivity.
  - reflexivity.
  - reflexivity.
  - apply insert_non_empty.
Defined.

(** Result limits.  The logs an agent reports are a prefix of the produced
    logs of at most 8 MiB, the whole of them when they fit; the output is kept
    unchanged up to 32 MiB and dropped beyond; there is a limit error exactly
    when one of them was too large. *)
Theorem result_limits_spec logs output :
  let '(logs', output', err) := enforceExecutionResultLimits logs output in
  (∃ rest, logs = logs' +:+ rest) ∧ (strLen logs' ≤ 8 * 1024 * 1024)%Z ∧
  ((strLen logs ≤ 8 * 1024 * 1024)%Z → logs' = logs) ∧
  output' = (if (strLen output <=? 32 * 1024 * 1024)%Z then output else "") ∧
  (err = None ↔ (strLen logs ≤ 8 * 1024 * 1024)%Z ∧ (strLen output ≤ 32 * 1024 * 1024)%Z).
Proof.
  unfold enforceExecutionResultLimits, maxExecutionLogBytes, maxExecutionOutputBytes.
  change (8 * 1024 * 1024)%Z with 8388608%Z. change (32 * 1024 * 1024)%Z with 33554432%Z.
  destruct (firstBytes_prefix (Z.to_nat 8388608) logs) as [rest Hrest].
  pose proof (firstBytes_length (Z.to_nat 8388608) logs) as Hl'. rewrite Z2Nat.id in Hl' by lia.
  revert Hrest Hl'. generalize (firstBytes (Z.to_nat 8388608) logs) as cut. intros cut Hrest Hl'.
  destruct (Z.ltb_spec 8388608 (strLen logs)) as [Hl|Hl],
    (Z.ltb_spec 33554432 (strLen output)) as [Ho|Ho].
  all: try (rewrite (proj2 (Z.leb_gt (strLen output) 33554432)) by lia).
  all: try (rewrite (proj2 (Z.leb_le (strLen output) 33554432)) by lia).
  all: split_and!; try reflexivity; try lia; try (by exists rest); try (by exists ""; rewrite string_app_nil_r).
  all: simpl; try split; intros; try done; lia.
Qed.
