(* ===== verification/AgentLink.v ===== *)
(** * AgentLink: an agent inside the process of its coordinator

    Composes [NodeAgent] with [Coordinator] the way the embedded stack does:
    [ExecuteEmbeddedAssignment], [PrepareEmbeddedSnapshot] and
    [RunEmbeddedHeartbeatLoop] of [internal/nodeagent/service.go] hand what the
    agent sends directly to [ApplyAssignmentUpdate] and [UpdateEmbeddedHeartbeat]
    of its coordinator, in order, and ignore the errors of an execution's
    messages.  Between two messages the rest of the system may do anything that
    leaves the records of this execution alone.

    [assignmentOutcome] is what an execution means, as a function of the stored
    bundle, the secrets and the driver's result.

    Theorems: what an agent sends in a run ([agent_update_protocol]) and, when
    nothing interferes with its records, that the job ends in the store as the
    driver ended ([embedded_execution_settles]). *)

From stdpp Require Import base decidable tactics numbers list gmap strings relations.
From S2P Require Import Prelude Domain MemStore World Scheduler SchedulerFacts Artifacts Coordinator.
From S2P Require Import CoordinatorInv System CoordinatorFacts Secrets NetworkPool NodeAgent.

(** ** Delivery *)

Section Link.
Context `{!GoEnv} (cid : string).

(** What an embedded agent does with a message: the error is dropped. *)
Definition deliver (m : AgentMessage) : WM unit :=
  match m with
  | MsgRegister _ => mret tt
  | MsgHeartbeat hb => ignore (updateHeartbeatContext cid hb)
  | MsgAssignmentUpdate u => ignore (handleAssignmentUpdate cid u)
  end.

(** The messages in order; [other n] is what the rest of the system does before
    the [n]-th. *)
Fixpoint deliverAll (other : nat → World → World) (n : nat) (ms : list AgentMessage) (w : World) : World :=
  match ms with
  | [] => other n w
  | m :: rest => deliverAll other (S n) rest (deliver m (other n w)).2
  end.

Context (driver : Driver).

(** The result, the agent and the world after an execution. *)
Definition ExecuteEmbeddedAssignment (resolve : ExecutionRequest → result (gmap string string)) (trace : nat → string)
    (msg : ExecutionAssignment) (other : nat → World → World) (a : Agent) (w : World) : result unit * Agent * World :=
  let '(r, a') := executeAssignment driver resolve trace msg (a <| ag_sent := [] |>) in
  (r, a', deliverAll other 0 (ag_sent a') w).

Definition PrepareEmbeddedSnapshot (msg : PrepareSnapshot) (other : nat → World → World) (a : Agent) (w : World) :
    result unit * Agent * World :=
  let '(r, a') := prepareSnapshot driver msg (a <| ag_sent := [] |>) in
  (r, a', deliverAll other 0 (ag_sent a') w).

(** [prepareDriver]: [ensure] is [EnsureBlankWarm] of a driver that has it. *)
Definition prepareDriver (ensure : option (option GoError)) : result unit :=
  match ensure with Some (Some e) => Err e | _ => Ok tt end.

(** A turn of the heartbeat loop: the context ends, or the ticker fires while the
    agent is [a] and after [f] has happened to the world. *)
Inductive Beat := BeatDone (e : GoError) | BeatTick (a : Agent) (f : World → World).

Fixpoint heartbeatTurns (turns : list Beat) (w : World) : option (result unit) * World :=
  match turns with
  | [] => (None, w)
  | BeatDone e :: _ => (Some (Err e), w)
  | BeatTick a f :: rest =>
      let '(r, w') := updateHeartbeatContext cid (heartbeatMessage driver a) (f w) in
      match r with
      | Err e => (Some (Err e), w')
      | Ok _ => heartbeatTurns rest w'
      end
  end.

(** [None] while the loop runs. *)
Definition RunEmbeddedHeartbeatLoop (ensure : option (option GoError)) (turns : list Beat) (w : World) :
    option (result unit) * World :=
  match prepareDriver ensure with
  | Err e => (Some (Err e), w)
  | Ok _ => heartbeatTurns turns w
  end.

End Link.

(** ** What an execution means *)

Inductive Outcome :=
| Succeeds (logs output : string) (exitCode : Z)
| Fails (logs output errMsg : string) (exitCode : Z)
| Panics.

(** The bundle of a key: the agent's copy, or the stored one. *)
Definition bundleOf (key : string) (a : Agent) : result string :=
  let key := TrimSpace key in
  if bool_decide (key = "") then Err (plainErr "artifact bundle key is required") else
  match ag_bundleCache a !! key with
  | Some cached => Ok cached
  | None => (objectGet key (ag_objects a)).1
  end.

(** How the driver's end is reported: with its result when it and its limits are
    fine, as a failure otherwise. *)
Definition driverOutcome (trace : nat → string) (out : DriverOutcome) : Outcome :=
  let logs := match do_result out with Some r => Combine (trace 3) (Combine (xs_PlatformTrace r) (xs_Logs r)) | None => trace 3 end in
  let output := match do_result out with Some r => xs_Output r | None => "" end in
  let code := match do_result out with Some r => xs_ExitCode r | None => 1%Z end in
  let '(kept, limited, limitErr) := enforceExecutionResultLimits logs output in
  match do_err out, limitErr with
  | None, None => Succeeds kept limited code
  | None, Some e => Fails kept limited (Error e) (terminalExitCode code)
  | Some e, _ => Fails kept limited (combineErrorMessages e limitErr) (terminalExitCode code)
  end.

Definition assignmentOutcome (driver : Driver) (resolve : ExecutionRequest → result (gmap string string)) (trace : nat → string)
    (msg : ExecutionAssignment) (a : Agent) : Outcome :=
  let key := TrimSpace (ea_ArtifactBundleKey msg) in
  if bool_decide (key = "") then Fails (trace 0) "" "assignment missing artifact_bundle_key" 1
  else match bundleOf key a with
  | Err e => Fails (trace 1) "" (Error e) 1
  | Ok bundle =>
      match resolve (mkExecutionRequest (ag_hostID a) (ag_region a) (ea_FunctionVersionId msg) (ea_EnvRefs msg)) with
      | Err e => Fails (trace 2) "" (Error e) 1
      | Ok secrets =>
          let env := cloneStringMap (ea_EnvVars msg) in
          if negb (bool_decide (secrets = ∅)) && bool_decide (env = None) then Panics
          else driverOutcome trace (drv_Execute driver (executeRequest msg bundle ((λ m, secrets ∪ m) <$> env) a))
      end
  end.

(** The last update of an execution. *)
Definition lastUpdate (h r : string) (msg : ExecutionAssignment) (o : Outcome) : AssignmentUpdate :=
  let update state logs output errMsg code :=
    mkAssignmentUpdate h r (ea_AttemptId msg) (ea_JobId msg) state logs output errMsg (int32_of code) in
  match o with
  | Succeeds logs output code => update ASSIGNMENT_STATE_SUCCEEDED logs output "" code
  | Fails logs output errMsg code => update ASSIGNMENT_STATE_FAILED logs output errMsg code
  | Panics => update ASSIGNMENT_STATE_STARTING "" "" "" 0%Z
  end.

(** ** What the agent sends *)

(** A method that cannot fail. *)
Definition total {A} (m : AM A) : Prop := ∀ a, ∃ x, (m a).1 = Ok x.

Lemma total_bind {A B} (m : AM A) (f : A → AM B) : total m → (∀ x, total (f x)) → total (m ≫= f).
Proof. intros Hm Hf a. rewrite M_bind_eq. destruct (Hm a) as [x Hx]. destruct (m a) as [[y|e] a']; [apply Hf|done]. Qed.

Lemma total_ret {A} (x : A) : total (mret x).
Proof. intros a. by exists x. Qed.

Lemma total_modify (f : Agent → Agent) : total (modify f).
Proof. intros a. by exists tt. Qed.

Lemma total_gets {A} (f : Agent → A) : total (gets f).
Proof. intros a. by exists (f a). Qed.

Ltac totally :=
  repeat first
    [ apply total_ret | apply total_modify | apply total_gets
    | apply total_bind; [|intros ?]
    | match goal with |- total (match ?x with _ => _ end) => destruct x end ].

Lemma total_emitUpdate msg st l o e c : total (emitUpdate msg st l o e c).
Proof. unfold emitUpdate, send. totally. Qed.

Lemma total_runEvents msg b events : total (runEvents msg b events).
Proof. induction events as [|ev rest IH]; cbn [runEvents]; [totally|]. apply total_bind; [|done]. unfold emitUpdate, send. totally. Qed.

Lemma total_runDriver `{!MapOrder} driver trace msg req : total (runDriver driver trace msg req).
Proof.
  unfold runDriver. cbv zeta. apply total_bind; [apply total_runEvents|]. intros _.
  unfold emitFinal, spawnA, sendHeartbeat, emitUpdate, send. totally.
Qed.

Section Sends.
Context `{!MapOrder} (driver : Driver) (h r : string) (msg : ExecutionAssignment).

(** An update of this execution that is not its last. *)
Definition live (u : AssignmentUpdate) : Prop :=
  au_AttemptId u = ea_AttemptId msg ∧ au_JobId u = ea_JobId msg ∧
  (au_State u = ASSIGNMENT_STATE_STARTING ∨ au_State u = ASSIGNMENT_STATE_RUNNING).

(** Live updates and then [u]. *)
Definition ends (u : AssignmentUpdate) (l : list AssignmentUpdate) : Prop := ∃ mid, l = mid ++ [u] ∧ Forall live mid.

Lemma live_running u : running h r msg u → live u.
Proof. intros (_ & _ & H1 & H2 & H3). split_and!; auto. Qed.

Lemma ends_app l1 u l2 : Forall live l1 → ends u l2 → ends u (l1 ++ l2).
Proof. intros H1 (mid & -> & H2). exists (l1 ++ mid). rewrite <- app_assoc. split; [done|]. by apply Forall_app. Qed.

Lemma emits_exact st logs output err code :
  emits h r (emitUpdate msg st logs output err code)
    (λ _ l, l = [mkAssignmentUpdate h r (ea_AttemptId msg) (ea_JobId msg) st logs output err (int32_of code)]).
Proof.
  intros a H1 H2. simpl. split_and!; [done..|]. eexists. split.
  - unfold updates. rewrite omap_app. simpl. reflexivity.
  - intros x _. by rewrite H1, H2.
Qed.

Lemma emits_finalExact st logs output err code :
  emits h r (emitFinal msg false st logs output err code)
    (λ _ l, l = [mkAssignmentUpdate h r (ea_AttemptId msg) (ea_JobId msg) st logs output err (int32_of code)]).
Proof. eapply emits_bind; [apply emits_exact|]. intros _ l ->. by apply emits_ret. Qed.

(** The updates of a run of the driver. *)
Lemma ends_runDriver trace req :
  Forall event_silent (do_events (drv_Execute driver req)) → do_inflight (drv_Execute driver req) = false →
  emits h r (runDriver driver trace msg req) (λ _ l, ends (lastUpdate h r msg (driverOutcome trace (drv_Execute driver req))) l).
Proof.
  intros Hev Hin. unfold runDriver. cbv zeta.
  eapply emits_bind; [by apply emits_runEvents|]. intros ? l1 Hl1.
  assert (∀ u (m : AM unit), emits h r m (λ _ l, l = [u]) → emits h r m (λ _ l, ends u (l1 ++ l))) as Hpre.
  { intros u m Hm. eapply emits_mono; [exact Hm|]. intros ? l ->. exists l1. split; [done|].
    eapply Forall_impl; [exact Hl1|]. apply live_running. }
  assert (∀ st logs output err code k, emits h r (k : AM unit) (λ _ l, l = []) →
    emits h r (spawnA (GoArchive (ea_JobId msg) (ea_AttemptId msg) logs output) ≫= λ _,
      emitFinal msg (do_inflight (drv_Execute driver req)) st logs output err code ≫= λ _,
      modify (releaseAssignmentSlots (ea_NetworkPolicy msg)) ≫= λ _, k)
      (λ _ l, l = [mkAssignmentUpdate h r (ea_AttemptId msg) (ea_JobId msg) st logs output err (int32_of code)])) as Hend.
  { intros st logs output err code k Hk. apply emits_then; [apply emits_spawn|]. intros _. rewrite Hin.
    eapply emits_bind; [apply emits_finalExact|]. intros _ l ->. apply emits_then; [apply emits_silent, silent_release|]. intros _. eapply emits_mono; [exact Hk|]. by intros ? ? ->. }
  unfold driverOutcome. cbv zeta.
  destruct (do_result (drv_Execute driver req)) as [res|].
  all: destruct (enforceExecutionResultLimits _ _) as [[logs output] limitErr]; apply Hpre.
  all: destruct (do_err (drv_Execute driver req)); [|destruct limitErr]; apply Hend; try apply emits_heartbeat.
  all: apply emits_then; [apply emits_heartbeat|]; intros _; apply emits_spawn.
Qed.

End Sends.

(** *** The execution *)

Lemma run_loadBundle key a :
  ∃ a', loadBundle key a = (bundleOf key a, a') ∧ ag_hostID a' = ag_hostID a ∧ ag_region a' = ag_region a ∧
    updates (ag_sent a') = updates (ag_sent a).
Proof.
  unfold loadBundle, bundleOf. cbv zeta. case_bool_decide; [by eexists|].
  rewrite M_bind_eq. cbn [gets id]. destruct (ag_bundleCache a !! _); [by eexists|].
  rewrite M_bind_eq. unfold lift. destruct (objectGet _ (ag_objects a)).1; by eexists.
Qed.

(** [addSecrets], with its panic. *)
Lemma run_addSecrets env secrets a :
  addSecrets env secrets a =
  if negb (bool_decide (secrets = ∅)) && bool_decide (env = None) then (Err (plainErr "panic: assignment to entry in nil map"), a)
  else (Ok ((λ m, secrets ∪ m) <$> env), a).
Proof.
  unfold addSecrets. case_bool_decide as Es; cbn [negb andb].
  - subst. destruct env; cbn; [by rewrite (left_id_L ∅ (∪))|done].
  - by destruct env.
Qed.

Lemma executeRequest_same msg bundle env a b :
  ag_hostID a = ag_hostID b → ag_region a = ag_region b → executeRequest msg bundle env a = executeRequest msg bundle env b.
Proof. unfold executeRequest. by intros -> ->. Qed.

Lemma driverOutcome_ends trace out : driverOutcome trace out ≠ Panics.
Proof. unfold driverOutcome. cbv zeta. destruct (enforceExecutionResultLimits _ _) as [[] []]; by destruct (do_err out). Qed.

Section Execution.
Context `{!MapOrder} (driver : Driver) (resolve : ExecutionRequest → result (gmap string string)) (trace : nat → string)
  (msg : ExecutionAssignment).
Context (Hev : ∀ req, Forall event_silent (do_events (drv_Execute driver req))).
Context (Hin : ∀ req, do_inflight (drv_Execute driver req) = false).

(** After a reservation and the first update. *)
Definition begun (a : Agent) : Agent :=
  (emitUpdate msg ASSIGNMENT_STATE_STARTING "" "" "" 0 (reserveAssignmentSlots (ea_NetworkPolicy msg) a)).2.

Lemma begun_same a :
  ag_hostID (begun a) = ag_hostID a ∧ ag_region (begun a) = ag_region a ∧ ag_bundleCache (begun a) = ag_bundleCache a ∧
  ag_objects (begun a) = ag_objects a ∧
  updates (ag_sent (begun a)) = updates (ag_sent a) ++ [lastUpdate (ag_hostID a) (ag_region a) msg Panics].
Proof.
  assert (∀ b, ag_hostID b = ag_hostID a → ag_region b = ag_region a → ag_bundleCache b = ag_bundleCache a →
    ag_objects b = ag_objects a → ag_sent b = ag_sent a →
    let b' := (emitUpdate msg ASSIGNMENT_STATE_STARTING "" "" "" 0 b).2 in
    ag_hostID b' = ag_hostID a ∧ ag_region b' = ag_region a ∧ ag_bundleCache b' = ag_bundleCache a ∧ ag_objects b' = ag_objects a ∧
    updates (ag_sent b') = updates (ag_sent a) ++ [lastUpdate (ag_hostID a) (ag_region a) msg Panics]) as Hb.
  { intros b E1 E2 E3 E4 E5. split_and!; [done..|]. rewrite <- E5.
    destruct (emits_exact (ag_hostID a) (ag_region a) msg ASSIGNMENT_STATE_STARTING "" "" "" 0%Z b E1 E2) as (_ & _ & l & -> & Hl).
    by rewrite (Hl tt eq_refl). }
  unfold begun, reserveAssignmentSlots, reserveSlot. destruct (0 <? ag_availableSlots a)%Z; cbv zeta; destruct (_ && _); by apply Hb.
Qed.

(** The execution from there. *)
Definition proceed (key : string) : AM unit :=
  if bool_decide (key = "") then failEarly msg (trace 0) "assignment missing artifact_bundle_key"
  else
    bundle ← try (loadBundle key);
    match bundle with
    | Err e => failEarly msg (trace 1) (Error e)
    | Ok bundle =>
        a ← gets id;
        match resolve (mkExecutionRequest (ag_hostID a) (ag_region a) (ea_FunctionVersionId msg) (ea_EnvRefs msg)) with
        | Err e => failEarly msg (trace 2) (Error e)
        | Ok secrets =>
            env ← addSecrets (cloneStringMap (ea_EnvVars msg)) secrets;
            emitUpdate msg ASSIGNMENT_STATE_RUNNING "" "" "" 0 ≫= λ _,
            runDriver driver trace msg (executeRequest msg bundle env a)
        end
    end.

Lemma execute_begun a : executeAssignment driver resolve trace msg a = proceed (TrimSpace (ea_ArtifactBundleKey msg)) (begun a).
Proof. reflexivity. Qed.

(** A part of an execution that does not panic and ends with [u]. *)
Definition concludes (h r : string) (m : AM unit) (u : AssignmentUpdate) : Prop := ∀ a,
  ag_hostID a = h → ag_region a = r →
  (m a).1 = Ok tt ∧ ∃ l, updates (ag_sent (m a).2) = updates (ag_sent a) ++ l ∧ ends msg u l.

Lemma concludes_of h r m u : total m → emits h r m (λ _ l, ends msg u l) → concludes h r m u.
Proof.
  intros Ht Hm a H1 H2. destruct (Ht a) as [[] Hx]. destruct (Hm a H1 H2) as (_ & _ & l & Hl & HQ). split; [done|]. eauto.
Qed.

Lemma concludes_failEarly h r logs err : concludes h r (failEarly msg logs err) (lastUpdate h r msg (Fails logs "" err 1)).
Proof.
  apply concludes_of; [unfold failEarly, emitUpdate, send; totally|].
  eapply emits_bind; [apply emits_exact|]. intros _ l ->.
  eapply emits_mono; [apply emits_silent, silent_release|]. intros _ l ->. by exists [].
Qed.

Lemma concludes_driver h r req :
  concludes h r (emitUpdate msg ASSIGNMENT_STATE_RUNNING "" "" "" 0 ≫= λ _, runDriver driver trace msg req)
    (lastUpdate h r msg (driverOutcome trace (drv_Execute driver req))).
Proof.
  apply concludes_of; [apply total_bind; [apply total_emitUpdate|intros _; apply total_runDriver]|].
  eapply emits_bind; [apply emits_exact|]. intros _ l ->.
  eapply emits_mono; [by apply ends_runDriver|]. intros ? l Hl. apply ends_app; [|done].
  apply Forall_singleton. split_and!; auto.
Qed.




(** The agent does what [assignmentOutcome] says: it panics or not, and the last
    update it sends is the one of the outcome, after live updates only. *)
Lemma execution_refines a :
  let o := assignmentOutcome driver resolve trace msg a in
  let '(res, a') := executeAssignment driver resolve trace msg a in
  (o ≠ Panics ↔ res = Ok tt) ∧
  ∃ l, updates (ag_sent a') = updates (ag_sent a) ++ l ∧ ends msg (lastUpdate (ag_hostID a) (ag_region a) msg o) l.
Proof.
  cbv zeta. rewrite execute_begun. destruct (begun_same a) as (Hh & Hr & Hc & Ho & Hs).
  assert (live msg (lastUpdate (ag_hostID a) (ag_region a) msg Panics)) as Hlive by (split_and!; auto).
  assert (∀ m o b, concludes (ag_hostID a) (ag_region a) m (lastUpdate (ag_hostID a) (ag_region a) msg o) →
    ag_hostID b = ag_hostID a → ag_region b = ag_region a → updates (ag_sent b) = updates (ag_sent (begun a)) → o ≠ Panics →
    let '(res, a') := m b in (o ≠ Panics ↔ res = Ok tt) ∧
    ∃ l, updates (ag_sent a') = updates (ag_sent a) ++ l ∧ ends msg (lastUpdate (ag_hostID a) (ag_region a) msg o) l) as Hdone.
  { intros m o b Hm H1 H2 H3 Ho'. destruct (Hm b H1 H2) as [Hx (l & Hl & He)]. destruct (m b) as [res a']. cbn in *.
    split; [done|]. eexists. split; [by rewrite Hl, H3, Hs, <- app_assoc|]. apply ends_app; [by apply Forall_singleton|done]. }
  unfold proceed, assignmentOutcome. cbv zeta. case_bool_decide as Ek.
  { by apply Hdone; [apply concludes_failEarly|..]. }
  destruct (run_loadBundle (TrimSpace (ea_ArtifactBundleKey msg)) (begun a)) as (b & Eb & Hh' & Hr' & Hs').
  rewrite M_bind_eq. unfold try. rewrite Eb.
  assert (bundleOf (TrimSpace (ea_ArtifactBundleKey msg)) (begun a) = bundleOf (TrimSpace (ea_ArtifactBundleKey msg)) a) as ->
    by (unfold bundleOf; by rewrite Hc, Ho).
  destruct (bundleOf _ a) as [bundle|e].
  2:{ apply Hdone; [apply concludes_failEarly|congruence..]. }
  rewrite M_bind_eq. cbn [gets id]. rewrite Hh', Hr', Hh, Hr.
  destruct (resolve _) as [secrets|e]; [|by apply Hdone; [apply concludes_failEarly|congruence..]].
  rewrite M_bind_eq, run_addSecrets. destruct (negb _ && _).
  { split; [split; [done|discriminate]|]. exists [lastUpdate (ag_hostID a) (ag_region a) msg Panics].
    split; [by rewrite Hs', Hs|]. by exists []. }
  rewrite (executeRequest_same _ _ _ b a) by congruence.
  apply Hdone; [apply concludes_driver|congruence..|]. apply driverOutcome_ends.
Qed.

End Execution.

(** ** What the coordinator makes of it *)

Section Delivered.
Context (E : GoEnv) (Hq : quiet E) (cid aid jid : string).

(** The attempt and the job are stored, the coordinator handles their updates, and
    [again] says whether a failure is followed by a retry. *)
Definition attached (again : bool) (w : World) : Prop :=
  aid ∉ c_directInvokes (coordOf w cid) ∧
  ∃ att job, st_attempts (w_store w) !! aid = Some att ∧ att_ID att = aid ∧
    st_executionJobs (w_store w) !! jid = Some job ∧ job_ID job = jid ∧
    is_Some (st_functions (w_store w) !! job_FunctionVersionID job) ∧ is_Some (st_projects (w_store w) !! job_ProjectID job) ∧
    again = (job_AttemptCount job <=? job_MaxRetries job)%Z && c_retry (coordOf w cid).

(** The records of the execution are left alone. *)
Definition undisturbed (w w' : World) : Prop :=
  st_attempts (w_store w') !! aid = st_attempts (w_store w) !! aid ∧
  st_executionJobs (w_store w') !! jid = st_executionJobs (w_store w) !! jid ∧
  st_costRecords (w_store w') !! aid = st_costRecords (w_store w) !! aid ∧
  (∀ k, is_Some (st_functions (w_store w) !! k) → is_Some (st_functions (w_store w') !! k)) ∧
  (∀ k, is_Some (st_projects (w_store w) !! k) → is_Some (st_projects (w_store w') !! k)) ∧
  (aid ∈ c_directInvokes (coordOf w' cid) ↔ aid ∈ c_directInvokes (coordOf w cid)) ∧
  c_retry (coordOf w' cid) = c_retry (coordOf w cid).

#[export] Instance undisturbed_preorder : PreOrder undisturbed.
Proof.
  split; [by intros w|]. intros w1 w2 w3 (A1 & A2 & A3 & A4 & A5 & A6 & A7) (B1 & B2 & B3 & B4 & B5 & B6 & B7).
  split_and!; try congruence; [auto|auto|]. by rewrite B6.
Qed.

Lemma attached_undisturbed again w w' : undisturbed w w' → attached again w → attached again w'.
Proof.
  intros (H1 & H2 & _ & H4 & H5 & H6 & H7) (Hd & att & job & Ha & Hai & Hj & Hji & Hf & Hp & Hg).
  split; [by rewrite H6|]. exists att, job. rewrite H1, H2, H7. split_and!; auto.
Qed.

(** A store operation that leaves attempts, jobs, costs, functions and projects
    alone. *)
Definition elsewhere {A} (op : StoreM A) : Prop := ∀ s,
  st_attempts (op s).2 = st_attempts s ∧ st_executionJobs (op s).2 = st_executionJobs s ∧
  st_costRecords (op s).2 = st_costRecords s ∧ st_functions (op s).2 = st_functions s ∧ st_projects (op s).2 = st_projects s.

Lemma undisturbed_call {A} (op : StoreM A) w0 : elsewhere op → preserves (undisturbed w0) (call op).
Proof.
  intros Ho w Hw. rewrite (call_ok _ _ Hq). split; [|done]. cbn [snd]. etrans; [exact Hw|].
  destruct (Ho (w_store w)) as (H1 & H2 & H3 & H4 & H5). split_and!; try done; cbn; by rewrite ?H1, ?H2, ?H3, ?H4, ?H5.
Qed.

Lemma undisturbed_persistRegion w0 : preserves (undisturbed w0) (persistRegion cid).
Proof.
  unfold persistRegion, persistRegionLocked. eapply (keeps_bind _ _ _ (λ _, True)); [by intros ? ?|]. intros c _.
  eapply (keeps_bind _ _ _ (λ _, True)); [case_match; [by intros ? ?|by apply keeps_ret]|]. intros t _.
  by apply undisturbed_call.
Qed.

(** A heartbeat. *)
Lemma undisturbed_heartbeat hb w : undisturbed w (updateHeartbeatContext cid hb w).2.
Proof.
  unfold updateHeartbeatContext. erewrite run_bind by done. destruct (c_hosts (coordOf w cid) !! hb_HostId hb) as [session|]; [|done].
  erewrite run_bind by done. cbv zeta. erewrite run_bind by done.
  match goal with |- undisturbed w (_ ?w1).2 => assert (undisturbed w w1) as Hw1 end.
  { split_and!; try done; by rewrite coordOf_put. }
  revert Hw1. match goal with |- undisturbed w ?w1 → undisturbed w (?m ?w1).2 =>
    intros Hw1; assert (preserves (undisturbed w) m) as Hm; [|by apply Hm] end.
  eapply (keeps_bind _ _ _ (λ _, True)); [by apply undisturbed_call|]. intros _ _.
  eapply (keeps_bind _ _ _ (λ _, True)); [by intros ? ?|]. intros t _.
  eapply (keeps_bind _ _ _ (λ _, True)); [by apply undisturbed_call|]. intros _ _.
  apply undisturbed_persistRegion.
Qed.

(** The result a job keeps of an update. *)
Definition carries (u : AssignmentUpdate) (job : ExecutionJob) : Prop :=
  ∃ res, job_Result job = Some res ∧ jr_ExitCode res = au_ExitCode u ∧ jr_Logs res = au_Logs u ∧ jr_Output res = au_OutputJson u ∧
    jr_HostID res = au_HostId u ∧ jr_Region res = au_Region u.

(** Attempt and job as an update leaves them. *)
Definition reflects (u : AssignmentUpdate) (again : bool) (w : World) : Prop :=
  ∃ att job, st_attempts (w_store w) !! aid = Some att ∧ st_executionJobs (w_store w) !! jid = Some job ∧
    match au_State u with
    | ASSIGNMENT_STATE_UNSPECIFIED => True
    | ASSIGNMENT_STATE_STARTING => att_State att = AttemptStateStarting ∧ job_State job = JobStateAssigned
    | ASSIGNMENT_STATE_RUNNING => att_State att = AttemptStateRunning ∧ job_State job = JobStateRunning
    | ASSIGNMENT_STATE_SUCCEEDED =>
        att_State att = AttemptStateSucceeded ∧ job_State job = JobStateSucceeded ∧ job_Error job = "" ∧ carries u job ∧
        is_Some (st_costRecords (w_store w) !! aid)
    | ASSIGNMENT_STATE_FAILED =>
        att_State att = AttemptStateFailed ∧ att_Error att = au_ErrorMessage u ∧ job_Error job = au_ErrorMessage u ∧
        job_State job = (if again then JobStateRetrying else JobStateFailed) ∧ carries u job ∧
        is_Some (st_costRecords (w_store w) !! aid)
    end.

Lemma reflects_undisturbed u again w w' : undisturbed w w' → reflects u again w → reflects u again w'.
Proof.
  intros (H1 & H2 & H3 & _) (att & job & Ha & Hj & Hu). exists att, job. rewrite H1, H2. split_and!; [done|done|].
  by rewrite H3.
Qed.

(** Starting a goroutine. *)
Lemma undisturbed_spawn g w : undisturbed w (spawn cid g w).2.
Proof.
  unfold spawn. erewrite run_bind by done. unfold setC, modify. cbn [snd].
  split_and!; try done; by rewrite coordOf_put.
Qed.

(** One update of the execution. *)
Lemma deliver_update u again w :
  au_AttemptId u = aid → au_JobId u = jid → attached again w →
  attached again (handleAssignmentUpdate cid u w).2 ∧ reflects u again (handleAssignmentUpdate cid u w).2.
Proof.
  intros Hua Huj (Hd & att & job & Ha & Hai & Hj & Hji & [v Hv] & [p Hp] & Hg).
  destruct (run_update E Hq cid u w att job) as (t & w1 & att' & job' & Eu & Es & Ec & Eh); [by rewrite ?Hua, ?Huj..|].
  rewrite Eh. clear Eh.
  assert (Eid : att_ID att' = aid ∧ job_ID job' = jid ∧ job_FunctionVersionID job' = job_FunctionVersionID job ∧
    job_ProjectID job' = job_ProjectID job ∧ job_AttemptCount job' = job_AttemptCount job ∧ job_MaxRetries job' = job_MaxRetries job).
  { unfold applyUpdate in Eu. destruct (au_State u); injection Eu as <- <-; by split_and!. }
  destruct Eid as (Eai & Eji & Efv & Epr & Ect & Emx). rewrite Eai, Eji in Es.
  pose proof (coordOf_coords cid w w1 Ec) as Eco.
  assert (Hat : ∀ w2, w_coords w2 = w_coords w1 → st_attempts (w_store w2) = st_attempts (w_store w1) →
    st_executionJobs (w_store w2) = st_executionJobs (w_store w1) → st_functions (w_store w2) = st_functions (w_store w1) →
    st_projects (w_store w2) = st_projects (w_store w1) → attached again w2).
  { intros w2 C2 A2 J2 F2 P2. unfold attached. rewrite (coordOf_coords cid w1 w2 C2), Eco, A2, J2, F2, P2, Es. cbn.
    split; [done|]. exists att', job'. rewrite !lookup_insert_eq, Efv, Epr, Ect, Emx, Hv, Hp. split_and!; eauto. }
  assert (Hre : ∀ w2, st_attempts (w_store w2) = st_attempts (w_store w1) → st_executionJobs (w_store w2) = st_executionJobs (w_store w1) →
    (terminalUpdate u = true → is_Some (st_costRecords (w_store w2) !! aid)) → reflects u again w2).
  { intros w2 A2 J2 C2. exists att', job'. rewrite A2, J2, Es. cbn. rewrite !lookup_insert_eq. split_and!; [done|done|].
    rewrite Hg. unfold applyUpdate in Eu. unfold terminalUpdate in C2. destruct (au_State u); injection Eu as <- <-; cbn; try done.
    all: split_and!; try done; [by eexists|by apply C2]. }
  destruct (terminalUpdate u) eqn:Et.
  - assert (∃ res, job_Result job' = Some res) as [res Hres].
    { unfold applyUpdate, terminalUpdate in *. destruct (au_State u); try done; injection Eu as <- <-; by eexists. }
    destruct (run_recordCost E Hq att' job' res v p w1) as (t' & w2 & Er & Ec' & Es'); [done|by rewrite Efv, Es|by rewrite Epr, Es|].
    rewrite (run_bind _ _ _ _ _ Er).
    assert (attached again w2 ∧ reflects u again w2) as [Hw2 Hr2].
    { split; [by apply Hat; rewrite ?Es'|]. apply Hre; [by rewrite Es'|by rewrite Es'|]. intros _. rewrite Es'. cbn.
      rewrite Eai, lookup_insert_eq. by eexists. }
    destruct (bool_decide (au_State u = _) && _); [|by split]. split; [eapply attached_undisturbed|eapply reflects_undisturbed]; eauto using undisturbed_spawn.
  - assert (bool_decide (au_State u = ASSIGNMENT_STATE_FAILED) = false) as ->.
    { apply bool_decide_eq_false_2. intros Hf. unfold terminalUpdate in Et. by rewrite Hf in Et. }
    cbn. split; [by apply Hat|by apply Hre].
Qed.

Context (other : nat → World → World) (Hother : ∀ n w, undisturbed w (other n w)).

(** Messages without an update of this execution. *)
Lemma deliver_silent ms n w : updates ms = [] → undisturbed w (deliverAll cid other n ms w).
Proof.
  revert n w. induction ms as [|m rest IH]; intros n w Hu; cbn [deliverAll]; [apply Hother|].
  etrans; [apply (Hother n)|]. destruct m as [reg|hb|u]; [by apply IH| |done]. etrans; [|by apply IH].
  unfold deliver, ignore. rewrite M_bind_eq. unfold try. pose proof (undisturbed_heartbeat hb (other n w)) as Hh.
  destruct (updateHeartbeatContext cid hb (other n w)) as [[] w']; exact Hh.
Qed.

Lemma deliver_same u w : (deliver cid (MsgAssignmentUpdate u) w).2 = (handleAssignmentUpdate cid u w).2.
Proof. unfold deliver, ignore. rewrite M_bind_eq. unfold try. by destruct (handleAssignmentUpdate cid u w). Qed.

(** All messages of an execution: its last update is what is stored. *)
Lemma deliver_all msg u ms n again w :
  aid = ea_AttemptId msg → jid = ea_JobId msg → ends msg u (updates ms) → au_AttemptId u = aid → au_JobId u = jid →
  attached again w → reflects u again (deliverAll cid other n ms w).
Proof.
  intros Ea Ej. revert n w. induction ms as [|m rest IH]; intros n w (mid & Hms & Hmid) Hua Huj Hw; [by destruct mid|].
  cbn [deliverAll]. pose proof (attached_undisturbed _ _ _ (Hother n w) Hw) as Hw1.
  destruct m as [reg|hb|v].
  - apply IH; [by exists mid|done..].
  - apply IH; [by exists mid|done..|]. unfold deliver, ignore. rewrite M_bind_eq. unfold try.
    pose proof (undisturbed_heartbeat hb (other n w)) as Hh.
    destruct (updateHeartbeatContext cid hb (other n w)) as [[] w']; by eapply attached_undisturbed.
  - rewrite deliver_same. cbn in Hms. destruct mid as [|x mid]; injection Hms as -> Hms.
    + destruct (deliver_update u again (other n w) Hua Huj Hw1) as [_ Hr].
      eapply reflects_undisturbed; [|exact Hr]. by apply deliver_silent.
    + apply Forall_cons in Hmid as [(Hx1 & Hx2 & _) Hmid]. destruct (deliver_update x again (other n w)) as [Hw2 _]; [congruence..|done|].
      apply IH; [by exists mid|done..].
Qed.

End Delivered.



(** C2: an undisturbed execution ends in the store as it ended on the host.  An
    agent in the process of its coordinator runs an assignment of a stored attempt
    and job that nobody waits for.  The store has no faults and no other writers
    during a handler ([quiet]); between the agent's messages the rest of the
    system does what it likes except to the records of this execution
    ([undisturbed]); the driver's events send no message, the driver returns, and
    no running heartbeat is in flight when it does.  Then: the job succeeds, with
    exactly the driver's exit code, output and (traced) logs and with a cost
    record, when the bundle and the secrets were found and the driver returned
    without error and within the limits; in every other case but one it fails
    with the error's text, to be retried exactly when attempts are left and the
    coordinator has a retryer.  The exception is an execution with secrets but no
    variables, on which the agent panics: attempt and job stay as the first update
    left them.  Each condition is needed: an update that is still in flight, the
    scheduler's late write of the job ([System.lost_success]) or a repeated update
    make the stored job end otherwise. *)
Theorem embedded_execution_settles (E : GoEnv) (cid : string) (driver : Driver)
    (resolve : ExecutionRequest → result (gmap string string)) (trace : nat → string) (msg : ExecutionAssignment)
    (other : nat → World → World) (a : Agent) (w : World) (again : bool)
    (Hq : quiet E)
    (Hev : ∀ req, Forall event_silent (do_events (drv_Execute driver req)))
    (Hin : ∀ req, do_inflight (drv_Execute driver req) = false)
    (Hother : ∀ n w, undisturbed cid (ea_AttemptId msg) (ea_JobId msg) w (other n w))
    (Hw : attached cid (ea_AttemptId msg) (ea_JobId msg) again w) :
  let o := assignmentOutcome driver resolve trace msg a in
  let '(res, a', w') := ExecuteEmbeddedAssignment cid driver resolve trace msg other a w in
  (o ≠ Panics ↔ res = Ok tt) ∧
  ∃ att job, st_attempts (w_store w') !! ea_AttemptId msg = Some att ∧ st_executionJobs (w_store w') !! ea_JobId msg = Some job ∧
    let kept logs output code :=
      is_Some (st_costRecords (w_store w') !! ea_AttemptId msg) ∧
      ∃ jr, job_Result job = Some jr ∧ jr_ExitCode jr = int32_of code ∧ jr_Logs jr = logs ∧ jr_Output jr = output ∧
        jr_HostID jr = ag_hostID a ∧ jr_Region jr = ag_region a in
    match o with
    | Succeeds logs output code =>
        att_State att = AttemptStateSucceeded ∧ job_State job = JobStateSucceeded ∧ job_Error job = "" ∧ kept logs output code
    | Fails logs output errMsg code =>
        att_State att = AttemptStateFailed ∧ att_Error att = errMsg ∧ job_Error job = errMsg ∧
        job_State job = (if again then JobStateRetrying else JobStateFailed) ∧ kept logs output code
    | Panics => att_State att = AttemptStateStarting ∧ job_State job = JobStateAssigned
    end.
Proof.
  cbv zeta. unfold ExecuteEmbeddedAssignment.
  pose proof (execution_refines driver resolve trace msg Hev Hin (a <| ag_sent := [] |>)) as Hr. cbv zeta in Hr.
  change (assignmentOutcome driver resolve trace msg (a <| ag_sent := [] |>)) with (assignmentOutcome driver resolve trace msg a) in Hr.
  destruct (executeAssignment driver resolve trace msg (a <| ag_sent := [] |>)) as [res a'].
  destruct Hr as [Hp (l & Hl & He)]. split; [exact Hp|]. change (updates (ag_sent a') = l) in Hl. subst l.
  assert (reflects (ea_AttemptId msg) (ea_JobId msg) (lastUpdate (ag_hostID a) (ag_region a) msg (assignmentOutcome driver resolve trace msg a))
    again (deliverAll cid other 0 (ag_sent a') w)) as (att & job & Ha & Hj & Hu).
  { eapply deliver_all; [exact Hq|exact Hother|reflexivity|reflexivity|exact He|by destruct (assignmentOutcome driver resolve trace msg a)..|exact Hw]. }
  exists att, job. split_and!; [done|done|].
  destruct (assignmentOutcome driver resolve trace msg a); cbn in Hu; [| |done].
  - destruct Hu as (H1 & H2 & H3 & (jr & H4 & H5) & H6). split_and!; [done..|exact H6|]. by exists jr.
  - destruct Hu as (H1 & H2 & H3 & H3' & (jr & H4 & H5) & H6). split_and!; [done..|exact H6|]. by exists jr.
Qed.

(** A driver that answers every request, after one heartbeat. *)
Definition echo_driver : Driver :=
  mkDriver "echo" (λ req, mkDriverOutcome (Some (mkExecuteResult 0 "hello" (xr_Payload req) "")) None [RunTick] false) None None None.

Definition echo_agent : Agent :=
  NewWithConfig 2 2 1 "h1" "eu" echo_driver {["k/bundle.tgz" := "bundle"]}.

Definition echo_assignment : ExecutionAssignment := wireAssignment demo_assignment.

Lemma embedded_execution_settles_witness :
  let '(res, a', w') := @ExecuteEmbeddedAssignment demo_env "eu" echo_driver (λ _, Ok ∅) (λ _, "") echo_assignment (λ _ w, w)
    echo_agent (running_world running_job) in
  res = Ok tt ∧ ∃ job, st_executionJobs (w_store w') !! "j1" = Some job ∧ job_State job = JobStateSucceeded ∧
    jr_Output <$> job_Result job = Some "{}".
Proof.
  pose proof (embedded_execution_settles demo_env "eu" echo_driver (λ _, Ok ∅) (λ _, "") echo_assignment (λ _ w, w) echo_agent
    (running_world running_job) true demo_quiet) as H.
  destruct (@ExecuteEmbeddedAssignment demo_env _ _ _ _ _ _ _ _) as [[res a'] w'].
  destruct H as [H1 (att & job & _ & Hj & H2)].
  - intros req. repeat constructor.
  - reflexivity.
  - intros n w. reflexivity.
  - split; [vm_compute; intros H; discriminate H|]. do 2 eexists. split_and!; try reflexivity; vm_compute; by eexists.
  - split; [apply H1; vm_compute; discriminate|]. exists job.
    match type of H2 with context [assignmentOutcome ?d ?r ?t ?m ?a] =>
      let o := eval vm_compute in (assignmentOutcome d r t m a) in change (assignmentOutcome d r t m a) with o in H2 end.
    destruct H2 as (_ & H3 & _ & _ & jr & H4 & _ & _ & H5 & _). rewrite H4. cbn. rewrite H5. split_and!; [exact Hj|exact H3|reflexivity].
Defined.

(** ** The heartbeat loop *)

(** The loop goes on exactly while its heartbeats are accepted: it has ended when
    the driver cannot be prepared, when its context ends, or at the first
    heartbeat the coordinator refuses, which it does when the host is not (or no
    longer) registered. *)
Lemma heartbeat_loop_turn (E : GoEnv) cid driver ensure a f rest w :
  prepareDriver ensure = Ok tt →
  (c_hosts (coordOf (f w) cid) !! ag_hostID a = None →
   RunEmbeddedHeartbeatLoop cid driver ensure (BeatTick a f :: rest) w =
   (Some (Err (plainErr ("heartbeat for unknown host " +:+ ag_hostID a))), f w)) ∧
  (∀ w', updateHeartbeatContext cid (heartbeatMessage driver a) (f w) = (Ok tt, w') →
   RunEmbeddedHeartbeatLoop cid driver ensure (BeatTick a f :: rest) w = RunEmbeddedHeartbeatLoop cid driver ensure rest w').
Proof.
  intros Hp. unfold RunEmbeddedHeartbeatLoop. rewrite Hp. cbn [heartbeatTurns]. split.
  - intros Hn. unfold updateHeartbeatContext. erewrite run_bind by done.
    change (hb_HostId (heartbeatMessage driver a)) with (ag_hostID a). by rewrite Hn.
  - by intros w' ->.
Qed.

(** ** [Run]: an agent with a connection of its own *)

(** The goroutines of a running agent. *)
Inductive AgentTask := TaskHeartbeats | TaskExecute (msg : ExecutionAssignment) | TaskPrepare (msg : PrepareSnapshot).

(** What the next receive returns, after other goroutines have worked on the
    agent. *)
Record Received := mkReceived { rv_other : Agent → Agent; rv_msg : result CoordinatorMessage }.

Section Run.
Context `{!MapOrder} (driver : Driver).

(** The loop's case for one message. *)
Definition runMessage (m : CoordinatorMessage) (a : Agent) : Agent * list AgentTask :=
  match m with
  | MsgRegistered _ | MsgTerminate _ _ _ => (a, [])
  | MsgAssignment msg => (a, [TaskExecute msg])
  | MsgPrepare msg => (a, [TaskPrepare msg])
  | MsgDrain _ _ => ((sendHeartbeat driver (applyDrain a)).2, [])
  end.

(** The error that ends the loop ([None] while it waits), the agent, and the
    goroutines started. *)
Fixpoint receiveLoop (l : list Received) (a : Agent) : option GoError * Agent * list AgentTask :=
  match l with
  | [] => (None, a, [])
  | x :: rest =>
      match rv_msg x with
      | Err e => (Some e, rv_other x a, [])
      | Ok m =>
          let '(a1, tasks) := runMessage m (rv_other x a) in
          let '(e, a2, more) := receiveLoop rest a1 in
          (e, a2, tasks ++ more)
      end
  end.

(** [dial], [control] and [register]: the errors of connecting, of opening the
    stream and of sending the registration. *)
Definition Run (ensure : option (option GoError)) (dial control register : option GoError) (l : list Received) (a : Agent) :
    option GoError * Agent * list AgentTask :=
  match prepareDriver ensure with
  | Err e => (Some e, a, [])
  | Ok _ =>
      match dial, control, register with
      | Some e, _, _ | None, Some e, _ | None, None, Some e => (Some e, a, [])
      | None, None, None =>
          let '(e, a', tasks) := receiveLoop l (send (MsgRegister (registrationMessage driver a)) a).2 in
          (e, a', TaskHeartbeats :: tasks)
      end
  end.

(** The goroutine a message asks for. *)
Definition taskOf (m : CoordinatorMessage) : option AgentTask :=
  match m with MsgAssignment msg => Some (TaskExecute msg) | MsgPrepare msg => Some (TaskPrepare msg) | _ => None end.

(** The loop starts one goroutine for every assignment and every preparation that
    was received before the first error, in their order, and ends with that
    error. *)
Lemma receiveLoop_tasks l a :
  match receiveLoop l a with
  | (None, _, tasks) => ∃ ms, rv_msg <$> l = Ok <$> ms ∧ tasks = omap taskOf ms
  | (Some e, _, tasks) => ∃ ms x rest, l = firstn (length ms) l ++ x :: rest ∧ rv_msg x = Err e ∧
      rv_msg <$> firstn (length ms) l = Ok <$> ms ∧ tasks = omap taskOf ms
  end.
Proof.
  revert a. induction l as [|x rest IH]; intros a; cbn [receiveLoop]; [by exists []|].
  destruct (rv_msg x) as [m|e] eqn:Em; [|by exists [], x, rest].
  destruct (runMessage m (rv_other x a)) as [a1 tasks] eqn:Er. specialize (IH a1).
  assert (∀ ms, tasks ++ omap taskOf ms = omap taskOf (m :: ms)) as Ht by (intros ms; by destruct m; injection Er as <- <-).
  destruct (receiveLoop rest a1) as [[[e|] a2] more].
  - destruct IH as (ms & y & after & Hl & Hy & Hms & ->). exists (m :: ms), y, after. cbn [length firstn app fmap list_fmap].
    rewrite <- Hl, Em, Hms. split_and!; [done|done|done|apply Ht].
  - destruct IH as (ms & Hms & ->). exists (m :: ms). cbn [fmap list_fmap]. rewrite Em, Hms. split; [done|apply Ht].
Qed.

(** A drain leaves nothing to reserve, and the coordinator is told at once. *)
Lemma drain_reported hostID reason a :
  let '(a', tasks) := runMessage (MsgDrain hostID reason) a in
  tasks = [] ∧ ag_availableSlots a' = 0%Z ∧ ag_availableFull a' = 0%Z ∧
  ag_sent a' = ag_sent a ++ [MsgHeartbeat (heartbeatMessage driver (applyDrain a))].
Proof. by split_and!. Qed.

End Run.
