(* ===== verification/GuestScripts.v ===== *)
(** * GuestScripts: the programs the guest runtime starts

    The texts of [wrapperScript] ([internal/runtime/nodeexec/execute.go]) and
    [preparedWorkerScript] ([internal/runtime/nodeexec/worker.go]), byte for byte:
    the Node.js programs that call a function's handler once, and for every
    request on a socket. *)

From stdpp Require Import strings.

Definition wrapperScript : string := "import fs from 'node:fs/promises';
import fsSync from 'node:fs';
import path from 'node:path';
import { pathToFileURL } from 'node:url';

const [payloadPath, entrypointPath, resultPath] = process.argv.slice(2);
const payload = JSON.parse(await fs.readFile(payloadPath, 'utf8'));
const context = JSON.parse(process.env.LECREV_CONTEXT ?? '{}');
const streamFdRaw = process.env.LECREV_STREAM_FD ?? '';
const streamKind = process.env.LECREV_STREAM_KIND ?? '';
const mod = await import(pathToFileURL(path.resolve(entrypointPath)).href);
if (typeof mod.handler !== 'function') {
  throw new Error('entrypoint must export an async handler(event, context)');
}
function createHttpStream() {
  if (streamKind !== 'http' || streamFdRaw === '') {
    return null;
  }
  const streamFd = Number.parseInt(streamFdRaw, 10);
  if (!Number.isFinite(streamFd)) {
    return null;
  }
  let started = false;
  let ended = false;
  const emit = (event) => {
    fsSync.writeSync(streamFd, JSON.stringify(event) + '\n');
  };
  const normalizeChunk = (chunk) => {
    if (chunk == null) {
      return Buffer.alloc(0);
    }
    if (typeof chunk === 'string') {
      return Buffer.from(chunk);
    }
    if (chunk instanceof Uint8Array) {
      return Buffer.from(chunk);
    }
    if (ArrayBuffer.isView(chunk)) {
      return Buffer.from(chunk.buffer, chunk.byteOffset, chunk.byteLength);
    }
    if (chunk instanceof ArrayBuffer) {
      return Buffer.from(chunk);
    }
    return Buffer.from(String(chunk));
  };
  return {
    get active() {
      return started;
    },
    get closed() {
      return ended;
    },
    async start(init = {}) {
      if (ended) {
        throw new Error('http stream is already closed');
      }
      if (started) {
        return;
      }
      started = true;
      emit({
        type: 'http_start',
        statusCode: Number.isInteger(init?.statusCode) ? init.statusCode : 200,
        headers: init?.headers ?? {},
      });
    },
    async write(chunk) {
      if (!started) {
        await this.start();
      }
      if (ended) {
        throw new Error('http stream is already closed');
      }
      const buffer = normalizeChunk(chunk);
      if (buffer.length === 0) {
        return;
      }
      emit({
        type: 'http_chunk',
        chunk: buffer.toString('base64'),
      });
    },
    async end(chunk) {
      if (ended) {
        return;
      }
      if (chunk !== undefined) {
        await this.write(chunk);
      } else if (!started) {
        await this.start();
      }
      emit({ type: 'http_end' });
      ended = true;
    },
  };
}
async function maybeAutoStreamStructuredHttpResult(stream, result) {
  if (!stream || stream.active || stream.closed) {
    return result;
  }
  if (!result || typeof result !== 'object' || !Number.isInteger(result.statusCode)) {
    return result;
  }
  if (typeof result.body !== 'string') {
    return result;
  }
  const bodyBuffer = result.isBase64Encoded === true
    ? Buffer.from(result.body, 'base64')
    : Buffer.from(result.body);
  const autoStreamThreshold = 64 * 1024;
  if (bodyBuffer.length < autoStreamThreshold) {
    return result;
  }
  await stream.start({
    statusCode: result.statusCode,
    headers: result.headers ?? {},
  });
  const chunkSize = 32 * 1024;
  for (let offset = 0; offset < bodyBuffer.length; offset += chunkSize) {
    await stream.write(bodyBuffer.subarray(offset, offset + chunkSize));
  }
  await stream.end();
  return {
    ...result,
    headers: result.headers ?? {},
    body: '',
    isBase64Encoded: false,
  };
}
const stream = createHttpStream();
const handlerContext = stream ? { ...context, stream } : context;
const rawResult = await mod.handler(payload, handlerContext);
const result = await maybeAutoStreamStructuredHttpResult(stream, rawResult);
if (stream?.active && !stream.closed) {
  await stream.end();
}
await fs.writeFile(resultPath, JSON.stringify(result ?? null));
".

Definition preparedWorkerScript : string := "import fs from 'node:fs';
import net from 'node:net';
import path from 'node:path';
import util from 'node:util';
import { pathToFileURL } from 'node:url';

const [socketPath, entrypointPath] = process.argv.slice(2);
try {
  fs.rmSync(socketPath, { force: true });
} catch {}

const mod = await import(pathToFileURL(path.resolve(entrypointPath)).href);
if (typeof mod.handler !== 'function') {
  throw new Error('entrypoint must export an async handler(event, context)');
}

function formatValue(value) {
  return typeof value === 'string'
    ? value
    : util.inspect(value, { depth: 6, colors: false, breakLength: Infinity });
}

let activeLogs = null;

function appendLog(text) {
  if (!activeLogs) {
    return;
  }
  activeLogs.push(text);
}

for (const method of ['log', 'info', 'warn', 'error', 'debug']) {
  console[method] = (...args) => {
    appendLog(args.map(formatValue).join(' ') + '\n');
  };
}

for (const stream of [process.stdout, process.stderr]) {
  stream.write = ((original) => (chunk, encoding, callback) => {
    const text = Buffer.isBuffer(chunk)
      ? chunk.toString(typeof encoding === 'string' ? encoding : undefined)
      : String(chunk ?? '');
    appendLog(text);
    if (typeof encoding === 'function') {
      encoding();
    }
    if (typeof callback === 'function') {
      callback();
    }
    return true;
  })(stream.write.bind(stream));
}

function applyEnv(overrides) {
  const previous = new Map();
  for (const [key, value] of Object.entries(overrides ?? {})) {
    previous.set(key, Object.prototype.hasOwnProperty.call(process.env, key) ? process.env[key] : undefined);
    process.env[key] = String(value);
  }
  return () => {
    for (const [key, value] of previous.entries()) {
      if (value === undefined) {
        delete process.env[key];
      } else {
        process.env[key] = value;
      }
    }
  };
}

function handleRequest(socket, protocolWrite, request) {
  const emit = (value) => {
    protocolWrite(JSON.stringify(value) + '\n');
  };
  const createHttpStream = () => {
    if (!request.enableStreaming || request.streamKind !== 'http') {
      return null;
    }
    let started = false;
    let ended = false;
    const normalizeChunk = (chunk) => {
      if (chunk == null) {
        return Buffer.alloc(0);
      }
      if (typeof chunk === 'string') {
        return Buffer.from(chunk);
      }
      if (chunk instanceof Uint8Array) {
        return Buffer.from(chunk);
      }
      if (ArrayBuffer.isView(chunk)) {
        return Buffer.from(chunk.buffer, chunk.byteOffset, chunk.byteLength);
      }
      if (chunk instanceof ArrayBuffer) {
        return Buffer.from(chunk);
      }
      return Buffer.from(String(chunk));
    };
    return {
      get active() {
        return started;
      },
      get closed() {
        return ended;
      },
      async start(init = {}) {
        if (ended) {
          throw new Error('http stream is already closed');
        }
        if (started) {
          return;
        }
        started = true;
        emit({
          type: 'http_event',
          httpEvent: {
            type: 'http_start',
            statusCode: Number.isInteger(init?.statusCode) ? init.statusCode : 200,
            headers: init?.headers ?? {},
          },
        });
      },
      async write(chunk) {
        if (!started) {
          await this.start();
        }
        if (ended) {
          throw new Error('http stream is already closed');
        }
        const buffer = normalizeChunk(chunk);
        if (buffer.length === 0) {
          return;
        }
        emit({
          type: 'http_event',
          httpEvent: {
            type: 'http_chunk',
            chunk: buffer.toString('base64'),
          },
        });
      },
      async end(chunk) {
        if (ended) {
          return;
        }
        if (chunk !== undefined) {
          await this.write(chunk);
        } else if (!started) {
          await this.start();
        }
        emit({
          type: 'http_event',
          httpEvent: {
            type: 'http_end',
          },
        });
        ended = true;
      },
    };
  };
  const maybeAutoStreamStructuredHttpResult = async (stream, result) => {
    if (!stream || stream.active || stream.closed) {
      return result;
    }
    if (!result || typeof result !== 'object' || !Number.isInteger(result.statusCode)) {
      return result;
    }
    if (typeof result.body !== 'string') {
      return result;
    }
    const bodyBuffer = result.isBase64Encoded === true
      ? Buffer.from(result.body, 'base64')
      : Buffer.from(result.body);
    const autoStreamThreshold = 64 * 1024;
    if (bodyBuffer.length < autoStreamThreshold) {
      return result;
    }
    await stream.start({
      statusCode: result.statusCode,
      headers: result.headers ?? {},
    });
    const chunkSize = 32 * 1024;
    for (let offset = 0; offset < bodyBuffer.length; offset += chunkSize) {
      await stream.write(bodyBuffer.subarray(offset, offset + chunkSize));
    }
    await stream.end();
    return {
      ...result,
      headers: result.headers ?? {},
      body: '',
      isBase64Encoded: false,
    };
  };

  if (request.type === 'ping') {
    emit({ type: 'ready', ready: true });
    return false;
  }
  if (request.type === 'shutdown') {
    emit({ type: 'ready', ready: false });
    server.close(() => process.exit(0));
    return true;
  }
  if (request.type !== 'invoke') {
    emit({ type: 'result', error: 'unsupported prepared worker request' });
    return false;
  }

  const logs = [];
  const previousLogs = activeLogs;
  activeLogs = logs;
  const hasEnvOverrides = request.env && Object.keys(request.env).length > 0;
  const restoreEnv = hasEnvOverrides ? applyEnv(request.env) : null;
  const stream = createHttpStream();
  const context = stream ? { ...(request.context ?? {}), stream } : (request.context ?? {});

  return Promise.resolve()
    .then(() => mod.handler(request.payload ?? null, context))
    .then((output) => {
      return maybeAutoStreamStructuredHttpResult(stream, output);
    })
    .then((output) => {
      if (stream?.active && !stream.closed) {
        return stream.end().then(() => output);
      }
      return output;
    })
    .then((output) => {
      emit({ type: 'result', output: output ?? null, logs: logs.join('') });
      return false;
    })
    .catch((error) => {
      emit({ type: 'result', error: error?.stack ?? String(error), logs: logs.join('') });
      return false;
    })
    .finally(() => {
      activeLogs = previousLogs;
      if (restoreEnv) {
        restoreEnv();
      }
    });
}

const server = net.createServer({ allowHalfOpen: true }, (socket) => {
  let raw = '';
  let processing = Promise.resolve(false);
  const protocolWrite = socket.write.bind(socket);
  socket.setEncoding('utf8');

  function enqueue(rawRequest) {
    processing = processing.then(async (shouldClose) => {
      if (shouldClose) {
        return true;
      }
      let request;
      try {
        request = rawRequest.trim() === '' ? { type: 'ping' } : JSON.parse(rawRequest);
      } catch (error) {
        protocolWrite(JSON.stringify({ error: error?.stack ?? String(error) }) + '\n');
        return false;
      }
      return await handleRequest(socket, protocolWrite, request);
    });
  }

  socket.on('data', (chunk) => {
    raw += chunk;
    for (;;) {
      const newlineIndex = raw.indexOf('\n');
      if (newlineIndex === -1) {
        return;
      }
      const requestRaw = raw.slice(0, newlineIndex);
      raw = raw.slice(newlineIndex + 1);
      enqueue(requestRaw);
    }
  });

  socket.on('end', () => {
    if (raw.trim() !== '') {
      enqueue(raw);
      raw = '';
    }
  });
});

server.listen(socketPath);
".
