(* ===== verification/NodeExec.v ===== *)
(** * NodeExec: the guest runtime

    Models [internal/runtime/nodeexec] (execute.go, worker.go): running a
    function once in a Node.js process, and running it on a prepared worker, a
    process that is kept and reached through a Unix socket.

    The Node.js processes are parameters ([NodeTools]): what a run leaves and
    reports, what a worker answers on a connection.  [ne_sent] records the
    messages a worker has received, [ne_events] the events of streamed responses
    passed to the caller's sink.  [time_Since] is the measured duration of a
    step.  Requests to one worker run under the mutex of its
    controller, one after the other. *)

From Stdlib Require Import Ascii.
From stdpp Require Import base decidable tactics numbers list gmap strings.
From S2P Require Import Prelude Text Domain MemStore World Scheduler Artifacts Files Archive NodeAgent GuestScripts.

(** ** Requests and results *)

Record WorkspaceRequest := mkWorkspaceRequest {
  wr_AttemptID : string;
  wr_JobID : string;
  wr_FunctionID : string;
  wr_Workspace : string;
  wr_Entrypoint : string;
  wr_Payload : string;
  wr_Env : gmap string string;
  wr_Timeout : Duration;
  wr_Region : string;
  wr_HostID : string;
  wr_NodeBinary : string;
  wr_HTTPStream : option (nat → HTTPStreamEvent → option GoError);
}.

(** The start and finish times are left out. *)
Record NodeResult := mkNodeResult {
  nr_ExitCode : Z;
  nr_Logs : string;
  nr_Output : string;
  nr_PlatformTrace : string;
}.

Record workerContext := mkWorkerContext {
  wc_attemptId : string;
  wc_jobId : string;
  wc_functionId : string;
  wc_region : string;
  wc_hostId : string;
}.

Record preparedWorkerMessage := mkWorkerMessage {
  pm_Type : string;
  pm_Payload : string;
  pm_Context : option workerContext;
  pm_Env : gmap string string;
  pm_EnableStreaming : bool;
  pm_StreamKind : string;
}.

Record preparedWorkerResponse := mkWorkerResponse {
  pr_Type : string;
  pr_Ready : bool;
  pr_Logs : string;
  pr_Output : string;
  pr_Error : string;
  pr_HTTPEvent : option HTTPStreamEvent;
}.

(** ** The outside *)

(** A request on a connection: it cannot be sent, or these responses can be
    decoded, in order, before an error. *)
Inductive Exchange :=
| SendFails (e : GoError)
| Answers (responses : list preparedWorkerResponse) (e : GoError).

(** A finished process: its output, the events on its stream with the error that
    ended their decoding, whether its time was over, the error of [Wait] with its
    exit code, and the file system it leaves. *)
Record RunOutcome := mkRunOutcome {
  ro_Stdout : string;
  ro_Stderr : string;
  ro_Events : list HTTPStreamEvent;
  ro_StreamErr : option GoError;
  ro_TimedOut : bool;
  ro_Err : option (option Z * GoError);
  ro_Tree : Tree;
}.

Record NodeState := mkNodeState {
  ne_tree : Tree;
  ne_workers : gmap string bool;
  ne_sent : list (string * preparedWorkerMessage);
  ne_events : list HTTPStreamEvent;
  ne_step : nat;
}.

#[export] Instance NodeState_rebuild : Rebuild NodeState :=
  λ r, mkNodeState (ne_tree r) (ne_workers r) (ne_sent r) (ne_events r) (ne_step r).

(** Interactions with the outside are numbered.  [node_Run] gets the binary, the
    arguments, the directory and the added environment, and so does [node_Start],
    for a process that is left running; [node_Stderr] is what it has printed.
    [node_SocketPath] is [preparedWorkerSocketPath], a file name with the start of
    the SHA-256 of the function's ID. *)
Class NodeTools := {
  node_archives :: Archives;
  node_Run : nat → string → list string → string → list string → Tree → result RunOutcome;
  node_Start : nat → string → list string → string → list string → result unit;
  node_Stderr : nat → string;
  node_Dial : nat → result unit;
  node_Exchange : nat → string → preparedWorkerMessage → Exchange;
  node_MkdirTemp : nat → Tree → result (string * Tree);
  node_Pipe : nat → result unit;
  node_TempDir : string;
  node_SocketPath : string → string;
  json_MarshalContext : workerContext → result string;
  duration_String : Duration → string;
  time_Since : string → Duration;
}.

Abbreviation NM := (M NodeState).

(** The next interaction. *)
Definition interact {A} (f : nat → A) : NM A := λ s, (Ok (f (ne_step s)), s <| ne_step := S (ne_step s) |>).

Definition onFiles {A} (m : M Tree A) : NM A := λ s,
  let '(r, t) := m (ne_tree s) in (r, s <| ne_tree := t |>).

(** [os.MkdirTemp] for the body, with [defer os.RemoveAll] of the directory. *)
Definition withTempDir `{!NodeTools} {A} (failed : GoError → A) (body : string → NM A) : NM A :=
  made ← (λ s, (Ok (node_MkdirTemp (ne_step s) (ne_tree s)), s <| ne_step := S (ne_step s) |>));
  match made with
  | Err e => mret (failed e)
  | Ok (dir, t) =>
      modify (λ s, s <| ne_tree := t |>) ≫= λ _,
      a ← body dir;
      try (onFiles (RemoveAll (comps dir))) ≫= λ _, mret a
  end.

(** ** Traces *)

(** [timetrace.sanitize] *)
Definition sanitizeStep (step : string) : string :=
  let step := TrimSpace step in
  if bool_decide (step = "") then "unknown"
  else string_map (λ a, if byte_eqb a 32 then ascii_of_N 95 else a) step.

(** [Recorder.Add]: the line of a step. *)
Definition traceLine (step : string) (elapsed : Duration) (details : list string) : string :=
  foldl (λ line detail, let detail := TrimSpace detail in
                        if bool_decide (detail = "") then line else line +:+ " " +:+ detail)
    ("[platform] step=" +:+ sanitizeStep step +:+ " durationMs=" +:+ itoa (Z.max 0 (Milliseconds elapsed))) details.

(** [Recorder.String] *)
Definition traceString (lines : list string) : string := TrimSpace (Join lines newline).

(** The text of a recorder with these steps. *)
Definition trace_Text `{!NodeTools} (steps : list string) : string :=
  traceString ((λ step, traceLine step (time_Since step) []) <$> steps).

(** ** Environment and files *)

Definition compileCacheSubdir : string := ".lecrev/compile-cache".

(** Added to the environment of the process. *)
Definition commandEnv `{!MapOrder} (env : gmap string string) (contextJSON compileCacheDir : string)
    (enableHTTPStream : bool) : list string :=
  ["LECREV_CONTEXT=" +:+ contextJSON] ++
  (if blank compileCacheDir then [] else ["NODE_COMPILE_CACHE=" +:+ compileCacheDir]) ++
  (if enableHTTPStream then ["LECREV_STREAM_FD=3"; "LECREV_STREAM_KIND=http"] else []) ++
  ((λ kv, kv.1 +:+ "=" +:+ kv.2) <$> map_iter 328 env).

Definition preparedWorkerEnv `{!MapOrder} (env : gmap string string) (compileCacheDir : string) : list string :=
  (if blank compileCacheDir then [] else ["NODE_COMPILE_CACHE=" +:+ compileCacheDir]) ++
  ((λ kv, kv.1 +:+ "=" +:+ kv.2) <$> map_iter 502 env).

Definition ensureCompileCacheDir (workspace fallbackBase : string) : M Tree string :=
  let primary := JoinPath workspace compileCacheSubdir in
  made ← try (MkdirAll (comps primary));
  match made with
  | Ok _ => mret primary
  | Err _ =>
      let fallback := JoinPath fallbackBase "compile-cache" in
      MkdirAll (comps fallback) ≫= λ _, mret fallback
  end.

Definition sanitizeID (input : string) : string :=
  if bool_decide (input = "") then "unknown" else sanitizeRunes input.

Definition PrepareWorkspace `{!Archives} (artifactBundle workspace : string) : M Tree unit :=
  MkdirAll (comps workspace) ≫= λ _, ExtractTarGz artifactBundle workspace.

(** ** Prepared workers *)

Definition workerUnavailable (text : string) : GoError := wrapErr ErrPreparedWorkerUnavailable (": " +:+ text).

Definition invocationContext (req : WorkspaceRequest) : workerContext :=
  mkWorkerContext (wr_AttemptID req) (wr_JobID req) (wr_FunctionID req) (wr_Region req) (wr_HostID req).

Definition normalizedWorkerOutput (output : string) : string :=
  if bool_decide (output = "") then "null" else output.

(** [json.RawMessage(`null`)] for an empty payload. *)
Definition payloadOf (req : WorkspaceRequest) : string :=
  if bool_decide (wr_Payload req = "") then "null" else wr_Payload req.

Section Workers.
Context `{!NodeTools}.

(** The controllers of the prepared workers by function; the value tells whether
    the connection of the controller is open. *)
Definition setConnection (functionID : string) (open : bool) : NM unit :=
  modify (λ s, s <| ne_workers := <[functionID := open]> (ne_workers s) |>).

Definition openConnection (functionID : string) : NM unit :=
  open ← gets (λ s, default false (ne_workers s !! functionID));
  if open : bool then mret tt
  else
    dialed ← interact node_Dial;
    match dialed with
    | Err e => fail (workerUnavailable ("dial prepared worker: " +:+ Error e))
    | Ok _ => setConnection functionID true
    end.

(** Sending: what can be read afterwards. *)
Definition sendRequest (functionID : string) (request : preparedWorkerMessage) :
    NM (list preparedWorkerResponse * GoError) :=
  open ← gets (λ s, default false (ne_workers s !! functionID));
  if negb open then fail (workerUnavailable "prepared worker control connection is not ready")
  else
    exchange ← interact (λ n, node_Exchange n functionID request);
    match exchange with
    | SendFails e =>
        setConnection functionID false ≫= λ _,
        fail (workerUnavailable ("send prepared worker request: " +:+ Error e))
    | Answers responses e =>
        modify (λ s, s <| ne_sent := ne_sent s ++ [(functionID, request)] |>) ≫= λ _,
        mret (responses, e)
    end.

Definition readFailed {A} (functionID : string) (e : GoError) : NM A :=
  setConnection functionID false ≫= λ _,
  fail (workerUnavailable ("read prepared worker response: " +:+ Error e)).

Definition request (functionID : string) (message : preparedWorkerMessage) : NM preparedWorkerResponse :=
  '(responses, e) ← sendRequest functionID message;
  match responses with
  | [] => readFailed functionID e
  | response :: _ => mret response
  end.

(** Passing an event to the sink. *)
Definition sinkEvent (sink : option (nat → HTTPStreamEvent → option GoError)) (event : HTTPStreamEvent) : NM unit :=
  match sink with
  | None => mret tt
  | Some sink =>
      n ← gets (λ s, length (ne_events s));
      modify (λ s, s <| ne_events := ne_events s ++ [event] |>) ≫= λ _,
      match sink n event with Some e => fail e | None => mret tt end
  end.

(** The loop of [requestStream]. *)
Fixpoint streamResponses (functionID : string) (sink : option (nat → HTTPStreamEvent → option GoError))
    (e : GoError) (responses : list preparedWorkerResponse) : NM preparedWorkerResponse :=
  match responses with
  | [] => readFailed functionID e
  | response :: rest =>
      if bool_decide (pr_Type response = "http_event") then
        (match pr_HTTPEvent response with Some event => sinkEvent sink event | None => mret tt end) ≫= λ _,
        streamResponses functionID sink e rest
      else mret response
  end.

Definition requestStream (functionID : string) (message : preparedWorkerMessage)
    (sink : option (nat → HTTPStreamEvent → option GoError)) : NM preparedWorkerResponse :=
  '(responses, e) ← sendRequest functionID message;
  streamResponses functionID sink e responses.

(** [preparedWorkerRequest] and [preparedWorkerStreamingRequest]: one attempt,
    and after an error a second one on a new connection. *)
Definition withRetry (functionID : string) (attempt : NM preparedWorkerResponse) : NM preparedWorkerResponse :=
  if blank functionID then fail (workerUnavailable "functionID is required")
  else
    found ← gets (λ s, bool_decide (is_Some (ne_workers s !! functionID)));
    if negb found then fail (workerUnavailable "missing prepared worker controller")
    else
      first ← try attempt;
      match first with
      | Ok response => mret response
      | Err e =>
          setConnection functionID false ≫= λ _,
          reconnected ← try (openConnection functionID);
          second ← match reconnected with Ok _ => try attempt | Err _ => mret (Err e) end;
          match second with
          | Ok response => mret response
          | Err e => modify (λ s, s <| ne_workers := delete functionID (ne_workers s) |>) ≫= λ _, fail e
          end
      end.

Definition preparedWorkerRequest (functionID : string) (message : preparedWorkerMessage) : NM preparedWorkerResponse :=
  withRetry functionID (request functionID message).

Definition preparedWorkerStreamingRequest (functionID : string) (message : preparedWorkerMessage)
    (sink : option (nat → HTTPStreamEvent → option GoError)) : NM preparedWorkerResponse :=
  withRetry functionID (requestStream functionID message sink).

Definition controlMessage (kind : string) : preparedWorkerMessage := mkWorkerMessage kind "" None ∅ false "".

Definition invokeMessage (req : WorkspaceRequest) (streaming : bool) : preparedWorkerMessage :=
  mkWorkerMessage "invoke" (payloadOf req) (Some (invocationContext req)) (wr_Env req) streaming "http".

Definition ReleasePreparedWorkerConnection (functionID : string) : NM unit :=
  found ← gets (λ s, bool_decide (is_Some (ne_workers s !! functionID)));
  if found : bool then setConnection functionID false else mret tt.

Definition ShutdownPreparedWorker (functionID : string) : NM unit :=
  response ← try (preparedWorkerRequest functionID (controlMessage "shutdown"));
  modify (λ s, s <| ne_workers := delete functionID (ne_workers s) |>) ≫= λ _,
  match response with
  | Err e => if errors_Is e ErrPreparedWorkerUnavailable then mret tt else fail e
  | Ok response => if bool_decide (pr_Error response = "") then mret tt else fail (plainErr (pr_Error response))
  end.

Definition pingPreparedWorker (functionID : string) : NM bool :=
  response ← preparedWorkerRequest functionID (controlMessage "ping");
  mret (pr_Ready response).

(** A result, an error, or both. *)
Definition workerResult (response : result preparedWorkerResponse) : option NodeResult * option GoError :=
  match response with
  | Err e => (None, Some e)
  | Ok response =>
      let failed := negb (bool_decide (pr_Error response = "")) in
      (Some (mkNodeResult (if failed then 1 else 0) (TrimSpace (pr_Logs response))
               (normalizedWorkerOutput (pr_Output response))
               (trace_Text ["build_context"; "prepared_worker_invoke"])),
       if failed then Some (plainErr (pr_Error response)) else None)
  end.

Definition ExecutePreparedWorkerStream (req : WorkspaceRequest) : NM (option NodeResult * option GoError) :=
  response ← try (preparedWorkerStreamingRequest (wr_FunctionID req) (invokeMessage req true) (wr_HTTPStream req));
  mret (workerResult response).

Definition ExecutePreparedWorker (req : WorkspaceRequest) : NM (option NodeResult * option GoError) :=
  match wr_HTTPStream req with
  | Some _ => ExecutePreparedWorkerStream req
  | None =>
      response ← try (preparedWorkerRequest (wr_FunctionID req) (invokeMessage req false));
      mret (workerResult response)
  end.

(** What ends the wait between two attempts to reach a new worker. *)
Inductive ConnectEvent :=
| ConnTick
| ConnDone (e : GoError)
| ConnExited (e : option GoError).

(** [connectPreparedWorker]; when the list of events is over, so is the startup
    time. *)
Fixpoint connectPreparedWorker (functionID : string) (events : list ConnectEvent) : NM unit :=
  opened ← try (openConnection functionID);
  ready ← match opened with
          | Err _ => mret false
          | Ok _ =>
              pong ← try (request functionID (controlMessage "ping"));
              match pong with
              | Ok response => if pr_Ready response then mret true
                               else setConnection functionID false ≫= λ _, mret false
              | Err _ => setConnection functionID false ≫= λ _, mret false
              end
          end;
  if ready : bool then mret tt
  else match events with
       | [] => fail (sentinel ContextDeadlineExceeded)
       | ConnDone e :: _ => fail e
       | ConnExited None :: _ => fail (workerUnavailable "prepared worker exited before becoming ready")
       | ConnExited (Some e) :: _ => fail (workerUnavailable ("prepared worker exited: " +:+ Error e))
       | ConnTick :: rest => connectPreparedWorker functionID rest
       end.

(** [StartPreparedWorker].  The new controller is filed when it is connected; a
    controller that fails leaves no entry, as [ShutdownPreparedWorker] has
    removed the one before it. *)
Definition StartPreparedWorker `{!MapOrder} (req : WorkspaceRequest) (events : list ConnectEvent) : NM unit :=
  let functionID := wr_FunctionID req in
  if blank functionID then fail (plainErr "functionID is required")
  else if blank (wr_Workspace req) then fail (plainErr "workspace is required")
  else if blank (wr_Entrypoint req) then fail (plainErr "entrypoint is required")
  else
    let nodeBinary := if bool_decide (wr_NodeBinary req = "") then "node" else wr_NodeBinary req in
    let entrypoint := JoinPath (wr_Workspace req) (wr_Entrypoint req) in
    stat ← gets (λ s, Stat (comps entrypoint) (ne_tree s));
    match stat with
    | Err e => fail (wrapText ("entrypoint " +:+ wr_Entrypoint req +:+ ": ") e "")
    | Ok _ =>
        let workerScriptPath := JoinPath (wr_Workspace req) "__lecrev_worker.mjs" in
        onFiles (WriteFile (comps workerScriptPath) preparedWorkerScript) ≫= λ _,
        try (ShutdownPreparedWorker functionID) ≫= λ _,
        compileCacheDir ← onFiles (ensureCompileCacheDir (wr_Workspace req)
          (JoinPath node_TempDir ("lecrev-worker-cache/" +:+ sanitizeID functionID)));
        started ← interact (λ n, node_Start n nodeBinary
          [workerScriptPath; node_SocketPath functionID; entrypoint] node_TempDir
          (preparedWorkerEnv (wr_Env req) compileCacheDir));
        lift started ≫= λ _,
        connected ← try (connectPreparedWorker functionID events);
        match connected with
        | Ok _ => mret tt
        | Err e =>
            modify (λ s, s <| ne_workers := delete functionID (ne_workers s) |>) ≫= λ _,
            stderr ← interact node_Stderr;
            let logs := TrimSpace stderr in
            fail (wrapText "start prepared worker: " e (if bool_decide (logs = "") then "" else "; logs: " +:+ logs))
        end
    end.

(** ** One process per run *)

(** The sink's side of a stream: the events until it refuses one, or the error
    that ended their decoding. *)
Fixpoint consumeExecutionStream (sink : option (nat → HTTPStreamEvent → option GoError))
    (streamErr : option GoError) (events : list HTTPStreamEvent) : NM unit :=
  match events with
  | [] => match streamErr with Some e => fail e | None => mret tt end
  | event :: rest => sinkEvent sink event ≫= λ _, consumeExecutionStream sink streamErr rest
  end.

Definition exitCode (err : option (option Z * GoError)) : Z :=
  match err with
  | None => 0
  | Some (Some code, _) => code
  | Some (None, _) => 1
  end.

Definition executionLogs (stdout stderr : string) : string :=
  TrimSpace (Join ((if bool_decide (stdout = "") then [] else [TrimSpace stdout]) ++
                   (if bool_decide (stderr = "") then [] else [TrimSpace stderr])) newline).

Definition runSteps : list string :=
  ["prepare_scratch_dir"; "write_payload"; "write_wrapper"; "prepare_compile_cache"; "resolve_entrypoint";
   "build_context"; "node_run"].

(** [ExecuteWorkspace] once the process has ended. *)
Definition runResult (req : WorkspaceRequest) (resultPath : Path) (run : RunOutcome) :
    NM (option NodeResult * option GoError) :=
  streamErr ← match wr_HTTPStream req with
              | None => mret (Ok tt)
              | Some sink => try (consumeExecutionStream (Some sink) (ro_StreamErr run) (ro_Events run))
              end;
  let logs := executionLogs (ro_Stdout run) (ro_Stderr run) in
  let ended code e := (Some (mkNodeResult code logs "" (trace_Text runSteps)), Some e) in
  if ro_TimedOut run then
    mret (ended (-1)%Z (plainErr ("execution timed out after " +:+ duration_String (wr_Timeout req))))
  else match streamErr with
  | Err e => mret (ended (exitCode (ro_Err run)) e)
  | Ok _ =>
      match ro_Err run with
      | Some (_, e) => mret (ended (exitCode (ro_Err run)) e)
      | None =>
          output ← gets (λ s, ReadFile resultPath (ne_tree s));
          mret (match output with
                | Err e => (None, Some (wrapText "read result: " e ""))
                | Ok output => (Some (mkNodeResult 0 logs output (trace_Text (runSteps ++ ["read_result"]))), None)
                end)
      end
  end.

Definition ExecuteWorkspace `{!MapOrder} (req : WorkspaceRequest) : NM (option NodeResult * option GoError) :=
  let orErr {A} (m : NM A) (k : A → NM (option NodeResult * option GoError)) :=
    r ← try m; match r with Err e => mret (None, Some e) | Ok a => k a end in
  withTempDir (λ e, (None, Some e)) (λ scratchDir,
  let payloadPath := JoinPath scratchDir "__lecrev_payload.json" in
  let resultPath := JoinPath scratchDir "__lecrev_result.json" in
  let wrapperPath := JoinPath scratchDir "__lecrev_invoke.mjs" in
  orErr (onFiles (WriteFile (comps payloadPath) (payloadOf req))) (λ _,
  orErr (onFiles (WriteFile (comps wrapperPath) wrapperScript)) (λ _,
  let nodeBinary := if bool_decide (wr_NodeBinary req = "") then "node" else wr_NodeBinary req in
  orErr (onFiles (ensureCompileCacheDir (wr_Workspace req) scratchDir)) (λ compileCacheDir,
  let entrypoint := JoinPath (wr_Workspace req) (wr_Entrypoint req) in
  stat ← gets (λ s, Stat (comps entrypoint) (ne_tree s));
  match stat with
  | Err e => mret (None, Some (wrapText ("entrypoint " +:+ wr_Entrypoint req +:+ ": ") e ""))
  | Ok _ =>
      orErr (lift (json_MarshalContext (invocationContext req))) (λ contextJSON,
      let streaming := bool_decide (is_Some (wr_HTTPStream req)) in
      orErr (if streaming then piped ← interact node_Pipe; lift piped else mret tt) (λ _,
      orErr (t ← gets ne_tree;
             run ← interact (λ n, node_Run n nodeBinary [wrapperPath; payloadPath; entrypoint; resultPath]
               (wr_Workspace req) (commandEnv (wr_Env req) contextJSON compileCacheDir streaming) t);
             run ← lift run;
             modify (λ s, s <| ne_tree := ro_Tree run |>) ≫= λ _, mret run) (λ run,
      runResult req (comps resultPath) run)))
  end)))).

(** [ExecuteBundle]; [workspace] is filled in. *)
Definition ExecuteBundle `{!MapOrder} (req : WorkspaceRequest) (artifactBundle : string) :
    NM (option NodeResult * option GoError) :=
  withTempDir (λ e, (None, Some e)) (λ workspace,
  prepared ← try (onFiles (PrepareWorkspace artifactBundle workspace));
  match prepared with
  | Err e => mret (None, Some e)
  | Ok _ =>
      '(result, err) ← ExecuteWorkspace (mkWorkspaceRequest (wr_AttemptID req) (wr_JobID req)
         (wr_FunctionID req) workspace (wr_Entrypoint req) (wr_Payload req) (wr_Env req) (wr_Timeout req)
         (wr_Region req) (wr_HostID req) (wr_NodeBinary req) (wr_HTTPStream req));
      mret ((λ r, mkNodeResult (nr_ExitCode r) (nr_Logs r) (nr_Output r)
                    (Combine (trace_Text ["prepare_workspace"; "execute_workspace"]) (nr_PlatformTrace r))) <$> result, err)
  end).

End Workers.

(** ** The local driver

    Models [internal/firecracker/localnode/driver.go]: the driver that runs
    functions in processes of the host. *)

Record LocalDriver := mkLocalDriver { ld_blankWarm : Z; ld_functionWarm : gmap string Z }.

Definition NewLocalDriver : LocalDriver := mkLocalDriver 1 ∅.

Definition LocalWarmInventory (d : LocalDriver) : WarmInventory :=
  mkWarmInventory (ld_blankWarm d) (ld_functionWarm d).

Definition WarmInventoryForSlots (d : LocalDriver) (freeSlots : Z) : WarmInventory :=
  let base := LocalWarmInventory d in
  if (freeSlots <=? 0)%Z then mkWarmInventory 0 ((λ _, 0%Z) <$> wi_FunctionWarm base)
  else mkWarmInventory (if (0 <? wi_BlankWarm base)%Z then freeSlots else wi_BlankWarm base)
         ((λ count, if (0 <? count)%Z then freeSlots else count) <$> wi_FunctionWarm base).

Definition EnsureBlankWarm (d : LocalDriver) : LocalDriver :=
  if (ld_blankWarm d =? 0)%Z then mkLocalDriver 1 (ld_functionWarm d) else d.

Definition LocalPrepareFunctionWarm (req : ExecuteRequest) (d : LocalDriver) : LocalDriver :=
  mkLocalDriver (ld_blankWarm d) (<[xr_FunctionID req := 1%Z]> (ld_functionWarm d)).

Definition LocalExecute `{!NodeTools, !MapOrder} (req : ExecuteRequest) : NM (option ExecuteResult * option GoError) :=
  '(result, err) ← ExecuteBundle (mkWorkspaceRequest (xr_AttemptID req) (xr_JobID req) (xr_FunctionID req) ""
     (xr_Entrypoint req) (xr_Payload req) (default ∅ (xr_Env req)) (xr_Timeout req) (xr_Region req)
     (xr_HostID req) "node" None) (xr_ArtifactBundle req);
  mret ((λ r, mkExecuteResult (nr_ExitCode r) (nr_Logs r) (nr_Output r)
                (Combine (trace_Text ["localnode_execute_bundle"]) (nr_PlatformTrace r))) <$> result, err).

(** ** Properties *)

Section Requests.
Context `{!NodeTools} (functionID : string) (message : preparedWorkerMessage).

(** What a computation may change: it sends the message at most [k] times and
    leaves the controllers of other functions alone. *)
Record attempted (k : nat) (s s' : NodeState) : Prop := {
  at_sent : ∃ n, n ≤ k ∧ ne_sent s' = ne_sent s ++ replicate n (functionID, message);
  at_others f : f ≠ functionID → ne_workers s' !! f = ne_workers s !! f;
}.

Lemma attempted_refl s : attempted 0 s s.
Proof. split; [exists 0; by rewrite app_nil_r|done]. Qed.

Lemma attempted_trans j k s1 s2 s3 : attempted j s1 s2 → attempted k s2 s3 → attempted (j + k) s1 s3.
Proof.
  intros [(n1 & L1 & S1) O1] [(n2 & L2 & S2) O2]. split.
  - exists (n1 + n2). split; [lia|]. by rewrite S2, S1, replicate_add, (assoc_L (++)).
  - intros f Hf. by rewrite O2, O1.
Qed.

Lemma attempted_mono j k s s' : j ≤ k → attempted j s s' → attempted k s s'.
Proof. intros Hl [(n & L & S1) O1]. split; [exists n; split; [lia|done]|done]. Qed.

(** A computation that sends at most [k] messages. *)
Definition sends {A} (k : nat) (m : NM A) : Prop := ∀ s, attempted k s (m s).2.

Lemma sends_ret {A} (a : A) : sends 0 (mret a).
Proof. intros s. apply attempted_refl. Qed.

Lemma sends_fail {A} e : sends 0 (fail e : NM A).
Proof. intros s. apply attempted_refl. Qed.

Lemma sends_quiet {A} (m : NM A) :
  (∀ s, ne_sent (m s).2 = ne_sent s ∧ ne_workers (m s).2 = ne_workers s) → sends 0 m.
Proof.
  intros Hm s. destruct (Hm s) as [H1 H2]. split; rewrite ?H1, ?H2; [exists 0; by rewrite app_nil_r|done].
Qed.

Lemma sends_bind {A B} j k (m : NM A) (f : A → NM B) : sends j m → (∀ a, sends k (f a)) → sends (j + k) (m ≫= f).
Proof.
  intros Hm Hf s. specialize (Hm s). rewrite M_bind_eq. destruct (m s) as [[a|e] s1]; simpl in *.
  - eapply attempted_trans; [done|apply Hf].
  - eapply attempted_mono; [|done]. lia.
Qed.

Lemma sends_bind0 {A B} k (m : NM A) (f : A → NM B) : sends 0 m → (∀ a, sends k (f a)) → sends k (m ≫= f).
Proof. apply (sends_bind 0 k). Qed.

Lemma sends_mono {A} j k (m : NM A) : j ≤ k → sends j m → sends k m.
Proof. intros Hl Hm s. by eapply attempted_mono. Qed.

Lemma sends_try {A} k (m : NM A) : sends k m → sends k (try m).
Proof. intros Hm s. specialize (Hm s). unfold try. by destruct (m s). Qed.

Lemma sends_setConnection open : sends 0 (setConnection functionID open).
Proof.
  intros s. split; simpl.
  - exists 0. by rewrite app_nil_r.
  - intros f Hf. by rewrite lookup_insert_ne.
Qed.

Lemma sends_readFailed {A} e : sends 0 (readFailed functionID e : NM A).
Proof. apply (sends_bind0 0); [apply sends_setConnection|]. intros _. apply sends_fail. Qed.

Lemma sends_openConnection : sends 0 (openConnection functionID).
Proof.
  apply sends_bind0; [by apply sends_quiet|]. intros []; [apply sends_ret|].
  apply sends_bind0; [by apply sends_quiet|]. intros []; [apply sends_setConnection|apply sends_fail].
Qed.

Lemma sends_sendRequest : sends 1 (sendRequest functionID message).
Proof.
  apply sends_bind0; [by apply sends_quiet|]. intros []; [|apply (sends_mono 0); [lia|apply sends_fail]].
  apply sends_bind0; [by apply sends_quiet|]. intros [e|l e].
  - apply (sends_mono 0); [lia|]. apply sends_bind0; [apply sends_setConnection|]. intros _. apply sends_fail.
  - apply (sends_bind 1 0).
    + intros s. split; simpl; [by exists 1|done].
    + intros _. apply sends_ret.
Qed.

Lemma sends_request : sends 1 (request functionID message).
Proof.
  apply (sends_bind 1 0); [apply sends_sendRequest|]. intros [[|r l] e]; [apply sends_readFailed|apply sends_ret].
Qed.

Lemma sends_streamResponses sink e l : sends 0 (streamResponses functionID sink e l).
Proof.
  induction l as [|r l IH]; simpl; [apply sends_readFailed|]. case_bool_decide; [|apply sends_ret].
  apply sends_bind0; [|done]. destruct (pr_HTTPEvent r); [|apply sends_ret]. unfold sinkEvent.
  destruct sink as [sk|]; [|apply sends_ret]. apply sends_bind0; [by apply sends_quiet|]. intros n.
  apply sends_bind0; [by apply sends_quiet|]. intros _. destruct (sk _ _); [apply sends_fail|apply sends_ret].
Qed.

Lemma sends_requestStream sink : sends 1 (requestStream functionID message sink).
Proof. apply (sends_bind 1 0); [apply sends_sendRequest|]. intros [l e]. apply sends_streamResponses. Qed.

(** Two attempts at most. *)
Lemma sends_withRetry attempt : sends 1 attempt → sends 2 (withRetry functionID attempt).
Proof.
  intros Ha. unfold withRetry. destruct (blank functionID); [by apply (sends_mono 0); [lia|apply sends_fail]|].
  apply sends_bind0; [by apply sends_quiet|]. intros []; simpl; [|by apply (sends_mono 0); [lia|apply sends_fail]].
  apply (sends_bind 1 1); [by apply sends_try|]. intros [r|e]; [by apply (sends_mono 0); [lia|apply sends_ret]|].
  apply sends_bind0; [apply sends_setConnection|]. intros _.
  apply sends_bind0; [apply sends_try, sends_openConnection|]. intros r.
  apply (sends_bind 1 0); [destruct r; [by apply sends_try|by apply (sends_mono 0); [lia|apply sends_ret]]|].
  intros [r'|e']; [apply sends_ret|]. apply sends_bind0; [|intros _; apply sends_fail].
  intros s. split; simpl; [exists 0; by rewrite app_nil_r|]. intros f Hf. by rewrite lookup_delete_ne.
Qed.

(** A controller that failed twice is forgotten. *)
Lemma withRetry_forgets attempt s e s' :
  blank functionID = false → withRetry functionID attempt s = (Err e, s') → ne_workers s' !! functionID = None.
Proof.
  intros Hb. unfold withRetry. rewrite Hb, M_bind_eq. cbn [gets fst snd].
  case_bool_decide as Hw; simpl.
  2:{ intros [= _ <-]. destruct (ne_workers s !! functionID) eqn:E; [|done]. destruct Hw. by eexists. }
  rewrite M_bind_eq. unfold try at 1. destruct (attempt s) as [[r|e1] s1]; [done|]. rewrite M_bind_eq. simpl.
  rewrite M_bind_eq. unfold try at 1. destruct (openConnection functionID _) as [r2 s2]. rewrite M_bind_eq.
  assert (∃ r3 s3, (match r2 with Ok _ => try attempt | Err _ => mret (Err e1) end) s2 = (Ok r3, s3)) as (r3 & s3 & ->).
  { destruct r2; [|by do 2 eexists]. unfold try. destruct (attempt s2) as [r s3]. by exists r, s3. }
  destruct r3 as [r|e3]; [done|]. intros [= _ <-]. simpl. apply lookup_delete_eq.
Qed.

End Requests.

(** C30: an invocation on a prepared worker.  It always returns a result or an
    error; the message is sent at most twice, always to the function's own
    worker, and the controllers of other functions are untouched.  A result has
    exit code 0 and no error, or exit code 1 and the error the handler reported.
    Without a result the controller of the function is gone, so that the next
    invocation does not use it. *)
Theorem prepared_worker_spec (N : NodeTools) (req : WorkspaceRequest) (s : NodeState) :
  let f := wr_FunctionID req in
  let msg := invokeMessage req (bool_decide (is_Some (wr_HTTPStream req))) in
  let '(r, s') := ExecutePreparedWorker req s in
  (∃ n, n ≤ 2 ∧ ne_sent s' = ne_sent s ++ replicate n (f, msg)) ∧
  (∀ g, g ≠ f → ne_workers s' !! g = ne_workers s !! g) ∧
  match r with
  | Ok (Some x, None) => nr_ExitCode x = 0%Z
  | Ok (Some x, Some _) => nr_ExitCode x = 1%Z
  | Ok (None, Some _) => blank f = false → ne_workers s' !! f = None
  | Ok (None, None) | Err _ => False
  end.
Proof.
  intros f msg.
  assert (∃ attempt, ExecutePreparedWorker req = (response ← try attempt; mret (workerResult response)) ∧
    sends f msg 2 attempt ∧
    ∀ e s', attempt s = (Err e, s') → blank f = false → ne_workers s' !! f = None) as (attempt & -> & Hs & Hf).
  { unfold ExecutePreparedWorker, ExecutePreparedWorkerStream, msg. destruct (wr_HTTPStream req) as [sink|];
      eexists; (split; [reflexivity|]); (split; [apply sends_withRetry; [apply sends_requestStream || apply sends_request]|]);
      intros e s' He Hb; by eapply withRetry_forgets. }
  specialize (Hs s). rewrite M_bind_eq. unfold try. destruct (attempt s) as [r s'] eqn:Ea. simpl in Hs.
  destruct Hs as [Hn Ho]. destruct r as [r|e]; simpl; (split; [exact Hn|]; split; [exact Ho|]);
    [unfold workerResult; by case_bool_decide|by apply (Hf e)].
Qed.

(** ** A connection that breaks *)

Definition eventResponse (ev : HTTPStreamEvent) : preparedWorkerResponse :=
  mkWorkerResponse "http_event" false "" "" "" (Some ev).

Section Retry.
Context `{N : !NodeTools} (functionID : string) (sink : nat → HTTPStreamEvent → option GoError).
Context (Hsink : ∀ n ev, sink n ev = None).

Lemma run_streamResponses e evs rest s :
  streamResponses functionID (Some sink) e ((eventResponse <$> evs) ++ rest) s =
  streamResponses functionID (Some sink) e rest (s <| ne_events := ne_events s ++ evs |>).
Proof.
  revert s. induction evs as [|ev evs IH]; intros s; simpl.
  { rewrite app_nil_r. by destruct s. }
  rewrite M_bind_eq, M_bind_eq. cbn [gets fst snd]. rewrite M_bind_eq. simpl. rewrite Hsink. simpl. rewrite IH. f_equal.
  unfold rebuild, NodeState_rebuild. simpl. by rewrite <- (assoc_L (++)).
Qed.

Lemma run_sendRequest msg l e s :
  ne_workers s !! functionID = Some true → node_Exchange (ne_step s) functionID msg = Answers l e →
  sendRequest functionID msg s =
    (Ok (l, e), s <| ne_step := S (ne_step s) |> <| ne_sent := ne_sent s ++ [(functionID, msg)] |>).
Proof.
  intros Hw Hx. unfold sendRequest. rewrite M_bind_eq. cbn [gets fst snd]. rewrite Hw. simpl.
  rewrite M_bind_eq. unfold interact. rewrite Hx. done.
Qed.

End Retry.

(** A streamed response is started over when its connection breaks.  When
    the connection to the worker breaks after some events of a streamed response
    and can be opened again, the function is invoked a second time, and the
    caller's sink, which has already had the events of the first run, gets all
    events of the second one behind them; the result is reported as a success. *)
Theorem stream_retry_repeats (N : NodeTools) (req : WorkspaceRequest) (s : NodeState)
    (sink : nat → HTTPStreamEvent → option GoError) (evs1 evs2 : list HTTPStreamEvent)
    (response : preparedWorkerResponse) (e1 e2 : GoError) :
  let f := wr_FunctionID req in
  let msg := invokeMessage req true in
  blank f = false → ne_workers s !! f = Some true →
  wr_HTTPStream req = Some sink → (∀ n ev, sink n ev = None) →
  node_Exchange (ne_step s) f msg = Answers (eventResponse <$> evs1) e1 →
  node_Dial (S (ne_step s)) = Ok tt →
  node_Exchange (S (S (ne_step s))) f msg = Answers ((eventResponse <$> evs2) ++ [response]) e2 →
  pr_Type response = "result" → pr_Error response = "" →
  ∃ x s', ExecutePreparedWorker req s = (Ok (Some x, None), s') ∧ nr_ExitCode x = 0%Z ∧
    ne_events s' = ne_events s ++ evs1 ++ evs2 ∧ ne_sent s' = ne_sent s ++ [(f, msg); (f, msg)].
Proof.
  intros f msg Hb Hw Hstream Hsink X1 Hd X2 Ht He.
  set (s1 := s <| ne_step := S (ne_step s) |> <| ne_sent := ne_sent s ++ [(f, msg)] |> <| ne_events := ne_events s ++ evs1 |>
               <| ne_workers := <[f := false]> (ne_workers s) |>).
  assert (∃ e, requestStream f msg (Some sink) s = (Err e, s1)) as [e F1].
  { eexists. unfold requestStream. rewrite (run_bind _ _ _ _ _ (run_sendRequest f msg _ _ s Hw X1)). cbn beta iota.
    rewrite <- (app_nil_r (eventResponse <$> evs1)), (run_streamResponses f sink Hsink). reflexivity. }
  set (s2 := s1 <| ne_step := S (ne_step s1) |> <| ne_workers := <[f := true]> (ne_workers s1) |>).
  assert (openConnection f s1 = (Ok tt, s2)) as F2.
  { unfold openConnection. rewrite M_bind_eq. cbn [gets fst snd]. unfold s1 at 1. simpl. rewrite lookup_insert_eq. simpl.
    rewrite M_bind_eq. unfold interact. simpl. by rewrite Hd. }
  set (s3 := s2 <| ne_step := S (ne_step s2) |> <| ne_sent := ne_sent s2 ++ [(f, msg)] |>
               <| ne_events := ne_events s2 ++ evs2 |>).
  assert (requestStream f msg (Some sink) s2 = (Ok response, s3)) as F3.
  { unfold requestStream. rewrite (run_bind _ _ _ _ _ (run_sendRequest f msg _ _ s2 (lookup_insert_eq _ _ _) X2)).
    cbn beta iota. rewrite (run_streamResponses f sink Hsink). cbn [streamResponses]. by rewrite Ht. }
  assert (preparedWorkerStreamingRequest f msg (Some sink) s = (Ok response, s3)) as F.
  { unfold preparedWorkerStreamingRequest, withRetry. rewrite Hb.
    rewrite (run_bind _ _ s true s); [|unfold gets; by rewrite Hw, bool_decide_eq_true_2 by (by eexists)]. cbn [negb].
    rewrite (run_bind _ _ _ _ _ (run_try _ _ _ _ F1)).
    assert (setConnection f false s1 = (Ok tt, s1)) as Fc.
    { unfold setConnection, modify, s1. unfold rebuild, NodeState_rebuild. simpl. by rewrite insert_insert_eq. }
    rewrite (run_bind _ _ _ _ _ Fc), (run_bind _ _ _ _ _ (run_try _ _ _ _ F2)).
    by rewrite (run_bind _ _ _ _ _ (run_try _ _ _ _ F3)). }
  eexists _, s3. split_and!.
  - unfold ExecutePreparedWorker, ExecutePreparedWorkerStream. rewrite Hstream. fold f msg. rewrite (run_bind _ _ _ _ _ (run_try _ _ _ _ F)).
    unfold workerResult. rewrite He. reflexivity.
  - done.
  - simpl. by rewrite <- (assoc_L (++)).
  - simpl. by rewrite <- (assoc_L (++)).
Qed.

(** A worker whose first connection breaks after the start of a response. *)
Definition demo_event (type chunk : string) : HTTPStreamEvent := mkHTTPStreamEvent type 200 ∅ chunk.

Definition demo_node : NodeTools := {|
  node_archives := demo_archives [];
  node_Run _ _ _ _ _ t := Ok (mkRunOutcome "" "" [] None false None t);
  node_Start _ _ _ _ _ := Ok tt;
  node_Stderr _ := "";
  node_Dial _ := Ok tt;
  node_Exchange n _ _ :=
    match n with
    | 0 => Answers (eventResponse <$> [demo_event "http_start" ""; demo_event "http_chunk" "aGVs"]) (plainErr "EOF")
    | _ => Answers ((eventResponse <$> [demo_event "http_start" ""; demo_event "http_chunk" "aGVsbG8="]) ++
                    [mkWorkerResponse "result" false "" "{}" "" None]) (plainErr "EOF")
    end;
  node_MkdirTemp _ t := Ok ("/tmp/b1", t);
  node_Pipe _ := Ok tt;
  node_TempDir := "/tmp";
  node_SocketPath f := "/tmp/" +:+ f;
  json_MarshalContext _ := Ok "{}";
  duration_String d := itoa d;
  time_Since _ := 0%Z;
|}.

Definition demo_invocation : WorkspaceRequest :=
  mkWorkspaceRequest "a1" "j1" "v1" "/tmp/b1" "index.mjs" "{}" ∅ 30 "eu" "h1" "" (Some (λ _ _, None)).

Lemma stream_retry_repeats_witness :
  ∃ x s', @ExecutePreparedWorker demo_node demo_invocation (mkNodeState demo_tree {["v1" := true]} [] [] 0) =
      (Ok (Some x, None), s') ∧
    hse_Chunk <$> ne_events s' = [""; "aGVs"; ""; "aGVsbG8="].
Proof.
  destruct (stream_retry_repeats demo_node demo_invocation (mkNodeState demo_tree {["v1" := true]} [] [] 0)
    (λ _ _, None) [demo_event "http_start" ""; demo_event "http_chunk" "aGVs"]
    [demo_event "http_start" ""; demo_event "http_chunk" "aGVsbG8="]
    (mkWorkerResponse "result" false "" "{}" "" None) (plainErr "EOF") (plainErr "EOF"))
    as (x & s' & E & _ & Hev & _); try reflexivity.
  exists x, s'. split; [exact E|]. rewrite Hev. reflexivity.
Defined.

(** ** One process per run *)

(** A computation that always gives a value. *)
Definition gives {A} (P : NodeState → Prop) (V : A → NodeState → Prop) (m : NM A) : Prop :=
  ∀ s, P s → ∃ a s', m s = (Ok a, s') ∧ V a s'.

Lemma gives_ret {A} P (V : A → NodeState → Prop) a : (∀ s, P s → V a s) → gives P V (mret a).
Proof. intros Hv s Hs. exists a, s. split; [done|by apply Hv]. Qed.

Lemma gives_bind {A B} P (U : A → NodeState → Prop) (V : B → NodeState → Prop) (m : NM A) (f : A → NM B) :
  gives P U m → (∀ a, gives (U a) V (f a)) → gives P V (m ≫= f).
Proof.
  intros Hm Hf s Hs. destruct (Hm s Hs) as (a & s1 & E & Hu). destruct (Hf a s1 Hu) as (b & s2 & E2 & Hv).
  exists b, s2. split; [|done]. by rewrite (run_bind _ _ _ _ _ E).
Qed.

Lemma gives_try {A} P (m : NM A) : gives P (λ _ _, True) (try m).
Proof. intros s _. unfold try. destruct (m s) as [r s']. by exists r, s'. Qed.

Lemma gives_gets {A} P (f : NodeState → A) : gives P (λ _ _, True) (gets f).
Proof. intros s _. by exists (f s), s. Qed.

Lemma gives_withTempDir `{!NodeTools} {A} (V : A → Prop) failed (body : string → NM A) :
  (∀ e, V (failed e)) → (∀ dir, gives (λ _, True) (λ a _, V a) (body dir)) →
  gives (λ _, True) (λ a _, V a) (withTempDir failed body).
Proof.
  intros Hf Hb s _. unfold withTempDir. rewrite M_bind_eq. cbn beta iota.
  destruct (node_MkdirTemp (ne_step s) (ne_tree s)) as [[dir t]|e]; [|by do 2 eexists].
  rewrite M_bind_eq. cbn [modify fst snd].
  destruct (Hb dir (s <| ne_step := S (ne_step s) |> <| ne_tree := t |>) I) as (a & s1 & E & Hv).
  rewrite (run_bind _ _ _ _ _ E), M_bind_eq. unfold try. destruct (onFiles _ s1) as [r s2]. by exists a, s2.
Qed.

Lemma consume_tree sink e l s : ne_tree (consumeExecutionStream sink e l s).2 = ne_tree s.
Proof.
  revert s. induction l as [|ev l IH]; intros s; simpl; [by destruct e|]. rewrite M_bind_eq. unfold sinkEvent.
  destruct sink as [sk|]; [|apply IH]. rewrite M_bind_eq. cbn [gets fst snd]. rewrite M_bind_eq. simpl.
  destruct (sk _ _); [done|]. simpl. by rewrite IH.
Qed.

(** The process that produced a result: where it ran, and what it left. *)
Definition ran_ok `{!NodeTools} (req : WorkspaceRequest) (output : string) : Prop :=
  ∃ n dir bin env t run,
    node_Run n bin [JoinPath dir "__lecrev_invoke.mjs"; JoinPath dir "__lecrev_payload.json";
                    JoinPath (wr_Workspace req) (wr_Entrypoint req); JoinPath dir "__lecrev_result.json"]
      (wr_Workspace req) env t = Ok run ∧
    ro_TimedOut run = false ∧ ro_Err run = None ∧
    ReadFile (comps (JoinPath dir "__lecrev_result.json")) (ro_Tree run) = Ok output.

(** What [ExecuteWorkspace] may return. *)
Definition run_ok `{!NodeTools} (req : WorkspaceRequest) (p : option NodeResult * option GoError) : Prop :=
  match p with
  | (Some r, None) => nr_ExitCode r = 0%Z ∧ ran_ok req (nr_Output r)
  | (None, None) => False
  | (_, Some _) => True
  end.

Lemma gives_runResult `{!NodeTools} req dir n bin env t run :
  node_Run n bin [JoinPath dir "__lecrev_invoke.mjs"; JoinPath dir "__lecrev_payload.json";
                  JoinPath (wr_Workspace req) (wr_Entrypoint req); JoinPath dir "__lecrev_result.json"]
    (wr_Workspace req) env t = Ok run →
  gives (λ s, ne_tree s = ro_Tree run) (λ p _, run_ok req p)
    (runResult req (comps (JoinPath dir "__lecrev_result.json")) run).
Proof.
  intros Hrun. unfold runResult. eapply (gives_bind _ (λ _ s, ne_tree s = ro_Tree run)).
  { destruct (wr_HTTPStream req) as [sk|]; [|by apply gives_ret]. intros s Hs. unfold try.
    destruct (consumeExecutionStream _ _ _ s) as [r s'] eqn:Ec. exists r, s'. split; [done|].
    rewrite <- Hs, <- (consume_tree (Some sk) (ro_StreamErr run) (ro_Events run) s). by rewrite Ec. }
  intros streamErr. destruct (ro_TimedOut run) eqn:Et; [by apply gives_ret|].
  destruct streamErr as [[]|e]; [|by apply gives_ret]. destruct (ro_Err run) as [[c e]|] eqn:Ee; [by apply gives_ret|].
  intros s Hs. unfold mbind, M_bind, gets. rewrite Hs.
  destruct (ReadFile _ (ro_Tree run)) as [output|e] eqn:Er; do 2 eexists; (split; [reflexivity|]); simpl; [|done].
  split; [done|]. by exists n, dir, bin, env, t, run.
Qed.

(** Error returns of [ExecuteWorkspace]. *)
Lemma gives_orErr `{!NodeTools} req {A} (U : A → NodeState → Prop) (m : NM A) k :
  (∀ s, match m s with (Ok a, s') => U a s' | (Err _, _) => True end) →
  (∀ a, gives (U a) (λ p _, run_ok req p) (k a)) →
  gives (λ _, True) (λ p _, run_ok req p)
    (r ← try m; match r with Err e => mret (None, Some e) | Ok a => k a end).
Proof.
  intros Hm Hk. apply (gives_bind _ (λ r s, match r with Ok a => U a s | Err _ => True end)).
  - intros s _. unfold try. specialize (Hm s). destruct (m s) as [[a|e] s']; by do 2 eexists.
  - intros [a|e]; [apply Hk|by apply gives_ret].
Qed.

(** A run in a process of its own always comes back with a result or an
    error.  A result without an error has exit code 0 and comes from a process
    that was started in the workspace on the entrypoint, ended in time and
    without an error; the output is the contents of the result file it left. *)
Theorem execute_workspace_spec (N : NodeTools) (o : MapOrder) (req : WorkspaceRequest) (s : NodeState) :
  ∃ res err s', ExecuteWorkspace req s = (Ok (res, err), s') ∧
    match res, err with
    | Some r, None => nr_ExitCode r = 0%Z ∧
        ∃ n dir bin env t run,
          node_Run n bin [JoinPath dir "__lecrev_invoke.mjs"; JoinPath dir "__lecrev_payload.json";
                          JoinPath (wr_Workspace req) (wr_Entrypoint req); JoinPath dir "__lecrev_result.json"]
            (wr_Workspace req) env t = Ok run ∧
          ro_TimedOut run = false ∧ ro_Err run = None ∧
          ReadFile (comps (JoinPath dir "__lecrev_result.json")) (ro_Tree run) = Ok (nr_Output r)
    | None, None => False
    | _, Some _ => True
    end.
Proof.
  assert (gives (λ _, True) (λ p _, run_ok req p) (ExecuteWorkspace req)) as H.
  { assert (∀ A (m : NM A) s, match m s with (Ok a, s') => (λ _ _, True) a s' | (Err _, _) => True end) as Hany.
    { intros A m s0. by destruct (m s0) as [[]]. }
    unfold ExecuteWorkspace. apply gives_withTempDir; [done|]. intros dir.
    do 2 (apply (gives_orErr _ (λ _ _, True)); [apply Hany|]; intros _).
    apply (gives_orErr _ (λ _ _, True)); [apply Hany|]. intros cache.
    eapply gives_bind; [apply gives_gets|]. intros [b|e]; [|by apply gives_ret].
    do 2 (apply (gives_orErr _ (λ _ _, True)); [apply Hany|]; intros ?).
    eapply (gives_orErr _ (λ run s, ne_tree s = ro_Tree run ∧ ∃ n bin env t, node_Run n bin _ (wr_Workspace req) env t = Ok run)).
    - intros s0. rewrite M_bind_eq. cbn [gets fst snd]. rewrite M_bind_eq. unfold interact. cbn beta iota.
      rewrite M_bind_eq. destruct (node_Run _ _ _ _ _ _) as [run|e] eqn:Er; simpl; [|done].
      split; [done|]. by do 4 eexists.
    - intros run s0 (Ht & n & bin & env & t & Hr). exact (gives_runResult req dir n bin env t run Hr s0 Ht). }
  destruct (H s I) as ([res err] & s' & E & Hok). exists res, err, s'. split; [done|]. by destruct res, err.
Qed.

(** A driver never offers more warm instances than there are free slots. *)
Lemma warm_inventory_bounded (d : LocalDriver) freeSlots :
  (0 ≤ ld_blankWarm d)%Z → map_Forall (λ _ n, (0 ≤ n)%Z) (ld_functionWarm d) →
  let inv := WarmInventoryForSlots d freeSlots in
  (0 ≤ wi_BlankWarm inv ≤ Z.max 0 freeSlots)%Z ∧
  map_Forall (λ _ n, (0 ≤ n ≤ Z.max 0 freeSlots)%Z) (wi_FunctionWarm inv).
Proof.
  intros Hb Hf. unfold WarmInventoryForSlots. destruct (Z.leb_spec freeSlots 0); simpl.
  - split; [lia|]. intros k n Hn. apply lookup_fmap_Some in Hn as (? & <- & _). lia.
  - split; [destruct (Z.ltb_spec 0 (ld_blankWarm d)); lia|]. intros k n Hn.
    apply lookup_fmap_Some in Hn as (c & <- & Hc). specialize (Hf k c Hc). simpl in Hf.
    destruct (Z.ltb_spec 0 c); lia.
Qed.
