(* ===== verification/Postgres.v ===== *)
(** * Postgres: the metadata store on Postgres

    Models [internal/store/postgres/store.go] and [migrations.go]: the second
    implementation of the [store.Store] interface.  The state is the set of
    tables that the files under [migrations/] create, each a map from its primary
    key to its row; a column that may be NULL is an option.  A row without such
    columns is the record itself.

    A statement is atomic.  It fails when the connection does ([pg_Fault], before
    or after the server has executed it), when an argument cannot be sent or
    stored ([badArg]), or when it breaks a key or a reference of the schema.  A
    method may need several statements, and keeps the effect of the first ones
    when a later one fails.  [timestamptz] counts microseconds; [integer] has 32
    bits; text is valid UTF-8 without NUL.  A [jsonb] column with a Go value of a
    fixed type holds that value, with the strings [json.Marshal] makes of it; one
    with arbitrary JSON holds the value, and reading it gives the text the
    database prints ([jsonb_text]).

    Taken as parameters: faults, row locks of other transactions, the collation,
    the texts of error messages, the decoder of [encoding/json] and the text of a
    [jsonb] value. *)

From Stdlib Require Import Ascii.
From stdpp Require Import base decidable tactics numbers list gmap strings sorting.
From S2P Require Import Prelude Text Domain MemStore.

(** ** Rows *)

Record TenantRow := mkTenantRow { tn_id : string; tn_name : string; tn_created_at : Time }.

Record APIKeyRow := mkAPIKeyRow {
  ak_key_hash : string;
  ak_tenant_id : string;
  ak_description : option string;
  ak_is_admin : bool;
  ak_disabled : bool;
  ak_created_at : Time;
  ak_last_used_at : option Time;
}.

Record IdempotencyRow := mkIdempotencyRow {
  ir_scope : string;
  ir_project_id : string;
  ir_key : string;
  ir_request_hash : string;
  ir_resource_id : option string;
  ir_resource : option string;
  ir_status : IdempotencyStatus;
  ir_created_at : Time;
  ir_updated_at : Time;
}.

Record VersionRow := mkVersionRow {
  vr_id : string;
  vr_project_id : string;
  vr_name : string;
  vr_runtime : string;
  vr_entrypoint : string;
  vr_memory_mb : Z;
  vr_timeout_sec : Z;
  vr_network_policy : string;
  vr_regions : list string;
  vr_env_vars : gmap string string;
  vr_env_refs : list string;
  vr_max_retries : Z;
  vr_build_job_id : option string;
  vr_artifact_digest : string;
  vr_source_type : string;
  vr_state : FunctionState;
  vr_created_at : Time;
}.

Record FunctionRow := mkFunctionRow {
  fn_id : string;
  fn_project_id : string;
  fn_name : string;
  fn_latest_version_id : option string;
  fn_created_at : Time;
}.

Record BuildJobRow := mkBuildJobRow {
  br_id : string;
  br_function_version_id : string;
  br_target_region : option string;
  br_metadata : gmap string string;
  br_state : string;
  br_error : option string;
  br_logs_key : option string;
  br_request : Json;
  br_created_at : Time;
  br_updated_at : Time;
}.

(** The result column holds the result without its output, and the output. *)
Record JobRow := mkJobRow {
  jb_id : string;
  jb_function_version_id : string;
  jb_project_id : string;
  jb_target_region : option string;
  jb_state : JobState;
  jb_payload : Json;
  jb_max_retries : Z;
  jb_attempt_count : Z;
  jb_last_attempt_id : option string;
  jb_error : option string;
  jb_result : option (JobResult * Json);
  jb_created_at : Time;
  jb_updated_at : Time;
}.

Record AttemptRow := mkAttemptRow {
  at_id : string;
  at_job_id : string;
  at_function_version_id : string;
  at_host_id : option string;
  at_region : string;
  at_state : AttemptState;
  at_start_mode : option StartMode;
  at_started_at : option Time;
  at_lease_expires_at : Time;
  at_error : option string;
  at_created_at : Time;
  at_updated_at : Time;
}.

Record LeaseRow := mkLeaseRow {
  ls_attempt_id : string;
  ls_host_id : option string;
  ls_region : string;
  ls_expires_at : Time;
  ls_created_at : Time;
  ls_updated_at : Time;
}.

Record CostRow := mkCostRow {
  co_id : string;
  co_tenant_id : string;
  co_project_id : string;
  co_job_id : option string;
  co_attempt_id : option string;
  co_host_id : option string;
  co_region : option string;
  co_start_mode : option StartMode;
  co_cpu_ms : Z;
  co_memory_mb_ms : Z;
  co_warm_instance_ms : Z;
  co_data_egress_bytes : Z;
  co_created_at : Time;
}.

Record WebhookRow := mkWebhookRow {
  wk_token : string;
  wk_project_id : string;
  wk_function_version_id : string;
  wk_description : option string;
  wk_enabled : bool;
  wk_created_at : Time;
}.

Record HTTPTriggerRow := mkHTTPTriggerRow {
  hk_token : string;
  hk_project_id : string;
  hk_function_version_id : string;
  hk_description : option string;
  hk_auth_mode : HTTPTriggerAuthMode;
  hk_enabled : bool;
  hk_created_at : Time;
}.

Record RegionRow := mkRegionRow {
  rg_name : string;
  rg_state : string;
  rg_available_hosts : Z;
  rg_blank_warm : Z;
  rg_function_warm : Z;
  rg_last_heartbeat_at : Time;
  rg_last_error : option string;
}.

(** ** The database *)

Record Tables := mkTables {
  t_tenants : gmap string TenantRow;
  t_projects : gmap string Project;
  t_api_keys : gmap string APIKeyRow;
  t_idempotency_records : gmap (string * string * string) IdempotencyRow;
  t_artifacts : gmap string Artifact;
  t_function_versions : gmap string VersionRow;
  t_functions : gmap string FunctionRow;
  t_build_jobs : gmap string BuildJobRow;
  t_execution_jobs : gmap string JobRow;
  t_attempts : gmap string AttemptRow;
  t_leases : gmap string LeaseRow;
  t_cost_records : gmap string CostRow;
  t_hosts : gmap string Host;
  t_warm_pools : gmap (string * string * string) WarmPool;
  t_webhook_triggers : gmap string WebhookRow;
  t_http_triggers : gmap string HTTPTriggerRow;
  t_regions : gmap string RegionRow;
}.

#[export] Instance Tables_rebuild : Rebuild Tables := λ r,
  mkTables (t_tenants r) (t_projects r) (t_api_keys r) (t_idempotency_records r) (t_artifacts r)
    (t_function_versions r) (t_functions r) (t_build_jobs r) (t_execution_jobs r) (t_attempts r) (t_leases r)
    (t_cost_records r) (t_hosts r) (t_warm_pools r) (t_webhook_triggers r) (t_http_triggers r) (t_regions r).

Definition NewTables : Tables := mkTables ∅ ∅ ∅ ∅ ∅ ∅ ∅ ∅ ∅ ∅ ∅ ∅ ∅ ∅ ∅ ∅ ∅.

(** [pg_calls] counts the statements; the scripts that have been run and the
    table [schema_migrations]. *)
Record PgState := mkPgState {
  pg_calls : nat;
  pg_tables : Tables;
  pg_scripts : list string;
  pg_migrations : gset string;
}.

#[export] Instance PgState_rebuild : Rebuild PgState := λ r,
  mkPgState (pg_calls r) (pg_tables r) (pg_scripts r) (pg_migrations r).

Abbreviation PgM A := (M PgState A).

(** What a statement fails with. *)
Inductive PgFailure :=
| ErrNoRows
| PgError (code constraint : string)
| ConnError (e : GoError).

(** [pg_Fault n]: statement [n] returns this error, after the server has executed
    it or not.  [pg_Locked n]: the jobs whose rows other transactions hold. *)
Class PgEnv := {
  pg_order :: MapOrder;
  pg_Fault : nat → option (GoError * bool);
  pg_Locked : nat → gset string;
  pg_ltb : string → string → bool;
  pg_Message : string → string → string;
  int4_EncodeError : Z → GoError;
  pg_json_Unmarshal : string → option Json;
  jsonb_text : Json → string;
}.

(** ** Values *)

(** [timestamptz] *)
Definition pgTime (t : Time) : Time := (t / 1000 * 1000)%Z.

(** A time of creation that an update leaves alone. *)
Definition keptOr (old : option Time) (new : Time) : Time := default (pgTime new) old.

Definition nullableText (value : string) : option string :=
  if bool_decide (value = "") then None else Some value.

Definition nullableTime (value : Time) : option Time :=
  if IsZero value then None else Some (pgTime value).

Definition nullableMode (m : StartMode) : option StartMode :=
  if bool_decide (m = StartModeUnset) then None else Some m.

(** [coalesce(column, '')] *)
Definition coalesce (column : option string) : string := default "" column.

Definition no_nul (s : string) : bool := no_byte (ascii_of_N 0) s.

(** What a text column takes. *)
Definition storable (s : string) : bool := utf8_valid s && no_nul s.

Definition sanitizeRune (r : string) : string := if bool_decide (r = nulByte) then replacement else r.

Definition sanitizeJSONString (value : string) : string :=
  if bool_decide (value = "") then "" else mapRunes sanitizeRune (ToValidUTF8 value).

Fixpoint sanitizeJSONValue (value : Json) : Json :=
  match value with
  | JStr s => JStr (sanitizeJSONString s)
  | JArr l => JArr (sanitizeJSONValue <$> l)
  | JObj m => JObj (sanitizeJSONValue <$> m)
  | _ => value
  end.

(** The value of the text that [normalizeRawJSON] returns. *)
Definition normalizeRawJSON `{!PgEnv} (value : string) : Json :=
  if bool_decide (value = "") then JNull
  else match pg_json_Unmarshal value with
       | None => JStr (sanitizeJSONString value)
       | Some decoded => sanitizeJSONValue decoded
       end.

(** The cast to [jsonb] refuses NUL, in strings and in names. *)
Fixpoint jsonb_ok (v : Json) : bool :=
  match v with
  | JStr s => no_nul s
  | JArr l => forallb id (jsonb_ok <$> l)
  | JObj m => bool_decide (map_Forall (λ k b, no_nul k && b = true) (jsonb_ok <$> m))
  | _ => true
  end.

(** [json.Marshal] of a map: names in order, and the last one of equal names is
    kept by [jsonb]. *)
Definition coerceMap {A} (f : A → A) (m : gmap string A) : gmap string A :=
  list_to_map (reverse ((λ kv : string * A, (coerceUTF8 kv.1, f kv.2)) <$> SliceStable (less_str fst) (map_to_list m))).

Definition sanitizeJobResultForStorage `{!PgEnv} (result : JobResult) : JobResult * Json :=
  (mkJobResult (jr_ExitCode result) (sanitizeJSONString (jr_Logs result)) (sanitizeJSONString (jr_LogsKey result)) ""
     (sanitizeJSONString (jr_OutputKey result)) (sanitizeJSONString (jr_HostID result))
     (sanitizeJSONString (jr_Region result)) (jr_StartedAt result) (jr_FinishedAt result) (jr_LatencyMs result),
   normalizeRawJSON (jr_Output result)).

(** ** Statements *)

(** The arguments that can be refused: text, 32-bit integers, the strings of a Go
    value in a [jsonb] column, JSON. *)
Inductive Arg :=
| AText (s : string)
| AInt4 (z : Z)
| AJson (strings : list string)
| ATree (v : Json).

Definition int4_ok (z : Z) : bool := (- 2 ^ 31 <=? z)%Z && (z <? 2 ^ 31)%Z.

Definition argError `{!PgEnv} (a : Arg) : option PgFailure :=
  match a with
  | AText s => if storable s then None else Some (PgError "22021" "")
  | AInt4 z => if int4_ok z then None else Some (ConnError (int4_EncodeError z))
  | AJson l => if forallb no_nul l then None else Some (PgError "22P05" "")
  | ATree v => if jsonb_ok v then None else Some (PgError "22P05" "")
  end.

Definition badArg `{!PgEnv} (args : list Arg) : option PgFailure := head (omap argError args).

Definition pgErr `{!PgEnv} (f : PgFailure) : GoError :=
  match f with
  | ErrNoRows => plainErr "no rows in result set"
  | PgError code constraint => plainErr ("ERROR: " +:+ pg_Message code constraint +:+ " (SQLSTATE " +:+ code +:+ ")")
  | ConnError e => e
  end.

Definition mapExecError `{!PgEnv} (f : PgFailure) : GoError :=
  match f with
  | PgError code constraint =>
      if bool_decide (code = "23505") then wrapErr ErrAlreadyExists (": " +:+ constraint) else pgErr f
  | _ => pgErr f
  end.

Definition mapNotFound `{!PgEnv} (f : PgFailure) : GoError :=
  match f with ErrNoRows => sentinel ErrNotFound | _ => pgErr f end.

Section Methods.
Context `{!PgEnv}.

Definition statement {A} (args : list Arg) (onErr : PgFailure → GoError)
    (body : nat → Tables → PgFailure + A * Tables) : PgM A := λ db,
  let n := pg_calls db in
  let db' := db <| pg_calls := S n |> in
  let outcome := match badArg args with Some f => inl f | None => body n (pg_tables db) end in
  match pg_Fault n, outcome with
  | Some (e, true), inr (_, t) => (Err (onErr (ConnError e)), db' <| pg_tables := t |>)
  | Some (e, _), _ => (Err (onErr (ConnError e)), db')
  | None, inl f => (Err (onErr f), db')
  | None, inr (a, t) => (Ok a, db' <| pg_tables := t |>)
  end.

(** [Exec] *)
Definition exec (args : list Arg) (onErr : PgFailure → GoError) (body : Tables → PgFailure + Tables) : PgM unit :=
  statement args onErr (λ _ t, match body t with inl f => inl f | inr t' => inr (tt, t') end).

(** [QueryRow] and [Query] *)
Definition query {A} (args : list Arg) (onErr : PgFailure → GoError) (body : Tables → PgFailure + A) : PgM A :=
  statement args onErr (λ _ t, match body t with inl f => inl f | inr a => inr (a, t) end).

(** The first broken reference. *)
Definition references (l : list (bool * string)) : option PgFailure :=
  head (omap (λ p : bool * string, if p.1 then None else Some (PgError "23503" p.2)) l).

Definition has {A} (m : gmap string A) (k : string) : bool := bool_decide (is_Some (m !! k)).
Definition hasOpt {A} (m : gmap string A) (k : option string) : bool := match k with None => true | Some k => has m k end.

Definition orRefused (refs : list (bool * string)) (t : Tables) : PgFailure + Tables :=
  match references refs with Some f => inl f | None => inr t end.

(** [where key = $1] *)
Definition row {K R A} `{Countable K} (m : gmap K R) (k : K) (scan : R → A) : PgFailure + A :=
  match m !! k with Some r => inr (scan r) | None => inl ErrNoRows end.

(** [order by created desc, id desc], and both ascending. *)
Definition orderDesc {R} (created : R → Time) (id : R → string) (x y : R) : bool :=
  if (created x =? created y)%Z then pg_ltb (id y) (id x) else (created y <? created x)%Z.
Definition orderAsc {R} (created : R → Time) (id : R → string) (x y : R) : bool :=
  if (created x =? created y)%Z then pg_ltb (id x) (id y) else (created x <? created y)%Z.

(** ** Projects and API keys *)

(** [insert into tenants ... on conflict do nothing] *)
Definition insertTenant (tenantID : string) (created : Time) : PgM unit :=
  exec [AText tenantID] pgErr (λ t,
    inr (t <| t_tenants := match t_tenants t !! tenantID with
                           | Some _ => t_tenants t
                           | None => <[tenantID := mkTenantRow tenantID tenantID (pgTime created)]> (t_tenants t)
                           end |>)).

Definition EnsureProject (now : Time) (projectID tenantID name : string) : PgM Project :=
  insertTenant tenantID now ≫= λ _,
  exec [AText projectID; AText tenantID; AText name] pgErr (λ t,
    match t_projects t !! projectID with
    | Some _ => inr t
    | None => orRefused [(has (t_tenants t) tenantID, "projects_tenant_id_fkey")]
                (t <| t_projects := <[projectID := mkProject projectID tenantID name (pgTime now)]> (t_projects t) |>)
    end) ≫= λ _,
  project ← query [AText projectID] pgErr (λ t, row (t_projects t) projectID id);
  if bool_decide (prj_TenantID project = tenantID) then mret project else fail (sentinel ErrAccessDenied).

Definition GetProject (projectID : string) : PgM Project :=
  query [AText projectID] mapNotFound (λ t, row (t_projects t) projectID id).

Definition ListProjectsByTenant (tenantID : string) : PgM (list Project) :=
  query [AText tenantID] pgErr (λ t,
    inr (SliceStable (orderDesc prj_CreatedAt prj_ID)
           (select 3088 (λ p, bool_decide (prj_TenantID p = tenantID)) (t_projects t)))).

Definition apiKeyRow (key : APIKey) : APIKeyRow :=
  mkAPIKeyRow (key_KeyHash key) (key_TenantID key) (nullableText (key_Description key)) (key_IsAdmin key)
    (key_Disabled key) (pgTime (key_CreatedAt key)) (nullableTime (key_LastUsedAt key)).

Definition scanAPIKey (r : APIKeyRow) : APIKey :=
  mkAPIKey (ak_key_hash r) (ak_tenant_id r) (coalesce (ak_description r)) (ak_is_admin r) (ak_disabled r)
    (ak_created_at r) (default 0%Z (ak_last_used_at r)).

Definition PutAPIKey (key : APIKey) : PgM unit :=
  insertTenant (key_TenantID key) (key_CreatedAt key) ≫= λ _,
  exec [AText (key_KeyHash key); AText (key_TenantID key); AText (key_Description key)] pgErr (λ t,
    orRefused [(has (t_tenants t) (key_TenantID key), "api_keys_tenant_id_fkey")]
      (t <| t_api_keys := <[key_KeyHash key := apiKeyRow key]> (t_api_keys t) |>)).

Definition GetAPIKeyByHash (keyHash : string) : PgM APIKey :=
  query [AText keyHash] mapNotFound (λ t, row (t_api_keys t) keyHash scanAPIKey).

Definition TouchAPIKeyLastUsed (keyHash : string) (usedAt : Time) : PgM unit :=
  affected ← statement [AText keyHash] pgErr (λ _ t,
    match t_api_keys t !! keyHash with
    | None => inr (0, t)
    | Some r =>
        inr (1, t <| t_api_keys := <[keyHash := mkAPIKeyRow (ak_key_hash r) (ak_tenant_id r) (ak_description r)
                     (ak_is_admin r) (ak_disabled r) (ak_created_at r) (Some (pgTime usedAt))]> (t_api_keys t) |>)
    end);
  if bool_decide (affected = 0) then fail (sentinel ErrNotFound) else mret tt.

(** ** Idempotency records *)

Definition idempotencyRow (record : IdempotencyRecord) : IdempotencyRow :=
  mkIdempotencyRow (idem_Scope record) (idem_ProjectID record) (idem_Key record) (idem_RequestHash record)
    (nullableText (idem_ResourceID record)) (nullableText (idem_Resource record)) (idem_Status record)
    (pgTime (idem_CreatedAt record)) (pgTime (idem_UpdatedAt record)).

Definition scanIdempotency (r : IdempotencyRow) : IdempotencyRecord :=
  mkIdempotencyRecord (ir_scope r) (ir_project_id r) (ir_key r) (ir_request_hash r) (coalesce (ir_resource_id r))
    (coalesce (ir_resource r)) (ir_status r) (ir_created_at r) (ir_updated_at r).

Definition idempotencyArgs (record : IdempotencyRecord) : list Arg :=
  [AText (idem_Scope record); AText (idem_ProjectID record); AText (idem_Key record); AText (idem_RequestHash record);
   AText (idem_ResourceID record); AText (idem_Resource record)].

Definition idempotencyPk (record : IdempotencyRecord) : string * string * string :=
  (idem_Scope record, idem_ProjectID record, idem_Key record).

Definition CreateIdempotencyRecord (record : IdempotencyRecord) : PgM unit :=
  exec (idempotencyArgs record) mapExecError (λ t,
    match t_idempotency_records t !! idempotencyPk record with
    | Some _ => inl (PgError "23505" "idempotency_records_pkey")
    | None => orRefused [(has (t_projects t) (idem_ProjectID record), "idempotency_records_project_id_fkey")]
                (t <| t_idempotency_records := <[idempotencyPk record := idempotencyRow record]> (t_idempotency_records t) |>)
    end).

(** A record that does not exist is not created. *)
Definition UpdateIdempotencyRecord (record : IdempotencyRecord) : PgM unit :=
  exec (idempotencyArgs record) pgErr (λ t,
    inr (t <| t_idempotency_records :=
      match t_idempotency_records t !! idempotencyPk record with
      | None => t_idempotency_records t
      | Some r => <[idempotencyPk record := mkIdempotencyRow (ir_scope r) (ir_project_id r) (ir_key r)
                     (idem_RequestHash record) (nullableText (idem_ResourceID record)) (nullableText (idem_Resource record))
                     (idem_Status record) (ir_created_at r) (pgTime (idem_UpdatedAt record))]> (t_idempotency_records t)
      end |>)).

Definition DeleteIdempotencyRecord (scope projectID key : string) : PgM unit :=
  exec [AText scope; AText projectID; AText key] pgErr (λ t,
    inr (t <| t_idempotency_records := delete (scope, projectID, key) (t_idempotency_records t) |>)).

(** The missing row is not mapped to [ErrNotFound]. *)
Definition GetIdempotencyRecord (scope projectID key : string) : PgM IdempotencyRecord :=
  query [AText scope; AText projectID; AText key] pgErr (λ t,
    row (t_idempotency_records t) (scope, projectID, key) scanIdempotency).

(** ** Artifacts and function versions *)

Definition mapStrings {A} (m : gmap string A) : list string := (map_to_list m).*1.

Definition PutArtifact (artifact : Artifact) : PgM unit :=
  exec [AText (art_Digest artifact); AText (art_BundleKey artifact); AText (art_StartupKey artifact);
        AJson (mapStrings (art_Regions artifact))] pgErr (λ t,
    let created := keptOr (art_CreatedAt <$> t_artifacts t !! art_Digest artifact) (art_CreatedAt artifact) in
    inr (t <| t_artifacts := <[art_Digest artifact := mkArtifact (art_Digest artifact) (art_SizeBytes artifact)
                (art_BundleKey artifact) (art_StartupKey artifact) (coerceMap id (art_Regions artifact)) created]>
                (t_artifacts t) |>)).

Definition GetArtifact (digest : string) : PgM Artifact :=
  query [AText digest] mapNotFound (λ t, row (t_artifacts t) digest id).

Definition versionRow (version : FunctionVersion) (created : Time) : VersionRow :=
  mkVersionRow (fv_ID version) (fv_ProjectID version) (fv_Name version) (fv_Runtime version) (fv_Entrypoint version)
    (fv_MemoryMB version) (fv_TimeoutSec version) (fv_NetworkPolicy version) (coerceUTF8 <$> fv_Regions version)
    (coerceMap coerceUTF8 (fv_EnvVars version)) (coerceUTF8 <$> fv_EnvRefs version) (fv_MaxRetries version)
    (nullableText (fv_BuildJobID version)) (fv_ArtifactDigest version) (fv_SourceType version) (fv_State version) created.

Definition scanVersion (r : VersionRow) : FunctionVersion :=
  mkFunctionVersion (vr_id r) (vr_project_id r) (vr_name r) (vr_runtime r) (vr_entrypoint r) (vr_memory_mb r)
    (vr_timeout_sec r) (vr_network_policy r) (vr_regions r) (vr_env_vars r) (vr_env_refs r) (vr_max_retries r)
    (coalesce (vr_build_job_id r)) (vr_source_type r) (vr_artifact_digest r) (vr_state r) (vr_created_at r).

Definition versionArgs (version : FunctionVersion) : list Arg :=
  [AText (fv_ID version); AText (fv_ProjectID version); AText (fv_Name version); AText (fv_Runtime version);
   AText (fv_Entrypoint version); AInt4 (fv_MemoryMB version); AInt4 (fv_TimeoutSec version);
   AText (fv_NetworkPolicy version); AJson (fv_Regions version);
   AJson (mapStrings (fv_EnvVars version) ++ (map_to_list (fv_EnvVars version)).*2); AJson (fv_EnvRefs version);
   AInt4 (fv_MaxRetries version); AText (fv_BuildJobID version); AText (fv_ArtifactDigest version);
   AText (fv_SourceType version)].

(** The version, then the function it is the latest version of. *)
Definition PutFunctionVersion (version : FunctionVersion) : PgM unit :=
  exec (versionArgs version) pgErr (λ t,
    let created := keptOr (vr_created_at <$> t_function_versions t !! fv_ID version) (fv_CreatedAt version) in
    orRefused [(has (t_projects t) (fv_ProjectID version), "function_versions_project_id_fkey")]
      (t <| t_function_versions := <[fv_ID version := versionRow version created]> (t_function_versions t) |>)) ≫= λ _,
  let functionID := fv_ProjectID version +:+ ":" +:+ fv_Name version in
  exec [AText functionID; AText (fv_ProjectID version); AText (fv_Name version); AText (fv_ID version)] pgErr (λ t,
    let created := keptOr (fn_created_at <$> t_functions t !! functionID) (fv_CreatedAt version) in
    orRefused [(has (t_projects t) (fv_ProjectID version), "functions_project_id_fkey");
               (has (t_function_versions t) (fv_ID version), "functions_latest_version_id_fkey")]
      (t <| t_functions := <[functionID := mkFunctionRow functionID (fv_ProjectID version) (fv_Name version)
                               (Some (fv_ID version)) created]> (t_functions t) |>)).

Definition GetFunctionVersion (versionID : string) : PgM FunctionVersion :=
  query [AText versionID] mapNotFound (λ t, row (t_function_versions t) versionID scanVersion).

Definition ListFunctionVersionsByProject (projectID : string) : PgM (list FunctionVersion) :=
  query [AText projectID] pgErr (λ t,
    inr (scanVersion <$> SliceStable (orderDesc vr_created_at vr_id)
           (select 3328 (λ r, bool_decide (vr_project_id r = projectID)) (t_function_versions t)))).

(** ** Build jobs *)

Definition buildJobRow (job : BuildJob) (created : Time) : BuildJobRow :=
  mkBuildJobRow (bj_ID job) (bj_FunctionVersionID job) (nullableText (bj_TargetRegion job))
    (coerceMap coerceUTF8 (bj_Metadata job)) (bj_State job) (nullableText (bj_Error job)) (nullableText (bj_LogsKey job))
    (normalizeRawJSON (bj_Request job)) created (pgTime (bj_UpdatedAt job)).

Definition scanBuildJob (r : BuildJobRow) : BuildJob :=
  mkBuildJob (br_id r) (br_function_version_id r) (coalesce (br_target_region r)) (br_metadata r) (br_state r)
    (coalesce (br_error r)) (coalesce (br_logs_key r)) (jsonb_text (br_request r)) (br_created_at r) (br_updated_at r).

Definition buildJobArgs (job : BuildJob) : list Arg :=
  [AText (bj_ID job); AText (bj_FunctionVersionID job); AText (bj_TargetRegion job);
   AJson (mapStrings (bj_Metadata job) ++ (map_to_list (bj_Metadata job)).*2); AText (bj_State job); AText (bj_Error job);
   AText (bj_LogsKey job); ATree (normalizeRawJSON (bj_Request job))].

Definition PutBuildJob (job : BuildJob) : PgM unit :=
  exec (buildJobArgs job) pgErr (λ t,
    let created := keptOr (br_created_at <$> t_build_jobs t !! bj_ID job) (bj_CreatedAt job) in
    orRefused [(has (t_function_versions t) (bj_FunctionVersionID job), "build_jobs_function_version_id_fkey")]
      (t <| t_build_jobs := <[bj_ID job := buildJobRow job created]> (t_build_jobs t) |>)).

Definition GetBuildJob (jobID : string) : PgM BuildJob :=
  query [AText jobID] mapNotFound (λ t, row (t_build_jobs t) jobID scanBuildJob).

(** [join function_versions fv on fv.id = bj.function_version_id where fv.project_id = $1] *)
Definition buildJobOf (t : Tables) (projectID : string) (r : BuildJobRow) : bool :=
  match t_function_versions t !! br_function_version_id r with
  | Some version => bool_decide (vr_project_id version = projectID)
  | None => false
  end.

Definition ListBuildJobsByProject (projectID : string) : PgM (list BuildJob) :=
  query [AText projectID] pgErr (λ t,
    inr (scanBuildJob <$> SliceStable (orderDesc br_created_at br_id)
           (select 3424 (buildJobOf t projectID) (t_build_jobs t)))).

Definition CountBuildJobsByProjectStates (projectID : string) (states : list string) : PgM Z :=
  query (AText projectID :: (AText <$> states)) pgErr (λ t,
    inr (count_map (λ r, buildJobOf t projectID r && bool_decide (br_state r ∈ states)) (t_build_jobs t))).

Definition CountBuildJobsByStates (states : list string) : PgM Z :=
  query (AText <$> states) pgErr (λ t, inr (count_map (λ r, bool_decide (br_state r ∈ states)) (t_build_jobs t))).

(** ** Execution jobs *)

Definition jobRow (job : ExecutionJob) (created : Time) : JobRow :=
  mkJobRow (job_ID job) (job_FunctionVersionID job) (job_ProjectID job) (nullableText (job_TargetRegion job))
    (job_State job) (normalizeRawJSON (job_Payload job)) (job_MaxRetries job) (job_AttemptCount job)
    (nullableText (job_LastAttemptID job)) (nullableText (job_Error job))
    (sanitizeJobResultForStorage <$> job_Result job) created (pgTime (job_UpdatedAt job)).

Definition scanResult (r : JobResult * Json) : JobResult :=
  mkJobResult (jr_ExitCode r.1) (jr_Logs r.1) (jr_LogsKey r.1) (jsonb_text r.2) (jr_OutputKey r.1) (jr_HostID r.1)
    (jr_Region r.1) (jr_StartedAt r.1) (jr_FinishedAt r.1) (jr_LatencyMs r.1).

Definition scanJob (r : JobRow) : ExecutionJob :=
  mkExecutionJob (jb_id r) (jb_function_version_id r) (jb_project_id r) (coalesce (jb_target_region r)) (jb_state r)
    (jsonb_text (jb_payload r)) (jb_max_retries r) (jb_attempt_count r) (coalesce (jb_last_attempt_id r))
    (coalesce (jb_error r)) (scanResult <$> jb_result r) (jb_created_at r) (jb_updated_at r).

Definition jobArgs (job : ExecutionJob) : list Arg :=
  [AText (job_ID job); AText (job_FunctionVersionID job); AText (job_ProjectID job); AText (job_TargetRegion job);
   ATree (normalizeRawJSON (job_Payload job)); AInt4 (job_MaxRetries job); AInt4 (job_AttemptCount job);
   AText (job_LastAttemptID job); AText (job_Error job)] ++
  match job_Result job with Some r => [ATree (sanitizeJobResultForStorage r).2] | None => [] end.

Definition upsertExecutionJob (job : ExecutionJob) : PgM unit :=
  exec (jobArgs job) pgErr (λ t,
    let created := keptOr (jb_created_at <$> t_execution_jobs t !! job_ID job) (job_CreatedAt job) in
    orRefused [(has (t_function_versions t) (job_FunctionVersionID job), "execution_jobs_function_version_id_fkey");
               (has (t_projects t) (job_ProjectID job), "execution_jobs_project_id_fkey")]
      (t <| t_execution_jobs := <[job_ID job := jobRow job created]> (t_execution_jobs t) |>)).

Definition PutExecutionJob (job : ExecutionJob) : PgM unit := upsertExecutionJob job.
Definition UpdateExecutionJob (job : ExecutionJob) : PgM unit := upsertExecutionJob job.

Definition GetExecutionJob (jobID : string) : PgM ExecutionJob :=
  query [AText jobID] mapNotFound (λ t, row (t_execution_jobs t) jobID scanJob).

Definition ListExecutionJobsByProject (projectID : string) : PgM (list ExecutionJob) :=
  query [AText projectID] pgErr (λ t,
    inr (scanJob <$> SliceStable (orderDesc jb_created_at jb_id)
           (select 3552 (λ r, bool_decide (jb_project_id r = projectID)) (t_execution_jobs t)))).

Definition CountExecutionJobsByProjectStates (projectID : string) (states : list JobState) : PgM Z :=
  query [AText projectID] pgErr (λ t,
    inr (count_map (λ r, bool_decide (jb_project_id r = projectID) && bool_decide (jb_state r ∈ states))
           (t_execution_jobs t))).

Definition CountExecutionJobsByStates (states : list JobState) : PgM Z :=
  query [] pgErr (λ t, inr (count_map (λ r, bool_decide (jb_state r ∈ states)) (t_execution_jobs t))).

(** [order by updated_at asc, created_at asc, id asc] *)
Definition claimOrder (x y : JobRow) : bool :=
  if (jb_updated_at x =? jb_updated_at y)%Z then orderAsc jb_created_at jb_id x y
  else (jb_updated_at x <? jb_updated_at y)%Z.

Definition withState (toState : JobState) (now : Time) (r : JobRow) : JobRow :=
  mkJobRow (jb_id r) (jb_function_version_id r) (jb_project_id r) (jb_target_region r) toState (jb_payload r)
    (jb_max_retries r) (jb_attempt_count r) (jb_last_attempt_id r) (jb_error r) (jb_result r) (jb_created_at r) now.

(** [for update skip locked limit 1] *)
Definition ClaimNextExecutionJob (fromStates : list JobState) (toState : JobState) (now : Time) : PgM ExecutionJob :=
  statement [] mapNotFound (λ n t,
    match SliceStable claimOrder
            (select 3629 (λ r, bool_decide (jb_state r ∈ fromStates) && negb (bool_decide (jb_id r ∈ pg_Locked n)))
               (t_execution_jobs t)) with
    | [] => inl ErrNoRows
    | r :: _ =>
        let r' := withState toState (pgTime now) r in
        inr (scanJob r', t <| t_execution_jobs := <[jb_id r := r']> (t_execution_jobs t) |>)
    end).

Definition requeued (toState : JobState) (now : Time) (error : option string) (r : JobRow) : JobRow :=
  mkJobRow (jb_id r) (jb_function_version_id r) (jb_project_id r) None toState (jb_payload r) (jb_max_retries r)
    (jb_attempt_count r) (jb_last_attempt_id r) error (jb_result r) (jb_created_at r) now.

Definition staleRow (fromState : JobState) (staleBefore : Time) (r : JobRow) : bool :=
  bool_decide (jb_state r = fromState) && (jb_updated_at r <=? staleBefore)%Z.

Definition RequeueStaleExecutionJobs (fromState toState : JobState) (staleBefore now : Time) (errorMessage : string) :
    PgM Z :=
  statement [AText (TrimSpace errorMessage)] pgErr (λ _ t,
    let stale := staleRow fromState (pgTime staleBefore) in
    inr (count_map stale (t_execution_jobs t),
         t <| t_execution_jobs :=
           (λ r, if stale r then requeued toState (pgTime now) (nullableText (TrimSpace errorMessage)) r else r)
             <$> t_execution_jobs t |>)).

Definition CountActiveExecutionJobsByRegion (region : string) : PgM Z :=
  query [AText region] pgErr (λ t,
    inr (count_map (λ r, bool_decide (jb_target_region r = Some region) &&
                         negb (bool_decide (jb_state r ∈ [JobStateSucceeded; JobStateFailed]))) (t_execution_jobs t))).

(** ** Attempts and costs *)

Definition attemptRow (attempt : Attempt) (created : Time) : AttemptRow :=
  mkAttemptRow (att_ID attempt) (att_JobID attempt) (att_FunctionVersionID attempt) (nullableText (att_HostID attempt))
    (att_Region attempt) (att_State attempt) (nullableMode (att_StartMode attempt)) (nullableTime (att_StartedAt attempt))
    (pgTime (att_LeaseExpiresAt attempt)) (nullableText (att_Error attempt)) created (pgTime (att_UpdatedAt attempt)).

(** The latency is not stored. *)
Definition scanAttempt (r : AttemptRow) : Attempt :=
  mkAttempt (at_id r) (at_job_id r) (at_function_version_id r) (coalesce (at_host_id r)) (at_region r) (at_state r)
    (default StartModeUnset (at_start_mode r)) (default 0%Z (at_started_at r)) 0 (at_lease_expires_at r)
    (coalesce (at_error r)) (at_created_at r) (at_updated_at r).

Definition attemptArgs (attempt : Attempt) : list Arg :=
  [AText (att_ID attempt); AText (att_JobID attempt); AText (att_FunctionVersionID attempt); AText (att_HostID attempt);
   AText (att_Region attempt); AText (att_Error attempt)].

Definition upsertAttempt (attempt : Attempt) : PgM unit :=
  exec (attemptArgs attempt) pgErr (λ t,
    let created := keptOr (at_created_at <$> t_attempts t !! att_ID attempt) (att_CreatedAt attempt) in
    orRefused [(has (t_execution_jobs t) (att_JobID attempt), "attempts_job_id_fkey");
               (has (t_function_versions t) (att_FunctionVersionID attempt), "attempts_function_version_id_fkey")]
      (t <| t_attempts := <[att_ID attempt := attemptRow attempt created]> (t_attempts t) |>)) ≫= λ _,
  exec [AText (att_ID attempt); AText (att_HostID attempt); AText (att_Region attempt)] pgErr (λ t,
    let created := keptOr (ls_created_at <$> t_leases t !! att_ID attempt) (att_CreatedAt attempt) in
    orRefused [(has (t_attempts t) (att_ID attempt), "leases_attempt_id_fkey")]
      (t <| t_leases := <[att_ID attempt := mkLeaseRow (att_ID attempt) (nullableText (att_HostID attempt))
                            (att_Region attempt) (pgTime (att_LeaseExpiresAt attempt)) created
                            (pgTime (att_UpdatedAt attempt))]> (t_leases t) |>)).

Definition PutAttempt (attempt : Attempt) : PgM unit := upsertAttempt attempt.
Definition UpdateAttempt (attempt : Attempt) : PgM unit := upsertAttempt attempt.

Definition GetAttempt (attemptID : string) : PgM Attempt :=
  query [AText attemptID] mapNotFound (λ t, row (t_attempts t) attemptID scanAttempt).

Definition ListAttemptsByJob (jobID : string) : PgM (list Attempt) :=
  query [AText jobID] pgErr (λ t,
    inr (scanAttempt <$> SliceStable (orderAsc at_created_at at_id)
           (select 3768 (λ r, bool_decide (at_job_id r = jobID)) (t_attempts t)))).

Definition costRow (record : CostRecord) : CostRow :=
  mkCostRow (cost_ID record) (cost_TenantID record) (cost_ProjectID record) (nullableText (cost_JobID record))
    (nullableText (cost_AttemptID record)) (nullableText (cost_HostID record)) (nullableText (cost_Region record))
    (nullableMode (cost_StartMode record)) (cost_CPUMs record) (cost_MemoryMBMs record) (cost_WarmInstanceMs record)
    (cost_DataEgressBytes record) (pgTime (cost_CreatedAt record)).

Definition scanCost (r : CostRow) : CostRecord :=
  mkCostRecord (co_id r) (co_tenant_id r) (co_project_id r) (coalesce (co_job_id r)) (coalesce (co_attempt_id r))
    (coalesce (co_host_id r)) (coalesce (co_region r)) (default StartModeUnset (co_start_mode r)) (co_cpu_ms r)
    (co_memory_mb_ms r) (co_warm_instance_ms r) (co_data_egress_bytes r) (co_created_at r).

Definition costArgs (record : CostRecord) : list Arg :=
  [AText (cost_ID record); AText (cost_TenantID record); AText (cost_ProjectID record); AText (cost_JobID record);
   AText (cost_AttemptID record); AText (cost_HostID record); AText (cost_Region record)].

Definition PutCostRecord (record : CostRecord) : PgM unit :=
  exec (costArgs record) pgErr (λ t,
    orRefused [(has (t_tenants t) (cost_TenantID record), "cost_records_tenant_id_fkey");
               (has (t_projects t) (cost_ProjectID record), "cost_records_project_id_fkey");
               (hasOpt (t_execution_jobs t) (nullableText (cost_JobID record)), "cost_records_job_id_fkey");
               (hasOpt (t_attempts t) (nullableText (cost_AttemptID record)), "cost_records_attempt_id_fkey")]
      (t <| t_cost_records := <[cost_ID record := costRow record]> (t_cost_records t) |>)).

Definition ListCostRecordsByJob (jobID : string) : PgM (list CostRecord) :=
  query [AText jobID] pgErr (λ t,
    inr (scanCost <$> SliceStable (orderAsc co_created_at co_id)
           (select 3834 (λ r, bool_decide (co_job_id r = Some jobID)) (t_cost_records t)))).

(** [order by lease_expires_at asc] *)
Definition ListExpiredAttempts (before : Time) : PgM (list Attempt) :=
  query [] pgErr (λ t,
    inr (scanAttempt <$> SliceStable (less_by at_lease_expires_at)
           (select 3862 (λ r, negb (Terminal (at_state r)) && (at_lease_expires_at r <=? pgTime before)%Z) (t_attempts t)))).

(** ** Hosts and warm pools *)

Definition hostRow (host : Host) : Host :=
  mkHost (host_ID host) (host_Region host) (host_Driver host) (host_State host) (host_AvailableSlots host)
    (host_AvailableFullNetworkSlots host) (host_BlankWarm host) (coerceMap id (host_FunctionWarm host))
    (pgTime (host_LastHeartbeat host)).

Definition hostArgs (host : Host) : list Arg :=
  [AText (host_ID host); AText (host_Region host); AText (host_Driver host); AInt4 (host_AvailableSlots host);
   AInt4 (host_AvailableFullNetworkSlots host); AInt4 (host_BlankWarm host); AJson (mapStrings (host_FunctionWarm host))].

Definition upsertHost (host : Host) : PgM unit :=
  exec (hostArgs host) pgErr (λ t, inr (t <| t_hosts := <[host_ID host := hostRow host]> (t_hosts t) |>)).

Definition PutHost (host : Host) : PgM unit := upsertHost host.
Definition UpdateHost (host : Host) : PgM unit := upsertHost host.

Definition GetHost (hostID : string) : PgM Host :=
  query [AText hostID] mapNotFound (λ t, row (t_hosts t) hostID id).

Definition ListHostsByRegion (region : string) : PgM (list Host) :=
  query [AText region] pgErr (λ t,
    inr (SliceStable (λ x y, pg_ltb (host_ID x) (host_ID y))
           (select 3948 (λ h, bool_decide (host_Region h = region)) (t_hosts t)))).

(** A transaction: the changes of its body are undone unless the commit is
    executed. *)
Definition transaction {A} (body : PgM A) : PgM A := λ db,
  match (statement [] pgErr (λ _ t, inr (tt, t)) ≫= λ _, body) db with
  | (Err e, db') => (Err e, db' <| pg_tables := pg_tables db |>)
  | (Ok a, db') =>
      let committed := db' <| pg_calls := S (pg_calls db') |> in
      match pg_Fault (pg_calls db') with
      | None => (Ok a, committed)
      | Some (e, true) => (Err e, committed)
      | Some (e, false) => (Err e, committed <| pg_tables := pg_tables db |>)
      end
  end.

Definition poolPk (p : WarmPool) : string * string * string := (wp_Region p, wp_HostID p, wp_FunctionVersionID p).

Definition poolRow (p : WarmPool) : WarmPool :=
  mkWarmPool (wp_Region p) (wp_HostID p) (wp_FunctionVersionID p) (wp_BlankWarm p) (wp_FunctionWarm p)
    (pgTime (wp_UpdatedAt p)).

Definition insertPool (p : WarmPool) : PgM unit :=
  exec [AText (wp_Region p); AText (wp_HostID p); AText (wp_FunctionVersionID p); AInt4 (wp_BlankWarm p);
        AInt4 (wp_FunctionWarm p)] pgErr (λ t,
    orRefused [(has (t_hosts t) (wp_HostID p), "warm_pools_host_id_fkey")]
      (t <| t_warm_pools := <[poolPk p := poolRow p]> (t_warm_pools t) |>)).

Definition deletePools (region hostID : string) : PgM unit :=
  exec [AText region; AText hostID] pgErr (λ t,
    inr (t <| t_warm_pools := filter (λ e, (e.1.1.1, e.1.1.2) ≠ (region, hostID)) (t_warm_pools t) |>)).

Definition ReplaceWarmPoolsForHost (region hostID : string) (pools : list WarmPool) : PgM unit :=
  transaction (deletePools region hostID ≫= λ _, for_each pools insertPool).

(** [order by host_id asc, function_version_id asc] *)
Definition poolOrder (x y : WarmPool) : bool :=
  if bool_decide (wp_HostID x = wp_HostID y) then pg_ltb (wp_FunctionVersionID x) (wp_FunctionVersionID y)
  else pg_ltb (wp_HostID x) (wp_HostID y).

Definition ListWarmPoolsByRegion (region : string) : PgM (list WarmPool) :=
  query [AText region] pgErr (λ t,
    inr (SliceStable poolOrder (filter (λ p, wp_Region p = region) (map_to_list (t_warm_pools t)).*2))).

(** ** Triggers and regions *)

Definition webhookRow (trigger : WebhookTrigger) : WebhookRow :=
  mkWebhookRow (wt_Token trigger) (wt_ProjectID trigger) (wt_FunctionVersionID trigger)
    (nullableText (wt_Description trigger)) (wt_Enabled trigger) (pgTime (wt_CreatedAt trigger)).

Definition scanWebhook (r : WebhookRow) : WebhookTrigger :=
  mkWebhookTrigger (wk_token r) (wk_project_id r) (wk_function_version_id r) (coalesce (wk_description r))
    (wk_enabled r) (wk_created_at r).

Definition PutWebhookTrigger (trigger : WebhookTrigger) : PgM unit :=
  exec [AText (wt_Token trigger); AText (wt_ProjectID trigger); AText (wt_FunctionVersionID trigger);
        AText (wt_Description trigger)] mapExecError (λ t,
    match t_webhook_triggers t !! wt_Token trigger with
    | Some _ => inl (PgError "23505" "webhook_triggers_pkey")
    | None =>
        orRefused [(has (t_projects t) (wt_ProjectID trigger), "webhook_triggers_project_id_fkey");
                   (has (t_function_versions t) (wt_FunctionVersionID trigger), "webhook_triggers_function_version_id_fkey")]
          (t <| t_webhook_triggers := <[wt_Token trigger := webhookRow trigger]> (t_webhook_triggers t) |>)
    end).

Definition GetWebhookTrigger (token : string) : PgM WebhookTrigger :=
  query [AText token] mapNotFound (λ t, row (t_webhook_triggers t) token scanWebhook).

Definition ListWebhookTriggersByFunctionVersion (versionID : string) : PgM (list WebhookTrigger) :=
  query [AText versionID] pgErr (λ t,
    inr (scanWebhook <$> SliceStable (orderAsc wk_created_at wk_token)
           (select 4053 (λ r, bool_decide (wk_function_version_id r = versionID)) (t_webhook_triggers t)))).

Definition httpTriggerRow (trigger : HTTPTrigger) : HTTPTriggerRow :=
  mkHTTPTriggerRow (ht_Token trigger) (ht_ProjectID trigger) (ht_FunctionVersionID trigger)
    (nullableText (ht_Description trigger)) (ht_AuthMode trigger) (ht_Enabled trigger) (pgTime (ht_CreatedAt trigger)).

Definition scanHTTPTrigger (r : HTTPTriggerRow) : HTTPTrigger :=
  mkHTTPTrigger (hk_token r) (hk_project_id r) (hk_function_version_id r) (coalesce (hk_description r))
    (hk_auth_mode r) (hk_enabled r) (hk_created_at r).

(** The table refers to no other. *)
Definition PutHTTPTrigger (trigger : HTTPTrigger) : PgM unit :=
  exec [AText (ht_Token trigger); AText (ht_ProjectID trigger); AText (ht_FunctionVersionID trigger);
        AText (ht_Description trigger)] mapExecError (λ t,
    match t_http_triggers t !! ht_Token trigger with
    | Some _ => inl (PgError "23505" "http_triggers_pkey")
    | None => inr (t <| t_http_triggers := <[ht_Token trigger := httpTriggerRow trigger]> (t_http_triggers t) |>)
    end).

Definition GetHTTPTrigger (token : string) : PgM HTTPTrigger :=
  query [AText token] mapNotFound (λ t, row (t_http_triggers t) token scanHTTPTrigger).

Definition ListHTTPTriggersByFunctionVersion (versionID : string) : PgM (list HTTPTrigger) :=
  query [AText versionID] pgErr (λ t,
    inr (scanHTTPTrigger <$> SliceStable (orderAsc hk_created_at hk_token)
           (select 4102 (λ r, bool_decide (hk_function_version_id r = versionID)) (t_http_triggers t)))).

Definition regionRow (region : Region) : RegionRow :=
  mkRegionRow (reg_Name region) (reg_State region) (reg_AvailableHosts region) (reg_BlankWarm region)
    (reg_FunctionWarm region) (pgTime (reg_LastHeartbeatAt region)) (nullableText (reg_LastError region)).

(** The free slots with full network are not stored. *)
Definition scanRegion (r : RegionRow) : Region :=
  mkRegion (rg_name r) (rg_state r) (rg_available_hosts r) 0 (rg_blank_warm r) (rg_function_warm r)
    (rg_last_heartbeat_at r) (coalesce (rg_last_error r)).

Definition regionArgs (region : Region) : list Arg :=
  [AText (reg_Name region); AText (reg_State region); AInt4 (reg_AvailableHosts region); AInt4 (reg_BlankWarm region);
   AInt4 (reg_FunctionWarm region); AText (reg_LastError region)].

Definition PutRegion (region : Region) : PgM unit :=
  exec (regionArgs region) pgErr (λ t, inr (t <| t_regions := <[reg_Name region := regionRow region]> (t_regions t) |>)).

Definition GetRegion (regionName : string) : PgM Region :=
  query [AText regionName] mapNotFound (λ t, row (t_regions t) regionName scanRegion).

Definition ListRegions : PgM (list Region) :=
  query [] pgErr (λ t,
    inr (SliceStable (less_str reg_Name)
           (scanRegion <$> SliceStable (λ x y, pg_ltb (rg_name x) (rg_name y)) (select 4156 (λ _, true) (t_regions t))))).

(** ** Migrations *)

(** A statement on the schema. *)
Definition schemaStatement (onErr : GoError → GoError) (f : PgState → PgState) : PgM unit := λ db,
  let db' := db <| pg_calls := S (pg_calls db) |> in
  match pg_Fault (pg_calls db) with
  | None => (Ok tt, f db')
  | Some (e, true) => (Err (onErr e), f db')
  | Some (e, false) => (Err (onErr e), db')
  end.

(** One migration file: run unless it is recorded, then recorded. *)
Definition applyMigration (name : string) : PgM unit :=
  schemaStatement id id ≫= λ _,
  applied ← gets (λ db, bool_decide (name ∈ pg_migrations db));
  if applied : bool then mret tt
  else
    schemaStatement (λ e, wrapText ("apply migration " +:+ name +:+ ": ") e "")
      (λ db, db <| pg_scripts := pg_scripts db ++ [name] |>) ≫= λ _,
    schemaStatement id (λ db, db <| pg_migrations := {[name]} ∪ pg_migrations db |>).

(** [RunMigrations] over the names of the embedded files. *)
Definition RunMigrations (entries : list string) : PgM unit :=
  schemaStatement id id ≫= λ _,
  schemaStatement id id ≫= λ _,
  for_each (SliceStable string_ltb entries) applyMigration.

End Methods.
