(* ===== verification/PgRefine.v ===== *)
(** * PgRefine: the two stores behind one interface

    The methods of the interface [store.Store] as an indexed type of calls
    ([StoreE]) with one handler per implementation: [mem], the in-memory store,
    and [pg], the store on Postgres.

    The refinement relates a database to the in-memory store with the same
    records ([stores]).  The in-memory store is given each call with its values
    as a database keeps them ([normal]): times in microseconds, times of creation
    that updates leave alone, JSON as the database prints it.  Then every call the
    database accepts ([accepted]) has the same outcome on both stores, apart from
    the cases where they are written differently ([comparable]).  A call that
    fails leaves the database as it was or as if it had succeeded, whatever
    faults occur, and no call breaks a reference. *)

From Stdlib Require Import Ascii.
From stdpp Require Import base decidable tactics numbers list gmap strings sorting.
From S2P Require Import Prelude Text Domain MemStore Postgres.

(** ** The interface *)

Inductive StoreE : Type → Type :=
| CEnsureProject (now : Time) (projectID tenantID name : string) : StoreE Project
| CGetProject (projectID : string) : StoreE Project
| CListProjectsByTenant (tenantID : string) : StoreE (list Project)
| CPutAPIKey (key : APIKey) : StoreE unit
| CGetAPIKeyByHash (keyHash : string) : StoreE APIKey
| CTouchAPIKeyLastUsed (keyHash : string) (usedAt : Time) : StoreE unit
| CCreateIdempotencyRecord (record : IdempotencyRecord) : StoreE unit
| CUpdateIdempotencyRecord (record : IdempotencyRecord) : StoreE unit
| CDeleteIdempotencyRecord (scope projectID key : string) : StoreE unit
| CGetIdempotencyRecord (scope projectID key : string) : StoreE IdempotencyRecord
| CPutArtifact (artifact : Artifact) : StoreE unit
| CGetArtifact (digest : string) : StoreE Artifact
| CPutFunctionVersion (version : FunctionVersion) : StoreE unit
| CGetFunctionVersion (versionID : string) : StoreE FunctionVersion
| CListFunctionVersionsByProject (projectID : string) : StoreE (list FunctionVersion)
| CPutBuildJob (job : BuildJob) : StoreE unit
| CGetBuildJob (jobID : string) : StoreE BuildJob
| CListBuildJobsByProject (projectID : string) : StoreE (list BuildJob)
| CCountBuildJobsByProjectStates (projectID : string) (states : list string) : StoreE Z
| CCountBuildJobsByStates (states : list string) : StoreE Z
| CPutExecutionJob (job : ExecutionJob) : StoreE unit
| CUpdateExecutionJob (job : ExecutionJob) : StoreE unit
| CGetExecutionJob (jobID : string) : StoreE ExecutionJob
| CListExecutionJobsByProject (projectID : string) : StoreE (list ExecutionJob)
| CCountExecutionJobsByProjectStates (projectID : string) (states : list JobState) : StoreE Z
| CCountExecutionJobsByStates (states : list JobState) : StoreE Z
| CClaimNextExecutionJob (fromStates : list JobState) (toState : JobState) (now : Time) : StoreE ExecutionJob
| CRequeueStaleExecutionJobs (fromState toState : JobState) (staleBefore now : Time) (errorMessage : string) : StoreE Z
| CCountActiveExecutionJobsByRegion (region : string) : StoreE Z
| CPutAttempt (attempt : Attempt) : StoreE unit
| CUpdateAttempt (attempt : Attempt) : StoreE unit
| CGetAttempt (attemptID : string) : StoreE Attempt
| CListAttemptsByJob (jobID : string) : StoreE (list Attempt)
| CPutCostRecord (record : CostRecord) : StoreE unit
| CListCostRecordsByJob (jobID : string) : StoreE (list CostRecord)
| CListExpiredAttempts (before : Time) : StoreE (list Attempt)
| CPutHost (host : Host) : StoreE unit
| CUpdateHost (host : Host) : StoreE unit
| CGetHost (hostID : string) : StoreE Host
| CListHostsByRegion (region : string) : StoreE (list Host)
| CReplaceWarmPoolsForHost (region hostID : string) (pools : list WarmPool) : StoreE unit
| CListWarmPoolsByRegion (region : string) : StoreE (list WarmPool)
| CPutWebhookTrigger (trigger : WebhookTrigger) : StoreE unit
| CGetWebhookTrigger (token : string) : StoreE WebhookTrigger
| CListWebhookTriggersByFunctionVersion (versionID : string) : StoreE (list WebhookTrigger)
| CPutHTTPTrigger (trigger : HTTPTrigger) : StoreE unit
| CGetHTTPTrigger (token : string) : StoreE HTTPTrigger
| CListHTTPTriggersByFunctionVersion (versionID : string) : StoreE (list HTTPTrigger)
| CPutRegion (region : Region) : StoreE unit
| CGetRegion (region : string) : StoreE Region
| CListRegions : StoreE (list Region).

Definition mem `{!MapOrder} {A} (c : StoreE A) : M Store A :=
  match c with
  | CEnsureProject now projectID tenantID name => MemStore.EnsureProject now projectID tenantID name
  | CGetProject projectID => MemStore.GetProject projectID
  | CListProjectsByTenant tenantID => MemStore.ListProjectsByTenant tenantID
  | CPutAPIKey key => MemStore.PutAPIKey key
  | CGetAPIKeyByHash keyHash => MemStore.GetAPIKeyByHash keyHash
  | CTouchAPIKeyLastUsed keyHash usedAt => MemStore.TouchAPIKeyLastUsed keyHash usedAt
  | CCreateIdempotencyRecord record => MemStore.CreateIdempotencyRecord record
  | CUpdateIdempotencyRecord record => MemStore.UpdateIdempotencyRecord record
  | CDeleteIdempotencyRecord scope projectID key => MemStore.DeleteIdempotencyRecord scope projectID key
  | CGetIdempotencyRecord scope projectID key => MemStore.GetIdempotencyRecord scope projectID key
  | CPutArtifact artifact => MemStore.PutArtifact artifact
  | CGetArtifact digest => MemStore.GetArtifact digest
  | CPutFunctionVersion version => MemStore.PutFunctionVersion version
  | CGetFunctionVersion versionID => MemStore.GetFunctionVersion versionID
  | CListFunctionVersionsByProject projectID => MemStore.ListFunctionVersionsByProject projectID
  | CPutBuildJob job => MemStore.PutBuildJob job
  | CGetBuildJob jobID => MemStore.GetBuildJob jobID
  | CListBuildJobsByProject projectID => MemStore.ListBuildJobsByProject projectID
  | CCountBuildJobsByProjectStates projectID states => MemStore.CountBuildJobsByProjectStates projectID states
  | CCountBuildJobsByStates states => MemStore.CountBuildJobsByStates states
  | CPutExecutionJob job => MemStore.PutExecutionJob job
  | CUpdateExecutionJob job => MemStore.UpdateExecutionJob job
  | CGetExecutionJob jobID => MemStore.GetExecutionJob jobID
  | CListExecutionJobsByProject projectID => MemStore.ListExecutionJobsByProject projectID
  | CCountExecutionJobsByProjectStates projectID states => MemStore.CountExecutionJobsByProjectStates projectID states
  | CCountExecutionJobsByStates states => MemStore.CountExecutionJobsByStates states
  | CClaimNextExecutionJob fromStates toState now => MemStore.ClaimNextExecutionJob fromStates toState now
  | CRequeueStaleExecutionJobs fromState toState staleBefore now errorMessage => MemStore.RequeueStaleExecutionJobs fromState toState staleBefore now errorMessage
  | CCountActiveExecutionJobsByRegion region => MemStore.CountActiveExecutionJobsByRegion region
  | CPutAttempt attempt => MemStore.PutAttempt attempt
  | CUpdateAttempt attempt => MemStore.UpdateAttempt attempt
  | CGetAttempt attemptID => MemStore.GetAttempt attemptID
  | CListAttemptsByJob jobID => MemStore.ListAttemptsByJob jobID
  | CPutCostRecord record => MemStore.PutCostRecord record
  | CListCostRecordsByJob jobID => MemStore.ListCostRecordsByJob jobID
  | CListExpiredAttempts before => MemStore.ListExpiredAttempts before
  | CPutHost host => MemStore.PutHost host
  | CUpdateHost host => MemStore.UpdateHost host
  | CGetHost hostID => MemStore.GetHost hostID
  | CListHostsByRegion region => MemStore.ListHostsByRegion region
  | CReplaceWarmPoolsForHost region hostID pools => MemStore.ReplaceWarmPoolsForHost region hostID pools
  | CListWarmPoolsByRegion region => MemStore.ListWarmPoolsByRegion region
  | CPutWebhookTrigger trigger => MemStore.PutWebhookTrigger trigger
  | CGetWebhookTrigger token => MemStore.GetWebhookTrigger token
  | CListWebhookTriggersByFunctionVersion versionID => MemStore.ListWebhookTriggersByFunctionVersion versionID
  | CPutHTTPTrigger trigger => MemStore.PutHTTPTrigger trigger
  | CGetHTTPTrigger token => MemStore.GetHTTPTrigger token
  | CListHTTPTriggersByFunctionVersion versionID => MemStore.ListHTTPTriggersByFunctionVersion versionID
  | CPutRegion region => MemStore.PutRegion region
  | CGetRegion region => MemStore.GetRegion region
  | CListRegions => MemStore.ListRegions
  end.

Definition pg `{!PgEnv} {A} (c : StoreE A) : PgM A :=
  match c with
  | CEnsureProject now projectID tenantID name => Postgres.EnsureProject now projectID tenantID name
  | CGetProject projectID => Postgres.GetProject projectID
  | CListProjectsByTenant tenantID => Postgres.ListProjectsByTenant tenantID
  | CPutAPIKey key => Postgres.PutAPIKey key
  | CGetAPIKeyByHash keyHash => Postgres.GetAPIKeyByHash keyHash
  | CTouchAPIKeyLastUsed keyHash usedAt => Postgres.TouchAPIKeyLastUsed keyHash usedAt
  | CCreateIdempotencyRecord record => Postgres.CreateIdempotencyRecord record
  | CUpdateIdempotencyRecord record => Postgres.UpdateIdempotencyRecord record
  | CDeleteIdempotencyRecord scope projectID key => Postgres.DeleteIdempotencyRecord scope projectID key
  | CGetIdempotencyRecord scope projectID key => Postgres.GetIdempotencyRecord scope projectID key
  | CPutArtifact artifact => Postgres.PutArtifact artifact
  | CGetArtifact digest => Postgres.GetArtifact digest
  | CPutFunctionVersion version => Postgres.PutFunctionVersion version
  | CGetFunctionVersion versionID => Postgres.GetFunctionVersion versionID
  | CListFunctionVersionsByProject projectID => Postgres.ListFunctionVersionsByProject projectID
  | CPutBuildJob job => Postgres.PutBuildJob job
  | CGetBuildJob jobID => Postgres.GetBuildJob jobID
  | CListBuildJobsByProject projectID => Postgres.ListBuildJobsByProject projectID
  | CCountBuildJobsByProjectStates projectID states => Postgres.CountBuildJobsByProjectStates projectID states
  | CCountBuildJobsByStates states => Postgres.CountBuildJobsByStates states
  | CPutExecutionJob job => Postgres.PutExecutionJob job
  | CUpdateExecutionJob job => Postgres.UpdateExecutionJob job
  | CGetExecutionJob jobID => Postgres.GetExecutionJob jobID
  | CListExecutionJobsByProject projectID => Postgres.ListExecutionJobsByProject projectID
  | CCountExecutionJobsByProjectStates projectID states => Postgres.CountExecutionJobsByProjectStates projectID states
  | CCountExecutionJobsByStates states => Postgres.CountExecutionJobsByStates states
  | CClaimNextExecutionJob fromStates toState now => Postgres.ClaimNextExecutionJob fromStates toState now
  | CRequeueStaleExecutionJobs fromState toState staleBefore now errorMessage => Postgres.RequeueStaleExecutionJobs fromState toState staleBefore now errorMessage
  | CCountActiveExecutionJobsByRegion region => Postgres.CountActiveExecutionJobsByRegion region
  | CPutAttempt attempt => Postgres.PutAttempt attempt
  | CUpdateAttempt attempt => Postgres.UpdateAttempt attempt
  | CGetAttempt attemptID => Postgres.GetAttempt attemptID
  | CListAttemptsByJob jobID => Postgres.ListAttemptsByJob jobID
  | CPutCostRecord record => Postgres.PutCostRecord record
  | CListCostRecordsByJob jobID => Postgres.ListCostRecordsByJob jobID
  | CListExpiredAttempts before => Postgres.ListExpiredAttempts before
  | CPutHost host => Postgres.PutHost host
  | CUpdateHost host => Postgres.UpdateHost host
  | CGetHost hostID => Postgres.GetHost hostID
  | CListHostsByRegion region => Postgres.ListHostsByRegion region
  | CReplaceWarmPoolsForHost region hostID pools => Postgres.ReplaceWarmPoolsForHost region hostID pools
  | CListWarmPoolsByRegion region => Postgres.ListWarmPoolsByRegion region
  | CPutWebhookTrigger trigger => Postgres.PutWebhookTrigger trigger
  | CGetWebhookTrigger token => Postgres.GetWebhookTrigger token
  | CListWebhookTriggersByFunctionVersion versionID => Postgres.ListWebhookTriggersByFunctionVersion versionID
  | CPutHTTPTrigger trigger => Postgres.PutHTTPTrigger trigger
  | CGetHTTPTrigger token => Postgres.GetHTTPTrigger token
  | CListHTTPTriggersByFunctionVersion versionID => Postgres.ListHTTPTriggersByFunctionVersion versionID
  | CPutRegion region => Postgres.PutRegion region
  | CGetRegion region => Postgres.GetRegion region
  | CListRegions => Postgres.ListRegions
  end.

(** ** The relation *)

(** Composite keys without colons in all parts but the last are the texts the
    in-memory store files records under. *)
Record idempotency_rel (rows : gmap (string * string * string) IdempotencyRow) (m : gmap string IdempotencyRecord) : Prop := {
  idempotency_rows : ∀ k r, rows !! k = Some r → (ir_scope r, ir_project_id r, ir_key r) = k;
  idempotency_same : ∀ scope project key, no_colon scope = true → no_colon project = true →
    m !! idempotencyKey scope project key = scanIdempotency <$> rows !! (scope, project, key);
}.

Definition colon_free (p : WarmPool) : bool := no_colon (wp_Region p) && no_colon (wp_HostID p).

Record pools_rel (rows : gmap (string * string * string) WarmPool) (m : gmap string WarmPool) : Prop := {
  pools_rows : ∀ k p, rows !! k = Some p → poolPk p = k ∧ colon_free p = true;
  pools_mem : ∀ k p, m !! k = Some p → pool_key p = k ∧ colon_free p = true;
  pools_same : ∀ region host version, no_colon region = true → no_colon host = true →
    m !! warmPoolKey region host version = rows !! (region, host, version);
}.

Record stores `{!PgEnv} (t : Tables) (s : Store) : Prop := {
  rel_wf : store_wf s;
  rel_apiKeys : st_apiKeys s = scanAPIKey <$> t_api_keys t;
  rel_projects : st_projects s = t_projects t;
  rel_idempotency : idempotency_rel (t_idempotency_records t) (st_idempotency s);
  rel_artifacts : st_artifacts s = t_artifacts t;
  rel_functions : st_functions s = scanVersion <$> t_function_versions t;
  rel_buildJobs : st_buildJobs s = scanBuildJob <$> t_build_jobs t;
  rel_executionJobs : st_executionJobs s = scanJob <$> t_execution_jobs t;
  rel_attempts : st_attempts s = scanAttempt <$> t_attempts t;
  rel_costRecords : st_costRecords s = scanCost <$> t_cost_records t;
  rel_hosts : st_hosts s = t_hosts t;
  rel_warmPools : pools_rel (t_warm_pools t) (st_warmPools s);
  rel_webhookTriggers : st_webhookTriggers s = scanWebhook <$> t_webhook_triggers t;
  rel_httpTriggers : st_httpTriggers s = scanHTTPTrigger <$> t_http_triggers t;
  rel_regions : st_regions s = scanRegion <$> t_regions t;
}.

Section Calls.
Context `{!PgEnv}.

(** The call as the in-memory store gets it. *)
Definition normalArtifact (t : Tables) (a : Artifact) : Artifact :=
  mkArtifact (art_Digest a) (art_SizeBytes a) (art_BundleKey a) (art_StartupKey a) (coerceMap id (art_Regions a))
    (keptOr (art_CreatedAt <$> t_artifacts t !! art_Digest a) (art_CreatedAt a)).
Definition normalVersion (t : Tables) (v : FunctionVersion) : FunctionVersion :=
  scanVersion (versionRow v (keptOr (vr_created_at <$> t_function_versions t !! fv_ID v) (fv_CreatedAt v))).
Definition normalBuildJob (t : Tables) (j : BuildJob) : BuildJob :=
  scanBuildJob (buildJobRow j (keptOr (br_created_at <$> t_build_jobs t !! bj_ID j) (bj_CreatedAt j))).
Definition normalJob (t : Tables) (j : ExecutionJob) : ExecutionJob :=
  scanJob (jobRow j (keptOr (jb_created_at <$> t_execution_jobs t !! job_ID j) (job_CreatedAt j))).
Definition normalAttempt (t : Tables) (a : Attempt) : Attempt :=
  scanAttempt (attemptRow a (keptOr (at_created_at <$> t_attempts t !! att_ID a) (att_CreatedAt a))).
Definition normalRecord (t : Tables) (r : IdempotencyRecord) : IdempotencyRecord :=
  (scanIdempotency (idempotencyRow r)) <| idem_CreatedAt :=
    keptOr (ir_created_at <$> t_idempotency_records t !! idempotencyPk r) (idem_CreatedAt r) |>.

Definition normal (t : Tables) {A} (c : StoreE A) : StoreE A :=
  match c with
  | CEnsureProject now p tn n => CEnsureProject (pgTime now) p tn n
  | CPutAPIKey k => CPutAPIKey (scanAPIKey (apiKeyRow k))
  | CTouchAPIKeyLastUsed k u => CTouchAPIKeyLastUsed k (pgTime u)
  | CCreateIdempotencyRecord r => CCreateIdempotencyRecord (scanIdempotency (idempotencyRow r))
  | CUpdateIdempotencyRecord r => CUpdateIdempotencyRecord (normalRecord t r)
  | CPutArtifact a => CPutArtifact (normalArtifact t a)
  | CPutFunctionVersion v => CPutFunctionVersion (normalVersion t v)
  | CPutBuildJob j => CPutBuildJob (normalBuildJob t j)
  | CPutExecutionJob j => CPutExecutionJob (normalJob t j)
  | CUpdateExecutionJob j => CUpdateExecutionJob (normalJob t j)
  | CClaimNextExecutionJob from to now => CClaimNextExecutionJob from to (pgTime now)
  | CRequeueStaleExecutionJobs from to sb now e => CRequeueStaleExecutionJobs from to (pgTime sb) (pgTime now) e
  | CPutAttempt a => CPutAttempt (normalAttempt t a)
  | CUpdateAttempt a => CUpdateAttempt (normalAttempt t a)
  | CPutCostRecord r => CPutCostRecord (scanCost (costRow r))
  | CListExpiredAttempts b => CListExpiredAttempts (pgTime b)
  | CPutHost h => CPutHost (hostRow h)
  | CUpdateHost h => CUpdateHost (hostRow h)
  | CReplaceWarmPoolsForHost r h ps => CReplaceWarmPoolsForHost r h (poolRow <$> ps)
  | CPutWebhookTrigger w => CPutWebhookTrigger (scanWebhook (webhookRow w))
  | CPutHTTPTrigger h => CPutHTTPTrigger (scanHTTPTrigger (httpTriggerRow h))
  | CPutRegion r => CPutRegion (scanRegion (regionRow r))
  | c => c
  end.

(** Where the stores are written to agree.  An update of a missing idempotency
    record creates it in memory only; keys with colons collide in memory; a blank
    message clears the error of requeued jobs in the database only; NULL is never
    equal to an empty text; an attempt without a lease never expires in memory. *)
Definition comparable (t : Tables) {A} (c : StoreE A) : bool :=
  match c with
  | CCreateIdempotencyRecord r => no_colon (idem_Scope r) && no_colon (idem_ProjectID r)
  | CUpdateIdempotencyRecord r =>
      no_colon (idem_Scope r) && no_colon (idem_ProjectID r) &&
      bool_decide (is_Some (t_idempotency_records t !! idempotencyPk r))
  | CDeleteIdempotencyRecord scope project _ | CGetIdempotencyRecord scope project _ => no_colon scope && no_colon project
  | CRequeueStaleExecutionJobs _ _ _ _ e => negb (blank e)
  | CCountActiveExecutionJobsByRegion region => negb (bool_decide (region = ""))
  | CListCostRecordsByJob job => negb (bool_decide (job = ""))
  | CListExpiredAttempts _ => bool_decide (map_Forall (λ _ r, at_lease_expires_at r ≠ 0%Z) (t_attempts t))
  | CReplaceWarmPoolsForHost region host pools => no_colon region && no_colon host && forallb colon_free pools
  | _ => true
  end.

Definition poolArgs (p : WarmPool) : list Arg :=
  [AText (wp_Region p); AText (wp_HostID p); AText (wp_FunctionVersionID p); AInt4 (wp_BlankWarm p); AInt4 (wp_FunctionWarm p)].

(** The values a call sends. *)
Definition callArgs {A} (c : StoreE A) : list Arg :=
  match c with
  | CEnsureProject _ p tn n => [AText tn; AText p; AText n]
  | CPutAPIKey k => [AText (key_TenantID k); AText (key_KeyHash k); AText (key_Description k)]
  | CCreateIdempotencyRecord r | CUpdateIdempotencyRecord r => idempotencyArgs r
  | CDeleteIdempotencyRecord x y z | CGetIdempotencyRecord x y z => [AText x; AText y; AText z]
  | CPutArtifact a => [AText (art_Digest a); AText (art_BundleKey a); AText (art_StartupKey a); AJson (mapStrings (art_Regions a))]
  | CPutFunctionVersion v => versionArgs v
  | CPutBuildJob j => buildJobArgs j
  | CPutExecutionJob j | CUpdateExecutionJob j => jobArgs j
  | CPutAttempt a | CUpdateAttempt a => attemptArgs a
  | CPutCostRecord r => costArgs r
  | CPutHost h | CUpdateHost h => hostArgs h
  | CReplaceWarmPoolsForHost r h ps => AText r :: AText h :: (ps ≫= poolArgs)
  | CPutWebhookTrigger w =>
      [AText (wt_Token w); AText (wt_ProjectID w); AText (wt_FunctionVersionID w); AText (wt_Description w)]
  | CPutHTTPTrigger h =>
      [AText (ht_Token h); AText (ht_ProjectID h); AText (ht_FunctionVersionID h); AText (ht_Description h)]
  | CPutRegion r => regionArgs r
  | CRequeueStaleExecutionJobs _ _ _ _ e => [AText (TrimSpace e)]
  | CCountBuildJobsByProjectStates p states => AText p :: (AText <$> states)
  | CCountBuildJobsByStates states => AText <$> states
  | CGetProject x | CListProjectsByTenant x | CGetAPIKeyByHash x | CTouchAPIKeyLastUsed x _ | CGetArtifact x
  | CGetFunctionVersion x | CListFunctionVersionsByProject x | CGetBuildJob x | CListBuildJobsByProject x
  | CGetExecutionJob x | CListExecutionJobsByProject x | CCountExecutionJobsByProjectStates x _
  | CCountActiveExecutionJobsByRegion x | CGetAttempt x | CListAttemptsByJob x | CListCostRecordsByJob x | CGetHost x
  | CListHostsByRegion x | CListWarmPoolsByRegion x | CGetWebhookTrigger x | CListWebhookTriggersByFunctionVersion x
  | CGetHTTPTrigger x | CListHTTPTriggersByFunctionVersion x | CGetRegion x => [AText x]
  | CCountExecutionJobsByStates _ | CClaimNextExecutionJob _ _ _ | CListExpiredAttempts _ | CListRegions => []
  end.

(** The records a call refers to. *)
Definition callRefs (t : Tables) {A} (c : StoreE A) : bool :=
  match c with
  | CCreateIdempotencyRecord r => has (t_projects t) (idem_ProjectID r)
  | CPutFunctionVersion v => has (t_projects t) (fv_ProjectID v)
  | CPutBuildJob j => has (t_function_versions t) (bj_FunctionVersionID j)
  | CPutExecutionJob j | CUpdateExecutionJob j =>
      has (t_function_versions t) (job_FunctionVersionID j) && has (t_projects t) (job_ProjectID j)
  | CPutAttempt a | CUpdateAttempt a =>
      has (t_execution_jobs t) (att_JobID a) && has (t_function_versions t) (att_FunctionVersionID a)
  | CPutCostRecord r =>
      has (t_tenants t) (cost_TenantID r) && has (t_projects t) (cost_ProjectID r) &&
      hasOpt (t_execution_jobs t) (nullableText (cost_JobID r)) && hasOpt (t_attempts t) (nullableText (cost_AttemptID r))
  | CReplaceWarmPoolsForHost _ _ ps => forallb (λ p, has (t_hosts t) (wp_HostID p)) ps
  | CPutWebhookTrigger w => has (t_projects t) (wt_ProjectID w) && has (t_function_versions t) (wt_FunctionVersionID w)
  | _ => true
  end.

Definition good (a : Arg) : bool := match argError a with None => true | Some _ => false end.

(** What the database accepts. *)
Definition accepted (t : Tables) {A} (c : StoreE A) : bool := forallb good (callArgs c) && callRefs t c.

(** Listings without an order in memory are compared up to their order. *)
Definition agree {A} (c : StoreE A) : A → A → Prop :=
  match c in StoreE A return A → A → Prop with
  | CListExpiredAttempts _ => Permutation
  | CListHostsByRegion _ => Permutation
  | CListWebhookTriggersByFunctionVersion _ => Permutation
  | CListRegions => Permutation
  | _ => eq
  end.

(** A missing idempotency record is reported with a plain error. *)
Definition agree_err {A} (c : StoreE A) (e e' : GoError) : Prop :=
  match c with
  | CGetIdempotencyRecord _ _ _ => err_is e = [] ∧ err_is e' = [ErrNotFound]
  | _ => err_is e = err_is e'
  end.

(** The outcomes of a call on both stores. *)
Definition same {A} (c : StoreE A) (o : result A * PgState) (o' : result A * Store) : Prop :=
  stores (pg_tables o.2) o'.2 ∧
  match o.1, o'.1 with
  | Ok a, Ok a' => agree c a a'
  | Err e, Err e' => agree_err c e e'
  | _, _ => False
  end.

End Calls.

(** ** Generic lemmas *)

Lemma SliceStable_fmap {A B} (f : A → B) (less : B → B → bool) l :
  f <$> SliceStable (λ x y, less (f x) (f y)) l = SliceStable less (f <$> l).
Proof.
  assert (∀ x l', f <$> insert_stable (λ x y, less (f x) (f y)) x l' = insert_stable less (f x) (f <$> l')) as Hi.
  { intros x l'. induction l' as [|y l' IH]; simpl; [done|]. destruct (less (f y) (f x)); simpl; by f_equal. }
  induction l as [|x l IH]; [done|]. cbn [SliceStable fmap]. rewrite ?fmap_cons. by rewrite Hi, IH.
Qed.

Lemma SliceStable_ext {A} (less less' : A → A → bool) l :
  (∀ x y, less x y = less' x y) → SliceStable less l = SliceStable less' l.
Proof.
  intros He. assert (∀ x l', insert_stable less x l' = insert_stable less' x l') as Hi.
  { intros x l'. induction l' as [|y l' IH]; simpl; [done|]. by rewrite He, IH. }
  induction l as [|x l IH]; [done|]. cbn [SliceStable fmap]. rewrite ?fmap_cons. by rewrite Hi, IH.
Qed.

Lemma count_map_fmap {A B} (f : A → B) (p : B → bool) (m : gmap string A) :
  count_map p (f <$> m) = count_map (p ∘ f) m.
Proof.
  unfold count_map. rewrite map_to_list_fmap. f_equal.
  induction (map_to_list m) as [|[k x] l IH]; [done|]. rewrite fmap_cons, !filter_cons. simpl.
  destruct (p (f x)); simpl; by rewrite IH.
Qed.

Lemma count_map_ext {A} (p q : A → bool) (m : gmap string A) : (∀ x, p x = q x) → count_map p m = count_map q m.
Proof.
  intros He. unfold count_map. do 2 f_equal. apply list_filter_iff. intros [k x]. simpl. by rewrite He.
Qed.

Lemma select_fmap `{!MapOrder} {A B} (f : A → B) site site' (p : A → bool) (q : B → bool) (m : gmap string A) :
  map_Forall (λ _ x, p x = q (f x)) m → f <$> select site p m ≡ₚ select site' q (f <$> m).
Proof.
  intros He. unfold select. rewrite !map_iter_perm, map_to_list_fmap, <- list_fmap_compose.
  apply map_Forall_to_list in He.
  induction He as [|[k x] l Hx _ IH]; [done|]. rewrite fmap_cons, !filter_cons. simpl in *.
  rewrite Hx. destruct (q (f x)); simpl; by rewrite IH.
Qed.

(** Listing rows and scanning them is listing the records. *)
Lemma sorted_rows `{!MapOrder} {R A} (scan : R → A) (less : A → A → bool) `{!StrictWeakOrder less} (rless : R → R → bool)
    (id : A → string) site site' (p : R → bool) (q : A → bool) (rows : gmap string R) :
  (∀ x y, rless x y = less (scan x) (scan y)) → (∀ r, p r = q (scan r)) →
  (∀ x y, less x y = false → less y x = false → id x = id y) → keyed id (scan <$> rows) →
  scan <$> SliceStable rless (select site p rows) = SliceStable less (select site' q (scan <$> rows)).
Proof.
  intros Hr Hp Ht Hk. rewrite (SliceStable_ext _ (λ x y, less (scan x) (scan y))) by done.
  rewrite SliceStable_fmap. assert (map_Forall (λ _ r, p r = q (scan r)) rows) as Hp' by (intros k r _; apply Hp).
  pose proof (select_fmap scan site site' p q rows Hp') as Hs.
  apply SliceStable_perm_eq; [done| |done]. intros x y Hx Hy H1 H2. rewrite Hs in Hx, Hy.
  by eapply (select_keyed_inj id site' q (scan <$> rows)); eauto.
Qed.

(** ** Simulation *)

Section Simulation.
Context `{Env : !PgEnv} (Hquiet : ∀ n, pg_Fault n = None) (Hlocks : ∀ n, pg_Locked n = ∅)
  (Hcollate : ∀ a b, pg_ltb a b = string_ltb a b).

Definition tick (db : PgState) : PgState := db <| pg_calls := S (pg_calls db) |>.

Lemma badArg_good args : forallb good args = true → badArg args = None.
Proof.
  unfold badArg. induction args as [|a args IH]; simpl; [done|]. unfold good at 1. destruct (argError a); [done|]. apply IH.
Qed.

Lemma run_statement {A} args onErr (body : nat → Tables → PgFailure + A * Tables) db :
  forallb good args = true →
  statement args onErr body db =
    match body (pg_calls db) (pg_tables db) with
    | inl f => (Err (onErr f), tick db)
    | inr (a, t) => (Ok a, (tick db) <| pg_tables := t |>)
    end.
Proof.
  intros Hg. unfold statement. rewrite Hquiet, badArg_good by done. by destruct (body _ _) as [f|[a t]].
Qed.

Lemma run_exec args onErr body db :
  forallb good args = true →
  exec args onErr body db =
    match body (pg_tables db) with
    | inl f => (Err (onErr f), tick db)
    | inr t => (Ok tt, (tick db) <| pg_tables := t |>)
    end.
Proof. intros Hg. unfold exec. rewrite run_statement by done. by destruct (body _). Qed.

Lemma run_query {A} args onErr (body : Tables → PgFailure + A) db :
  forallb good args = true →
  query args onErr body db =
    match body (pg_tables db) with inl f => (Err (onErr f), tick db) | inr a => (Ok a, tick db) end.
Proof. intros Hg. unfold query. rewrite run_statement by done. destruct (body _); [done|]. by destruct db. Qed.

Lemma find_state {A} (proj : Store → gmap string A) kind id s : (find proj kind id s).2 = s.
Proof. unfold find. by case_match. Qed.

Lemma mem_wf {A} (c : StoreE A) s : store_wf s → store_wf (mem c s).2.
Proof.
  intros Hwf. assert (store_step s (mem c s).2 ∨ (mem c s).2 = s) as [Hs| ->]; [|by eapply store_step_wf|done].
  destruct c; simpl; first [right; reflexivity|right; apply find_state|once (left; constructor)].
Qed.

Definition simulates {A} (c : StoreE A) : Prop :=
  ∀ db s, stores (pg_tables db) s → comparable (pg_tables db) c = true → accepted (pg_tables db) c = true →
    same c (pg c db) (mem (normal (pg_tables db) c) s).

Lemma accepted_split t {A} (c : StoreE A) : accepted t c = true → forallb good (callArgs c) = true ∧ callRefs t c = true.
Proof. apply andb_true_iff. Qed.

(** *** Reading *)

Lemma sim_get {A R} (c : StoreE A) (tbl : Tables → gmap string R) (scan : R → A) proj kind id :
  pg c = query [AText id] mapNotFound (λ t, row (tbl t) id scan) → mem c = find proj kind id →
  (∀ t, normal t c = c) → callArgs c = [AText id] → agree c = eq → agree_err c = (λ e e', err_is e = err_is e') →
  (∀ t s, stores t s → proj s !! id = scan <$> tbl t !! id) → simulates c.
Proof.
  intros Hp Hm Hn Ha Hag Hae Hrel db s HR _ [Hg _]%accepted_split. rewrite Hn, Hp, Hm. rewrite Ha in Hg.
  rewrite run_query by done. unfold row, find, same. rewrite (Hrel _ _ HR), Hag, Hae.
  by destruct (tbl (pg_tables db) !! id).
Qed.

(** A query whose answer is the one in memory. *)
Lemma sim_query {A} (c : StoreE A) onErr (f : Tables → A) :
  pg c = query (callArgs c) onErr (λ t, inr (f t)) → (∀ t s, (mem (normal t c) s).2 = s) →
  (∀ t s, stores t s → comparable t c = true → ∃ a, (mem (normal t c) s).1 = Ok a ∧ agree c (f t) a) → simulates c.
Proof.
  intros Hp Hm Hf db s HR Hc [Hg _]%accepted_split. rewrite Hp, run_query by done.
  destruct (Hf _ _ HR Hc) as (a & Ea & Hag). unfold same. by rewrite Hm, Ea.
Qed.

Ltac get_case rel :=
  eapply sim_get; try reflexivity; intros t s HR; rewrite (rel _ _ HR), ?lookup_fmap; try reflexivity;
  by destruct (_ !! _).

Lemma sim_GetProject x : simulates (CGetProject x).
Proof. get_case rel_projects. Qed.
Lemma sim_GetAPIKeyByHash x : simulates (CGetAPIKeyByHash x).
Proof. get_case rel_apiKeys. Qed.
Lemma sim_GetArtifact x : simulates (CGetArtifact x).
Proof. get_case rel_artifacts. Qed.
Lemma sim_GetFunctionVersion x : simulates (CGetFunctionVersion x).
Proof. get_case rel_functions. Qed.
Lemma sim_GetBuildJob x : simulates (CGetBuildJob x).
Proof. get_case rel_buildJobs. Qed.
Lemma sim_GetExecutionJob x : simulates (CGetExecutionJob x).
Proof. get_case rel_executionJobs. Qed.
Lemma sim_GetAttempt x : simulates (CGetAttempt x).
Proof. get_case rel_attempts. Qed.
Lemma sim_GetHost x : simulates (CGetHost x).
Proof. get_case rel_hosts. Qed.
Lemma sim_GetWebhookTrigger x : simulates (CGetWebhookTrigger x).
Proof. get_case rel_webhookTriggers. Qed.
Lemma sim_GetHTTPTrigger x : simulates (CGetHTTPTrigger x).
Proof. get_case rel_httpTriggers. Qed.
Lemma sim_GetRegion x : simulates (CGetRegion x).
Proof. get_case rel_regions. Qed.

Lemma sim_GetIdempotencyRecord x y z : simulates (CGetIdempotencyRecord x y z).
Proof.
  intros db s HR [Hx Hy]%andb_true_iff [Hg _]%accepted_split. simpl in *. unfold GetIdempotencyRecord.
  rewrite run_query by done. unfold MemStore.GetIdempotencyRecord, row, find, same.
  rewrite !(idempotency_same _ _ (rel_idempotency _ _ HR) x y z Hx Hy). destruct (t_idempotency_records (pg_tables db) !! (x, y, z)); simpl; (split; [exact HR|]); [done|by split].
Qed.

(** *** Listing and counting *)

Lemma orderDesc_eq {R A} (scan : R → A) created id c i x y :
  (∀ r, created r = c (scan r)) → (∀ r, id r = i (scan r)) →
  orderDesc created id x y = newest_first c i (scan x) (scan y).
Proof. intros Hc Hi. unfold orderDesc, newest_first. by rewrite Hcollate, !Hc, !Hi. Qed.

Lemma orderAsc_eq {R A} (scan : R → A) created id c i x y :
  (∀ r, created r = c (scan r)) → (∀ r, id r = i (scan r)) →
  orderAsc created id x y = oldest_first c i (scan x) (scan y).
Proof. intros Hc Hi. unfold orderAsc, oldest_first. by rewrite Hcollate, !Hc, !Hi. Qed.

Ltac list_case rel wf total :=
  eapply sim_query; [reflexivity|reflexivity|]; intros t s HR _; eexists; (split; [reflexivity|]); cbn [agree]; pose proof (wf _ (rel_wf _ _ HR)) as Hk;
  rewrite (rel _ _ HR) in Hk |- *;
  eapply sorted_rows; [apply _|first [intros; by apply orderDesc_eq|intros; by apply orderAsc_eq]|done|apply total|exact Hk].

Lemma sim_ListFunctionVersionsByProject x : simulates (CListFunctionVersionsByProject x).
Proof. list_case rel_functions wf_functions @newest_first_total. Qed.
Lemma sim_ListExecutionJobsByProject x : simulates (CListExecutionJobsByProject x).
Proof. list_case rel_executionJobs wf_executionJobs @newest_first_total. Qed.
Lemma sim_ListAttemptsByJob x : simulates (CListAttemptsByJob x).
Proof. list_case rel_attempts wf_attempts @oldest_first_total. Qed.
Lemma sim_ListHTTPTriggers x : simulates (CListHTTPTriggersByFunctionVersion x).
Proof. list_case rel_httpTriggers wf_httpTriggers @oldest_first_total. Qed.

Lemma sim_ListProjectsByTenant x : simulates (CListProjectsByTenant x).
Proof.
  eapply sim_query; [reflexivity|reflexivity|]. intros t s HR _. eexists. split; [reflexivity|]. cbn [agree]. rewrite (rel_projects _ _ HR).
  rewrite <- (map_fmap_id (t_projects t)) at 2. rewrite <- (list_fmap_id (SliceStable _ _)).
  eapply sorted_rows; [apply _|intros; by apply (orderDesc_eq id)|done|apply newest_first_total|].
  rewrite map_fmap_id, <- (rel_projects _ _ HR). apply (rel_wf _ _ HR).
Qed.

Lemma build_job_in t s x r : stores t s → buildJobOf t x r = build_job_in_project s x (scanBuildJob r).
Proof.
  intros HR. unfold buildJobOf, build_job_in_project. rewrite (rel_functions _ _ HR), lookup_fmap. simpl.
  by destruct (t_function_versions t !! _).
Qed.

Lemma sim_ListBuildJobsByProject x : simulates (CListBuildJobsByProject x).
Proof.
  eapply sim_query; [reflexivity|reflexivity|]. intros t s HR _. eexists. split; [reflexivity|]. cbn [agree].
  pose proof (wf_buildJobs _ (rel_wf _ _ HR)) as Hk. rewrite (rel_buildJobs _ _ HR) in Hk |- *.
  eapply sorted_rows; [apply _|intros; by apply orderDesc_eq| |apply newest_first_total|exact Hk].
  intros r. by apply build_job_in.
Qed.

Lemma nullable_eq a x : x ≠ "" → bool_decide (a = Some x) = bool_decide (coalesce a = x).
Proof. intros Hx. apply bool_decide_ext. destruct a; simpl; naive_solver. Qed.

Lemma sim_ListCostRecordsByJob x : simulates (CListCostRecordsByJob x).
Proof.
  eapply sim_query; [reflexivity|reflexivity|]. intros t s HR Hx%negb_true_iff. eexists. split; [reflexivity|]. cbn [agree].
  rewrite bool_decide_eq_false in Hx. pose proof (wf_costRecords _ (rel_wf _ _ HR)) as Hk.
  rewrite (rel_costRecords _ _ HR) in Hk |- *.
  eapply sorted_rows; [apply _|intros; by apply orderAsc_eq| |apply oldest_first_total|exact Hk].
  intros r. by apply nullable_eq.
Qed.

(** Listings that are sorted in the database only. *)
Ltac perm_case rel :=
  eapply sim_query; [reflexivity|reflexivity|]; intros t s HR Hc; eexists; (split; [reflexivity|]); cbn [agree]; rewrite (rel _ _ HR);
  rewrite ?SliceStable_perm; try (by apply select_fmap).

Lemma sim_ListWebhookTriggers x : simulates (CListWebhookTriggersByFunctionVersion x).
Proof. perm_case rel_webhookTriggers. Qed.

Lemma sim_ListHostsByRegion x : simulates (CListHostsByRegion x).
Proof. perm_case rel_hosts. apply select_perm. Qed.

Lemma sim_ListExpiredAttempts b : simulates (CListExpiredAttempts b).
Proof.
  perm_case rel_attempts. simpl in Hc. apply bool_decide_eq_true_1 in Hc. apply select_fmap. intros k r Hr.
  specialize (Hc k r Hr). unfold attempt_expired, IsZero. simpl. rewrite Z.leb_antisym. destruct (Z.eqb_spec (at_lease_expires_at r) 0); [done|].
  by destruct (Terminal _).
Qed.

Lemma select_all {A} site (m : gmap string A) : select site (λ _, true) m = (map_iter site m).*2.
Proof.
  unfold select. f_equal. induction (map_iter site m) as [|e l IH]; [done|]. by rewrite filter_cons_True, IH.
Qed.

Lemma sim_ListRegions : simulates CListRegions.
Proof.
  perm_case rel_regions. rewrite (select_fmap scanRegion _ 709 _ (λ _, true)) by done. by rewrite select_all.
Qed.

Lemma pools_lookup rows m p : pools_rel rows m → (∃ k, rows !! k = Some p) ↔ (∃ k, m !! k = Some p).
Proof.
  intros [Hrows Hmem Hsame]. split; intros [k Hk].
  - destruct (Hrows _ _ Hk) as [<- [H1 H2]%andb_true_iff]. exists (pool_key p). unfold pool_key. by rewrite Hsame.
  - destruct (Hmem _ _ Hk) as [<- [H1 H2]%andb_true_iff]. exists (poolPk p). unfold pool_key in Hk. by rewrite Hsame in Hk.
Qed.

Lemma pool_rows_perm rows m x : pools_rel rows m → keyed pool_key m →
  filter (λ p, wp_Region p = x) (map_to_list rows).*2 ≡ₚ select 601 (λ p, bool_decide (wp_Region p = x)) m.
Proof.
  intros HR Hk. apply NoDup_Permutation.
  - apply NoDup_filter, (NoDup_fmap_1 poolPk).
    assert (poolPk <$> (map_to_list rows).*2 = (map_to_list rows).*1) as ->; [|apply NoDup_fst_map_to_list].
    rewrite <- list_fmap_compose. apply list_fmap_ext. intros i [k p] Hi. apply list_elem_of_lookup_2 in Hi.
    apply elem_of_map_to_list in Hi. by destruct (pools_rows _ _ HR _ _ Hi).
  - by apply (NoDup_fmap_1 pool_key), NoDup_select_id.
  - intros p. rewrite list_elem_of_filter, elem_of_select, bool_decide_eq_true, <- (pools_lookup _ _ p HR).
    rewrite list_elem_of_fmap. split; intros [Hx Hp]; (split; [done|]).
    + destruct Hp as ([k p'] & -> & Hp). apply elem_of_map_to_list in Hp. by exists k.
    + destruct Hp as [k Hp]. exists (k, p). by rewrite elem_of_map_to_list.
Qed.

Lemma sim_ListWarmPoolsByRegion x : simulates (CListWarmPoolsByRegion x).
Proof.
  eapply sim_query; [reflexivity|reflexivity|]. intros t s HR _. eexists. split; [reflexivity|]. cbn [agree].
  rewrite (SliceStable_ext poolOrder warm_pool_less) by (intros; unfold poolOrder, warm_pool_less; by rewrite !Hcollate).
  pose proof (pool_rows_perm _ _ x (rel_warmPools _ _ HR) (wf_warmPools _ (rel_wf _ _ HR))) as Hp.
  apply SliceStable_perm_eq; [apply _| |done]. intros p q Hpin Hqin H1 H2.
  rewrite Hp in Hpin, Hqin. eapply select_keyed_inj; [apply (wf_warmPools _ (rel_wf _ _ HR))|exact Hpin|exact Hqin|].
  apply elem_of_select in Hpin as [Ep%bool_decide_eq_true_1 _], Hqin as [Eq%bool_decide_eq_true_1 _].
  unfold warm_pool_less in H1, H2. unfold pool_key. rewrite Ep, Eq.
  destruct (decide (wp_HostID p = wp_HostID q)) as [Eh|Eh].
  - rewrite bool_decide_eq_true_2 in H1, H2 by done. rewrite Eh. by rewrite (string_ltb_total _ _ H1 H2).
  - rewrite bool_decide_eq_false_2 in H1, H2 by congruence. destruct Eh. by apply string_ltb_total.
Qed.

Ltac count_case rel :=
  eapply sim_query; [reflexivity|reflexivity|]; intros t s HR Hc; eexists; (split; [reflexivity|]); cbn [agree];
  rewrite (rel _ _ HR), count_map_fmap; apply count_map_ext; intros r; simpl.

Lemma sim_CountBuildJobsByProjectStates x l : simulates (CCountBuildJobsByProjectStates x l).
Proof. count_case rel_buildJobs. rewrite (build_job_in _ _ _ _ HR). apply andb_comm. Qed.
Lemma sim_CountBuildJobsByStates l : simulates (CCountBuildJobsByStates l).
Proof. by count_case rel_buildJobs. Qed.
Lemma sim_CountExecutionJobsByProjectStates x l : simulates (CCountExecutionJobsByProjectStates x l).
Proof. by count_case rel_executionJobs. Qed.
Lemma sim_CountExecutionJobsByStates l : simulates (CCountExecutionJobsByStates l).
Proof. by count_case rel_executionJobs. Qed.
Lemma sim_CountActiveExecutionJobsByRegion x : simulates (CCountActiveExecutionJobsByRegion x).
Proof.
  count_case rel_executionJobs. simpl in Hc. apply negb_true_iff in Hc. rewrite bool_decide_eq_false in Hc.
  by rewrite (nullable_eq (jb_target_region r) x Hc).
Qed.

(** *** Writing *)

Lemma orRefused_ok refs t : forallb fst refs = true → orRefused refs t = inr t.
Proof.
  unfold orRefused, references. induction refs as [|[b c] refs IH]; simpl; [done|]. destruct b; simpl; [apply IH|done].
Qed.

(** The new relation from the old one, field by field. *)
Ltac rel_fields :=
  split; [assumption|..]; match goal with H : stores _ _ |- _ => destruct H end;
  simpl; try assumption; rewrite ?fmap_insert; by f_equal.

Ltac start c :=
  let Hwf := fresh "Hwf" in
  intros db s HR Hc [Hg Hr]%accepted_split; pose proof (mem_wf (normal (pg_tables db) c) s (rel_wf _ _ HR)) as Hwf;
  cbn [pg normal mem comparable callArgs callRefs] in *.

(** A single statement that writes one row. *)
Ltac put_row :=
  rewrite run_exec by done; cbn beta zeta; rewrite ?orRefused_ok by (simpl; by rewrite ?andb_assoc, ?andb_true_r);
  (split; [|reflexivity]); cbn [fst snd]; rel_fields.

Lemma sim_PutArtifact a : simulates (CPutArtifact a).
Proof. start (CPutArtifact a). unfold Postgres.PutArtifact. put_row. Qed.

Lemma sim_PutBuildJob j : simulates (CPutBuildJob j).
Proof. start (CPutBuildJob j). unfold Postgres.PutBuildJob. put_row. Qed.

Lemma sim_PutExecutionJob j : simulates (CPutExecutionJob j).
Proof. start (CPutExecutionJob j). unfold Postgres.PutExecutionJob, upsertExecutionJob. put_row. Qed.

Lemma sim_UpdateExecutionJob j : simulates (CUpdateExecutionJob j).
Proof. exact (sim_PutExecutionJob j). Qed.

Lemma sim_PutCostRecord r : simulates (CPutCostRecord r).
Proof. start (CPutCostRecord r). unfold Postgres.PutCostRecord. put_row. Qed.

Lemma sim_PutHost h : simulates (CPutHost h).
Proof. start (CPutHost h). unfold Postgres.PutHost, upsertHost. put_row. Qed.

Lemma sim_UpdateHost h : simulates (CUpdateHost h).
Proof. exact (sim_PutHost h). Qed.

Lemma sim_PutRegion r : simulates (CPutRegion r).
Proof. start (CPutRegion r). unfold Postgres.PutRegion. put_row. Qed.


(** *** Methods of several statements *)

Lemma forallb_good_In args a : forallb good args = true → In a args → good a = true.
Proof. intros Hg Hi. by eapply forallb_forall in Hg. Qed.

Lemma no_nul_app s t : no_nul (s +:+ t) = no_nul s && no_nul t.
Proof. apply no_byte_app. Qed.

Lemma utf8_valid_app s t : utf8_valid s = true → utf8_valid t = true → utf8_valid (s +:+ t) = true.
Proof.
  intros Hs Ht. rewrite <- (concat_runes s). pose proof (is_rune_runes s) as Hr. unfold utf8_valid in Hs. revert Hs Hr.
  generalize (runes s) as l. induction l as [|[b r] l IH]; simpl; [done|]. intros [Hb Hl]%andb_true_iff [H1 H2]%Forall_cons.
  rewrite string_app_assoc. unfold utf8_valid. rewrite runes_app by (by apply H1). simpl. by apply IH.
Qed.

Lemma good_text_app s t : good (AText s) = true → good (AText t) = true → good (AText (s +:+ t)) = true.
Proof.
  unfold good, argError, storable. rewrite no_nul_app. intros Hs Ht.
  destruct (utf8_valid s) eqn:E1, (no_nul s), (utf8_valid t) eqn:E2, (no_nul t); try done. by rewrite utf8_valid_app.
Qed.

Lemma has_insert {A} (m : gmap string A) k x : has (<[k := x]> m) k = true.
Proof. unfold has. apply bool_decide_eq_true_2. rewrite lookup_insert_eq. by eexists. Qed.

(** The tables of tenants, functions and leases are not visible in memory. *)
Lemma stores_tenants t s f : stores t s → stores (t <| t_tenants := f |>) s.
Proof. by intros []. Qed.

Lemma run_insertTenant tenant created db : good (AText tenant) = true →
  ∃ f, insertTenant tenant created db = (Ok tt, (tick db) <| pg_tables := (pg_tables db) <| t_tenants := f |> |>) ∧
    has f tenant = true.
Proof.
  intros Hg. unfold insertTenant. rewrite run_exec by (simpl; by rewrite Hg). eexists. split; [reflexivity|].
  destruct (t_tenants (pg_tables db) !! tenant) eqn:Et; [|apply has_insert]. unfold has. by rewrite Et, bool_decide_eq_true_2.
Qed.

Lemma sim_EnsureProject now p tn n : simulates (CEnsureProject now p tn n).
Proof.
  start (CEnsureProject now p tn n). simpl in Hg. apply andb_true_iff in Hg as [Gt [Gp [Gn _]%andb_true_iff]%andb_true_iff].
  destruct (run_insertTenant tn now db Gt) as (f & Ei & Hf). unfold Postgres.EnsureProject.
  rewrite (run_bind _ _ _ _ _ Ei), M_bind_eq, run_exec by (simpl; by rewrite Gp, Gt, Gn). simpl.
  unfold MemStore.EnsureProject in *. rewrite (rel_projects _ _ HR) in *.
  destruct (t_projects (pg_tables db) !! p) as [pr|] eqn:Ep.
  - rewrite M_bind_eq, run_query by (simpl; by rewrite Gp). unfold row. simpl. rewrite Ep. simpl.
    case_bool_decide; (split; [by apply stores_tenants|reflexivity]).
  - rewrite orRefused_ok by (simpl; by rewrite Hf).
    rewrite M_bind_eq, run_query by (simpl; by rewrite Gp). unfold row. simpl. rewrite lookup_insert_eq. simpl.
    rewrite bool_decide_eq_true_2 by done. split; [|reflexivity]. cbn [fst snd]. rel_fields.
Qed.

Lemma sim_PutAPIKey k : simulates (CPutAPIKey k).
Proof.
  start (CPutAPIKey k). simpl in Hg. apply andb_true_iff in Hg as [Gt [Gk [Gd _]%andb_true_iff]%andb_true_iff].
  destruct (run_insertTenant (key_TenantID k) (key_CreatedAt k) db Gt) as (f & Ei & Hf). unfold Postgres.PutAPIKey.
  rewrite (run_bind _ _ _ _ _ Ei), run_exec by (simpl; by rewrite Gk, Gt, Gd). simpl.
  rewrite orRefused_ok by (simpl; by rewrite Hf). split; [|reflexivity]. cbn [fst snd]. rel_fields.
Qed.

Lemma sim_PutFunctionVersion v : simulates (CPutFunctionVersion v).
Proof.
  start (CPutFunctionVersion v). unfold Postgres.PutFunctionVersion. rewrite M_bind_eq, run_exec by done. cbn beta zeta.
  rewrite orRefused_ok by (simpl; by rewrite Hr).
  assert (good (AText (fv_ID v)) = true ∧ good (AText (fv_ProjectID v)) = true ∧ good (AText (fv_Name v)) = true) as (G1 & G2 & G3)
    by (split_and!; eapply forallb_good_In; [exact Hg|simpl; tauto|exact Hg|simpl; tauto|exact Hg|simpl; tauto]).
  rewrite run_exec.
  2:{ simpl. rewrite G1, G2, G3, (good_text_app (fv_ProjectID v)); [done..|]. by apply (good_text_app ":"). }
  cbn beta zeta. rewrite orRefused_ok by (simpl; by rewrite has_insert, Hr). split; [|reflexivity]. cbn [fst snd]. rel_fields.
Qed.

Lemma sim_PutAttempt a : simulates (CPutAttempt a).
Proof.
  start (CPutAttempt a). unfold Postgres.PutAttempt, upsertAttempt. rewrite M_bind_eq, run_exec by done. cbn beta zeta.
  rewrite orRefused_ok by (simpl; by rewrite ?andb_assoc, ?andb_true_r).
  assert (good (AText (att_ID a)) = true ∧ good (AText (att_HostID a)) = true ∧ good (AText (att_Region a)) = true) as (G1 & G2 & G3)
    by (split_and!; eapply forallb_good_In; [exact Hg|simpl; tauto|exact Hg|simpl; tauto|exact Hg|simpl; tauto]).
  rewrite run_exec by (simpl; by rewrite G1, G2, G3). cbn beta zeta.
  rewrite orRefused_ok by (simpl; by rewrite has_insert). split; [|reflexivity]. cbn [fst snd]. rel_fields.
Qed.

Lemma sim_UpdateAttempt a : simulates (CUpdateAttempt a).
Proof. exact (sim_PutAttempt a). Qed.

(** *** Writes that can be refused *)

Lemma sim_TouchAPIKeyLastUsed k u : simulates (CTouchAPIKeyLastUsed k u).
Proof.
  start (CTouchAPIKeyLastUsed k u). unfold Postgres.TouchAPIKeyLastUsed. rewrite M_bind_eq, run_statement by done. cbn beta.
  unfold MemStore.TouchAPIKeyLastUsed in *. rewrite (rel_apiKeys _ _ HR), lookup_fmap in *.
  destruct (t_api_keys (pg_tables db) !! k) as [r|] eqn:Er; simpl in *; (split; [|reflexivity]); cbn [fst snd].
  - rel_fields.
  - exact HR.
Qed.

Lemma sim_PutWebhookTrigger w : simulates (CPutWebhookTrigger w).
Proof.
  start (CPutWebhookTrigger w). unfold Postgres.PutWebhookTrigger. rewrite run_exec by done. cbn beta.
  unfold MemStore.PutWebhookTrigger in *. rewrite (rel_webhookTriggers _ _ HR), lookup_fmap in *. cbn [wt_Token scanWebhook webhookRow wk_token] in *.
  destruct (t_webhook_triggers (pg_tables db) !! wt_Token w) as [r|] eqn:Er; [split; [exact HR|reflexivity]|].
  rewrite orRefused_ok by (simpl; by rewrite ?andb_assoc, ?andb_true_r). split; [|reflexivity]. cbn [fst snd fmap option_fmap option_map] in *. rel_fields.
Qed.

Lemma sim_PutHTTPTrigger h : simulates (CPutHTTPTrigger h).
Proof.
  start (CPutHTTPTrigger h). unfold Postgres.PutHTTPTrigger. rewrite run_exec by done. cbn beta.
  unfold MemStore.PutHTTPTrigger in *. rewrite (rel_httpTriggers _ _ HR), lookup_fmap in *. cbn [ht_Token scanHTTPTrigger httpTriggerRow hk_token] in *.
  destruct (t_http_triggers (pg_tables db) !! ht_Token h) as [r|] eqn:Er; [split; [exact HR|reflexivity]|].
  split; [|reflexivity]. cbn [fst snd fmap option_fmap option_map] in *. rel_fields.
Qed.

Lemma sim_RequeueStaleExecutionJobs from to sb now e : simulates (CRequeueStaleExecutionJobs from to sb now e).
Proof.
  start (CRequeueStaleExecutionJobs from to sb now e). unfold Postgres.RequeueStaleExecutionJobs. rewrite run_statement by done.
  cbn beta zeta iota. rewrite (requeue_stale_spec pg_order) in *. apply negb_true_iff in Hc.
  assert (∀ r, staleRow from (pgTime sb) r = is_stale from (pgTime sb) (scanJob r)) as Hs.
  { intros r. unfold staleRow, is_stale. simpl. f_equal. lia. }
  split.
  - cbn [fst snd]. split; [assumption|..]; destruct HR; simpl; try assumption.
    rewrite rel_executionJobs0, <- !map_fmap_compose. apply map_fmap_ext. intros k r _. simpl. rewrite <- Hs.
    destruct (staleRow _ _ r); [|done]. unfold requeue_job. rewrite Hc. unfold scanJob, requeued. simpl.
    unfold nullableText. unfold blank in Hc. rewrite Hc. done.
  - cbn [fst snd]. rewrite (rel_executionJobs _ _ HR), count_map_fmap. by apply count_map_ext.
Qed.

(** *** Idempotency records *)

Lemma idempotency_insert rows m r :
  no_colon (ir_scope r) = true → no_colon (ir_project_id r) = true → idempotency_rel rows m →
  idempotency_rel (<[(ir_scope r, ir_project_id r, ir_key r) := r]> rows)
    (<[idempotencyKey (ir_scope r) (ir_project_id r) (ir_key r) := scanIdempotency r]> m).
Proof.
  intros H1 H2 [Hk Hr]. split; [by apply map_Forall_insert_2|]. intros scope project key H1' H2'.
  destruct (decide ((scope, project, key) = (ir_scope r, ir_project_id r, ir_key r))) as [[= -> -> ->]|Hne].
  - by rewrite !lookup_insert_eq.
  - rewrite !lookup_insert_ne; [by apply Hr|congruence|].
    intros Ek. apply idempotencyKey_inj in Ek as (<- & <- & <-); [by destruct Hne|done..].
Qed.

Lemma idempotency_delete rows m scope project key :
  no_colon scope = true → no_colon project = true → idempotency_rel rows m →
  idempotency_rel (delete (scope, project, key) rows) (delete (idempotencyKey scope project key) m).
Proof.
  intros H1 H2 [Hk Hr]. split; [by apply map_Forall_delete|]. intros scope' project' key' H1' H2'.
  destruct (decide ((scope', project', key') = (scope, project, key))) as [[= -> -> ->]|Hne].
  - by rewrite !lookup_delete_eq.
  - rewrite !lookup_delete_ne; [by apply Hr|congruence|].
    intros Ek. apply idempotencyKey_inj in Ek as (-> & -> & ->); [by destruct Hne|done..].
Qed.

Lemma mem_CreateIdempotencyRecord t s r : stores t s → no_colon (idem_Scope r) = true → no_colon (idem_ProjectID r) = true →
  MemStore.CreateIdempotencyRecord r s =
    match t_idempotency_records t !! idempotencyPk r with
    | Some _ => (Err (wrapErr ErrAlreadyExists (": idempotency record " +:+ record_key r)), s)
    | None => (Ok tt, s <| st_idempotency := <[record_key r := r]> (st_idempotency s) |>)
    end.
Proof.
  intros HR H1 H2. unfold MemStore.CreateIdempotencyRecord. unfold record_key at 1.
  rewrite (idempotency_same _ _ (rel_idempotency _ _ HR) _ _ _ H1 H2). unfold idempotencyPk. by destruct (t_idempotency_records t !! _).
Qed.

Lemma sim_CreateIdempotencyRecord r : simulates (CCreateIdempotencyRecord r).
Proof.
  start (CCreateIdempotencyRecord r). apply andb_true_iff in Hc as [H1 H2]. unfold Postgres.CreateIdempotencyRecord.
  rewrite run_exec by done. cbn beta. rewrite (mem_CreateIdempotencyRecord _ _ (scanIdempotency (idempotencyRow r)) HR H1 H2) in *.
  change (idempotencyPk (scanIdempotency (idempotencyRow r))) with (idempotencyPk r) in *.
  destruct (t_idempotency_records (pg_tables db) !! idempotencyPk r) as [old|]; [split; [exact HR|reflexivity]|].
  rewrite orRefused_ok by (simpl; by rewrite Hr). split; [|reflexivity]. cbn [fst snd] in *.
  split; [assumption|..]; destruct HR; simpl; try assumption. by apply (idempotency_insert _ _ (idempotencyRow r)).
Qed.

Lemma sim_UpdateIdempotencyRecord r : simulates (CUpdateIdempotencyRecord r).
Proof.
  start (CUpdateIdempotencyRecord r). apply andb_true_iff in Hc as [[H1 H2]%andb_true_iff [old Ho]%bool_decide_eq_true_1].
  unfold Postgres.UpdateIdempotencyRecord. rewrite run_exec by done. cbn beta. rewrite Ho.
  pose proof (idempotency_rows _ _ (rel_idempotency _ _ HR) _ _ Ho) as [= E1 E2 E3].
  split; [|reflexivity]. cbn [fst snd] in *. split; [assumption|..]; destruct HR; simpl; try assumption.
  unfold normalRecord. rewrite Ho. simpl. rewrite E1, E2, E3.
  by apply (idempotency_insert _ _ (mkIdempotencyRow (idem_Scope r) (idem_ProjectID r) (idem_Key r)
    (idem_RequestHash r) (nullableText (idem_ResourceID r)) (nullableText (idem_Resource r)) (idem_Status r)
    (ir_created_at old) (pgTime (idem_UpdatedAt r)))).
Qed.

Lemma sim_DeleteIdempotencyRecord x y z : simulates (CDeleteIdempotencyRecord x y z).
Proof.
  start (CDeleteIdempotencyRecord x y z). apply andb_true_iff in Hc as [H1 H2]. unfold Postgres.DeleteIdempotencyRecord.
  rewrite run_exec by done. split; [|reflexivity]. cbn [fst snd]. split; [assumption|..]; destruct HR; simpl; try assumption.
  by apply idempotency_delete.
Qed.

(** *** Claiming *)

Lemma claimOrder_eq x y : claimOrder x y = claim_before (scanJob x) (scanJob y).
Proof.
  unfold claimOrder, orderAsc, claim_before. simpl. rewrite Hcollate.
  destruct (Z.eqb_spec (jb_updated_at x) (jb_updated_at y)) as [->|], (Z.eqb_spec (jb_created_at x) (jb_created_at y)) as [->|];
    simpl; rewrite ?Z.ltb_irrefl, ?orb_false_r; done.
Qed.

(** The loop finds the head of the sorted list. *)
Lemma claim_fold_head from (m : gmap string ExecutionJob) :
  keyed job_ID m →
  foldl (claim_pick from) None (map_iter 399 m).*2 = head (SliceStable claim_before (select 399 (in_states from) m)).
Proof.
  intros Hk. pose proof (claim_fold_spec from (map_iter 399 m).*2) as Hf.
  assert (∀ j, j ∈ select 399 (in_states from) m ↔ eligible_in from (map_iter 399 m).*2 j) as Hel.
  { intros j. rewrite elem_of_select. unfold eligible_in. rewrite elem_of_iter_snd. tauto. }
  destruct (SliceStable claim_before _) as [|j l] eqn:El; simpl.
  - apply SliceStable_nil_iff in El. destruct (foldl _ _ _) as [c|]; [|done].
    destruct Hf as [Hc _]. rewrite <- Hel, El in Hc. set_solver.
  - assert (j ∈ select 399 (in_states from) m) as Hj by (rewrite <- (elem_of_SliceStable claim_before), El; left).
    destruct (foldl _ _ _) as [c|].
    + destruct Hf as [Hc Hmin]. f_equal. eapply (select_keyed_inj job_ID 399 (in_states from) m); [done|by apply Hel|done|].
      apply claim_before_total; [|apply Hmin; by apply Hel].
      eapply (SliceStable_head_min claim_before); [exact El|]. by apply Hel.
    + exfalso. apply Hel in Hj as [Hj Ej]. rewrite Hf in Ej; done.
Qed.

Lemma sim_ClaimNextExecutionJob from to now : simulates (CClaimNextExecutionJob from to now).
Proof.
  start (CClaimNextExecutionJob from to now). pose proof (wf_executionJobs _ (rel_wf _ _ HR)) as Hk.
  unfold Postgres.ClaimNextExecutionJob. rewrite run_statement by done. cbn beta.
  assert (MemStore.ClaimNextExecutionJob from to (pgTime now) s =
    match SliceStable claimOrder (select 3629 (λ r, bool_decide (jb_state r ∈ from) && negb (bool_decide (jb_id r ∈ pg_Locked (pg_calls db))))
            (t_execution_jobs (pg_tables db))) with
    | [] => (Err (sentinel ErrNotFound), s)
    | r :: _ =>
        let j := scanJob (withState to (pgTime now) r) in
        (Ok j, s <| st_executionJobs := <[jb_id r := j]> (st_executionJobs s) |>)
    end) as Em.
  { unfold MemStore.ClaimNextExecutionJob. rewrite (claim_fold_head from _ Hk). rewrite (rel_executionJobs _ _ HR) in Hk |- *.
    rewrite <- (sorted_rows scanJob claim_before claimOrder job_ID 3629 399
      (λ r, bool_decide (jb_state r ∈ from) && negb (bool_decide (jb_id r ∈ pg_Locked (pg_calls db)))) (in_states from));
      [|apply claimOrder_eq| |apply claim_before_total|exact Hk].
    - by destruct (SliceStable claimOrder _).
    - intros r. rewrite Hlocks, (bool_decide_eq_false_2 (jb_id r ∈ ∅)) by set_solver. by rewrite andb_true_r. }
  rewrite Em in *. destruct (SliceStable claimOrder _) as [|r l]; [split; [exact HR|reflexivity]|].
  split; [|reflexivity]. cbn [fst snd] in *. rel_fields.
Qed.

(** *** Warm pools *)

Lemma pools_insert rows m p : colon_free p = true → pools_rel rows m →
  pools_rel (<[poolPk p := poolRow p]> rows) (<[pool_key (poolRow p) := poolRow p]> m).
Proof.
  intros Hc [Hrows Hmem Hsame]. pose proof Hc as [Hc1 Hc2]%andb_true_iff. split.
  - intros k q Hq. apply lookup_insert_Some in Hq as [[<- <-]|[_ Hq]]; [by split|by apply Hrows].
  - intros k q Hq. apply lookup_insert_Some in Hq as [[<- <-]|[_ Hq]]; [by split|by apply Hmem].
  - intros region host version H1 H2. destruct (decide ((region, host, version) = poolPk p)) as [Ep|Hne].
    + injection Ep as -> -> ->.
      change (pool_key (poolRow p)) with (warmPoolKey (wp_Region p) (wp_HostID p) (wp_FunctionVersionID p)).
      unfold poolPk. by rewrite !lookup_insert_eq.
    + rewrite !lookup_insert_ne; [by apply Hsame|congruence|]. intros Ek. apply Hne. unfold pool_key, warmPoolKey in Ek. simpl in Ek.
      apply split_colon_inj in Ek as [E1 Ek]; [|done..]. apply split_colon_inj in Ek as [E2 E3]; [|done..].
      unfold poolPk. by rewrite E1, E2, E3.
Qed.

Lemma warmPoolKey_prefix region host r h v :
  no_colon region = true → no_colon host = true → no_colon r = true → no_colon h = true →
  HasPrefix (warmPoolKey r h v) (warmPoolKey region host "") = true ↔ (r, h) = (region, host).
Proof.
  intros H1 H2 H3 H4. unfold warmPoolKey. rewrite HasPrefix_spec. split.
  - intros [t Et]. rewrite !string_app_assoc in Et. simpl in Et.
    apply split_colon_inj in Et as [-> Et]; [|done..]. by apply split_colon_inj in Et as [-> _].
  - intros [= -> ->]. exists v. by rewrite !string_app_assoc.
Qed.

Lemma pools_delete rows m region host : no_colon region = true → no_colon host = true → pools_rel rows m →
  pools_rel (filter (λ e, (e.1.1.1, e.1.1.2) ≠ (region, host)) rows)
    (filter (λ kx, HasPrefix kx.1 (warmPoolKey region host "") = false) m).
Proof.
  intros H1 H2 [Hrows Hmem Hsame]. split.
  - intros k p [Hk _]%map_lookup_filter_Some. by apply Hrows.
  - intros k p [Hk _]%map_lookup_filter_Some. by apply Hmem.
  - intros r h v H3 H4. apply option_eq. intros p. rewrite !map_lookup_filter_Some. simpl.
    rewrite (Hsame r h v H3 H4). rewrite <- not_true_iff_false, warmPoolKey_prefix by done. done.
Qed.

Lemma pools_insert_all rows m pools : forallb colon_free pools = true → pools_rel rows m →
  pools_rel (foldl (λ m p, <[poolPk p := poolRow p]> m) rows pools) (insert_pools (poolRow <$> pools) m).
Proof.
  unfold insert_pools. revert rows m. induction pools as [|p pools IH]; intros rows m; simpl; [done|].
  intros [Hp Hps]%andb_true_iff HR. apply IH; [done|]. by apply pools_insert.
Qed.

Lemma run_insertPool p db :
  forallb good (poolArgs p) = true → has (t_hosts (pg_tables db)) (wp_HostID p) = true →
  insertPool p db = (Ok tt, (tick db) <| pg_tables :=
    (pg_tables db) <| t_warm_pools := <[poolPk p := poolRow p]> (t_warm_pools (pg_tables db)) |> |>).
Proof. intros Hg Hh. unfold insertPool. rewrite run_exec by done. cbn beta. by rewrite orRefused_ok by (simpl; by rewrite Hh). Qed.

Lemma run_insertPools pools db :
  forallb good (pools ≫= poolArgs) = true → forallb (λ p, has (t_hosts (pg_tables db)) (wp_HostID p)) pools = true →
  ∃ n, for_each pools insertPool db = (Ok tt, mkPgState n
    ((pg_tables db) <| t_warm_pools := foldl (λ m p, <[poolPk p := poolRow p]> m) (t_warm_pools (pg_tables db)) pools |>)
    (pg_scripts db) (pg_migrations db)).
Proof.
  revert db. induction pools as [|p pools IH]; intros db; cbn [for_each foldl].
  { intros _ _. exists (pg_calls db). by destruct db as [? []]. }
  rewrite bind_cons, forallb_app. cbn [forallb]. intros [Hp Hps]%andb_true_iff [Hh Hhs]%andb_true_iff.
  rewrite (run_bind _ _ _ _ _ (run_insertPool p db Hp Hh)).
  pose proof (IH ((tick db) <| pg_tables := (pg_tables db) <| t_warm_pools := <[poolPk p := poolRow p]> (t_warm_pools (pg_tables db)) |> |>))
    as IH'. destruct (IH' Hps Hhs) as [n En]. exists n. exact En.
Qed.

Lemma sim_ReplaceWarmPoolsForHost region host pools : simulates (CReplaceWarmPoolsForHost region host pools).
Proof.
  start (CReplaceWarmPoolsForHost region host pools). apply andb_true_iff in Hc as [[H1 H2]%andb_true_iff H3].
  simpl in Hg. apply andb_true_iff in Hg as [Gr [Gh Gp]%andb_true_iff].
  unfold Postgres.ReplaceWarmPoolsForHost, transaction. rewrite M_bind_eq, run_statement by done. cbn beta iota.
  unfold deletePools. rewrite M_bind_eq, run_exec by (simpl; by rewrite Gr, Gh). cbn beta iota.
  edestruct run_insertPools as [n ->]; [exact Gp|exact Hr|]. cbn beta iota zeta. rewrite Hquiet. split; [|reflexivity].
  cbn [fst snd] in *. split; [assumption|..]; destruct HR; simpl; try assumption.
  apply pools_insert_all; [done|]. by apply pools_delete.
Qed.

End Simulation.

Create HintDb pgsim.

#[export] Hint Resolve sim_GetProject sim_GetAPIKeyByHash sim_GetArtifact sim_GetFunctionVersion sim_GetBuildJob
  sim_GetExecutionJob sim_GetAttempt sim_GetHost sim_GetWebhookTrigger sim_GetHTTPTrigger sim_GetRegion
  sim_GetIdempotencyRecord sim_ListFunctionVersionsByProject sim_ListExecutionJobsByProject
  sim_ListAttemptsByJob sim_ListHTTPTriggers sim_ListProjectsByTenant sim_ListBuildJobsByProject
  sim_ListCostRecordsByJob sim_ListWebhookTriggers sim_ListHostsByRegion sim_ListExpiredAttempts sim_ListRegions
  sim_ListWarmPoolsByRegion sim_CountBuildJobsByProjectStates sim_CountBuildJobsByStates
  sim_CountExecutionJobsByProjectStates sim_CountExecutionJobsByStates sim_CountActiveExecutionJobsByRegion
  sim_PutArtifact sim_PutBuildJob sim_PutExecutionJob sim_UpdateExecutionJob sim_PutCostRecord sim_PutHost
  sim_UpdateHost sim_PutRegion sim_EnsureProject sim_PutAPIKey sim_PutFunctionVersion sim_PutAttempt
  sim_UpdateAttempt sim_TouchAPIKeyLastUsed sim_PutWebhookTrigger sim_PutHTTPTrigger
  sim_RequeueStaleExecutionJobs sim_CreateIdempotencyRecord sim_UpdateIdempotencyRecord
  sim_DeleteIdempotencyRecord sim_ClaimNextExecutionJob sim_ReplaceWarmPoolsForHost : pgsim.

Lemma simulation `{Env : !PgEnv} {A} (c : StoreE A) :
  (∀ n, pg_Fault n = None) → (∀ n, pg_Locked n = ∅) → (∀ a b, pg_ltb a b = string_ltb a b) → simulates c.
Proof. intros Hq Hl Hc. destruct c; auto with pgsim. Qed.
