(* ===== verification/PgFacts.v ===== *)
(** * PgFacts: guarantees of the Postgres store

    The refinement of the in-memory store over sequences of calls, what is left
    of a call that fails, the invariant of the tables, the text that can be
    stored, and the migrations. *)

From Stdlib Require Import Ascii.
From stdpp Require Import base decidable tactics numbers list gmap strings sorting.
From S2P Require Import Prelude Text Domain MemStore Postgres PgRefine.

(** ** Refinement *)

Definition Call : Type := { A : Type & StoreE A }.

(** A sequence of calls on both stores: as long as the database accepts the
    calls and the stores are written alike on them ([comparable], a side condition
    that translates no code), the outcomes agree. *)
Fixpoint agree_run `{!PgEnv} (calls : list Call) (db : PgState) (s : Store) : Prop :=
  match calls with
  | [] => True
  | existT _ c :: rest =>
      comparable (pg_tables db) c = true → accepted (pg_tables db) c = true →
      let o := pg c db in
      let o' := mem (normal (pg_tables db) c) s in
      same c o o' ∧ agree_run rest o.2 o'.2
  end.

Definition NewPg : PgState := mkPgState 0 NewTables [] ∅.

Lemma stores_new `{!PgEnv} : stores NewTables NewStore.
Proof. split; try (by rewrite fmap_empty); [apply store_wf_new|done|by split; intros..]. Qed.

(** C9: the Postgres store and the in-memory store agree on the calls on which
    they are written alike.  Over any sequence of calls of the store interface
    from empty stores, with no faults, no locks of other transactions and the C
    collation, up to the first call that the database does not accept (text it
    cannot store, a number beyond 32 bits, a reference that leads nowhere) or that
    is not [comparable]: each call ends the same way on both stores, with the same
    value (unordered listings up to their order) or with an error of the same
    kind, and leaves the same records.  The in-memory store gets the values as the
    database keeps them.  Not [comparable], because the stores differ on them, are:
    updating a missing idempotency record, requeueing with a blank message,
    looking for expired leases while an attempt has none, counting or listing
    under an empty region or job, and keys with colons.  A missing idempotency
    record is a plain error in Postgres and [ErrNotFound] in memory. *)
Theorem postgres_refines_memory (Env : PgEnv) (calls : list Call) :
  (∀ n, pg_Fault n = None) → (∀ n, pg_Locked n = ∅) → (∀ a b, pg_ltb a b = string_ltb a b) →
  agree_run calls NewPg NewStore.
Proof.
  intros Hq Hl Hc. assert (∀ db s, stores (pg_tables db) s → agree_run calls db s) as H; [|apply H, stores_new].
  induction calls as [|[A c] calls IH]; intros db s HR; simpl; [done|]. intros Hco Ha.
  pose proof (simulation c Hq Hl Hc db s HR Hco Ha) as Hs. split; [done|]. apply IH. by destruct Hs.
Qed.

(** A database without faults. *)
Definition demo_pg : PgEnv := {|
  pg_order := list_order;
  pg_Fault _ := None;
  pg_Locked _ := ∅;
  pg_ltb := string_ltb;
  pg_Message code _ := code;
  int4_EncodeError z := plainErr (itoa z);
  pg_json_Unmarshal raw := if bool_decide (raw = "{}") then Some (JObj ∅) else None;
  jsonb_text v := match v with JObj _ => "{}" | JStr s => s | _ => "null" end;
|}.

Definition demo_version : FunctionVersion :=
  mkFunctionVersion "v1" "p1" "web" "node22" "index.mjs" 128 30 "none" ["eu"] ∅ [] 1 "" "bundle" "d1"
    FunctionStateReady 5000001.

Definition demo_job (id : string) (created : Time) : ExecutionJob :=
  mkExecutionJob id "v1" "p1" "" JobStateQueued "{}" 1 0 "" "" None created created.

Definition demo_calls : list Call :=
  [existT _ (CEnsureProject 1000 "p1" "t1" "one"); existT _ (CPutFunctionVersion demo_version);
   existT _ (CPutExecutionJob (demo_job "j1" 9000)); existT _ (CPutExecutionJob (demo_job "j2" 7000));
   existT _ (CClaimNextExecutionJob [JobStateQueued] JobStateScheduling 12345)].

(** The older of two jobs is claimed, at a time in microseconds. *)
Lemma postgres_refines_memory_witness :
  @agree_run demo_pg demo_calls NewPg NewStore ∧
  (let run {A} (c : StoreE A) db := (@pg demo_pg A c db).2 in
   let db := run (CPutExecutionJob (demo_job "j2" 7000)) (run (CPutExecutionJob (demo_job "j1" 9000))
     (run (CPutFunctionVersion demo_version) (run (CEnsureProject 1000 "p1" "t1" "one") NewPg))) in
   let claim := CClaimNextExecutionJob [JobStateQueued] JobStateScheduling 12345 in
   @accepted demo_pg (pg_tables db) _ claim = true ∧
   match (@pg demo_pg _ claim db).1 with Ok j => (job_ID j, job_UpdatedAt j) = ("j2", 12000%Z) | Err _ => False end).
Proof.
  split; [apply (postgres_refines_memory demo_pg); done|]. vm_compute. by split.
Defined.

(** ** Calls that fail *)

(** The same database without faults. *)
Definition noFaults (Env : PgEnv) : PgEnv := {|
  pg_order := pg_order;
  pg_Fault _ := None;
  pg_Locked := pg_Locked;
  pg_ltb := pg_ltb;
  pg_Message := pg_Message;
  int4_EncodeError := int4_EncodeError;
  pg_json_Unmarshal := pg_json_Unmarshal;
  jsonb_text := jsonb_text;
|}.

(** The tables that calls read. *)
Definition visible (t : Tables) : Tables := t <| t_tenants := ∅ |> <| t_functions := ∅ |> <| t_leases := ∅ |>.

(** [m] in a database with faults and [m0] in one without: nothing visible has
    changed, or everything [m0] changes has; and a success is the success of
    [m0]. *)
Definition steady {A} (m m0 : PgM A) : Prop := ∀ db,
  (visible (pg_tables (m db).2) = visible (pg_tables db) ∨ visible (pg_tables (m db).2) = visible (pg_tables (m0 db).2)) ∧
  ∀ a, (m db).1 = Ok a → m db = m0 db.

(** Both change nothing visible. *)
Definition unseen {A} (m m0 : PgM A) : Prop := ∀ db,
  visible (pg_tables (m db).2) = visible (pg_tables db) ∧ visible (pg_tables (m0 db).2) = visible (pg_tables db) ∧
  ∀ a, (m db).1 = Ok a → m db = m0 db.

Lemma unseen_steady {A} (m m0 : PgM A) : unseen m m0 → steady m m0.
Proof. intros H db. destruct (H db) as (H1 & H2 & H3). by split; [left|]. Qed.

Lemma unseen_same {A} (m : PgM A) : (∀ db, pg_tables (m db).2 = pg_tables db) → unseen m m.
Proof. intros H db. by rewrite H. Qed.

Lemma steady_after {A B} (m m0 : PgM A) (f f0 : A → PgM B) :
  unseen m m0 → (∀ a, steady (f a) (f0 a)) → steady (m ≫= f) (m0 ≫= f0).
Proof.
  intros Hm Hf db. destruct (Hm db) as (H1 & H2 & H3). rewrite !M_bind_eq. destruct (m db) as [[a|e] db1]; [|by split; [left|]].
  rewrite <- (H3 a eq_refl). destruct (Hf a db1) as [[H|H] Ho]; simpl in *; (split; [|exact Ho]).
  - left. by rewrite H.
  - by right.
Qed.

Lemma steady_before {A B} (m m0 : PgM A) (f f0 : A → PgM B) :
  steady m m0 → (∀ a, unseen (f a) (f0 a)) → steady (m ≫= f) (m0 ≫= f0).
Proof.
  intros Hm Hf db. destruct (Hm db) as [Hv Ho].
  assert (visible (pg_tables ((m0 ≫= f0) db).2) = visible (pg_tables (m0 db).2)) as E0.
  { rewrite M_bind_eq. destruct (m0 db) as [[a|e] db0]; [|done]. by destruct (Hf a db0) as (_ & -> & _). }
  rewrite E0, !M_bind_eq. clear E0. destruct (m db) as [[a|e] db1]; [|by split].
  rewrite <- (Ho a eq_refl) in *. destruct (Hf a db1) as (H1 & _ & H3). simpl in *. rewrite H1. by split; [destruct Hv; [left|right]|].
Qed.

Lemma unseen_bind {A B} (m m0 : PgM A) (f f0 : A → PgM B) :
  unseen m m0 → (∀ a, unseen (f a) (f0 a)) → unseen (m ≫= f) (m0 ≫= f0).
Proof.
  intros Hm Hf db. destruct (Hm db) as (H1 & H2 & H3). rewrite !M_bind_eq. split_and!.
  - destruct (m db) as [[a|e] db1]; [|done]. by destruct (Hf a db1) as (-> & _).
  - destruct (m0 db) as [[a|e] db1]; [|done]. by destruct (Hf a db1) as (_ & -> & _).
  - destruct (m db) as [[a|e] db1]; [|done]. rewrite <- (H3 a eq_refl). by destruct (Hf a db1) as (_ & _ & Ho).
Qed.

Section Faults.
Context (Env : PgEnv).

Lemma steady_statement {A} args onErr (body : nat → Tables → PgFailure + A * Tables) :
  steady (@statement Env A args onErr body) (@statement (noFaults Env) A args onErr body).
Proof.
  intros db. unfold statement. change (@badArg (noFaults Env) args) with (@badArg Env args). simpl.
  destruct (match badArg args with Some f => inl f | None => body (pg_calls db) (pg_tables db) end) as [f|[a t]];
    destruct (pg_Fault (pg_calls db)) as [[e []]|]; simpl; (split; [|done]); auto.
Qed.

Lemma unseen_statement {A} args onErr (body : nat → Tables → PgFailure + A * Tables) :
  (∀ n t a t', body n t = inr (a, t') → visible t' = visible t) →
  unseen (@statement Env A args onErr body) (@statement (noFaults Env) A args onErr body).
Proof.
  intros Hb db. unfold statement. change (@badArg (noFaults Env) args) with (@badArg Env args). simpl.
  destruct (match badArg args with Some f => inl f | None => body (pg_calls db) (pg_tables db) end) as [f|[a t]] eqn:Eb.
  - by destruct (pg_Fault (pg_calls db)) as [[e []]|].
  - assert (visible t = visible (pg_tables db)) as Ev by (destruct (badArg args); [done|by eapply Hb]).
    by destruct (pg_Fault (pg_calls db)) as [[e []]|].
Qed.

Lemma unseen_exec args onErr body :
  (∀ t t', body t = inr t' → visible t' = visible t) →
  unseen (@exec Env args onErr body) (@exec (noFaults Env) args onErr body).
Proof. intros Hb. apply unseen_statement. intros n t a t'. destruct (body t) eqn:Eb; [done|]. intros [= _ <-]. by apply Hb. Qed.

Lemma unseen_query {A} args onErr (body : Tables → PgFailure + A) :
  unseen (@query Env A args onErr body) (@query (noFaults Env) A args onErr body).
Proof. apply unseen_statement. intros n t a t'. by destruct (body t); [|intros [= _ <-]]. Qed.

Lemma unseen_insertTenant tenant created : unseen (@insertTenant Env tenant created) (@insertTenant (noFaults Env) tenant created).
Proof. apply (unseen_exec _ (@pgErr Env)). by intros t t' [= <-]. Qed.

Lemma orRefused_inv refs t t' : orRefused refs t = inr t' → t' = t.
Proof. unfold orRefused. destruct (references refs); [done|]. by intros [= ->]. Qed.

(** A transaction changes all or nothing. *)
Lemma steady_transaction {A} (m m0 : PgM A) :
  (∀ db a, (m db).1 = Ok a → m db = m0 db) → steady (@transaction Env A m) (@transaction (noFaults Env) A m0).
Proof.
  intros Hm db. unfold transaction.
  set (b := (@statement Env _ [] _ _ ≫= λ _, m)). set (b0 := (@statement (noFaults Env) _ [] _ _ ≫= λ _, m0)).
  assert (∀ a, (b db).1 = Ok a → b db = b0 db) as Hb.
  { intros a. unfold b, b0. rewrite !M_bind_eq.
    pose proof (steady_statement [] (@pgErr Env) (λ _ t, inr (tt, t)) db) as [_ Hs].
    destruct (@statement Env unit [] (@pgErr Env) (λ _ t, inr (tt, t)) db) as [[u|e] db1]; [|done].
    change (@pgErr (noFaults Env)) with (@pgErr Env). rewrite <- (Hs u eq_refl). apply Hm. }
  destruct (b db) as [[a|e] db1]; [|by split; [left|]]. rewrite <- (Hb a eq_refl). simpl.
  destruct (pg_Fault (pg_calls db1)) as [[e []]|]; simpl; (split; [|done]); auto.
Qed.

Lemma exact_for_each {A} (body body0 : A → PgM unit) l :
  (∀ x db u, (body x db).1 = Ok u → body x db = body0 x db) →
  ∀ db u, (for_each l body db).1 = Ok u → for_each l body db = for_each l body0 db.
Proof.
  intros Hb. induction l as [|x l IH]; intros db u; [done|]. cbn [for_each]. rewrite !M_bind_eq. specialize (Hb x db).
  destruct (body x db) as [[v|e] db1]; [|done]. rewrite <- (Hb v eq_refl). apply IH.
Qed.

Lemma exact_ReplaceBody region host pools db u :
  ((@deletePools Env region host ≫= λ _, for_each pools (@insertPool Env)) db).1 = Ok u →
  (@deletePools Env region host ≫= λ _, for_each pools (@insertPool Env)) db =
  (@deletePools (noFaults Env) region host ≫= λ _, for_each pools (@insertPool (noFaults Env))) db.
Proof.
  rewrite !M_bind_eq. pose proof (steady_statement [AText region; AText host] (@pgErr Env) (λ _ t,
    inr (tt, t <| t_warm_pools := filter (λ e, (e.1.1.1, e.1.1.2) ≠ (region, host)) (t_warm_pools t) |>)) db) as [_ Hd].
  change (@statement Env _ _ _ _) with (@deletePools Env region host) in Hd.
  change (@statement (noFaults Env) _ _ _ _) with (@deletePools (noFaults Env) region host) in Hd.
  destruct (@deletePools Env region host db) as [[v|e] db1]; [|done]. rewrite <- (Hd v eq_refl).
  apply exact_for_each. intros p db2 w. apply (steady_statement _ (@pgErr Env)).
Qed.

Lemma steady_attempt a : steady (@upsertAttempt Env a) (@upsertAttempt (noFaults Env) a).
Proof.
  apply steady_before; [exact (steady_statement _ _ _)|]. intros _.
  apply (unseen_exec _ (@pgErr Env)). by intros t t' ->%orRefused_inv.
Qed.

End Faults.

(** C10: a call that fails has changed nothing that calls can read, or everything
    it would have changed: with connections that fail at any statement, before or
    after the server has executed it, the visible tables afterwards are those from
    before or those of the same call without faults.  A call that succeeds does
    the same as without faults. *)
Theorem postgres_failure_atomic (Env : PgEnv) {A} (c : StoreE A) (db : PgState) :
  let o := @pg Env A c db in
  let o0 := @pg (noFaults Env) A c db in
  (visible (pg_tables o.2) = visible (pg_tables db) ∨ visible (pg_tables o.2) = visible (pg_tables o0.2)) ∧
  ∀ a, o.1 = Ok a → o = o0.
Proof.
  revert db. change (steady (@pg Env A c) (@pg (noFaults Env) A c)).
  destruct c; try exact (steady_statement Env _ _ _).
  - apply steady_after; [apply unseen_insertTenant|]. intros _.
    apply steady_before; [exact (steady_statement Env _ _ _)|]. intros _.
    apply unseen_bind; [exact (unseen_query Env _ _ _)|]. intros p. apply unseen_same. intros db. by case_bool_decide.
  - apply steady_after; [apply unseen_insertTenant|]. intros _. exact (steady_statement Env _ _ _).
  - apply steady_before; [exact (steady_statement Env _ _ _)|]. intros n. apply unseen_same. intros db. by case_bool_decide.
  - apply steady_before; [exact (steady_statement Env _ _ _)|]. intros _.
    apply (unseen_exec Env _ (@pgErr Env)). by intros t t' ->%orRefused_inv.
  - apply steady_attempt.
  - apply steady_attempt.
  - apply steady_transaction. apply exact_ReplaceBody.
Qed.

(** ** Text *)

Lemma no_nul_concat l : Forall (λ s, no_nul s = true) l → no_nul (concatAll l) = true.
Proof. induction 1 as [|s l Hs _ IH]; [done|]. simpl. unfold no_nul in *. by rewrite no_byte_app, Hs, IH. Qed.

Lemma high_byte lo hi a : (0 < lo)%N → in_range lo hi a = true → Ascii.eqb a (ascii_of_N 0) = false.
Proof.
  unfold in_range. intros Hlo [Hl _]%andb_true_iff. apply Ascii.eqb_neq. intros ->. rewrite N_ascii_embedding in Hl by lia.
  apply N.leb_le in Hl. lia.
Qed.

Lemma second_ok_high a b : second_ok a b = true → Ascii.eqb b (ascii_of_N 0) = false.
Proof. unfold second_ok, contByte. repeat case_match; by eapply high_byte. Qed.

Lemma rune_no_nul r : is_rune r → r = nulByte ∨ no_nul r = true.
Proof.
  unfold is_rune, no_nul. destruct r as [|a r]; [by right|]. cbn [runes].
  destruct (runeSize (String a r)) as [|n] eqn:E; [done|]. cbn [runeSize] in E.
  destruct (in_range 0 127 a) eqn:Ea.
  { injection E as <-. intros [= <- _]. cbn [no_byte]. destruct (Ascii.eqb_spec a (ascii_of_N 0)) as [->|]; [by left|by right]. }
  assert (Ascii.eqb a (ascii_of_N 0) = false) as Ha by (apply Ascii.eqb_neq; intros ->; done).
  destruct r as [|b r]; [done|]. destruct (in_range 194 223 a).
  { destruct (contByte b) eqn:Eb; [|done]. injection E as <-. intros [= <- _]. right. cbn [no_byte]. by rewrite Ha, (high_byte 128 191 b). }
  destruct r as [|c r]; [done|]. destruct (in_range 224 239 a).
  { destruct (second_ok a b) eqn:Eb, (contByte c) eqn:Ec; try done. injection E as <-. intros [= <- _]. right. cbn [no_byte].
    by rewrite Ha, (second_ok_high a b), (high_byte 128 191 c). }
  destruct r as [|d r]; [done|]. destruct (in_range 240 244 a), (second_ok a b) eqn:Eb, (contByte c) eqn:Ec, (contByte d) eqn:Ed; try done.
  injection E as <-. intros [= <- _]. right. cbn [no_byte]. by rewrite Ha, (second_ok_high a b), (high_byte 128 191 c), (high_byte 128 191 d).
Qed.

Lemma sanitizeRune_rune r : is_rune r → is_rune (sanitizeRune r) ∧ no_nul (sanitizeRune r) = true.
Proof.
  intros Hr. unfold sanitizeRune. case_bool_decide; [by split; [apply replacement_rune|]|]. split; [done|].
  by destruct (rune_no_nul r Hr).
Qed.

Lemma no_nul_sanitizeRune s : no_nul s = true → mapRunes sanitizeRune s = s.
Proof.
  intros Hs. unfold mapRunes. rewrite <- (concat_runes s) at 2. f_equal. rewrite <- (concat_runes s) in Hs.
  assert (∀ l : list (bool * string), no_nul (concatAll (snd <$> l)) = true → sanitizeRune ∘ snd <$> l = snd <$> l) as H; [|by apply H].
  induction l as [|[b r] l IH]; simpl; [done|]. unfold no_nul in *. rewrite no_byte_app. intros [H1 H2]%andb_true_iff.
  f_equal; [|by apply IH]. unfold sanitizeRune. case_bool_decide; [by subst|done].
Qed.

(** What [sanitizeJSONString] returns can always be stored in a text column
    or inside a JSON document, and text that can be stored is left as it is. *)
Lemma sanitized_text (s : string) :
  storable (sanitizeJSONString s) = true ∧ (storable s = true → sanitizeJSONString s = s).
Proof.
  unfold storable, sanitizeJSONString. case_bool_decide as E0; [by subst|]. split.
  - pose proof (ToValidUTF8_valid s) as Hv.
    pose proof (runes_mapRunes sanitizeRune _ Hv (λ r Hr, proj1 (sanitizeRune_rune r Hr))) as Hr. apply andb_true_iff. split.
    + unfold utf8_valid. rewrite Hr. generalize (runes (ToValidUTF8 s)) as l. by induction l.
    + unfold mapRunes. apply no_nul_concat, Forall_fmap. pose proof (is_rune_runes (ToValidUTF8 s)) as Hl. unfold utf8_valid in Hv.
      revert Hv Hl. generalize (runes (ToValidUTF8 s)) as l. induction l as [|[b r] l IH]; simpl; [done|].
      intros [Hb Hl]%andb_true_iff [H1 H2]%Forall_cons. constructor; [by apply sanitizeRune_rune, H1|by apply IH].
  - intros [Hu Hn]%andb_true_iff. rewrite ToValidUTF8_id by done. by apply no_nul_sanitizeRune.
Qed.

(** *** JSON *)

Fixpoint jsize (v : Json) : nat :=
  match v with
  | JArr l => S (sum_list (jsize <$> l))
  | JObj m => S (sum_list (map_to_list (jsize <$> m)).*2)
  | _ => 1
  end.

Lemma sum_list_elem n l : n ∈ l → n ≤ sum_list l.
Proof. induction 1; simpl; lia. Qed.

Lemma json_ind (P : Json → Prop) :
  P JNull → (∀ b, P (JBool b)) → (∀ z s, P (JNum z s)) → (∀ s, P (JStr s)) → (∀ l, Forall P l → P (JArr l)) →
  (∀ m, map_Forall (λ _, P) m → P (JObj m)) → (∀ r, P (JRaw r)) → ∀ v, P v.
Proof.
  intros H1 H2 H3 H4 H5 H6 H7 v. remember (jsize v) as n eqn:En. revert v En.
  induction (lt_wf n) as [n _ IH]. intros [| | | |l|m|] ->; auto.
  - apply H5, Forall_forall. intros v Hv. eapply IH; [|done]. simpl.
    pose proof (sum_list_elem (jsize v) (jsize <$> l) (list_elem_of_fmap_2 _ _ _ Hv)). lia.
  - apply H6. intros k v Hv. eapply IH; [|done]. simpl.
    assert (jsize v ∈ (map_to_list (jsize <$> m)).*2) as Hin.
    { apply list_elem_of_fmap. exists (k, jsize v). split; [done|]. by rewrite elem_of_map_to_list, lookup_fmap, Hv. }
    pose proof (sum_list_elem _ _ Hin). lia.
Qed.

(** No name of an object contains NUL. *)
Fixpoint names_ok (v : Json) : bool :=
  match v with
  | JArr l => forallb id (names_ok <$> l)
  | JObj m => bool_decide (map_Forall (λ k b, no_nul k && b = true) (names_ok <$> m))
  | _ => true
  end.

(** C33: after [sanitizeJSONValue] the database refuses a document exactly when
    the name of some object member contains NUL: values are repaired, names are
    not. *)
Theorem sanitized_json (v : Json) : jsonb_ok (sanitizeJSONValue v) = names_ok v.
Proof.
  induction v as [|b|z s|s|l IH|m IH|r] using json_ind; try done.
  - destruct (sanitized_text s) as [Hs _]. by apply andb_true_iff in Hs as [_ Hs].
  - cbn [sanitizeJSONValue jsonb_ok names_ok]. f_equal. rewrite <- list_fmap_compose.
    apply Forall_fmap_ext_1. exact IH.
  - cbn [sanitizeJSONValue jsonb_ok names_ok]. apply bool_decide_ext. rewrite <- map_fmap_compose.
    rewrite (map_fmap_ext (jsonb_ok ∘ sanitizeJSONValue) names_ok m); [done|]. intros k v Hv. by apply (IH k).
Qed.

(** The error text of an attempt or a job is not sanitized: with a NUL in it the
    update is refused, and the attempt and the job stay as they are. *)
Lemma error_text_refused (Env : PgEnv) (a : Attempt) (j : ExecutionJob) (db : PgState) :
  no_nul (att_Error a) = false → no_nul (job_Error j) = false →
  (∃ e, (Postgres.UpdateAttempt a db).1 = Err e) ∧ pg_tables (Postgres.UpdateAttempt a db).2 = pg_tables db ∧
  (∃ e, (Postgres.UpdateExecutionJob j db).1 = Err e) ∧ pg_tables (Postgres.UpdateExecutionJob j db).2 = pg_tables db.
Proof.
  intros Ha Hj.
  assert (∀ A args onErr (body : nat → Tables → PgFailure + A * Tables), forallb good args = false →
    ∃ e, statement args onErr body db = (Err e, tick db)) as Hs.
  { intros A args onErr body Hg. unfold statement. destruct (badArg args) eqn:Eb.
    - destruct (pg_Fault _) as [[e []]|]; by eexists.
    - unfold badArg in Eb. exfalso. revert Hg Eb. induction args as [|x args IH]; simpl; [done|]. unfold good at 1.
      destruct (argError x); [done|exact IH]. }
  assert (forallb good (attemptArgs a) = false) as Ga.
  { simpl. unfold good at 6. simpl. unfold storable. rewrite Ha, andb_false_r. by rewrite !andb_false_r. }
  assert (forallb good (jobArgs j) = false) as Gj.
  { unfold jobArgs. rewrite forallb_app. simpl. unfold good at 9. simpl. unfold storable. rewrite Hj, andb_false_r.
    by rewrite !andb_false_r. }
  unfold UpdateAttempt, upsertAttempt, UpdateExecutionJob, upsertExecutionJob, exec.
  rewrite !M_bind_eq. edestruct Hs as [e1 ->]; [exact Ga|]. edestruct Hs as [e2 ->]; [exact Gj|].
  split_and!; by eexists.
Qed.

(** ** Migrations *)

Section Migrations.
Context (Env : PgEnv).

(** What running some of the files does: each one that is recorded has been run,
    in order, and none that was recorded before is run again. *)
Definition migrated (names : list string) (db db' : PgState) : Prop :=
  pg_tables db' = pg_tables db ∧ pg_migrations db ⊆ pg_migrations db' ∧
  ∃ l, l `sublist_of` names ∧ pg_scripts db' = pg_scripts db ++ l ∧ Forall (λ x, x ∉ pg_migrations db) l ∧
    (∀ x, x ∈ pg_migrations db' → x ∈ pg_migrations db ∨ x ∈ l).

Lemma migrated_refl names db db' :
  pg_tables db' = pg_tables db → pg_migrations db' = pg_migrations db → pg_scripts db' = pg_scripts db → migrated names db db'.
Proof.
  intros H1 H2 H3. split_and!; [done|by rewrite H2|]. exists []. rewrite H2, H3, app_nil_r. split_and!; [apply sublist_nil_l|done..|].
  by left.
Qed.

Lemma migrated_app names1 names2 db db1 db2 :
  migrated names1 db db1 → migrated names2 db1 db2 → migrated (names1 ++ names2) db db2.
Proof.
  intros (T1 & M1 & l1 & S1 & E1 & F1 & R1) (T2 & M2 & l2 & S2 & E2 & F2 & R2). split_and!; [congruence|by etrans|].
  exists (l1 ++ l2). split_and!; [by apply sublist_app|by rewrite E2, E1, app_assoc| |].
  - apply Forall_app. split; [done|]. eapply Forall_impl; [exact F2|]. simpl. intros x Hx Hin. by apply Hx, M1.
  - intros x [Hx|Hx]%R2; [|right; set_solver]. apply R1 in Hx as [Hx|Hx]; [by left|right; set_solver].
Qed.

Lemma schemaStatement_cases onErr f db :
  (∃ e, schemaStatement onErr f db = (Err e, tick db)) ∨ (∃ e, schemaStatement onErr f db = (Err e, f (tick db))) ∨
  schemaStatement onErr f db = (Ok tt, f (tick db)).
Proof. unfold schemaStatement, tick. destruct (pg_Fault _) as [[e []]|]; eauto. Qed.

Lemma run_applyMigration name db :
  migrated [name] db (applyMigration name db).2 ∧
  ((applyMigration name db).1 = Ok tt → name ∈ pg_migrations (applyMigration name db).2).
Proof.
  unfold applyMigration. rewrite M_bind_eq.
  destruct (schemaStatement_cases id id db) as [[e ->]|[[e ->]| ->]]; [split; [by apply migrated_refl|done]..|].
  rewrite M_bind_eq. cbn [gets fst snd]. case_bool_decide as Hin; [split; [by apply migrated_refl|done]|].
  assert (∀ db', pg_tables db' = pg_tables db → pg_scripts db' = pg_scripts db ++ [name] →
    (pg_migrations db' = pg_migrations db ∨ pg_migrations db' = {[name]} ∪ pg_migrations db) → migrated [name] db db') as Hrun.
  { intros db' H1 H2 H3. split_and!; [done|destruct H3 as [-> | ->]; set_solver|]. exists [name].
    split_and!; [done|done|by apply Forall_singleton|]. intros x. destruct H3 as [-> | ->]; set_solver. }
  rewrite M_bind_eq.
  set (run := λ db0 : PgState, db0 <| pg_scripts := pg_scripts db0 ++ [name] |>).
  destruct (schemaStatement_cases (λ e, wrapText ("apply migration " +:+ name +:+ ": ") e "") run (id (tick db)))
    as [[e ->]|[[e ->]| ->]];
    [split; [by apply migrated_refl|done]|split; [by apply Hrun; [..|left]|done]|].
  set (rec := λ db0 : PgState, db0 <| pg_migrations := {[name]} ∪ pg_migrations db0 |>).
  destruct (schemaStatement_cases id rec (run (tick (id (tick db))))) as [[e ->]|[[e ->]| ->]]; (split; [|try done]).
  - by apply Hrun; [..|left].
  - by apply Hrun; [..|right].
  - by apply Hrun; [..|right].
  - intros _. simpl. set_solver.
Qed.

End Migrations.

(** C34: running the migrations, with connections that fail at any point.  The
    files are run in the order of their names; a file that is recorded is not run
    again, and a file is recorded only after it has been run.  After a run that
    succeeds every file is recorded. *)
Theorem migrations_spec (Env : PgEnv) (entries : list string) (db : PgState) :
  let o := RunMigrations entries db in
  migrated (SliceStable string_ltb entries) db o.2 ∧
  (o.1 = Ok tt → ∀ name, name ∈ entries → name ∈ pg_migrations o.2).
Proof.
  unfold RunMigrations. simpl. rewrite M_bind_eq.
  destruct (schemaStatement_cases Env id id db) as [[e ->]|[[e ->]| ->]]; [split; [by apply migrated_refl|done]..|].
  rewrite M_bind_eq.
  destruct (schemaStatement_cases Env id id (id (tick db))) as [[e ->]|[[e ->]| ->]]; [split; [by apply migrated_refl|done]..|].
  assert (∀ l db0, migrated l db0 (for_each l applyMigration db0).2 ∧
    ((for_each l applyMigration db0).1 = Ok tt → ∀ name, name ∈ l → name ∈ pg_migrations (for_each l applyMigration db0).2)) as Hl.
  { induction l as [|x l IH]; intros db0; [by split; [apply migrated_refl|intros _ name Hn; set_solver]|].
    cbn [for_each]. rewrite M_bind_eq. destruct (run_applyMigration Env x db0) as [Hm Ho].
    destruct (applyMigration x db0) as [[[]|e] db1]; simpl in *.
    - destruct (IH db1) as [Hm' Ho']. split; [by apply (migrated_app [x] l _ db1)|].
      intros E name [->|Hn]%elem_of_cons; [|by apply Ho']. destruct Hm' as (_ & Hs & _). apply Hs. by apply Ho.
    - split; [|done]. apply (migrated_app [x] l _ db1 db1 Hm). by apply migrated_refl. }
  destruct (Hl (SliceStable string_ltb entries) (id (tick (id (tick db))))) as [Hm Ho]. split; [exact Hm|].
  intros E name Hn. apply Ho; [done|]. by rewrite elem_of_SliceStable.
Qed.
