(* ===== verification/GuestProto.v ===== *)
(** * GuestProto: the messages between the micro-VM driver and its guests

    Models [internal/firecracker/protocol.go].  The driver on the host and the
    runner inside a virtual machine exchange these as JSON over a vsock
    connection; the fields have the names they have in the source.  Start and
    finish times are left out.

    The encoding is a parameter ([GuestJson]): [encoding/json] need not give a
    message back as it was.  A nil [Output] arrives as null, a raw message is
    compacted and escaped, invalid UTF-8 is replaced, and a raw message that is
    not JSON cannot be encoded at all.  Both sides use the same one, and what
    arrives is what [overWire] says. *)

From stdpp Require Import base decidable tactics numbers list gmap strings.
From S2P Require Import Prelude Domain MemStore World Scheduler.

Definition GuestActionPing : string := "ping".
Definition GuestActionPrepare : string := "prepare".
Definition GuestActionExecute : string := "execute".

Definition StreamKindHTTP : string := "http".

Definition GuestStreamFrameHTTPEvent : string := "http_event".
Definition GuestStreamFrameInvocation : string := "invocation".

Record GuestPrepareRequest := mkGuestPrepareRequest {
  gp_FunctionID : string;
  gp_Entrypoint : string;
  gp_ArtifactBundle : string;
  gp_Env : gmap string string;
}.

Record GuestPrepareResponse := mkGuestPrepareResponse {
  gpr_Prepared : bool;
  gpr_WorkerPrepared : bool;
  gpr_Logs : string;
}.

Record GuestInvocationRequest := mkGuestInvocationRequest {
  gi_AttemptID : string;
  gi_JobID : string;
  gi_FunctionID : string;
  gi_Entrypoint : string;
  gi_ArtifactBundle : string;
  gi_UsePreparedRoot : bool;
  gi_Payload : string;
  gi_Env : gmap string string;
  gi_TimeoutMillis : Z;
  gi_Region : string;
  gi_HostID : string;
  gi_EnableStreaming : bool;
  gi_StreamKind : string;
}.

Record GuestInvocationResponse := mkGuestInvocationResponse {
  gir_ExitCode : Z;
  gir_Logs : string;
  gir_Output : string;
  gir_Error : string;
}.

(** [gq_Ping]: whether the empty ping request is present. *)
Record GuestRequest := mkGuestRequest {
  gq_Action : string;
  gq_Ping : bool;
  gq_Prepare : option GuestPrepareRequest;
  gq_Invocation : option GuestInvocationRequest;
}.

(** [gs_Ping] is the [Ready] field of the ping response. *)
Record GuestResponse := mkGuestResponse {
  gs_Error : string;
  gs_Ping : option bool;
  gs_Prepare : option GuestPrepareResponse;
  gs_Invocation : option GuestInvocationResponse;
}.

Record GuestStreamFrame := mkGuestStreamFrame {
  gf_Type : string;
  gf_HTTPEvent : option HTTPStreamEvent;
  gf_Invocation : option GuestInvocationResponse;
  gf_Error : string;
}.

(** ** The encoding *)

(** What [json.Encoder] writes for a message, if it can, and what [json.Decoder]
    makes of a text. *)
Class GuestJson := {
  json_MarshalGuestRequest : GuestRequest → result string;
  json_UnmarshalGuestRequest : string → result GuestRequest;
  json_MarshalGuestResponse : GuestResponse → result string;
  json_UnmarshalGuestResponse : string → result GuestResponse;
  json_MarshalGuestFrame : GuestStreamFrame → result string;
  json_UnmarshalGuestFrame : string → result GuestStreamFrame;
}.

(** A message as the other side gets it. *)
Definition overWire {A} (marshal : A → result string) (unmarshal : string → result A) (x : A) : result A :=
  match marshal x with
  | Ok text => unmarshal text
  | Err e => Err e
  end.
