(* ===== verification/MicroVM.v ===== *)
(** * MicroVM: starting virtual machines and talking to their guests

    Models [internal/firecracker/microvm/driver.go].  The state of the host as
    the driver sees it is [VmState]: the file system, the tap pool with the
    leases taken from it, the processes, what has been sent to the Firecracker
    processes and to the guests.  Everything that comes from outside is numbered
    by [vm_step] and given by [VmEnv]: faults of system calls, replies of
    Firecracker and of guests, ends of processes, the time that passes.  In each
    step the rest of the host may change the file system ([vm_Outside]): the
    Firecracker processes and other executions do.

    [copyFile] is given as its effect on the file system: cloning or copying
    ends with the same contents, and a copy that fails leaves some part of them.
    A hard link of the kernel image is another file with its contents.  Modes of
    files are left out. *)

From Stdlib Require Import Ascii.
From stdpp Require Import base decidable tactics numbers list gmap strings pretty.
From S2P Require Import Prelude Text Domain MemStore World Scheduler Artifacts Files NetworkPool NodeAgent GuestProto.

(** ** Configuration *)

Record Config := mkConfig {
  cf_FirecrackerBinary : string;
  cf_JailerBinary : string;
  cf_KernelImagePath : string;
  cf_RootFSPath : string;
  cf_WorkspaceDir : string;
  cf_SnapshotDir : string;
  cf_ChrootBaseDir : string;
  cf_UseJailer : bool;
  cf_GuestInitPath : string;
  cf_GuestVSockPort : Z;
  cf_GuestCIDStart : Z;
  cf_VCPUCount : Z;
  cf_DefaultMemoryMB : Z;
  cf_BootArgs : string;
  cf_TapDevice : string;
  cf_GuestMAC : string;
  cf_GuestIP : string;
  cf_GatewayIP : string;
  cf_Netmask : string;
  cf_TapDevicePrefix : string;
  cf_TapCount : Z;
  cf_TapNetworkCIDR : string;
  cf_TapSubnetPrefix : Z;
  cf_StartTimeout : Duration;
  cf_ConnectTimeout : Duration;
  cf_PrepareTimeout : Duration;
  cf_ShutdownTimeout : Duration;
  cf_InvokeShutdownTimeout : Duration;
  cf_JailerUID : Z;
  cf_JailerGID : Z;
}.

(** The fields that choose the tap pool. *)
Definition tapConfigOf (c : Config) : TapConfig :=
  mkTapConfig (cf_TapDevice c) (cf_GuestMAC c) (cf_GuestIP c) (cf_GatewayIP c) (cf_Netmask c) (cf_TapDevicePrefix c)
    (cf_TapCount c) (cf_TapNetworkCIDR c) (cf_TapSubnetPrefix c).

Definition orText (value fallback : string) : string := if blank value then fallback else value.
Definition orNumber (value fallback : Z) : Z := if (value =? 0)%Z then fallback else value.

(** [tempDir], [uid] and [gid] are those of the process. *)
Definition withDefaults (tempDir : string) (uid gid : Z) (c : Config) : Config :=
  let workspace := orText (cf_WorkspaceDir c) tempDir in
  mkConfig (cf_FirecrackerBinary c) (cf_JailerBinary c) (cf_KernelImagePath c) (cf_RootFSPath c) workspace
    (orText (cf_SnapshotDir c) (JoinPath workspace "snapshots"))
    (orText (cf_ChrootBaseDir c) (JoinPath workspace "jailer"))
    (cf_UseJailer c)
    (orText (cf_GuestInitPath c) "/usr/local/bin/lecrev-guest-runner")
    (orNumber (cf_GuestVSockPort c) 5005)
    (orNumber (cf_GuestCIDStart c) 3000)
    (orNumber (cf_VCPUCount c) 1)
    (orNumber (cf_DefaultMemoryMB c) 128)
    (cf_BootArgs c) (cf_TapDevice c) (cf_GuestMAC c) (cf_GuestIP c) (cf_GatewayIP c) (cf_Netmask c)
    (orText (cf_TapDevicePrefix c) "tap")
    (cf_TapCount c) (cf_TapNetworkCIDR c)
    (orNumber (cf_TapSubnetPrefix c) 30)
    (orNumber (cf_StartTimeout c) (10 * Second))
    (orNumber (cf_ConnectTimeout c) (10 * Second))
    (orNumber (cf_PrepareTimeout c) (20 * Second))
    (orNumber (cf_ShutdownTimeout c) (5 * Second))
    (orNumber (cf_InvokeShutdownTimeout c) (300 * Millisecond))
    (if cf_UseJailer c then orNumber (cf_JailerUID c) uid else cf_JailerUID c)
    (if cf_UseJailer c then orNumber (cf_JailerGID c) gid else cf_JailerGID c).

Definition Validate (c : Config) : result unit :=
  if blank (cf_FirecrackerBinary c) then Err (plainErr "firecracker binary is required")
  else if blank (cf_KernelImagePath c) then Err (plainErr "kernel image path is required")
  else if blank (cf_RootFSPath c) then Err (plainErr "rootfs path is required")
  else if cf_UseJailer c && blank (cf_JailerBinary c) then
    Err (plainErr "jailer binary is required when useJailer is enabled")
  else Ok tt.

(** The driver, as far as it does not change. *)
Record VmDriver := mkVmDriver { dv_config : Config; dv_networks : list networkConfig }.

(** [New]: the driver with the first guest CID and the tap pool. *)
Definition NewMicroVM (tempDir : string) (uid gid : Z) (cfg : Config) : result (VmDriver * Z * option networkPool) :=
  let cfg := withDefaults tempDir uid gid cfg in
  _ ← Validate cfg;
  networks ← networkConfigs (tapConfigOf cfg);
  pool ← newNetworkPool networks;
  mret (mkVmDriver cfg networks, cf_GuestCIDStart cfg, pool).

(** ** Text *)

Definition sanitizeID (input : string) : string := if bool_decide (input = "") then "" else sanitizeRunes input.

Definition newlineText : string := String (ascii_of_N 10) "".

Definition combineLogs (primary secondary : string) : string :=
  let primary := TrimSpace primary in
  let secondary := TrimSpace secondary in
  if bool_decide (primary = "") then secondary
  else if bool_decide (secondary = "") then primary
  else primary +:+ newlineText +:+ newlineText +:+ "[firecracker]" +:+ newlineText +:+ secondary.

Definition bootArgs (d : VmDriver) (req : ExecuteRequest) (network : option networkConfig) : result string :=
  let parts :=
    ["console=ttyS0"; "reboot=k"; "panic=1"; "pci=off"; "rw";
     "init=" +:+ cf_GuestInitPath (dv_config d);
     "lecrev.vsock_port=" +:+ itoa (cf_GuestVSockPort (dv_config d))] ++
    (if blank (cf_BootArgs (dv_config d)) then [] else Fields (cf_BootArgs (dv_config d))) in
  if isFullNetworkPolicy (xr_NetworkPolicy req) then
    let refused := Err (plainErr "networkPolicy=full requires tapDevice, guestIP, gatewayIP, and netmask") in
    match network with
    | None => refused
    | Some network =>
        if blank (nc_TapDevice network) || blank (nc_GuestIP network) || blank (nc_GatewayIP network) ||
           blank (nc_Netmask network) then refused
        else Ok (Join (parts ++ ["ip=" +:+ nc_GuestIP network +:+ "::" +:+ nc_GatewayIP network +:+ ":" +:+
                                 nc_Netmask network +:+ "::eth0:off"]) " ")
    end
  else Ok (Join parts " ").

(** ** The API of a Firecracker process *)

Inductive ApiBody :=
| BMachineConfig (vcpuCount memSizeMib : Z) (smt : bool)
| BBootSource (kernelImagePath bootArgs : string)
| BDrive (driveID pathOnHost : string) (isRootDevice isReadOnly : bool)
| BVsock (vsockID : string) (guestCID : Z) (udsPath : string)
| BNetworkInterface (ifaceID hostDevName guestMAC : string)
| BAction (actionType : string)
| BSnapshotCreate (snapshotType snapshotPath memFilePath : string)
| BSnapshotLoad (snapshotPath : string) (memBackend : option (string * string)) (resumeVM trackDirtyPages : bool)
| BVmState (state : string).

Record ApiCall := mkApiCall { ac_method : string; ac_path : string; ac_body : ApiBody }.

(** ** The host *)

(** A process runs, has been killed and not yet seen to end, or has ended. *)
Inductive ProcState := Running | Killed | Exited.

(** A [vmProcess]: its command and, when [done] is set, [waitErr];
    [vp_cleaned] is the state of [cleanupOnce] of its instance. *)
Record vmProcess := mkVmProcess {
  vp_binary : string;
  vp_args : list string;
  vp_dir : string;
  vp_state : ProcState;
  vp_done : option (option GoError);
  vp_cleaned : bool;
}.

#[export] Instance vmProcess_rebuild : Rebuild vmProcess :=
  λ r, mkVmProcess (vp_binary r) (vp_args r) (vp_dir r) (vp_state r) (vp_done r) (vp_cleaned r).

(** An API call with the process it went to and the tap devices that were leased
    when it was made. *)
Record ApiEntry := mkApiEntry { ae_pid : nat; ae_call : ApiCall; ae_leased : list string }.

(** [vm_made] and [vm_removed] record the layout directories that were made and
    those for which removal was tried. *)
Record VmState := mkVmState {
  vm_tree : Tree;
  vm_owners : gmap Path (Z * Z);
  vm_pool : option networkPool;
  vm_leases : list networkLease;
  vm_nextCID : Z;
  vm_procs : list vmProcess;
  vm_made : list string;
  vm_removed : list string;
  vm_calls : list ApiEntry;
  vm_guest : list (string * Z * GuestRequest);
  vm_events : list HTTPStreamEvent;
  vm_step : nat;
}.

#[export] Instance VmState_rebuild : Rebuild VmState :=
  λ r, mkVmState (vm_tree r) (vm_owners r) (vm_pool r) (vm_leases r) (vm_nextCID r) (vm_procs r) (vm_made r) (vm_removed r)
         (vm_calls r) (vm_guest r) (vm_events r) (vm_step r).

(** A connection to a guest: dialing, writing the CONNECT line, reading the reply
    line, sending the request (it may fail after the guest has got it), and the
    JSON texts that can be read before an error.  The source reads without a
    deadline, so an exchange with a guest that never answers never ends; here
    every exchange ends, with the error [ge_End] when the connection is closed. *)
Record Exchange := mkExchange {
  ge_Dial : option GoError;
  ge_Connect : option GoError;
  ge_Line : result string;
  ge_Send : option GoError;
  ge_Messages : list string;
  ge_End : GoError;
}.

(** What ends a turn of [waitForFile] in which the file is not there. *)
Inductive WaitTurn :=
| TurnTick
| TurnCanceled (e : GoError)
| TurnExited (err : option GoError).

(** Numbered by [vm_step].  [vm_Fault]: a system call fails; [vm_Part]: what a
    failed copy has written; [vm_Spared]: the nodes a failed removal has not
    reached; [vm_Random]: the random number in the name of a temporary directory
    (of the try that decides); [vm_Exit]: the end of a process within the time
    that is waited for it; [vm_Waits]: the other users of the tap pool while an
    acquisition waits; [vm_Turns]: one entry for each request to a guest for which
    there is time, with the error of the context if it ends after that request. *)
Class VmEnv := {
  vm_json :: GuestJson;
  vm_GOOS : string;
  vm_Outside : nat → Tree → Tree;
  vm_Fault : nat → option GoError;
  vm_Part : nat → string;
  vm_Spared : nat → Path → bool;
  vm_Random : nat → N;
  vm_UnixNano : nat → Z;
  vm_ChownDenied : nat → bool;
  vm_Exit : nat → option (option GoError);
  vm_Output : nat → string * string;
  vm_Api : nat → ApiCall → result (Z * string);
  vm_FileTurns : nat → list WaitTurn;
  vm_Turns : nat → list (option GoError);
  vm_Exchange : nat → string → GuestRequest → Exchange;
  vm_StreamExchange : nat → string → GuestRequest → Exchange;
  vm_Waits : nat → list (networkPool → networkPool);
  vm_Since : string → Duration;
}.

Abbreviation VM := (M VmState).

Abbreviation Sink := (option (nat → HTTPStreamEvent → option GoError)).

Section Host.
Context `{!VmEnv}.

(** A step in which the outside answers. *)
Definition interact {A} (f : nat → A) : VM A := λ s,
  (Ok (f (vm_step s)), s <| vm_tree := vm_Outside (vm_step s) (vm_tree s) |> <| vm_step := S (vm_step s) |>).

(** A system call on the file system. *)
Definition os {A} (m : M Tree A) : VM A := λ s,
  let s' := s <| vm_step := S (vm_step s) |> in
  match vm_Fault (vm_step s) with
  | Some e => (Err e, s')
  | None => let '(r, t) := m (vm_tree s) in (r, s' <| vm_tree := t |>)
  end.

(** [os.RemoveAll]; when it fails, some of the nodes below the path are gone. *)
Definition removeSome (gone : Path → bool) (p : Path) (t : Tree) : Tree :=
  let kept (k : Path) :=
    bool_decide (movedTo p p k = None) || bool_decide (k = p) ||
    negb (existsb (λ q, bool_decide (length p < length q) && gone q) (ancestors k)) in
  mkTree (filter (λ e, kept e.1 = true) (tr_files t)) (filter (λ k, kept k = true) (tr_dirs t))
    (filter (λ e, kept e.1 = true) (tr_links t)).

Definition osRemoveAll (p : Path) : VM unit := λ s,
  let s' := s <| vm_step := S (vm_step s) |> in
  match vm_Fault (vm_step s) with
  | Some e => (Err e, s' <| vm_tree := removeSome (λ q, negb (vm_Spared (vm_step s) q)) p (vm_tree s) |>)
  | None => let '(r, t) := RemoveAll p (vm_tree s) in (r, s' <| vm_tree := t |>)
  end.

(** [os.MkdirTemp] with a pattern that ends in a star. *)
Definition MkdirTemp (dir prefix : string) : VM string :=
  n ← (λ s, (Ok (vm_Random (vm_step s)), s));
  let path := JoinPath dir (prefix +:+ pretty n) in
  os (λ t, match find_node t false (comps path) with
           | Vacant q => (Ok path, t <| tr_dirs := {[q]} ∪ tr_dirs t |>)
           | Found _ => (Err (pathErr "mkdir" (comps path) EEXIST), t)
           | Unreachable e => (Err (pathErr "mkdir" (comps path) e), t)
           end).

(** [os.Stat] *)
Definition osStat (path : string) : VM bool := os (λ t, (Stat (comps path) t, t)).

(** Writing to an open file; when it fails, some part has been written. *)
Definition writeCopy (q : Path) (data : string) : VM unit := λ s,
  let s' := s <| vm_step := S (vm_step s) |> in
  match vm_Fault (vm_step s) with
  | Some e => (Err e, s' <| vm_tree := (writeTo q (vm_Part (vm_step s)) (vm_tree s)).2 |>)
  | None => (Ok tt, s' <| vm_tree := (writeTo q data (vm_tree s)).2 |>)
  end.

Definition copyFile (sourcePath targetPath : string) : VM unit :=
  data ← os (λ t, (ReadFile (comps sourcePath) t, t));
  q ← os (OpenFile (comps targetPath));
  writeCopy q data.

(** [os.Link] *)
Definition osLink (sourcePath targetPath : string) : VM unit :=
  os (λ t,
    match ReadFile (comps sourcePath) t, find_node t false (comps targetPath) with
    | Err e, _ => (Err e, t)
    | Ok data, Vacant q => (Ok tt, t <| tr_files := <[q := data]> (tr_files t) |>)
    | Ok _, Found _ => (Err (linkErr (comps sourcePath) (comps targetPath) EEXIST), t)
    | Ok _, Unreachable e => (Err (linkErr (comps sourcePath) (comps targetPath) e), t)
    end).

Definition stageKernel (targetPath sourcePath : string) : VM unit :=
  linked ← try (osLink sourcePath targetPath);
  match linked with
  | Ok _ => mret tt
  | Err _ => copyFile sourcePath targetPath
  end.

(** ** Guest identifiers *)

(** [nextCID] is a uint32. *)
Definition allocCID (d : VmDriver) : VM Z := λ s,
  let cid := vm_nextCID s in
  let next := uint32_of (cid + 1) in
  (Ok cid, s <| vm_nextCID := if (next <? cf_GuestCIDStart (dv_config d))%Z then cf_GuestCIDStart (dv_config d)
                              else next |>).

(** ** Layout *)

(** [vl_remove] is the directory that [cleanup] removes. *)
Record vmLayout := mkVmLayout {
  vl_rootDir : string;
  vl_apiSocketHost : string;
  vl_vsockSocketHost : string;
  vl_kernelPath : string;
  vl_rootFSPath : string;
  vl_guestKernelPath : string;
  vl_guestRootFSPath : string;
  vl_guestVSockPath : string;
  vl_remove : string;
}.

Definition layoutAt (root remove : string) : vmLayout :=
  mkVmLayout root (JoinPath root "api.socket") (JoinPath root "vsock.socket") (JoinPath root "vmlinux")
    (JoinPath root "rootfs.ext4") "vmlinux" "rootfs.ext4" "vsock.socket" remove.

Definition made (layout : vmLayout) (vmID : string) : VM (vmLayout * string) :=
  modify (λ s, s <| vm_made := vm_made s ++ [vl_remove layout] |>) ≫= λ _, mret (layout, vmID).

Definition prepareLayout (d : VmDriver) (attemptID : string) : VM (vmLayout * string) :=
  nano ← (λ s, (Ok (vm_UnixNano (vm_step s)), s));
  let vmID := sanitizeID attemptID in
  let vmID := if bool_decide (vmID = "") then "vm-" +:+ itoa nano else vmID in
  let cfg := dv_config d in
  if cf_UseJailer cfg then
    let vmDir := JoinPath (JoinPath (cf_ChrootBaseDir cfg) "firecracker") vmID in
    let vmRoot := JoinPath vmDir "root" in
    os (MkdirAll (comps vmRoot)) ≫= λ _, made (layoutAt vmRoot vmDir) vmID
  else
    rootDir ← MkdirTemp (cf_WorkspaceDir cfg) "lecrev-firecracker-";
    made (layoutAt rootDir rootDir) vmID.

(** [layout.cleanup] *)
Definition layoutCleanup (layout : vmLayout) : VM unit :=
  modify (λ s, s <| vm_removed := vm_removed s ++ [vl_remove layout] |>) ≫= λ _,
  try (osRemoveAll (comps (vl_remove layout))) ≫= λ _, mret tt.

(** ** Processes *)

Definition startVM (d : VmDriver) (vmID : string) (layout : vmLayout) : VM nat :=
  let cfg := dv_config d in
  let '(binary, args, dir) :=
    if cf_UseJailer cfg then
      (cf_JailerBinary cfg,
       ["--id"; vmID; "--exec-file"; cf_FirecrackerBinary cfg; "--uid"; itoa (cf_JailerUID cfg);
        "--gid"; itoa (cf_JailerGID cfg); "--chroot-base-dir"; cf_ChrootBaseDir cfg; "--";
        "--api-sock"; "api.socket"], "")
    else (cf_FirecrackerBinary cfg, ["--api-sock"; "api.socket"], vl_rootDir layout) in
  fault ← interact vm_Fault;
  match fault with
  | Some e => fail e
  | None => λ s, (Ok (length (vm_procs s)),
                  s <| vm_procs := vm_procs s ++ [mkVmProcess binary args dir Running None false] |>)
  end.

Definition onProc (pid : nat) (f : vmProcess → vmProcess) : VM unit :=
  modify (λ s, s <| vm_procs := alter f pid (vm_procs s) |>).

Definition kill (p : vmProcess) : vmProcess :=
  match vp_state p with Running => p <| vp_state := Killed |> | _ => p end.

(** Receiving from [waitCh] and [markDone]. *)
Definition reaped (err : option GoError) (p : vmProcess) : vmProcess :=
  let p := p <| vp_state := Exited |> in
  match vp_done p with Some _ => p | None => p <| vp_done := Some err |> end.

Definition doneErr (pid : nat) : VM (option (option GoError)) := gets (λ s, vm_procs s !! pid ≫= vp_done).

(** One [select] on [waitCh] and a timer. *)
Definition awaitExit (pid : nat) : VM (option (option GoError)) :=
  exited ← interact vm_Exit;
  match exited with
  | Some err => onProc pid (reaped err) ≫= λ _, mret (Some err)
  | None => mret None
  end.

Definition wait (pid : nat) : VM (option GoError) :=
  done ← doneErr pid;
  match done with
  | Some err => mret err
  | None =>
      exited ← awaitExit pid;
      match exited with
      | Some err => mret err
      | None =>
          onProc pid kill ≫= λ _,
          exited ← awaitExit pid;
          match exited with
          | Some err => mret err
          | None => mret (Some (plainErr "timed out waiting for firecracker process to exit"))
          end
      end
  end.

Definition close (pid : nat) : VM (option GoError) := wait pid.

Definition terminate (pid : nat) : VM (option GoError) :=
  done ← doneErr pid;
  match done with
  | Some err => mret err
  | None =>
      onProc pid kill ≫= λ _,
      exited ← awaitExit pid;
      match exited with
      | Some err => mret err
      | None => mret (Some (plainErr "timed out waiting for firecracker process to terminate"))
      end
  end.

(** [vmProcess.logs] *)
Definition procLogs (pid : nat) : VM string :=
  out ← interact vm_Output;
  mret (combineLogs (TrimSpace out.1) (TrimSpace out.2)).

Fixpoint waitTurns (path : string) (pid : nat) (turns : list WaitTurn) : VM unit :=
  match turns with
  | [] => fail (plainErr ("timed out waiting for " +:+ path))
  | turn :: rest =>
      found ← try (osStat path);
      match found with
      | Ok _ => mret tt
      | Err _ =>
          turn ← interact (λ _, turn);
          match turn with
          | TurnTick => waitTurns path pid rest
          | TurnCanceled e => fail e
          | TurnExited err =>
              onProc pid (reaped err) ≫= λ _,
              fail (default (plainErr ("process exited before " +:+ path +:+ " appeared")) err)
          end
      end
  end.

Definition waitForFile (path : string) (pid : nat) : VM unit :=
  turns ← interact vm_FileTurns;
  waitTurns path pid turns.

(** ** Requests to a Firecracker process *)

Definition apiRequest (pid : nat) (method path : string) (body : ApiBody) : VM unit :=
  let call := mkApiCall method path body in
  modify (λ s, s <| vm_calls := vm_calls s ++ [mkApiEntry pid call (live (vm_leases s))] |>) ≫= λ _,
  resp ← interact (λ n, vm_Api n call);
  match resp with
  | Err e => fail e
  | Ok (status, raw) =>
      if (200 <=? status)%Z && (status <? 300)%Z then mret tt
      else fail (plainErr ("firecracker api " +:+ path +:+ " returned status " +:+ itoa status +:+ ": " +:+ TrimSpace raw))
  end.

Definition put (pid : nat) : string → ApiBody → VM unit := apiRequest pid "PUT".
Definition patch (pid : nat) : string → ApiBody → VM unit := apiRequest pid "PATCH".

(** ** Requests to a guest *)

(** The handshake and the request: the texts that can be read afterwards.  A
    request that cannot be encoded is not sent. *)
Definition guestSend (exchange : Exchange) (socketPath : string) (port : Z) (request : GuestRequest) :
    VM (list string * GoError) :=
  match ge_Dial exchange, ge_Connect exchange, ge_Line exchange with
  | Some e, _, _ => fail e
  | None, Some e, _ => fail e
  | None, None, Err e => fail e
  | None, None, Ok line =>
      if negb (HasPrefix (TrimSpace line) "OK") then
        fail (plainErr ("unexpected vsock handshake response " +:+ quote (TrimSpace line)))
      else
        _ ← lift (json_MarshalGuestRequest request);
        modify (λ s, s <| vm_guest := vm_guest s ++ [(socketPath, port, request)] |>) ≫= λ _,
        match ge_Send exchange with
        | Some e => fail e
        | None => mret (ge_Messages exchange, ge_End exchange)
        end
  end.

Definition guestRequestOnce (socketPath : string) (port : Z) (request : GuestRequest) : VM GuestResponse :=
  exchange ← interact (λ n, vm_Exchange n socketPath request);
  '(responses, e) ← guestSend exchange socketPath port request;
  match responses with
  | text :: _ => lift (json_UnmarshalGuestResponse text)
  | [] => fail e
  end.

(** The loop over the frames of a streamed response. *)
Fixpoint streamFrames (sink : Sink) (e : GoError) (texts : list string) : VM GuestStreamFrame :=
  match texts with
  | [] => fail e
  | text :: rest =>
      frame ← lift (json_UnmarshalGuestFrame text);
      if bool_decide (gf_Type frame = GuestStreamFrameHTTPEvent) then
        (match sink, gf_HTTPEvent frame with
         | Some sink, Some event =>
             n ← gets (λ s, length (vm_events s));
             modify (λ s, s <| vm_events := vm_events s ++ [event] |>) ≫= λ _,
             match sink n event with Some e => fail e | None => mret tt end
         | _, _ => mret tt
         end) ≫= λ _, streamFrames sink e rest
      else mret frame
  end.

Definition guestStreamRequestOnce (socketPath : string) (port : Z) (request : GuestRequest) (sink : Sink) :
    VM GuestStreamFrame :=
  exchange ← interact (λ n, vm_StreamExchange n socketPath request);
  '(frames, e) ← guestSend exchange socketPath port request;
  streamFrames sink e frames.

(** The loops of [guestRequestWithDialer] and [guestStreamRequestWithDialer]. *)
Fixpoint guestRetry {A} (once : VM A) (turns : list (option GoError)) (lastErr : option GoError) : VM A :=
  match turns with
  | [] => fail (default (plainErr "timed out waiting for guest runner") lastErr)
  | canceled :: rest =>
      response ← try once;
      match response with
      | Ok response => mret response
      | Err e => match canceled with
                 | Some e => fail e
                 | None => guestRetry once rest (Some e)
                 end
      end
  end.

Definition guestRequest (socketPath : string) (port : Z) (request : GuestRequest) : VM GuestResponse :=
  turns ← interact vm_Turns;
  guestRetry (guestRequestOnce socketPath port request) turns None.

Definition guestStreamRequest (socketPath : string) (port : Z) (request : GuestRequest) (sink : Sink) :
    VM GuestStreamFrame :=
  turns ← interact vm_Turns;
  guestRetry (guestStreamRequestOnce socketPath port request sink) turns None.

Definition pingGuest (socketPath : string) (port : Z) : VM unit :=
  response ← guestRequest socketPath port (mkGuestRequest GuestActionPing true None None);
  if negb (default false (gs_Ping response)) then fail (plainErr "guest did not report ready state")
  else if negb (bool_decide (gs_Error response = "")) then fail (plainErr (gs_Error response))
  else mret tt.

Definition prepareGuest (socketPath : string) (port : Z) (request : GuestPrepareRequest) : VM GuestPrepareResponse :=
  response ← guestRequest socketPath port (mkGuestRequest GuestActionPrepare false (Some request) None);
  match gs_Prepare response with
  | Some prepare =>
      if negb (bool_decide (gs_Error response = "")) then fail (plainErr (gs_Error response))
      else if gpr_Prepared prepare then mret prepare
      else fail (plainErr "guest did not confirm prepared state")
  | None =>
      if negb (bool_decide (gs_Error response = "")) then fail (plainErr (gs_Error response))
      else fail (plainErr "guest did not confirm prepared state")
  end.

(** The response with the error; a missing invocation is a nil response without
    an error. *)
Definition invokeGuest (socketPath : string) (port : Z) (request : GuestInvocationRequest) :
    VM (option GuestInvocationResponse * option GoError) :=
  response ← try (guestRequest socketPath port (mkGuestRequest GuestActionExecute false None (Some request)));
  match response with
  | Ok response => mret (gs_Invocation response, None)
  | Err e => mret (None, Some e)
  end.

Definition invokeGuestStream (socketPath : string) (port : Z) (request : GuestInvocationRequest) (sink : Sink) :
    VM (option GuestInvocationResponse * option GoError) :=
  response ← try (guestStreamRequest socketPath port (mkGuestRequest GuestActionExecute false None (Some request)) sink);
  match response with
  | Ok frame => mret (gf_Invocation frame, None)
  | Err e => mret (None, Some e)
  end.

End Host.
