(* ===== verification/Snapshot.v ===== *)
(** * Snapshot: executions and snapshots of virtual machines

    Models [internal/firecracker/microvm/snapshot.go] and the exported methods of
    [Driver] in [driver.go]: booting and restoring instances, running one
    invocation in one, creating snapshot assets below the snapshot directory, and
    what the driver reports as warm.

    Closures returned for later cleanup are data ([Cleanup]), run by
    [runCleanup].  The trace of an execution has one line per step; a failed boot
    drops it.  The preparation of snapshots runs under [snapshotMu], so no two
    preparations overlap; executions do not take that mutex. *)

From Stdlib Require Import Ascii.
From stdpp Require Import base decidable tactics numbers list gmap strings pretty.
From S2P Require Import Prelude Text Domain MemStore World Scheduler Artifacts Files NetworkPool NodeAgent GuestProto.
From S2P Require Import MicroVM.

(** ** Data *)

(** [firecracker.ExecuteRequest] with its streaming fields. *)
Record VmRequest := mkVmRequest {
  vr_req :> ExecuteRequest;
  vr_StreamKind : string;
  vr_HTTPStream : Sink;
}.

Record snapshotAsset := mkSnapshotAsset {
  sa_dir : string;
  sa_statePath : string;
  sa_memoryPath : string;
  sa_rootFSPath : string;
  sa_metadataPath : string;
}.

Record snapshotMetadata := mkSnapshotMetadata {
  sm_Kind : string;
  sm_FunctionID : string;
  sm_Entrypoint : string;
  sm_NetworkPolicy : string;
  sm_TapDevice : string;
  sm_MemoryMB : Z;
  sm_WorkerPrepared : bool;
  sm_CreatedAt : Time;
}.

Record vmInstance := mkVmInstance { vi_layout : vmLayout; vi_pid : nat }.

(** The closure of [cleanupFunc], and the lease released after it. *)
Record Cleanup := mkCleanup { cl_instance : vmInstance; cl_lease : option nat }.

(** The three results of [ExecuteDeferred]. *)
Record Deferred := mkDeferred {
  df_result : option ExecuteResult;
  df_cleanup : option Cleanup;
  df_err : option GoError;
}.

(** The JSON of the metadata file. *)
Class MetaJson := {
  json_MarshalMeta : snapshotMetadata → result string;
  json_UnmarshalMeta : string → result snapshotMetadata;
}.

(** ** Where snapshots are *)

Definition assetAt (dir : string) : snapshotAsset :=
  mkSnapshotAsset dir (JoinPath dir "snapshot.state") (JoinPath dir "snapshot.mem") (JoinPath dir "rootfs.ext4")
    (JoinPath dir "metadata.json").

Definition blankSnapshotAsset (d : VmDriver) : snapshotAsset :=
  assetAt (JoinPath (cf_SnapshotDir (dv_config d)) "blank").

Definition networkBlankSnapshotAsset (d : VmDriver) (network : networkConfig) : snapshotAsset :=
  assetAt (JoinPath (JoinPath (cf_SnapshotDir (dv_config d)) "blank-full") (sanitizeID (nc_TapDevice network))).

Definition functionSnapshotPath (d : VmDriver) (functionID : string) : snapshotAsset :=
  assetAt (JoinPath (JoinPath (cf_SnapshotDir (dv_config d)) "functions") (sanitizeID functionID)).

Definition networkFunctionSnapshotAsset (d : VmDriver) (functionID : string) (network : networkConfig) : snapshotAsset :=
  assetAt (JoinPath (JoinPath (JoinPath (cf_SnapshotDir (dv_config d)) "functions-full") (sanitizeID functionID))
             (sanitizeID (nc_TapDevice network))).

(** ** Traces *)

Definition stepLine `{!VmEnv} (step : string) : string :=
  "[platform] step=" +:+ step +:+ " durationMs=" +:+ itoa (Z.max 0 (Milliseconds (vm_Since step))).

Definition noteLine (detail : string) : string := "[platform] step=execution_path durationMs=0 " +:+ detail.

Definition traceOf `{!VmEnv} (note : string) (steps : list string) : string :=
  TrimSpace (Join (noteLine note :: (stepLine <$> steps)) newlineText).

Definition bootSteps (network : bool) : list string :=
  ["prepare_layout"; "stage_kernel"; "stage_rootfs"; "prepare_ownership"; "start_firecracker"; "wait_api_socket";
   "configure_machine"; "configure_boot_source"; "configure_rootfs_drive"] ++
  (if network then ["configure_network"] else []) ++ ["configure_vsock"; "instance_start"].

Definition restoreSteps : list string :=
  ["prepare_layout"; "stage_snapshot_state"; "stage_snapshot_memory"; "stage_snapshot_rootfs"; "prepare_ownership";
   "start_firecracker"; "wait_api_socket"; "load_snapshot"; "resume_snapshot"].

Section Driver.
Context `{!VmEnv, !MetaJson} (d : VmDriver).

(** ** Leases *)

Definition poolAcquire (f : list (networkPool → networkPool) → networkPool → result networkLease * networkPool) :
    VM nat := λ s,
  let s' := s <| vm_step := S (vm_step s) |> in
  match vm_pool s with
  | None => (Err noPool, s')
  | Some pool =>
      match f (vm_Waits (vm_step s)) pool with
      | (Ok lease, pool') =>
          (Ok (length (vm_leases s)), s' <| vm_pool := Some pool' |> <| vm_leases := vm_leases s ++ [lease] |>)
      | (Err e, pool') => (Err e, s' <| vm_pool := Some pool' |>)
      end
  end.

(** [lease.Release]; a lease is taken from a pool, so there is one. *)
Definition leaseRelease (i : nat) : VM unit := λ s,
  match vm_leases s !! i with
  | None => (Ok tt, s)
  | Some lease =>
      (Ok tt, s <| vm_pool := (λ pool, (Release lease pool).2) <$> vm_pool s |>
                <| vm_leases := <[i := mkNetworkLease (nl_cfg lease) true]> (vm_leases s) |>)
  end.

Definition leaseCfg (i : nat) : VM networkConfig :=
  gets (λ s, match vm_leases s !! i with Some lease => nl_cfg lease | None => zeroNetworkConfig end).

(** ** Assets *)

Fixpoint allExist (paths : list string) : VM bool :=
  match paths with
  | [] => mret true
  | path :: rest =>
      found ← try (osStat path);
      match found with Ok _ => allExist rest | Err _ => mret false end
  end.

Definition complete (a : snapshotAsset) : VM bool :=
  allExist [sa_statePath a; sa_memoryPath a; sa_rootFSPath a; sa_metadataPath a].

Definition metadata (a : snapshotAsset) : VM snapshotMetadata :=
  raw ← os (λ t, (ReadFile (comps (sa_metadataPath a)) t, t));
  lift (json_UnmarshalMeta raw).

(** An asset that is complete and whose metadata is accepted. *)
Definition checkedAsset (a : snapshotAsset) (accept : snapshotMetadata → bool) : VM (option snapshotAsset) :=
  ok ← complete a;
  if negb ok then mret None
  else
    meta ← try (metadata a);
    match meta with
    | Err _ => mret None
    | Ok meta => mret (if accept meta then Some a else None)
    end.

Definition memoryFits (meta : snapshotMetadata) (req : ExecuteRequest) : bool :=
  negb ((0 <? sm_MemoryMB meta)%Z && (0 <? xr_MemoryMB req)%Z && negb (sm_MemoryMB meta =? xr_MemoryMB req)%Z).

Definition functionSnapshotAsset (functionID : string) : VM (option snapshotAsset) :=
  let asset := functionSnapshotPath d functionID in
  ok ← complete asset;
  mret (if ok : bool then Some asset else None).

Definition blankSnapshotAssetForRequest (req : ExecuteRequest) : VM (option snapshotAsset) :=
  checkedAsset (blankSnapshotAsset d) (λ meta,
    bool_decide (sm_Kind meta = "blank") &&
    EqualFold (sm_NetworkPolicy meta) "none" && EqualFold (xr_NetworkPolicy req) "none" &&
    memoryFits meta req).

Definition networkBlankSnapshotAssetForRequest (req : ExecuteRequest) (network : networkConfig) :
    VM (option snapshotAsset) :=
  if negb (isFullNetworkPolicy (xr_NetworkPolicy req)) then mret None
  else checkedAsset (networkBlankSnapshotAsset d network) (λ meta,
    bool_decide (sm_Kind meta = "blank") && isFullNetworkPolicy (sm_NetworkPolicy meta) &&
    bool_decide (TrimSpace (sm_TapDevice meta) = TrimSpace (nc_TapDevice network)) &&
    memoryFits meta req).

Definition networkFunctionSnapshotAssetForRequest (req : ExecuteRequest) (network : networkConfig) :
    VM (option snapshotAsset) :=
  if negb (isFullNetworkPolicy (xr_NetworkPolicy req)) then mret None
  else checkedAsset (networkFunctionSnapshotAsset d (xr_FunctionID req) network) (λ meta,
    bool_decide (sm_Kind meta = "function") && isFullNetworkPolicy (sm_NetworkPolicy meta) &&
    bool_decide (TrimSpace (sm_FunctionID meta) = TrimSpace (xr_FunctionID req)) &&
    bool_decide (TrimSpace (sm_TapDevice meta) = TrimSpace (nc_TapDevice network)) &&
    memoryFits meta req).

(** ** Instances *)

Definition chown (path : string) : VM unit := λ s,
  let s' := s <| vm_step := S (vm_step s) |> in
  if vm_ChownDenied (vm_step s) then (Ok tt, s')
  else match vm_Fault (vm_step s), Stat (comps path) (vm_tree s) with
       | Some e, _ => (Err e, s')
       | None, Err e => (Err e, s')
       | None, Ok _ =>
           (Ok tt, s' <| vm_owners := <[comps path := (cf_JailerUID (dv_config d), cf_JailerGID (dv_config d))]>
                                        (vm_owners s) |>)
       end.

Definition prepareOwnership (layout : vmLayout) (paths : list string) : VM unit :=
  if negb (cf_UseJailer (dv_config d)) then mret tt
  else for_each (vl_rootDir layout :: paths) chown.

(** A step that removes the layout when it fails. *)
Definition staged {A} (layout : vmLayout) (m : VM A) : VM A :=
  r ← try m;
  match r with
  | Ok a => mret a
  | Err e => layoutCleanup layout ≫= λ _, fail e
  end.

(** A step that removes the layout and closes the process when it fails. *)
Definition started {A} (layout : vmLayout) (pid : nat) (m : VM A) : VM A :=
  r ← try m;
  match r with
  | Ok a => mret a
  | Err e => layoutCleanup layout ≫= λ _, close pid ≫= λ _, fail e
  end.

(** The same with the logs of the process in the error. *)
Definition reported {A} (layout : vmLayout) (pid : nat) (what : string) (m : VM A) : VM A :=
  r ← try m;
  match r with
  | Ok a => mret a
  | Err e =>
      layoutCleanup layout ≫= λ _, close pid ≫= λ _,
      logs ← procLogs pid;
      fail (wrapText (what +:+ ": ") e ("; logs: " +:+ logs))
  end.

(** Starting the process in a layout, until its API socket is there. *)
Definition launch (layout : vmLayout) (vmID : string) : VM nat :=
  pid ← staged layout (startVM d vmID layout);
  reported layout pid "wait for firecracker api socket" (waitForFile (vl_apiSocketHost layout) pid) ≫= λ _,
  mret pid.

(** Configuring and starting the machine of a process. *)
Definition configure (layout : vmLayout) (pid : nat) (req : ExecuteRequest) (network : option networkConfig) : VM unit :=
  guestCID ← allocCID d;
  args ← started layout pid (lift (bootArgs d req network));
  reported layout pid "configure machine"
    (put pid "/machine-config" (BMachineConfig (cf_VCPUCount (dv_config d)) (xr_MemoryMB req) false)) ≫= λ _,
  reported layout pid "configure boot source"
    (put pid "/boot-source" (BBootSource (vl_guestKernelPath layout) args)) ≫= λ _,
  reported layout pid "configure rootfs"
    (put pid "/drives/rootfs" (BDrive "rootfs" (vl_guestRootFSPath layout) true false)) ≫= λ _,
  (if isFullNetworkPolicy (xr_NetworkPolicy req) then
     match network with
     | None => started layout pid (fail (plainErr "networkPolicy=full requires a leased tap device"))
     | Some network =>
         reported layout pid "configure network interface"
           (put pid "/network-interfaces/eth0" (BNetworkInterface "eth0" (nc_TapDevice network) (nc_GuestMAC network)))
     end
   else mret tt) ≫= λ _,
  reported layout pid "configure vsock"
    (put pid "/vsock" (BVsock "vsock0" guestCID (vl_guestVSockPath layout))) ≫= λ _,
  reported layout pid "start vm" (put pid "/actions" (BAction "InstanceStart")).

Definition bootInstance (req : ExecuteRequest) (network : option networkConfig) : VM vmInstance :=
  '(layout, vmID) ← prepareLayout d (xr_AttemptID req);
  staged layout (stageKernel (vl_kernelPath layout) (cf_KernelImagePath (dv_config d))) ≫= λ _,
  staged layout (copyFile (cf_RootFSPath (dv_config d)) (vl_rootFSPath layout)) ≫= λ _,
  staged layout (prepareOwnership layout [vl_kernelPath layout; vl_rootFSPath layout]) ≫= λ _,
  pid ← launch layout vmID;
  configure layout pid req network ≫= λ _,
  mret (mkVmInstance layout pid).

Definition restoreInstance (req : ExecuteRequest) (asset : snapshotAsset) : VM vmInstance :=
  '(layout, vmID) ← prepareLayout d (xr_AttemptID req);
  let instanceStatePath := JoinPath (vl_rootDir layout) "snapshot.state" in
  let instanceMemoryPath := JoinPath (vl_rootDir layout) "snapshot.mem" in
  staged layout (copyFile (sa_statePath asset) instanceStatePath) ≫= λ _,
  staged layout (copyFile (sa_memoryPath asset) instanceMemoryPath) ≫= λ _,
  staged layout (copyFile (sa_rootFSPath asset) (vl_rootFSPath layout)) ≫= λ _,
  staged layout (prepareOwnership layout [instanceStatePath; instanceMemoryPath; vl_rootFSPath layout]) ≫= λ _,
  pid ← launch layout vmID;
  reported layout pid "load snapshot"
    (put pid "/snapshot/load" (BSnapshotLoad "snapshot.state" (Some ("snapshot.mem", "File")) false false)) ≫= λ _,
  reported layout pid "resume snapshot vm" (patch pid "/vm" (BVmState "Resumed")) ≫= λ _,
  mret (mkVmInstance layout pid).

(** [cleanup] and [cleanupWithTimeout] *)
Definition cleanupInstance (v : vmInstance) : VM unit :=
  cleaned ← gets (λ s, match vm_procs s !! vi_pid v with Some p => vp_cleaned p | None => false end);
  if cleaned : bool then mret tt
  else
    onProc (vi_pid v) (λ p, p <| vp_cleaned := true |>) ≫= λ _,
    terminate (vi_pid v) ≫= λ _,
    layoutCleanup (vi_layout v).

(** ** Executions *)

Definition guestInvocationRequest (req : VmRequest) (usePreparedRoot : bool) : GuestInvocationRequest :=
  mkGuestInvocationRequest (xr_AttemptID req) (xr_JobID req) (xr_FunctionID req) (xr_Entrypoint req)
    (if usePreparedRoot then "" else xr_ArtifactBundle req) usePreparedRoot (xr_Payload req)
    (default ∅ (xr_Env req)) (Milliseconds (xr_Timeout req)) (xr_Region req) (xr_HostID req)
    (xr_EnableStreaming req) (vr_StreamKind req).

Definition runInvocation (instance : vmInstance) (req : VmRequest) (usePreparedRoot : bool) :
    VM (option ExecuteResult * option GoError) :=
  let socket := vl_vsockSocketHost (vi_layout instance) in
  let port := cf_GuestVSockPort (dv_config d) in
  let guestReq := guestInvocationRequest req usePreparedRoot in
  '(response, err) ←
    (if xr_EnableStreaming req && bool_decide (vr_StreamKind req = StreamKindHTTP) && bool_decide (is_Some (vr_HTTPStream req))
     then invokeGuestStream socket port guestReq (vr_HTTPStream req)
     else invokeGuest socket port guestReq);
  match response with
  | None =>
      logs ← procLogs (vi_pid instance);
      let post := "; firecracker logs: " +:+ logs in
      mret (None, Some (match err with
                        | Some e => wrapText "guest execution failed: " e post
                        | None => plainErr ("guest execution failed: %!w(<nil>)" +:+ post)
                        end))
  | Some response =>
      let failed err :=
        logs ← procLogs (vi_pid instance);
        mret (Some (mkExecuteResult (gir_ExitCode response) (combineLogs (gir_Logs response) logs)
                      (gir_Output response) ""), Some err) in
      match err with
      | Some e => failed e
      | None =>
          if negb (bool_decide (gir_Error response = "")) then failed (plainErr (gir_Error response))
          else mret (Some (mkExecuteResult (gir_ExitCode response) (gir_Logs response) (gir_Output response) ""), None)
      end
  end.

Definition combineExecutionTrace (outerTrace : string) (result : option ExecuteResult) : option ExecuteResult :=
  (λ r, mkExecuteResult (xs_ExitCode r) (xs_Logs r) (xs_Output r) (Combine outerTrace (xs_PlatformTrace r))) <$> result.

Definition finish (instance : vmInstance) (req : VmRequest) (usePreparedRoot : bool) (trace : string) : VM Deferred :=
  '(result, invokeErr) ← runInvocation instance req usePreparedRoot;
  mret (mkDeferred (combineExecutionTrace trace result) (Some (mkCleanup instance None)) invokeErr).

Definition executeColdDeferred (req : VmRequest) (note : string) (network : option networkConfig) : VM Deferred :=
  booted ← try (bootInstance req network);
  match booted with
  | Err e => mret (mkDeferred None None (Some e))
  | Ok instance =>
      finish instance req false
        (traceOf note (bootSteps (isFullNetworkPolicy (xr_NetworkPolicy req)) ++ ["invoke_guest"]))
  end.

Definition executeFromSnapshotDeferred (req : VmRequest) (asset : snapshotAsset) (usePreparedRoot : bool)
    (note : string) : VM Deferred :=
  restored ← try (restoreInstance req asset);
  match restored with
  | Err e => mret (mkDeferred None None (Some e))
  | Ok instance => finish instance req usePreparedRoot (traceOf note (restoreSteps ++ ["invoke_guest"]))
  end.

(** The lease goes with the cleanup, or at once when there is none. *)
Definition withLease (lease : nat) (r : Deferred) : VM Deferred :=
  match df_cleanup r with
  | None => leaseRelease lease ≫= λ _, mret r
  | Some c => mret (mkDeferred (df_result r) (Some (mkCleanup (cl_instance c) (Some lease))) (df_err r))
  end.

Definition validateHost : VM unit :=
  if negb (bool_decide (vm_GOOS = "linux")) then fail (plainErr "firecracker driver requires linux hosts")
  else
    found ← try (osStat "/dev/kvm");
    match found with
    | Ok _ => mret tt
    | Err e => fail (wrapText "firecracker driver requires /dev/kvm: " e "")
    end.

Definition withMemory (req : VmRequest) (memory : Z) : VmRequest :=
  mkVmRequest
    (mkExecuteRequest (xr_AttemptID req) (xr_JobID req) (xr_FunctionID req) (xr_Entrypoint req) (xr_ArtifactBundle req)
       (xr_Payload req) (xr_Env req) (xr_Timeout req) memory (xr_NetworkPolicy req) (xr_Region req) (xr_HostID req)
       (xr_EnableStreaming req)) (vr_StreamKind req) (vr_HTTPStream req).

(** An execution with the full network, by the best asset there is. *)
Definition startNetworked (req : VmRequest) (cfg : networkConfig) : VM Deferred :=
  functionAsset ← networkFunctionSnapshotAssetForRequest req cfg;
  match functionAsset with
  | Some asset => executeFromSnapshotDeferred req asset true "startMode=network-function-warm"
  | None =>
      blankAsset ← networkBlankSnapshotAssetForRequest req cfg;
      match blankAsset with
      | Some asset => executeFromSnapshotDeferred req asset false "startMode=network-blank-warm"
      | None => executeColdDeferred req "startMode=network-cold" (Some cfg)
      end
  end.

Definition executeNetworked (req : VmRequest) : VM Deferred :=
  acquired ← try (poolAcquire acquire);
  match acquired with
  | Err e => mret (mkDeferred None None (Some e))
  | Ok lease =>
      cfg ← leaseCfg lease;
      r ← startNetworked req cfg;
      withLease lease r
  end.

Definition ExecuteDeferred (req : VmRequest) : VM Deferred :=
  valid ← try validateHost;
  match valid with
  | Err e => mret (mkDeferred None None (Some e))
  | Ok _ =>
      let req := if (xr_MemoryMB req <=? 0)%Z then withMemory req (cf_DefaultMemoryMB (dv_config d)) else req in
      if isFullNetworkPolicy (xr_NetworkPolicy req) then executeNetworked req
      else
        functionAsset ← functionSnapshotAsset (xr_FunctionID req);
        match functionAsset with
        | Some asset => executeFromSnapshotDeferred req asset true "startMode=function-warm"
        | None =>
            blankAsset ← blankSnapshotAssetForRequest req;
            match blankAsset with
            | Some asset => executeFromSnapshotDeferred req asset false "startMode=blank-warm"
            | None => executeColdDeferred req "startMode=cold" None
            end
        end
  end.

(** The cleanup closure, with the line it adds to the trace of the result. *)
Definition runCleanup (c : Cleanup) (result : option ExecuteResult) : VM (option ExecuteResult) :=
  cleanupInstance (cl_instance c) ≫= λ _,
  (match cl_lease c with Some lease => leaseRelease lease | None => mret tt end) ≫= λ _,
  mret ((λ r, mkExecuteResult (xs_ExitCode r) (xs_Logs r) (xs_Output r)
                (Combine (xs_PlatformTrace r) (TrimSpace (stepLine "cleanup_vm")))) <$> result).

(** A deferred execution followed by its cleanup, if there is one. *)
Definition andCleanup (m : VM Deferred) : VM (option ExecuteResult * option GoError) :=
  r ← m;
  match df_cleanup r with
  | Some c => result ← runCleanup c (df_result r); mret (result, df_err r)
  | None => mret (df_result r, df_err r)
  end.

Definition Execute (req : VmRequest) : VM (option ExecuteResult * option GoError) := andCleanup (ExecuteDeferred req).

Definition executeCold (req : VmRequest) (note : string) : VM (option ExecuteResult * option GoError) :=
  andCleanup (executeColdDeferred req note None).

Definition executeFromSnapshot (req : VmRequest) (asset : snapshotAsset) (usePreparedRoot : bool) (note : string) :
    VM (option ExecuteResult * option GoError) :=
  andCleanup (executeFromSnapshotDeferred req asset usePreparedRoot note).

(** ** Creating snapshots *)

(** [defer] of an action whose error is dropped. *)
Definition finally {A B} (m : VM A) (after : VM B) : VM A :=
  r ← try m;
  try after ≫= λ _, lift r.

(** What is written into the temporary directory, until the process is stopped. *)
Definition fillSnapshot (instance : vmInstance) (tempDir : string) (meta : snapshotMetadata) : VM unit :=
  let root := vl_rootDir (vi_layout instance) in
  patch (vi_pid instance) "/vm" (BVmState "Paused") ≫= λ _,
  put (vi_pid instance) "/snapshot/create" (BSnapshotCreate "Full" "snapshot.state" "snapshot.mem") ≫= λ _,
  copyFile (JoinPath root "snapshot.state") (JoinPath tempDir "snapshot.state") ≫= λ _,
  copyFile (JoinPath root "snapshot.mem") (JoinPath tempDir "snapshot.mem") ≫= λ _,
  copyFile (vl_rootFSPath (vi_layout instance)) (JoinPath tempDir "rootfs.ext4") ≫= λ _,
  raw ← lift (json_MarshalMeta meta);
  q ← os (OpenFile (comps (JoinPath tempDir "metadata.json")));
  writeCopy q raw ≫= λ _,
  onProc (vi_pid instance) kill ≫= λ _,
  wait (vi_pid instance) ≫= λ _, mret tt.

(** [filepath.Dir] and [filepath.Base] of an absolute path. *)
Definition dirOf (path : string) : string := "/" +:+ Join (parent (comps path)) "/".
Definition baseOf (path : string) : string := default "/" (last (comps path)).

Definition createSnapshotAsset (instance : vmInstance) (asset : snapshotAsset) (meta : snapshotMetadata) : VM unit :=
  os (MkdirAll (parent (comps (sa_dir asset)))) ≫= λ _,
  tempDir ← MkdirTemp (dirOf (sa_dir asset)) (baseOf (sa_dir asset) +:+ "-tmp-");
  finally
    (fillSnapshot instance tempDir meta ≫= λ _,
     try (osRemoveAll (comps (sa_dir asset))) ≫= λ _,
     os (Rename (comps tempDir) (comps (sa_dir asset))))
    (osRemoveAll (comps tempDir)).

Definition now : VM Time := λ s, (Ok (vm_UnixNano (vm_step s)), s).

(** The request with which a machine for a blank snapshot is booted. *)
Definition blankRequest (id policy : string) : ExecuteRequest :=
  mkExecuteRequest id "" id "" "" "" None (cf_PrepareTimeout (dv_config d)) (cf_DefaultMemoryMB (dv_config d)) policy
    "" "" false.

(** Pinging the guest of a new machine and taking its snapshot. *)
Definition snapshotBlank (instance : vmInstance) (asset : snapshotAsset) (what policy tap : string) : VM unit :=
  pinged ← try (pingGuest (vl_vsockSocketHost (vi_layout instance)) (cf_GuestVSockPort (dv_config d)));
  match pinged with
  | Err e =>
      logs ← procLogs (vi_pid instance);
      fail (wrapText (what +:+ ": ") e ("; firecracker logs: " +:+ logs))
  | Ok _ =>
      t ← now;
      createSnapshotAsset instance asset
        (mkSnapshotMetadata "blank" "" "" policy tap (cf_DefaultMemoryMB (dv_config d)) false t)
  end.

(** An action while a lease is held. *)
Definition leasing {A} (tapDevice : string) (body : VM A) : VM A :=
  lease ← poolAcquire (λ others, acquireSpecific others tapDevice);
  finally body (leaseRelease lease).

Definition ensureNetworkBlankSnapshotLocked (network : networkConfig) : VM unit :=
  let asset := networkBlankSnapshotAsset d network in
  ok ← complete asset;
  if ok : bool then mret tt
  else leasing (nc_TapDevice network)
    (instance ← bootInstance (blankRequest ("blank-snapshot-" +:+ sanitizeID (nc_TapDevice network)) "full") (Some network);
     finally
       (snapshotBlank instance asset
          ("ping guest for full-network blank snapshot on " +:+ nc_TapDevice network) "full" (nc_TapDevice network))
       (cleanupInstance instance)).

Definition ensureNetworkBlankSnapshotsLocked : VM unit := for_each (dv_networks d) ensureNetworkBlankSnapshotLocked.

(** A machine that is booted here is cleaned up when the function returns, after
    the other blank snapshots. *)
Definition ensureBlankSnapshotLocked : VM unit :=
  let asset := blankSnapshotAsset d in
  ok ← complete asset;
  if ok : bool then ensureNetworkBlankSnapshotsLocked
  else
    instance ← bootInstance (blankRequest "blank-snapshot" "none") None;
    finally
      (snapshotBlank instance asset "ping guest for blank snapshot" "none" "" ≫= λ _,
       ensureNetworkBlankSnapshotsLocked)
      (cleanupInstance instance).

(** Preparing a function in a machine and taking its snapshot. *)
Definition snapshotFunction (instance : vmInstance) (asset : snapshotAsset) (req : ExecuteRequest) (what tap : string) :
    VM unit :=
  finally
    (prepared ← try (prepareGuest (vl_vsockSocketHost (vi_layout instance)) (cf_GuestVSockPort (dv_config d))
                       (mkGuestPrepareRequest (xr_FunctionID req) (xr_Entrypoint req) (xr_ArtifactBundle req)
                          (default ∅ (xr_Env req))));
     match prepared with
     | Err e =>
         logs ← procLogs (vi_pid instance);
         fail (wrapText (what +:+ ": ") e ("; firecracker logs: " +:+ logs))
     | Ok resp =>
         t ← now;
         createSnapshotAsset instance asset
           (mkSnapshotMetadata "function" (xr_FunctionID req) (xr_Entrypoint req) (xr_NetworkPolicy req) tap
              (xr_MemoryMB req) (gpr_WorkerPrepared resp) t)
     end)
    (cleanupInstance instance).

(** A machine restored from an asset; without one, or when it cannot be
    restored, there is none. *)
Definition restoreIf (req : ExecuteRequest) (asset : option snapshotAsset) : VM (option vmInstance) :=
  match asset with
  | None => mret None
  | Some asset =>
      restored ← try (restoreInstance req asset);
      mret (match restored with Ok instance => Some instance | Err _ => None end)
  end.

(** The machine is restored before the lease is taken. *)
Definition ensureNetworkFunctionSnapshotLocked (req : ExecuteRequest) (network : networkConfig) : VM unit :=
  let asset := networkFunctionSnapshotAsset d (xr_FunctionID req) network in
  ok ← complete asset;
  if ok : bool then mret tt
  else
    blank ← try (ensureNetworkBlankSnapshotLocked network);
    restored ←
      match blank with
      | Err _ => mret None
      | Ok _ => networkBlankSnapshotAssetForRequest req network ≫= restoreIf req
      end;
    leasing (nc_TapDevice network)
      (instance ← match restored with
                  | Some instance => mret instance
                  | None => bootInstance req (Some network)
                  end;
       snapshotFunction instance asset req
         ("prepare full-network function snapshot for " +:+ xr_FunctionID req +:+ " on " +:+ nc_TapDevice network)
         (nc_TapDevice network)).

Definition ensureNetworkFunctionSnapshotsLocked (req : ExecuteRequest) : VM unit :=
  if negb (isFullNetworkPolicy (xr_NetworkPolicy req)) then mret tt
  else for_each (dv_networks d) (ensureNetworkFunctionSnapshotLocked req).

Definition ensureFunctionSnapshotLocked (req : ExecuteRequest) : VM unit :=
  if isFullNetworkPolicy (xr_NetworkPolicy req) then ensureNetworkFunctionSnapshotsLocked req
  else
    let asset := functionSnapshotPath d (xr_FunctionID req) in
    ok ← complete asset;
    if ok : bool then mret tt
    else
      restored ←
        (if EqualFold (xr_NetworkPolicy req) "none" then
           blank ← try ensureBlankSnapshotLocked;
           match blank with
           | Err _ => mret None
           | Ok _ => blankSnapshotAssetForRequest req ≫= restoreIf req
           end
         else mret None);
      instance ← match restored with
                 | Some instance => mret instance
                 | None => bootInstance req None
                 end;
      snapshotFunction instance asset req ("prepare function snapshot for " +:+ xr_FunctionID req) "".

Definition EnsureBlankWarm : VM unit := ensureBlankSnapshotLocked.

Definition PrepareFunctionWarm (req : ExecuteRequest) : VM unit := ensureFunctionSnapshotLocked req.

(** ** Inventory *)

Definition blankWarmInventory : VM Z :=
  asset ← blankSnapshotAssetForRequest (blankRequest "" "none");
  mret (match asset with Some _ => 1 | None => 0 end)%Z.

(** The names of the directories in a directory. *)
Definition readDirs (path : string) : VM (list string) :=
  os (λ t, match find_node t true (comps path) with
           | Found p =>
               if isDir t p then
                 (Ok (SliceStable string_ltb
                        (omap (λ k, if bool_decide (parent k = p ∧ k ≠ []) then last k else None) (elements (tr_dirs t)))), t)
               else (Err (pathErr "open" (comps path) ENOTDIR), t)
           | Vacant _ => (Err (pathErr "open" (comps path) ENOENT), t)
           | Unreachable e => (Err (pathErr "open" (comps path) e), t)
           end).

Definition record (out : gmap string Z) (a : snapshotAsset) : VM (gmap string Z) :=
  ok ← complete a;
  if negb ok then mret out
  else
    meta ← try (metadata a);
    match meta with
    | Err _ => mret out
    | Ok meta =>
        if negb (bool_decide (sm_Kind meta = "function")) || blank (sm_FunctionID meta) then mret out
        else mret (<[sm_FunctionID meta := (map_get0 out (sm_FunctionID meta) + 1)%Z]> out)
    end.

Fixpoint recordAll (root : string) (names : list string) (out : gmap string Z) : VM (gmap string Z) :=
  match names with
  | [] => mret out
  | name :: rest => record out (assetAt (JoinPath root name)) ≫= recordAll root rest
  end.

Definition recordDir (root : string) (out : gmap string Z) : VM (gmap string Z) :=
  names ← try (readDirs root);
  match names with Ok names => recordAll root names out | Err _ => mret out end.

Fixpoint recordDirs (root : string) (names : list string) (out : gmap string Z) : VM (gmap string Z) :=
  match names with
  | [] => mret out
  | name :: rest => recordDir (JoinPath root name) out ≫= recordDirs root rest
  end.

Definition functionWarmInventory : VM (gmap string Z) :=
  out ← recordDir (JoinPath (cf_SnapshotDir (dv_config d)) "functions") ∅;
  let perTapRoot := JoinPath (cf_SnapshotDir (dv_config d)) "functions-full" in
  names ← try (readDirs perTapRoot);
  match names with Ok names => recordDirs perTapRoot names out | Err _ => mret out end.

Definition VmWarmInventory : VM WarmInventory :=
  functionWarm ← functionWarmInventory;
  blankWarm ← blankWarmInventory;
  mret (mkWarmInventory blankWarm functionWarm).

Definition slotInventory (freeSlots : Z) (base : WarmInventory) : WarmInventory :=
  if (freeSlots <=? 0)%Z then mkWarmInventory 0 ((λ _, 0%Z) <$> wi_FunctionWarm base)
  else mkWarmInventory (if (0 <? wi_BlankWarm base)%Z then freeSlots else wi_BlankWarm base)
         ((λ count, if (0 <? count)%Z then freeSlots else count) <$> wi_FunctionWarm base).

Definition WarmInventoryForSlots (freeSlots : Z) : VM WarmInventory :=
  base ← VmWarmInventory; mret (slotInventory freeSlots base).

End Driver.
