(* ===== verification/SnapshotFacts.v ===== *)
(** * SnapshotFacts: what the micro-VM driver holds and what it sends

    Theorems about [MicroVM] and [Snapshot]: an execution gives back its process,
    its lease and its directory on every path; in which order a machine is
    configured; a networked machine is used only under its lease; guest
    identifiers; how often a guest is asked. *)

From Stdlib Require Import Ascii.
From stdpp Require Import base decidable tactics numbers list gmap strings pretty.
From S2P Require Import Prelude Text Domain MemStore World Scheduler Artifacts Files NetworkPool NodeAgent GuestProto.
From S2P Require Import MicroVM Snapshot.

(** ** Triples

    From a state with [P] the method returns with [Q] or fails with [E]. *)

Definition ends {A} (P : VmState → Prop) (m : VM A) (Q : A → VmState → Prop) (E : VmState → Prop) : Prop :=
  ∀ s, P s → match m s with (Ok a, s') => Q a s' | (Err _, s') => E s' end.

Section Triples.
Implicit Types P E : VmState → Prop.

Lemma ends_ret {A} P (Q : A → VmState → Prop) E a : (∀ s, P s → Q a s) → ends P (mret a) Q E.
Proof. intros H s Hs. by apply H. Qed.

Lemma ends_fail {A} P (Q : A → VmState → Prop) E e : (∀ s, P s → E s) → ends P (fail e) Q E.
Proof. intros H s Hs. by apply H. Qed.

Lemma ends_lift {A} P (Q : A → VmState → Prop) E (r : result A) :
  (∀ s, P s → match r with Ok a => Q a s | Err _ => E s end) → ends P (lift r) Q E.
Proof. intros H s Hs. specialize (H s Hs). by destruct r. Qed.

Lemma ends_bind {A B} P (Q : A → VmState → Prop) (R : B → VmState → Prop) E (m : VM A) (f : A → VM B) :
  ends P m Q E → (∀ a, ends (Q a) (f a) R E) → ends P (m ≫= f) R E.
Proof.
  intros Hm Hf s Hs. specialize (Hm s Hs). rewrite M_bind_eq.
  destruct (m s) as [[a|e] s']; [by apply Hf|done].
Qed.

Lemma ends_try {A} P (Q : A → VmState → Prop) E F (m : VM A) :
  ends P m Q E → ends P (try m) (λ r s, match r with Ok a => Q a s | Err _ => E s end) F.
Proof. intros Hm s Hs. specialize (Hm s Hs). unfold try. by destruct (m s) as [[a|e] s']. Qed.

Lemma ends_gets {A} P (Q : A → VmState → Prop) E (f : VmState → A) : (∀ s, P s → Q (f s) s) → ends P (gets f) Q E.
Proof. intros H s Hs. by apply H. Qed.

Lemma ends_modify P (Q : unit → VmState → Prop) E (f : VmState → VmState) :
  (∀ s, P s → Q tt (f s)) → ends P (modify f) Q E.
Proof. intros H s Hs. by apply H. Qed.

Lemma ends_conseq {A} P P1 (Q Q1 : A → VmState → Prop) E E1 (m : VM A) :
  ends P1 m Q1 E1 → (∀ s, P s → P1 s) → (∀ a s, Q1 a s → Q a s) → (∀ s, E1 s → E s) → ends P m Q E.
Proof. intros Hm HP HQ HE s Hs. specialize (Hm s (HP s Hs)). destruct (m s) as [[a|e] s']; auto. Qed.

Lemma ends_for_each {A} P (l : list A) (body : A → VM unit) :
  (∀ x, x ∈ l → ends P (body x) (λ _, P) P) → ends P (for_each l body) (λ _, P) P.
Proof.
  induction l as [|x l IH]; intros H; simpl; [by apply ends_ret|].
  eapply ends_bind; [apply H; left|]. intros ?. apply IH. intros y Hy. apply H. by right.
Qed.

Lemma ends_finally {A B} P (Q : A → VmState → Prop) E (R : A → VmState → Prop) F (m : VM A) (after : VM B) :
  ends P m Q E → (∀ a, ends (Q a) after (λ _, R a) (R a)) → ends E after (λ _, F) F →
  ends P (finally m after) R F.
Proof.
  intros Hm Ha He s Hs. specialize (Hm s Hs). unfold finally. rewrite M_bind_eq. unfold try at 1.
  destruct (m s) as [[a|e] s']; rewrite M_bind_eq; unfold try.
  - specialize (Ha a s' Hm). by destruct (after s') as [[b|e'] s''].
  - specialize (He s' Hm). by destruct (after s') as [[b|e'] s''].
Qed.

End Triples.

(** ** Methods that hold nothing *)

(** What must be given back. *)
Definition resources (s : VmState) : list vmProcess * list networkLease * list string * list string :=
  (vm_procs s, vm_leases s, vm_made s, vm_removed s).

(** A method that does not change them. *)
Definition harmless {A} (m : VM A) : Prop := ∀ s, resources (m s).2 = resources s.

Create HintDb harmless.

Section Harmless.
Context `{!VmEnv, !MetaJson}.

Lemma harmless_ret {A} (a : A) : harmless (mret a : VM A).
Proof. done. Qed.

Lemma harmless_fail {A} e : harmless (fail e : VM A).
Proof. done. Qed.

Lemma harmless_lift {A} r : harmless (lift r : VM A).
Proof. done. Qed.

Lemma harmless_gets {A} (f : VmState → A) : harmless (gets f).
Proof. done. Qed.

Lemma harmless_now : harmless now.
Proof. done. Qed.

Lemma harmless_bind {A B} (m : VM A) (f : A → VM B) : harmless m → (∀ a, harmless (f a)) → harmless (m ≫= f).
Proof.
  intros Hm Hf s. rewrite M_bind_eq. specialize (Hm s). destruct (m s) as [[a|e] s']; [|done].
  by rewrite (Hf a s').
Qed.

Lemma harmless_try {A} (m : VM A) : harmless m → harmless (try m).
Proof. intros Hm s. unfold try. specialize (Hm s). by destruct (m s). Qed.

Lemma harmless_interact {A} (f : nat → A) : harmless (interact f).
Proof. done. Qed.

Lemma harmless_os {A} (m : M Tree A) : harmless (os m).
Proof. intros s. unfold os. destruct (vm_Fault _); [done|]. by destruct (m (vm_tree s)). Qed.

Lemma harmless_osRemoveAll p : harmless (osRemoveAll p).
Proof. intros s. unfold osRemoveAll. destruct (vm_Fault _); [done|]. by destruct (RemoveAll p (vm_tree s)). Qed.

Lemma harmless_writeCopy q data : harmless (writeCopy q data).
Proof. intros s. unfold writeCopy. by destruct (vm_Fault _). Qed.

Lemma harmless_chown d path : harmless (chown d path).
Proof. intros s. unfold chown. repeat case_match; done. Qed.

Lemma harmless_allocCID d : harmless (allocCID d).
Proof. done. Qed.

#[local] Hint Resolve harmless_ret harmless_fail harmless_lift harmless_gets harmless_now harmless_bind harmless_try
  harmless_interact harmless_os harmless_osRemoveAll harmless_writeCopy harmless_chown harmless_allocCID : harmless.

Ltac harmless :=
  repeat first
    [ solve [eauto with harmless nocore]
    | apply harmless_bind; [|intros]
    | apply harmless_try
    | progress case_match
    | progress cbn zeta ].

Lemma harmless_for_each {A} (l : list A) body : (∀ x, harmless (body x)) → harmless (for_each l body).
Proof. intros Hb. induction l; simpl; harmless. Qed.

Lemma harmless_MkdirTemp dir prefix : harmless (MkdirTemp dir prefix).
Proof. intros s. unfold MkdirTemp. rewrite M_bind_eq. apply (harmless_os _ s). Qed.

Lemma harmless_osStat path : harmless (osStat path).
Proof. unfold osStat. harmless. Qed.

Lemma harmless_copyFile a b : harmless (copyFile a b).
Proof. unfold copyFile. harmless. Qed.

Lemma harmless_osLink a b : harmless (osLink a b).
Proof. unfold osLink. harmless. Qed.
#[local] Hint Resolve harmless_copyFile harmless_osLink harmless_osStat : harmless.

Lemma harmless_stageKernel a b : harmless (stageKernel a b).
Proof. unfold stageKernel. harmless. Qed.

Lemma harmless_prepareOwnership d layout paths : harmless (prepareOwnership d layout paths).
Proof. unfold prepareOwnership. case_match; [harmless|]. apply harmless_for_each. harmless. Qed.

Lemma harmless_procLogs pid : harmless (procLogs pid).
Proof. unfold procLogs. harmless. Qed.

Lemma harmless_apiRequest pid method path body : harmless (apiRequest pid method path body).
Proof. unfold apiRequest. apply harmless_bind; [done|]. intros _. harmless. Qed.

Lemma harmless_guestSend (x : Exchange) socket port q : harmless (guestSend x socket port q).
Proof. unfold guestSend. repeat case_match; harmless. Qed.
#[local] Hint Resolve harmless_guestSend : harmless.

Lemma harmless_streamFrames sink e frames : harmless (streamFrames sink e frames).
Proof.
  induction frames as [|f frames IH]; simpl; [harmless|]. apply harmless_bind; [harmless|]. intros frame.
  case_match; [|harmless]. apply harmless_bind; [|done]. repeat case_match; harmless.
Qed.

Lemma harmless_guestRetry {A} (once : VM A) turns last : harmless once → harmless (guestRetry once turns last).
Proof. intros Ho. revert last. induction turns as [|t turns IH]; intros last; simpl; harmless. Qed.
#[local] Hint Resolve harmless_streamFrames harmless_guestRetry : harmless.

Lemma harmless_guestRequest socket port q : harmless (guestRequest socket port q).
Proof.
  unfold guestRequest. apply harmless_bind; [done|]. intros. apply harmless_guestRetry. unfold guestRequestOnce. harmless.
Qed.

Lemma harmless_guestStreamRequest socket port q sink : harmless (guestStreamRequest socket port q sink).
Proof.
  unfold guestStreamRequest. apply harmless_bind; [done|]. intros. apply harmless_guestRetry.
  unfold guestStreamRequestOnce. harmless.
Qed.
#[local] Hint Resolve harmless_guestRequest harmless_guestStreamRequest harmless_procLogs : harmless.

Lemma harmless_pingGuest socket port : harmless (pingGuest socket port).
Proof. unfold pingGuest. harmless. Qed.

Lemma harmless_prepareGuest socket port q : harmless (prepareGuest socket port q).
Proof. unfold prepareGuest. harmless. Qed.

Lemma harmless_runInvocation d instance req prepared : harmless (runInvocation d instance req prepared).
Proof.
  unfold runInvocation, invokeGuest, invokeGuestStream. cbn zeta. apply harmless_bind; [case_match; harmless|].
  intros [r e]. harmless.
Qed.

Lemma harmless_complete a : harmless (complete a).
Proof. unfold complete. generalize [sa_statePath a; sa_memoryPath a; sa_rootFSPath a; sa_metadataPath a].
  induction l as [|p l IH]; simpl; harmless. Qed.
#[local] Hint Resolve harmless_complete : harmless.

Lemma harmless_checkedAsset a accept : harmless (checkedAsset a accept).
Proof. unfold checkedAsset, metadata. harmless. Qed.
#[local] Hint Resolve harmless_checkedAsset : harmless.

Lemma harmless_functionSnapshotAsset d f : harmless (functionSnapshotAsset d f).
Proof. unfold functionSnapshotAsset. cbn zeta. harmless. Qed.

Lemma harmless_blankAsset d req : harmless (blankSnapshotAssetForRequest d req).
Proof. unfold blankSnapshotAssetForRequest. harmless. Qed.

Lemma harmless_networkBlankAsset d req n : harmless (networkBlankSnapshotAssetForRequest d req n).
Proof. unfold networkBlankSnapshotAssetForRequest. harmless. Qed.

Lemma harmless_networkFunctionAsset d req n : harmless (networkFunctionSnapshotAssetForRequest d req n).
Proof. unfold networkFunctionSnapshotAssetForRequest. harmless. Qed.

Lemma harmless_validateHost : harmless validateHost.
Proof. unfold validateHost. harmless. Qed.

End Harmless.

#[export] Hint Resolve harmless_ret harmless_fail harmless_lift harmless_gets harmless_now harmless_bind harmless_try
  harmless_interact harmless_os harmless_osRemoveAll harmless_writeCopy harmless_chown harmless_allocCID
  harmless_copyFile harmless_osLink harmless_osStat harmless_stageKernel harmless_prepareOwnership harmless_procLogs
  harmless_apiRequest harmless_guestSend harmless_MkdirTemp harmless_pingGuest harmless_prepareGuest
  harmless_runInvocation harmless_complete harmless_functionSnapshotAsset harmless_blankAsset
  harmless_networkBlankAsset harmless_networkFunctionAsset harmless_validateHost : harmless.

(** ** What is held *)

(** Relative to an earlier state [s0]: of the processes started since only [pid]
    may still run, of the leases taken since only [lease] is not released, and of
    the directories made since only [dir] has not been removed.  The flag beside
    [pid] tells whether [cleanupOnce] has run. *)
Definition proc_held (base : nat) (pid : option (nat * bool)) (i : nat) (p : vmProcess) : Prop :=
  (is_Some (vp_done p) → vp_state p = Exited) ∧ (vp_state p = Running → fst <$> pid = Some (base + i)).

Record held (s0 : VmState) (dir : option string) (pid : option (nat * bool)) (lease : option nat) (s : VmState) : Prop := {
  held_procs : ∃ ps, vm_procs s = vm_procs s0 ++ ps ∧ ∀ i p, ps !! i = Some p → proc_held (length (vm_procs s0)) pid i p;
  held_pid : ∀ n c, pid = Some (n, c) → length (vm_procs s0) ≤ n ∧ ∃ p, vm_procs s !! n = Some p ∧ vp_cleaned p = c;
  held_leases : ∃ ls, vm_leases s = vm_leases s0 ++ ls ∧
    ∀ i l, ls !! i = Some l → nl_done l = false → lease = Some (length (vm_leases s0) + i);
  held_lease : ∀ n, lease = Some n → length (vm_leases s0) ≤ n;
  held_dirs : ∃ ds rs, vm_made s = vm_made s0 ++ ds ∧ vm_removed s = vm_removed s0 ++ rs ∧
    ∀ x, x ∈ ds → x ∈ rs ∨ dir = Some x;
}.

Section Held.
Context (s0 : VmState).
Implicit Types (dir : option string) (pid : option (nat * bool)) (lease : option nat) (c : bool).

Lemma held_refl : held s0 None None None s0.
Proof.
  split; try done.
  - exists []. by rewrite app_nil_r.
  - exists []. by rewrite app_nil_r.
  - exists [], []. rewrite !app_nil_r. split_and!; [done..|]. by intros x ?%not_elem_of_nil.
Qed.

Lemma held_same dir pid lease s s' : resources s' = resources s → held s0 dir pid lease s → held s0 dir pid lease s'.
Proof. intros [= E1 E2 E3 E4] []. by split; rewrite ?E1, ?E2, ?E3, ?E4. Qed.

Lemma ends_harmless {A} dir pid lease (m : VM A) :
  harmless m → ends (held s0 dir pid lease) m (λ _, held s0 dir pid lease) (held s0 dir pid lease).
Proof.
  intros Hm s Hs. specialize (Hm s). destruct (m s) as [[a|e] s']; by eapply held_same.
Qed.

(** A change of a process: what it may make of the process that is held. *)
Lemma held_alter dir pid pid1 n lease s (f : vmProcess → vmProcess) :
  held s0 dir pid lease s → length (vm_procs s0) ≤ n →
  (∀ p, (is_Some (vp_done p) → vp_state p = Exited) → is_Some (vp_done (f p)) → vp_state (f p) = Exited) →
  (∀ p, vp_state (f p) = Running → vp_state p = Running ∧ fst <$> pid1 = fst <$> pid) →
  (pid1 = pid ∧ (∀ p, vp_cleaned (f p) = vp_cleaned p) ∨
   (∃ c, pid = Some (n, c)) ∧ (pid1 = None ∨ pid1 = Some (n, true) ∧ ∀ p, vp_cleaned (f p) = true)) →
  held s0 dir pid1 lease (s <| vm_procs := alter f n (vm_procs s) |>).
Proof.
  intros [(ps & Hps & Hp) Hpid Hl Hl' Hd] Hn Hdone Hrun Hf. split; try done.
  - exists (alter f (n - length (vm_procs s0)) ps). split.
    { transitivity (alter f n (vm_procs s)); [done|]. rewrite Hps. by apply alter_app_r_alt. }
    intros i q Hq. destruct (decide (i = n - length (vm_procs s0))) as [->|Hi].
    + rewrite list_lookup_alter_eq in Hq. apply fmap_Some in Hq as (q0 & Hq0 & ->).
      destruct (Hp _ _ Hq0) as [Hd0 Hr0]. split; [by apply Hdone|]. intros [Hr Hpe]%Hrun. rewrite Hpe. by apply Hr0.
    + rewrite list_lookup_alter_ne in Hq by done. destruct (Hp _ _ Hq) as [Hd0 Hr0]. split; [done|].
      intros Hr. specialize (Hr0 Hr). destruct Hf as [[-> _]|[[c ->] _]]; [done|]. simplify_eq/=. lia.
  - intros m c Hm. change (length (vm_procs s0) ≤ m ∧ ∃ p, alter f n (vm_procs s) !! m = Some p ∧ vp_cleaned p = c).
    destruct Hf as [[-> Hc]|[[c0 Hc0] [->|[-> Hc]]]]; [|done|].
    + destruct (Hpid m c Hm) as (Hle & p & Hpm & Hcl). split; [done|]. destruct (decide (m = n)) as [->|Hne].
      * exists (f p). rewrite list_lookup_alter_eq, Hpm. split; [done|]. by rewrite Hc.
      * exists p. by rewrite list_lookup_alter_ne.
    + injection Hm as <- <-. destruct (Hpid n c0 Hc0) as (Hle & p & Hpm & Hcl). split; [done|].
      exists (f p). by rewrite list_lookup_alter_eq, Hpm, Hc.
Qed.

End Held.

Create HintDb held.

Section Giving.
Context `{!VmEnv, !MetaJson} (d : VmDriver) (s0 : VmState).
Implicit Types (dir : option string) (pid : option (nat * bool)) (lease : option nat) (c : bool).

Abbreviation HD := (held s0).

(** The state of the held process does not matter to a method with this outcome. *)
Lemma ends_onProc_keep dir n c lease f E :
  (∀ p, (is_Some (vp_done p) → vp_state p = Exited) → is_Some (vp_done (f p)) → vp_state (f p) = Exited) →
  (∀ p, vp_state (f p) = Running → vp_state p = Running) → (∀ p, vp_cleaned (f p) = vp_cleaned p) →
  ends (HD dir (Some (n, c)) lease) (onProc n f) (λ _, HD dir (Some (n, c)) lease) E.
Proof.
  intros Hd Hr Hc. apply ends_modify. intros s Hs.
  assert (length (vm_procs s0) ≤ n) as Hn by by apply (held_pid _ _ _ _ _ Hs n c eq_refl).
  eapply held_alter; [done|done|done| |left; by split]. intros p Hp. split; [by apply Hr|done].
Qed.

Lemma kill_done p : (is_Some (vp_done p) → vp_state p = Exited) → is_Some (vp_done (kill p)) → vp_state (kill p) = Exited.
Proof. intros Hp. unfold kill. destruct (vp_state p) eqn:E; simpl; intros Hd; apply Hp in Hd; congruence. Qed.

Lemma kill_stops p : vp_state (kill p) ≠ Running.
Proof. unfold kill. destruct (vp_state p) eqn:E; simpl; congruence. Qed.

Lemma reaped_stops err p : vp_state (reaped err p) = Exited.
Proof. unfold reaped. by case_match. Qed.

Lemma reaped_cleaned err p : vp_cleaned (reaped err p) = vp_cleaned p.
Proof. unfold reaped. by case_match. Qed.

Lemma kill_cleaned p : vp_cleaned (kill p) = vp_cleaned p.
Proof. unfold kill. by destruct (vp_state p). Qed.

(** Stopping a process gives it back. *)
Lemma held_stop dir n c lease s f :
  HD dir (Some (n, c)) lease s →
  (∀ p, (is_Some (vp_done p) → vp_state p = Exited) → is_Some (vp_done (f p)) → vp_state (f p) = Exited) →
  (∀ p, vp_state (f p) ≠ Running) →
  HD dir None lease (s <| vm_procs := alter f n (vm_procs s) |>).
Proof.
  intros Hs Hd Hf. eapply held_alter; [exact Hs|by apply (held_pid _ _ _ _ _ Hs n c eq_refl)|done| |right; split; [by exists c|by left]].
  intros p Hp. by apply Hf in Hp.
Qed.

Lemma held_gone dir n lease s f :
  HD dir None lease s → length (vm_procs s0) ≤ n →
  (∀ p, (is_Some (vp_done p) → vp_state p = Exited) → is_Some (vp_done (f p)) → vp_state (f p) = Exited) →
  (∀ p, vp_state (f p) = Running → vp_state p = Running) → (∀ p, vp_cleaned (f p) = vp_cleaned p) →
  HD dir None lease (s <| vm_procs := alter f n (vm_procs s) |>).
Proof. intros Hs Hn Hd Hr Hc. eapply held_alter; [exact Hs|done|done| |left; by split]. intros p Hp. split; [by apply Hr|done]. Qed.

Lemma ends_kill dir n c lease E :
  ends (HD dir (Some (n, c)) lease) (onProc n kill) (λ _ s, HD dir None lease s ∧ length (vm_procs s0) ≤ n) E.
Proof.
  apply ends_modify. intros s Hs. split; [|by apply (held_pid _ _ _ _ _ Hs n c eq_refl)].
  eapply held_stop; [done|apply kill_done|apply kill_stops].
Qed.

Lemma ends_awaitExit_gone dir n lease E :
  ends (λ s, HD dir None lease s ∧ length (vm_procs s0) ≤ n) (awaitExit n) (λ _, HD dir None lease) E.
Proof.
  intros s [Hs Hn]. unfold awaitExit. rewrite M_bind_eq. unfold interact.
  destruct (vm_Exit (vm_step s)) as [err|]; [|by eapply held_same, Hs].
  rewrite M_bind_eq. unfold onProc, modify, mret, M_ret. cbv beta iota.
  apply held_gone; [by eapply held_same, Hs|done|by intros; apply reaped_stops| |apply reaped_cleaned].
  intros p Hp. by rewrite reaped_stops in Hp.
Qed.

Lemma ends_awaitExit dir n c lease E :
  ends (HD dir (Some (n, c)) lease) (awaitExit n)
    (λ r, match r with Some _ => HD dir None lease | None => HD dir (Some (n, c)) lease end) E.
Proof.
  intros s Hs. unfold awaitExit. rewrite M_bind_eq. unfold interact.
  destruct (vm_Exit (vm_step s)) as [err|]; [|by eapply held_same, Hs].
  rewrite M_bind_eq. unfold onProc, modify, mret, M_ret. cbv beta iota.
  eapply held_stop; [by eapply held_same, Hs|by intros; apply reaped_stops|].
  intros p Hp. by rewrite reaped_stops in Hp.
Qed.

(** A process that is done does not run. *)
Lemma ends_doneErr dir n c lease E :
  ends (HD dir (Some (n, c)) lease) (doneErr n)
    (λ r, match r with Some _ => HD dir None lease | None => HD dir (Some (n, c)) lease end) E.
Proof.
  apply ends_gets. intros s Hs. destruct (vm_procs s !! n ≫= vp_done) as [err|] eqn:Ed; [|done].
  apply bind_Some in Ed as (p & Hp & Hdone).
  destruct (held_pid _ _ _ _ _ Hs n c eq_refl) as (Hn & p' & Hp' & Hcl). simplify_eq.
  destruct Hs as [(ps & Hps & Hq) _ Hl Hl' Hd]. split; try done. exists ps. split; [done|].
  intros i q Hi. destruct (Hq _ _ Hi) as [H1 H2]. split; [done|]. intros Hr. specialize (H2 Hr). simplify_eq/=.
  rewrite Hps, lookup_app_r, Nat.add_comm, Nat.add_sub, Hi in Hp by lia. simplify_eq.
  rewrite H1 in Hr by eauto. done.
Qed.

Lemma ends_terminate dir n c lease E : ends (HD dir (Some (n, c)) lease) (terminate n) (λ _, HD dir None lease) E.
Proof.
  unfold terminate. eapply ends_bind; [apply ends_doneErr|]. intros [err|]; [by apply ends_ret|].
  eapply ends_bind; [apply ends_kill|]. intros ?.
  eapply ends_bind; [apply ends_awaitExit_gone|]. intros [err|]; by apply ends_ret.
Qed.

Lemma ends_wait dir n c lease E : ends (HD dir (Some (n, c)) lease) (wait n) (λ _, HD dir None lease) E.
Proof.
  unfold wait. eapply ends_bind; [apply ends_doneErr|]. intros [err|]; [by apply ends_ret|].
  eapply ends_bind; [apply ends_awaitExit|]. intros [err|]; [by apply ends_ret|].
  eapply ends_bind; [apply ends_kill|]. intros ?.
  eapply ends_bind; [apply ends_awaitExit_gone|]. intros [err|]; by apply ends_ret.
Qed.

Lemma ends_layoutCleanup layout pid lease E :
  ends (HD (Some (vl_remove layout)) pid lease) (layoutCleanup layout) (λ _, HD None pid lease) E.
Proof.
  unfold layoutCleanup. eapply ends_bind.
  - apply (ends_modify _ (λ _, HD None pid lease)). intros s [Hp Hpid Hl Hl' (ds & rs & Hds & Hrs & Hd)]. split; try done.
    exists ds, (rs ++ [vl_remove layout]). split; [done|]. split.
    { change (vm_removed s ++ [vl_remove layout] = vm_removed s0 ++ rs ++ [vl_remove layout]).
      by rewrite Hrs, <- app_assoc. }
    intros x [Hx|[= ->]]%Hd; left; apply elem_of_app; [by left|right]. by apply list_elem_of_singleton.
  - intros ?. eapply ends_bind; [eapply ends_try, ends_harmless, harmless_osRemoveAll|].
    intros [r|e]; by apply ends_ret.
Qed.

Lemma ends_made layout vmID lease E :
  ends (HD None None lease) (made layout vmID) (λ r, HD (Some (vl_remove r.1)) None lease) E.
Proof.
  unfold made. eapply ends_bind;
    [apply (ends_modify _ (λ _, HD (Some (vl_remove layout)) None lease))|intros ?; by apply ends_ret].
  intros s [Hp Hpid Hl Hl' (ds & rs & Hds & Hrs & Hd)]. split; try done.
  exists (ds ++ [vl_remove layout]), rs. split; [|split; [done|]].
  { change (vm_made s ++ [vl_remove layout] = vm_made s0 ++ ds ++ [vl_remove layout]).
    by rewrite Hds, <- app_assoc. }
  intros x [Hx|Hx]%elem_of_app; [destruct (Hd x Hx); [by left|done]|]. right. set_solver.
Qed.

Lemma ends_prepareLayout attempt lease :
  ends (HD None None lease) (prepareLayout d attempt) (λ r, HD (Some (vl_remove r.1)) None lease) (HD None None lease).
Proof.
  unfold prepareLayout. eapply ends_bind; [by apply (ends_harmless s0 None None lease (λ s, (Ok (vm_UnixNano (vm_step s)), s)))|].
  intros nano. cbn zeta. case_match; (eapply ends_bind; [apply ends_harmless; eauto with harmless|]); intros ?; apply ends_made.
Qed.

Lemma ends_staged {A} layout (Q : A → VmState → Prop) P lease m :
  ends P m Q (HD (Some (vl_remove layout)) None lease) → ends P (staged layout m) Q (HD None None lease).
Proof.
  intros Hm. unfold staged. eapply ends_bind; [by eapply ends_try|]. intros [a|e]; [by apply ends_ret|].
  eapply ends_bind; [apply ends_layoutCleanup|]. intros ?. by apply ends_fail.
Qed.

Lemma ends_started {A} layout (pid : nat) c (Q : A → VmState → Prop) P lease m :
  ends P m Q (HD (Some (vl_remove layout)) (Some (pid, c)) lease) → ends P (started layout pid m) Q (HD None None lease).
Proof.
  intros Hm. unfold started. eapply ends_bind; [by eapply ends_try|]. intros [a|e]; [by apply ends_ret|].
  eapply ends_bind; [apply ends_layoutCleanup|]. intros ?.
  eapply ends_bind; [apply ends_wait|]. intros ?. by apply ends_fail.
Qed.

Lemma ends_reported {A} layout (pid : nat) c what (Q : A → VmState → Prop) P lease m :
  ends P m Q (HD (Some (vl_remove layout)) (Some (pid, c)) lease) → ends P (reported layout pid what m) Q (HD None None lease).
Proof.
  intros Hm. unfold reported. eapply ends_bind; [by eapply ends_try|]. intros [a|e]; [by apply ends_ret|].
  eapply ends_bind; [apply ends_layoutCleanup|]. intros ?.
  eapply ends_bind; [apply ends_wait|]. intros ?.
  eapply ends_bind; [apply ends_harmless, harmless_procLogs|]. intros ?. by apply ends_fail.
Qed.

Lemma ends_startVM vmID layout dir lease :
  ends (HD dir None lease) (startVM d vmID layout) (λ n, HD dir (Some (n, false)) lease) (HD dir None lease).
Proof.
  unfold startVM. destruct (if cf_UseJailer (dv_config d) then _ else _) as [[binary args] wd]. eapply ends_bind; [apply ends_harmless, harmless_interact|].
  intros [e|]; [by apply ends_fail|]. intros s [(ps & Hps & Hp) Hpid Hl Hl' Hd]. cbn.
  set (p := mkVmProcess _ _ _ _ _ _). split; try done.
  - exists (ps ++ [p]). split.
    { change (vm_procs s ++ [p] = vm_procs s0 ++ ps ++ [p]). by rewrite Hps, <- app_assoc. }
    intros i q [Hi|[Hge Hi]]%lookup_app_Some.
    + destruct (Hp _ _ Hi) as [H1 H2]. split; [done|]. intros Hr. by specialize (H2 Hr).
    + apply list_lookup_singleton_Some in Hi as [Hi <-]. split; [by intros [? ?]|]. intros ?. simpl. f_equal. rewrite Hps, length_app.
      lia.
  - intros n c [= <- <-]. split; [rewrite Hps, length_app; lia|]. exists p. split; [|done].
    change ((vm_procs s ++ [p]) !! length (vm_procs s) = Some p). by rewrite lookup_app_r, Nat.sub_diag by lia.
Qed.

Lemma ends_waitForFile path dir n c lease :
  ends (HD dir (Some (n, c)) lease) (waitForFile path n) (λ _, HD dir (Some (n, c)) lease) (HD dir (Some (n, c)) lease).
Proof.
  unfold waitForFile. eapply ends_bind; [apply ends_harmless, harmless_interact|]. intros turns.
  induction turns as [|t turns IH]; simpl; [by apply ends_fail|].
  eapply ends_bind; [eapply ends_try, ends_harmless, harmless_osStat|]. intros [a|e]; [by apply ends_ret|].
  eapply ends_bind; [apply ends_harmless, harmless_interact|]. intros [|e'|err]; [done|by apply ends_fail|].
  eapply ends_bind; [apply ends_onProc_keep|intros ?; by apply ends_fail].
  - intros p _ _. apply reaped_stops.
  - intros p Hp. by rewrite reaped_stops in Hp.
  - apply reaped_cleaned.
Qed.

Lemma ends_launch layout vmID lease :
  ends (HD (Some (vl_remove layout)) None lease) (launch d layout vmID)
    (λ n, HD (Some (vl_remove layout)) (Some (n, false)) lease) (HD None None lease).
Proof.
  unfold launch. eapply ends_bind; [apply ends_staged, ends_startVM|]. intros n.
  eapply ends_bind; [eapply ends_reported, ends_waitForFile|]. intros ?. by apply ends_ret.
Qed.

Lemma ends_interact {A} dir pid lease (f : nat → A) E :
  ends (HD dir pid lease) (interact f) (λ _, HD dir pid lease) E.
Proof. intros s Hs. by eapply held_same, Hs. Qed.

(** A wait that leaves open whether the process ended. *)
Lemma ends_stopping dir n c lease f E :
  (∀ p, vp_state (f p) = Exited) → (∀ p, vp_cleaned (f p) = vp_cleaned p) →
  ends (HD dir (Some (n, c)) lease) (onProc n f) (λ _, HD dir (Some (n, c)) lease) E.
Proof. intros Hf Hc. apply ends_onProc_keep; [done| |done]. intros p Hp. by rewrite Hf in Hp. Qed.

Lemma ends_killing dir n c lease E :
  ends (HD dir (Some (n, c)) lease) (onProc n kill) (λ _, HD dir (Some (n, c)) lease) E.
Proof.
  apply ends_onProc_keep; [apply kill_done| |apply kill_cleaned]. intros p Hp. by apply kill_stops in Hp.
Qed.

Lemma ends_wait_keep dir n c lease E :
  ends (HD dir (Some (n, c)) lease) (wait n) (λ _, HD dir (Some (n, c)) lease) E.
Proof.
  assert (∀ F, ends (HD dir (Some (n, c)) lease) (awaitExit n) (λ _, HD dir (Some (n, c)) lease) F) as Hawait.
  { intros F. unfold awaitExit. eapply ends_bind; [apply ends_interact|].
    intros [err|]; [|by apply ends_ret]. eapply ends_bind; [apply ends_stopping; [apply reaped_stops|apply reaped_cleaned]|].
    intros ?. by apply ends_ret. }
  unfold wait. eapply ends_bind; [by apply (ends_gets _ (λ _, HD dir (Some (n, c)) lease))|]. intros [err|]; [by apply ends_ret|].
  eapply ends_bind; [apply Hawait|]. intros [err|]; [by apply ends_ret|].
  eapply ends_bind; [apply ends_killing|]. intros ?.
  eapply ends_bind; [apply Hawait|]. intros [err|]; by apply ends_ret.
Qed.

(** ** Instances *)

(** An instance that has not been cleaned up. *)
Definition holding (lease : option nat) (v : vmInstance) : VmState → Prop :=
  HD (Some (vl_remove (vi_layout v))) (Some (vi_pid v, false)) lease.

Lemma ends_configure layout (pid : nat) req network lease :
  ends (HD (Some (vl_remove layout)) (Some (pid, false)) lease) (configure d layout pid req network)
    (λ _, HD (Some (vl_remove layout)) (Some (pid, false)) lease) (HD None None lease).
Proof.
  assert (∀ what path body, ends (HD (Some (vl_remove layout)) (Some (pid, false)) lease)
    (reported layout pid what (put pid path body))
    (λ _, HD (Some (vl_remove layout)) (Some (pid, false)) lease) (HD None None lease)) as Hput.
  { intros. eapply ends_reported, ends_harmless, harmless_apiRequest. }
  unfold configure. eapply ends_bind.
  { instantiate (1 := λ _, HD (Some (vl_remove layout)) (Some (pid, false)) lease). intros s Hs. by eapply held_same, Hs. }
  intros cid. eapply ends_bind; [eapply ends_started, ends_harmless, harmless_lift|]. intros args.
  eapply ends_bind; [apply Hput|]. intros ?. eapply ends_bind; [apply Hput|]. intros ?.
  eapply ends_bind; [apply Hput|]. intros ?. eapply ends_bind.
  { instantiate (1 := λ _, HD (Some (vl_remove layout)) (Some (pid, false)) lease).
    case_match; [|by apply ends_ret]. case_match; [apply Hput|]. by eapply ends_started, ends_fail. }
  intros ?. eapply ends_bind; [apply Hput|]. intros ?. apply Hput.
Qed.

Lemma ends_bootInstance req network lease :
  ends (HD None None lease) (bootInstance d req network) (holding lease) (HD None None lease).
Proof.
  unfold bootInstance. eapply ends_bind; [apply ends_prepareLayout|]. intros [layout vmID]. cbn [fst].
  eapply ends_bind; [eapply ends_staged, ends_harmless, harmless_stageKernel|]. intros ?.
  eapply ends_bind; [eapply ends_staged, ends_harmless, harmless_copyFile|]. intros ?.
  eapply ends_bind; [eapply ends_staged, ends_harmless, harmless_prepareOwnership|]. intros ?.
  eapply ends_bind; [apply ends_launch|]. intros pid.
  eapply ends_bind; [apply ends_configure|]. intros ?. by apply ends_ret.
Qed.

Lemma ends_restoreInstance req asset lease :
  ends (HD None None lease) (restoreInstance d req asset) (holding lease) (HD None None lease).
Proof.
  unfold restoreInstance. eapply ends_bind; [apply ends_prepareLayout|]. intros [layout vmID]. cbn [fst].
  do 3 (eapply ends_bind; [eapply ends_staged, ends_harmless, harmless_copyFile|]; intros ?).
  eapply ends_bind; [eapply ends_staged, ends_harmless, harmless_prepareOwnership|]. intros ?.
  eapply ends_bind; [apply ends_launch|]. intros pid.
  do 2 (eapply ends_bind; [eapply ends_reported, ends_harmless, harmless_apiRequest|]; intros ?). by apply ends_ret.
Qed.

Lemma ends_cleanupInstance v lease E : ends (holding lease v) (cleanupInstance v) (λ _, HD None None lease) E.
Proof.
  unfold cleanupInstance. eapply ends_bind.
  { apply (ends_gets _ (λ cleaned s, holding lease v s ∧ cleaned = false)). intros s Hs. split; [done|].
    destruct (held_pid _ _ _ _ _ Hs _ _ eq_refl) as (_ & p & -> & Hp). done. }
  intros [|]; [by intros s [_ ?]|]. eapply ends_bind.
  { apply (ends_modify _ (λ _, HD (Some (vl_remove (vi_layout v))) (Some (vi_pid v, true)) lease)). intros s [Hs _].
    eapply held_alter; [exact Hs|by apply (held_pid _ _ _ _ _ Hs _ _ eq_refl)|done|done|].
    right. split; [by exists false|]. by right. }
  intros ?. eapply ends_bind; [apply ends_terminate|]. intros ?. apply ends_layoutCleanup.
Qed.

(** ** Leases *)

Lemma ends_poolAcquire f :
  ends (HD None None None) (poolAcquire f) (λ n, HD None None (Some n)) (HD None None None).
Proof.
  intros s Hs. unfold poolAcquire. destruct (vm_pool s) as [pool|]; [|by eapply held_same, Hs].
  destruct (f _ pool) as [[l|e] pool']; [|by eapply held_same, Hs].
  destruct Hs as [Hp Hpid (ls & Hls & Hl) Hl' Hd]. split; try done.
  - exists (ls ++ [l]). split.
    { change (vm_leases s ++ [l] = vm_leases s0 ++ ls ++ [l]). by rewrite Hls, <- app_assoc. }
    intros i l' [Hi|[Hge Hi]]%lookup_app_Some Hdone; [by specialize (Hl _ _ Hi Hdone)|].
    apply list_lookup_singleton_Some in Hi as [Hi <-]. rewrite Hls, length_app. f_equal. lia.
  - intros n [= <-]. rewrite Hls, length_app. lia.
Qed.

Lemma ends_leaseRelease n E : ends (HD None None (Some n)) (leaseRelease n) (λ _, HD None None None) E.
Proof.
  intros s [Hp Hpid (ls & Hls & Hl) Hl' Hd]. specialize (Hl' n eq_refl). unfold leaseRelease.
  destruct (vm_leases s !! n) as [l|] eqn:En.
  - split; try done. exists (<[n - length (vm_leases s0) := mkNetworkLease (nl_cfg l) true]> ls). split.
    { change (<[n := mkNetworkLease (nl_cfg l) true]> (vm_leases s) =
              vm_leases s0 ++ <[n - length (vm_leases s0) := mkNetworkLease (nl_cfg l) true]> ls).
      rewrite Hls. by apply insert_app_r_alt. }
    intros i l' Hi Hdone. apply list_lookup_insert_Some in Hi as [(? & <- & ?)|[Hne Hi]]; [done|].
    specialize (Hl _ _ Hi Hdone). simplify_eq. lia.
  - split; try done. exists ls. split; [done|]. intros i l' Hi Hdone. specialize (Hl _ _ Hi Hdone). simplify_eq.
    rewrite Hls, lookup_app_r, Nat.add_comm, Nat.add_sub, Hi in En by lia. done.
Qed.

(** ** Executions *)

(** A method that does not fail. *)
Definition returns {A} (m : VM A) : Prop := ∀ s, is_ok (m s).1 = true.

Lemma returns_bind {A B} (m : VM A) (f : A → VM B) : returns m → (∀ a, returns (f a)) → returns (m ≫= f).
Proof. intros Hm Hf s. rewrite M_bind_eq. specialize (Hm s). destruct (m s) as [[a|e] s']; [apply Hf|done]. Qed.

Lemma ends_returns {A} dir pid lease (m : VM A) E :
  harmless m → returns m → ends (HD dir pid lease) m (λ _, HD dir pid lease) E.
Proof.
  intros Hm Hr s Hs. specialize (Hm s). specialize (Hr s). destruct (m s) as [[a|e] s']; [|done]. by eapply held_same.
Qed.

Lemma returns_runInvocation instance req prepared : returns (runInvocation d instance req prepared).
Proof.
  assert (∀ {A} (m : VM A), returns (try m)) as Htry by (intros A m s; unfold try; by destruct (m s)).
  unfold runInvocation. cbn zeta. apply returns_bind.
  - case_match; unfold invokeGuest, invokeGuestStream; apply returns_bind; [apply Htry|by intros []|apply Htry|by intros []].
  - intros [response err]. repeat case_match; try done; unfold procLogs; repeat (apply returns_bind; [done|intros ?]); done.
Qed.

(** What a deferred execution leaves to its cleanup. *)
Definition deferred (lease : option nat) (r : Deferred) : VmState → Prop :=
  match df_cleanup r with
  | None => HD None None lease
  | Some c => λ s, holding lease (cl_instance c) s ∧ cl_lease c = None
  end.

Lemma ends_finish v req prepared trace lease E :
  ends (holding lease v) (finish d v req prepared trace) (deferred lease) E.
Proof.
  unfold finish. eapply ends_bind; [apply ends_returns; [apply harmless_runInvocation|apply returns_runInvocation]|].
  intros [result err]. by apply ends_ret.
Qed.

Lemma ends_executeCold req note network lease E :
  ends (HD None None lease) (executeColdDeferred d req note network) (deferred lease) E.
Proof.
  unfold executeColdDeferred. eapply ends_bind; [eapply ends_try, ends_bootInstance|].
  intros [v|e]; [apply ends_finish|by apply ends_ret].
Qed.

Lemma ends_executeFromSnapshot req asset prepared note lease E :
  ends (HD None None lease) (executeFromSnapshotDeferred d req asset prepared note) (deferred lease) E.
Proof.
  unfold executeFromSnapshotDeferred. eapply ends_bind; [eapply ends_try, ends_restoreInstance|].
  intros [v|e]; [apply ends_finish|by apply ends_ret].
Qed.

(** What the caller of [ExecuteDeferred] gets. *)
Definition outcome (r : Deferred) (s : VmState) : Prop :=
  match df_cleanup r with
  | None => HD None None None s
  | Some c => holding (cl_lease c) (cl_instance c) s
  end.

Lemma ends_withLease (lease : nat) r E : ends (deferred (Some lease) r) (withLease lease r) outcome E.
Proof.
  unfold withLease, deferred. destruct (df_cleanup r) as [c|] eqn:Ec.
  - apply ends_ret. by intros s [Hs _].
  - eapply ends_bind; [apply ends_leaseRelease|]. intros ?. apply ends_ret. intros s Hs. unfold outcome. by rewrite Ec.
Qed.

Lemma deferred_outcome r s : deferred None r s → outcome r s.
Proof. unfold deferred, outcome. destruct (df_cleanup r) as [c|]; [|done]. by intros [Hs ->]. Qed.

Lemma returns_complete a : returns (complete a).
Proof.
  unfold complete. generalize [sa_statePath a; sa_memoryPath a; sa_rootFSPath a; sa_metadataPath a].
  induction l as [|p l IH]; simpl; [done|]. apply returns_bind; [intros s; unfold try; by destruct (osStat p s)|].
  by intros [].
Qed.

Lemma returns_checkedAsset a accept : returns (checkedAsset a accept).
Proof.
  unfold checkedAsset. apply returns_bind; [apply returns_complete|]. intros []; simpl; [|done].
  apply returns_bind; [intros s; unfold try; by destruct (metadata a s)|]. by intros [].
Qed.

Lemma ends_asset dir pid lease (m : VM (option snapshotAsset)) E :
  harmless m → (m = mret None ∨ ∃ a accept, m = checkedAsset a accept) →
  ends (HD dir pid lease) m (λ _, HD dir pid lease) E.
Proof. intros Hm [->|(a & accept & ->)]; (apply ends_returns; [done|]); [done|apply returns_checkedAsset]. Qed.

Lemma ends_startNetworked req cfg lease E : ends (HD None None lease) (startNetworked d req cfg) (deferred lease) E.
Proof.
  unfold startNetworked. eapply ends_bind; [apply ends_asset; [apply harmless_networkFunctionAsset|]|].
  { unfold networkFunctionSnapshotAssetForRequest. case_match; eauto. }
  intros [asset|]; [apply ends_executeFromSnapshot|].
  eapply ends_bind; [apply ends_asset; [apply harmless_networkBlankAsset|]|].
  { unfold networkBlankSnapshotAssetForRequest. case_match; eauto. }
  intros [asset|]; [apply ends_executeFromSnapshot|apply ends_executeCold].
Qed.

Lemma ends_executeNetworked req E : ends (HD None None None) (executeNetworked d req) outcome E.
Proof.
  unfold executeNetworked. eapply ends_bind; [eapply ends_try, ends_poolAcquire|].
  intros [lease|e]; [|by apply ends_ret].
  eapply ends_bind; [by apply (ends_gets _ (λ _, HD None None (Some lease)))|]. intros cfg.
  eapply ends_bind; [apply ends_startNetworked|]. intros r. apply ends_withLease.
Qed.

Lemma ends_ExecuteDeferred req E : ends (HD None None None) (ExecuteDeferred d req) outcome E.
Proof.
  unfold ExecuteDeferred. eapply ends_bind; [eapply ends_try, ends_harmless, harmless_validateHost|].
  intros [u|e]; [|by apply ends_ret]. cbn zeta. generalize (if (xr_MemoryMB req <=? 0)%Z
    then withMemory req (cf_DefaultMemoryMB (dv_config d)) else req). intros r0.
  case_match; [apply ends_executeNetworked|]. eapply ends_bind.
  { apply ends_returns; [apply harmless_functionSnapshotAsset|]. unfold functionSnapshotAsset. cbn zeta.
    apply returns_bind; [apply returns_complete|]. done. }
  intros [asset|].
  - eapply ends_conseq; [apply (ends_executeFromSnapshot _ _ _ _ None E)|done| |done]. intros r s. apply deferred_outcome.
  - eapply ends_bind; [apply ends_asset; [apply harmless_blankAsset|unfold blankSnapshotAssetForRequest; eauto]|].
    intros [asset|].
    + eapply ends_conseq; [apply (ends_executeFromSnapshot _ _ _ _ None E)|done| |done]. intros r s. apply deferred_outcome.
    + eapply ends_conseq; [apply (ends_executeCold _ _ _ None E)|done| |done]. intros r s. apply deferred_outcome.
Qed.

Lemma ends_Execute req E : ends (HD None None None) (Execute d req) (λ _, HD None None None) E.
Proof.
  unfold Execute, andCleanup. eapply ends_bind; [apply ends_ExecuteDeferred|]. intros r. unfold outcome.
  destruct (df_cleanup r) as [[v lease]|] eqn:Ec; [|by apply ends_ret]. cbn [cl_lease cl_instance].
  eapply ends_bind; [|intros res; by apply (ends_ret (HD None None None))].
  unfold runCleanup. cbn [cl_lease cl_instance]. eapply ends_bind; [apply ends_cleanupInstance|]. intros ?.
  eapply ends_bind; [|intros u; by apply (ends_ret (HD None None None))].
  destruct lease; [apply ends_leaseRelease|by apply ends_ret].
Qed.

(** ** Snapshots *)

Lemma ends_createSnapshot v asset meta lease :
  ends (holding lease v) (createSnapshotAsset v asset meta) (λ _, holding lease v) (holding lease v).
Proof.
  unfold createSnapshotAsset. eapply ends_bind; [apply ends_harmless, harmless_os|]. intros ?.
  eapply ends_bind; [apply ends_harmless, harmless_MkdirTemp|]. intros tempDir.
  eapply ends_finally; [|intros ?; apply ends_harmless, harmless_osRemoveAll|apply ends_harmless, harmless_osRemoveAll].
  eapply ends_bind with (Q := λ _, holding lease v); [|intros ?; eapply ends_bind;
    [eapply ends_try, ends_harmless, harmless_osRemoveAll|intros [?|?]; apply ends_harmless, harmless_os]].
  unfold fillSnapshot. cbn zeta. do 2 (eapply ends_bind; [apply ends_harmless, harmless_apiRequest|]; intros ?).
  do 3 (eapply ends_bind; [apply ends_harmless, harmless_copyFile|]; intros ?).
  eapply ends_bind; [apply ends_harmless, harmless_lift|]. intros raw.
  eapply ends_bind; [apply ends_harmless, harmless_os|]. intros q.
  eapply ends_bind; [apply ends_harmless, harmless_writeCopy|]. intros ?.
  eapply ends_bind; [apply ends_killing|]. intros ?.
  eapply ends_bind; [apply ends_wait_keep|]. intros ?. by apply ends_ret.
Qed.

(** What is done with a machine before it goes. *)
Lemma ends_cleaning {A} v (m : VM A) lease :
  ends (holding lease v) m (λ _, holding lease v) (holding lease v) →
  ends (holding lease v) (finally m (cleanupInstance v)) (λ _, HD None None lease) (HD None None lease).
Proof. intros Hm. eapply ends_finally; [exact Hm|intros ?; apply ends_cleanupInstance|apply ends_cleanupInstance]. Qed.

(** A guest is asked, then the snapshot is taken. *)
Lemma ends_snapshotting {A} v (m : VM A) (what : string) asset (meta : A → Time → snapshotMetadata) lease :
  harmless m →
  ends (holding lease v)
    (r ← try m;
     match r with
     | Err e => logs ← procLogs (vi_pid v); fail (wrapText (what +:+ ": ") e ("; firecracker logs: " +:+ logs))
     | Ok a => t ← now; createSnapshotAsset v asset (meta a t)
     end) (λ _, holding lease v) (holding lease v).
Proof.
  intros Hm. eapply ends_bind; [by eapply ends_try, ends_harmless|]. intros [a|e].
  - eapply ends_bind; [by apply ends_harmless|]. intros t. apply ends_createSnapshot.
  - eapply ends_bind; [apply ends_harmless, harmless_procLogs|]. intros ?. by apply ends_fail.
Qed.

Lemma ends_snapshotBlank v asset what policy tap lease :
  ends (holding lease v) (snapshotBlank d v asset what policy tap) (λ _, holding lease v) (holding lease v).
Proof.
  apply (ends_snapshotting v _ what asset (λ _ t, mkSnapshotMetadata "blank" "" "" policy tap _ false t)).
  apply harmless_pingGuest.
Qed.

Lemma ends_snapshotFunction v asset req what tap lease :
  ends (holding lease v) (snapshotFunction d v asset req what tap) (λ _, HD None None lease) (HD None None lease).
Proof.
  apply ends_cleaning. apply (ends_snapshotting v _ what asset (λ resp t, mkSnapshotMetadata "function" (xr_FunctionID req)
    (xr_Entrypoint req) (xr_NetworkPolicy req) tap (xr_MemoryMB req) (gpr_WorkerPrepared resp) t)).
  apply harmless_prepareGuest.
Qed.

Lemma ends_leasing {A} tap (body : VM A) :
  (∀ lease : nat, ends (HD None None (Some lease)) body (λ _, HD None None (Some lease)) (HD None None (Some lease))) →
  ends (HD None None None) (leasing tap body) (λ _, HD None None None) (HD None None None).
Proof.
  intros Hb. unfold leasing. eapply ends_bind; [apply ends_poolAcquire|]. intros lease.
  eapply ends_finally; [apply Hb|intros ?; apply ends_leaseRelease|apply ends_leaseRelease].
Qed.

Lemma ends_ensureNetworkBlank network :
  ends (HD None None None) (ensureNetworkBlankSnapshotLocked d network) (λ _, HD None None None) (HD None None None).
Proof.
  unfold ensureNetworkBlankSnapshotLocked. cbn zeta. eapply ends_bind; [apply ends_harmless, harmless_complete|].
  intros [|]; [by apply ends_ret|]. apply ends_leasing. intros lease.
  eapply ends_bind; [apply ends_bootInstance|]. intros v. apply ends_cleaning, ends_snapshotBlank.
Qed.

End Giving.

(** What is given back while something else is held. *)
Lemma held_trans s0 s1 s2 dir pid lease :
  held s0 dir pid lease s1 → held s1 None None None s2 → held s0 dir pid lease s2.
Proof.
  intros [(ps & Hps & Hp) Hpid (ls & Hls & Hl) Hlease (ds & rs & Hds & Hrs & Hd)]
    [(ps' & Hps' & Hp') _ (ls' & Hls' & Hl') _ (ds' & rs' & Hds' & Hrs' & Hd')].
  split; [| | |exact Hlease|].
  - exists (ps ++ ps'). rewrite Hps', Hps, <- app_assoc. split; [done|].
    intros i p [Hi|[Hlen Hi]]%lookup_app_Some; [by apply Hp|]. destruct (Hp' _ _ Hi) as [H1 H2]. split; [done|].
    intros Hr. by specialize (H2 Hr).
  - intros n c Hn. destruct (Hpid n c Hn) as (Hle & p & Hpn & Hc). split; [done|]. exists p. rewrite Hps'.
    split; [by apply lookup_app_l_Some|done].
  - exists (ls ++ ls'). rewrite Hls', Hls, <- app_assoc. split; [done|].
    intros i l [Hi|[Hlen Hi]]%lookup_app_Some; [by apply Hl|]. intros Hdone. by specialize (Hl' _ _ Hi Hdone).
  - exists (ds ++ ds'), (rs ++ rs'). rewrite Hds', Hds, Hrs', Hrs, <- !app_assoc. split_and!; [done..|].
    intros x [Hx|Hx]%elem_of_app.
    + destruct (Hd x Hx) as [?|?]; [left; apply elem_of_app; by left|by right].
    + destruct (Hd' x Hx) as [?|?]; [left; apply elem_of_app; by right|done].
Qed.

Section Warming.
Context `{!VmEnv, !MetaJson} (d : VmDriver) (s0 : VmState).
Abbreviation HD := (held s0).

Lemma ends_nested {A} dir pid lease (m : VM A) :
  (∀ s1, ends (held s1 None None None) m (λ _, held s1 None None None) (held s1 None None None)) →
  ends (HD dir pid lease) m (λ _, HD dir pid lease) (HD dir pid lease).
Proof.
  intros Hm s Hs. specialize (Hm s s (held_refl s)). destruct (m s) as [[a|e] s']; by eapply held_trans.
Qed.

Lemma ends_ensureNetworkBlanks :
  ends (HD None None None) (ensureNetworkBlankSnapshotsLocked d) (λ _, HD None None None) (HD None None None).
Proof. apply ends_for_each. intros network _. apply ends_ensureNetworkBlank. Qed.

End Warming.

Section Preparing.
Context `{!VmEnv, !MetaJson} (d : VmDriver) (s0 : VmState).
Abbreviation HD := (held s0).
Abbreviation holding := (holding s0).

Lemma ends_EnsureBlankWarm :
  ends (HD None None None) (EnsureBlankWarm d) (λ _, HD None None None) (HD None None None).
Proof.
  unfold EnsureBlankWarm, ensureBlankSnapshotLocked. cbn zeta.
  eapply ends_bind; [apply ends_harmless, harmless_complete|]. intros ok.
  destruct ok; [apply ends_ensureNetworkBlanks|]. eapply ends_bind; [apply ends_bootInstance|].
  intros v. apply ends_cleaning. eapply ends_bind; [apply ends_snapshotBlank|]. intros ?.
  eapply ends_nested. intros s1. apply ends_ensureNetworkBlanks.
Qed.

(** Without the full network; with it, a restored machine is left running when its
    tap device cannot be leased. *)
Lemma ends_PrepareFunctionWarm req :
  isFullNetworkPolicy (xr_NetworkPolicy req) = false →
  ends (HD None None None) (PrepareFunctionWarm d req) (λ _, HD None None None) (HD None None None).
Proof.
  intros Hpolicy. unfold PrepareFunctionWarm, ensureFunctionSnapshotLocked. rewrite Hpolicy. cbn zeta.
  eapply ends_bind; [apply ends_harmless, harmless_complete|]. intros [|]; [by apply ends_ret|].
  eapply ends_bind with (Q := λ v, match v with Some v => holding None v | None => HD None None None end).
  - case_match; [|by apply ends_ret]. eapply ends_bind; [eapply ends_try, ends_EnsureBlankWarm|].
    intros [?|?]; [|by apply ends_ret]. eapply ends_bind; [apply ends_harmless, harmless_blankAsset|].
    intros [asset|]; [|by apply ends_ret]. unfold restoreIf. eapply ends_bind; [eapply ends_try, ends_restoreInstance|].
    intros [v|e]; by apply ends_ret.
  - intros restored. eapply ends_bind with (Q := holding None).
    + destruct restored as [v|]; [by apply ends_ret|apply ends_bootInstance].
    + intros v. apply ends_snapshotFunction.
Qed.

End Preparing.

(** Everything taken between the two states has been given back: processes have
    ended or been killed, leases are released, and for every directory made for a
    machine its removal has been tried ([vm_removed]; the source ignores the error
    of [os.RemoveAll], so a removal that fails leaves the directory). *)
Definition released (s s' : VmState) : Prop :=
  (∃ ps, vm_procs s' = vm_procs s ++ ps ∧ Forall (λ p, vp_state p ≠ Running) ps) ∧
  (∃ ls, vm_leases s' = vm_leases s ++ ls ∧ Forall (λ l, nl_done l = true) ls) ∧
  (∃ ds rs, vm_made s' = vm_made s ++ ds ∧ vm_removed s' = vm_removed s ++ rs ∧ ds ⊆ rs).

Lemma held_released s s' : held s None None None s' → released s s'.
Proof.
  intros [(ps & Hps & Hp) _ (ls & Hls & Hl) _ (ds & rs & Hds & Hrs & Hd)]. split_and!.
  - exists ps. split; [done|]. apply Forall_lookup. intros i p Hi Hr. by destruct (Hp _ _ Hi) as [_ ?%(λ f, f Hr)].
  - exists ls. split; [done|]. apply Forall_lookup. intros i l Hi. destruct (nl_done l) eqn:E; [done|].
    by specialize (Hl _ _ Hi E).
  - exists ds, rs. split_and!; [done..|]. intros x Hx. by destruct (Hd x Hx).
Qed.

(** C12: the micro-VM driver gives back what it takes.  Whatever fails on the way
    (system calls, Firecracker, the guest, waiting for the process), when an
    execution with its cleanup, a preparation of blank snapshots, or a preparation
    of a function without the full network has returned, every Firecracker process
    it started has ended or been killed, every tap lease it took is released, and
    the removal of every machine directory it made has been tried. *)
Theorem driver_gives_back (Env : VmEnv) (J : MetaJson) (d : VmDriver) (req : VmRequest) (s : VmState) :
  released s (Execute d req s).2 ∧
  released s (EnsureBlankWarm d s).2 ∧
  (isFullNetworkPolicy (xr_NetworkPolicy req) = true ∨ released s (PrepareFunctionWarm d req s).2).
Proof.
  pose proof (ends_Execute d s req (λ _, False) s (held_refl s)) as H1.
  pose proof (ends_EnsureBlankWarm d s s (held_refl s)) as H2.
  split_and!.
  - destruct (Execute d req s) as [[?|?] ?]; [by apply held_released|done].
  - destruct (EnsureBlankWarm d s) as [[?|?] ?]; by apply held_released.
  - destruct (isFullNetworkPolicy _) eqn:E; [by left|right].
    pose proof (ends_PrepareFunctionWarm d s req E s (held_refl s)) as H3.
    destruct (PrepareFunctionWarm d req s) as [[?|?] ?]; by apply held_released.
Qed.

(** ** What is sent to Firecracker *)

(** The method leaves the leases alone and makes only calls that [ok] allows. *)
Definition obeys (ok : ApiBody → Prop) {A} (m : VM A) : Prop := ∀ s,
  vm_leases (m s).2 = vm_leases s ∧
  ∃ es, vm_calls (m s).2 = vm_calls s ++ es ∧
        Forall (λ e, ae_leased e = live (vm_leases s) ∧ ok (ac_body (ae_call e))) es.

Create HintDb obeys.

Section Obeys.
Context `{!VmEnv, !MetaJson} (d : VmDriver) (ok : ApiBody → Prop).

Lemma obeys_silent {A} (m : VM A) :
  (∀ s, vm_leases (m s).2 = vm_leases s ∧ vm_calls (m s).2 = vm_calls s) → obeys ok m.
Proof. intros Hm s. destruct (Hm s) as [H1 H2]. split; [done|]. exists []. rewrite app_nil_r. by split. Qed.

Lemma obeys_bind {A B} (m : VM A) (f : A → VM B) : obeys ok m → (∀ a, obeys ok (f a)) → obeys ok (m ≫= f).
Proof.
  intros Hm Hf s. rewrite M_bind_eq. destruct (Hm s) as (H1 & es & H2 & H3).
  destruct (m s) as [[a|e] s']; [|by eauto]. simpl in *. destruct (Hf a s') as (H4 & es' & H5 & H6).
  split; [by rewrite H4|]. exists (es ++ es'). rewrite H5, H2, app_assoc. split; [done|].
  apply Forall_app. split; [done|]. by rewrite <- H1.
Qed.

Lemma obeys_try {A} (m : VM A) : obeys ok m → obeys ok (try m).
Proof. intros Hm s. specialize (Hm s). unfold try. by destruct (m s). Qed.

Lemma obeys_ret {A} (a : A) : obeys ok (mret a : VM A).
Proof. by apply obeys_silent. Qed.

Lemma obeys_fail {A} e : obeys ok (fail e : VM A).
Proof. by apply obeys_silent. Qed.

Lemma obeys_lift {A} r : obeys ok (lift r : VM A).
Proof. by apply obeys_silent. Qed.

Lemma obeys_gets {A} (f : VmState → A) : obeys ok (gets f).
Proof. by apply obeys_silent. Qed.

Lemma obeys_interact {A} (f : nat → A) : obeys ok (interact f).
Proof. by apply obeys_silent. Qed.

Lemma obeys_onProc pid f : obeys ok (onProc pid f).
Proof. by apply obeys_silent. Qed.

Lemma obeys_doneErr pid : obeys ok (doneErr pid).
Proof. by apply obeys_silent. Qed.

Lemma obeys_os {A} (m : M Tree A) : obeys ok (os m).
Proof. apply obeys_silent. intros s. unfold os. destruct (vm_Fault _); [done|]. by destruct (m (vm_tree s)). Qed.

Lemma obeys_osRemoveAll p : obeys ok (osRemoveAll p).
Proof. apply obeys_silent. intros s. unfold osRemoveAll. destruct (vm_Fault _); [done|]. by destruct (RemoveAll p (vm_tree s)). Qed.

Lemma obeys_writeCopy q data : obeys ok (writeCopy q data).
Proof. apply obeys_silent. intros s. unfold writeCopy. by destruct (vm_Fault _). Qed.

Lemma obeys_chown path : obeys ok (chown d path).
Proof. apply obeys_silent. intros s. unfold chown. repeat case_match; done. Qed.

Lemma obeys_allocCID : obeys ok (allocCID d).
Proof. by apply obeys_silent. Qed.

Lemma obeys_MkdirTemp dir prefix : obeys ok (MkdirTemp dir prefix).
Proof. intros s. unfold MkdirTemp. rewrite M_bind_eq. apply (obeys_os _ s). Qed.

Lemma obeys_made layout vmID : obeys ok (made layout vmID).
Proof. by apply obeys_silent. Qed.

Lemma obeys_guestSend (x : Exchange) socket port q : obeys ok (guestSend x socket port q).
Proof.
  apply obeys_silent. intros s. unfold guestSend. repeat case_match; try done. all: rewrite M_bind_eq; unfold lift; by case_match.
Qed.

Lemma obeys_apiRequest pid method path body : ok body → obeys ok (apiRequest pid method path body).
Proof.
  intros Hok. unfold apiRequest. apply obeys_bind.
  - intros s. split; [done|]. eexists [_]. split; [done|]. by repeat constructor.
  - intros _. apply obeys_bind; [apply obeys_interact|]. intros [[status raw]|e]; [case_match|]; first [apply obeys_ret|apply obeys_fail].
Qed.

Lemma obeys_for_each {A} (l : list A) body : (∀ x, obeys ok (body x)) → obeys ok (for_each l body).
Proof. intros Hb. induction l as [|x l IH]; simpl; [apply obeys_ret|]. by apply obeys_bind. Qed.

End Obeys.

#[export] Hint Resolve obeys_ret obeys_fail obeys_lift obeys_gets obeys_interact obeys_onProc obeys_doneErr obeys_os
  obeys_osRemoveAll obeys_writeCopy obeys_chown obeys_allocCID obeys_MkdirTemp obeys_made obeys_guestSend : obeys.

Ltac obeys :=
  repeat first
    [ solve [eauto with obeys nocore]
    | progress intros
    | apply obeys_bind; [|intros]
    | apply obeys_try
    | progress case_match
    | progress cbn zeta ].

Section Sending.
Context `{!VmEnv, !MetaJson} (d : VmDriver) (ok : ApiBody → Prop).

Lemma obeys_layoutCleanup layout : obeys ok (layoutCleanup layout).
Proof. unfold layoutCleanup. apply obeys_bind; [by apply obeys_silent|]. obeys. Qed.

Lemma obeys_prepareLayout attempt : obeys ok (prepareLayout d attempt).
Proof. unfold prepareLayout. apply obeys_bind; [by apply obeys_silent|]. obeys. Qed.

Lemma obeys_awaitExit pid : obeys ok (awaitExit pid).
Proof. unfold awaitExit. obeys. Qed.
#[local] Hint Resolve obeys_layoutCleanup obeys_prepareLayout obeys_awaitExit : obeys.

Lemma obeys_wait pid : obeys ok (wait pid).
Proof. unfold wait. obeys. Qed.

Lemma obeys_procLogs pid : obeys ok (procLogs pid).
Proof. unfold procLogs. obeys. Qed.

Lemma obeys_copyFile a b : obeys ok (copyFile a b).
Proof. unfold copyFile. obeys. Qed.

Lemma obeys_osStat a : obeys ok (osStat a).
Proof. unfold osStat. obeys. Qed.
#[local] Hint Resolve obeys_wait obeys_procLogs obeys_copyFile obeys_osStat : obeys.

Lemma obeys_stageKernel a b : obeys ok (stageKernel a b).
Proof. unfold stageKernel, osLink. obeys. Qed.

Lemma obeys_prepareOwnership layout paths : obeys ok (prepareOwnership d layout paths).
Proof. unfold prepareOwnership. case_match; [obeys|]. apply obeys_for_each. obeys. Qed.

Lemma obeys_staged {A} layout (m : VM A) : obeys ok m → obeys ok (staged layout m).
Proof. intros Hm. unfold staged. obeys. Qed.

Lemma obeys_reported {A} layout pid what (m : VM A) : obeys ok m → obeys ok (reported layout pid what m).
Proof. intros Hm. unfold reported, close. obeys. Qed.

Lemma obeys_started {A} layout pid (m : VM A) : obeys ok m → obeys ok (started layout pid m).
Proof. intros Hm. unfold started, close. obeys. Qed.

Lemma obeys_startVM vmID layout : obeys ok (startVM d vmID layout).
Proof.
  unfold startVM. destruct (if cf_UseJailer (dv_config d) then _ else _) as [[binary args] wd].
  apply obeys_bind; [obeys|]. intros [e|]; [obeys|]. by apply obeys_silent.
Qed.

Lemma obeys_waitForFile path pid : obeys ok (waitForFile path pid).
Proof.
  unfold waitForFile. apply obeys_bind; [obeys|]. intros turns. induction turns as [|t turns IH]; simpl; obeys.
Qed.
#[local] Hint Resolve obeys_stageKernel obeys_prepareOwnership obeys_staged obeys_startVM obeys_waitForFile obeys_reported : obeys.

Lemma obeys_launch layout vmID : obeys ok (launch d layout vmID).
Proof. unfold launch. obeys. Qed.
#[local] Hint Resolve obeys_launch : obeys.

Lemma obeys_put layout pid what path body : ok body → obeys ok (reported layout pid what (put pid path body)).
Proof. intros Hok. by apply obeys_reported, obeys_apiRequest. Qed.

(** Only interfaces are restricted. *)
Context (Hok : ∀ body, (∀ iface dev mac, body ≠ BNetworkInterface iface dev mac) → ok body).

Lemma obeys_bootInstance req network :
  (isFullNetworkPolicy (xr_NetworkPolicy req) = true → ∀ cfg mac, network = Some cfg → ok (BNetworkInterface "eth0" (nc_TapDevice cfg) mac)) →
  obeys ok (bootInstance d req network).
Proof.
  intros Hnet. unfold bootInstance. apply obeys_bind; [obeys|]. intros [layout vmID].
  do 3 (apply obeys_bind; [obeys|]; intros ?). apply obeys_bind; [obeys|]. intros pid.
  apply obeys_bind; [|obeys]. unfold configure. apply obeys_bind; [obeys|]. intros cid.
  apply obeys_bind; [apply obeys_started; obeys|]. intros args.
  do 3 (apply obeys_bind; [by apply obeys_put, Hok|]; intros ?).
  apply obeys_bind; [|intros ?; apply obeys_bind; [by apply obeys_put, Hok|]; intros ?; by apply obeys_put, Hok].
  case_match; [|obeys]. case_match; [by apply obeys_put, Hnet|]. apply obeys_started. obeys.
Qed.

Lemma obeys_restoreInstance req asset : obeys ok (restoreInstance d req asset).
Proof.
  unfold restoreInstance. apply obeys_bind; [obeys|]. intros [layout vmID]. cbn zeta.
  do 4 (apply obeys_bind; [obeys|]; intros ?). apply obeys_bind; [obeys|]. intros pid.
  do 2 (apply obeys_bind; [by apply obeys_reported, obeys_apiRequest, Hok|]; intros ?). obeys.
Qed.

Lemma obeys_streamFrames sink e frames : obeys ok (streamFrames sink e frames).
Proof.
  induction frames as [|f frames IH]; simpl; [obeys|]. apply obeys_bind; [obeys|]. intros frame. case_match; [|obeys].
  apply obeys_bind; [|done]. repeat case_match; [|obeys..]. apply obeys_bind; [obeys|]. intros n.
  apply obeys_bind; [by apply obeys_silent|]. obeys.
Qed.

Lemma obeys_guestRetry {A} (once : VM A) turns last : obeys ok once → obeys ok (guestRetry once turns last).
Proof. intros Ho. revert last. induction turns as [|t turns IH]; intros last; simpl; obeys. Qed.
#[local] Hint Resolve obeys_streamFrames obeys_guestRetry : obeys.

Lemma obeys_finish v req prepared trace : obeys ok (finish d v req prepared trace).
Proof.
  unfold finish, runInvocation. cbn zeta. apply obeys_bind; [|intros [? ?]; obeys]. apply obeys_bind.
  - case_match; unfold invokeGuestStream, invokeGuest, guestStreamRequest, guestRequest, guestStreamRequestOnce, guestRequestOnce;
      repeat (apply obeys_bind || apply obeys_try || apply obeys_guestRetry; intros); obeys.
  - intros [response err]. obeys.
Qed.

Lemma obeys_executeFromSnapshot req asset prepared note : obeys ok (executeFromSnapshotDeferred d req asset prepared note).
Proof.
  unfold executeFromSnapshotDeferred. apply obeys_bind; [apply obeys_try, obeys_restoreInstance|].
  intros [v|e]; [apply obeys_finish|obeys].
Qed.

Lemma obeys_executeCold (req : VmRequest) note network :
  (isFullNetworkPolicy (xr_NetworkPolicy req) = true → ∀ cfg mac, network = Some cfg → ok (BNetworkInterface "eth0" (nc_TapDevice cfg) mac)) →
  obeys ok (executeColdDeferred d req note network).
Proof.
  intros Hnet. unfold executeColdDeferred. apply obeys_bind; [by apply obeys_try, obeys_bootInstance|].
  intros [v|e]; [apply obeys_finish|obeys].
Qed.

Lemma obeys_complete a : obeys ok (complete a).
Proof.
  unfold complete. generalize [sa_statePath a; sa_memoryPath a; sa_rootFSPath a; sa_metadataPath a].
  induction l as [|p l IH]; simpl; obeys.
Qed.

#[local] Hint Resolve obeys_complete : obeys.

Lemma obeys_checkedAsset a accept : obeys ok (checkedAsset a accept).
Proof. unfold checkedAsset, metadata. obeys. Qed.

Lemma obeys_validateHost : obeys ok validateHost.
Proof. unfold validateHost. obeys. Qed.

End Sending.

#[export] Hint Resolve obeys_executeFromSnapshot obeys_executeCold obeys_checkedAsset obeys_complete obeys_validateHost : obeys.

(** ** Networks of guests *)

(** No interface, or only that of a device. *)
Definition interface_ok (dev : option string) (body : ApiBody) : Prop :=
  match body with BNetworkInterface _ dev' _ => dev = Some dev' | _ => True end.

Lemma interface_other dev body : (∀ i v m, body ≠ BNetworkInterface i v m) → interface_ok dev body.
Proof. intros H. destruct body; try done. by destruct (H ifaceID hostDevName guestMAC). Qed.

Lemma obeys_startNetworked `{!VmEnv, !MetaJson} d req cfg :
  obeys (interface_ok (Some (nc_TapDevice cfg))) (startNetworked d req cfg).
Proof.
  assert (∀ asset prepared note, obeys (interface_ok (Some (nc_TapDevice cfg)))
    (executeFromSnapshotDeferred d req asset prepared note)) as Hsnap.
  { intros. apply obeys_executeFromSnapshot, interface_other. }
  unfold startNetworked. apply obeys_bind; [unfold networkFunctionSnapshotAssetForRequest; obeys|].
  intros [asset|]; [apply Hsnap|].
  apply obeys_bind; [unfold networkBlankSnapshotAssetForRequest; obeys|].
  intros [asset|]; [apply Hsnap|]. apply obeys_executeCold; [apply interface_other|]. by intros _ cfg' mac [= <-].
Qed.

Lemma acquire_fresh others pool l pool' : acquire others pool = (Ok l, pool') → nl_done l = false.
Proof.
  revert pool. induction others as [|f others IH]; intros pool; simpl; destruct (acquireNextLocked pool) as [[cfg|] p1];
    [by intros [= <- _]|done|by intros [= <- _]|apply IH].
Qed.

(** The calls of an execution; with the full network they are made under a lease. *)
Definition network_calls (full : bool) (s s' : VmState) (es : list ApiEntry) : Prop :=
  if full then
    es = [] ∨ ∃ l, vm_leases s' !! length (vm_leases s) = Some l ∧
      Forall (λ e, leaseTap l ∈ ae_leased e ∧ interface_ok (Some (nc_TapDevice (nl_cfg l))) (ac_body (ae_call e))) es
  else Forall (λ e, interface_ok None (ac_body (ae_call e))) es.

Lemma live_new ls l : nl_done l = false → leaseTap l ∈ live (ls ++ [l]).
Proof.
  intros Hl. unfold live. rewrite filter_app, fmap_app. apply elem_of_app. right.
  rewrite filter_cons_True by done. by apply list_elem_of_singleton.
Qed.

Lemma networked_calls `{!VmEnv, !MetaJson} d req s :
  ∃ es, vm_calls (executeNetworked d req s).2 = vm_calls s ++ es ∧
        network_calls true s (executeNetworked d req s).2 es.
Proof.
  assert (∀ s', vm_calls s' = vm_calls s → ∃ es, vm_calls s' = vm_calls s ++ es ∧ network_calls true s s' es) as Hnone.
  { intros s' E. exists []. rewrite app_nil_r. split; [done|by left]. }
  unfold executeNetworked. rewrite M_bind_eq. unfold try, poolAcquire.
  destruct (vm_pool s) as [pool|]; [|by apply Hnone].
  destruct (acquire _ pool) as [[l|e] pool'] eqn:Ea; [|by apply Hnone].
  apply acquire_fresh in Ea. set (s1 := s <| vm_step := _ |> <| vm_pool := _ |> <| vm_leases := _ |>).
  assert (vm_leases s1 = vm_leases s ++ [l]) as El by done.
  assert (vm_leases s1 !! length (vm_leases s) = Some l) as Eidx by by rewrite El, lookup_app_r, Nat.sub_diag by lia.
  unfold leaseCfg. rewrite M_bind_eq. cbn [gets]. rewrite Eidx, M_bind_eq.
  destruct (obeys_startNetworked d req (nl_cfg l) s1) as (H1 & es & H2 & H3).
  destruct (startNetworked d req (nl_cfg l) s1) as [[r|e] s2]; cbn [snd] in H1, H2 |- *; rewrite El in H1.
  - assert (∃ l2, vm_calls (withLease (length (vm_leases s)) r s2).2 = vm_calls s2 ∧
      vm_leases (withLease (length (vm_leases s)) r s2).2 !! length (vm_leases s) = Some l2 ∧ nl_cfg l2 = nl_cfg l)
      as (l2 & E1 & E2 & E3).
    { rewrite El, <- H1 in Eidx. unfold withLease. destruct (df_cleanup r); [by exists l|]. rewrite M_bind_eq.
      unfold leaseRelease. rewrite Eidx. exists (mkNetworkLease (nl_cfg l) true). split_and!; [done| |done].
      apply (list_lookup_insert_eq (vm_leases s2)). by apply lookup_lt_Some in Eidx. }
    exists es. rewrite E1, H2. split; [done|]. right. exists l2. split; [done|]. unfold leaseTap at 1. rewrite E3.
    eapply Forall_impl; [exact H3|]. intros e [He1 He2]. split; [|done]. rewrite He1, El. by apply live_new.
  - exists es. rewrite H2. split; [done|]. right. exists l. rewrite H1, <- El. split; [done|].
    eapply Forall_impl; [exact H3|]. intros x [He1 He2]. split; [|done]. rewrite He1, El. by apply live_new.
Qed.

(** C14: networks of guests.  An execution without the full network policy never
    configures a network interface.  One with it talks to Firecracker only while
    it holds the lease of a tap device, from the first call to the last, and the
    only interface it configures is that device. *)
Theorem guest_networks (Env : VmEnv) (J : MetaJson) (d : VmDriver) (req : VmRequest) (s : VmState) :
  ∃ es, vm_calls (ExecuteDeferred d req s).2 = vm_calls s ++ es ∧
        network_calls (isFullNetworkPolicy (xr_NetworkPolicy req)) s (ExecuteDeferred d req s).2 es.
Proof.
  assert (∀ s', vm_calls s' = vm_calls s → ∃ es, vm_calls s' = vm_calls s ++ es ∧
    network_calls (isFullNetworkPolicy (xr_NetworkPolicy req)) s s' es) as Hnone.
  { intros s' E. exists []. rewrite app_nil_r. split; [done|]. unfold network_calls. case_match; [by left|done]. }
  unfold ExecuteDeferred. rewrite M_bind_eq.
  destruct (obeys_try (λ _, False) _ (obeys_validateHost (λ _, False)) s) as (H1 & es & H2 & H3).
  assert (es = []) as -> by (destruct es as [|x es]; [done|]; by apply Forall_cons in H3 as [[_ []] _]).
  rewrite app_nil_r in H2. destruct (try validateHost s) as [[[u|e]|e] s1]; simpl in H1, H2; [|by apply Hnone..].
  cbn zeta. set (r0 := if (xr_MemoryMB req <=? 0)%Z then _ else _).
  assert (xr_NetworkPolicy r0 = xr_NetworkPolicy req) as -> by (unfold r0; by case_match).
  destruct (isFullNetworkPolicy (xr_NetworkPolicy req)) eqn:Ep.
  - destruct (networked_calls d r0 s1) as (es & E1 & E2). exists es. rewrite E1, H2. split; [done|].
    unfold network_calls in *. by rewrite H1 in E2.
  - assert (obeys (interface_ok None) (functionAsset ← functionSnapshotAsset d (xr_FunctionID r0);
      match functionAsset with
      | Some asset => executeFromSnapshotDeferred d r0 asset true "startMode=function-warm"
      | None => blankAsset ← blankSnapshotAssetForRequest d r0;
          match blankAsset with
          | Some asset => executeFromSnapshotDeferred d r0 asset false "startMode=blank-warm"
          | None => executeColdDeferred d r0 "startMode=cold" None
          end
      end)) as Ho.
    { apply obeys_bind; [unfold functionSnapshotAsset; obeys|]. intros [asset|]; [apply obeys_executeFromSnapshot, interface_other|].
      apply obeys_bind; [unfold blankSnapshotAssetForRequest; obeys|].
      intros [asset|]; [apply obeys_executeFromSnapshot, interface_other|apply obeys_executeCold; [apply interface_other|done]]. }
    destruct (Ho s1) as (_ & es & E1 & E2). exists es. rewrite E1, H2. split; [done|]. unfold network_calls.
    eapply Forall_impl; [exact E2|]. by intros x [_ ?].
Qed.

(** ** How often a guest is asked *)

Section Attempts.
Context `{!VmEnv}.
Implicit Types (x : string * Z * GuestRequest).

(** An exchange in which the guest gets the request. *)
Definition reaches (q : GuestRequest) (x : Exchange) : Prop :=
  is_ok (json_MarshalGuestRequest q) = true ∧
  ge_Dial x = None ∧ ge_Connect x = None ∧ ∃ line, ge_Line x = Ok line ∧ HasPrefix (TrimSpace line) "OK" = true.

(** The answer is lost: sending reports an error, or nothing can be read or
    decoded. *)
Definition answer_lost (q : GuestRequest) (x : Exchange) : Prop :=
  reaches q x ∧ (is_Some (ge_Send x) ∨
    ∀ text, head (ge_Messages x) = Some text → is_ok (json_UnmarshalGuestResponse text) = false).

(** The guest's answer arrives. *)
Definition answered (q : GuestRequest) (x : Exchange) : Prop :=
  reaches q x ∧ ge_Send x = None ∧
  ∃ text rest, ge_Messages x = text :: rest ∧ is_ok (json_UnmarshalGuestResponse text) = true.

(** The first event of the response is refused by the sink. *)
Definition event_refused (sink : Sink) (q : GuestRequest) (x : Exchange) : Prop :=
  reaches q x ∧ ge_Send x = None ∧ ∃ text f ev rest g, ge_Messages x = text :: rest ∧
    json_UnmarshalGuestFrame text = Ok f ∧
    gf_Type f = GuestStreamFrameHTTPEvent ∧ gf_HTTPEvent f = Some ev ∧ sink = Some g ∧ ∀ n, is_Some (g n ev).

(** The sink takes all events up to the final frame. *)
Fixpoint stream_taken (sink : Sink) (texts : list string) : Prop :=
  match texts with
  | [] => False
  | text :: rest =>
      match json_UnmarshalGuestFrame text with
      | Err _ => False
      | Ok f =>
          if bool_decide (gf_Type f = GuestStreamFrameHTTPEvent) then
            (∀ g ev n, sink = Some g → gf_HTTPEvent f = Some ev → g n ev = None) ∧ stream_taken sink rest
          else True
      end
  end.

Definition stream_answered (sink : Sink) (q : GuestRequest) (x : Exchange) : Prop :=
  reaches q x ∧ ge_Send x = None ∧ stream_taken sink (ge_Messages x).

(** One attempt is one step of the outside and sends the request at most once. *)
Definition sends_once {A} x (m : VM A) : Prop := ∀ s,
  vm_step (m s).2 = S (vm_step s) ∧ ∃ k, k ≤ 1 ∧ vm_guest (m s).2 = vm_guest s ++ replicate k x.

(** The attempt that is the [n]-th step sends it and fails, or succeeds. *)
Definition loses {A} x (m : VM A) (n : nat) : Prop :=
  ∀ s, vm_step s = n → ∃ e, (m s).1 = Err e ∧ vm_guest (m s).2 = vm_guest s ++ [x].
Definition answers {A} x (m : VM A) (n : nat) : Prop :=
  ∀ s, vm_step s = n → ∃ a, (m s).1 = Ok a ∧ vm_guest (m s).2 = vm_guest s ++ [x].

(** How often [x] has been sent between two states, turn [i] having an answer that
    arrives ([got i]) or gets lost ([lost i]): at most once in each turn, never
    again after an answer; in every turn as long as the answers are lost, and
    then until the first that arrives. *)
Definition asked x (turns : list (option GoError)) (lost got : nat → Prop) (s s' : VmState) : Prop :=
  let sent k := vm_guest s' = vm_guest s ++ replicate k x in
  let all_lost i := ∀ j, j < i → turns !! j = Some None ∧ lost j in
  (∃ k, k ≤ length turns ∧ sent k ∧ ∀ i, i < length turns → got i → k ≤ S i) ∧
  (∀ i, i < length turns → all_lost i → got i → sent (S i)) ∧
  (all_lost (length turns) → sent (length turns)).

Lemma guestRetry_most {A} x (once : VM A) turns last s :
  sends_once x once → ∃ k, k ≤ length turns ∧ vm_guest (guestRetry once turns last s).2 = vm_guest s ++ replicate k x ∧
    ∀ i, i < length turns → answers x once (vm_step s + i) → k ≤ S i.
Proof.
  intros Ho. revert last s. induction turns as [|t turns IH]; intros last s; simpl.
  { exists 0. rewrite app_nil_r. split_and!; [done..|]. intros i Hi. lia. }
  rewrite M_bind_eq. unfold try. destruct (Ho s) as (Hst & k & Hk & E).
  destruct (once s) as [[a|e] s'] eqn:Es; simpl in E, Hst.
  { exists k. split_and!; [lia|done|]. intros; lia. }
  destruct t as [e'|].
  { exists k. split_and!; [lia|done|]. intros; lia. }
  destruct (IH (Some e) s') as (k' & Hk' & E' & Hans). exists (k + k').
  split_and!; [lia|by rewrite E', E, <- app_assoc, replicate_add|].
  intros [|i] Hi Ha.
  - destruct (Ha s) as (a & Ea & _); [lia|]. by rewrite Es in Ea.
  - specialize (Hans i). rewrite Hst in Hans. rewrite <- plus_n_Sm in Ha. specialize (Hans ltac:(lia) Ha). lia.
Qed.

Lemma guestRetry_lost {A} x (once : VM A) turns last s i :
  sends_once x once → i ≤ length turns → (∀ j, j < i → turns !! j = Some None ∧ loses x once (vm_step s + j)) →
  (i < length turns → answers x once (vm_step s + i)) →
  vm_guest (guestRetry once turns last s).2 =
    vm_guest s ++ replicate (if decide (i < length turns) then S i else i) x.
Proof.
  intros Ho. revert last s i. induction turns as [|t turns IH]; intros last s i Hi Hl Ha; simpl in *.
  { assert (i = 0) as -> by lia. by rewrite app_nil_r. }
  rewrite M_bind_eq. unfold try. destruct i as [|i].
  - rewrite decide_True by lia. destruct (Ha ltac:(lia) s) as (a & Ea & Eg); [lia|].
    destruct (once s) as [r s']; simpl in Ea, Eg. by subst r.
  - destruct (Hl 0) as [[= ->] H0]; [lia|]. destruct (Ho s) as [Hst _].
    destruct (H0 s) as (e & Ee & Eg); [lia|].
    destruct (once s) as [r s']; simpl in Ee, Eg, Hst. subst r.
    rewrite (IH (Some e) s' i), Eg, <- app_assoc; [|lia|..].
    + f_equal. destruct (decide (i < length turns)), (decide (S i < S (length turns))); try lia; done.
    + intros j Hj. rewrite Hst. destruct (Hl (S j)) as [H1 H2]; [lia|]. split; [exact H1|]. by rewrite <- plus_n_Sm in H2.
    + intros Hi'. rewrite Hst. specialize (Ha ltac:(lia)). by rewrite <- plus_n_Sm in Ha.
Qed.

Lemma guestRetry_asked {A} x (once : VM A) turns last s (lost got : nat → Prop) :
  sends_once x once →
  (∀ i, lost i → loses x once (vm_step s + i)) → (∀ i, got i → answers x once (vm_step s + i)) →
  asked x turns lost got s (guestRetry once turns last s).2.
Proof.
  intros Ho Hlost Hgot. split_and!.
  - destruct (guestRetry_most x once turns last s Ho) as (k & Hk & E & Ha). exists k. split_and!; [done..|]. eauto.
  - intros i Hi Hl Hg. pose proof (guestRetry_lost x once turns last s i Ho) as E. rewrite decide_True in E by done.
    apply E; [lia| |by eauto]. intros j Hj. destruct (Hl j Hj). eauto.
  - intros Hl. pose proof (guestRetry_lost x once turns last s (length turns) Ho) as E. rewrite decide_False in E by lia.
    apply E; [lia| |lia]. intros j Hj. destruct (Hl j Hj). eauto.
Qed.

Lemma guestSend_once (ex : Exchange) socket port q s :
  vm_step (guestSend ex socket port q s).2 = vm_step s ∧
  ∃ k, k ≤ 1 ∧ vm_guest (guestSend ex socket port q s).2 = vm_guest s ++ replicate k (socket, port, q).
Proof.
  unfold guestSend. destruct (ge_Dial ex), (ge_Connect ex), (ge_Line ex); simpl;
    try (split; [done|exists 0; rewrite app_nil_r; split; [lia|done]]).
  case_match; [split; [done|exists 0; rewrite app_nil_r; split; [lia|done]]|]. rewrite M_bind_eq. unfold lift.
  destruct (json_MarshalGuestRequest q); [|split; [done|exists 0; rewrite app_nil_r; split; [lia|done]]].
  rewrite M_bind_eq. cbn [modify]. split; [by destruct (ge_Send ex)|]. exists 1. split; [lia|]. by destruct (ge_Send ex).
Qed.

Lemma guestSend_reaches (ex : Exchange) socket port q s :
  reaches q ex → guestSend ex socket port q s =
    (match ge_Send ex with Some e => Err e | None => Ok (ge_Messages ex, ge_End ex) end,
     s <| vm_guest := vm_guest s ++ [(socket, port, q)] |>).
Proof.
  intros (H0 & H1 & H2 & line & H3 & H4). unfold guestSend. rewrite H1, H2, H3, H4. simpl. rewrite M_bind_eq. unfold lift.
  destruct (json_MarshalGuestRequest q); [|done]. rewrite M_bind_eq. cbn [modify]. by destruct (ge_Send ex).
Qed.

(** The frames of an answer: nothing is sent, and all are taken. *)
Lemma streamFrames_silent sink e texts s :
  vm_guest (streamFrames sink e texts s).2 = vm_guest s ∧ vm_step (streamFrames sink e texts s).2 = vm_step s ∧
  (stream_taken sink texts → ∃ f, (streamFrames sink e texts s).1 = Ok f).
Proof.
  revert s. induction texts as [|text texts IH]; intros s; simpl; [done|]. rewrite M_bind_eq. unfold lift.
  destruct (json_UnmarshalGuestFrame text) as [f|e']; [|done]. case_bool_decide; [|by split_and!; eauto].
  rewrite M_bind_eq. destruct sink as [g|]; [|cbn [mret]; destruct (IH s) as (? & ? & ?); split_and!; [done..|]; intros [_ ?]; auto].
  destruct (gf_HTTPEvent f) as [ev|]; [|destruct (IH s) as (? & ? & ?); split_and!; [done..|]; intros [_ ?]; auto].
  rewrite M_bind_eq. cbn [gets]. rewrite M_bind_eq. cbn [modify].
  match goal with |- context [g ?n ev] => destruct (g n ev) eqn:Eg end.
  - split_and!; [done..|]. intros [Hg _]. by rewrite (Hg g ev _ eq_refl eq_refl) in Eg.
  - cbn [mret M_ret]. match goal with |- context [streamFrames _ _ _ ?s'] => destruct (IH s') as (H1 & H2 & H3) end.
    split_and!; [exact H1|exact H2|]. intros [_ Ht]. auto.
Qed.

Lemma guestRequestOnce_once socket port q : sends_once (socket, port, q) (guestRequestOnce socket port q).
Proof.
  intros s. unfold guestRequestOnce. rewrite M_bind_eq. unfold interact. rewrite M_bind_eq.
  set (s1 := s <| vm_tree := _ |> <| vm_step := _ |>). set (ex := vm_Exchange _ _ _).
  destruct (guestSend_once ex socket port q s1) as [Hst Hk].
  destruct (guestSend ex socket port q s1) as [[[l e]|e] s2]; [|by split]. destruct l; [by split|]. unfold lift. by split.
Qed.

Lemma guestStreamRequestOnce_once socket port q sink : sends_once (socket, port, q) (guestStreamRequestOnce socket port q sink).
Proof.
  intros s. unfold guestStreamRequestOnce. rewrite M_bind_eq. unfold interact. rewrite M_bind_eq.
  set (s1 := s <| vm_tree := _ |> <| vm_step := _ |>). set (ex := vm_StreamExchange _ _ _).
  destruct (guestSend_once ex socket port q s1) as [Hst Hk].
  destruct (guestSend ex socket port q s1) as [[[l e]|e] s2]; [|by split].
  destruct (streamFrames_silent sink e l s2) as (E1 & E2 & _). by rewrite E1, E2.
Qed.

Lemma guestRequestOnce_fares socket port q n :
  (answer_lost q (vm_Exchange n socket q) → loses (socket, port, q) (guestRequestOnce socket port q) n) ∧
  (answered q (vm_Exchange n socket q) → answers (socket, port, q) (guestRequestOnce socket port q) n).
Proof.
  split.
  - intros [Hr Hm] s Hn. unfold guestRequestOnce. rewrite M_bind_eq. unfold interact. rewrite M_bind_eq, Hn.
    rewrite (guestSend_reaches _ _ _ _ _ Hr). destruct (ge_Send _); [by eexists|]. destruct Hm as [[? ?]|Hm]; [done|].
    destruct (ge_Messages _) as [|text rest]; [by eexists|]. unfold lift. specialize (Hm text eq_refl).
    destruct (json_UnmarshalGuestResponse text); [done|by eexists].
  - intros (Hr & Hs & text & rest & Hm & Hu) s Hn. unfold guestRequestOnce. rewrite M_bind_eq. unfold interact.
    rewrite M_bind_eq, Hn, (guestSend_reaches _ _ _ _ _ Hr), Hs, Hm. unfold lift.
    destruct (json_UnmarshalGuestResponse text); [by eexists|done].
Qed.

Lemma guestStreamRequestOnce_fares socket port q sink n :
  (event_refused sink q (vm_StreamExchange n socket q) → loses (socket, port, q) (guestStreamRequestOnce socket port q sink) n) ∧
  (stream_answered sink q (vm_StreamExchange n socket q) → answers (socket, port, q) (guestStreamRequestOnce socket port q sink) n).
Proof.
  split.
  - intros (Hr & Hs & text & f & ev & rest & g & Hm & Hf & Hty & Hev & -> & Hg) s Hn.
    unfold guestStreamRequestOnce. rewrite M_bind_eq. unfold interact. rewrite M_bind_eq, Hn.
    rewrite (guestSend_reaches _ _ _ _ _ Hr), Hs, Hm. cbn [streamFrames]. rewrite M_bind_eq. unfold lift. rewrite Hf, Hty, Hev.
    rewrite bool_decide_eq_true_2 by done. rewrite M_bind_eq. rewrite M_bind_eq. cbn [gets]. rewrite M_bind_eq. cbn [modify].
    match goal with |- context [g ?n ev] => destruct (Hg n) as [e ->] end. by exists e.
  - intros (Hr & Hs & Ht) s Hn. unfold guestStreamRequestOnce. rewrite M_bind_eq. unfold interact.
    rewrite M_bind_eq, Hn, (guestSend_reaches _ _ _ _ _ Hr), Hs.
    match goal with |- context [streamFrames ?a ?b ?c ?s'] => destruct (streamFrames_silent a b c s') as (E & _ & Ha) end.
    rewrite E. destruct (Ha Ht) as [f ->]. by eexists.
Qed.

End Attempts.

(** C15: how often an invocation reaches its guest.  With [turns] the turns for
    which there is time, in the [i]-th of which the outside gives the exchange
    [exchange i]: the guest gets the same request at most once in each turn and
    never again after an answer has arrived.  A request whose answers get lost is
    sent in every turn, although the guest has run it each time, until the first
    answer that arrives or the end of the turns.  The same holds of a streamed
    request, where an answer has arrived when the caller has taken all events and
    is lost when the caller refuses the first. *)
Theorem guest_attempts (Env : VmEnv) (socket : string) (port : Z) (inv : GuestInvocationRequest) (sink : Sink) (s : VmState) :
  let q := mkGuestRequest GuestActionExecute false None (Some inv) in
  let turns := vm_Turns (vm_step s) in
  let exchange i := vm_Exchange (S (vm_step s) + i) socket q in
  let stream i := vm_StreamExchange (S (vm_step s) + i) socket q in
  asked (socket, port, q) turns (λ i, answer_lost q (exchange i)) (λ i, answered q (exchange i))
    s (invokeGuest socket port inv s).2 ∧
  asked (socket, port, q) turns (λ i, event_refused sink q (stream i)) (λ i, stream_answered sink q (stream i))
    s (invokeGuestStream socket port inv sink s).2.
Proof.
  intros q turns exchange stream.
  set (s1 := s <| vm_tree := vm_Outside (vm_step s) (vm_tree s) |> <| vm_step := S (vm_step s) |>). split.
  - assert (vm_guest (invokeGuest socket port inv s).2 = vm_guest (guestRetry (guestRequestOnce socket port q) turns None s1).2) as E.
    { unfold invokeGuest, guestRequest. rewrite M_bind_eq. unfold try. rewrite M_bind_eq. unfold interact. fold s1 q turns.
      by destruct (guestRetry _ turns None s1) as [[?|?] ?]. }
    unfold asked. rewrite E. apply (guestRetry_asked _ _ _ _ s1).
    + apply guestRequestOnce_once.
    + intros i. apply guestRequestOnce_fares.
    + intros i. apply guestRequestOnce_fares.
  - assert (vm_guest (invokeGuestStream socket port inv sink s).2 =
      vm_guest (guestRetry (guestStreamRequestOnce socket port q sink) turns None s1).2) as E.
    { unfold invokeGuestStream, guestStreamRequest. rewrite M_bind_eq. unfold try. rewrite M_bind_eq. unfold interact.
      fold s1 q turns. by destruct (guestRetry _ turns None s1) as [[?|?] ?]. }
    unfold asked. rewrite E. apply (guestRetry_asked _ _ _ _ s1).
    + apply guestStreamRequestOnce_once.
    + intros i. apply guestStreamRequestOnce_fares.
    + intros i. apply guestStreamRequestOnce_fares.
Qed.

(** ** Guest identifiers *)

(** The state after some allocations. *)
Definition afterCIDs (d : VmDriver) (n : nat) (s : VmState) : VmState := Nat.iter n (λ s, (allocCID d s).2) s.

Lemma nextCID_iter d n s :
  let start := cf_GuestCIDStart (dv_config d) in
  (0 ≤ start < 2 ^ 32)%Z → (start ≤ vm_nextCID s < 2 ^ 32)%Z →
  vm_nextCID (afterCIDs d n s) = (start + (vm_nextCID s - start + Z.of_nat n) mod (2 ^ 32 - start))%Z.
Proof.
  intros start Hst Hs. induction n as [|n IH].
  { simpl. rewrite Z.add_0_r, Z.mod_small; lia. }
  unfold afterCIDs in *. rewrite Nat.iter_succ. set (s' := Nat.iter n _ s) in *.
  change (vm_nextCID (allocCID d s').2) with
    (if (uint32_of (vm_nextCID s' + 1) <? start)%Z then start else uint32_of (vm_nextCID s' + 1)).
  rewrite IH. unfold uint32_of. set (m := (2 ^ 32 - start)%Z) in *. set (a := (vm_nextCID s - start + Z.of_nat n)%Z).
  assert (0 < m)%Z as Hm by lia. pose proof (Z.mod_pos_bound a m Hm) as Hb.
  replace (vm_nextCID s - start + Z.of_nat (S n))%Z with (a + 1)%Z by lia.
  rewrite <- (Z.add_mod_idemp_l a 1 m) by lia. set (b := (a mod m)%Z) in *.
  destruct (decide (b + 1 = m)%Z) as [E|E].
  - replace (start + b + 1)%Z with (2 ^ 32)%Z by lia. rewrite E, !Z.mod_same by lia.
    destruct (Z.ltb_spec 0 start); lia.
  - rewrite (Z.mod_small (start + b + 1)), (Z.mod_small (b + 1)) by lia. destruct (Z.ltb_spec (start + b + 1) start); lia.
Qed.

(** Context identifiers of guests.  They never fall below the configured
    start, also after the 32-bit counter wraps around, and an identifier is not
    given out again before all others of the range have been. *)
Theorem guest_cids (d : VmDriver) (s : VmState) (i j : nat)
    (Hstart : (0 ≤ cf_GuestCIDStart (dv_config d) < 2 ^ 32)%Z)
    (Hnext : (cf_GuestCIDStart (dv_config d) ≤ vm_nextCID s < 2 ^ 32)%Z)
    (Hij : i < j) (Hrange : (Z.of_nat (j - i) < 2 ^ 32 - cf_GuestCIDStart (dv_config d))%Z) :
  (cf_GuestCIDStart (dv_config d) ≤ vm_nextCID (afterCIDs d i s) < 2 ^ 32)%Z ∧
  vm_nextCID (afterCIDs d i s) ≠ vm_nextCID (afterCIDs d j s).
Proof.
  rewrite !nextCID_iter by done. set (start := cf_GuestCIDStart (dv_config d)) in *. set (m := (2 ^ 32 - start)%Z) in *.
  assert (0 < m)%Z as Hm by lia. split; [pose proof (Z.mod_pos_bound (vm_nextCID s - start + Z.of_nat i) m Hm); lia|].
  intros E. apply Z.add_cancel_l in E.
  assert (((Z.of_nat (j - i)) mod m)%Z = 0%Z) as E0.
  { replace (Z.of_nat (j - i)) with ((vm_nextCID s - start + Z.of_nat j) - (vm_nextCID s - start + Z.of_nat i))%Z by lia.
    rewrite Zminus_mod, E, Z.sub_diag. by apply Z.mod_0_l; lia. }
  rewrite Z.mod_small in E0 by lia. lia.
Qed.

Lemma guest_cids_witness :
  let d := mkVmDriver (withDefaults "/tmp" 0 0 (mkConfig "f" "" "/k" "/r" "" "" "" false "" 0 0 0 0 "" "" "" "" "" "" "" 0 ""
             0 0 0 0 0 0 0 0)) [] in
  let s := mkVmState (mkTree ∅ ∅ ∅) ∅ None [] (2 ^ 32 - 1) [] [] [] [] [] [] 0 in
  vm_nextCID (afterCIDs d 1 s) = 3000%Z ∧ vm_nextCID (afterCIDs d 0 s) ≠ vm_nextCID (afterCIDs d 1 s).
Proof. split; [reflexivity|]. by apply (guest_cids _ _ 0 1); vm_compute. Defined.
