(* ===== verification/SnapshotSound.v ===== *)
(** * SnapshotSound: the snapshot directory

    The invariant of the assets below the snapshot directory: the metadata of a
    published asset says what the place of the asset says.  It holds after any
    sequence of calls of the driver, whatever fails on the way, because an asset
    is written in a temporary directory and published by one rename.

    The file system has no symbolic links, and the rest of the host does not
    write below the snapshot directory. *)

From Stdlib Require Import Ascii.
From stdpp Require Import base decidable tactics numbers list gmap strings pretty.
From S2P Require Import Prelude Text Domain MemStore World Scheduler Artifacts Files NetworkPool NodeAgent GuestProto.
From S2P Require Import MicroVM Snapshot SnapshotFacts.

(** ** Invariants of the file system *)

Create HintDb tree.

Section Trees.
Context `{!VmEnv, !MetaJson} (d : VmDriver) (P : Tree → Prop).
Context (HP : ∀ n t, P t → P (vm_Outside n t)).

Abbreviation I := (λ s, P (vm_tree s)).

(** A method that does not touch the file system itself. *)
Lemma tree_same {A} (m : VM A) : (∀ s, vm_tree (m s).2 = vm_tree s) → preserves I m.
Proof. intros Hm s Hs. split; [by rewrite Hm|done]. Qed.

Lemma tree_interact {A} (f : nat → A) : preserves I (interact f).
Proof. intros s Hs. split; [by apply HP|done]. Qed.

Lemma tree_os {A} (V : A → Prop) (m : M Tree A) : keeps P V m → keeps I V (os m).
Proof.
  intros Hm s Hs. unfold os. destruct (vm_Fault _); [done|]. destruct (Hm _ Hs) as [H1 H2].
  by destruct (m (vm_tree s)) as [r t].
Qed.

Lemma tree_read {A} (f : Tree → result A) : preserves I (os (λ t, (f t, t))).
Proof. apply tree_os. by intros t Ht. Qed.

Lemma tree_osStat path : preserves I (osStat path).
Proof. apply tree_read. Qed.

Lemma tree_chown path : preserves I (chown d path).
Proof. apply tree_same. intros s. unfold chown. repeat case_match; done. Qed.

Lemma tree_onProc pid f : preserves I (onProc pid f).
Proof. by apply tree_same. Qed.

Lemma tree_doneErr pid : preserves I (doneErr pid).
Proof. by apply tree_same. Qed.

Lemma tree_made layout vmID : keeps I (λ r, r = (layout, vmID)) (made layout vmID).
Proof. intros s Hs. split; [done|]. by intros r [= <-]. Qed.

Lemma tree_allocCID : preserves I (allocCID d).
Proof. by apply tree_same. Qed.

Lemma tree_now : preserves I now.
Proof. by apply tree_same. Qed.

Lemma tree_poolAcquire f : preserves I (poolAcquire f).
Proof. apply tree_same. intros s. unfold poolAcquire. repeat case_match; done. Qed.

Lemma tree_leaseRelease i : preserves I (leaseRelease i).
Proof. apply tree_same. intros s. unfold leaseRelease. by case_match. Qed.

Lemma tree_guestSend (x : Exchange) socket port q : preserves I (guestSend x socket port q).
Proof.
  apply tree_same. intros s. unfold guestSend. repeat case_match; try done. all: rewrite M_bind_eq; unfold lift; by case_match.
Qed.

Lemma tree_any {A} (V : A → Prop) (m : VM A) : keeps I V m → preserves I m.
Proof. intros Hm. by eapply keeps_mono. Qed.

Lemma tree_bind {A B} (m : VM A) (f : A → VM B) : preserves I m → (∀ a, preserves I (f a)) → preserves I (m ≫= f).
Proof. intros Hm Hf. eapply keeps_bind; [exact Hm|]. intros a _. apply Hf. Qed.

Lemma tree_try {A} (m : VM A) : preserves I m → preserves I (try m).
Proof. intros Hm. eapply keeps_mono; [by apply keeps_try|done]. Qed.

Lemma tree_ret {A} (a : A) : preserves I (mret a).
Proof. by apply keeps_ret. Qed.

Lemma tree_fail {A} e : preserves I (fail e : VM A).
Proof. apply keeps_fail. Qed.

Lemma tree_lift {A} (r : result A) : preserves I (lift r).
Proof. by apply keeps_lift. Qed.

Lemma tree_gets {A} (f : VmState → A) : preserves I (gets f).
Proof. by apply keeps_gets. Qed.

#[local] Hint Resolve tree_interact tree_read tree_osStat tree_chown tree_onProc tree_doneErr tree_allocCID tree_now
  tree_poolAcquire tree_leaseRelease tree_guestSend tree_ret tree_fail tree_lift tree_gets : tree.

Ltac tree :=
  repeat first
    [ solve [eauto with tree nocore]
    | progress intros
    | apply tree_bind
    | apply tree_try
    | progress case_match
    | progress cbn zeta ].

Lemma tree_awaitExit pid : preserves I (awaitExit pid).
Proof. unfold awaitExit. tree. Qed.
#[local] Hint Resolve tree_awaitExit : tree.

Lemma tree_wait pid : preserves I (wait pid).
Proof. unfold wait. tree. Qed.

Lemma tree_terminate pid : preserves I (terminate pid).
Proof. unfold terminate. tree. Qed.

Lemma tree_procLogs pid : preserves I (procLogs pid).
Proof. unfold procLogs. tree. Qed.

Lemma tree_apiRequest pid method path body : preserves I (apiRequest pid method path body).
Proof. unfold apiRequest. apply tree_bind; [by apply tree_same|]. tree. Qed.

Lemma tree_waitForFile path pid : preserves I (waitForFile path pid).
Proof. unfold waitForFile. apply tree_bind; [tree|]. intros turns. induction turns as [|t turns IH]; simpl; tree. Qed.

Lemma tree_streamFrames sink e frames : preserves I (streamFrames sink e frames).
Proof.
  induction frames as [|f frames IH]; simpl; [tree|]. apply tree_bind; [tree|]. intros frame. case_match; [|tree].
  apply tree_bind; [|done]. repeat case_match; [|tree..]. apply tree_bind; [tree|]. intros n.
  apply tree_bind; [by apply tree_same|]. tree.
Qed.

Lemma tree_guestRetry {A} (once : VM A) turns last : preserves I once → preserves I (guestRetry once turns last).
Proof. intros Ho. revert last. induction turns as [|t turns IH]; intros last; simpl; tree. Qed.
#[local] Hint Resolve tree_wait tree_terminate tree_procLogs tree_apiRequest tree_waitForFile tree_streamFrames : tree.

Lemma tree_guestRequest socket port q : preserves I (guestRequest socket port q).
Proof.
  unfold guestRequest. apply tree_bind; [tree|]. intros turns. apply tree_guestRetry. unfold guestRequestOnce. tree.
Qed.

Lemma tree_guestStreamRequest socket port q sink : preserves I (guestStreamRequest socket port q sink).
Proof.
  unfold guestStreamRequest. apply tree_bind; [tree|]. intros turns. apply tree_guestRetry.
  unfold guestStreamRequestOnce. tree.
Qed.
#[local] Hint Resolve tree_guestRequest tree_guestStreamRequest : tree.

Lemma tree_runInvocation v req prepared : preserves I (runInvocation d v req prepared).
Proof. unfold runInvocation, invokeGuest, invokeGuestStream. tree. Qed.

Lemma tree_pingGuest socket port : preserves I (pingGuest socket port).
Proof. unfold pingGuest. tree. Qed.

Lemma tree_prepareGuest socket port q : preserves I (prepareGuest socket port q).
Proof. unfold prepareGuest. tree. Qed.

Lemma tree_complete a : preserves I (complete a).
Proof.
  unfold complete. generalize [sa_statePath a; sa_memoryPath a; sa_rootFSPath a; sa_metadataPath a].
  induction l as [|p l IH]; simpl; tree.
Qed.
#[local] Hint Resolve tree_complete : tree.

Lemma tree_checkedAsset a accept : preserves I (checkedAsset a accept).
Proof. unfold checkedAsset, metadata. tree. Qed.

Lemma tree_finally {A B} (m : VM A) (after : VM B) : preserves I m → preserves I after → preserves I (finally m after).
Proof. intros Hm Ha. unfold finally. tree. Qed.

Lemma tree_for_each {A} (l : list A) (body : A → VM unit) : (∀ x, x ∈ l → preserves I (body x)) → preserves I (for_each l body).
Proof. intros Hb. by apply keeps_for_each. Qed.

End Trees.

#[export] Hint Resolve tree_interact tree_read tree_osStat tree_chown tree_onProc tree_doneErr tree_allocCID tree_now
  tree_poolAcquire tree_leaseRelease tree_guestSend tree_ret tree_fail tree_lift tree_gets tree_wait tree_terminate
  tree_procLogs tree_apiRequest tree_waitForFile tree_runInvocation tree_pingGuest tree_prepareGuest tree_complete
  tree_checkedAsset : tree.

Ltac tree :=
  repeat first
    [ solve [eauto with tree nocore]
    | progress intros
    | apply tree_bind
    | apply tree_try
    | progress case_match
    | progress cbn zeta ].

(** ** The invariant *)

Definition snapshotRoot (d : VmDriver) : Path := comps (cf_SnapshotDir (dv_config d)).

(** The places of assets below the snapshot directory. *)
Definition assetPlace (r : Path) : Prop :=
  match r with
  | [a] => a = "blank"
  | [a; _] => a = "blank-full" ∨ a = "functions"
  | [a; _; _] => a = "functions-full"
  | _ => False
  end.

(** A name of a temporary directory. *)
Definition temporary (c : string) : Prop := ∃ b (n : N), c = b +:+ "-tmp-" +:+ pretty n.

Definition published (r : Path) : Prop := assetPlace r ∧ ∀ c, last r = Some c → ¬ temporary c.

(** What the place says about the asset. *)
Definition fits (d : VmDriver) (r : Path) (meta : snapshotMetadata) : Prop :=
  match r with
  | [_] => sm_Kind meta = "blank" ∧ sm_NetworkPolicy meta = "none" ∧ sm_MemoryMB meta = cf_DefaultMemoryMB (dv_config d)
  | [a; b] =>
      if bool_decide (a = "blank-full") then
        sm_Kind meta = "blank" ∧ sm_NetworkPolicy meta = "full" ∧ sanitizeID (sm_TapDevice meta) = b ∧
        sm_MemoryMB meta = cf_DefaultMemoryMB (dv_config d)
      else sm_Kind meta = "function" ∧ sanitizeID (sm_FunctionID meta) = b ∧
           isFullNetworkPolicy (sm_NetworkPolicy meta) = false
  | [_; b; c] =>
      sm_Kind meta = "function" ∧ sanitizeID (sm_FunctionID meta) = b ∧
      isFullNetworkPolicy (sm_NetworkPolicy meta) = true ∧ sanitizeID (sm_TapDevice meta) = c
  | _ => True
  end.

Definition metaPath (d : VmDriver) (r : Path) : Path := snapshotRoot d ++ r ++ ["metadata.json"].

Definition sound `{!MetaJson} (d : VmDriver) (t : Tree) : Prop :=
  tr_links t = ∅ ∧
  ∀ r raw, published r → tr_files t !! metaPath d r = Some raw →
    ∃ meta, json_UnmarshalMeta raw = Ok meta ∧ fits d r meta.

(** ** Paths *)

Lemma comps_join dir name :
  isAbs dir = true → plain name → comps (JoinPath dir name) = comps dir ++ [name] ∧ isAbs (JoinPath dir name) = true.
Proof.
  intros Ha Hp. pose proof Hp as (Hne & _ & _ & Hslash). destruct (comps_JoinPath dir name Ha Hne) as [E1 E2].
  split; [|by rewrite E2]. rewrite E1, (Split_no_byte _ _ Hslash), clean_plain by by constructor.
  by rewrite reverse_involutive.
Qed.

(** A string in which certain bytes do not occur. *)
Definition bytes_ok (p : ascii → bool) (s : string) : Prop := Forall (λ a, p a = true) (String.list_ascii_of_string s).

Lemma bytes_ok_app p s t : bytes_ok p (s +:+ t) ↔ bytes_ok p s ∧ bytes_ok p t.
Proof. unfold bytes_ok. induction s as [|a s IH]; simpl; [split; [by split|by intros [_ ?]]|]. rewrite !Forall_cons, IH. tauto. Qed.

Lemma bytes_ok_concat p l : Forall (bytes_ok p) l → bytes_ok p (concatAll l).
Proof. induction 1 as [|s l Hs Hl IH]; [constructor|]. simpl. by apply bytes_ok_app. Qed.

Lemma idByte_slash : idByte slash = false.
Proof. done. Qed.

Lemma bytes_ok_no_slash s : bytes_ok idByte s → no_byte slash s = true.
Proof.
  induction s as [|a s IH]; [done|]. intros [H1 H2]%Forall_cons. cbn [no_byte]. rewrite (IH H2), andb_true_r.
  destruct (Ascii.eqb_spec a slash) as [->|]; [by rewrite idByte_slash in H1|done].
Qed.

Lemma bytes_ok_plain s : bytes_ok idByte s → s ≠ "" → plain s.
Proof. intros Hs Hne. split_and!; [done|by intros ->; inversion Hs..|by apply bytes_ok_no_slash]. Qed.

Lemma sanitizeRunes_ok s : bytes_ok idByte (sanitizeRunes s).
Proof.
  apply bytes_ok_concat, Forall_fmap, Forall_true. intros [b r]. cbn. unfold idRune.
  destruct r as [|a [|]]; [by repeat constructor| |by repeat constructor].
  destruct (idByte a) eqn:E; by repeat constructor.
Qed.

Lemma sanitizeID_plain s : s ≠ "" → plain (sanitizeID s).
Proof.
  intros Hne. unfold sanitizeID. rewrite bool_decide_eq_false_2 by done. apply bytes_ok_plain; [apply sanitizeRunes_ok|].
  unfold sanitizeRunes. pose proof (concat_runes s) as Hs. destruct (runes s) as [|[b r] l]; [by destruct Hne|].
  cbn. unfold idRune. destruct r as [|a [|]]; cbn; [done| |done]. by destruct (idByte a).
Qed.

Lemma published_prefix r1 r2 x : assetPlace r1 → assetPlace r2 → r1 `prefix_of` r2 ++ [x] → r1 = r2.
Proof.
  intros H1 H2 [l Hl].
  destruct r1 as [|a1 [|b1 [|c1 [|]]]]; try done; destruct r2 as [|a2 [|b2 [|c2 [|]]]]; try done;
    simpl in *; simplify_eq; try done; destruct_or?; subst; try done; try congruence;
    by destruct l; simplify_eq.
Qed.

(** ** Operations on the file system *)

Section Operations.
Context `{!VmEnv, !MetaJson} (d : VmDriver).

(** A path that is not the metadata of a published asset. *)
Definition offMeta (p : Path) : Prop := ∀ r, published r → p ≠ metaPath d r.

Lemma sound_files t t' :
  tr_links t' = ∅ → (∀ r, published r → tr_files t' !! metaPath d r = tr_files t !! metaPath d r ∨ tr_files t' !! metaPath d r = None) →
  sound d t → sound d t'.
Proof.
  intros Hl Hf [_ Hs]. split; [done|]. intros r raw Hr Hraw. apply Hs; [done|].
  destruct (Hf r Hr) as [<-|E]; [done|congruence].
Qed.

Lemma sound_insert t p data : offMeta p → sound d t → sound d (t <| tr_files := <[p := data]> (tr_files t) |>).
Proof.
  intros Hp Hs. eapply sound_files; [apply Hs| |exact Hs]. intros r Hr. left.
  change (<[p := data]> (tr_files t) !! metaPath d r = tr_files t !! metaPath d r).
  apply lookup_insert_ne, Hp, Hr.
Qed.

Lemma sound_dirs t dirs : sound d t → sound d (t <| tr_dirs := dirs |>).
Proof. intros Hs. eapply sound_files; [apply Hs| |exact Hs]. intros r Hr. by left. Qed.

Lemma sound_unlinked t p : sound d t → unlinked t p.
Proof. intros [Hl _] q _. by rewrite Hl. Qed.

(** A path leads to its own node. *)
Lemma sound_find t follow path q :
  sound d t → (find_node t follow (comps path) = Found q ∨ find_node t follow (comps path) = Vacant q) → q = comps path.
Proof.
  intros Hs Hq. destruct (find_unlinked t follow (comps path) (comps_plain _) (sound_unlinked t _ Hs)) as [E|[E|[e E]]];
    rewrite E in Hq; destruct Hq; congruence.
Qed.

Lemma sound_MkdirAll p : preserves (sound d) (MkdirAll p).
Proof.
  apply keeps_for_each; [done|]. intros q _ t Ht. unfold mkdirStep. split; [|done].
  repeat case_match; done.
Qed.

Lemma sound_OpenFile path : offMeta (comps path) → keeps (sound d) (λ q, q = comps path) (OpenFile (comps path)).
Proof.
  intros Hp t Ht. unfold OpenFile. destruct (find_node t true (comps path)) as [q|q|e] eqn:E.
  - assert (q = comps path) as -> by (eapply sound_find; eauto). case_match; (split; [|by intros ? [= <-]]); [done|].
    by apply sound_insert.
  - assert (q = comps path) as -> by (eapply sound_find; eauto). split; [|by intros ? [= <-]]. by apply sound_insert.
  - by split.
Qed.

Lemma sound_RemoveAll p : preserves (sound d) (RemoveAll p).
Proof.
  intros t Ht. unfold RemoveAll. destruct (find_node t false p) as [q|q|e]; [|by split|by destruct e]. split; [|done].
  eapply sound_files; [| |exact Ht].
  - cbn. destruct Ht as [-> _]. apply map_filter_empty.
  - intros r Hr. cbn. destruct (filter _ (tr_files t) !! metaPath d r) as [x|] eqn:E; [left|by right].
    symmetry. by apply map_lookup_filter_Some in E as [E _].
Qed.

Lemma sound_removeSome gone p t : sound d t → sound d (removeSome gone p t).
Proof.
  intros Ht. eapply sound_files; [| |exact Ht].
  - cbn. destruct Ht as [-> _]. apply map_filter_empty.
  - intros r Hr. unfold removeSome. cbn zeta. cbn [tr_files].
    destruct (filter _ (tr_files t) !! metaPath d r) as [x|] eqn:E; [left|by right].
    symmetry. by apply map_lookup_filter_Some in E as [E _].
Qed.

(** A node of the moved map was there before, or comes from the moved place. *)
Lemma moveMap_Some {A} (p q : Path) (m : gmap Path A) (k : Path) (x : A) :
  moveMap p q m !! k = Some x → m !! k = Some x ∨ ∃ l, k = q ++ l ∧ m !! (p ++ l) = Some x.
Proof.
  unfold moveMap. rewrite lookup_union_Some_raw. intros [Hk|[_ Hk]].
  - right. apply elem_of_list_to_map_2, list_elem_of_omap in Hk as ([k0 y] & Hin & Hk). cbn in Hk.
    apply fmap_Some in Hk as (k1 & Hm & [= -> <-]). apply elem_of_map_to_list in Hin. unfold movedTo in Hm.
    case_bool_decide as Hp; [|done]. injection Hm as <-. exists (drop (length p) k0). split; [done|].
    rewrite <- Hp at 1. by rewrite take_drop.
  - left. apply map_lookup_filter_Some in Hk as [Hk _]. by apply lookup_delete_Some in Hk as [_ Hk].
Qed.

Lemma moveMap_empty {A} (p q : Path) : moveMap p q (∅ : gmap Path A) = ∅.
Proof.
  apply map_empty. intros k. destruct (moveMap p q ∅ !! k) as [x|] eqn:E; [|done].
  apply moveMap_Some in E as [E|(l & _ & E)]; by rewrite lookup_empty in E.
Qed.

(** Publishing: the metadata that is in place afterwards was in the directory
    that is moved. *)
Lemma sound_Rename old new r0 meta raw :
  comps new = snapshotRoot d ++ r0 → assetPlace r0 → json_UnmarshalMeta raw = Ok meta → fits d r0 meta →
  ∀ t, sound d t → tr_files t !! (comps old ++ ["metadata.json"]) = Some raw →
  sound d (Rename (comps old) (comps new) t).2.
Proof.
  intros Hnew Hplace Hjson Hfits t Ht Hraw.
  assert (∀ dirs, sound d (mkTree (moveMap (comps old) (comps new) (tr_files t)) dirs
    (moveMap (comps old) (comps new) (tr_links t)))) as Hmoved.
  { intros dirs. split; [cbn; destruct Ht as [-> _]; apply moveMap_empty|]. cbn. intros r raw' Hr E.
    apply moveMap_Some in E as [E|(l & Hl & E)]; [by apply Ht|]. unfold metaPath in Hl.
    rewrite Hnew, <- app_assoc in Hl. apply app_inv_head in Hl.
    assert (r0 = r) as -> by (eapply published_prefix; [done|apply Hr|exists l; exact Hl]).
    apply app_inv_head in Hl as <-. exists meta. split; [congruence|done]. }
  unfold Rename. destruct (find_node t false (comps old)) as [p| |] eqn:Eo; [|done..].
  assert (p = comps old) as -> by (eapply sound_find; eauto).
  destruct (find_node t false (comps new)) as [q|q|] eqn:En; [| |done];
    (assert (q = comps new) as -> by (eapply sound_find; eauto)); repeat case_match; try done; apply Hmoved.
Qed.

End Operations.

(** ** The driver on a host *)

(** The directories of the driver are absolute, the rest of the host makes no
    links and does not change files below the snapshot directory, and the
    metadata can be read back. *)
Record host_ok `{!VmEnv, !MetaJson} (d : VmDriver) : Prop := {
  ho_snapshots : isAbs (cf_SnapshotDir (dv_config d)) = true;
  ho_workspace : isAbs (cf_WorkspaceDir (dv_config d)) = true;
  ho_chroot : isAbs (cf_ChrootBaseDir (dv_config d)) = true;
  ho_outside : ∀ n t, tr_links t = ∅ → tr_links (vm_Outside n t) = ∅ ∧
    ∀ k, tr_files (vm_Outside n t) !! (snapshotRoot d ++ k) = tr_files t !! (snapshotRoot d ++ k);
  ho_json : ∀ meta raw, json_MarshalMeta meta = Ok raw → json_UnmarshalMeta raw = Ok meta;
}.

Section OnHost.
Context `{!VmEnv, !MetaJson} (d : VmDriver) (Hhost : host_ok d).

Abbreviation Sound := (λ s, sound d (vm_tree s)).

Lemma sound_outside n t : sound d t → sound d (vm_Outside n t).
Proof.
  intros Ht. destruct (ho_outside _ Hhost n t) as [H1 H2]; [apply Ht|].
  eapply sound_files; [done| |exact Ht]. intros r Hr. left. apply H2.
Qed.
#[local] Hint Resolve sound_outside : tree.

Lemma offMeta_join dir name : isAbs dir = true → plain name → name ≠ "metadata.json" → offMeta d (comps (JoinPath dir name)).
Proof.
  intros Ha Hp Hn r _ E. destruct (comps_join dir name Ha Hp) as [E1 _]. rewrite E1 in E. unfold metaPath in E.
  rewrite app_assoc in E. by apply app_inj_2 in E as [_ [= E]].
Qed.

Lemma snd_osRemoveAll p : preserves Sound (osRemoveAll p).
Proof.
  intros s Hs. unfold osRemoveAll. destruct (vm_Fault _).
  - split; [|done]. by apply sound_removeSome.
  - destruct (sound_RemoveAll d p _ Hs) as [H1 _]. by destruct (RemoveAll p (vm_tree s)).
Qed.

Lemma snd_MkdirTemp dir prefix :
  keeps Sound (λ path, ∃ n : N, path = JoinPath dir (prefix +:+ pretty n)) (MkdirTemp dir prefix).
Proof.
  intros s Hs. unfold MkdirTemp. rewrite M_bind_eq. cbn zeta. set (path := JoinPath dir _).
  apply (tree_os (sound d) (λ p, ∃ n : N, p = JoinPath dir (prefix +:+ pretty n)) _); [|exact Hs].
  intros t Ht. destruct (find_node t false (comps path)); [done| |done]. split; [exact Ht|].
  intros a [= <-]. by eexists.
Qed.

Lemma snd_writeCopy q data : offMeta d q → preserves Sound (writeCopy q data).
Proof. intros Hq s Hs. unfold writeCopy. destruct (vm_Fault _); (split; [|done]); by apply sound_insert. Qed.

Lemma snd_copyFile source target : offMeta d (comps target) → preserves Sound (copyFile source target).
Proof.
  intros Ht. unfold copyFile. apply tree_bind; [tree|]. intros data.
  eapply keeps_bind; [apply tree_os, (sound_OpenFile d target Ht)|]. intros q ->. by apply snd_writeCopy.
Qed.

Lemma snd_stageKernel target source : offMeta d (comps target) → preserves Sound (stageKernel target source).
Proof.
  intros Ht. unfold stageKernel. apply tree_bind; [|intros []; [tree|by apply snd_copyFile]].
  apply tree_try, tree_os. intros t Hs. destruct (ReadFile _ t); [|done].
  destruct (find_node t false (comps target)) as [q|q|e] eqn:E; [done| |done]. split; [|done].
  assert (q = comps target) as -> by (eapply sound_find; eauto). by apply sound_insert.
Qed.

Lemma snd_layoutCleanup layout : preserves Sound (layoutCleanup layout).
Proof.
  unfold layoutCleanup. apply tree_bind; [by apply tree_same|]. intros _.
  apply tree_bind; [apply tree_try, snd_osRemoveAll|tree].
Qed.
#[local] Hint Resolve snd_layoutCleanup snd_osRemoveAll : tree.

(** ** Machines *)

Lemma snd_prepareLayout attempt :
  keeps Sound (λ r, ∃ root remove, r.1 = layoutAt root remove ∧ isAbs root = true) (prepareLayout d attempt).
Proof.
  unfold prepareLayout. eapply keeps_bind; [by apply (tree_same _ (λ s, (Ok (vm_UnixNano (vm_step s)), s)))|].
  intros nano _. cbn zeta. case_match.
  - eapply keeps_bind; [apply tree_os, sound_MkdirAll|]. intros _ _. eapply keeps_mono; [apply tree_made|].
    intros r ->. do 2 eexists. split; [done|]. destruct Hhost as [_ _ Hc _ _]. unfold JoinPath at 1. simpl.
    unfold Clean. rewrite isAbs_app; [done|]. unfold JoinPath at 1. case_bool_decide; unfold Clean.
    + by destruct (comps_JoinPath _ "firecracker" Hc ltac:(done)) as [_ ->].
    + rewrite isAbs_app; [done|]. by destruct (comps_JoinPath _ "firecracker" Hc ltac:(done)) as [_ ->].
  - eapply keeps_bind; [apply snd_MkdirTemp|]. intros path [n ->]. eapply keeps_mono; [apply tree_made|].
    intros r ->. do 2 eexists. split; [done|].
    by destruct (comps_JoinPath (cf_WorkspaceDir (dv_config d)) ("lecrev-firecracker-" +:+ pretty n)
      (ho_workspace _ Hhost) ltac:(done)) as [_ ->].
Qed.

Lemma snd_staged {A} layout (m : VM A) : preserves Sound m → preserves Sound (staged layout m).
Proof. intros Hm. unfold staged. tree. Qed.

Lemma snd_started {A} layout pid (m : VM A) : preserves Sound m → preserves Sound (started layout pid m).
Proof. intros Hm. unfold started, close. tree. Qed.

Lemma snd_reported {A} layout pid what (m : VM A) : preserves Sound m → preserves Sound (reported layout pid what m).
Proof. intros Hm. unfold reported, close. tree. Qed.

Lemma snd_prepareOwnership layout paths : preserves Sound (prepareOwnership d layout paths).
Proof. unfold prepareOwnership. case_match; [tree|]. apply tree_for_each. tree. Qed.

Lemma snd_startVM vmID layout : preserves Sound (startVM d vmID layout).
Proof.
  unfold startVM. destruct (if cf_UseJailer (dv_config d) then _ else _) as [[binary args] wd].
  apply tree_bind; [tree|]. intros [e|]; [tree|]. by apply tree_same.
Qed.
#[local] Hint Resolve snd_staged snd_started snd_reported snd_prepareOwnership snd_startVM : tree.

Lemma snd_launch layout vmID : preserves Sound (launch d layout vmID).
Proof. unfold launch. tree. Qed.

Lemma snd_configure layout pid req network : preserves Sound (configure d layout pid req network).
Proof. unfold configure, put. tree. Qed.
#[local] Hint Resolve snd_launch snd_configure : tree.

(** A machine in a layout of the driver. *)
Definition placed (v : vmInstance) : Prop :=
  ∃ root remove, vi_layout v = layoutAt root remove ∧ isAbs root = true.

Lemma plain_name (s : string) : bytes_ok (λ a, idByte a || byte_eqb a 46) s → s ≠ "" → s ≠ "." → s ≠ ".." → plain s.
Proof.
  intros Hs H1 H2 H3. split_and!; [done..|]. clear H1 H2 H3.
  induction s as [|a s IH]; [done|]. apply Forall_cons in Hs as [Ha Hs]. cbn [no_byte]. rewrite (IH Hs), andb_true_r.
  destruct (Ascii.eqb_spec a slash) as [->|]; [|done]. by vm_compute in Ha.
Qed.

Ltac name := apply plain_name; [repeat constructor|done..].

Lemma snd_bootInstance req network : keeps Sound placed (bootInstance d req network).
Proof.
  unfold bootInstance. eapply keeps_bind; [apply snd_prepareLayout|]. intros [layout vmID] (root & remove & E & Hroot). cbn in E. subst layout.
  eapply keeps_bind; [apply snd_staged, snd_stageKernel, offMeta_join; [done|name|done]|]. intros _ _.
  eapply keeps_bind; [apply snd_staged, snd_copyFile, offMeta_join; [done|name|done]|]. intros _ _.
  eapply keeps_bind; [apply snd_staged, snd_prepareOwnership|]. intros _ _.
  eapply keeps_bind; [apply snd_launch|]. intros pid _.
  eapply keeps_bind; [apply snd_configure|]. intros _ _. apply keeps_ret. by exists root, remove.
Qed.

Lemma snd_restoreInstance req asset : keeps Sound placed (restoreInstance d req asset).
Proof.
  unfold restoreInstance. eapply keeps_bind; [apply snd_prepareLayout|]. intros [layout vmID] (root & remove & E & Hroot). cbn in E. subst layout.
  cbn zeta. do 3 (eapply keeps_bind; [apply snd_staged, snd_copyFile, offMeta_join; [done|name|done]|]; intros _ _).
  eapply keeps_bind; [apply snd_staged, snd_prepareOwnership|]. intros _ _.
  eapply keeps_bind; [apply snd_launch|]. intros pid _.
  do 2 (eapply keeps_bind; [apply snd_reported; unfold put, patch; tree|]; intros _ _).
  apply keeps_ret. by exists root, remove.
Qed.

Lemma snd_cleanupInstance v : preserves Sound (cleanupInstance v).
Proof. unfold cleanupInstance. tree. Qed.

(** ** Executions *)

Lemma snd_finish v req prepared trace : preserves Sound (finish d v req prepared trace).
Proof. unfold finish. tree. Qed.
#[local] Hint Resolve snd_finish snd_cleanupInstance : tree.

Lemma snd_executeFromSnapshot req asset prepared note : preserves Sound (executeFromSnapshotDeferred d req asset prepared note).
Proof.
  unfold executeFromSnapshotDeferred. apply tree_bind; [|tree]. apply tree_try. eapply tree_any, snd_restoreInstance.
Qed.

Lemma snd_executeCold req note network : preserves Sound (executeColdDeferred d req note network).
Proof. unfold executeColdDeferred. apply tree_bind; [|tree]. apply tree_try. eapply tree_any, snd_bootInstance. Qed.
#[local] Hint Resolve snd_executeFromSnapshot snd_executeCold : tree.

Lemma snd_Execute req : preserves Sound (Execute d req).
Proof.
  unfold Execute, andCleanup. apply tree_bind.
  - unfold ExecuteDeferred, validateHost, executeNetworked, startNetworked, withLease, leaseCfg, functionSnapshotAsset,
      blankSnapshotAssetForRequest, networkBlankSnapshotAssetForRequest, networkFunctionSnapshotAssetForRequest. tree.
  - unfold runCleanup. tree.
Qed.

(** ** Publishing *)

Lemma pretty_no_slash (n : N) : no_byte slash (pretty n) = true.
Proof.
  assert (∀ x s, no_byte slash s = true → no_byte slash (pretty_N_go x s) = true) as Hgo.
  { intros x. induction (N.lt_wf_0 x) as [x _ IH]. intros s Hs. destruct (decide (0 < x)%N) as [Hx|Hx].
    - rewrite pretty_N_go_step by done. apply IH; [by apply N.div_lt|]. cbn [no_byte]. rewrite Hs, andb_true_r.
      unfold pretty_N_char. by repeat case_match.
    - assert (x = 0%N) as -> by lia. by rewrite pretty_N_go_0. }
  unfold pretty, pretty_N. case_decide; [done|]. by apply Hgo.
Qed.

Lemma plain_temporary b (n : N) : plain b → plain ((b +:+ "-tmp-") +:+ pretty n).
Proof.
  intros (H1 & _ & _ & H2). destruct b as [|x b]; [done|]. split_and!; [done|by destruct b|by destruct b as [|? [|]]|].
  rewrite !no_byte_app, H2, pretty_no_slash. done.
Qed.

Lemma string_length_app (s t : string) : String.length (s +:+ t) = String.length s + String.length t.
Proof. induction s as [|a s IH]; [done|]. simpl. by rewrite <- IH. Qed.

Lemma temporary_ne b (n : N) : (b +:+ "-tmp-") +:+ pretty n ≠ b.
Proof.
  intros E. apply (f_equal String.length) in E. rewrite !string_length_app in E. simpl in E. lia.
Qed.

(** The directory of an asset at a place. *)
Definition assetDir (dir : string) (r : Path) : Prop :=
  isAbs dir = true ∧ comps dir = snapshotRoot d ++ r ∧ assetPlace r.

Lemma assetDir_split dir r :
  assetDir dir r → ∃ r1 b, r = r1 ++ [b] ∧ parent (comps dir) = snapshotRoot d ++ r1 ∧ baseOf dir = b ∧ plain b.
Proof.
  intros (_ & E & Hr). destruct r as [|b r1 _] using rev_ind; [done|]. exists r1, b.
  unfold baseOf. rewrite E, app_assoc, parent_snoc, last_snoc. split_and!; [done..|].
  pose proof (comps_plain dir) as Hp. rewrite E, !Forall_app, Forall_singleton in Hp. by destruct Hp as (_ & _ & ?).
Qed.

(** Where the temporary directory is. *)
Lemma tempDir_place dir r n :
  assetDir dir r →
  let tempDir := JoinPath (dirOf dir) ((baseOf dir +:+ "-tmp-") +:+ pretty (n : N)) in
  isAbs tempDir = true ∧ ∃ r1 b, r = r1 ++ [b] ∧
    comps tempDir = snapshotRoot d ++ r1 ++ [(b +:+ "-tmp-") +:+ pretty n].
Proof.
  intros Hd tempDir. destruct (assetDir_split dir r Hd) as (r1 & b & Hr & Hpar & Hb & Hplain).
  assert (isAbs (dirOf dir) = true) as Habs by done.
  assert (comps (dirOf dir) = snapshotRoot d ++ r1) as Edir.
  { unfold dirOf. rewrite comps_abs; [done|]. unfold parent. apply Forall_take, comps_plain. }
  unfold tempDir. rewrite Hb. destruct (comps_join (dirOf dir) _ Habs (plain_temporary b n Hplain)) as [E1 E2].
  split; [done|]. exists r1, b. by rewrite E1, Edir, <- app_assoc.
Qed.

Lemma offMeta_temporary dir r n :
  assetDir dir r →
  let tempDir := JoinPath (dirOf dir) ((baseOf dir +:+ "-tmp-") +:+ pretty (n : N)) in
  offMeta d (comps (JoinPath tempDir "metadata.json")).
Proof.
  intros Hd tempDir r' [Hp Hr'] E. destruct (tempDir_place dir r n Hd) as (Habs & r1 & b & -> & Et).
  destruct (comps_join tempDir "metadata.json" Habs ltac:(name)) as [E1 _]. rewrite E1 in E. unfold tempDir in E.
  rewrite Et in E. unfold metaPath in E. rewrite <- !app_assoc in E. apply app_inv_head in E.
  rewrite app_assoc in E. apply app_inj_2 in E as [E _]; [|done]. apply (Hr' ((b +:+ "-tmp-") +:+ pretty n)).
  - by rewrite <- E, last_snoc.
  - exists b, n. by rewrite string_app_assoc.
Qed.

(** The metadata file of the temporary directory has been written. *)
Definition filled (tempDir raw : string) (t : Tree) : Prop :=
  sound d t ∧ tr_files t !! (comps tempDir ++ ["metadata.json"]) = Some raw.

Lemma filled_outside tempDir raw k n t :
  comps tempDir = snapshotRoot d ++ k → filled tempDir raw t → filled tempDir raw (vm_Outside n t).
Proof.
  intros E [Ht Hraw]. split; [by apply sound_outside|].
  destruct (ho_outside _ Hhost n t (proj1 Ht)) as [_ Hf]. rewrite E, <- app_assoc in *. by rewrite Hf.
Qed.

Lemma ends_keeps {A} (P : Tree → Prop) (V : A → Prop) (m : VM A) :
  (∀ t, P t → sound d t) → keeps (λ s, P (vm_tree s)) V m →
  ends (λ s, P (vm_tree s)) m (λ a s, V a ∧ P (vm_tree s)) Sound.
Proof.
  intros HP Hm s Hs. destruct (Hm s Hs) as [H1 H2]. destruct (m s) as [[a|e] s']; [split; auto|by apply HP].
Qed.

Lemma ends_first {A B} (m : VM A) (f : A → VM B) R :
  preserves Sound m → (∀ a, ends Sound (f a) R Sound) → ends Sound (m ≫= f) R Sound.
Proof.
  intros Hm Hf. eapply ends_bind; [by apply (ends_keeps (sound d) (λ _, True))|].
  intros a s [_ Hs]. by apply Hf.
Qed.

Lemma ends_fill v dir r n meta :
  placed v → assetDir dir r →
  let tempDir := JoinPath (dirOf dir) ((baseOf dir +:+ "-tmp-") +:+ pretty (n : N)) in
  ends Sound (fillSnapshot v tempDir meta)
    (λ _ s, ∃ raw, json_MarshalMeta meta = Ok raw ∧ filled tempDir raw (vm_tree s)) Sound.
Proof.
  intros (root & remove & Hv & Hroot) Hd tempDir. destruct (tempDir_place dir r n Hd) as (Habs & r1 & b & Hr & Et).
  fold tempDir in Habs, Et. pose proof (offMeta_temporary dir r n Hd) as Hoff. cbn zeta in Hoff. fold tempDir in Hoff.
  destruct (comps_join tempDir "metadata.json" Habs ltac:(name)) as [Em _].
  unfold fillSnapshot. cbn zeta.
  do 2 (apply ends_first; [unfold put, patch; tree|]; intros ?).
  do 3 (apply ends_first; [apply snd_copyFile, offMeta_join; [done|name|done]|]; intros ?).
  destruct (json_MarshalMeta meta) as [raw|e] eqn:Ej; [|by intros s Hs].
  eapply ends_bind; [by apply (ends_ret _ (λ a s, a = raw ∧ Sound s))|]. intros raw1.
  eapply ends_bind.
  { instantiate (1 := λ q s, raw1 = raw ∧ q = comps tempDir ++ ["metadata.json"] ∧ Sound s). intros s [-> Hs].
    destruct (tree_os (sound d) _ _ (sound_OpenFile d _ Hoff) s Hs) as [H1 H2].
    destruct (os (OpenFile (comps (JoinPath tempDir "metadata.json"))) s) as [[q|e] s']; [|done].
    split_and!; [done| |done]. rewrite <- Em. by apply H2. }
  intros q. eapply ends_bind.
  { instantiate (1 := λ _ s, filled tempDir raw (vm_tree s)). intros s (-> & -> & Hs). rewrite <- Em.
    unfold writeCopy. destruct (vm_Fault _); [by apply sound_insert|]. split; [by apply sound_insert|].
    rewrite <- Em. apply lookup_insert_eq. }
  intros ?. eapply (ends_conseq _ (λ s, filled tempDir raw (vm_tree s)));
    [apply (ends_keeps (filled tempDir raw) (λ _, True))|done| |done].
  - by intros t [? _].
  - assert (∀ k t, filled tempDir raw t → filled tempDir raw (vm_Outside k t)) as Ho
      by (intros k t; by eapply filled_outside).
    tree.
  - intros _ s [_ Hs]. by exists raw.
Qed.

(** Removing the old asset leaves the temporary directory. *)
Lemma movedTo_other (p q l : Path) : length q = length p → q ≠ p → movedTo p p (q ++ l) = None.
Proof.
  intros Hl Hne. unfold movedTo. rewrite bool_decide_eq_false_2; [done|]. by rewrite <- Hl, take_app_length.
Qed.

Lemma filled_remove tempDir raw dir :
  length (comps tempDir) = length (comps dir) → comps tempDir ≠ comps dir →
  preserves (λ s, filled tempDir raw (vm_tree s)) (osRemoveAll (comps dir)).
Proof.
  intros Hl Hne s [Hs Hraw]. pose proof (movedTo_other _ (comps tempDir) ["metadata.json"] Hl Hne) as Hm.
  unfold osRemoveAll. destruct (vm_Fault _).
  - split; [|done]. split; [by apply sound_removeSome|]. cbn. apply map_lookup_filter_Some. split; [done|].
    by rewrite (bool_decide_eq_true_2 _ Hm).
  - destruct (sound_RemoveAll d (comps dir) _ Hs) as [H1 _].
    split; [|by destruct (RemoveAll (comps dir) (vm_tree s))]. unfold RemoveAll in *.
    destruct (find_node (vm_tree s) false (comps dir)) as [q|q|e] eqn:E; [|done|by destruct e].
    split; [done|]. cbn. apply map_lookup_filter_Some. split; [done|].
    assert (q = comps dir) as -> by (eapply (sound_find d _ false dir); [exact Hs|by left]). done.
Qed.

Lemma snd_createSnapshot v dir r meta :
  placed v → assetDir dir r → fits d r meta → preserves Sound (createSnapshotAsset v (assetAt dir) meta).
Proof.
  intros Hv Hd Hfits. unfold createSnapshotAsset. cbn [sa_dir assetAt].
  apply tree_bind; [apply tree_os, sound_MkdirAll|]. intros _.
  eapply keeps_bind; [apply snd_MkdirTemp|]. intros tempDir [n ->]. apply tree_finally; [|apply snd_osRemoveAll].
  pose proof (ends_fill v dir r n meta Hv Hd) as Hfill. cbn zeta in Hfill. set (tempDir := JoinPath _ _) in *.
  destruct (tempDir_place dir r n Hd) as (_ & r1 & b & -> & Et). fold tempDir in Et.
  pose proof Hd as (_ & Edir & Hplace).
  assert (length (comps tempDir) = length (comps dir)) as Hl by by rewrite Et, Edir, !length_app.
  assert (comps tempDir ≠ comps dir) as Hne.
  { rewrite Et, Edir, !app_assoc. intros [_ E]%app_inj_2; [|done]. injection E as E. by apply temporary_ne in E. }
  assert (ends Sound (fillSnapshot v tempDir meta ≫= λ _, try (osRemoveAll (comps dir)) ≫= λ _,
    os (Rename (comps tempDir) (comps dir))) (λ _, Sound) Sound) as Hall.
  { eapply ends_bind; [exact Hfill|]. intros _ s (raw & Hraw & Hs). rewrite M_bind_eq.
    destruct (filled_remove tempDir raw dir Hl Hne s Hs) as [H1 _]. unfold try.
    destruct (osRemoveAll (comps dir) s) as [u s']. cbn [snd] in H1. destruct H1 as [H1 H2]. unfold os.
    destruct (vm_Fault _); [done|].
    pose proof (sound_Rename d tempDir dir (r1 ++ [b]) meta raw Edir Hplace (ho_json _ Hhost _ _ Hraw) Hfits _ H1 H2) as H3.
    destruct (Rename (comps tempDir) (comps dir) (vm_tree s')) as [[?|?] t]; done. }
  intros s Hs. specialize (Hall s Hs). split; [|done]. by destruct ((fillSnapshot _ _ _ ≫= _) s) as [[?|?] s'].
Qed.

(** ** Preparing snapshots *)

Lemma assetDir_blank : assetDir (JoinPath (cf_SnapshotDir (dv_config d)) "blank") ["blank"].
Proof. destruct (comps_join _ "blank" (ho_snapshots _ Hhost) ltac:(name)) as [E1 E2]. by split_and!. Qed.

Lemma assetDir_two a b : plain a → plain b → (a = "blank-full" ∨ a = "functions") →
  assetDir (JoinPath (JoinPath (cf_SnapshotDir (dv_config d)) a) b) [a; b].
Proof.
  intros Ha Hb Hab. destruct (comps_join _ a (ho_snapshots _ Hhost) Ha) as [E1 E2].
  destruct (comps_join _ b E2 Hb) as [E3 E4]. split_and!; [done| |done]. by rewrite E3, E1, <- app_assoc.
Qed.

Lemma assetDir_three b c : plain b → plain c →
  assetDir (JoinPath (JoinPath (JoinPath (cf_SnapshotDir (dv_config d)) "functions-full") b) c) ["functions-full"; b; c].
Proof.
  intros Hb Hc. destruct (comps_join _ "functions-full" (ho_snapshots _ Hhost) ltac:(name)) as [E1 E2].
  destruct (comps_join _ b E2 Hb) as [E3 E4]. destruct (comps_join _ c E4 Hc) as [E5 E6].
  split_and!; [done| |done]. by rewrite E5, E3, E1, <- !app_assoc.
Qed.

(** Asking the guest, then the snapshot. *)
Lemma snd_snapshotting {A} v (m : VM A) (what : string) dir r (meta : A → Time → snapshotMetadata) :
  placed v → assetDir dir r → (∀ a t, fits d r (meta a t)) → preserves Sound m →
  preserves Sound
    (x ← try m;
     match x with
     | Err e => logs ← procLogs (vi_pid v); fail (wrapText (what +:+ ": ") e ("; firecracker logs: " +:+ logs))
     | Ok a => t ← now; createSnapshotAsset v (assetAt dir) (meta a t)
     end).
Proof.
  intros Hv Hd Hf Hm. apply tree_bind; [by apply tree_try|].
  intros [a|e]; [|tree]. apply tree_bind; [tree|]. intros t. by eapply snd_createSnapshot.
Qed.

Lemma snd_ensureNetworkBlank network : nc_TapDevice network ≠ "" → preserves Sound (ensureNetworkBlankSnapshotLocked d network).
Proof.
  intros Htap. unfold ensureNetworkBlankSnapshotLocked, leasing. cbn zeta. apply tree_bind; [tree|].
  intros [|]; [tree|]. apply tree_bind; [tree|]. intros lease. apply tree_finally; [|tree].
  eapply keeps_bind; [apply snd_bootInstance|]. intros v Hv. apply tree_finally; [|apply snd_cleanupInstance].
  unfold snapshotBlank, networkBlankSnapshotAsset.
  eapply (snd_snapshotting v _ _ _ ["blank-full"; sanitizeID (nc_TapDevice network)]
    (λ _ t, mkSnapshotMetadata "blank" "" "" "full" (nc_TapDevice network) _ false t)); [done| |done|tree].
  apply assetDir_two; [name|by apply sanitizeID_plain|by left].
Qed.

Lemma snd_EnsureBlankWarm : Forall (λ n, nc_TapDevice n ≠ "") (dv_networks d) → preserves Sound (EnsureBlankWarm d).
Proof.
  intros Htaps. assert (preserves Sound (ensureNetworkBlankSnapshotsLocked d)) as Hnet.
  { apply tree_for_each. intros network Hin. rewrite Forall_forall in Htaps. by apply snd_ensureNetworkBlank, Htaps. }
  unfold EnsureBlankWarm, ensureBlankSnapshotLocked. cbn zeta. apply tree_bind; [tree|]. intros [|]; [done|].
  eapply keeps_bind; [apply snd_bootInstance|]. intros v Hv. apply tree_finally; [|apply snd_cleanupInstance].
  apply tree_bind; [|done].
  eapply (snd_snapshotting v _ _ _ ["blank"] (λ _ t, mkSnapshotMetadata "blank" "" "" "none" "" _ false t));
    [done|apply assetDir_blank|done|tree].
Qed.

Lemma snd_restoreIf req asset : keeps Sound (λ v, ∀ i, v = Some i → placed i) (restoreIf d req asset).
Proof.
  destruct asset as [asset|]; [|by apply keeps_ret]. unfold restoreIf.
  eapply keeps_bind; [apply keeps_try, snd_restoreInstance|]. intros [v|e] Hv; apply keeps_ret; [|done].
  intros i [= <-]. by apply Hv.
Qed.

Lemma snd_orBoot req network restored :
  (∀ i, restored = Some i → placed i) →
  keeps Sound placed (match restored with Some i => mret i | None => bootInstance d req network end).
Proof. intros Hr. destruct restored as [v|]; [by apply keeps_ret, Hr|apply snd_bootInstance]. Qed.

Lemma snd_PrepareFunctionWarm req :
  Forall (λ n, nc_TapDevice n ≠ "") (dv_networks d) → xr_FunctionID req ≠ "" → preserves Sound (PrepareFunctionWarm d req).
Proof.
  intros Htaps Hf. unfold PrepareFunctionWarm, ensureFunctionSnapshotLocked. destruct (isFullNetworkPolicy _) eqn:Ep.
  - unfold ensureNetworkFunctionSnapshotsLocked. rewrite Ep. cbn [negb]. apply tree_for_each. intros network Hin.
    rewrite Forall_forall in Htaps. specialize (Htaps _ Hin).
    unfold ensureNetworkFunctionSnapshotLocked. cbn zeta. apply tree_bind; [tree|]. intros [|]; [tree|].
    apply tree_bind; [by apply tree_try, snd_ensureNetworkBlank|]. intros blank.
    eapply keeps_bind with (V := λ v, ∀ i, v = Some i → placed i).
    { destruct blank as [?|?]; [|by apply keeps_ret]. unfold networkBlankSnapshotAssetForRequest.
      eapply keeps_bind; [tree|]. intros asset _. apply snd_restoreIf. }
    intros restored Hr. unfold leasing. apply tree_bind; [tree|]. intros lease. apply tree_finally; [|tree].
    eapply keeps_bind; [by apply snd_orBoot|]. intros v Hv.
    apply tree_finally; [|apply snd_cleanupInstance].
    eapply (snd_snapshotting v _ _ _ ["functions-full"; sanitizeID (xr_FunctionID req); sanitizeID (nc_TapDevice network)]
      (λ resp t, mkSnapshotMetadata "function" (xr_FunctionID req) (xr_Entrypoint req) (xr_NetworkPolicy req)
        (nc_TapDevice network) (xr_MemoryMB req) (gpr_WorkerPrepared resp) t)); [done| |done|tree].
    apply assetDir_three; by apply sanitizeID_plain.
  - cbn zeta. apply tree_bind; [tree|]. intros [|]; [tree|].
    eapply keeps_bind with (V := λ v, ∀ i, v = Some i → placed i).
    { case_match; [|by apply keeps_ret]. eapply keeps_bind; [by apply tree_try, snd_EnsureBlankWarm|].
      intros [?|?] _; [|by apply keeps_ret]. unfold blankSnapshotAssetForRequest.
      eapply keeps_bind; [tree|]. intros asset _. apply snd_restoreIf. }
    intros restored Hr. eapply keeps_bind; [by apply snd_orBoot|]. intros v Hv.
    apply tree_finally; [|apply snd_cleanupInstance].
    eapply (snd_snapshotting v _ _ _ ["functions"; sanitizeID (xr_FunctionID req)]
      (λ resp t, mkSnapshotMetadata "function" (xr_FunctionID req) (xr_Entrypoint req) (xr_NetworkPolicy req) ""
        (xr_MemoryMB req) (gpr_WorkerPrepared resp) t)); [done| |done|tree].
    apply assetDir_two; [name|by apply sanitizeID_plain|by right].
Qed.

End OnHost.

(** ** All calls *)

Inductive VmCall :=
| CallExecute (req : VmRequest)
| CallEnsureBlankWarm
| CallPrepareFunctionWarm (req : ExecuteRequest)
| CallWarmInventory (freeSlots : Z).

Definition runCall `{!VmEnv, !MetaJson} (d : VmDriver) (c : VmCall) (s : VmState) : VmState :=
  match c with
  | CallExecute req => (Execute d req s).2
  | CallEnsureBlankWarm => (EnsureBlankWarm d s).2
  | CallPrepareFunctionWarm req => (PrepareFunctionWarm d req s).2
  | CallWarmInventory freeSlots => (WarmInventoryForSlots d freeSlots s).2
  end.

Definition runCalls `{!VmEnv, !MetaJson} (d : VmDriver) (calls : list VmCall) (s : VmState) : VmState :=
  foldl (λ s c, runCall d c s) s calls.

(** Functions that are prepared have an identifier. *)
Definition call_ok (c : VmCall) : Prop :=
  match c with CallPrepareFunctionWarm req => xr_FunctionID req ≠ "" | _ => True end.

Lemma snd_inventory `{!VmEnv, !MetaJson} d freeSlots :
  host_ok d → preserves (λ s, sound d (vm_tree s)) (WarmInventoryForSlots d freeSlots).
Proof.
  intros Hhost. pose proof (sound_outside d Hhost) as Hout.
  assert (∀ root, preserves (λ s, sound d (vm_tree s)) (readDirs root)) as Hread.
  { intros root. apply tree_os. intros t Ht. repeat case_match; done. }
  assert (∀ root names out, preserves (λ s, sound d (vm_tree s)) (recordAll root names out)) as Hall.
  { intros root names. induction names as [|n names IH]; intros out; simpl; [tree|].
    apply tree_bind; [|intros ?; apply IH]. unfold record, metadata. tree. }
  assert (∀ root out, preserves (λ s, sound d (vm_tree s)) (recordDir root out)) as Hdir.
  { intros root out. unfold recordDir. tree. }
  assert (∀ root names out, preserves (λ s, sound d (vm_tree s)) (recordDirs root names out)) as Hdirs.
  { intros root names. induction names as [|n names IH]; intros out; simpl; [tree|].
    apply tree_bind; [apply Hdir|intros ?; apply IH]. }
  unfold WarmInventoryForSlots, VmWarmInventory, functionWarmInventory, blankWarmInventory, blankSnapshotAssetForRequest.
  tree.
Qed.

(** C13: the snapshot directory stays sound.  Over any sequence of executions,
    preparations and inventories, with faults at any system call, any answers of
    Firecracker and the guests and removals that stop half way, the metadata of a
    published asset can be read and says what its place says: blank or prepared,
    for which function and tap device, with or without the full network.  An
    execution that finds an asset therefore restores a machine of that kind. *)
Theorem snapshots_sound (Env : VmEnv) (J : MetaJson) (d : VmDriver) (calls : list VmCall) (s : VmState)
    (Hhost : host_ok d) (Htaps : Forall (λ n, nc_TapDevice n ≠ "") (dv_networks d))
    (Hcalls : Forall call_ok calls) (Hs : sound d (vm_tree s)) :
  sound d (vm_tree (runCalls d calls s)).
Proof.
  revert s Hs. induction Hcalls as [|c calls Hc Hcalls IH]; intros s Hs; [done|]. apply IH. destruct c; simpl.
  - by apply snd_Execute.
  - by apply snd_EnsureBlankWarm.
  - by apply snd_PrepareFunctionWarm.
  - by apply snd_inventory.
Qed.

(** A host on which a blank snapshot is made. *)
#[export] Instance snapshotMetadata_eq_dec : EqDecision snapshotMetadata.
Proof. solve_decision. Defined.

Definition demo_meta : snapshotMetadata := mkSnapshotMetadata "blank" "" "" "none" "" 128 false 0.

Definition demo_json : MetaJson := {|
  json_MarshalMeta meta := if bool_decide (meta = demo_meta) then Ok "blank" else Err (plainErr "not encoded");
  json_UnmarshalMeta raw := if bool_decide (raw = "blank") then Ok demo_meta else Err (plainErr "not decoded");
|}.

Definition demo_vmfiles (t : Tree) : Tree :=
  t <| tr_files := <[["w"; "lecrev-firecracker-7"; "api.socket"] := ""]>
                   (<[["w"; "lecrev-firecracker-7"; "snapshot.state"] := "state"]>
                   (<[["w"; "lecrev-firecracker-7"; "snapshot.mem"] := "mem"]> (tr_files t))) |>.

(** A guest that is ready, in an encoding that knows nothing else. *)
Definition demo_readyjson : GuestJson := {|
  json_MarshalGuestRequest q := Ok (gq_Action q);
  json_UnmarshalGuestRequest text := Ok (mkGuestRequest text true None None);
  json_MarshalGuestResponse r := Ok (if gs_Ping r is Some true then "ready" else "other");
  json_UnmarshalGuestResponse text :=
    if bool_decide (text = "ready") then Ok (mkGuestResponse "" (Some true) None None) else Err (plainErr "invalid");
  json_MarshalGuestFrame _ := Err (plainErr "unsupported");
  json_UnmarshalGuestFrame _ := Err (plainErr "unsupported");
|}.

Definition demo_vmenv : VmEnv := {|
  vm_json := demo_readyjson;
  vm_GOOS := "linux"; vm_Outside _ t := demo_vmfiles t; vm_Fault _ := None; vm_Part _ := ""; vm_Spared _ _ := false;
  vm_Random _ := 7%N; vm_UnixNano _ := 0%Z; vm_ChownDenied _ := false; vm_Exit _ := Some None;
  vm_Output _ := ("", ""); vm_Api _ _ := Ok (204%Z, ""); vm_FileTurns _ := [TurnTick];
  vm_Turns _ := [None];
  vm_Exchange _ _ _ := mkExchange None None (Ok "OK 1") None ["ready"] (plainErr "EOF");
  vm_StreamExchange _ _ _ := mkExchange None None (Ok "OK 1") None [] (plainErr "EOF");
  vm_Waits _ := []; vm_Since _ := 0%Z;
|}.

Definition demo_vmdriver : VmDriver :=
  mkVmDriver (mkConfig "firecracker" "" "/k" "/r" "/w" "/s" "/j" false "/init" 5005 3000 1 128 "" "" "" "" "" "" "tap" 0
                "" 30 (10 * Second) (10 * Second) (20 * Second) (5 * Second) (300 * Millisecond) 0 0) [].

Definition demo_vmstate : VmState :=
  mkVmState (mkTree {[ ["k"] := "kernel"; ["r"] := "rootfs" ]} {[ ["w"] ]} ∅) ∅ None [] 3000 [] [] [] [] [] [] 0.

Lemma snapshots_sound_witness :
  let t := vm_tree (@runCalls demo_vmenv demo_json demo_vmdriver [CallEnsureBlankWarm; CallEnsureBlankWarm] demo_vmstate) in
  tr_files t !! ["s"; "blank"; "metadata.json"] = Some "blank" ∧ @sound demo_json demo_vmdriver t.
Proof.
  split; [apply (bool_decide_eq_true_1 _); vm_compute; reflexivity|].
  apply (snapshots_sound demo_vmenv demo_json demo_vmdriver).
  - split; [done..| |].
    + intros n t Ht. split; [exact Ht|]. intros k. cbn. by rewrite !lookup_insert_ne by done.
    + intros meta raw. cbn. case_bool_decide; [|done]. intros [= <-]. by subst.
  - constructor.
  - by repeat constructor.
  - split; [done|]. intros r raw Hr E. unfold metaPath in E. cbn in E.
    apply lookup_insert_Some in E as [[? _]|[_ E]]; [done|]. by apply lookup_singleton_Some in E as [? _].
Defined.
