(* ===== verification/GuestRunner.v ===== *)
(** * GuestRunner: the program inside a virtual machine

    Models [cmd/lecrev-guest-runner/main_linux.go]: the init process of a guest.
    It finds its vsock port on the kernel command line, accepts one connection
    after the other, answers one request on each through the guest runtime
    ([NodeExec]) and powers the machine off after an execution.

    A connection is the text that can be read from it and what happens to the
    writes ([GuestConn]); the JSON texts written to it are recorded.  An error of the loop
    ends the program, and with it the machine. *)

From Stdlib Require Import Ascii.
From stdpp Require Import base decidable tactics numbers list gmap strings pretty.
From S2P Require Import Prelude Text Domain MemStore World Scheduler Artifacts Files Archive NetworkPool NodeAgent.
From S2P Require Import GuestScripts NodeExec GuestProto.

Definition preparedRoot : string := "/var/lib/lecrev/functions".
Definition guestNodeBinary : string := "/usr/local/bin/node".

(** ** The vsock port *)

Definition syntaxErr (s : string) : GoError := plainErr ("strconv.ParseUint: parsing " +:+ quote s +:+ ": invalid syntax").
Definition rangeErr (s : string) : GoError := plainErr ("strconv.ParseUint: parsing " +:+ quote s +:+ ": value out of range").

(** The loop of [strconv.ParseUint] in base 10, for 32 bits. *)
Fixpoint parseUintFrom (whole : string) (acc : Z) (s : string) : result Z :=
  match s with
  | EmptyString => Ok acc
  | String a rest =>
      match digit a with
      | None => Err (syntaxErr whole)
      | Some x => if (2 ^ 32 <=? acc * 10 + x)%Z then Err (rangeErr whole) else parseUintFrom whole (acc * 10 + x)%Z rest
      end
  end.

Definition ParseUint32 (s : string) : result Z :=
  if bool_decide (s = "") then Err (syntaxErr s) else parseUintFrom s 0 s.

Fixpoint portToken (tokens : list string) : result Z :=
  match tokens with
  | [] => Err (plainErr "missing lecrev.vsock_port kernel parameter")
  | token :: rest =>
      match TrimPrefix_go token "lecrev.vsock_port=" with
      | Some value =>
          match ParseUint32 value with
          | Ok port => Ok port
          | Err e => Err (wrapText "parse lecrev.vsock_port: " e "")
          end
      | None => portToken rest
      end
  end.

(** [env] is LECREV_VSOCK_PORT, [cmdline] the contents of /proc/cmdline. *)
Definition guestPort (env : string) (cmdline : result string) : result Z :=
  let raw := TrimSpace env in
  if negb (bool_decide (raw = "")) then
    match ParseUint32 raw with
    | Ok port => Ok port
    | Err e => Err (wrapText "parse LECREV_VSOCK_PORT: " e "")
    end
  else match cmdline with
       | Err e => Err (wrapText "read /proc/cmdline: " e "")
       | Ok cmdline => portToken (Fields cmdline)
       end.

(** ** Mounts and the loopback interface *)

Definition guestDirs : list string := ["/dev"; "/dev/pts"; "/dev/shm"; "/proc"; "/sys"; "/tmp"; preparedRoot].

(** Source, target, type and data. *)
Definition guestMounts : list (string * string * string * string) :=
  [("devtmpfs", "/dev", "devtmpfs", "mode=0755");
   ("devpts", "/dev/pts", "devpts", "newinstance,ptmxmode=0666,mode=0620");
   ("tmpfs", "/dev/shm", "tmpfs", "mode=1777");
   ("proc", "/proc", "proc", "");
   ("sysfs", "/sys", "sysfs", "");
   ("tmpfs", "/tmp", "tmpfs", "mode=1777")].

(** What a mount reports: success, the mount point in use, or another error. *)
Inductive MountResult := Mounted | MountBusy | MountFailed (e : GoError).

(** The loop over the mounts with the mounts that were made. *)
Fixpoint mountAll (mount : string → MountResult) (done : list string) (l : list (string * string * string * string)) :
    option GoError * list string :=
  match l with
  | [] => (None, done)
  | (_, target, _, _) :: rest =>
      match mount target with
      | Mounted => mountAll mount (done ++ [target]) rest
      | MountBusy => mountAll mount done rest
      | MountFailed e => (Some e, done)
      end
  end.

Definition mountGuestFilesystems (mount : string → MountResult) : M Tree (list string) :=
  for_each guestDirs (λ path, MkdirAll (comps path)) ≫= λ _,
  lift (match mountAll mount [] guestMounts with
        | (None, done) => Ok done
        | (Some e, _) => Err e
        end).

Definition IFF_UP : Z := 1.
Definition IFF_RUNNING : Z := 64.

(** The flags that are set, if any; [flags] are 16 bits. *)
Definition loopbackFlags (flags : Z) : option Z :=
  if negb (Z.land flags IFF_UP =? 0)%Z then None else Some (Z.lor (Z.lor flags IFF_UP) IFF_RUNNING).

(** ** Connections *)

(** [gc_Request]: the request as it is read; [gc_EventErr]: the error of writing
    the frame of a streamed event, by the number of events before it. *)
Record GuestConn := mkGuestConn {
  gc_Request : result string;
  gc_EventErr : nat → HTTPStreamEvent → option GoError;
  gc_ReplyErr : option GoError;
}.

(** [gt_replies]: what has been written to connections, one text for each
    encoded message. *)
Record GuestState := mkGuestState { gt_node : NodeState; gt_replies : list string; gt_off : bool }.

#[export] Instance GuestState_rebuild : Rebuild GuestState := λ r, mkGuestState (gt_node r) (gt_replies r) (gt_off r).

Abbreviation GM := (M GuestState).

Definition onNode {A} (m : NM A) : GM A := λ g, let '(r, n) := m (gt_node g) in (r, g <| gt_node := n |>).

(** [Encode] of a message whose text is [reply]. *)
Definition writeReply (conn : GuestConn) (reply : result string) : GM unit :=
  text ← lift reply;
  match gc_ReplyErr conn with
  | Some e => fail e
  | None => modify (λ g, g <| gt_replies := gt_replies g ++ [text] |>)
  end.

Section Guest.
Context `{!NodeTools, !MapOrder, !GuestJson}.

Definition guestID (input : string) : string :=
  if bool_decide (input = "") then "unknown" else sanitizeRunes input.

Definition preparedWorkspace (functionID : string) : string := JoinPath preparedRoot (guestID functionID).

(** ** Requests *)

(** [events]: what happens while a new worker is awaited. *)
Definition prepare (events : list ConnectEvent) (request : option GuestPrepareRequest) :
    NM (GuestPrepareResponse * option GoError) :=
  let refused e := mret (mkGuestPrepareResponse false false "", Some e) in
  match request with
  | None => refused (plainErr "missing prepare request")
  | Some request =>
      let workspace := preparedWorkspace (gp_FunctionID request) in
      removed ← try (onFiles (RemoveAll (comps workspace)));
      match removed with
      | Err e => refused e
      | Ok _ =>
          unpacked ← try (onFiles (PrepareWorkspace (gp_ArtifactBundle request) workspace));
          match unpacked with
          | Err e => refused e
          | Ok _ =>
              stat ← gets (λ s, Stat (comps (JoinPath workspace (gp_Entrypoint request))) (ne_tree s));
              match stat with
              | Err e => refused (wrapText ("prepared entrypoint " +:+ gp_Entrypoint request +:+ ": ") e "")
              | Ok _ =>
                  if bool_decide (gp_Env request = ∅) then
                    started ← try (StartPreparedWorker
                      (mkWorkspaceRequest "" "" (gp_FunctionID request) workspace (gp_Entrypoint request) "" ∅ 0 "" ""
                         guestNodeBinary None) events);
                    match started with
                    | Err e => mret (mkGuestPrepareResponse true false (Error e), None)
                    | Ok _ =>
                        ReleasePreparedWorkerConnection (gp_FunctionID request) ≫= λ _,
                        mret (mkGuestPrepareResponse true true "", None)
                    end
                  else mret (mkGuestPrepareResponse true false "", None)
              end
          end
      end
  end.

(** The workspace request of an invocation. *)
Definition invocationRequest (request : GuestInvocationRequest)
    (sink : option (nat → HTTPStreamEvent → option GoError)) : WorkspaceRequest :=
  mkWorkspaceRequest (gi_AttemptID request) (gi_JobID request) (gi_FunctionID request)
    (preparedWorkspace (gi_FunctionID request)) (gi_Entrypoint request) (gi_Payload request) (gi_Env request)
    (int64_of (gi_TimeoutMillis request * Millisecond)) (gi_Region request) (gi_HostID request) guestNodeBinary sink.

(** The body that [execute] and [executeStream] share. *)
Definition runGuest (request : GuestInvocationRequest) (sink : option (nat → HTTPStreamEvent → option GoError)) :
    NM (option NodeResult * option GoError) :=
  let req := invocationRequest request sink in
  if gi_UsePreparedRoot request then
    '(result, err) ← ExecutePreparedWorker req;
    match err with
    | Some e => if errors_Is e ErrPreparedWorkerUnavailable then ExecuteWorkspace req else mret (result, err)
    | None => mret (result, err)
    end
  else ExecuteBundle req (gi_ArtifactBundle request).

Definition invocationResponse (result : option NodeResult) (err : option GoError) : GuestInvocationResponse :=
  let result := default (mkNodeResult 1 "" "" "") result in
  mkGuestInvocationResponse (nr_ExitCode result) (Combine (nr_PlatformTrace result) (nr_Logs result)) (nr_Output result)
    (match err with Some e => Error e | None => "" end).

(** [execute] with the error entered by its caller. *)
Definition execute (request : option GuestInvocationRequest) : NM GuestInvocationResponse :=
  match request with
  | None => mret (mkGuestInvocationResponse 1 "" "" "missing invocation request")
  | Some request =>
      '(result, err) ← runGuest request None;
      mret (invocationResponse result err)
  end.

(** The callback [stream]: the frame of an event is encoded and written. *)
Definition encodeEvent (event : HTTPStreamEvent) : result string :=
  json_MarshalGuestFrame (mkGuestStreamFrame GuestStreamFrameHTTPEvent (Some event) None "").
Definition eventErr (conn : GuestConn) (n : nat) (event : HTTPStreamEvent) : option GoError :=
  match encodeEvent event with
  | Err e => Some e
  | Ok _ => gc_EventErr conn n event
  end.

(** The frames of the events that could be written. *)
Definition eventFrames (conn : GuestConn) (before : nat) (events : list HTTPStreamEvent) : list string :=
  omap (λ e, match encodeEvent e.2, eventErr conn (before + e.1) e.2 with
             | Ok text, None => Some text
             | _, _ => None
             end) (zip (seq 0 (length events)) events).

Definition executeStream (conn : GuestConn) (request : GuestInvocationRequest) : GM unit :=
  before ← gets (λ g, length (ne_events (gt_node g)));
  '(result, err) ← onNode (runGuest request (Some (eventErr conn)));
  modify (λ g, g <| gt_replies := gt_replies g ++ eventFrames conn before (drop before (ne_events (gt_node g))) |>) ≫= λ _,
  let response := invocationResponse result err in
  writeReply conn (json_MarshalGuestFrame
    (mkGuestStreamFrame GuestStreamFrameInvocation None (Some response) (gir_Error response))).

(** Whether the machine is to be shut down. *)
Definition handleConnection (events : list ConnectEvent) (conn : GuestConn) : GM bool :=
  text ← lift (gc_Request conn);
  request ← lift (json_UnmarshalGuestRequest text);
  let streamed :=
    match gq_Invocation request with
    | Some inv => if bool_decide (gq_Action request = GuestActionExecute) && gi_EnableStreaming inv &&
                     bool_decide (gi_StreamKind inv = StreamKindHTTP) then Some inv else None
    | None => None
    end in
  match streamed with
  | Some inv => executeStream conn inv ≫= λ _, mret true
  | None =>
      '(response, shouldShutdown) ←
        (if bool_decide (gq_Action request = GuestActionPing) then
           mret (mkGuestResponse "" (Some true) None None, false)
         else if bool_decide (gq_Action request = GuestActionPrepare) then
           '(resp, err) ← onNode (prepare events (gq_Prepare request));
           mret (mkGuestResponse (match err with Some e => Error e | None => "" end) None (Some resp) None, false)
         else if bool_decide (gq_Action request = GuestActionExecute) then
           resp ← onNode (execute (gq_Invocation request));
           mret (mkGuestResponse "" None None (Some resp), true)
         else mret (mkGuestResponse ("unsupported guest action " +:+ quote (gq_Action request)) None None None, false));
      writeReply conn (json_MarshalGuestResponse response) ≫= λ _, mret shouldShutdown
  end.

(** The loop over accepted connections; the list ends while the runner waits. *)
Fixpoint serve (conns : list (result GuestConn * list ConnectEvent)) : GM unit :=
  match conns with
  | [] => mret tt
  | (accepted, events) :: rest =>
      conn ← lift accepted;
      shouldShutdown ← handleConnection events conn;
      if shouldShutdown : bool then modify (λ g, g <| gt_off := true |>) else serve rest
  end.

(** [main]: failed mounts are only logged.  [listens] is what [listenVsock]
    reports for a port. *)
Definition guestMain (mount : string → MountResult) (env : string) (cmdline : result string) (listens : Z → option GoError)
    (conns : list (result GuestConn * list ConnectEvent)) : GM unit :=
  try (onNode (onFiles (mountGuestFilesystems mount))) ≫= λ _,
  port ← lift (guestPort env cmdline);
  match listens port with
  | Some e => fail e
  | None => serve conns
  end.

End Guest.
