(* ===== verification/GuestFacts.v ===== *)
(** * GuestFacts: the guest and its driver together

    Theorems: the guest finds the port the driver wrote on its command line; what
    a prepared guest holds; the result of an invocation through a virtual machine
    is that of the guest runtime, as far as the encoding carries it. *)

From Stdlib Require Import Ascii.
From stdpp Require Import base decidable tactics numbers list gmap strings pretty.
From S2P Require Import Prelude Text Domain MemStore World Scheduler Artifacts Files Archive NetworkPool NodeAgent.
From S2P Require Import GuestScripts NodeExec GuestProto GuestRunner MicroVM Snapshot.

(** ** The command line *)

(** A printable ASCII byte that is not a space. *)
Definition wordByte (a : ascii) : bool := in_range 33 126 a.

Fixpoint word (s : string) : bool :=
  match s with EmptyString => true | String a s => wordByte a && word s end.

Lemma runes_ascii a s : in_range 0 127 a = true → runes (String a s) = (true, String a "") :: runes s.
Proof.
  intros Ha. assert (runeSize (String a s) = 1) as E; [|cbn [runes]; by rewrite E]. unfold runeSize. by rewrite Ha.
Qed.

Lemma wordByte_ascii a : wordByte a = true → in_range 0 127 a = true ∧ space1 a = false.
Proof.
  unfold wordByte, in_range. rewrite !andb_true_iff, !N.leb_le. intros [H1 H2]. split; [split; lia|].
  unfold space1. cbn zeta. destruct (N.leb_spec 9 (N_of_ascii a)), (N.leb_spec (N_of_ascii a) 13), (N.eqb_spec (N_of_ascii a) 32); try done; lia.
Qed.

(** What may follow a word: the end or an ASCII space. *)
Definition boundary (s : string) : Prop := s = "" ∨ ∃ a r, s = String a r ∧ in_range 0 127 a = true ∧ space1 a = true.

Lemma fields_word cur t rest : word t = true → boundary rest → cur +:+ t ≠ "" →
  fieldsFrom cur (runes (t +:+ rest)) = (cur +:+ t) :: fieldsFrom "" (runes rest).
Proof.
  revert cur. induction t as [|a t IH]; intros cur Ht Hb Hne.
  - change ("" +:+ rest) with rest. rewrite string_app_nil_r in *. destruct Hb as [->|(a & r & -> & Ha & Hs)].
    + cbn. by rewrite bool_decide_eq_false_2.
    + rewrite runes_ascii by done. cbn. rewrite Hs. by rewrite bool_decide_eq_false_2.
  - cbn in Ht. apply andb_true_iff in Ht as [Ha Ht]. apply wordByte_ascii in Ha as [Ha Hs].
    change (String a t +:+ rest) with (String a (t +:+ rest)). rewrite runes_ascii by done. cbn. rewrite Hs.
    rewrite IH; [|done|done|].
    + by rewrite string_app_assoc.
    + intros E. apply Hne. by rewrite string_app_assoc in E.
Qed.

Lemma Fields_word t rest : word t = true → t ≠ "" → boundary rest → Fields (t +:+ rest) = t :: Fields rest.
Proof. intros Ht Hne Hb. unfold Fields. by rewrite (fields_word "" t rest Ht Hb). Qed.

Lemma Fields_space rest : Fields (" " +:+ rest) = Fields rest.
Proof. reflexivity. Qed.

Lemma Join_words t l : Join (t :: l) " " = t +:+ match l with [] => "" | _ => " " +:+ Join l " " end.
Proof. destruct l; simpl; [by rewrite string_app_nil_r|done]. Qed.

Lemma Fields_Join t l tail :
  word t = true → t ≠ "" → boundary tail → Fields (Join (t :: l) " " +:+ tail) = t :: Fields (Join l " " +:+ tail).
Proof.
  intros Ht Hne Hb. rewrite Join_words, string_app_assoc, Fields_word; [|done..|].
  - destruct l; [done|]. by rewrite string_app_assoc, Fields_space.
  - destruct l; [done|]. right. by do 2 eexists.
Qed.

(** ** Decimal numbers *)

Lemma digit_char (x : N) : (x < 10)%N → digit (pretty_N_char x) = Some (Z.of_N x) ∧ wordByte (pretty_N_char x) = true.
Proof.
  intros Hx. assert (x = 0 ∨ x = 1 ∨ x = 2 ∨ x = 3 ∨ x = 4 ∨ x = 5 ∨ x = 6 ∨ x = 7 ∨ x = 8 ∨ x = 9)%N as Hin by lia.
  by destruct_or! Hin; subst.
Qed.

Lemma parseUint_go w x s : (x < 2 ^ 32)%N → parseUintFrom w 0 (pretty_N_go x s) = parseUintFrom w (Z.of_N x) s.
Proof.
  revert s. induction (N.lt_wf_0 x) as [x _ IH]. intros s Hx. destruct (decide (0 < x)%N) as [Hpos|Hz].
  - rewrite pretty_N_go_step by done. rewrite IH; [|by apply N.div_lt|by etrans; [apply N.div_lt|]].
    destruct (digit_char (x mod 10)) as [Ed _]; [by apply N.mod_lt|]. cbn [parseUintFrom]. rewrite Ed.
    replace (Z.of_N (x / 10) * 10 + Z.of_N (x mod 10))%Z with (Z.of_N x)
      by (pose proof (N.div_mod' x 10); lia).
    destruct (Z.leb_spec (2 ^ 32) (Z.of_N x)); [lia|done].
  - assert (x = 0%N) as -> by lia. by rewrite pretty_N_go_0.
Qed.

Lemma word_go x s : word s = true → word (pretty_N_go x s) = true.
Proof.
  revert s. induction (N.lt_wf_0 x) as [x _ IH]. intros s Hs. destruct (decide (0 < x)%N) as [Hpos|Hz].
  - rewrite pretty_N_go_step by done. apply IH; [by apply N.div_lt|]. cbn. rewrite Hs, andb_true_r.
    apply digit_char. by apply N.mod_lt.
  - assert (x = 0%N) as -> by lia. by rewrite pretty_N_go_0.
Qed.

Lemma go_nonempty x s : (0 < x)%N → pretty_N_go x s ≠ "".
Proof.
  revert s. induction (N.lt_wf_0 x) as [x _ IH]. intros s Hx. rewrite pretty_N_go_step by done.
  destruct (decide (0 < x / 10)%N) as [Hd|Hd]; [by apply IH; [apply N.div_lt|]|].
  apply N.nlt_ge, N.le_0_r in Hd. rewrite Hd. by rewrite pretty_N_go_0.
Qed.

Lemma itoa_N (port : Z) : (0 ≤ port)%Z → itoa port = pretty (Z.to_N port).
Proof. intros Hp. unfold itoa. destruct port; [done|done|lia]. Qed.

Lemma ParseUint32_itoa (port : Z) : (0 ≤ port < 2 ^ 32)%Z → ParseUint32 (itoa port) = Ok port ∧ word (itoa port) = true.
Proof.
  intros Hp. rewrite itoa_N by lia. unfold pretty, pretty_N. destruct (decide (Z.to_N port = 0)%N) as [E|E].
  - assert (port = 0%Z) as -> by lia. done.
  - split; [|by apply word_go]. unfold ParseUint32.
    rewrite bool_decide_eq_false_2 by (apply go_nonempty; lia).
    rewrite parseUint_go by lia. cbn. by rewrite Z2N.id by lia.
Qed.

(** The arguments start with the same seven. *)
Lemma bootArgs_shape d req network args :
  bootArgs d req network = Ok args →
  ∃ l, args = Join (["console=ttyS0"; "reboot=k"; "panic=1"; "pci=off"; "rw";
     "init=" +:+ cf_GuestInitPath (dv_config d); "lecrev.vsock_port=" +:+ itoa (cf_GuestVSockPort (dv_config d))] ++ l) " ".
Proof.
  unfold bootArgs. cbn zeta. generalize (if blank (cf_BootArgs (dv_config d)) then [] else Fields (cf_BootArgs (dv_config d))).
  intros more. destruct (isFullNetworkPolicy _).
  - destruct network as [n|]; [|done]. destruct (_ || _); [done|]. intros E. injection E as <-.
    eexists (more ++ [_]). reflexivity.
  - intros E. injection E as <-. eexists. reflexivity.
Qed.

Lemma portToken_skip t rest : TrimPrefix_go t "lecrev.vsock_port=" = None → portToken (t :: rest) = portToken rest.
Proof. intros E. cbn [portToken]. by rewrite E. Qed.

Lemma portToken_found value rest :
  portToken (("lecrev.vsock_port=" +:+ value) :: rest) =
    match ParseUint32 value with Ok port => Ok port | Err e => Err (wrapText "parse lecrev.vsock_port: " e "") end.
Proof. reflexivity. Qed.

(** The guest finds its port.  The runner reads from the kernel command line
    the port for which the driver configured the machine, whatever boot arguments
    are configured and whatever the boot adds after them. *)
Theorem guest_port_roundtrip (d : VmDriver) (req : ExecuteRequest) (network : option networkConfig) (args tail : string)
    (Hargs : bootArgs d req network = Ok args)
    (Hinit : word (cf_GuestInitPath (dv_config d)) = true)
    (Hport : (0 ≤ cf_GuestVSockPort (dv_config d) < 2 ^ 32)%Z) (Htail : boundary tail) :
  guestPort "" (Ok (args +:+ tail)) = Ok (cf_GuestVSockPort (dv_config d)).
Proof.
  apply bootArgs_shape in Hargs as [l ->]. destruct (ParseUint32_itoa _ Hport) as [Hparse Hword].
  change (portToken (Fields (Join (["console=ttyS0"; "reboot=k"; "panic=1"; "pci=off"; "rw";
     "init=" +:+ cf_GuestInitPath (dv_config d); "lecrev.vsock_port=" +:+ itoa (cf_GuestVSockPort (dv_config d))] ++ l) " "
     +:+ tail)) = Ok (cf_GuestVSockPort (dv_config d))).
  cbn [app]. do 7 (rewrite Fields_Join; [|first [done|exact Hinit|exact Hword]|done|done]).
  do 6 (rewrite portToken_skip; [|reflexivity]). rewrite portToken_found.
  by rewrite Hparse.
Qed.

Definition demo_guestdriver : VmDriver :=
  mkVmDriver (withDefaults "/tmp" 0 0 (mkConfig "f" "" "/k" "/r" "" "" "" false "" 0 0 0 0 " quiet  loglevel=3 " "" "" ""
    "" "" "" 0 "" 0 0 0 0 0 0 0 0)) [].

Lemma guest_port_roundtrip_witness :
  let req := mkExecuteRequest "a" "j" "f" "index.mjs" "" "" None 0 128 "none" "r" "h" false in
  ∃ args, bootArgs demo_guestdriver req None = Ok args ∧ Contains args "quiet loglevel=3" = true ∧
          guestPort "" (Ok (args +:+ " root=/dev/vda")) = Ok 5005%Z.
Proof.
  eexists. split; [reflexivity|]. split; [reflexivity|].
  apply (guest_port_roundtrip demo_guestdriver (mkExecuteRequest "a" "j" "f" "index.mjs" "" "" None 0 128 "none" "r" "h" false)
    None _ " root=/dev/vda"); [reflexivity|reflexivity|by vm_compute|].
  right. by do 2 eexists.
Defined.

(** ** Preparing *)

Section Preparing.
Context `{!NodeTools, !MapOrder}.

(** A method after which a controller is filed. *)
Definition files {A} (functionID : string) (m : NM A) : Prop :=
  ∀ s a s', m s = (Ok a, s') → is_Some (ne_workers s' !! functionID).

Lemma setConnection_files functionID open : files functionID (setConnection functionID open).
Proof. intros s a s' [= <- <-]. exists open. apply lookup_insert_eq. Qed.

Lemma openConnection_files functionID : files functionID (openConnection functionID).
Proof.
  intros s a s'. unfold openConnection. rewrite M_bind_eq. cbn [gets].
  destruct (default false (ne_workers s !! functionID)) eqn:E.
  - intros [= _ <-]. destruct (ne_workers s !! functionID); [by eexists|done].
  - rewrite M_bind_eq. unfold NodeExec.interact. destruct (node_Dial _); [|done]. apply setConnection_files.
Qed.

Lemma request_keeps functionID msg s a s' :
  NodeExec.request functionID msg s = (Ok a, s') → is_Some (ne_workers s !! functionID) → is_Some (ne_workers s' !! functionID).
Proof.
  unfold NodeExec.request, sendRequest. rewrite !M_bind_eq. cbn [gets].
  destruct (negb _); [done|]. rewrite M_bind_eq. unfold NodeExec.interact.
  destruct (node_Exchange _ _ _) as [e|responses e]; rewrite M_bind_eq; [done|]. cbn [modify].
  destruct responses; [done|]. by intros [= _ <-].
Qed.

Lemma connect_files functionID events : files functionID (connectPreparedWorker functionID events).
Proof.
  induction events as [|ev events IH]; intros s a s'; cbn [connectPreparedWorker]; rewrite M_bind_eq; unfold try at 1;
    destruct (openConnection functionID s) as [[u|e] s1] eqn:Eo; rewrite M_bind_eq.
  all: try (cbn; destruct ev as [|?|[?|]]; try done; apply IH).
  all: try done.
  all: rewrite M_bind_eq; unfold try at 1; destruct (NodeExec.request functionID (controlMessage "ping") s1) as [[resp|e] s2] eqn:Er.
  all: try (rewrite M_bind_eq; cbn; done).
  all: try (rewrite M_bind_eq; cbn; destruct ev as [|?|[?|]]; try done; apply IH).
  all: destruct (pr_Ready resp); [cbn; intros [= _ <-]; by eapply request_keeps, (openConnection_files functionID s u)|].
  all: rewrite M_bind_eq; cbn; try done.
  all: destruct ev as [|?|[?|]]; try done; apply IH.
Qed.

Lemma files_bind {A B} functionID (m : NM A) (k : A → NM B) : (∀ a, files functionID (k a)) → files functionID (m ≫= k).
Proof. intros Hk s b s'. rewrite M_bind_eq. destruct (m s) as [[a|e] s1]; [apply Hk|done]. Qed.

Lemma files_fail {A} functionID e : files functionID (fail e : NM A).
Proof. by intros s a s'. Qed.

Lemma start_files (req : WorkspaceRequest) events : files (wr_FunctionID req) (StartPreparedWorker req events).
Proof.
  unfold StartPreparedWorker. cbn zeta. do 3 (case_match; [apply files_fail|]). apply files_bind. intros stat.
  destruct stat; [|apply files_fail]. do 5 (apply files_bind; intros ?). intros s u s'. rewrite M_bind_eq. unfold try.
  destruct (connectPreparedWorker (wr_FunctionID req) events s) as [[c|e] s1] eqn:Ec.
  - intros [= _ <-]. by eapply connect_files.
  - cbn. done.
Qed.

(** Files only. *)
Lemma onFiles_workers {A} (m : M Tree A) s :
  ne_workers (onFiles m s).2 = ne_workers s ∧ ne_sent (onFiles m s).2 = ne_sent s.
Proof. unfold onFiles. by destruct (m (ne_tree s)). Qed.

End Preparing.

(** What a prepared guest answers and holds. *)
Definition prepared_ok (request : GuestPrepareRequest) (s s' : NodeState) (resp : GuestPrepareResponse)
    (err : option GoError) : Prop :=
  (gpr_Prepared resp = true ↔ err = None) ∧
  (gpr_WorkerPrepared resp = true → gp_Env request = ∅ ∧ ne_workers s' !! gp_FunctionID request = Some false) ∧
  (gp_Env request ≠ ∅ → ne_workers s' = ne_workers s ∧ ne_sent s' = ne_sent s).

(** Preparing a guest always answers, and reports a prepared workspace exactly
    when it reports no error.  A worker is started only for a function without
    environment variables, and then its control connection is closed, so a
    snapshot of the machine holds no open connection; with environment variables
    no worker is touched, so none of them is in the snapshot. *)
Theorem guest_prepare_spec (NT : NodeTools) (MO : MapOrder) (events : list ConnectEvent) (request : GuestPrepareRequest)
    (s : NodeState) :
  ∃ resp err s', prepare events (Some request) s = (Ok (resp, err), s') ∧ prepared_ok request s s' resp err.
Proof.
  assert (∀ e s', ne_workers s' = ne_workers s → ne_sent s' = ne_sent s →
    prepared_ok request s s' (mkGuestPrepareResponse false false "") (Some e)) as Hrefused by done.
  unfold prepare. cbn zeta. rewrite M_bind_eq. unfold try at 1.
  destruct (onFiles_workers (RemoveAll (comps (preparedWorkspace (gp_FunctionID request)))) s) as [W1 S1].
  destruct (onFiles _ s) as [[u|e] s1]; cbn [snd] in W1, S1; [|by do 3 eexists].
  rewrite M_bind_eq. unfold try at 1.
  destruct (onFiles_workers (PrepareWorkspace (gp_ArtifactBundle request) (preparedWorkspace (gp_FunctionID request))) s1) as [W2 S2].
  destruct (onFiles _ s1) as [[u'|e] s2]; cbn [snd] in W2, S2; rewrite W1 in W2; rewrite S1 in S2; [|by do 3 eexists].
  rewrite M_bind_eq. cbn [gets]. destruct (Stat _ _); [|by do 3 eexists].
  case_bool_decide as Henv; [|by do 3 eexists]. rewrite M_bind_eq. unfold try at 1.
  destruct (StartPreparedWorker _ events s2) as [[v|e] s3] eqn:Es.
  - apply start_files in Es. cbn [wr_FunctionID] in Es. rewrite M_bind_eq. unfold ReleasePreparedWorkerConnection.
    rewrite M_bind_eq. cbn [gets]. rewrite bool_decide_eq_true_2 by done. cbn [setConnection modify].
    do 3 eexists. split; [done|]. split_and!; [done| |done]. intros _. split; [done|]. apply lookup_insert_eq.
  - do 3 eexists. split; [done|]. split_and!; [done|done|done].
Qed.

(** ** Invocations *)

(** One request on a connection whose writes succeed. *)
Definition served `{!NodeTools, !MapOrder, !GuestJson} (events : list ConnectEvent) (text : string) (g : GuestState) :
    result bool * GuestState :=
  handleConnection events (mkGuestConn (Ok text) (λ _ _, None) None) g.

(** What the guest answers to an execution, as the runtime ended it. *)
Definition guestAnswer (result : option NodeResult) (err : option GoError) : GuestResponse :=
  let out := default (mkNodeResult 1 "" "" "") result in
  mkGuestResponse "" None None (Some (mkGuestInvocationResponse (nr_ExitCode out)
    (Combine (nr_PlatformTrace out) (nr_Logs out)) (nr_Output out) (match err with Some e => Error e | None => "" end))).

(** The guest's side of an execution: the answer is written if it can be encoded;
    otherwise the connection ends without one. *)
Lemma served_execution `{!NodeTools, !MapOrder, !GuestJson} events text inv g result err n' :
  json_UnmarshalGuestRequest text = Ok (mkGuestRequest GuestActionExecute false None (Some inv)) →
  gi_EnableStreaming inv = false →
  runGuest inv None (gt_node g) = (Ok (result, err), n') →
  drop (length (gt_replies g)) (gt_replies (served events text g).2) =
    match json_MarshalGuestResponse (guestAnswer result err) with Ok reply => [reply] | Err _ => [] end ∧
  ∀ e, json_MarshalGuestResponse (guestAnswer result err) = Err e → (served events text g).1 = Err e.
Proof.
  intros Hdec Hinv Hrun.
  assert (served events text g =
    let g' := g <| gt_node := n' |> in
    match json_MarshalGuestResponse (guestAnswer result err) with
    | Ok reply => (Ok true, g' <| gt_replies := gt_replies g ++ [reply] |>)
    | Err e => (Err e, g')
    end) as ->.
  { unfold served, handleConnection. rewrite M_bind_eq. cbn [lift gc_Request].
    rewrite M_bind_eq. unfold lift at 1. rewrite Hdec. cbn [gq_Invocation gq_Action]. rewrite Hinv, andb_false_r. cbn [andb].
    rewrite M_bind_eq. rewrite (bool_decide_eq_false_2 (GuestActionExecute = GuestActionPing)),
      (bool_decide_eq_false_2 (GuestActionExecute = GuestActionPrepare)),
      (bool_decide_eq_true_2 (GuestActionExecute = GuestActionExecute)) by done.
    rewrite M_bind_eq. unfold onNode, execute. rewrite M_bind_eq, Hrun. cbn [mret M_ret]. cbv beta iota.
    rewrite M_bind_eq. unfold writeReply. rewrite M_bind_eq. unfold lift.
    change (mkGuestResponse "" None None (Some (invocationResponse result err))) with (guestAnswer result err).
    by destruct (json_MarshalGuestResponse (guestAnswer result err)). }
  cbv zeta. destruct (json_MarshalGuestResponse (guestAnswer result err)) as [reply|e].
  - cbn. by rewrite drop_app_length.
  - cbn. rewrite drop_all. split; [done|]. by intros ? [= ->].
Qed.

(** What the driver makes of an answer. *)
Definition driverResult (resp : GuestInvocationResponse) (logs : string) : option ExecuteResult * option GoError :=
  (Some (mkExecuteResult (gir_ExitCode resp) logs (gir_Output resp) ""),
   if bool_decide (gir_Error resp = "") then None else Some (plainErr (gir_Error resp))).

(** The driver's side: the first answer, decoded. *)
Lemma run_answered (Env : VmEnv) (d : VmDriver) (v : vmInstance) (req : VmRequest) (prepared : bool) (s : VmState) (reply : string)
    (r : GuestResponse) (resp : GuestInvocationResponse) :
  let q := mkGuestRequest GuestActionExecute false None (Some (guestInvocationRequest req prepared)) in
  let exch := vm_Exchange (S (vm_step s)) (vl_vsockSocketHost (vi_layout v)) q in
  xr_EnableStreaming req = false → vm_Turns (vm_step s) ≠ [] →
  ge_Dial exch = None → ge_Connect exch = None → ge_Line exch = Ok "OK 1024" → ge_Send exch = None →
  is_ok (json_MarshalGuestRequest q) = true → ge_Messages exch = [reply] →
  json_UnmarshalGuestResponse reply = Ok r → gs_Invocation r = Some resp →
  ∃ logs, (runInvocation d v req prepared s).1 = Ok (driverResult resp logs) ∧ (gir_Error resp = "" → logs = gir_Logs resp).
Proof.
  intros q exch Hstream Hturns R1 R2 R3 R4 Hq Hm Hr Hresp.
  unfold runInvocation. cbn zeta. rewrite Hstream. cbn [andb]. rewrite M_bind_eq. unfold invokeGuest, guestRequest.
  fold q. rewrite M_bind_eq. unfold try at 1. rewrite M_bind_eq. unfold MicroVM.interact at 1.
  destruct (vm_Turns (vm_step s)) as [|t turns]; [done|]. cbn [guestRetry]. rewrite M_bind_eq. unfold try at 1.
  unfold guestRequestOnce. rewrite M_bind_eq. unfold MicroVM.interact at 1.
  match goal with |- context [vm_Exchange ?n _ _] => change n with (S (vm_step s)) end.
  fold exch. rewrite M_bind_eq. unfold guestSend. rewrite R1, R2, R3, R4.
  change (negb (HasPrefix (TrimSpace "OK 1024") "OK")) with false. cbv iota. rewrite M_bind_eq. unfold lift at 1.
  destruct (json_MarshalGuestRequest q); [|done]. rewrite M_bind_eq. cbn [modify]. cbn [mret M_ret]. cbv beta iota.
  rewrite Hm. unfold lift. rewrite Hr. cbn. rewrite Hresp. cbn. unfold driverResult.
  case_bool_decide as Ee; cbn; [by eexists|]. unfold procLogs. rewrite M_bind_eq. cbn. by eexists.
Qed.

(** C16: an invocation without streaming through a virtual machine, over any
    encoding.  The guest runs what the driver's request is decoded to ([inv]); when
    its runner serves the driver's first connection, the driver returns what the answer (exit code,
    combined logs, output and error text of the guest runtime) is decoded to: the
    exit code, the output, an error exactly when the text is not empty, and without an
    error the logs.  So when both messages survive the encoding these are the ones
    of the runtime.  An answer that cannot be encoded ends the runner with that error,
    and nothing is written that the driver could read. *)
Theorem vm_invocation (Env : VmEnv) (NT : NodeTools) (MO : MapOrder) (d : VmDriver) (v : vmInstance) (req : VmRequest)
    (prepared : bool) (s : VmState) (g : GuestState) (events : list ConnectEvent) (text : string)
    (inv : GuestInvocationRequest) :
  let q := mkGuestRequest GuestActionExecute false None (Some (guestInvocationRequest req prepared)) in
  let exch := vm_Exchange (S (vm_step s)) (vl_vsockSocketHost (vi_layout v)) q in
  xr_EnableStreaming req = false →
  vm_Turns (vm_step s) ≠ [] →
  ge_Dial exch = None ∧ ge_Connect exch = None ∧ ge_Line exch = Ok "OK 1024" ∧ ge_Send exch = None →
  json_MarshalGuestRequest q = Ok text →
  json_UnmarshalGuestRequest text = Ok (mkGuestRequest GuestActionExecute false None (Some inv)) →
  gi_EnableStreaming inv = false →
  ge_Messages exch = drop (length (gt_replies g)) (gt_replies (served events text g).2) →
  ∀ result err n', runGuest inv None (gt_node g) = (Ok (result, err), n') →
  (∀ r resp, overWire json_MarshalGuestResponse json_UnmarshalGuestResponse (guestAnswer result err) = Ok r →
     gs_Invocation r = Some resp →
     ∃ logs, (runInvocation d v req prepared s).1 = Ok (driverResult resp logs) ∧
       (gir_Error resp = "" → logs = gir_Logs resp)) ∧
  (∀ e, json_MarshalGuestResponse (guestAnswer result err) = Err e →
     (served events text g).1 = Err e ∧ ge_Messages exch = []).
Proof.
  intros q exch Hstream Hturns (R1 & R2 & R3 & R4) Htext Hdec Hinv Hm result err n' Hrun.
  destruct (served_execution events text inv g result err n' Hdec Hinv Hrun) as [Hw Hf]. rewrite Hw in Hm. split.
  - intros r resp Hover Hresp. unfold overWire in Hover.
    destruct (json_MarshalGuestResponse (guestAnswer result err)) as [reply|e] eqn:Em; [|done].
    apply (run_answered Env d v req prepared s reply r resp); try assumption. fold q. by rewrite Htext.
  - intros e He. rewrite He in Hm. split; [by apply Hf|done].
Qed.

(** A machine with a prepared worker that answers. *)
Definition demo_guesttools : NodeTools := {|
  node_archives := demo_archives [];
  node_Run _ _ _ _ _ t := Ok (mkRunOutcome "" "" [] None false None t);
  node_Start _ _ _ _ _ := Ok tt;
  node_Stderr _ := "";
  node_Dial _ := Ok tt;
  node_Exchange _ _ _ := Answers [mkWorkerResponse "result" false "hi" "42" "" None] (plainErr "EOF");
  node_MkdirTemp _ t := Ok ("/tmp/b1", t);
  node_Pipe _ := Ok tt;
  node_TempDir := "/tmp";
  node_SocketPath f := "/tmp/" +:+ f;
  json_MarshalContext _ := Ok "{}";
  duration_String d := itoa d;
  time_Since _ := 0%Z;
|}.

Definition demo_guest : GuestState :=
  mkGuestState (mkNodeState (mkTree ∅ ∅ ∅) {[ "f" := true ]} [] [] 0) [] false.

Definition demo_guestreq : VmRequest :=
  mkVmRequest (mkExecuteRequest "a" "j" "f" "index.mjs" "" "7" None Second 128 "none" "r" "h" false) "" None.

Definition demo_invocation : GuestInvocationRequest := guestInvocationRequest demo_guestreq true.

(** An encoding that knows this request and carries exit code 0 and an output. *)
Definition demo_guestjson : GuestJson := {|
  json_MarshalGuestRequest q := Ok (gq_Action q);
  json_UnmarshalGuestRequest text := Ok (mkGuestRequest text false None (Some demo_invocation));
  json_MarshalGuestResponse r :=
    match gs_Invocation r with
    | Some (mkGuestInvocationResponse 0 _ output "") => Ok output
    | _ => Err (plainErr "unsupported")
    end;
  json_UnmarshalGuestResponse text := Ok (mkGuestResponse "" None None (Some (mkGuestInvocationResponse 0 "" text "")));
  json_MarshalGuestFrame _ := Err (plainErr "unsupported");
  json_UnmarshalGuestFrame _ := Err (plainErr "unsupported");
|}.

Definition demo_guestenv : VmEnv := {|
  vm_json := demo_guestjson;
  vm_GOOS := "linux"; vm_Outside _ t := t; vm_Fault _ := None; vm_Part _ := ""; vm_Spared _ _ := false;
  vm_Random _ := 7%N; vm_UnixNano _ := 0%Z; vm_ChownDenied _ := false; vm_Exit _ := Some None;
  vm_Output _ := ("", ""); vm_Api _ _ := Ok (204%Z, ""); vm_FileTurns _ := [TurnTick];
  vm_Turns _ := [None];
  vm_Exchange _ _ q := mkExchange None None (Ok "OK 1024") None
    (gt_replies (@served demo_guesttools list_order demo_guestjson [] (gq_Action q) demo_guest).2) (plainErr "EOF");
  vm_StreamExchange _ _ _ := mkExchange None None (Ok "OK 1024") None [] (plainErr "EOF");
  vm_Waits _ := []; vm_Since _ := 0%Z;
|}.

Lemma vm_invocation_witness :
  ∃ logs, (@runInvocation demo_guestenv demo_guestdriver (mkVmInstance (layoutAt "/w" "/w") 0) demo_guestreq true
             (mkVmState (mkTree ∅ ∅ ∅) ∅ None [] 3000 [] [] [] [] [] [] 0)).1 =
          Ok (driverResult (mkGuestInvocationResponse 0 "" "42" "") logs) ∧ logs = "".
Proof.
  edestruct (vm_invocation demo_guestenv demo_guesttools list_order demo_guestdriver (mkVmInstance (layoutAt "/w" "/w") 0)
    demo_guestreq true (mkVmState (mkTree ∅ ∅ ∅) ∅ None [] 3000 [] [] [] [] [] [] 0) demo_guest [] GuestActionExecute
    demo_invocation) as [H _];
    [reflexivity|discriminate|split; [reflexivity|split; [reflexivity|split; reflexivity]]|reflexivity|reflexivity|reflexivity
    |vm_compute; reflexivity|vm_compute; reflexivity|].
  destruct (H (mkGuestResponse "" None None (Some (mkGuestInvocationResponse 0 "" "42" "")))
    (mkGuestInvocationResponse 0 "" "42" "") eq_refl eq_refl) as (logs & E & El).
  exists logs. split; [exact E|]. exact (El eq_refl).
Defined.
