(* ===== verification/Leadership.v ===== *)
(** * Leadership: one leader by an advisory lock

    Models [internal/leadership/postgres.go].  Several processes run [Run] with
    the same key; each takes the advisory lock of the key in a session of its
    pool and runs its task while it holds the lock.  The lock server is Postgres
    as documented: a lock belongs to a session, the session that holds it gets it
    again, and it is freed when it is unlocked or its session ends.

    The processes are a transition system ([leader_step]): one step per
    alternative of the loops of [Run].  Tasks are goroutines: a cancelled one goes
    on until it ends by itself, also when [waitForTaskExit] has given up on it.

    Theorem: of the tasks that have not been told to stop, at most one belongs to
    a process whose session is alive. *)

From Stdlib Require Import Ascii.
From stdpp Require Import base decidable tactics numbers list gmap strings relations.
From S2P Require Import Prelude.

(** ** Configuration *)

Record LeaderConfig := mkLeaderConfig {
  lc_Name : string;
  lc_DSN : string;
  lc_Key : Z;
  lc_RetryInterval : Duration;
  lc_HealthcheckInterval : Duration;
}.

(** FNV-1a on 64 bits. *)
Fixpoint fnv1a (h : Z) (s : string) : Z :=
  match s with
  | EmptyString => h
  | String a rest => fnv1a ((Z.lxor h (Z.of_N (N_of_ascii a)) * 1099511628211) mod 2 ^ 64)%Z rest
  end.

Definition deriveKey (name : string) : Z := Z.land (fnv1a 14695981039346656037 name) (2 ^ 63 - 1).

(** The checks and defaults of [Run]; [None] when the task runs without a lock. *)
Definition leaderConfig (cfg : LeaderConfig) : result (option LeaderConfig) :=
  if blank (lc_DSN cfg) then Ok None
  else if blank (lc_Name cfg) then Err (plainErr "leader name is required")
  else Ok (Some (mkLeaderConfig (lc_Name cfg) (lc_DSN cfg)
                   (if (lc_Key cfg =? 0)%Z then deriveKey (lc_Name cfg) else lc_Key cfg)
                   (if (lc_RetryInterval cfg <=? 0)%Z then 2 * Second else lc_RetryInterval cfg)%Z
                   (if (lc_HealthcheckInterval cfg <=? 0)%Z then 5 * Second else lc_HealthcheckInterval cfg)%Z)).

(** ** The lock of one key *)

Record LockServer := mkLockServer { lk_holder : option nat; lk_alive : gset nat; lk_next : nat }.

(** [pool.Acquire] when the pool opens a connection: a session of its own. *)
Definition openSession (srv : LockServer) : LockServer :=
  mkLockServer (lk_holder srv) ({[lk_next srv]} ∪ lk_alive srv) (S (lk_next srv)).

(** The server notices that a session is gone. *)
Definition endSession (s : nat) (srv : LockServer) : LockServer :=
  mkLockServer (if bool_decide (lk_holder srv = Some s) then None else lk_holder srv) (lk_alive srv ∖ {[s]}) (lk_next srv).

(** [select pg_try_advisory_lock] *)
Definition tryAcquire (s : nat) (srv : LockServer) : bool * LockServer :=
  match lk_holder srv with
  | None => (true, mkLockServer (Some s) (lk_alive srv) (lk_next srv))
  | Some h => (bool_decide (h = s), srv)
  end.

(** [select pg_advisory_unlock], when the query reaches the server. *)
Definition unlock (s : nat) (srv : LockServer) : LockServer :=
  if bool_decide (lk_holder srv = Some s) then mkLockServer None (lk_alive srv) (lk_next srv) else srv.

(** ** Processes *)

(** Where [Run] is: at the top of its loop, in [sleepContext], in the loop over
    the heartbeat, in [waitForTaskExit] after a lost lock, or returned. *)
Inductive LeaderPhase :=
| Trying
| Sleeping
| Leading
| Losing
| Finished.

(** [cd_task] is the task of the present term while it runs, with whether its
    context is cancelled; [cd_leftover] counts the tasks of earlier terms that
    still run; [cd_pool] are the idle sessions of the pool. *)
Record Candidate := mkCandidate {
  cd_phase : LeaderPhase;
  cd_session : nat;
  cd_task : option bool;
  cd_leftover : nat;
  cd_canceled : bool;
  cd_pool : gset nat;
}.

#[export] Instance Candidate_rebuild : Rebuild Candidate :=
  λ r, mkCandidate (cd_phase r) (cd_session r) (cd_task r) (cd_leftover r) (cd_canceled r) (cd_pool r).

Definition NewCandidate : Candidate := mkCandidate Trying 0 None 0 false ∅.

(** [cancel()] *)
Definition cancelTask (c : Candidate) : Candidate := c <| cd_task := (λ _, true) <$> cd_task c |>.

(** [go fn(runCtx)] once the lock is held in the session [s]; a context that is
    done already is done for the task. *)
Definition startTask (s : nat) (c : Candidate) : Candidate :=
  mkCandidate Leading s (Some (cd_canceled c))
    (if cd_task c is Some _ then S (cd_leftover c) else cd_leftover c) (cd_canceled c) (cd_pool c ∖ {[s]}).

(** [Run] returns and closes its pool. *)
Definition finish (c : Candidate) : Candidate := c <| cd_phase := Finished |> <| cd_pool := ∅ |>.

(** [pool.Acquire]: an idle session or a new one. *)
Inductive acquireConn (srv : LockServer) (c : Candidate) : nat → LockServer → Prop :=
| ac_idle s : s ∈ cd_pool c → acquireConn srv c s srv
| ac_open : acquireConn srv c (lk_next srv) (openSession srv).

(** [unlock] and [conn.Release]: the session goes back to the pool when the query
    has been answered; otherwise the connection is closed, and the server may or
    may not have run the query. *)
Inductive giveBack (srv : LockServer) (c : Candidate) : LockServer → Candidate → Prop :=
| gb_unlocked :
    cd_session c ∈ lk_alive srv →
    giveBack srv c (unlock (cd_session c) srv) (c <| cd_pool := {[cd_session c]} ∪ cd_pool c |>)
| gb_failed : giveBack srv c srv c
| gb_unanswered : giveBack srv c (unlock (cd_session c) srv) c.

(** A step of one process. *)
Inductive leader_step (srv : LockServer) (c : Candidate) : LockServer → Candidate → Prop :=
(** The context of the caller ends, and with it that of the task. *)
| ls_cancel :
    leader_step srv c srv ((cancelTask c) <| cd_canceled := true |>)
(** The task of this term ends, or one of an earlier term. *)
| ls_task_ends k :
    cd_task c = Some k →
    leader_step srv c srv (c <| cd_task := None |>)
| ls_leftover_ends n :
    cd_leftover c = S n →
    leader_step srv c srv (c <| cd_leftover := n |>)
(** [ctx.Err()] or an error of [pool.Acquire]. *)
| ls_refused :
    cd_phase c = Trying →
    leader_step srv c srv (finish c)
(** An error of the query; the server may have run it. *)
| ls_refused_query s srv1 :
    cd_phase c = Trying → acquireConn srv c s srv1 →
    leader_step srv c srv1 (finish c)
| ls_refused_unanswered s srv1 :
    cd_phase c = Trying → acquireConn srv c s srv1 → s ∈ lk_alive srv1 →
    leader_step srv c (tryAcquire s srv1).2 (finish c)
(** The lock is taken. *)
| ls_acquired s srv1 srv2 :
    cd_phase c = Trying → acquireConn srv c s srv1 → s ∈ lk_alive srv1 → tryAcquire s srv1 = (true, srv2) →
    leader_step srv c srv2 (startTask s c)
(** Another session holds it. *)
| ls_busy s srv1 srv2 :
    cd_phase c = Trying → acquireConn srv c s srv1 → s ∈ lk_alive srv1 → tryAcquire s srv1 = (false, srv2) →
    leader_step srv c srv2 (c <| cd_phase := Sleeping |> <| cd_pool := {[s]} ∪ cd_pool c |>)
| ls_awake :
    cd_phase c = Sleeping →
    leader_step srv c srv (c <| cd_phase := Trying |>)
| ls_asleep_canceled :
    cd_phase c = Sleeping → cd_canceled c = true →
    leader_step srv c srv (finish c)
(** The caller's context is done: the lock is given back at once. *)
| ls_done srv' c' :
    cd_phase c = Leading → cd_canceled c = true → giveBack srv (cancelTask c) srv' c' →
    leader_step srv c srv' (finish c')
(** The result of the task has arrived. *)
| ls_result srv' c' :
    cd_phase c = Leading → cd_task c = None → giveBack srv c srv' c' →
    leader_step srv c srv' (finish c')
(** [pingLockConnection] fails, because the session is gone or in any other way. *)
| ls_lost :
    cd_phase c = Leading →
    leader_step srv c srv ((cancelTask c) <| cd_phase := Losing |>)
(** [waitForTaskExit] is over, the task has ended or not. *)
| ls_released srv' c' :
    cd_phase c = Losing → giveBack srv c srv' c' →
    leader_step srv c srv' (c' <| cd_phase := Sleeping |>).

(** A process moves, or the server loses a session. *)
Inductive leaders_step : LockServer * list Candidate → LockServer * list Candidate → Prop :=
| step_process srv cs i c srv' c' :
    cs !! i = Some c → leader_step srv c srv' c' →
    leaders_step (srv, cs) (srv', <[i := c']> cs)
| step_session srv cs s :
    leaders_step (srv, cs) (endSession s srv, cs).

Definition leaders_init (n : nat) : LockServer * list Candidate := (mkLockServer None ∅ 0, replicate n NewCandidate).

(** ** The invariant *)

(** The sessions a process owns: the one of its term and the idle ones. *)
Definition term (c : Candidate) : option nat :=
  match cd_phase c with Leading | Losing => Some (cd_session c) | _ => None end.

Definition owns (c : Candidate) (s : nat) : Prop := term c = Some s ∨ s ∈ cd_pool c.

Record candidate_ok (srv : LockServer) (c : Candidate) : Prop := {
  co_task : cd_task c = Some false → cd_phase c = Leading;
  co_canceled : cd_canceled c = true → cd_task c ≠ Some false;
  co_known : ∀ s, owns c s → s < lk_next srv;
  co_idle : ∀ s, s ∈ cd_pool c → lk_holder srv ≠ Some s ∧ term c ≠ Some s;
  co_holder : cd_phase c = Leading → cd_session c ∈ lk_alive srv → lk_holder srv = Some (cd_session c);
}.

Record leaders_ok (w : LockServer * list Candidate) : Prop := {
  lo_each : ∀ i c, w.2 !! i = Some c → candidate_ok w.1 c;
  lo_apart : ∀ i j c c' s, w.2 !! i = Some c → w.2 !! j = Some c' → owns c s → owns c' s → i = j;
  lo_alive : ∀ s, lk_holder w.1 = Some s → s < lk_next w.1;
}.

(** What a step may change for the sessions outside [P]. *)
Definition others_ok (P : nat → Prop) (srv srv' : LockServer) : Prop :=
  lk_next srv ≤ lk_next srv' ∧
  ∀ s, s < lk_next srv → ¬ P s →
    (s ∈ lk_alive srv' → s ∈ lk_alive srv) ∧
    (lk_holder srv = Some s → s ∈ lk_alive srv' → lk_holder srv' = Some s) ∧
    (lk_holder srv' = Some s → lk_holder srv = Some s).

Lemma others_refl P srv : others_ok P srv srv.
Proof. split; [done|]. naive_solver. Qed.

Lemma others_open P srv : others_ok P srv (openSession srv).
Proof. split; [cbn; lia|]. intros s Hs _. cbn. split_and!; [|auto|auto]. intros [->%elem_of_singleton|?]%elem_of_union; [lia|done]. Qed.

Lemma others_end P s srv : others_ok P srv (endSession s srv).
Proof.
  split; [done|]. intros s' _ _. cbn. split_and!; [set_solver| |by case_bool_decide].
  intros E Ha. rewrite bool_decide_eq_false_2; [done|]. set_solver.
Qed.

Lemma others_unlock (P : nat → Prop) s srv : P s → others_ok P srv (unlock s srv).
Proof.
  intros HP. unfold unlock. case_bool_decide as E; [|apply others_refl].
  split; [done|]. intros s' _ Hne. cbn. split_and!; [done| |done]. intros E'. congruence.
Qed.

Lemma others_try (P : nat → Prop) s srv srv1 :
  P s → others_ok P srv srv1 → others_ok P srv (tryAcquire s srv1).2.
Proof.
  intros HP Ho1. unfold tryAcquire. destruct (lk_holder srv1) as [h|] eqn:E; cbn; [done|].
  destruct Ho1 as [Hn Ho]. split; [done|]. intros s' Hs Hne. destruct (Ho s' Hs Hne) as (Ha & Hh & _). cbn.
  split_and!; [done| |congruence]. intros E1 E2. specialize (Hh E1 E2). congruence.
Qed.

Lemma candidate_ok_other (P : nat → Prop) srv srv' c :
  others_ok P srv srv' → (∀ s, owns c s → ¬ P s) → candidate_ok srv c → candidate_ok srv' c.
Proof.
  intros [Hn Ho] Hs [H1 H2 H3 H4 H5]. split; [done|done| | |].
  - intros s Hp. specialize (H3 s Hp). lia.
  - intros s Hp. destruct (Ho s) as (_ & _ & Hh); [apply H3; by right|apply Hs; by right|]. split; [|by apply H4].
    intros E%Hh. by destruct (H4 s Hp).
  - intros Hp Ha.
    assert (Ht : owns c (cd_session c)) by (left; unfold term; by rewrite Hp).
    destruct (Ho (cd_session c)) as (Ha' & Hh & _); [auto|auto|]. by apply Hh; [apply H5; auto|].
Qed.

(** The sessions a step of [c] is about: its own and the one it opens. *)
Definition touches (srv : LockServer) (c : Candidate) (s : nat) : Prop := owns c s ∨ lk_next srv ≤ s.

Lemma acquireConn_ok srv c s srv1 :
  acquireConn srv c s srv1 →
  touches srv c s ∧ others_ok (touches srv c) srv srv1 ∧ lk_holder srv1 = lk_holder srv ∧
  (candidate_ok srv c → s < lk_next srv1).
Proof.
  intros [s' Hs|].
  - split_and!; [left; by right|apply others_refl|done|]. intros Hc. apply (co_known _ _ Hc). by right.
  - split_and!; [by right|apply others_open|done|cbn; lia].
Qed.

(** What a process keeps when it has nothing to do with the lock any more. *)
Lemma candidate_ok_idle srv c :
  term c = None → cd_task c ≠ Some false → (∀ s, s ∈ cd_pool c → s < lk_next srv ∧ lk_holder srv ≠ Some s) →
  candidate_ok srv c.
Proof.
  unfold term. intros Ht Hk Hp. split; [done|done| | |].
  - intros s [E|E]; [unfold term in E; congruence|by apply Hp].
  - intros s E. split; [by apply Hp|unfold term; congruence].
  - intros E. by rewrite E in Ht.
Qed.

Lemma finish_ok srv c : cd_task c ≠ Some false → candidate_ok srv (finish c).
Proof. intros H. apply candidate_ok_idle; [done|done|set_solver]. Qed.

Lemma cancelTask_off c : cd_task (cancelTask c) ≠ Some false.
Proof. cbn. by destruct (cd_task c). Qed.

Lemma candidate_task_off srv c : candidate_ok srv c → cd_phase c ≠ Leading → cd_task c ≠ Some false.
Proof. intros Hc Hp E. by apply Hp, (co_task _ _ Hc). Qed.

Lemma giveBack_ok srv c srv' c' :
  giveBack srv c srv' c' → term c = Some (cd_session c) → candidate_ok srv c →
  cd_task c' = cd_task c ∧ cd_phase c' = cd_phase c ∧ lk_next srv' = lk_next srv ∧
  others_ok (touches srv c) srv srv' ∧
  ∀ s, s ∈ cd_pool c' → owns c s ∧ s < lk_next srv' ∧ lk_holder srv' ≠ Some s.
Proof.
  intros Hg Ht Hc. assert (Ho : owns c (cd_session c)) by by left.
  assert (Hp : ∀ s, s ∈ cd_pool c → owns c s ∧ s < lk_next srv ∧ lk_holder srv ≠ Some s).
  { intros s Hs. assert (owns c s) by by right. split_and!; [done|by apply (co_known _ _ Hc)|by apply (co_idle _ _ Hc)]. }
  assert (Hu : lk_next (unlock (cd_session c) srv) = lk_next srv ∧ ∀ s, lk_holder (unlock (cd_session c) srv) = Some s → lk_holder srv = Some s ∧ s ≠ cd_session c).
  { unfold unlock. case_bool_decide; cbn; naive_solver. }
  destruct Hu as [Hn Hu].
  destruct Hg; (split_and!; [done|done|done|first [apply others_refl|apply others_unlock; by left]|]).
  - intros s Hs. rewrite Hn. assert (s = cd_session c ∨ s ∈ cd_pool c) as [->|Hs'] by (cbn in Hs; set_solver).
    + split_and!; [done|by apply (co_known _ _ Hc)|]. intros E%Hu. naive_solver.
    + destruct (Hp s Hs') as (? & ? & ?). split_and!; [done|done|]. intros E%Hu. naive_solver.
  - done.
  - intros s Hs. rewrite Hn. destruct (Hp s Hs) as (? & ? & ?). split_and!; [done|done|]. intros E%Hu. naive_solver.
Qed.

(** Taking the lock in a session of the pool or a new one. *)
Lemma tryAcquire_free srv c s srv1 ok srv2 :
  candidate_ok srv c → (∀ h, lk_holder srv = Some h → h < lk_next srv) → acquireConn srv c s srv1 →
  tryAcquire s srv1 = (ok, srv2) →
  lk_next srv2 = lk_next srv1 ∧
  if ok then lk_holder srv = None ∧ lk_holder srv2 = Some s else lk_holder srv2 = lk_holder srv ∧ lk_holder srv ≠ Some s.
Proof.
  intros Hc Hh Ha. destruct (acquireConn_ok _ _ _ _ Ha) as (_ & _ & Eh & _). unfold tryAcquire. rewrite Eh.
  destruct (lk_holder srv) as [h|] eqn:E; intros [= <- <-]; [|done].
  case_bool_decide as Es; [|rewrite Eh; split_and!; congruence]. subst h. exfalso.
  destruct Ha as [s Hs|]; [by destruct (co_idle _ _ Hc _ Hs)|]. specialize (Hh _ eq_refl). lia.
Qed.

(** What a step of [c] leaves behind. *)
Record step_ok (srv : LockServer) (c : Candidate) (srv' : LockServer) (c' : Candidate) : Prop := {
  so_own : candidate_ok srv' c';
  so_others : others_ok (touches srv c) srv srv';
  so_touches : ∀ s, owns c' s → touches srv c s;
  so_known : (∀ h, lk_holder srv = Some h → h < lk_next srv) → ∀ h, lk_holder srv' = Some h → h < lk_next srv';
}.

(** Steps that leave the server and the sessions alone. *)
Lemma step_ok_local srv c c' :
  candidate_ok srv c' → (∀ s, owns c' s → owns c s) → step_ok srv c srv c'.
Proof. intros Hc Ho. split; [done|apply others_refl| |done]. intros s Hs. left. auto. Qed.

(** Steps after which the process is out of its term. *)
Lemma step_ok_out srv c srv' c' :
  others_ok (touches srv c) srv srv' → term c' = None → cd_task c' ≠ Some false →
  (∀ s, s ∈ cd_pool c' → touches srv c s ∧ s < lk_next srv' ∧ lk_holder srv' ≠ Some s) →
  (∀ h, lk_holder srv' = Some h → lk_holder srv = Some h ∨ h < lk_next srv') →
  step_ok srv c srv' c'.
Proof.
  intros Ho Ht Hk Hp Hh. split; [|done| |].
  - apply candidate_ok_idle; [done|done|]. intros s Hs. by destruct (Hp s Hs) as (_ & ? & ?).
  - intros s [E|E]; [congruence|]. by apply Hp.
  - intros Hn h [E|E]%Hh; [|done]. destruct Ho as [Hle _]. specialize (Hn h E). lia.
Qed.

Lemma finish_pool c s : s ∉ cd_pool (finish c).
Proof. cbn. set_solver. Qed.

Lemma unlock_holder s srv h : lk_holder (unlock s srv) = Some h → lk_holder srv = Some h.
Proof. unfold unlock. case_bool_decide; cbn; [done|auto]. Qed.

Lemma giveBack_holder srv c srv' c' h : giveBack srv c srv' c' → lk_holder srv' = Some h → lk_holder srv = Some h.
Proof. intros []; [apply unlock_holder|done|apply unlock_holder]. Qed.

Lemma term_leading c : cd_phase c = Leading → term c = Some (cd_session c).
Proof. unfold term. by intros ->. Qed.

Lemma term_losing c : cd_phase c = Losing → term c = Some (cd_session c).
Proof. unfold term. by intros ->. Qed.

Lemma cancelTask_ok srv c : candidate_ok srv c → candidate_ok srv (cancelTask c).
Proof. intros [H1 H2 H3 H4 H5]. split; [|intros _; apply cancelTask_off|done..]. by intros ?%cancelTask_off. Qed.

Lemma step_finish srv c srv' c0 c' :
  giveBack srv c0 srv' c' → cd_phase c = Leading → cd_phase c0 = Leading → cd_session c0 = cd_session c →
  (∀ s, owns c0 s → owns c s) → candidate_ok srv c0 → cd_task c0 ≠ Some false → step_ok srv c srv' (finish c').
Proof.
  intros Hg Hp Hp0 Hs Ho Hc0 Hk.
  destruct (giveBack_ok _ _ _ _ Hg (term_leading _ Hp0) Hc0) as (Et & _ & _ & Hot & _).
  apply step_ok_out; [|done|cbn; congruence|by intros s ?%finish_pool|].
  - destruct Hot as [Hle Hot]. split; [done|]. intros s Hlt Hn. apply Hot; [done|]. intros [?|?]; apply Hn; [left; auto|by right].
  - intros h E. left. by eapply giveBack_holder.
Qed.

Lemma step_acquired srv c s srv1 srv2 :
  candidate_ok srv c → (∀ h, lk_holder srv = Some h → h < lk_next srv) → cd_phase c = Trying →
  acquireConn srv c s srv1 → tryAcquire s srv1 = (true, srv2) → step_ok srv c srv2 (startTask s c).
Proof.
  intros Hc Hh Hp Ha Htry. destruct (acquireConn_ok _ _ _ _ Ha) as (Ht & Ho & Eh & Hn). specialize (Hn Hc).
  destruct (tryAcquire_free _ _ _ _ _ _ Hc Hh Ha Htry) as (En & Ef & Es).
  pose proof (others_try _ _ _ _ Ht Ho) as Ho2. rewrite Htry in Ho2. cbn in Ho2.
  assert (Hw : ∀ s', owns (startTask s c) s' → s' = s ∨ s' ∈ cd_pool c) by (intros s' [[= ->]|E]; cbn in *; set_solver).
  assert (Hq : ∀ s', s' ∈ cd_pool c → owns c s' ∧ s' < lk_next srv2).
  { intros s' E. assert (owns c s') by by right. split; [done|]. rewrite En. destruct Ho as [Hle _].
    pose proof (co_known _ _ Hc s'). naive_solver lia. }
  split; [split| | |]; [done|cbn; congruence| | |done|done| |].
  - intros s' [->|E]%Hw; [by rewrite En|by apply Hq].
  - intros s' E. rewrite Es. assert (s' ≠ s) by (cbn in E; set_solver). by split; intros [=].
  - intros s' [->|E]%Hw; [done|left; by apply Hq].
  - intros _ h. rewrite Es. intros [= <-]. by rewrite En.
Qed.

Lemma leader_step_ok srv c srv' c' :
  (∀ h, lk_holder srv = Some h → h < lk_next srv) →
  leader_step srv c srv' c' → candidate_ok srv c → step_ok srv c srv' c'.
Proof.
  intros Hh Hstep Hc. pose proof (candidate_task_off _ _ Hc) as Hoff. destruct Hstep.
  - apply step_ok_local; [|done]. destruct (cancelTask_ok _ _ Hc) as [? ? ? ? ?]. split; [done|intros _; apply cancelTask_off|done..].
  - apply step_ok_local; [|done]. destruct Hc as [? ? ? ? ?]. by split.
  - apply step_ok_local; [|done]. destruct Hc as [? ? ? ? ?]. by split.
  - apply step_ok_local; [apply finish_ok, Hoff; congruence|]. intros s [?|?%finish_pool]; done.
  - destruct (acquireConn_ok _ _ _ _ H0) as (? & ? & Eh & ?).
    apply step_ok_out; [done|done|apply Hoff; congruence|by intros ? ?%finish_pool|]. intros h. rewrite Eh. auto.
  - destruct (acquireConn_ok _ _ _ _ H0) as (Ht & Ho & Eh & Hn).
    apply step_ok_out; [by apply others_try|done|apply Hoff; congruence|by intros ? ?%finish_pool|].
    intros h. unfold tryAcquire. rewrite Eh. destruct (lk_holder srv); cbn; [rewrite Eh; auto|].
    intros [= <-]. right. by apply Hn.
  - apply (step_acquired _ _ _ _ _ Hc Hh H H0 H2).
  - destruct (acquireConn_ok _ _ _ _ H0) as (Ht & Ho & Eh & Hn).
    destruct (tryAcquire_free _ _ _ _ _ _ Hc Hh H0 H2) as (En & Eh2 & Hne).
    apply step_ok_out; [|done|apply Hoff; congruence| |].
    + pose proof (others_try _ _ _ _ Ht Ho) as Ho2. by rewrite H2 in Ho2.
    + intros s' Hs'. rewrite En, Eh2. assert (s' = s ∨ s' ∈ cd_pool c) as [->|Hp] by (cbn in Hs'; set_solver); [auto|].
      assert (Hw : owns c s') by by right. split_and!; [by left| |by apply (co_idle _ _ Hc)].
      destruct Ho as [Hle _]. pose proof (co_known _ _ Hc _ Hw). lia.
    + rewrite Eh2. auto.
  - apply step_ok_local; [|intros s [?|?]; [done|by right]]. apply candidate_ok_idle; [done|apply Hoff; congruence|].
    intros s Hs. split; [apply (co_known _ _ Hc); by right|by apply (co_idle _ _ Hc)].
  - apply step_ok_local; [apply finish_ok, Hoff; congruence|]. intros s [?|?%finish_pool]; done.
  - eapply step_finish; [done|done|done|done|done|by apply cancelTask_ok|apply cancelTask_off].
  - eapply step_finish; [done|done|done|done|done|done|congruence].
  - assert (Ho : ∀ s, owns ((cancelTask c) <| cd_phase := Losing |>) s → owns c s).
    { intros s [E|E]; [left; by rewrite (term_leading _ H)|by right]. }
    apply step_ok_local; [|done]. split; [by intros ?%cancelTask_off|intros _; apply cancelTask_off| |intros s Hs|done].
    + intros s Hs. by apply (co_known _ _ Hc), Ho.
    + destruct (co_idle _ _ Hc s Hs) as [? Hne]. by rewrite (term_leading _ H) in Hne.
  - destruct (giveBack_ok _ _ _ _ H0 (term_losing _ H) Hc) as (Et & Ep & En & Ho & Hp).
    apply step_ok_out; [done|done|change (cd_task c' ≠ Some false); rewrite Et; apply Hoff; congruence| |].
    + intros s Hs. destruct (Hp s Hs) as (? & ? & ?). split_and!; [by left|done|done].
    + intros h E. left. by eapply giveBack_holder.
Qed.

Lemma leaders_step_ok w w' : leaders_step w w' → leaders_ok w → leaders_ok w'.
Proof.
  intros [srv cs i c srv' c' Hi Hstep|srv cs s] [He Ha Hl]; cbn in *.
  - destruct (leader_step_ok _ _ _ _ Hl Hstep (He i c Hi)) as [Hown Hoth Hto Hkn].
    assert (Hsep : ∀ j cj s, cs !! j = Some cj → j ≠ i → owns cj s → ¬ touches srv c s).
    { intros j cj s Hj Hne Ho [Hc|Hge]; [by apply Hne, (Ha _ _ _ _ s Hj Hi)|]. pose proof (co_known _ _ (He j cj Hj) s Ho). lia. }
    split; cbn.
    + intros j cj [(<- & -> & _)|(Hne & Hj)]%list_lookup_insert_Some; [done|].
      eapply candidate_ok_other; [done| |by eapply He]. intros s. by apply (Hsep j).
    + intros j k cj ck s [(<- & <- & _)|(Hne & Hj)]%list_lookup_insert_Some [(<- & <- & _)|(Hne' & Hk)]%list_lookup_insert_Some Hoj Hok;
        [done| | |by eapply Ha]; exfalso.
      * by apply (Hsep k ck s), Hto.
      * by apply (Hsep j cj s), Hto.
    + by apply Hkn.
  - split; cbn; [|done|].
    + intros i c Hi. eapply (candidate_ok_other (λ _, False)); [apply others_end|tauto|by eapply He].
    + intros h. case_bool_decide; [done|apply Hl].
Qed.

Lemma leaders_ok_init n : leaders_ok (leaders_init n).
Proof.
  split; cbn; [| |done].
  - intros i c [-> _]%lookup_replicate. by apply candidate_ok_idle.
  - intros i j c c' s [-> _]%lookup_replicate _ [?|?]; [done|set_solver].
Qed.

Lemma leaders_reachable_ok n w : rtc leaders_step (leaders_init n) w → leaders_ok w.
Proof.
  intros Hr. assert (Hi := leaders_ok_init n). induction Hr as [|w1 w2 w3 Hs _ IH]; [done|].
  by eapply IH, leaders_step_ok.
Qed.

(** C18: however the processes are interleaved, whatever pings, queries and
    sessions fail and however long cancelled tasks go on, two tasks that have not
    been told to stop, and whose processes have a live session, are the same task:
    its process is in the loop over its heartbeat and its session holds the lock
    of the key. *)
Theorem leader_exclusive n w i j c c' :
  rtc leaders_step (leaders_init n) w →
  w.2 !! i = Some c → cd_task c = Some false → cd_session c ∈ lk_alive w.1 →
  w.2 !! j = Some c' → cd_task c' = Some false → cd_session c' ∈ lk_alive w.1 →
  i = j ∧ cd_phase c = Leading ∧ lk_holder w.1 = Some (cd_session c).
Proof.
  intros [He Ha _]%leaders_reachable_ok Hi Ht Hs Hj Ht' Hs'.
  assert (Hp : cd_phase c = Leading) by by apply (co_task _ _ (He i c Hi)).
  assert (Hp' : cd_phase c' = Leading) by by apply (co_task _ _ (He j c' Hj)).
  assert (Hh : lk_holder w.1 = Some (cd_session c)) by by apply (co_holder _ _ (He i c Hi)).
  assert (Hh' : lk_holder w.1 = Some (cd_session c')) by by apply (co_holder _ _ (He j c' Hj)).
  split; [|done]. apply (Ha i j c c' (cd_session c) Hi Hj); left; rewrite term_leading by done; congruence.
Qed.

(** Two processes: the first leads, the second has found the lock taken. *)
Definition leader_world : LockServer * list Candidate :=
  (mkLockServer (Some 0) {[1; 0]} 2, [mkCandidate Leading 0 (Some false) 0 false ∅; mkCandidate Sleeping 0 None 0 false {[1]}]).

Lemma leader_world_reached : rtc leaders_step (leaders_init 2) leader_world.
Proof.
  eapply (rtc_l _ _ (mkLockServer (Some 0) {[0]} 1, [mkCandidate Leading 0 (Some false) 0 false ∅; NewCandidate])).
  - apply (step_process _ [NewCandidate; NewCandidate] 0 NewCandidate _ (mkCandidate Leading 0 (Some false) 0 false ∅)); [done|].
    apply (ls_acquired _ NewCandidate 0 (mkLockServer None {[0]} 1)); [done|apply ac_open|set_solver|done].
  - apply rtc_once.
    apply (step_process _ [mkCandidate Leading 0 (Some false) 0 false ∅; NewCandidate] 1 NewCandidate _ (mkCandidate Sleeping 0 None 0 false {[1]})); [done|].
    apply (ls_busy _ NewCandidate 1 (mkLockServer (Some 0) {[1; 0]} 2)); [done|apply ac_open|set_solver|done].
Qed.

Lemma leader_exclusive_witness :
  0 = 0 ∧ cd_phase (mkCandidate Leading 0 (Some false) 0 false ∅) = Leading ∧ lk_holder leader_world.1 = Some 0.
Proof.
  apply (leader_exclusive 2 leader_world 0 0 (mkCandidate Leading 0 (Some false) 0 false ∅) (mkCandidate Leading 0 (Some false) 0 false ∅) leader_world_reached);
    first [reflexivity|apply (bool_decide_eq_true_1 _); vm_compute; reflexivity].
Defined.
