(* ===== verification/NatsBus.v ===== *)
(** * NatsBus: the queues over a message broker

    Models [internal/dispatch/nats.go] and [internal/build/natsbus.go]: one stream
    with a work queue per bus, one subject per region, any number of publishers
    and consumers.  The broker is JetStream as documented: a stored message is
    delivered until it is acknowledged or terminated or too old; a delivered
    message comes again when it is refused or when the time for its
    acknowledgement is over, which it can be while it is still being handled.
    Every request to the broker may fail, before or after it has taken effect.

    The buses are a transition system.  [nl_sent] and [nl_ended] record what was
    stored and how the handlers ended; they are no part of the program.

    Theorem: a stored assignment is never lost: it is in the stream, a handler of
    its region has ended without an error on it, or it has expired. *)

From Stdlib Require Import Ascii.
From stdpp Require Import base decidable tactics numbers list gmap strings relations.
From S2P Require Import Prelude.

(** ** The stream *)

Record NatsMsg := mkNatsMsg { nm_seq : nat; nm_Subject : string; nm_Data : string }.

(** The stored messages, those that have been delivered and wait for their
    acknowledgement, and the next sequence number. *)
Record NatsStream := mkNatsStream {
  nt_msgs : gmap nat NatsMsg;
  nt_out : gset nat;
  nt_next : nat;
}.

Inductive StreamInfo := StreamFound | StreamMissing | StreamInfoErr (e : GoError).

(** [add] is what [AddStream] returns. *)
Definition EnsureStream (info : StreamInfo) (add : option GoError) : option GoError :=
  match info with
  | StreamFound => None
  | StreamMissing => add
  | StreamInfoErr e => Some e
  end.

(** The stream takes the subjects with one token after its prefix. *)
Definition tokenByte (a : ascii) : bool :=
  negb (bool_decide (a ∈ [ascii_of_N 32; ascii_of_N 42; ascii_of_N 46; ascii_of_N 62])).

Definition subjectToken (region : string) : bool :=
  negb (bool_decide (region = "")) && forallb tokenByte (String.list_ascii_of_string region).

Definition storeMsg (subject data : string) (t : NatsStream) : NatsStream :=
  mkNatsStream (<[nt_next t := mkNatsMsg (nt_next t) subject data]> (nt_msgs t)) (nt_out t) (S (nt_next t)).

(** [Ack] and [Term] remove a message, [Nak] makes it come again. *)
Definition removeMsg (seq : nat) (t : NatsStream) : NatsStream :=
  mkNatsStream (delete seq (nt_msgs t)) (nt_out t ∖ {[seq]}) (nt_next t).

Definition nakMsg (seq : nat) (t : NatsStream) : NatsStream :=
  mkNatsStream (nt_msgs t) (nt_out t ∖ {[seq]}) (nt_next t).

(** [Fetch]: messages of the subject that are not out. *)
Definition deliverable (subject : string) (t : NatsStream) (m : NatsMsg) : Prop :=
  nt_msgs t !! nm_seq m = Some m ∧ nm_Subject m = subject ∧ nm_seq m ∉ nt_out t.

Definition deliver (ms : list NatsMsg) (t : NatsStream) : NatsStream :=
  mkNatsStream (nt_msgs t) (list_to_set (nm_seq <$> ms) ∪ nt_out t) (nt_next t).

Section Nats.
(** The assignments of the bus and their encoding. *)
Context {A : Type} (Marshal : A → result string) (Unmarshal : string → result A).
(** [execution.] or [build.] *)
Context (prefix : string).

Definition natsSubject (region : string) : string := prefix +:+ region.

(** ** Publishing *)

(** What the broker does with a publication: it takes it, or there is an error,
    before the message was stored or after. *)
Inductive PublishFault := PublishOk | PublishLost (e : GoError) | PublishUnanswered (e : GoError).

Definition publish (region : string) (a : A) (fault : PublishFault) (t : NatsStream) : result unit * NatsStream :=
  match Marshal a with
  | Err e => (Err e, t)
  | Ok data =>
      if negb (subjectToken region) then (Err (plainErr "nats: no response from stream"), t)
      else match fault with
           | PublishOk => (Ok tt, storeMsg (natsSubject region) data t)
           | PublishLost e => (Err e, t)
           | PublishUnanswered e => (Err e, storeMsg (natsSubject region) data t)
           end
  end.

(** ** Handling one message *)

Inductive Verdict := Acked | Naked | Termed.

(** The goroutine of a build, or the body of the loop over executions.
    [handled]: what the handler returned. *)
Definition settle (m : NatsMsg) (handled : result unit) : option A * Verdict :=
  match Unmarshal (nm_Data m) with
  | Err _ => (None, Termed)
  | Ok a => (Some a, match handled with Err _ => Naked | Ok _ => Acked end)
  end.

Definition applyVerdict (v : Verdict) (seq : nat) (t : NatsStream) : NatsStream :=
  match v with
  | Acked | Termed => removeMsg seq t
  | Naked => nakMsg seq t
  end.

(** ** Consumers *)

(** Where [ConsumeBuild] is: at the top of its loop, in the loop over the messages
    it has fetched, or on its way out. *)
Inductive ConsumePhase :=
| Fetching
| Starting (ms : list NatsMsg)
| Leaving.

(** [bc_running]: the messages of the goroutines that run, one per entry of the
    semaphore. *)
Record BuildConsumer := mkBuildConsumer {
  bc_region : string;
  bc_concurrency : nat;
  bc_phase : ConsumePhase;
  bc_running : list NatsMsg;
}.

Definition newBuildConsumer (region : string) (concurrency : Z) : BuildConsumer :=
  mkBuildConsumer region (if (concurrency <=? 0)%Z then 1 else Z.to_nat concurrency) Fetching [].

(** [ConsumeExecution] handles a message before it fetches the next one. *)
Inductive ExecutionPhase :=
| Polling
| HandlingMsg (m : NatsMsg)
| Left.

Inductive NatsConsumer :=
| OfBuilds (c : BuildConsumer)
| OfExecutions (region : string) (phase : ExecutionPhase).

(** The end of a handler: who, which message and assignment, with which verdict and
    what the handler returned. *)
Record Ended := mkEnded { en_region : string; en_seq : nat; en_assignment : option A; en_verdict : Verdict; en_handled : result unit }.

Record NatsState := mkNatsState {
  na_stream : NatsStream;
  na_consumers : list NatsConsumer;
  nl_sent : gmap nat (string * A);
  nl_ended : list Ended;
  nl_expired : gset nat;
}.

Definition handle (region : string) (m : NatsMsg) (handled : result unit) (reaches : bool) (t : NatsStream) : Ended * NatsStream :=
  let '(a, v) := settle m handled in
  (mkEnded region (nm_seq m) a v handled, if reaches then applyVerdict v (nm_seq m) t else t).

(** A step of [ConsumeBuild]: the stream, the consumer and the handler that ends. *)
Inductive build_step (t : NatsStream) : BuildConsumer → NatsStream → BuildConsumer → option Ended → Prop :=
(** [Fetch] returns messages, as many as the semaphore has room for. *)
| bs_fetch region n running ms :
    0 < n - length running → length ms ≤ n - length running → NoDup (nm_seq <$> ms) →
    Forall (deliverable (natsSubject region) t) ms →
    build_step t (mkBuildConsumer region n Fetching running) (deliver ms t)
      (mkBuildConsumer region n (Starting ms) running) None
(** The context is done, or [Fetch] fails; the messages that were not started
    stay out. *)
| bs_leave region n phase running :
    build_step t (mkBuildConsumer region n phase running) t (mkBuildConsumer region n Leaving running) None
| bs_start region n m ms running :
    length running < n →
    build_step t (mkBuildConsumer region n (Starting (m :: ms)) running) t
      (mkBuildConsumer region n (Starting ms) (running ++ [m])) None
| bs_started region n running :
    build_step t (mkBuildConsumer region n (Starting []) running) t (mkBuildConsumer region n Fetching running) None
(** A goroutine ends. *)
| bs_end region n phase before m after handled reaches e t' :
    handle region m handled reaches t = (e, t') →
    build_step t (mkBuildConsumer region n phase (before ++ m :: after)) t'
      (mkBuildConsumer region n phase (before ++ after)) (Some e).

(** A step of [ConsumeExecution]. *)
Inductive execution_step (t : NatsStream) (region : string) :
    ExecutionPhase → NatsStream → ExecutionPhase → option Ended → Prop :=
| es_fetch m :
    deliverable (natsSubject region) t m →
    execution_step t region Polling (deliver [m] t) (HandlingMsg m) None
| es_leave :
    execution_step t region Polling t Left None
| es_handled m handled reaches e t' :
    handle region m handled reaches t = (e, t') →
    execution_step t region (HandlingMsg m) t' Polling (Some e).

Inductive consumer_step (t : NatsStream) : NatsConsumer → NatsStream → NatsConsumer → option Ended → Prop :=
| cs_build c t' c' e : build_step t c t' c' e → consumer_step t (OfBuilds c) t' (OfBuilds c') e
| cs_execution region p t' p' e :
    execution_step t region p t' p' e → consumer_step t (OfExecutions region p) t' (OfExecutions region p') e.

(** A step of the whole: a publication, a new consumer, a step of a consumer, the
    end of the time for an acknowledgement or of the age of a message. *)
Inductive nats_step (s : NatsState) : NatsState → Prop :=
| na_publish region a fault r t :
    publish region a fault (na_stream s) = (r, t) →
    nats_step s (mkNatsState t (na_consumers s)
      (if bool_decide (nt_next t = nt_next (na_stream s)) then nl_sent s
       else <[nt_next (na_stream s) := (region, a)]> (nl_sent s)) (nl_ended s) (nl_expired s))
| na_consume_builds region concurrency :
    subjectToken region = true →
    nats_step s (mkNatsState (na_stream s) (na_consumers s ++ [OfBuilds (newBuildConsumer region concurrency)])
      (nl_sent s) (nl_ended s) (nl_expired s))
| na_consume_executions region :
    subjectToken region = true →
    nats_step s (mkNatsState (na_stream s) (na_consumers s ++ [OfExecutions region Polling])
      (nl_sent s) (nl_ended s) (nl_expired s))
| na_consumer i c t c' e :
    na_consumers s !! i = Some c → consumer_step (na_stream s) c t c' e →
    nats_step s (mkNatsState t (<[i := c']> (na_consumers s)) (nl_sent s) (nl_ended s ++ option_list e) (nl_expired s))
| na_ack_wait seq :
    nats_step s (mkNatsState (nakMsg seq (na_stream s)) (na_consumers s) (nl_sent s) (nl_ended s) (nl_expired s))
| na_max_age seq :
    nats_step s (mkNatsState (removeMsg seq (na_stream s)) (na_consumers s) (nl_sent s) (nl_ended s) ({[seq]} ∪ nl_expired s)).

Definition nats_init : NatsState := mkNatsState (mkNatsStream ∅ ∅ 0) [] ∅ [] ∅.

(** ** The invariant *)

(** What decoding makes of an encoded assignment: itself, up to what the encoding
    does not keep (bytes that are no text, the spelling of a payload). *)
Context (decoded : A → A).

(** A message carries the assignment it was stored for, under the subject of its
    region. *)
Definition carries (sent : gmap nat (string * A)) (m : NatsMsg) : Prop :=
  ∃ region a, sent !! nm_seq m = Some (region, a) ∧ nm_Subject m = natsSubject region ∧ Marshal a = Ok (nm_Data m).

Definition consumerRegion (c : NatsConsumer) : string :=
  match c with OfBuilds c => bc_region c | OfExecutions region _ => region end.

(** The messages a consumer has fetched and not settled. *)
Definition heldMsgs (c : NatsConsumer) : list NatsMsg :=
  match c with
  | OfBuilds c => match bc_phase c with Starting ms => ms | _ => [] end ++ bc_running c
  | OfExecutions _ (HandlingMsg m) => [m]
  | OfExecutions _ _ => []
  end.

(** How many it may hold. *)
Definition heldBound (c : NatsConsumer) : nat :=
  match c with OfBuilds c => bc_concurrency c | OfExecutions _ _ => 1 end.

Record consumer_ok (sent : gmap nat (string * A)) (c : NatsConsumer) : Prop := {
  ck_held : ∀ m, m ∈ heldMsgs c → carries sent m ∧ nm_Subject m = natsSubject (consumerRegion c);
  ck_bound : length (heldMsgs c) ≤ heldBound c;
}.

(** The end of a handler that is no accident: the assignment of the message, in
    its region. *)
Definition ended_ok (sent : gmap nat (string * A)) (e : Ended) : Prop :=
  ∃ a, sent !! en_seq e = Some (en_region e, a) ∧ en_assignment e = Some (decoded a) ∧ en_verdict e ≠ Termed.

Record stream_ok (sent : gmap nat (string * A)) (t : NatsStream) : Prop := {
  sk_stored : ∀ seq m, nt_msgs t !! seq = Some m → nm_seq m = seq ∧ carries sent m;
  sk_next : ∀ seq p, sent !! seq = Some p → seq < nt_next t;
}.

(** What became of a stored assignment. *)
Definition kept (t : NatsStream) (ended : list Ended) (expired : gset nat) (seq : nat) (region : string) (a : A) : Prop :=
  is_Some (nt_msgs t !! seq) ∨ mkEnded region seq (Some (decoded a)) Acked (Ok tt) ∈ ended ∨ seq ∈ expired.

Record nats_ok (s : NatsState) : Prop := {
  no_stream : stream_ok (nl_sent s) (na_stream s);
  no_consumers : Forall (consumer_ok (nl_sent s)) (na_consumers s);
  no_ended : Forall (ended_ok (nl_sent s)) (nl_ended s);
  no_kept : ∀ seq region a, nl_sent s !! seq = Some (region, a) →
    kept (na_stream s) (nl_ended s) (nl_expired s) seq region a;
}.

Lemma natsSubject_inj r r' : natsSubject r = natsSubject r' → r = r'.
Proof. apply (inj (String.append prefix)). Qed.

Lemma carries_mono sent sent' m : sent ⊆ sent' → carries sent m → carries sent' m.
Proof. intros Hs (r & a & E & H). exists r, a. split; [by eapply lookup_weaken|done]. Qed.

Lemma consumer_ok_mono sent sent' c : sent ⊆ sent' → consumer_ok sent c → consumer_ok sent' c.
Proof. intros Hs [H1 H2]. split; [|done]. intros m [? ?]%H1. split; [by eapply carries_mono|done]. Qed.

Lemma ended_ok_mono sent sent' e : sent ⊆ sent' → ended_ok sent e → ended_ok sent' e.
Proof. intros Hs (a & E & H). exists a. split; [by eapply lookup_weaken|done]. Qed.

(** Removing messages and marking them changes nothing in the others. *)
Lemma stream_ok_sub sent t t' :
  nt_msgs t' ⊆ nt_msgs t → nt_next t' = nt_next t → stream_ok sent t → stream_ok sent t'.
Proof.
  intros Hs En [H1 H2]. split; [|rewrite En; apply H2]. intros seq m E. apply H1. by eapply lookup_weaken.
Qed.

Lemma stream_ok_same sent t t' :
  nt_msgs t' = nt_msgs t → nt_next t' = nt_next t → stream_ok sent t → stream_ok sent t'.
Proof. intros Em. apply stream_ok_sub. by rewrite Em. Qed.

(** [Nak], deliveries and lost answers keep every stored message. *)
Lemma kept_msgs t t' ended more expired seq region a :
  nt_msgs t' = nt_msgs t → kept t ended expired seq region a → kept t' (ended ++ more) expired seq region a.
Proof. unfold kept. intros ->. rewrite elem_of_app. tauto. Qed.

Context (Hjson : ∀ a data, Marshal a = Ok data → Unmarshal data = Ok (decoded a)).

(** The end of a handler on a message that carries its assignment. *)
Lemma handle_ok sent t region m handled reaches e t' :
  carries sent m → nm_Subject m = natsSubject region → handle region m handled reaches t = (e, t') →
  ended_ok sent e ∧ en_seq e = nm_seq m ∧ nt_next t' = nt_next t ∧
  (nt_msgs t' = nt_msgs t ∨
   nt_msgs t' = delete (nm_seq m) (nt_msgs t) ∧ ∃ a, sent !! nm_seq m = Some (region, a) ∧ e = mkEnded region (nm_seq m) (Some (decoded a)) Acked (Ok tt)).
Proof.
  intros (r & a & Es & Er & Em) Ereg. rewrite Er in Ereg. apply natsSubject_inj in Ereg as ->.
  unfold handle, settle. rewrite (Hjson _ _ Em). intros [= <- <-]. split_and!.
  - exists a. split_and!; [done|done|by destruct handled].
  - done.
  - by destruct reaches, handled.
  - destruct reaches, handled as [[]|]; cbn; eauto.
Qed.

(** A settled message stays, or its handler ended without an error. *)
Lemma kept_settled (sent : gmap nat (string * A)) t t' ended e expired m region0 :
  (nt_msgs t' = nt_msgs t ∨
   nt_msgs t' = delete (nm_seq m) (nt_msgs t) ∧
     ∃ a, sent !! nm_seq m = Some (region0, a) ∧ e = mkEnded region0 (nm_seq m) (Some (decoded a)) Acked (Ok tt)) →
  ∀ seq region a, sent !! seq = Some (region, a) → kept t ended expired seq region a →
    kept t' (ended ++ [e]) expired seq region a.
Proof.
  intros [Em|(Em & a0 & E0 & ->)] seq region a Hsent Hk; [by eapply kept_msgs|].
  unfold kept in *. rewrite Em, elem_of_app, list_elem_of_singleton.
  destruct (decide (seq = nm_seq m)) as [->|Hne].
  - right. left. right. congruence.
  - rewrite lookup_delete_ne by done. tauto.
Qed.

(** A step of a consumer keeps what it holds in order and settles at most one
    message. *)
Lemma consumer_step_ok sent t c t' c' e :
  consumer_step t c t' c' e → stream_ok sent t → consumer_ok sent c →
  stream_ok sent t' ∧ consumer_ok sent c' ∧ Forall (ended_ok sent) (option_list e) ∧
  ∀ ended expired seq region a, sent !! seq = Some (region, a) → kept t ended expired seq region a →
    kept t' (ended ++ option_list e) expired seq region a.
Proof.
  intros Hstep Hs Hc. destruct Hstep as [c t' c' e Hb|region p t' p' e Hb];
    [destruct Hb as [region n running ms Hn Hl _ Hd|region n phase running|region n m ms running Hl|
       region n running|region n phase before m after handled reaches e t' He]
    |destruct Hb as [m Hd| |m handled reaches e t' He]].
  - split_and!; [by apply (stream_ok_same _ t)| |constructor|intros; by eapply kept_msgs].
    destruct Hc as [H1 H2]. split; cbn in *; [|rewrite length_app; lia].
    intros m [Hm|Hm]%elem_of_app; [|by apply H1]. rewrite Forall_forall in Hd. destruct (Hd m Hm) as (E & ? & _).
    split; [by apply (sk_stored _ _ Hs) in E as [_ ?]|done].
  - split_and!; [done| |constructor|intros; by eapply kept_msgs]. destruct Hc as [H1 H2]. split; cbn in *.
    + intros m Hm. apply H1. set_solver.
    + rewrite length_app in H2. lia.
  - split_and!; [done| |constructor|intros; by eapply kept_msgs]. destruct Hc as [H1 H2]. split; cbn in *.
    + intros m' Hm. apply H1. set_solver.
    + rewrite !length_app in *. cbn in *. lia.
  - split_and!; [done| |constructor|intros; by eapply kept_msgs]. by destruct Hc.
  - destruct Hc as [H1 H2]. destruct (H1 m) as [Hcar Hsub]; [cbn; set_solver|]. cbn in H1, H2, Hsub.
    destruct (handle_ok _ _ _ _ _ _ _ _ Hcar Hsub He) as (Hend & Eseq & En & Hm).
    split_and!; [|split|by apply Forall_singleton|].
    + destruct Hm as [Em|[Em _]]; (eapply stream_ok_sub; [|done|done]); rewrite Em; [done|apply delete_subseteq].
    + intros m' Hm'. apply H1. cbn in Hm'. set_solver.
    + cbn. rewrite !length_app in *. cbn in *. lia.
    + intros. by eapply kept_settled.
  - split_and!; [by apply (stream_ok_same _ t)|split; [|done]|constructor|intros; by eapply kept_msgs].
    intros m' ->%list_elem_of_singleton. destruct Hd as (E & ? & _). split; [by apply (sk_stored _ _ Hs) in E as [_ ?]|done].
  - split_and!; [done|by destruct Hc|constructor|intros; by eapply kept_msgs].
  - destruct Hc as [H1 H2]. destruct (H1 m) as [Hcar Hsub]; [cbn; set_solver|]. cbn in Hsub.
    destruct (handle_ok _ _ _ _ _ _ _ _ Hcar Hsub He) as (Hend & Eseq & En & Hm).
    split_and!; [|split; cbn; [set_solver|lia]|by apply Forall_singleton|].
    + destruct Hm as [Em|[Em _]]; (eapply stream_ok_sub; [|done|done]); rewrite Em; [done|apply delete_subseteq].
    + intros. by eapply kept_settled.
Qed.

Lemma publish_stored region a fault r t0 t :
  publish region a fault t0 = (r, t) →
  t = t0 ∨ ∃ data, Marshal a = Ok data ∧ t = storeMsg (natsSubject region) data t0.
Proof. unfold publish. intros Hp. repeat case_match; simplify_eq; eauto. Qed.

Lemma stored_ok s region a data :
  Marshal a = Ok data → nats_ok s →
  nats_ok (mkNatsState (storeMsg (natsSubject region) data (na_stream s)) (na_consumers s)
    (<[nt_next (na_stream s) := (region, a)]> (nl_sent s)) (nl_ended s) (nl_expired s)).
Proof.
  intros Hm [[H1 H2] H3 H4 H5].
  assert (Hnew : nl_sent s !! nt_next (na_stream s) = None).
  { apply eq_None_not_Some. intros [p E]. specialize (H2 _ _ E). lia. }
  assert (Hsub : nl_sent s ⊆ <[nt_next (na_stream s) := (region, a)]> (nl_sent s)) by by apply insert_subseteq.
  split; cbn; [split; cbn| | |].
  - intros seq m [[<- <-]|[_ E]]%lookup_insert_Some.
    + split; [done|]. exists region, a. by rewrite lookup_insert_eq.
    + apply H1 in E as [? ?]. split; [done|by eapply carries_mono].
  - intros seq p [[<- _]|[_ E]]%lookup_insert_Some; [lia|]. specialize (H2 _ _ E). lia.
  - eapply Forall_impl; [done|]. intros c. by apply consumer_ok_mono.
  - eapply Forall_impl; [done|]. intros e. by apply ended_ok_mono.
  - intros seq r' a' [[<- _]|[Hne E]]%lookup_insert_Some; unfold kept; cbn.
    + left. rewrite lookup_insert_eq. by eexists.
    + rewrite lookup_insert_ne by done. by apply H5.
Qed.

Lemma nats_step_ok s s' : nats_step s s' → nats_ok s → nats_ok s'.
Proof.
  intros Hstep Hok. pose proof Hok as [Hs Hc He Hk].
  destruct Hstep as [region a fault r t Hp|region n Hr|region Hr|i c t c' e Hi Hstep|seq|seq].
  - apply publish_stored in Hp as [->|(data & Hm & ->)].
    + rewrite bool_decide_eq_true_2 by done. by split.
    + rewrite bool_decide_eq_false_2 by (cbn; lia). by apply stored_ok.
  - split; [done| |done|done]. apply Forall_app. split; [done|]. apply Forall_singleton.
    split; cbn; [set_solver|lia].
  - split; [done| |done|done]. apply Forall_app. split; [done|]. apply Forall_singleton.
    split; cbn; [set_solver|lia].
  - assert (Hci : consumer_ok (nl_sent s) c) by by eapply Forall_lookup_1.
    destruct (consumer_step_ok _ _ _ _ _ _ Hstep Hs Hci) as (Hs' & Hc' & He' & Hk').
    split; cbn; [done|by apply Forall_insert|by apply Forall_app|]. intros seq region a E. by eapply Hk', Hk.
  - split; cbn; [by apply (stream_ok_same _ (na_stream s))|done|done|]. intros q region a E. by apply Hk in E.
  - split; cbn; [by eapply stream_ok_sub; [apply delete_subseteq| |]|done|done|].
    intros q region a E. apply Hk in E. unfold kept in *. cbn. destruct (decide (q = seq)) as [->|Hne].
    + right. right. set_solver.
    + rewrite lookup_delete_ne by done. set_solver.
Qed.

Lemma nats_reachable_ok s : rtc nats_step nats_init s → nats_ok s.
Proof.
  intros Hr. assert (Hi : nats_ok nats_init) by (split; [split|constructor|constructor|]; cbn; set_solver).
  induction Hr as [|s1 s2 s3 Hs _ IH]; [done|]. by eapply IH, nats_step_ok.
Qed.

End Nats.

(** ** The two buses *)

Definition PublishExecution {A} (Marshal : A → result string) := publish Marshal "execution.".
Definition PublishBuild {A} (Marshal : A → result string) := publish Marshal "build.".

(** ** What the buses promise *)

(** C26: no stored assignment is lost.  With any number of publishers and
    consumers, and whatever requests to the broker fail, an assignment that was
    stored for a region is in the stream, from which it can be decoded, or a
    handler of that region has ended on it without an error, or it has passed
    the maximal age.  Every handler gets the assignment that was stored with its
    message, in the region it was published for, and a consumer never holds more
    messages than its concurrency, an execution consumer one.  [decoded] is what
    decoding makes of an encoded assignment. *)
Theorem nats_at_least_once {A : Type} (Marshal : A → result string) (Unmarshal : string → result A) (decoded : A → A)
    (prefix : string) (Hjson : ∀ a data, Marshal a = Ok data → Unmarshal data = Ok (decoded a))
    (s : NatsState) (Hreach : rtc (nats_step Marshal Unmarshal prefix) nats_init s) :
  (∀ seq region a, nl_sent s !! seq = Some (region, a) →
    (∃ m, nt_msgs (na_stream s) !! seq = Some m ∧ nm_Subject m = natsSubject prefix region ∧
          Unmarshal (nm_Data m) = Ok (decoded a)) ∨
    mkEnded region seq (Some (decoded a)) Acked (Ok tt) ∈ nl_ended s ∨ seq ∈ nl_expired s) ∧
  (∀ e, e ∈ nl_ended s → ∃ a, nl_sent s !! en_seq e = Some (en_region e, a) ∧ en_assignment e = Some (decoded a)) ∧
  (∀ c, c ∈ na_consumers s → length (heldMsgs c) ≤ heldBound c).
Proof.
  apply (nats_reachable_ok _ _ _ decoded) in Hreach as [[Hs _] Hc He Hk]; [|done]. split_and!.
  - intros seq region a Hsent. destruct (Hk _ _ _ Hsent) as [[m E]|[?|?]]; [left|by right; left|by right; right].
    exists m. destruct (Hs _ _ E) as (<- & r & a' & Es & Esub & Em). rewrite Hsent in Es. injection Es as <- <-.
    split_and!; [done|done|by apply Hjson].
  - intros e Hin. rewrite Forall_forall in He. destruct (He e Hin) as (a & E & Ea & _). by exists a.
  - intros c Hin. rewrite Forall_forall in Hc. by destruct (Hc c Hin).
Qed.

(** A build whose handler takes longer than the broker waits for the
    acknowledgement: one message, one consumer with two workers. *)
Definition slow_msg : NatsMsg := mkNatsMsg 0 "build.r" "job".
Definition slow_consumer (phase : ConsumePhase) (running : list NatsMsg) : NatsConsumer :=
  OfBuilds (mkBuildConsumer "r" 2 phase running).
Definition slow_state (out : gset nat) (c : list NatsConsumer) : NatsState (A := string) :=
  mkNatsState (mkNatsStream {[0 := slow_msg]} out 1) c {[0 := ("r", "job")]} [] ∅.

Abbreviation slow_step := (nats_step Ok Ok "build.").

Lemma slow_published : rtc slow_step nats_init (slow_state ∅ [slow_consumer Fetching []]).
Proof.
  eapply (rtc_l _ _ (slow_state ∅ [])).
  - exact (na_publish Ok Ok "build." nats_init "r" "job" PublishOk (Ok tt) _ eq_refl).
  - apply rtc_once. exact (na_consume_builds Ok Ok "build." (slow_state ∅ []) "r" 2 eq_refl).
Qed.

(** A fetch of the message and the start of its goroutine. *)
Lemma slow_fetch running :
  length running < 2 →
  rtc slow_step (slow_state ∅ [slow_consumer Fetching running]) (slow_state {[0]} [slow_consumer Fetching (running ++ [slow_msg])]).
Proof.
  intros Hl. set (t := mkNatsStream {[0 := slow_msg]} ∅ 1).
  assert (E : deliver [slow_msg] t = mkNatsStream {[0 := slow_msg]} {[0]} 1) by (unfold deliver; cbn; f_equal; set_solver).
  eapply (rtc_l _ _ (slow_state {[0]} [slow_consumer (Starting [slow_msg]) running])).
  { apply (na_consumer Ok Ok "build." (slow_state ∅ [slow_consumer Fetching running]) 0 _ _
      (slow_consumer (Starting [slow_msg]) running) None eq_refl). rewrite <- E.
    apply cs_build, (bs_fetch Ok "build." t "r" 2 running [slow_msg]); [lia|cbn; lia|apply NoDup_singleton|].
    apply Forall_singleton. split_and!; [done|done|cbn; set_solver]. }
  eapply (rtc_l _ _ (slow_state {[0]} [slow_consumer (Starting []) (running ++ [slow_msg])])); [|apply rtc_once].
  - apply (na_consumer Ok Ok "build." (slow_state {[0]} [slow_consumer (Starting [slow_msg]) running]) 0 _ _
      (slow_consumer (Starting []) (running ++ [slow_msg])) None eq_refl). by apply cs_build, bs_start.
  - apply (na_consumer Ok Ok "build." (slow_state {[0]} [slow_consumer (Starting []) (running ++ [slow_msg])]) 0 _ _
      (slow_consumer Fetching (running ++ [slow_msg])) None eq_refl). apply cs_build, bs_started.
Qed.

(** The same message is handled twice at the same time: nothing tells the broker
    that a long build is still in progress. *)
Lemma slow_build_twice : rtc slow_step nats_init (slow_state {[0]} [slow_consumer Fetching [slow_msg; slow_msg]]).
Proof.
  etransitivity; [apply slow_published|]. etransitivity; [apply (slow_fetch []); cbn; lia|].
  eapply (rtc_l _ _ (slow_state ({[0]} ∖ {[0]}) [slow_consumer Fetching [slow_msg]])).
  - exact (na_ack_wait Ok Ok "build." (slow_state {[0]} [slow_consumer Fetching [slow_msg]]) 0).
  - replace ({[0]} ∖ {[0]} : gset nat) with (∅ : gset nat) by set_solver. apply (slow_fetch [slow_msg]). cbn. lia.
Qed.

Lemma nats_at_least_once_witness :
  length (heldMsgs (slow_consumer Fetching [slow_msg; slow_msg])) ≤ 2 ∧
  is_Some (nt_msgs (na_stream (slow_state {[0]} [slow_consumer Fetching [slow_msg; slow_msg]])) !! 0).
Proof.
  destruct (nats_at_least_once Ok Ok id "build." (λ a data (H : Ok a = Ok data), eq_sym H) _ slow_build_twice) as (_ & _ & H).
  split; [apply (H (slow_consumer Fetching [slow_msg; slow_msg])); left|by eexists].
Defined.
