(* ===== verification/StackConfig.v ===== *)
(** * StackConfig: settings from the command line and the environment

    Models the settings of [internal/devstack/devstack.go]: [prepareConfig], which
    completes them from the environment and with defaults, and the choices that
    depend on them.  [env] is [os.Getenv].

    Theorems: what a completed configuration guarantees; completing it again
    changes nothing; which settings of the caller are kept. *)

From Stdlib Require Import Ascii.
From stdpp Require Import base decidable tactics numbers list gmap strings pretty.
From S2P Require Import Prelude Text Domain MemStore World SchedulerFacts Secrets Build BuildFacts Http HttpApi NetworkPool NodeAgent MicroVM.

(** ** Settings *)

Record StackConfig := mkStackConfig {
  sc_LoadEnv : bool;
  sc_APIAddr : string;
  sc_ExecutionRegions : list string;
  sc_CoordinatorBasePort : Z;
  sc_CoordinatorBindHost : string;
  sc_ControlPlaneBaseURL : string;
  sc_NodeAgentHostID : string;
  sc_NodeAgentRegion : string;
  sc_NodeAgentCoordinator : string;
  sc_PostgresDSN : string;
  sc_NATSURL : string;
  sc_S3Region : string;
  sc_S3RegionBuckets : gmap string string;
  sc_S3Endpoint : string;
  sc_S3AccessKey : string;
  sc_S3SecretKey : string;
  sc_S3Bucket : string;
  sc_SecretsBackend : string;
  sc_AWSRegion : string;
  sc_AWSAccessKey : string;
  sc_AWSSecretKey : string;
  sc_SecretsProxyToken : string;
  sc_BootstrapAdminAPIKey : string;
  sc_EnableMTLS : bool;
  sc_GRPCCACertPath : string;
  sc_GRPCServerCertPath : string;
  sc_GRPCServerKeyPath : string;
  sc_GRPCClientCertPath : string;
  sc_GRPCClientKeyPath : string;
  sc_GRPCServerName : string;
  sc_ExecutionDriver : string;
  sc_ExecutionHostSlots : Z;
  sc_ExecutionHostFullNetworkSlots : Z;
  sc_BuildWorkersPerRegion : Z;
  sc_BuildGitCloneTimeout : Duration;
  sc_BuildNPMInstallTimeout : Duration;
  sc_BuildNPMBuildTimeout : Duration;
  sc_BuildNPMPruneTimeout : Duration;
  sc_FirecrackerBinary : string;
  sc_JailerBinary : string;
  sc_FirecrackerUseJailer : bool;
  sc_FirecrackerKernelPath : string;
  sc_FirecrackerRootFSPath : string;
  sc_FirecrackerWorkspace : string;
  sc_FirecrackerSnapshotDir : string;
  sc_FirecrackerChrootBase : string;
  sc_FirecrackerGuestInit : string;
  sc_FirecrackerTapDevice : string;
  sc_FirecrackerGuestMAC : string;
  sc_FirecrackerGuestIP : string;
  sc_FirecrackerGatewayIP : string;
  sc_FirecrackerNetmask : string;
  sc_FirecrackerTapPrefix : string;
  sc_FirecrackerTapCount : Z;
  sc_FirecrackerTapCIDR : string;
  sc_FirecrackerTapSubnet : Z;
  sc_FirecrackerVCPUCount : Z;
  sc_FirecrackerMemoryMB : Z;
  sc_FirecrackerJailerUID : Z;
  sc_FirecrackerJailerGID : Z;
  sc_FirecrackerJailerUser : string;
}.

#[export] Instance StackConfig_rebuild : Rebuild StackConfig := λ r,
  mkStackConfig (sc_LoadEnv r) (sc_APIAddr r) (sc_ExecutionRegions r) (sc_CoordinatorBasePort r)
    (sc_CoordinatorBindHost r) (sc_ControlPlaneBaseURL r) (sc_NodeAgentHostID r) (sc_NodeAgentRegion r)
    (sc_NodeAgentCoordinator r) (sc_PostgresDSN r) (sc_NATSURL r) (sc_S3Region r) (sc_S3RegionBuckets r)
    (sc_S3Endpoint r) (sc_S3AccessKey r) (sc_S3SecretKey r) (sc_S3Bucket r) (sc_SecretsBackend r)
    (sc_AWSRegion r) (sc_AWSAccessKey r) (sc_AWSSecretKey r) (sc_SecretsProxyToken r)
    (sc_BootstrapAdminAPIKey r) (sc_EnableMTLS r) (sc_GRPCCACertPath r) (sc_GRPCServerCertPath r)
    (sc_GRPCServerKeyPath r) (sc_GRPCClientCertPath r) (sc_GRPCClientKeyPath r) (sc_GRPCServerName r)
    (sc_ExecutionDriver r) (sc_ExecutionHostSlots r) (sc_ExecutionHostFullNetworkSlots r)
    (sc_BuildWorkersPerRegion r) (sc_BuildGitCloneTimeout r) (sc_BuildNPMInstallTimeout r)
    (sc_BuildNPMBuildTimeout r) (sc_BuildNPMPruneTimeout r) (sc_FirecrackerBinary r) (sc_JailerBinary r)
    (sc_FirecrackerUseJailer r) (sc_FirecrackerKernelPath r) (sc_FirecrackerRootFSPath r)
    (sc_FirecrackerWorkspace r) (sc_FirecrackerSnapshotDir r) (sc_FirecrackerChrootBase r)
    (sc_FirecrackerGuestInit r) (sc_FirecrackerTapDevice r) (sc_FirecrackerGuestMAC r)
    (sc_FirecrackerGuestIP r) (sc_FirecrackerGatewayIP r) (sc_FirecrackerNetmask r)
    (sc_FirecrackerTapPrefix r) (sc_FirecrackerTapCount r) (sc_FirecrackerTapCIDR r)
    (sc_FirecrackerTapSubnet r) (sc_FirecrackerVCPUCount r) (sc_FirecrackerMemoryMB r)
    (sc_FirecrackerJailerUID r) (sc_FirecrackerJailerGID r) (sc_FirecrackerJailerUser r).

(** ** Numbers and truth values *)

(** Why [strconv.Atoi] refuses a text. *)
Fixpoint atoiReason (acc : Z) (s : string) : string :=
  match s with
  | EmptyString => "value out of range"
  | String a rest =>
      if isDigit a
      then if (2 ^ 64 <=? acc * 10 + digitVal a)%Z then "value out of range" else atoiReason (acc * 10 + digitVal a) rest
      else "invalid syntax"
  end.

Definition atoiErr (s : string) : GoError :=
  let body := match s with
              | String a s' => if byte_eqb a 43 || byte_eqb a 45 then s' else s
              | EmptyString => s
              end in
  plainErr ("strconv.Atoi: parsing " +:+ quote s +:+ ": " +:+
    (if bool_decide (body = "") then "invalid syntax" else atoiReason 0 body)).

Definition ParseBool (s : string) : result bool :=
  if bool_decide (s ∈ ["1"; "t"; "T"; "true"; "TRUE"; "True"]) then Ok true
  else if bool_decide (s ∈ ["0"; "f"; "F"; "false"; "FALSE"; "False"]) then Ok false
  else Err (plainErr ("strconv.ParseBool: parsing " +:+ quote s +:+ ": invalid syntax")).

(** ** Reading the environment *)

Section Environment.
Context (env : string → string) (load : bool).

(** The settings that are texts: the environment fills an empty one. *)
Definition envText (name value : string) : string :=
  if load && bool_decide (value = "") then TrimSpace (env name) else value.

(** Numbers: the environment fills a zero. *)
Definition envInt (name : string) (value : Z) : result Z :=
  if load && (value =? 0)%Z then
    let raw := TrimSpace (env name) in
    if bool_decide (raw = "") then Ok value
    else match Atoi raw with
         | None => Err (wrapText ("parse " +:+ name +:+ ": ") (atoiErr raw) "")
         | Some value => Ok value
         end
  else Ok value.

(** Durations in seconds, in 64 bits. *)
Definition envSeconds (name : string) (value : Duration) : result Duration :=
  if load && (value =? 0)%Z then
    let raw := TrimSpace (env name) in
    if bool_decide (raw = "") then Ok value
    else match Atoi raw with
         | None => Err (wrapText ("parse " +:+ name +:+ ": ") (atoiErr raw) "")
         | Some value => Ok (int64_of (value * Second))
         end
  else Ok value.

(** Truth values: here the environment overrules the caller; [otherwise] is the
    value when the environment has none. *)
Definition envBool (name : string) (value otherwise : bool) : result bool :=
  if load then
    let raw := TrimSpace (env name) in
    if bool_decide (raw = "") then Ok otherwise
    else match ParseBool raw with
         | Err e => Err (wrapText ("parse " +:+ name +:+ ": ") e "")
         | Ok enabled => Ok enabled
         end
  else Ok value.

End Environment.

(** [strings.SplitN(entry, ":", 2)] *)
Definition cutColon (entry : string) : option (string * string) :=
  match Split entry (ascii_of_N 58) with
  | region :: ((_ :: _) as rest) => Some (region, Join rest ":")
  | _ => None
  end.

Fixpoint regionBuckets (mapping : gmap string string) (entries : list string) : result (gmap string string) :=
  match entries with
  | [] => Ok mapping
  | entry :: rest =>
      let entry := TrimSpace entry in
      let invalid := Err (plainErr ("invalid LECREV_S3_REGION_BUCKETS entry " +:+ quote entry)) in
      if bool_decide (entry = "") then regionBuckets mapping rest
      else match cutColon entry with
           | None => invalid
           | Some (region, bucket) =>
               let region := TrimSpace region in
               let bucket := TrimSpace bucket in
               if bool_decide (region = "") || bool_decide (bucket = "") then invalid
               else regionBuckets (<[region := bucket]> mapping) rest
           end
  end.

Definition parseRegionBucketMap (raw : string) : result (gmap string string) :=
  let value := TrimSpace raw in
  if bool_decide (value = "") then Ok ∅ else regionBuckets ∅ (Split value (ascii_of_N 44)).

(** The buckets by region, from the environment when there are none. *)
Definition bucketsOf (env : string → string) (load : bool) (m : gmap string string) : result (gmap string string) :=
  if load && bool_decide (m = ∅) then parseRegionBucketMap (env "LECREV_S3_REGION_BUCKETS") else Ok m.

(** ** Defaults *)

Definition orDefault (value fallback : string) : string := if bool_decide (value = "") then fallback else value.
Definition orPositive (value fallback : Z) : Z := if (value <=? 0)%Z then fallback else value.

(** The slots for jobs with a full network: as many as tap devices, at most as
    many as slots. *)
Definition fullNetworkSlots (full tapCount slots : Z) : Z :=
  let full := if (full <=? 0)%Z then if (0 <? tapCount)%Z then tapCount else 1%Z else full in
  if (slots <? full)%Z then slots else full.

(** ** [prepareConfig] *)

Definition prepareConfig (env : string → string) (cfg : StackConfig) : result StackConfig :=
  let load := sc_LoadEnv cfg in
  let text := envText env load in
  port ← envInt env load "LECREV_COORDINATOR_BASE_PORT" (sc_CoordinatorBasePort cfg);
  buckets ← bucketsOf env load (sc_S3RegionBuckets cfg);
  slots ← envInt env load "LECREV_EXECUTION_HOST_SLOTS" (sc_ExecutionHostSlots cfg);
  full ← envInt env load "LECREV_EXECUTION_HOST_FULL_NETWORK_SLOTS" (sc_ExecutionHostFullNetworkSlots cfg);
  workers ← envInt env load "LECREV_BUILD_WORKERS_PER_REGION" (sc_BuildWorkersPerRegion cfg);
  clone ← envSeconds env load "LECREV_BUILD_GIT_CLONE_TIMEOUT_SEC" (sc_BuildGitCloneTimeout cfg);
  install ← envSeconds env load "LECREV_BUILD_NPM_INSTALL_TIMEOUT_SEC" (sc_BuildNPMInstallTimeout cfg);
  build ← envSeconds env load "LECREV_BUILD_NPM_BUILD_TIMEOUT_SEC" (sc_BuildNPMBuildTimeout cfg);
  prune ← envSeconds env load "LECREV_BUILD_NPM_PRUNE_TIMEOUT_SEC" (sc_BuildNPMPruneTimeout cfg);
  jailer ← envBool env load "LECREV_FIRECRACKER_USE_JAILER" (sc_FirecrackerUseJailer cfg) (sc_FirecrackerUseJailer cfg);
  tapCount ← envInt env load "LECREV_FIRECRACKER_TAP_COUNT" (sc_FirecrackerTapCount cfg);
  tapSubnet ← envInt env load "LECREV_FIRECRACKER_TAP_SUBNET_PREFIX" (sc_FirecrackerTapSubnet cfg);
  vcpus ← envInt env load "LECREV_FIRECRACKER_VCPU_COUNT" (sc_FirecrackerVCPUCount cfg);
  memory ← envInt env load "LECREV_FIRECRACKER_DEFAULT_MEMORY_MB" (sc_FirecrackerMemoryMB cfg);
  mtls ← envBool env load "LECREV_ENABLE_MTLS" (sc_EnableMTLS cfg) true;
  regions ← NormalizeExecutionRegions (sc_ExecutionRegions cfg);
  uid ← envInt env load "LECREV_FIRECRACKER_JAILER_UID" (sc_FirecrackerJailerUID cfg);
  gid ← envInt env load "LECREV_FIRECRACKER_JAILER_GID" (sc_FirecrackerJailerGID cfg);
  let slots := orPositive slots 4 in
  mret (mkStackConfig load
    (orDefault (text "LECREV_API_ADDR" (sc_APIAddr cfg)) ":8080")
    regions
    (if (port =? 0)%Z then 9091%Z else port)
    (text "LECREV_COORDINATOR_BIND_HOST" (sc_CoordinatorBindHost cfg))
    (text "LECREV_CONTROL_PLANE_BASE_URL" (sc_ControlPlaneBaseURL cfg))
    (text "LECREV_NODE_AGENT_HOST_ID" (sc_NodeAgentHostID cfg))
    (text "LECREV_NODE_AGENT_REGION" (sc_NodeAgentRegion cfg))
    (text "LECREV_COORDINATOR_ADDR" (sc_NodeAgentCoordinator cfg))
    (text "LECREV_POSTGRES_DSN" (sc_PostgresDSN cfg))
    (text "LECREV_NATS_URL" (sc_NATSURL cfg))
    (text "LECREV_S3_REGION" (sc_S3Region cfg))
    buckets
    (text "LECREV_S3_ENDPOINT" (sc_S3Endpoint cfg))
    (text "LECREV_S3_ACCESS_KEY" (sc_S3AccessKey cfg))
    (text "LECREV_S3_SECRET_KEY" (sc_S3SecretKey cfg))
    (text "LECREV_S3_BUCKET" (sc_S3Bucket cfg))
    (text "LECREV_SECRETS_BACKEND" (sc_SecretsBackend cfg))
    (text "LECREV_AWS_REGION" (sc_AWSRegion cfg))
    (text "LECREV_AWS_ACCESS_KEY_ID" (sc_AWSAccessKey cfg))
    (text "LECREV_AWS_SECRET_ACCESS_KEY" (sc_AWSSecretKey cfg))
    (orText (text "LECREV_SECRETS_PROXY_TOKEN" (sc_SecretsProxyToken cfg)) "dev-secrets-token")
    (orText (text "LECREV_BOOTSTRAP_ADMIN_API_KEY" (sc_BootstrapAdminAPIKey cfg)) "dev-root-key")
    mtls
    (text "LECREV_GRPC_CA_CERT" (sc_GRPCCACertPath cfg))
    (text "LECREV_GRPC_SERVER_CERT" (sc_GRPCServerCertPath cfg))
    (text "LECREV_GRPC_SERVER_KEY" (sc_GRPCServerKeyPath cfg))
    (text "LECREV_GRPC_CLIENT_CERT" (sc_GRPCClientCertPath cfg))
    (text "LECREV_GRPC_CLIENT_KEY" (sc_GRPCClientKeyPath cfg))
    (text "LECREV_GRPC_SERVER_NAME" (sc_GRPCServerName cfg))
    (orText (text "LECREV_EXECUTION_DRIVER" (sc_ExecutionDriver cfg)) "local-node")
    slots
    (fullNetworkSlots full tapCount slots)
    (orPositive workers 4)
    (orPositive clone (180 * Second))
    (orPositive install (480 * Second))
    (orPositive build (600 * Second))
    (orPositive prune (180 * Second))
    (text "LECREV_FIRECRACKER_BINARY" (sc_FirecrackerBinary cfg))
    (text "LECREV_JAILER_BINARY" (sc_JailerBinary cfg))
    jailer
    (text "LECREV_FIRECRACKER_KERNEL_IMAGE" (sc_FirecrackerKernelPath cfg))
    (text "LECREV_FIRECRACKER_ROOTFS" (sc_FirecrackerRootFSPath cfg))
    (text "LECREV_FIRECRACKER_WORKSPACE_DIR" (sc_FirecrackerWorkspace cfg))
    (text "LECREV_FIRECRACKER_SNAPSHOT_DIR" (sc_FirecrackerSnapshotDir cfg))
    (text "LECREV_FIRECRACKER_CHROOT_BASE_DIR" (sc_FirecrackerChrootBase cfg))
    (text "LECREV_FIRECRACKER_GUEST_INIT" (sc_FirecrackerGuestInit cfg))
    (text "LECREV_FIRECRACKER_TAP_DEVICE" (sc_FirecrackerTapDevice cfg))
    (text "LECREV_FIRECRACKER_GUEST_MAC" (sc_FirecrackerGuestMAC cfg))
    (text "LECREV_FIRECRACKER_GUEST_IP" (sc_FirecrackerGuestIP cfg))
    (text "LECREV_FIRECRACKER_GATEWAY_IP" (sc_FirecrackerGatewayIP cfg))
    (text "LECREV_FIRECRACKER_NETMASK" (sc_FirecrackerNetmask cfg))
    (text "LECREV_FIRECRACKER_TAP_DEVICE_PREFIX" (sc_FirecrackerTapPrefix cfg))
    tapCount
    (text "LECREV_FIRECRACKER_TAP_NETWORK_CIDR" (sc_FirecrackerTapCIDR cfg))
    tapSubnet
    vcpus
    memory
    uid
    gid
    (orDefault (text "LECREV_FIRECRACKER_JAILER_USER" (sc_FirecrackerJailerUser cfg)) "lecrev")).

(** ** Addresses *)

Definition hasByte (a : ascii) (s : string) : bool := bool_decide (a ∈ String.list_ascii_of_string s).

Definition bytes_text (l : list ascii) : string := String.string_of_list_ascii l.

(** [net.SplitHostPort]; [None] is an error. *)
Definition SplitHostPort (hostport : string) : option (string * string) :=
  let l := String.list_ascii_of_string hostport in
  let colon := ascii_of_N 58 in let open := ascii_of_N 91 in let close := ascii_of_N 93 in
  match list_find (λ b, b = colon) (reverse l) with
  | None => None
  | Some (back, _) =>
      let i := length l - 1 - back in
      let port := bytes_text (drop (S i) l) in
      if bool_decide (head l = Some open) then
        match list_find (λ b, b = close) l with
        | None => None
        | Some (end_, _) =>
            if negb (bool_decide (S end_ = i)) then None
            else if bool_decide (open ∈ drop 1 l) || bool_decide (close ∈ drop (S end_) l) then None
            else Some (bytes_text (firstn (end_ - 1) (drop 1 l)), port)
        end
      else if bool_decide (colon ∈ firstn i l) then None
      else if bool_decide (open ∈ l) || bool_decide (close ∈ l) then None
      else Some (bytes_text (firstn i l), port)
  end.

Definition JoinHostPort (host port : string) : string :=
  if hasByte (ascii_of_N 58) host then "[" +:+ host +:+ "]:" +:+ port else host +:+ ":" +:+ port.

Definition controlPlaneBaseURL (apiAddr : string) : string :=
  if HasPrefix apiAddr "http://" || HasPrefix apiAddr "https://" then trimSlashes apiAddr
  else if HasPrefix apiAddr ":" then "http://127.0.0.1" +:+ apiAddr
  else match SplitHostPort apiAddr with
       | Some (host, port) =>
           "http://" +:+ JoinHostPort (if bool_decide (host ∈ [""; "0.0.0.0"; "::"]) then "127.0.0.1" else host) port
       | None => "http://" +:+ trimSlashes apiAddr
       end.

Definition coordinatorListenAddr (cfg : StackConfig) (index : nat) (defaultHost : string) : string :=
  let host := TrimSpace (sc_CoordinatorBindHost cfg) in
  JoinHostPort (if bool_decide (host = "") then defaultHost else host)
    (itoa (int64_of (sc_CoordinatorBasePort cfg + Z.of_nat index))).

(** [strings.NewReplacer]: four bytes become dashes. *)
Definition sanitizeRegionToken : string → string :=
  string_map (λ a, if bool_decide (a ∈ [ascii_of_N 47; ascii_of_N 46; ascii_of_N 58; ascii_of_N 95]) then ascii_of_N 45 else a).

(** ** Components chosen by the settings *)

Inductive SecretsBackend := MemorySecrets (secrets : gmap string string) | AWSSecrets (region accessKey secretKey : string) (ttl : Duration).

Definition buildSecretsProvider (cfg : StackConfig) : result SecretsBackend :=
  if bool_decide (sc_SecretsBackend cfg ∈ [""; "memory"]) then Ok (MemorySecrets {["DEMO_SECRET" := "shh-local-dev"]})
  else if bool_decide (sc_SecretsBackend cfg = "aws-secrets-manager") then
    Ok (AWSSecrets (sc_AWSRegion cfg) (sc_AWSAccessKey cfg) (sc_AWSSecretKey cfg) (60 * Second))
  else Err (plainErr ("unsupported secrets backend " +:+ quote (sc_SecretsBackend cfg))).

Definition hasFileMTLSConfig (cfg : StackConfig) : bool :=
  negb (blank (sc_GRPCCACertPath cfg)) || negb (blank (sc_GRPCServerCertPath cfg)) ||
  negb (blank (sc_GRPCServerKeyPath cfg)) || negb (blank (sc_GRPCClientCertPath cfg)) ||
  negb (blank (sc_GRPCClientKeyPath cfg)).

(** The checks before the certificate files are read; [load] reads them. *)
Record FileCredentialsConfig := mkFileCredentials {
  fc_CACertPath : string;
  fc_CertPath : string;
  fc_KeyPath : string;
  fc_ServerName : string;
}.

Definition LoadServerMTLS {C} (load : FileCredentialsConfig → result C) (cfg : FileCredentialsConfig) : result C :=
  if blank (fc_CACertPath cfg) || blank (fc_CertPath cfg) || blank (fc_KeyPath cfg)
  then Err (plainErr "ca cert, cert, and key paths are required for server mTLS") else load cfg.

Definition LoadClientMTLS {C} (load : FileCredentialsConfig → result C) (cfg : FileCredentialsConfig) : result C :=
  if blank (fc_CACertPath cfg) || blank (fc_CertPath cfg) || blank (fc_KeyPath cfg)
  then Err (plainErr "ca cert, cert, and key paths are required for client mTLS")
  else if blank (fc_ServerName cfg) then Err (plainErr "server name is required for client mTLS")
  else load cfg.

(** [None]: no credentials. *)
Definition buildControlPlaneGRPCServerOptions {C} (load : FileCredentialsConfig → result C) (cfg : StackConfig) : result (option C) :=
  if negb (sc_EnableMTLS cfg) then Ok None
  else if hasFileMTLSConfig cfg then
    creds ← LoadServerMTLS load (mkFileCredentials (sc_GRPCCACertPath cfg) (sc_GRPCServerCertPath cfg) (sc_GRPCServerKeyPath cfg) "");
    mret (Some creds)
  else Err (plainErr "mTLS is enabled but no grpc server certificate files are configured").

Definition buildNodeAgentGRPCDialOptions {C} (load : FileCredentialsConfig → result C) (cfg : StackConfig) : result (option C) :=
  if negb (sc_EnableMTLS cfg) then Ok None
  else if negb (hasFileMTLSConfig cfg) then
    Err (plainErr "mTLS is enabled but no grpc client certificate files are configured")
  else
    creds ← LoadClientMTLS load
      (mkFileCredentials (sc_GRPCCACertPath cfg) (sc_GRPCClientCertPath cfg) (sc_GRPCClientKeyPath cfg) (sc_GRPCServerName cfg));
    mret (Some creds).

(** An identifier of the jailer's account. *)
Definition accountID (cfg : StackConfig) (what : string) (set : Z) (text : string) : result Z :=
  if (set =? 0)%Z then
    match Atoi text with
    | None => Err (wrapText ("parse " +:+ what +:+ " for jailer user " +:+ quote (sc_FirecrackerJailerUser cfg) +:+ ": ") (atoiErr text) "")
    | Some value => Ok value
    end
  else Ok set.

(** [lookup] is [user.Lookup]: the user and group identifiers of an account. *)
Definition jailerIDs (lookup : string → result (string * string)) (cfg : StackConfig) : result (Z * Z) :=
  let uid := sc_FirecrackerJailerUID cfg in
  let gid := sc_FirecrackerJailerGID cfg in
  if sc_FirecrackerUseJailer cfg && ((uid =? 0)%Z || (gid =? 0)%Z) && negb (blank (sc_FirecrackerJailerUser cfg)) then
    match lookup (TrimSpace (sc_FirecrackerJailerUser cfg)) with
    | Err e => Err (wrapText ("lookup jailer user " +:+ quote (sc_FirecrackerJailerUser cfg) +:+ ": ") e "")
    | Ok account =>
        uid ← accountID cfg "uid" uid account.1;
        gid ← accountID cfg "gid" gid account.2;
        mret (uid, gid)
    end
  else Ok (uid, gid).

Definition vmConfigOf (cfg : StackConfig) (uid gid : Z) : Config :=
  mkConfig (sc_FirecrackerBinary cfg) (sc_JailerBinary cfg) (sc_FirecrackerKernelPath cfg) (sc_FirecrackerRootFSPath cfg)
    (sc_FirecrackerWorkspace cfg) (sc_FirecrackerSnapshotDir cfg) (sc_FirecrackerChrootBase cfg) (sc_FirecrackerUseJailer cfg)
    (sc_FirecrackerGuestInit cfg) 0 0 (sc_FirecrackerVCPUCount cfg) (sc_FirecrackerMemoryMB cfg) ""
    (sc_FirecrackerTapDevice cfg) (sc_FirecrackerGuestMAC cfg) (sc_FirecrackerGuestIP cfg) (sc_FirecrackerGatewayIP cfg)
    (sc_FirecrackerNetmask cfg) (sc_FirecrackerTapPrefix cfg) (sc_FirecrackerTapCount cfg) (sc_FirecrackerTapCIDR cfg)
    (sc_FirecrackerTapSubnet cfg) 0 0 0 0 0 uid gid.

Inductive BuiltDriver :=
| LocalNode
| Firecracker (d : VmDriver) (firstCID : Z) (pool : option networkPool).

(** [tempDir], [uid] and [gid] are those of the process. *)
Definition buildExecutionDriver (lookup : string → result (string * string)) (tempDir : string) (uid gid : Z)
    (cfg : StackConfig) : result BuiltDriver :=
  '(jailerUID, jailerGID) ← jailerIDs lookup cfg;
  let name := TrimSpace (ToLower (sc_ExecutionDriver cfg)) in
  if bool_decide (name ∈ [""; "local-node"]) then Ok LocalNode
  else if bool_decide (name = "firecracker") then
    '(d, cid, pool) ← NewMicroVM tempDir uid gid (vmConfigOf cfg jailerUID jailerGID);
    mret (Firecracker d cid pool)
  else Err (plainErr ("unsupported execution driver " +:+ quote (sc_ExecutionDriver cfg))).

(** ** Checks of the separate processes *)

Definition required (name why value : string) : result unit :=
  if blank value then Err (plainErr (name +:+ " is required" +:+ why)) else Ok tt.

(** [RunControlPlane] *)
Definition controlPlaneSettings (env : string → string) (cfg : StackConfig) : result StackConfig :=
  cfg ← prepareConfig env (cfg <| sc_LoadEnv := true |>);
  mret (if blank (sc_CoordinatorBindHost cfg) then cfg <| sc_CoordinatorBindHost := "0.0.0.0" |> else cfg).

(** [RunNodeAgent]; [hostname] is [os.Hostname]. *)
Definition nodeAgentSettings (env : string → string) (hostname : result string) (cfg : StackConfig) : result StackConfig :=
  cfg ← prepareConfig env (cfg <| sc_LoadEnv := true |>);
  _ ← required "LECREV_NODE_AGENT_REGION" "" (sc_NodeAgentRegion cfg);
  _ ← required "LECREV_COORDINATOR_ADDR" "" (sc_NodeAgentCoordinator cfg);
  _ ← required "LECREV_CONTROL_PLANE_BASE_URL" "" (sc_ControlPlaneBaseURL cfg);
  _ ← required "LECREV_S3_BUCKET" " for a remote execution host" (sc_S3Bucket cfg);
  if blank (sc_NodeAgentHostID cfg) then
    match hostname with
    | Err e => Err (wrapText "resolve hostname for node-agent host id: " e "")
    | Ok hostname => Ok (cfg <| sc_NodeAgentHostID := hostname |>)
    end
  else Ok cfg.

(** [RunBuildWorker] *)
Definition buildWorkerSettings (env : string → string) (cfg : StackConfig) : result StackConfig :=
  cfg ← prepareConfig env (cfg <| sc_LoadEnv := true |>);
  _ ← required "LECREV_POSTGRES_DSN" " for build-worker" (sc_PostgresDSN cfg);
  _ ← required "LECREV_NATS_URL" " for build-worker" (sc_NATSURL cfg);
  mret cfg.

(** ** Completing twice *)

Lemma envText_idem env load name v : envText env load name (envText env load name v) = envText env load name v.
Proof. unfold envText. destruct load; [|done]. cbn. repeat case_bool_decide; congruence. Qed.

Lemma envText_default env load name v d :
  d ≠ "" → orDefault (envText env load name (orDefault (envText env load name v) d)) d = orDefault (envText env load name v) d.
Proof.
  intros Hd. unfold orDefault at 2. case_bool_decide as E.
  - rewrite E. unfold envText, orDefault. rewrite (bool_decide_eq_false_2 (d = "")), andb_false_r by done. by rewrite bool_decide_eq_false_2.
  - by rewrite envText_idem.
Qed.

Lemma blank_nonempty v : blank v = false → v ≠ "".
Proof. intros Hv ->. done. Qed.

Lemma envText_orText env load name v d :
  blank d = false → orText (envText env load name (orText (envText env load name v) d)) d = orText (envText env load name v) d.
Proof.
  intros Hd. unfold orText at 2 3. destruct (blank (envText env load name v)) eqn:E.
  - unfold envText. rewrite (bool_decide_eq_false_2 (d = "")), andb_false_r by by apply blank_nonempty. unfold orText. by rewrite Hd.
  - rewrite envText_idem. unfold orText. by rewrite E.
Qed.

Lemma envInt_set env load name v : v ≠ 0%Z → envInt env load name v = Ok v.
Proof. intros Hv. unfold envInt. apply Z.eqb_neq in Hv. by rewrite Hv, andb_false_r. Qed.

Lemma envInt_idem env load name v x : envInt env load name v = Ok x → envInt env load name x = Ok x.
Proof.
  intros H. destruct (decide (x = 0%Z)) as [->|Hx]; [|by apply envInt_set]. unfold envInt in *.
  destruct load; [|done]. cbn in *. destruct (v =? 0)%Z eqn:Ev; [|injection H as ->; done].
  case_bool_decide; [done|]. by destruct (Atoi _); [|done].
Qed.

Lemma envInt_positive env load name v x d :
  (0 < d)%Z → envInt env load name v = Ok x →
  ∃ y, envInt env load name (orPositive x d) = Ok y ∧ orPositive y d = orPositive x d.
Proof.
  intros Hd H. exists (orPositive x d). unfold orPositive. destruct (x <=? 0)%Z eqn:Ex.
  - rewrite envInt_set by lia. split; [done|]. by destruct (d <=? 0)%Z eqn:?; [lia|].
  - rewrite Ex. split; [by eapply envInt_idem|done].
Qed.

Lemma envSeconds_set env load name v : v ≠ 0%Z → envSeconds env load name v = Ok v.
Proof. intros Hv. unfold envSeconds. apply Z.eqb_neq in Hv. by rewrite Hv, andb_false_r. Qed.

Lemma orPositive_pos v d : (0 < d)%Z → (0 < orPositive v d)%Z.
Proof. intros Hd. unfold orPositive. destruct (v <=? 0)%Z eqn:?; lia. Qed.

Lemma orPositive_idem v d : (0 < d)%Z → orPositive (orPositive v d) d = orPositive v d.
Proof. intros Hd. pose proof (orPositive_pos v d Hd). unfold orPositive at 1. by destruct (_ <=? 0)%Z eqn:?; [lia|]. Qed.

Lemma fullNetworkSlots_bounds full taps slots : (0 < slots)%Z → (1 ≤ fullNetworkSlots full taps slots ≤ slots)%Z.
Proof. intros Hs. unfold fullNetworkSlots. repeat case_match; lia. Qed.

Lemma fullNetworkSlots_idem full taps slots :
  (1 ≤ full ≤ slots)%Z → fullNetworkSlots full taps slots = full.
Proof. intros Hs. unfold fullNetworkSlots. repeat case_match; lia. Qed.

Lemma envBool_self env load name v x : envBool env load name v v = Ok x → envBool env load name x x = Ok x.
Proof. unfold envBool. destruct load; [|done]. case_bool_decide; [done|]. by case_match. Qed.

Lemma envBool_fixed env load name v o x : envBool env load name v o = Ok x → envBool env load name x o = Ok x.
Proof. unfold envBool. destruct load; [|done]. case_bool_decide; [done|]. by case_match. Qed.

Lemma bucketsOf_idem env load m b : bucketsOf env load m = Ok b → bucketsOf env load b = Ok b.
Proof.
  unfold bucketsOf. destruct load; [|done]. cbn. case_bool_decide as E; intros H; [by case_bool_decide|].
  injection H as ->. by rewrite bool_decide_eq_false_2.
Qed.

(** What every completed configuration guarantees. *)
Record config_ok (cfg : StackConfig) : Prop := {
  ok_addr : sc_APIAddr cfg ≠ "";
  ok_port : sc_CoordinatorBasePort cfg ≠ 0%Z;
  ok_regions : NoDup (sc_ExecutionRegions cfg) ∧ sc_ExecutionRegions cfg ≠ [] ∧
    Forall (λ r, r ∈ DefaultExecutionRegions) (sc_ExecutionRegions cfg);
  ok_token : blank (sc_SecretsProxyToken cfg) = false;
  ok_admin : blank (sc_BootstrapAdminAPIKey cfg) = false;
  ok_driver : blank (sc_ExecutionDriver cfg) = false;
  ok_slots : (1 ≤ sc_ExecutionHostFullNetworkSlots cfg ≤ sc_ExecutionHostSlots cfg)%Z;
  ok_workers : (0 < sc_BuildWorkersPerRegion cfg)%Z;
  ok_timeouts : Forall (λ t, 0 < t)%Z
    [sc_BuildGitCloneTimeout cfg; sc_BuildNPMInstallTimeout cfg; sc_BuildNPMBuildTimeout cfg; sc_BuildNPMPruneTimeout cfg];
  ok_jailer : sc_FirecrackerJailerUser cfg ≠ "";
}.

Lemma orDefault_nonempty v d : d ≠ "" → orDefault v d ≠ "".
Proof. intros Hd. unfold orDefault. by case_bool_decide. Qed.

Lemma orText_nonblank v d : blank d = false → blank (orText v d) = false.
Proof. intros Hd. unfold orText. by destruct (blank v) eqn:?. Qed.

Ltac bound H :=
  repeat match type of H with
  | (_ ≫= _) = Ok _ => let x := fresh "x" in let Hx := fresh "Hx" in apply result_bind_ok in H as (x & Hx & H)
  end.

Lemma prepareConfig_ok env cfg cfg' : prepareConfig env cfg = Ok cfg' → config_ok cfg'.
Proof.
  intros H. unfold prepareConfig in H. cbv zeta in H. bound H. injection H as <-.
  assert (Hs : (0 < orPositive x1 4)%Z) by by apply orPositive_pos.
  match goal with H : NormalizeExecutionRegions _ = Ok ?l |- _ => apply NormalizeExecutionRegions_ok in H end.
  split; cbn [sc_APIAddr sc_CoordinatorBasePort sc_ExecutionRegions sc_SecretsProxyToken sc_BootstrapAdminAPIKey sc_ExecutionDriver
    sc_ExecutionHostFullNetworkSlots sc_ExecutionHostSlots sc_BuildWorkersPerRegion sc_BuildGitCloneTimeout sc_BuildNPMInstallTimeout
    sc_BuildNPMBuildTimeout sc_BuildNPMPruneTimeout sc_FirecrackerJailerUser].
  - by apply orDefault_nonempty.
  - by destruct (x =? 0)%Z eqn:?; [|lia].
  - done.
  - by apply orText_nonblank.
  - by apply orText_nonblank.
  - by apply orText_nonblank.
  - by apply fullNetworkSlots_bounds.
  - by apply orPositive_pos.
  - repeat constructor; by apply orPositive_pos.
  - by apply orDefault_nonempty.
Qed.

Lemma bind_step {A B} (m : result A) (f : A → result B) a : m = Ok a → (m ≫= f) = f a.
Proof. by intros ->. Qed.

Lemma envInt_port env load name v x d :
  d ≠ 0%Z → envInt env load name v = Ok x →
  envInt env load name (if (x =? 0)%Z then d else x) = Ok (if (x =? 0)%Z then d else x).
Proof. intros Hd H. destruct (x =? 0)%Z eqn:E; [by apply envInt_set|by eapply envInt_idem]. Qed.

Lemma port_idem (x d : Z) :
  d ≠ 0%Z → (if ((if (x =? 0)%Z then d else x) =? 0)%Z then d else if (x =? 0)%Z then d else x) = (if (x =? 0)%Z then d else x).
Proof. intros Hd. destruct (x =? 0)%Z eqn:E; [|by rewrite E]. by apply Z.eqb_neq in Hd as ->. Qed.

(** The readings of a completed configuration. *)
Ltac reread :=
  first
    [ eapply envInt_idem; eassumption | eapply envInt_port; [lia|eassumption] | eapply bucketsOf_idem; eassumption
    | eapply envBool_self; eassumption | eapply envBool_fixed; eassumption | by apply NormalizeExecutionRegions_idem
    | apply envInt_set, not_eq_sym, Z.lt_neq, orPositive_pos; done | apply envSeconds_set, not_eq_sym, Z.lt_neq, orPositive_pos; done
    | apply envInt_set; lia ].

Lemma prepareConfig_idem env cfg cfg' : prepareConfig env cfg = Ok cfg' → prepareConfig env cfg' = Ok cfg'.
Proof.
  intros H. pose proof (prepareConfig_ok _ _ _ H) as Hok. unfold prepareConfig in H. cbv zeta in H. bound H. injection H as <-.
  destruct Hok as [_ _ (Hr1 & Hr2 & Hr3) _ _ _ Hs _ _ _]. cbn in Hr1, Hr2, Hr3, Hs.
  unfold prepareConfig. cbv zeta. cbn. do 18 (erewrite bind_step; [|reread]; cbv beta).
  rewrite !envText_default, !envText_orText, !envText_idem, !port_idem, !orPositive_idem, fullNetworkSlots_idem by (done || lia).
  reflexivity.
Qed.

(** Without [LoadEnv] the environment has no influence. *)
Lemma prepareConfig_without env env' cfg : sc_LoadEnv cfg = false → prepareConfig env cfg = prepareConfig env' cfg.
Proof. intros H. unfold prepareConfig. rewrite H. reflexivity. Qed.

Lemma append_inj (pre s t : string) : pre +:+ s = pre +:+ t → s = t.
Proof. apply (inj (String.append pre)). Qed.

Lemma JoinHostPort_inj host port port' : JoinHostPort host port = JoinHostPort host port' → port = port'.
Proof. unfold JoinHostPort. intros H. destruct (hasByte _ host); repeat apply append_inj in H; exact H. Qed.

(** Ports of different regions differ, also when they wrap. *)
Lemma int64_offset (p : Z) (i j : nat) : i < 3 → j < 3 → int64_of (p + Z.of_nat i) = int64_of (p + Z.of_nat j) → i = j.
Proof.
  intros Hi Hj H. unfold int64_of, wrap_signed in H.
  change (2 ^ 64)%Z with 18446744073709551616%Z in H. change (2 ^ (64 - 1))%Z with 9223372036854775808%Z in H.
  Z.to_euclidean_division_equations. lia.
Qed.

Lemma config_regions cfg : config_ok cfg → length (sc_ExecutionRegions cfg) ≤ 3.
Proof.
  intros Hok. destruct (ok_regions _ Hok) as (Hn & _ & Hf). apply (submseteq_length _ DefaultExecutionRegions).
  apply NoDup_submseteq; [done|]. by apply Forall_forall.
Qed.

(** C27: completing the settings.  A configuration that is accepted names an API
    address, a port, known and distinct regions, credentials and a driver; its
    slots, workers and time limits are positive and the full-network slots fit
    the slots.  Completing it again changes nothing; without [LoadEnv] the
    environment has no influence; the coordinators of its regions listen on
    different addresses; and a node agent starts with exactly its slots. *)
Theorem prepared_config (env : string → string) (cfg cfg' : StackConfig) (H : prepareConfig env cfg = Ok cfg') :
  config_ok cfg' ∧
  prepareConfig env cfg' = Ok cfg' ∧
  (sc_LoadEnv cfg = false → ∀ env', prepareConfig env' cfg = Ok cfg') ∧
  (∀ i j host, i < length (sc_ExecutionRegions cfg') → j < length (sc_ExecutionRegions cfg') →
    coordinatorListenAddr cfg' i host = coordinatorListenAddr cfg' j host → i = j) ∧
  (∀ numCPU, NodeAgent.withDefaults numCPU (sc_ExecutionHostSlots cfg') (sc_ExecutionHostFullNetworkSlots cfg') =
    (sc_ExecutionHostSlots cfg', sc_ExecutionHostFullNetworkSlots cfg')).
Proof.
  pose proof (prepareConfig_ok _ _ _ H) as Hok. pose proof (config_regions _ Hok) as Hl. split_and!.
  - done.
  - by eapply prepareConfig_idem.
  - intros Hload env'. by rewrite (prepareConfig_without env' env).
  - intros i j host Hi Hj E. unfold coordinatorListenAddr in E. apply JoinHostPort_inj in E.
    apply (inj pretty) in E. eapply int64_offset; [lia|lia|done].
  - intros numCPU. destruct (ok_slots _ Hok) as [Hf1 Hf2]. unfold NodeAgent.withDefaults.
    repeat case_match; repeat match goal with Hb : _ = true |- _ => apply Z.leb_le in Hb || apply Z.ltb_lt in Hb end; try lia; done.
Qed.

(** An empty configuration of the control plane in an environment that sets one
    variable. *)
Definition demo_env (name : string) : string :=
  if bool_decide (name = "LECREV_EXECUTION_HOST_SLOTS") then " 2 " else "".
Definition demo_config : StackConfig :=
  mkStackConfig true "" [] 0 "" "" "" "" "" "" "" "" ∅ "" "" "" "" "" "" "" "" "" "" false "" "" "" "" "" "" "" 0 0 0 0 0 0 0
    "" "" false "" "" "" "" "" "" "" "" "" "" "" "" 5 "" 0 0 0 0 0 "".

Lemma prepared_config_witness :
  ∃ cfg', prepareConfig demo_env demo_config = Ok cfg' ∧ config_ok cfg' ∧ sc_ExecutionHostFullNetworkSlots cfg' = 2%Z.
Proof.
  destruct (prepareConfig demo_env demo_config) as [cfg'|e] eqn:E; [|vm_compute in E; discriminate E].
  exists cfg'. split; [reflexivity|]. split; [exact (proj1 (prepared_config _ _ _ E))|].
  vm_compute in E. injection E as <-. reflexivity.
Defined.
