(* ===== verification/SecretsWire.v ===== *)
(** * SecretsWire: the secrets client and the cache of a secrets service

    Models the client of [internal/secrets/proxy.go], the in-process transport of
    [internal/transport/inprocess.go] that connects it to the handler, and
    [internal/secrets/awssecrets.go], a provider with a cache.  The encoding of
    requests and secrets is a parameter ([SecretsJson]).

    Theorems: through the proxy an agent gets exactly what the resolver answers;
    a cached secret is never older than its time to live. *)

From Stdlib Require Import Ascii.
From stdpp Require Import base decidable tactics numbers list gmap strings pretty.
From S2P Require Import Prelude Domain MemStore World SchedulerFacts Secrets Http.

(** ** HTTP calls *)

Record HttpCall := mkHttpCall {
  hc_Method : string;
  hc_URL : string;
  hc_ContentType : string;
  hc_Authorization : string;
  hc_Body : string;
}.

(** A body: what can be read of it, and the error that ends the reading, if any. *)
Abbreviation HttpBody := (string * option GoError)%type.

Record HttpAnswer := mkHttpAnswer { ha_Status : Z; ha_Body : HttpBody }.

(** [io.ReadAll] *)
Definition readAll (body : HttpBody) : result string := match body.2 with None => Ok body.1 | Some e => Err e end.

Definition ProxyPath : string := "/v1/internal/secrets/resolve".

(** JSON of requests and replies; a reply without secrets decodes to [None].
    [sj_NewRequest] is whether [http.NewRequestWithContext] accepts a URL. *)
Class SecretsJson := {
  sj_MarshalRequest : ExecutionRequest → result string;
  sj_DecodeRequest : string → result ExecutionRequest;
  sj_EncodeSecrets : gmap string string → string;
  sj_UnmarshalSecrets : string → result (option (gmap string string));
  sj_NewRequest : string → result unit;
}.

(** ** The client *)

Record ProxyClient := mkProxyClient { pc_baseURL : string; pc_token : string }.

Definition NewProxyClient (baseURL token : string) : ProxyClient :=
  mkProxyClient (trimSlashes (TrimSpace baseURL)) (TrimSpace token).

Section Client.
Context `{!SecretsJson}.

(** The end of the client: the answer is read. *)
Definition readSecrets (resp : HttpAnswer) : result (gmap string string) :=
  body ← readAll (ha_Body resp);
  if negb (ha_Status resp =? 200)%Z then
    Err (plainErr ("secrets proxy returned status " +:+ itoa (ha_Status resp) +:+ ": " +:+ TrimSpace body))
  else
    result ← sj_UnmarshalSecrets body;
    mret (default ∅ result).

Definition proxyCall (c : ProxyClient) (payload : string) : HttpCall :=
  mkHttpCall "POST" (pc_baseURL c +:+ ProxyPath) "application/json"
    (if bool_decide (pc_token c = "") then "" else "Bearer " +:+ pc_token c) payload.

(** [do] is [client.Do]. *)
Definition ClientResolve {S} (do : HttpCall → M S HttpAnswer) (c : ProxyClient) (req : ExecutionRequest) :
    M S (gmap string string) :=
  payload ← lift (sj_MarshalRequest req);
  lift (sj_NewRequest (pc_baseURL c +:+ ProxyPath)) ≫= λ _,
  resp ← do (proxyCall c payload);
  lift (readSecrets resp).

(** What the handler writes. *)
Definition proxyAnswer (response : ProxyResponse) : HttpAnswer :=
  match response with
  | ProxySecrets secrets => mkHttpAnswer 200 (sj_EncodeSecrets secrets, None)
  | ProxyStatus code text => mkHttpAnswer code (text +:+ String (ascii_of_N 10) "", None)
  end.

(** [NewHandlerClient] on the handler of the proxy: the call is served by the
    handler itself. *)
Definition handlerClient `{!GoEnv, !SecretProvider} (token : string) (call : HttpCall) : WM HttpAnswer :=
  response ← ServeHTTP (TrimSpace token) (hc_Method call) (hc_Authorization call) (sj_DecodeRequest (hc_Body call));
  mret (proxyAnswer response).

End Client.

(** ** The cached provider *)

Record cachedSecret := mkCachedSecret { cs_value : string; cs_expiresAt : Time }.

Abbreviation SecretCache := (gmap string cachedSecret).

Record AWSConfig := mkAWSConfig { aws_Region : string; aws_AccessKey : string; aws_SecretKey : string; aws_TTL : Duration }.

(** The defaults of [NewAWSSecretsManagerProvider], and whether static credentials
    are used. *)
Definition awsSettings (cfg : AWSConfig) : AWSConfig * bool :=
  (mkAWSConfig (if blank (aws_Region cfg) then "ap-south-1" else aws_Region cfg) (aws_AccessKey cfg) (aws_SecretKey cfg)
     (if (aws_TTL cfg <=? 0)%Z then (60 * Second)%Z else aws_TTL cfg),
   negb (bool_decide (aws_AccessKey cfg = "")) || negb (bool_decide (aws_SecretKey cfg = ""))).

Section Cache.
(** What the service answers at a time: an error, a secret without text, or its
    text. *)
Context (GetSecretValue : Time → string → result (option string)) (ttl : Duration).

(** Asking the service at the time [t], in a call that started at [now]. *)
Definition askService (now t : Time) (ref : string) : M SecretCache string :=
  resp ← lift (GetSecretValue t ref);
  match resp with
  | None => fail (plainErr ("secret ref " +:+ quote ref +:+ " has no string payload"))
  | Some value => modify (λ cache, <[ref := mkCachedSecret value (now + ttl)]> cache) ≫= λ _, mret value
  end.

Definition resolveOne (now t : Time) (ref : string) : M SecretCache string :=
  cached ← gets (λ cache, cache !! ref);
  match cached with
  | Some c => if (now <? cs_expiresAt c)%Z then mret (cs_value c) else askService now t ref
  | None => askService now t ref
  end.

(** The loop of [Resolve]; with each reference the time the service is asked, if
    it is. *)
Fixpoint resolveRefs (now : Time) (out : gmap string string) (refs : list (string * Time)) : M SecretCache (gmap string string) :=
  match refs with
  | [] => mret out
  | (ref, t) :: rest =>
      value ← resolveOne now t ref;
      resolveRefs now (<[ref := value]> out) rest
  end.

Definition AWSResolve (now : Time) (refs : list (string * Time)) : M SecretCache (gmap string string) := resolveRefs now ∅ refs.

(** A cached value was the service's answer at a time that is not older than the
    entry allows. *)
Definition cache_ok (cache : SecretCache) : Prop :=
  ∀ ref c, cache !! ref = Some c → ∃ t, (cs_expiresAt c ≤ t + ttl)%Z ∧ GetSecretValue t ref = Ok (Some (cs_value c)).

(** A value that the service gave less than the time to live ago. *)
Definition fresh_value (now : Time) (ref value : string) : Prop :=
  ∃ t, (now < t + ttl)%Z ∧ GetSecretValue t ref = Ok (Some value).

Lemma keeps_askService now t ref :
  (0 < ttl)%Z → (now ≤ t)%Z → keeps cache_ok (fresh_value now ref) (askService now t ref).
Proof.
  intros Httl Ht. unfold askService. apply (keeps_bind _ _ _ (λ resp, GetSecretValue t ref = Ok resp)); [by apply keeps_lift|].
  intros [value|] E; [|by apply keeps_fail]. apply (keeps_bind _ _ _ (λ _, True)).
  - apply keeps_modify; [done|]. intros cache Hc ref' c [[<- <-]|[_ Hl]]%lookup_insert_Some; [|by apply Hc].
    exists t. split; [cbn; lia|done].
  - intros _ _. apply keeps_ret. exists t. split; [lia|done].
Qed.

Lemma keeps_resolveOne now t ref :
  (0 < ttl)%Z → (now ≤ t)%Z → keeps cache_ok (fresh_value now ref) (resolveOne now t ref).
Proof.
  intros Httl Ht. unfold resolveOne.
  apply (keeps_bind _ _ _ (λ cached, ∀ c, cached = Some c → ∃ t, (cs_expiresAt c ≤ t + ttl)%Z ∧ GetSecretValue t ref = Ok (Some (cs_value c)))).
  - apply keeps_gets. intros cache Hc. by apply Hc.
  - intros [c|] Hc; [|by apply keeps_askService]. destruct (now <? cs_expiresAt c)%Z eqn:E; [|by apply keeps_askService].
    apply keeps_ret. destruct (Hc c eq_refl) as (t0 & Hle & Hs). exists t0. split; [lia|done].
Qed.

Lemma keeps_resolveRefs now out refs :
  (0 < ttl)%Z → Forall (λ r, now ≤ r.2)%Z refs →
  (∀ ref value, out !! ref = Some value → fresh_value now ref value) →
  keeps cache_ok (λ out', (∀ ref value, out' !! ref = Some value → fresh_value now ref value) ∧
    dom out' = dom out ∪ list_to_set refs.*1) (resolveRefs now out refs).
Proof.
  intros Httl Hrefs. revert out. induction Hrefs as [|[ref t] rest Ht Hrest IH]; intros out Hout; cbn [resolveRefs].
  - apply keeps_ret. split; [done|set_solver].
  - eapply keeps_bind; [by apply keeps_resolveOne|]. intros value Hv. eapply keeps_mono; [apply IH|].
    + intros ref' v' [[<- <-]|[_ Hl]]%lookup_insert_Some; [done|by apply Hout].
    + cbn. intros out' [H1 H2]. split; [done|]. rewrite H2. set_solver.
Qed.

Lemma keeps_AWSResolve now refs :
  (0 < ttl)%Z → Forall (λ r, now ≤ r.2)%Z refs →
  keeps cache_ok (λ out, (∀ ref value, out !! ref = Some value → fresh_value now ref value) ∧ dom out = list_to_set refs.*1)
    (AWSResolve now refs).
Proof.
  intros Httl Hr. eapply keeps_mono; [by apply (keeps_resolveRefs now ∅ refs Httl Hr)|]. cbn. intros out [H1 H2].
  split; [done|]. rewrite H2, dom_empty_L. set_solver.
Qed.

End Cache.

(** ** Through the proxy *)

Lemma authorized_other token other :
  TrimSpace (TrimSpace token) ≠ "" →
  authorizedProxyToken (if bool_decide (TrimSpace other = "") then "" else "Bearer " +:+ TrimSpace other) (TrimSpace token) =
  bool_decide (TrimSpace (TrimSpace other) = TrimSpace (TrimSpace token)).
Proof.
  intros Ht. unfold authorizedProxyToken. cbv zeta. rewrite (bool_decide_eq_false_2 (TrimSpace (TrimSpace token) = "")) by done.
  case_bool_decide as Ho.
  - rewrite Ho. cbn. symmetry. apply bool_decide_eq_false_2. intros E. by rewrite <- E in Ht.
  - rewrite HasPrefix_app. cbn [negb]. reflexivity.
Qed.

Section Through.
Context `{!GoEnv, !SecretProvider, !SecretsJson}.

(** A call of the client with the token [other] at a handler with [token]. *)
Lemma run_client url token other req payload (w : World) :
  TrimSpace (TrimSpace token) ≠ "" → sj_NewRequest (pc_baseURL (NewProxyClient url other) +:+ ProxyPath) = Ok tt →
  sj_MarshalRequest req = Ok payload → sj_DecodeRequest payload = Ok req →
  ClientResolve (handlerClient token) (NewProxyClient url other) req w =
  if bool_decide (TrimSpace (TrimSpace other) = TrimSpace (TrimSpace token)) then
    match ResolveExecution req w with
    | (Ok out, w') => (readSecrets (proxyAnswer (ProxySecrets out)), w')
    | (Err e, w') =>
        (readSecrets (proxyAnswer (ProxyStatus (if errors_Is e ErrAccessDenied then 403
           else if errors_Is e ErrNotFound then 404 else 400) (Error e))), w')
    end
  else (readSecrets (proxyAnswer (ProxyStatus 401 "unauthorized")), w).
Proof.
  intros Ht Hurl Henc Hdec. unfold ClientResolve. rewrite M_bind_eq. unfold lift at 1. rewrite Henc.
  rewrite M_bind_eq. unfold lift at 1. rewrite Hurl. rewrite M_bind_eq. unfold handlerClient. rewrite M_bind_eq. unfold proxyCall, ServeHTTP.
  cbn [hc_Method hc_Authorization hc_Body NewProxyClient pc_token]. rewrite (bool_decide_eq_true_2 ("POST" = "POST")) by done.
  cbn [negb]. rewrite authorized_other by done. case_bool_decide as E; cbn [negb]; [|done].
  rewrite Hdec, M_bind_eq. unfold try. by destruct (ResolveExecution req w) as [[out|e] w'].
Qed.

End Through.

(** C37: the proxy is transparent.  A client and a handler with the same token,
    connected by the in-process transport: a request to a well-formed URL that the
    client can encode
    has the same effect and the same secrets as a call of the resolver, provided
    the encoding keeps the request and the secrets; an error of the resolver
    becomes an error with a status of 400, 403 or 404.  With another token the
    client gets an error and the resolver is not asked. *)
Theorem proxy_transparent (E : GoEnv) (P : SecretProvider) (J : SecretsJson) (url token : string) (req : ExecutionRequest)
    (payload : string) (w : World)
    (Htoken : TrimSpace (TrimSpace token) ≠ "")
    (Hurl : sj_NewRequest (trimSlashes (TrimSpace url) +:+ ProxyPath) = Ok tt)
    (Henc : sj_MarshalRequest req = Ok payload) (Hdec : sj_DecodeRequest payload = Ok req)
    (Hkept : ∀ out, (ResolveExecution req w).1 = Ok out → sj_UnmarshalSecrets (sj_EncodeSecrets out) = Ok (Some out)) :
  let answer := ClientResolve (handlerClient token) (NewProxyClient url token) req w in
  answer.2 = (ResolveExecution req w).2 ∧
  match (ResolveExecution req w).1 with
  | Ok out => answer.1 = Ok out
  | Err e => ∃ status, status ∈ [400; 403; 404]%Z ∧
      answer.1 = Err (plainErr ("secrets proxy returned status " +:+ itoa status +:+ ": " +:+
        TrimSpace (Error e +:+ String (ascii_of_N 10) "")))
  end ∧
  ∀ other, TrimSpace (TrimSpace other) ≠ TrimSpace (TrimSpace token) →
    ∃ e, ClientResolve (handlerClient token) (NewProxyClient url other) req w = (Err e, w).
Proof.
  cbv zeta. rewrite (run_client _ _ _ _ payload), bool_decide_eq_true_2 by done. split_and!.
  - by destruct (ResolveExecution req w) as [[out|e] w'].
  - destruct (ResolveExecution req w) as [[out|e] w'] eqn:Er; cbn [fst snd] in *.
    + unfold readSecrets. cbn. by rewrite (Hkept out eq_refl).
    + eexists (if errors_Is e ErrAccessDenied then 403 else if errors_Is e ErrNotFound then 404 else 400)%Z.
      split; [repeat case_match; set_solver|]. unfold readSecrets. cbn. by repeat case_match.
  - intros other Hne. rewrite (run_client _ _ _ _ payload), bool_decide_eq_false_2 by done. by eexists.
Qed.

Definition wire_request : ExecutionRequest := mkExecutionRequest "h1" "eu" "v1" [" DB_URL "].

(** An encoding of one request and of single secrets. *)
#[local] Instance wire_json : SecretsJson := {|
  sj_MarshalRequest r := Ok (er_HostID r);
  sj_DecodeRequest s := Ok (mkExecutionRequest s "eu" "v1" [" DB_URL "]);
  sj_EncodeSecrets m := default "" (m !! "DB_URL");
  sj_UnmarshalSecrets s := Ok (if bool_decide (s = "") then None else Some {["DB_URL" := s]});
  sj_NewRequest _ := Ok tt;
|}.

Lemma proxy_transparent_witness :
  (@ClientResolve wire_json _ (@handlerClient wire_json demo_env (MemoryProvider {["DB_URL" := "x"; "OTHER" := "y"]}) "token")
     (NewProxyClient "http://embedded.lecrev/" " token ") wire_request secret_world).1 = Ok {["DB_URL" := "x"]}.
Proof.
  assert (Hr : (@ResolveExecution demo_env (MemoryProvider {["DB_URL" := "x"; "OTHER" := "y"]}) wire_request secret_world).1 =
    Ok {["DB_URL" := "x"]}) by (vm_compute; reflexivity).
  destruct (proxy_transparent demo_env (MemoryProvider {["DB_URL" := "x"; "OTHER" := "y"]}) wire_json "http://embedded.lecrev/" "token"
    wire_request "h1" secret_world) as (_ & Hok & _).
  - apply (bool_decide_eq_true_1 _). vm_compute. reflexivity.
  - reflexivity.
  - reflexivity.
  - reflexivity.
  - intros out Hout. rewrite Hr in Hout. injection Hout as <-. vm_compute. reflexivity.
  - rewrite Hr in Hok. exact Hok.
Defined.

(** ** A cached secret *)

(** A call of the provider at some time; the service is asked after it has
    started. *)
Inductive aws_step (GetSecretValue : Time → string → result (option string)) (ttl : Duration) : SecretCache → SecretCache → Prop :=
| aws_call cache now refs :
    Forall (λ r, now ≤ r.2)%Z refs →
    aws_step GetSecretValue ttl cache (AWSResolve GetSecretValue ttl now refs cache).2.

(** C11: bounded staleness, for a positive time to live: whatever calls came
    before, one after the other, a call returns a value for
    exactly the references it was given, and each of them is what the service
    answered for that reference less than the time to live before the call, or
    during it. *)
Theorem secrets_cache_fresh (GetSecretValue : Time → string → result (option string)) (ttl : Duration) (cache cache' : SecretCache)
    (now : Time) (refs : list (string * Time)) (out : gmap string string)
    (Httl : (0 < ttl)%Z) (Hreach : rtc (aws_step GetSecretValue ttl) ∅ cache) (Hrefs : Forall (λ r, now ≤ r.2)%Z refs)
    (Hrun : AWSResolve GetSecretValue ttl now refs cache = (Ok out, cache')) :
  dom out = list_to_set refs.*1 ∧
  ∀ ref value, out !! ref = Some value → ∃ t, (now < t + ttl)%Z ∧ GetSecretValue t ref = Ok (Some value).
Proof.
  assert (Hok : cache_ok GetSecretValue ttl cache).
  { assert (Hi : cache_ok GetSecretValue ttl ∅) by (intros ref c E; by rewrite lookup_empty in E). revert Hi.
    induction Hreach as [|c1 c2 c3 [c now0 refs0 Hr] _ IH]; [done|]. intros Hi. apply IH; [done|].
    by apply (keeps_AWSResolve GetSecretValue ttl now0 refs0 Httl Hr). }
  destruct (keeps_AWSResolve GetSecretValue ttl now refs Httl Hrefs cache Hok) as [_ Hout].
  destruct (Hout out) as [H1 H2]; [by rewrite Hrun|done].
Qed.

(** A secret that changes at time 10; the entry of time 5 is used at time 30. *)
Definition demo_service (t : Time) (ref : string) : result (option string) := Ok (Some (if (t <? 10)%Z then "old" else "new")).

Lemma secrets_cache_fresh_witness :
  dom ({["db" := "old"]} : gmap string string) = list_to_set [("db", 31)%Z].*1 ∧
  ∃ t, (30 < t + 60)%Z ∧ demo_service t "db" = Ok (Some "old").
Proof.
  assert (Hr : rtc (aws_step demo_service 60) ∅ (AWSResolve demo_service 60 5 [("db", 6)%Z] ∅).2).
  { apply rtc_once, aws_call. repeat constructor. vm_compute. discriminate. }
  destruct (secrets_cache_fresh demo_service 60 _ (AWSResolve demo_service 60 5 [("db", 6)%Z] ∅).2 30 [("db", 31)%Z]
    {["db" := "old"]} eq_refl Hr) as [Hd Hv].
  - repeat constructor. vm_compute. discriminate.
  - vm_compute. reflexivity.
  - split; [exact Hd|]. exact (Hv "db" "old" eq_refl).
Defined.
