(* ===== verification/Warmer.v ===== *)
(** * Warmer: preparing a version through the HTTP interface

    Models [internal/build/http_warmer.go]: a build worker asks the control plane
    to prepare a version and polls its warm status.  The transport and the JSON
    decoder are parameters; waiting is a list of what happens in each turn.

    Theorem: when the preparation succeeds, and with which error it fails. *)

From Stdlib Require Import Ascii.
From stdpp Require Import base decidable tactics numbers list gmap strings pretty.
From S2P Require Import Prelude Domain MemStore World SchedulerFacts Secrets Http HttpApi SecretsWire StackConfig.

Record HTTPWarmPreparer := mkWarmPreparer {
  wp_baseURL : string;
  wp_apiKey : string;
  wp_pollInterval : Duration;
  wp_pollTimeout : Duration;
}.

(** [None] is a nil preparer. *)
Definition NewHTTPWarmPreparer (baseURL apiKey : string) : option HTTPWarmPreparer :=
  let baseURL := trimSlashes (TrimSpace baseURL) in
  let apiKey := TrimSpace apiKey in
  if bool_decide (baseURL = "") || bool_decide (apiKey = "") then None
  else Some (mkWarmPreparer baseURL apiKey (250 * Millisecond) (8 * Second)).

Record warmRegionStatusItem := mkWarmRegion {
  wi_Region : string;
  wi_State : string;
  wi_FunctionWarm : Z;
  wi_Ready : bool;
}.

Record warmStatusResponse := mkWarmStatus {
  ws_FunctionVersionID : string;
  ws_Ready : bool;
  ws_Regions : list warmRegionStatusItem;
}.

(** A refused request; a body that cannot be read counts as far as it was. *)
Definition statusErr (what : string) (status : Z) (body : string) : GoError :=
  plainErr (if bool_decide (body = "") then what +:+ " returned status " +:+ itoa status
            else what +:+ " returned status " +:+ itoa status +:+ ": " +:+ TrimSpace body).

Section Warm.
(** [json.NewDecoder(resp.Body).Decode] *)
Context (DecodeStatus : HttpBody → result warmStatusResponse).

(** The first 4096 bytes of the body. *)
Definition limitedBody (body : HttpBody) : string := String.substring 0 4096 body.1.

(** [resp]: what building the request and [client.Do] return. *)
Definition fetchWarmStatus (resp : result HttpAnswer) : result warmStatusResponse :=
  resp ← resp;
  if negb (ha_Status resp =? 200)%Z then Err (statusErr "warm status" (ha_Status resp) (limitedBody (ha_Body resp)))
  else match DecodeStatus (ha_Body resp) with
       | Err e => Err (wrapText "decode warm status: " e "")
       | Ok status => Ok status
       end.

Definition regionText (r : warmRegionStatusItem) : string :=
  wi_Region r +:+ "=" +:+ wi_State r +:+ "(functionWarm=" +:+ itoa (wi_FunctionWarm r) +:+ ")".

Definition warmWaitTimeoutError (status : warmStatusResponse) : GoError :=
  match ws_Regions status with
  | [] => plainErr "warm preparation did not become ready before timeout"
  | regions => plainErr ("warm preparation did not become ready before timeout (" +:+ Join (regionText <$> regions) ", " +:+ ")")
  end.

Definition activeRegions (status : warmStatusResponse) : nat :=
  length (filter (λ r, wi_State r = "active") (ws_Regions status)).

(** The loop of [waitForWarmReady].  Each turn: the answer to the poll, and
    whether the context was done before the timer fired; [None] while it waits. *)
Fixpoint waitForWarmReady (turns : list (result HttpAnswer * bool)) : option (result unit) :=
  match turns with
  | [] => None
  | (resp, ended) :: rest =>
      match fetchWarmStatus resp with
      | Err e => Some (Err e)
      | Ok status =>
          if ws_Ready status then Some (Ok tt)
          else if bool_decide (activeRegions status = 0) then
            Some (Err (plainErr "no active target regions available for warm preparation"))
          else if ended : bool then Some (Err (warmWaitTimeoutError status))
          else waitForWarmReady rest
      end
  end.

(** [prepared]: what building and sending the POST request return. *)
Definition PrepareFunctionVersion (p : option HTTPWarmPreparer) (version : option FunctionVersion)
    (prepared : result HttpAnswer) (turns : list (result HttpAnswer * bool)) : option (result unit) :=
  match p with
  | None => Some (Ok tt)
  | Some _ =>
      match version with
      | None => Some (Err (plainErr "function version is required"))
      | Some version =>
          if blank (fv_ID version) then Some (Err (plainErr "function version is required"))
          else match prepared with
               | Err e => Some (Err e)
               | Ok resp =>
                   if negb (ha_Status resp =? 202)%Z
                   then Some (Err (statusErr "prepare function warm" (ha_Status resp) (limitedBody (ha_Body resp))))
                   else waitForWarmReady turns
               end
      end
  end.

(** ** What the polling does *)

(** A turn after which the loop goes on. *)
Definition pending (turn : result HttpAnswer * bool) : Prop :=
  ∃ status, fetchWarmStatus turn.1 = Ok status ∧ ws_Ready status = false ∧ activeRegions status ≠ 0 ∧ turn.2 = false.

(** A turn in which the version is ready. *)
Definition ready (turn : result HttpAnswer * bool) : Prop :=
  ∃ status, fetchWarmStatus turn.1 = Ok status ∧ ws_Ready status = true.

(** One turn: it goes on, it is ready, or it ends with an error. *)
Lemma wait_turn turn rest :
  (pending turn ∧ ¬ ready turn ∧ waitForWarmReady (turn :: rest) = waitForWarmReady rest) ∨
  (ready turn ∧ waitForWarmReady (turn :: rest) = Some (Ok tt)) ∨
  (¬ pending turn ∧ ¬ ready turn ∧ ∃ e, waitForWarmReady (turn :: rest) = Some (Err e)).
Proof.
  destruct turn as [resp ended]. cbn [waitForWarmReady]. unfold pending, ready. cbn [fst snd].
  destruct (fetchWarmStatus resp) as [status|e]; [|right; right; naive_solver].
  destruct (ws_Ready status) eqn:Er; [right; left; naive_solver|].
  case_bool_decide as Ea; [right; right; naive_solver congruence|].
  destruct ended; [right; right; naive_solver congruence|left; naive_solver congruence].
Qed.

(** The loop has not ended exactly when every turn so far made it go on, and it
    ends without an error exactly at the first turn that finds the version ready. *)
Lemma wait_spec turns :
  (waitForWarmReady turns = None ↔ Forall pending turns) ∧
  (waitForWarmReady turns = Some (Ok tt) ↔
    ∃ before turn after, turns = before ++ turn :: after ∧ Forall pending before ∧ ready turn).
Proof.
  induction turns as [|t rest [IH1 IH2]].
  { split; [done|]. split; [done|]. intros (before & turn & after & E & _). by destruct before. }
  rewrite Forall_cons. destruct (wait_turn t rest) as [(Hp & Hr & ->)|[(Hr & ->)|(Hp & Hr & e & ->)]].
  - split; [tauto|]. rewrite IH2. split.
    + intros (before & turn & after & -> & ? & ?). exists (t :: before), turn, after. auto.
    + intros ([|t' before] & turn & after & [= <- ->] & Hb & ?); [done|]. exists before, turn, after.
      rewrite Forall_cons in Hb. tauto.
  - assert (Hp : ¬ pending t). { intros (s1 & E1 & F1 & _). destruct Hr as (s2 & E2 & F2). congruence. }
    split; [split; [done|tauto]|]. split; [|done]. intros _. exists [], t, rest. auto.
  - split; [split; [done|tauto]|]. split; [done|].
    intros ([|t' before] & turn & after & [= <- ->] & Hb & ?); [done|]. rewrite Forall_cons in Hb. tauto.
Qed.

End Warm.

(** Preparing through the HTTP interface.  The preparer reports success
    exactly when there is none, or the control plane accepted the request and a
    poll found the version ready, after polls that were all answered, none of
    them ready or too late and each with an active region.  It is still waiting
    exactly while all polls were like that, and ends with an error otherwise. *)
Theorem warm_preparation (DecodeStatus : HttpBody → result warmStatusResponse) (p : HTTPWarmPreparer) (version : FunctionVersion)
    (prepared : result HttpAnswer) (turns : list (result HttpAnswer * bool))
    (Hid : blank (fv_ID version) = false) :
  let accepted := ∃ body, prepared = Ok (mkHttpAnswer 202 body) in
  let outcome := PrepareFunctionVersion DecodeStatus (Some p) (Some version) prepared turns in
  (outcome = Some (Ok tt) ↔
    accepted ∧ ∃ before turn after, turns = before ++ turn :: after ∧ Forall (pending DecodeStatus) before ∧ ready DecodeStatus turn) ∧
  (outcome = None ↔ accepted ∧ Forall (pending DecodeStatus) turns).
Proof.
  cbv zeta. unfold PrepareFunctionVersion. rewrite Hid. destruct (wait_spec DecodeStatus turns) as [H1 H2].
  destruct prepared as [[status body]|e]; [|split; split; [done|by intros [[? [=]] _]|done|by intros [[? [=]] _]]].
  cbn [ha_Status]. destruct (status =? 202)%Z eqn:E; cbn [negb].
  - apply Z.eqb_eq in E as ->. rewrite H1, H2. split; (split; [intros H; split; [by eexists|exact H]|by intros [_ H]]).
  - apply Z.eqb_neq in E. split; (split; [done|intros [[b [=]] _]; congruence]).
Qed.

(** An unset base URL does not switch the preparer off: [controlPlaneBaseURL]
    makes a URL of it. *)
Lemma preparer_without_url : is_Some (NewHTTPWarmPreparer (controlPlaneBaseURL "") "dev-root-key").
Proof. vm_compute. by eexists. Qed.

Definition demo_status (body : HttpBody) : result warmStatusResponse :=
  Ok (mkWarmStatus "v1" (bool_decide (body.1 = "ready")) [mkWarmRegion "eu" "active" 0 false]).

Lemma warm_preparation_witness :
  PrepareFunctionVersion demo_status (Some (mkWarmPreparer "http://cp" "key" 1 1)) (Some demo_version) (Ok (mkHttpAnswer 202 ("", None)))
    [(Ok (mkHttpAnswer 200 ("cold", None)), false); (Ok (mkHttpAnswer 200 ("ready", None)), false)] = Some (Ok tt).
Proof.
  apply (warm_preparation demo_status (mkWarmPreparer "http://cp" "key" 1 1) demo_version (Ok (mkHttpAnswer 202 ("", None)))
    [(Ok (mkHttpAnswer 200 ("cold", None)), false); (Ok (mkHttpAnswer 200 ("ready", None)), false)] eq_refl).
  split; [by eexists|].
  exists [(Ok (mkHttpAnswer 200 ("cold", None)), false)], (Ok (mkHttpAnswer 200 ("ready", None)), false), []. split; [reflexivity|]. split.
  - apply Forall_singleton. exists (mkWarmStatus "v1" false [mkWarmRegion "eu" "active" 0 false]).
    split_and!; [reflexivity|reflexivity|vm_compute; discriminate|reflexivity].
  - exists (mkWarmStatus "v1" true [mkWarmRegion "eu" "active" 0 false]). split; reflexivity.
Defined.
