(* ===== verification/Metrics.v ===== *)
(** * Metrics: the gauges of the store

    Models [internal/metrics/prometheus.go]: what [Collect] reports at each
    scrape.  A count that fails is left out.  The text format of Prometheus is
    that library's.

    Theorem: without failures the gauges say how many jobs the store holds in each
    state, and every job is counted in exactly one of them. *)

From Stdlib Require Import Ascii.
From stdpp Require Import base decidable tactics numbers list gmap strings.
From S2P Require Import Prelude Domain MemStore World SchedulerFacts.

(** Gauges with their labels. *)
Inductive Gauge :=
| BuildJobsTotal (state : string)
| ExecutionJobsTotal (state : JobState)
| RegionState (region state : string)
| RegionAvailableHosts (region : string)
| RegionBlankWarm (region : string)
| RegionFunctionWarm (region : string)
| RegionActiveExecutions (region : string).

Definition Sample : Type := Gauge * Z.

Definition buildStates : list string := ["queued"; "running"; "succeeded"; "failed"].
Definition executionStates : list JobState :=
  [JobStateQueued; JobStateScheduling; JobStateAssigned; JobStateRunning; JobStateRetrying; JobStateSucceeded; JobStateFailed].

Section Collect.
Context `{!GoEnv, !MapOrder}.

(** A count that is left out when it fails. *)
Definition sample (g : Gauge) (count : StoreM Z) : WM (list Sample) :=
  counted ← try (call count);
  mret (match counted with Ok n => [(g, n)] | Err _ => [] end).

Fixpoint sampleAll {A} (f : A → WM (list Sample)) (l : list A) : WM (list Sample) :=
  match l with
  | [] => mret []
  | x :: rest => samples ← f x; more ← sampleAll f rest; mret (samples ++ more)
  end.

Definition regionSamples (region : Region) : WM (list Sample) :=
  active ← sample (RegionActiveExecutions (reg_Name region)) (CountActiveExecutionJobsByRegion (reg_Name region));
  mret ([(RegionState (reg_Name region) (reg_State region), 1%Z);
         (RegionAvailableHosts (reg_Name region), reg_AvailableHosts region);
         (RegionBlankWarm (reg_Name region), reg_BlankWarm region);
         (RegionFunctionWarm (reg_Name region), reg_FunctionWarm region)] ++ active).

Definition Collect : WM (list Sample) :=
  builds ← sampleAll (λ state, sample (BuildJobsTotal state) (CountBuildJobsByStates [state])) buildStates;
  executions ← sampleAll (λ state, sample (ExecutionJobsTotal state) (CountExecutionJobsByStates [state])) executionStates;
  listed ← try (call ListRegions);
  match listed with
  | Err _ => mret (builds ++ executions)
  | Ok regions =>
      more ← sampleAll regionSamples regions;
      mret (builds ++ executions ++ more)
  end.

(** ** What is reported *)

Definition countIn (state : JobState) (s : Store) : Z := count_map (in_states [state]) (st_executionJobs s).

Definition regionReport (s : Store) (region : Region) : list Sample :=
  [(RegionState (reg_Name region) (reg_State region), 1%Z);
   (RegionAvailableHosts (reg_Name region), reg_AvailableHosts region);
   (RegionBlankWarm (reg_Name region), reg_BlankWarm region);
   (RegionFunctionWarm (reg_Name region), reg_FunctionWarm region);
   (RegionActiveExecutions (reg_Name region),
      count_map (λ j, bool_decide (job_TargetRegion j = reg_Name region) &&
        negb (in_states [JobStateSucceeded; JobStateFailed] j)) (st_executionJobs s))].

Definition report (s : Store) (regions : list Region) : list Sample :=
  ((λ state, (BuildJobsTotal state, count_map (λ job, bool_decide (bj_State job ∈ [state])) (st_buildJobs s))) <$> buildStates) ++
  ((λ state, (ExecutionJobsTotal state, countIn state s)) <$> executionStates) ++
  (regions ≫= regionReport s).

Context (Hq : quiet _).

Lemma run_sample g count n (w : World) :
  count (w_store w) = (Ok n, w_store w) → ∃ w', sample g count w = (Ok [(g, n)], w') ∧ w_store w' = w_store w.
Proof.
  intros Hc. unfold sample. rewrite M_bind_eq. unfold try. rewrite (run_call Hq _ _ _ _ Hc). by eexists.
Qed.

Lemma run_sampleAll {A} (f : A → WM (list Sample)) (g : A → list Sample) l (w : World) :
  (∀ x w', w_store w' = w_store w → ∃ w'', f x w' = (Ok (g x), w'') ∧ w_store w'' = w_store w) →
  ∃ w', sampleAll f l w = (Ok (l ≫= g), w') ∧ w_store w' = w_store w.
Proof.
  intros Hf. assert (∀ w0, w_store w0 = w_store w → ∃ w', sampleAll f l w0 = (Ok (l ≫= g), w') ∧ w_store w' = w_store w) as Hall; [|by apply Hall].
  induction l as [|x rest IH]; intros w0 E0; [by eexists|]. cbn [sampleAll].
  destruct (Hf x w0 E0) as (w1 & E1 & Es1). rewrite (run_bind _ _ _ _ _ E1).
  destruct (IH w1 Es1) as (w2 & E2 & Es2). rewrite (run_bind _ _ _ _ _ E2). by exists w2.
Qed.

Lemma run_Collect (w : World) :
  ∃ w', Collect w = (Ok (report (w_store w) (map_iter 709 (st_regions (w_store w))).*2), w') ∧ w_store w' = w_store w.
Proof.
  unfold Collect, report.
  destruct (run_sampleAll (λ state, sample (BuildJobsTotal state) (CountBuildJobsByStates [state]))
    (λ state, [(BuildJobsTotal state, count_map (λ job, bool_decide (bj_State job ∈ [state])) (st_buildJobs (w_store w)))])
    buildStates w) as (w1 & E1 & Es1).
  { intros x w0 E0. destruct (run_sample (BuildJobsTotal x) (CountBuildJobsByStates [x]) _ w0 eq_refl) as (w' & -> & Es).
    exists w'. rewrite E0. split; [done|by rewrite Es]. }
  rewrite (run_bind _ _ _ _ _ E1).
  destruct (run_sampleAll (λ state, sample (ExecutionJobsTotal state) (CountExecutionJobsByStates [state]))
    (λ state, [(ExecutionJobsTotal state, countIn state (w_store w))]) executionStates w1) as (w2 & E2 & Es2).
  { intros x w0 E0. destruct (run_sample (ExecutionJobsTotal x) (CountExecutionJobsByStates [x]) _ w0 eq_refl) as (w' & -> & Es).
    exists w'. unfold countIn. rewrite E0, Es1. split; [done|by rewrite Es, E0]. }
  rewrite (run_bind _ _ _ _ _ E2), M_bind_eq. unfold try. rewrite (run_call Hq ListRegions w2 _ _ eq_refl).
  rewrite Es2, Es1. set (w3 := w2 <| w_calls := S (w_calls w2) |> <| w_store := w_store w |>).
  destruct (run_sampleAll regionSamples (regionReport (w_store w)) (map_iter 709 (st_regions (w_store w))).*2 w3) as (w4 & E4 & Es4).
  { intros x w0 E0. unfold regionSamples.
    destruct (run_sample (RegionActiveExecutions (reg_Name x)) (CountActiveExecutionJobsByRegion (reg_Name x)) _ w0 eq_refl) as (w' & E' & Es).
    rewrite (run_bind _ _ _ _ _ E'). rewrite E0. exists w'. split; [done|]. by rewrite Es. }
  rewrite (run_bind _ _ _ _ _ E4). exists w4. split; [done|by rewrite Es4].
Qed.

End Collect.

(** The states partition the jobs. *)
Lemma states_partition (m : gmap string ExecutionJob) :
  foldr Z.add 0%Z ((λ state, count_map (in_states [state]) m) <$> executionStates) = Z.of_nat (size m).
Proof.
  rewrite <- length_map_to_list. unfold count_map. induction (map_to_list m) as [|[k job] l IH]; [done|].
  cbn [executionStates fmap list_fmap foldr length] in *. rewrite !filter_cons. cbn [snd].
  unfold in_states in *.
  destruct (job_State job); repeat match goal with |- context [decide (?b = true)] =>
    first [rewrite (decide_True (P := b = true)) by (vm_compute; reflexivity) | rewrite (decide_False (P := b = true)) by (vm_compute; discriminate)] end;
  cbn [length]; lia.
Qed.

(** The gauges.  When the store answers, a scrape changes nothing and reports,
    in this order, the build jobs and the execution jobs of each state, and for
    every region its state, hosts, warm capacity and unfinished jobs; every
    execution job is counted in exactly one state. *)
Theorem metrics_spec (E : GoEnv) (O : MapOrder) (w : World) (Hq : quiet E) :
  ∃ w' regions, Collect w = (Ok (report (w_store w) regions), w') ∧ w_store w' = w_store w ∧
    regions ≡ₚ (map_to_list (st_regions (w_store w))).*2 ∧
    foldr Z.add 0%Z ((λ state, countIn state (w_store w)) <$> executionStates) = Z.of_nat (size (st_executionJobs (w_store w))).
Proof.
  destruct (run_Collect Hq w) as (w' & Ec & Es). exists w', (map_iter 709 (st_regions (w_store w))).*2.
  split_and!; [done|done| |apply states_partition]. apply fmap_Permutation, map_iter_perm.
Qed.

Lemma metrics_spec_witness :
  ∃ w' regions, @Collect demo_env rev_order demo_world = (Ok (report (w_store demo_world) regions), w').
Proof.
  destruct (metrics_spec demo_env rev_order demo_world demo_quiet) as (w' & regions & E & _). exists w', regions. exact E.
Defined.
