(* ===== verification/Stack.v ===== *)
(** * Stack: starting the services

    Models how [internal/devstack] puts the services together: [devstack.go]
    (stores and buses chosen by the settings, [runNetworked]), [embedded.go]
    ([StartEmbedded]) and [split.go] ([RunControlPlane], [RunBuildWorker],
    [RunNodeAgent], [runRestartingLoop]).  The state records the connections to
    the metadata store and the buses that were opened and closed, whether the context was cancelled, which loops were
    started and the metadata store; what can fail is a parameter.

    Theorems: a failed start closes everything it opened, exactly once; what a
    start runs; the bootstrap key of a started stack is the administrator's; when
    a running stack and a restarted loop end. *)

From Stdlib Require Import Ascii.
From stdpp Require Import base decidable tactics numbers list gmap strings pretty.
From S2P Require Import Prelude Domain MemStore World SchedulerFacts Secrets Build HttpApi HttpFacts MicroVM StackConfig.

(** ** Connections *)

(** The pool of the metadata store, the connections of the buses, and the pool of
    [leadership.Run].  The HTTP server and the listeners of the coordinators, which
    the running stack opens and shuts down, are not tracked. *)
Inductive Handle := PostgresPool | BuildBusConn | ExecutionBusConn | LeaderPool.

#[export] Instance Handle_eq_dec : EqDecision Handle.
Proof. solve_decision. Defined.

Record Setup := mkSetup {
  su_opened : list Handle;
  su_closed : list Handle;
  su_cancelled : bool;
  su_loops : list string;
  su_store : Store;
}.

#[export] Instance Setup_rebuild : Rebuild Setup := λ r, mkSetup (su_opened r) (su_closed r) (su_cancelled r) (su_loops r) (su_store r).

(** Before the start: the metadata as they are. *)
Definition NewSetup (store : Store) : Setup := mkSetup [] [] false [] store.

(** What fails while a stack is started. *)
Record StartFaults := mkStartFaults {
  sf_postgres : option GoError;
  sf_migrations : option GoError;
  sf_bucket : option GoError;
  sf_regionBucket : string → option GoError;
  sf_aws : option GoError;
  sf_buildConn : option GoError;
  sf_buildStream : option GoError;
  sf_executionConn : option GoError;
  sf_executionStream : option GoError;
  sf_devMTLS : option GoError;
  sf_putAPIKey : option GoError;
  sf_register : string → option GoError;
  sf_credentials : FileCredentialsConfig → result unit;
  sf_lookup : string → result (string * string);
  sf_leaderPool : option GoError;
  sf_now : Time;
}.

Abbreviation SM := (M Setup).

Definition orErr (e : option GoError) : SM unit := match e with Some e => fail e | None => mret tt end.
Definition opens (h : Handle) : SM unit := modify (λ s, s <| su_opened := su_opened s ++ [h] |>).
Definition closes (hs : list Handle) : SM unit := modify (λ s, s <| su_closed := su_closed s ++ hs |>).
Definition cancels : SM unit := modify (λ s, s <| su_cancelled := true |>).
Definition starts (name : string) : SM unit := modify (λ s, s <| su_loops := su_loops s ++ [name] |>).

(** [if err != nil { cleanup; return err }] *)
Definition onError {A} (m : SM A) (cleanup : SM unit) : SM A :=
  r ← try m;
  match r with
  | Ok a => mret a
  | Err e => cleanup ≫= λ _, fail e
  end.

(** *** The administrator's key *)

Definition bootstrapKey `{!GoEnv} (now : Time) (cfg : StackConfig) : APIKey :=
  mkAPIKey (apikeyHash (sc_BootstrapAdminAPIKey cfg)) "tenant-dev" "bootstrap admin key" true false now 0.

(** *** The services of a region *)

Record localRegion := mkLocalRegion { lr_name : string; lr_addr : string; lr_host : string }.

(** [fmt.Sprintf("host-%s-a", ...)] *)
Definition regionHost (name : string) : string := "host-" +:+ sanitizeRegionToken name +:+ "-a".

Definition localRegions (cfg : StackConfig) : list localRegion :=
  imap (λ i name, mkLocalRegion name
    ("127.0.0.1:" +:+ itoa (int64_of (sc_CoordinatorBasePort cfg + Z.of_nat i))) (regionHost name)) (sc_ExecutionRegions cfg).

(** *** Waiting for the end *)

(** What a running stack sees: its context ends, with what the shutdown of the
    server then returns, or one of its loops returns. *)
Inductive StackEvent := ContextDone (shutdown : result unit) | LoopReturned (name : string) (r : result unit).

(** What the [run] helpers report of a loop: its error, unless it is one of the
    expected ones. *)
Definition reported (expected : list Sentinel) (name : string) (r : result unit) : option GoError :=
  match r with
  | Ok _ => None
  | Err e => if existsb (errors_Is e) expected then None else Some (wrapText (name +:+ ": ") e "")
  end.

(** The final [select]; [None] while the stack runs. *)
Fixpoint awaitStack (expected : list Sentinel) (events : list StackEvent) : option (result unit) :=
  match events with
  | [] => None
  | ContextDone shutdown :: _ => Some shutdown
  | LoopReturned name r :: rest =>
      match reported expected name r with
      | Some e => Some (Err e)
      | None => awaitStack expected rest
      end
  end.

Section Start.
Context `{!GoEnv} (f : StartFaults).

Definition putBootstrapKey (cfg : StackConfig) : SM unit :=
  orErr (sf_putAPIKey f) ≫= λ _,
  modify (λ s, s <| su_store := (PutAPIKey (bootstrapKey (sf_now f) cfg) (su_store s)).2 |>).

(** Each returns what its cleanup closes. *)
Definition buildMetadataStore (dsn : string) : SM (list Handle) :=
  if blank dsn then mret []
  else
    orErr (sf_postgres f) ≫= λ _,
    opens PostgresPool ≫= λ _,
    onError (orErr (sf_migrations f)) (closes [PostgresPool]) ≫= λ _,
    mret [PostgresPool].

Definition buildExecutionBus (cfg : StackConfig) : SM (list Handle) :=
  if blank (sc_NATSURL cfg) then opens ExecutionBusConn ≫= λ _, mret [ExecutionBusConn]
  else
    orErr (sf_executionConn f) ≫= λ _,
    opens ExecutionBusConn ≫= λ _,
    onError (orErr (sf_executionStream f)) (closes [ExecutionBusConn]) ≫= λ _,
    mret [ExecutionBusConn].

Definition buildBuildBus (cfg : StackConfig) : SM (list Handle) :=
  if blank (sc_NATSURL cfg) then opens BuildBusConn ≫= λ _, mret [BuildBusConn]
  else
    orErr (sf_buildConn f) ≫= λ _,
    opens BuildBusConn ≫= λ _,
    onError (orErr (sf_buildStream f)) (closes [BuildBusConn]) ≫= λ _,
    mret [BuildBusConn].

(** The object stores hold no connection. *)
Definition buildArtifactStore (cfg : StackConfig) : SM unit :=
  if blank (sc_S3Bucket cfg) then mret tt else orErr (sf_bucket f).

Definition buildArtifactReplicator `{!MapOrder} (cfg : StackConfig) : SM unit :=
  for_each (map_iter 669 (sc_S3RegionBuckets cfg)) (λ rb, orErr (sf_regionBucket f rb.1)).

Definition secretsProvider (cfg : StackConfig) : SM unit :=
  backend ← lift (buildSecretsProvider cfg);
  match backend with MemorySecrets _ => mret tt | AWSSecrets _ _ _ _ => orErr (sf_aws f) end.

(** ** [StartEmbedded] *)

Context `{!MapOrder}.

(** The services of one region. *)
Definition embeddedRegion (cleanup : list Handle) (region : string) : SM unit :=
  starts ("build-consumer-" +:+ region) ≫= λ _,
  starts ("queue-consumer-" +:+ region) ≫= λ _,
  onError (orErr (sf_register f region)) (cancels ≫= λ _, closes cleanup) ≫= λ _,
  starts ("embedded-heartbeat-" +:+ region).

(** Returns what [Close] closes. *)
Definition StartEmbedded (env : string → string) (cfg : StackConfig) : SM (list Handle) :=
  cfg ← lift (prepareConfig env cfg);
  meta ← onError (buildMetadataStore (sc_PostgresDSN cfg)) cancels;
  onError (buildArtifactStore cfg) (cancels ≫= λ _, closes meta) ≫= λ _,
  onError (buildArtifactReplicator cfg) (cancels ≫= λ _, closes meta) ≫= λ _,
  onError (secretsProvider cfg) (cancels ≫= λ _, closes meta) ≫= λ _,
  builds ← onError (buildBuildBus cfg) (cancels ≫= λ _, closes meta);
  executions ← onError (buildExecutionBus cfg) (cancels ≫= λ _, closes builds ≫= λ _, closes meta);
  let cleanup := builds ++ executions ++ meta in
  onError (putBootstrapKey cfg) (cancels ≫= λ _, closes cleanup) ≫= λ _,
  starts "global-scheduler" ≫= λ _,
  for_each (sc_ExecutionRegions cfg) (embeddedRegion cleanup) ≫= λ _,
  starts "lease-recovery" ≫= λ _,
  starts "global-scheduler" ≫= λ _,
  mret cleanup.

(** The end of a loop of the embedded stack: an unexpected error is put into
    [errCh], when it has room, and ends the stack's context. *)
Definition errCapacity (regions : list string) : nat := length regions * 2 + 1.

Definition embeddedLoopEnds (capacity : nat) (errs : list GoError) (loop : string * result unit) : SM (list GoError) :=
  match reported [ContextCanceled] loop.1 loop.2 with
  | None => mret errs
  | Some e => cancels ≫= λ _, mret (if bool_decide (length errs < capacity) then errs ++ [e] else errs)
  end.

Fixpoint embeddedLoopsEnd (capacity : nat) (errs : list GoError) (loops : list (string * result unit)) : SM (list GoError) :=
  match loops with
  | [] => mret errs
  | loop :: rest => errs ← embeddedLoopEnds capacity errs loop; embeddedLoopsEnd capacity errs rest
  end.

(** [EmbeddedStack.Close], once. *)
Definition CloseEmbedded (cleanup : list Handle) (done : bool) : SM bool :=
  if done then mret true else cancels ≫= λ _, closes cleanup ≫= λ _, mret true.

(** ** The stacks that run until they end *)

(** [defer]: what was opened is closed when the function returns. *)
Definition deferring {A} (m : SM A) (hs : list Handle) : SM A :=
  r ← try m;
  closes hs ≫= λ _,
  match r with Ok a => mret a | Err e => fail e end.

(** [serve] is the rest of the function, after the setup. *)
Definition withStores {A} (cfg : StackConfig) (replicate : bool) (secrets : bool) (rest : SM A) : SM A :=
  meta ← buildMetadataStore (sc_PostgresDSN cfg);
  deferring
    (buildArtifactStore cfg ≫= λ _,
     (if replicate then buildArtifactReplicator cfg else mret tt) ≫= λ _,
     (if secrets then secretsProvider cfg else mret tt) ≫= λ _,
     rest) meta.

Definition withBuildBus {A} (cfg : StackConfig) (rest : SM A) : SM A :=
  builds ← buildBuildBus cfg; deferring rest builds.

Definition withExecutionBus {A} (cfg : StackConfig) (rest : SM A) : SM A :=
  executions ← buildExecutionBus cfg; deferring rest executions.

Definition networkedLoops (regions : list string) : list string :=
  (regions ≫= λ r, ["build-consumer-" +:+ r; "coordinator-" +:+ r; "queue-consumer-" +:+ r]) ++
  ((λ r, "node-agent-" +:+ r) <$> regions) ++ ["lease-recovery"; "global-scheduler"; "http-api"].

(** The loops of the control plane, and those of the tasks that only the leader of
    the control planes and of the build workers runs ([leadership.Run]). *)
Definition controlPlaneLoops (regions : list string) : list string :=
  ((λ r, "coordinator-" +:+ r) <$> regions) ++ ["control-plane-background"; "http-api"].
Definition leaderLoops (regions : list string) : list string :=
  ((λ r, "queue-consumer-" +:+ r) <$> regions) ++ ["lease-recovery"; "global-scheduler"].
Definition workerLoops (regions : list string) : list string := (λ r, "build-consumer-" +:+ r) <$> regions.

(** The connections of [leadership.Run]: a pool of its own, closed when it returns;
    [body] is its loop with the tasks (modelled in [Leadership]). *)
Definition leading (dsn : string) (body : SM unit) : SM unit :=
  if blank dsn then body
  else
    orErr (sf_leaderPool f) ≫= λ _,
    opens LeaderPool ≫= λ _,
    deferring body [LeaderPool].

(** [waits]: the stack runs until its context is done or a loop fails.  The
    background goroutine of the control plane, a [leading] of its own, is not part
    of it: the control plane returns without waiting for it. *)
Definition runNetworked (waits : SM unit) (cfg : StackConfig) : SM unit :=
  withStores cfg true true (withBuildBus cfg (withExecutionBus cfg
    ((if sc_EnableMTLS cfg then orErr (sf_devMTLS f) else mret tt) ≫= λ _,
     putBootstrapKey cfg ≫= λ _,
     for_each (networkedLoops (sc_ExecutionRegions cfg)) starts ≫= λ _,
     waits))).

Definition RunDevstack (waits : SM unit) (env : string → string) (cfg : StackConfig) : SM unit :=
  cfg ← lift (prepareConfig env (cfg <| sc_LoadEnv := true |>));
  runNetworked waits cfg.

Definition RunControlPlane (waits : SM unit) (env : string → string) (cfg : StackConfig) : SM unit :=
  cfg ← lift (controlPlaneSettings env cfg);
  withStores cfg false true (withBuildBus cfg (withExecutionBus cfg
    (lift (buildControlPlaneGRPCServerOptions (sf_credentials f) cfg) ≫= λ _,
     putBootstrapKey cfg ≫= λ _,
     for_each (controlPlaneLoops (sc_ExecutionRegions cfg)) starts ≫= λ _,
     waits))).

Definition RunBuildWorker (waits : SM unit) (env : string → string) (cfg : StackConfig) : SM unit :=
  cfg ← lift (buildWorkerSettings env cfg);
  withStores cfg true false (withBuildBus cfg (leading (sc_PostgresDSN cfg) waits)).

Definition RunNodeAgent (waits : SM unit) (tempDir : string) (uid gid : Z) (env : string → string) (hostname : result string)
    (cfg : StackConfig) : SM unit :=
  cfg ← lift (nodeAgentSettings env hostname cfg);
  buildArtifactStore cfg ≫= λ _,
  lift (buildExecutionDriver (sf_lookup f) tempDir uid gid cfg) ≫= λ _,
  lift (buildNodeAgentGRPCDialOptions (sf_credentials f) cfg) ≫= λ _,
  waits.

End Start.

(** ** [runRestartingLoop] *)

(** Each turn: the context before the body, what the body returns, and whether the
    context ends during the pause. *)
Record LoopTurn := mkLoopTurn { lt_before : option GoError; lt_body : result unit; lt_pause : option GoError }.

(** The result, and how often the body has run; [None] while the loop goes on. *)
Fixpoint runRestartingLoop (turns : list LoopTurn) (runs : nat) : option (result unit) * nat :=
  match turns with
  | [] => (None, runs)
  | t :: rest =>
      match lt_before t with
      | Some e => (Some (Err e), runs)
      | None =>
          match lt_body t with
          | Ok _ => (Some (Ok tt), S runs)
          | Err e =>
              if errors_Is e ContextCanceled then (Some (Err e), S runs)
              else match lt_pause t with
                   | Some e => (Some (Err e), S runs)
                   | None => runRestartingLoop rest (S runs)
                   end
          end
      end
  end.

(** ** What is opened is closed *)

(** A step that opens what it returns, or closes what it has opened and fails. *)
Definition acquires (m : SM (list Handle)) : Prop :=
  ∀ o c k l t, (∃ hs, m (mkSetup o c k l t) = (Ok hs, mkSetup (o ++ hs) c k l t)) ∨
             (∃ e hs, m (mkSetup o c k l t) = (Err e, mkSetup (o ++ hs) (c ++ hs) k l t)).

(** A step that changes nothing. *)
Definition neutral (m : SM unit) : Prop := ∀ s, m s = (Ok tt, s) ∨ ∃ e, m s = (Err e, s).

Lemma neutral_orErr e : neutral (orErr e).
Proof. intros s. destruct e; [right; by eexists|by left]. Qed.

Lemma neutral_ret : neutral (mret tt).
Proof. intros s. by left. Qed.

Lemma neutral_for_each {A} (l : list A) body : (∀ x, neutral (body x)) → neutral (for_each l body).
Proof.
  intros Hb. induction l as [|x l IH]; intros s; [by left|]. cbn [for_each].
  destruct (Hb x s) as [E|[e E]]; [rewrite (run_bind _ _ _ _ _ E); apply IH|].
  right. exists e. by rewrite (run_bind_err _ _ _ _ _ E).
Qed.

(** Opening one connection with a check of it. *)
Lemma acquires_conn (open check : option GoError) (h : Handle) :
  acquires (orErr open ≫= λ _, opens h ≫= λ _, onError (orErr check) (closes [h]) ≫= λ _, mret [h]).
Proof.
  intros o c k l t. rewrite M_bind_eq. destruct open as [e|]; [right; exists e, []; by rewrite !app_nil_r|].
  cbn. destruct check as [e|]; [right; exists e, [h]; done|left; by exists [h]].
Qed.

Lemma acquires_opens h : acquires (opens h ≫= λ _, mret [h]).
Proof. intros o c k l t. left. by exists [h]. Qed.

Section Facts.
Context `{!GoEnv} (f : StartFaults).

Lemma acquires_meta dsn : acquires (buildMetadataStore f dsn).
Proof.
  unfold buildMetadataStore. destruct (blank dsn); [|apply acquires_conn].
  intros o c k l t. left. exists []. by rewrite app_nil_r.
Qed.

Lemma acquires_executions cfg : acquires (buildExecutionBus f cfg).
Proof. unfold buildExecutionBus. destruct (blank _); [apply acquires_opens|apply acquires_conn]. Qed.

Lemma acquires_builds cfg : acquires (buildBuildBus f cfg).
Proof. unfold buildBuildBus. destruct (blank _); [apply acquires_opens|apply acquires_conn]. Qed.

Lemma neutral_artifacts cfg : neutral (buildArtifactStore f cfg).
Proof. unfold buildArtifactStore. destruct (blank _); [apply neutral_ret|apply neutral_orErr]. Qed.

Lemma neutral_secrets cfg : neutral (secretsProvider f cfg).
Proof.
  intros s. unfold secretsProvider. rewrite M_bind_eq. cbn [lift]. destruct (buildSecretsProvider cfg) as [[]|e]; cbn.
  - by left.
  - apply neutral_orErr.
  - right. by eexists.
Qed.

Context `{!MapOrder}.

Lemma neutral_replicator cfg : neutral (buildArtifactReplicator f cfg).
Proof. apply neutral_for_each. intros x. apply neutral_orErr. Qed.

(** *** Stacks that close what they have deferred *)

Definition balances {A} (m : SM A) : Prop :=
  ∀ s, ∃ hs cs, su_opened (m s).2 = su_opened s ++ hs ∧ su_closed (m s).2 = su_closed s ++ cs ∧ hs ≡ₚ cs.

Lemma bal_same {A} (m : SM A) : (∀ s, su_opened (m s).2 = su_opened s ∧ su_closed (m s).2 = su_closed s) → balances m.
Proof. intros Hm s. destruct (Hm s) as [E1 E2]. exists [], []. by rewrite !app_nil_r. Qed.

Lemma bal_neutral m : neutral m → balances m.
Proof. intros Hm. apply bal_same. intros s. by destruct (Hm s) as [->|[e ->]]. Qed.

Lemma bal_bind {A B} (m : SM A) (g : A → SM B) : balances m → (∀ a, balances (g a)) → balances (m ≫= g).
Proof.
  intros Hm Hg s. rewrite M_bind_eq. destruct (Hm s) as (hs & cs & E1 & E2 & Hp). destruct (m s) as [[a|e] s']; cbn in *; [|by exists hs, cs].
  destruct (Hg a s') as (hs' & cs' & E1' & E2' & Hp'). exists (hs ++ hs'), (cs ++ cs'). rewrite E1', E2', E1, E2, <- !app_assoc.
  split_and!; [done|done|by apply Permutation_app].
Qed.

Lemma bal_lift {A} (r : result A) : balances (lift r).
Proof. apply bal_same. by intros s. Qed.

Lemma bal_for_each {A} (l : list A) body : (∀ x, balances (body x)) → balances (for_each l body).
Proof. intros Hb. induction l as [|x l IH]; [by apply bal_same; intros s|]. cbn [for_each]. by apply bal_bind. Qed.

Lemma bal_starts name : balances (starts name).
Proof. apply bal_same. by intros [o c k l t]. Qed.

Lemma bal_deferring {A} (m : SM (list Handle)) (rest : SM A) :
  acquires m → balances rest → balances (hs ← m; deferring rest hs).
Proof.
  intros Hm Hr [o c k l t]. rewrite M_bind_eq. destruct (Hm o c k l t) as [[hs ->]|(e & hs & ->)]; [|by exists hs, hs].
  unfold deferring. rewrite M_bind_eq. unfold try. destruct (Hr (mkSetup (o ++ hs) c k l t)) as (hs' & cs' & E1 & E2 & Hp).
  destruct (rest _) as [r s']. cbn in E1, E2. rewrite M_bind_eq. cbn [closes modify].
  exists (hs ++ hs'), (cs' ++ hs). destruct r; cbn; rewrite E1, E2, <- !app_assoc; (split_and!; [done|done|]);
    by rewrite (Permutation_app_comm hs), Hp.
Qed.

Lemma bal_leading dsn (body : SM unit) : balances body → balances (leading f dsn body).
Proof.
  intros Hb. unfold leading. destruct (blank dsn); [done|].
  assert (acquires (orErr (sf_leaderPool f) ≫= λ _, opens LeaderPool ≫= λ _, mret [LeaderPool])) as Ha.
  { intros o c k l t. rewrite M_bind_eq. destruct (sf_leaderPool f) as [e|]; [right; exists e, []; by rewrite !app_nil_r|].
    left. by exists [LeaderPool]. }
  intros s. destruct (bal_deferring _ body Ha Hb s) as (hs & cs & Hd). exists hs, cs.
  by destruct (sf_leaderPool f).
Qed.

Lemma bal_stores {A} cfg replicate secrets (rest : SM A) : balances rest → balances (withStores f cfg replicate secrets rest).
Proof.
  intros Hr. apply bal_deferring; [apply acquires_meta|]. apply bal_bind; [apply bal_neutral, neutral_artifacts|]. intros _.
  apply bal_bind; [apply bal_neutral; destruct replicate; [apply neutral_replicator|apply neutral_ret]|]. intros _.
  apply bal_bind; [|done]. apply bal_neutral. destruct secrets; [apply neutral_secrets|apply neutral_ret].
Qed.

Lemma bal_builds {A} cfg (rest : SM A) : balances rest → balances (withBuildBus f cfg rest).
Proof. apply bal_deferring, acquires_builds. Qed.

Lemma bal_executions {A} cfg (rest : SM A) : balances rest → balances (withExecutionBus f cfg rest).
Proof. apply bal_deferring, acquires_executions. Qed.

(** *** The embedded stack *)

(** A cleanup that cancels the context and closes [hs]. *)
Definition gives_up (cleanup : SM unit) (hs : list Handle) : Prop :=
  ∀ o c k l t, cleanup (mkSetup o c k l t) = (Ok tt, mkSetup o (c ++ hs) true l t).

Lemma gives_up_cancels : gives_up cancels [].
Proof. intros o c k l t. by rewrite app_nil_r. Qed.

Lemma gives_up_closes hs : gives_up (cancels ≫= λ _, closes hs) hs.
Proof. by intros o c k l t. Qed.

Lemma gives_up_both hs hs' : gives_up (cancels ≫= λ _, closes hs ≫= λ _, closes hs') (hs ++ hs').
Proof. intros o c k l t. rewrite app_assoc. reflexivity. Qed.

Lemma onError_neutral m cleanup hs o c k l t :
  neutral m → gives_up cleanup hs →
  onError m cleanup (mkSetup o c k l t) = (Ok tt, mkSetup o c k l t) ∨
  ∃ e, onError m cleanup (mkSetup o c k l t) = (Err e, mkSetup o (c ++ hs) true l t).
Proof.
  intros Hm Hc. unfold onError. rewrite M_bind_eq. unfold try. destruct (Hm (mkSetup o c k l t)) as [->|[e ->]]; [by left|].
  right. exists e. by rewrite M_bind_eq, Hc.
Qed.

Lemma onError_acquires m cleanup hs o c k l t :
  acquires m → gives_up cleanup hs →
  (∃ hs', onError m cleanup (mkSetup o c k l t) = (Ok hs', mkSetup (o ++ hs') c k l t)) ∨
  ∃ e hs', onError m cleanup (mkSetup o c k l t) = (Err e, mkSetup (o ++ hs') (c ++ hs' ++ hs) true l t).
Proof.
  intros Hm Hc. unfold onError. rewrite M_bind_eq. unfold try.
  destruct (Hm o c k l t) as [[hs' ->]|(e & hs' & ->)]; [left; by eexists|].
  right. exists e, hs'. by rewrite M_bind_eq, Hc, <- app_assoc.
Qed.

Lemma run_starts name o c k l t : starts name (mkSetup o c k l t) = (Ok tt, mkSetup o c k (l ++ [name]) t).
Proof. reflexivity. Qed.

Definition regionLoops (region : string) : list string :=
  ["build-consumer-" +:+ region; "queue-consumer-" +:+ region; "embedded-heartbeat-" +:+ region].

Lemma run_embeddedRegion cleanup region o c k l t :
  embeddedRegion f cleanup region (mkSetup o c k l t) = (Ok tt, mkSetup o c k (l ++ regionLoops region) t) ∨
  ∃ e l', embeddedRegion f cleanup region (mkSetup o c k l t) = (Err e, mkSetup o (c ++ cleanup) true l' t).
Proof.
  unfold embeddedRegion. do 2 rewrite (run_bind _ _ _ _ _ (run_starts _ _ _ _ _ _)). rewrite M_bind_eq.
  destruct (onError_neutral (orErr (sf_register f region)) (cancels ≫= λ _, closes cleanup) cleanup o c k
    ((l ++ ["build-consumer-" +:+ region]) ++ ["queue-consumer-" +:+ region]) t (neutral_orErr _) (gives_up_closes _)) as [->|[e ->]].
  - left. by rewrite run_starts, <- !app_assoc.
  - right. by do 2 eexists.
Qed.

Lemma run_embeddedRegions cleanup regions o c k l t :
  for_each regions (embeddedRegion f cleanup) (mkSetup o c k l t) = (Ok tt, mkSetup o c k (l ++ (regions ≫= regionLoops)) t) ∨
  ∃ e l', for_each regions (embeddedRegion f cleanup) (mkSetup o c k l t) = (Err e, mkSetup o (c ++ cleanup) true l' t).
Proof.
  revert l. induction regions as [|r rest IH]; intros l; cbn [for_each]; [left; by rewrite app_nil_r|].
  destruct (run_embeddedRegion cleanup r o c k l t) as [E|(e & l' & E)].
  - rewrite (run_bind _ _ _ _ _ E). destruct (IH (l ++ regionLoops r)) as [->|(e & l' & ->)]; [left; cbn; by rewrite <- !app_assoc|].
    right. by do 2 eexists.
  - right. exists e, l'. by rewrite (run_bind_err _ _ _ _ _ E).
Qed.

(** The loops of a started stack. *)
Definition embeddedLoops (regions : list string) : list string :=
  "global-scheduler" :: (regions ≫= regionLoops) ++ ["lease-recovery"; "global-scheduler"].

(** What a start leaves behind. *)
Definition start_ok (store : Store) (cfg : StackConfig) (r : result (list Handle)) (s : Setup) : Prop :=
  match r with
  | Ok cleanup => cleanup ≡ₚ su_opened s ∧ su_closed s = [] ∧ su_cancelled s = false ∧
      su_loops s = embeddedLoops (sc_ExecutionRegions cfg) ∧
      su_store s = (PutAPIKey (bootstrapKey (sf_now f) cfg) store).2
  | Err _ => su_closed s ≡ₚ su_opened s ∧ su_cancelled s = true
  end.

Lemma perm_rev3 (a b c : list Handle) : c ++ b ++ a ≡ₚ (a ++ b) ++ c.
Proof. by rewrite (Permutation_app_comm b a), (Permutation_app_comm c). Qed.

Lemma perm_rot3 (a b c : list Handle) : b ++ c ++ a ≡ₚ (a ++ b) ++ c.
Proof. rewrite <- app_assoc, (Permutation_app_comm a), <- app_assoc. done. Qed.

Lemma run_putBootstrapKey cfg cleanup hs o c k l t :
  gives_up cleanup hs →
  onError (putBootstrapKey f cfg) cleanup (mkSetup o c k l t) =
    (Ok tt, mkSetup o c k l (PutAPIKey (bootstrapKey (sf_now f) cfg) t).2) ∨
  ∃ e, onError (putBootstrapKey f cfg) cleanup (mkSetup o c k l t) = (Err e, mkSetup o (c ++ hs) true l t).
Proof.
  intros Hc. unfold onError, putBootstrapKey. rewrite M_bind_eq. unfold try. rewrite M_bind_eq.
  destruct (sf_putAPIKey f) as [e|]; [|by left]. right. exists e. cbn [orErr fail]. by rewrite M_bind_eq, Hc.
Qed.

Lemma bal_putBootstrapKey cfg : balances (putBootstrapKey f cfg).
Proof. apply bal_bind; [apply bal_neutral, neutral_orErr|]. intros _. by apply bal_same. Qed.

(** The start after the settings have been completed. *)
Lemma run_StartEmbedded store env cfg0 cfg :
  prepareConfig env cfg0 = Ok cfg →
  let '(r, s) := StartEmbedded f env cfg0 (NewSetup store) in start_ok store cfg r s.
Proof.
  intros Hcfg. unfold StartEmbedded. rewrite M_bind_eq. cbn [lift]. rewrite Hcfg. rewrite M_bind_eq. unfold NewSetup.
  destruct (onError_acquires (buildMetadataStore f (sc_PostgresDSN cfg)) cancels [] [] [] false [] store (acquires_meta _) gives_up_cancels)
    as [(meta & ->)|(e & hs & ->)]; [|by split; [cbn; rewrite app_nil_r|]].
  rewrite M_bind_eq. cbn [app].
  destruct (onError_neutral (buildArtifactStore f cfg) (cancels ≫= λ _, closes meta) meta meta [] false [] store (neutral_artifacts _) (gives_up_closes _))
    as [->|[e ->]]; [|by split]. rewrite M_bind_eq.
  destruct (onError_neutral (buildArtifactReplicator f cfg) (cancels ≫= λ _, closes meta) meta meta [] false [] store (neutral_replicator _) (gives_up_closes _))
    as [->|[e ->]]; [|by split]. rewrite M_bind_eq.
  destruct (onError_neutral (secretsProvider f cfg) (cancels ≫= λ _, closes meta) meta meta [] false [] store (neutral_secrets _) (gives_up_closes _))
    as [->|[e ->]]; [|by split]. rewrite M_bind_eq.
  destruct (onError_acquires (buildBuildBus f cfg) (cancels ≫= λ _, closes meta) meta meta [] false [] store (acquires_builds _) (gives_up_closes _))
    as [(builds & ->)|(e & hs & ->)]; [|split; [cbn; apply Permutation_app_comm|done]]. rewrite M_bind_eq.
  destruct (onError_acquires (buildExecutionBus f cfg) (cancels ≫= λ _, closes builds ≫= λ _, closes meta) (builds ++ meta)
    (meta ++ builds) [] false [] store (acquires_executions _) (gives_up_both _ _))
    as [(execs & ->)|(e & hs & ->)]; [|split; [cbn; apply perm_rev3|done]]. cbn zeta. rewrite M_bind_eq.
  destruct (run_putBootstrapKey cfg (cancels ≫= λ _, closes (builds ++ execs ++ meta)) (builds ++ execs ++ meta)
    ((meta ++ builds) ++ execs) [] false [] store (gives_up_closes _))
    as [->|[e ->]]; [|split; [cbn; apply perm_rot3|done]]. rewrite (run_bind _ _ _ _ _ (run_starts _ _ _ _ _ _)), M_bind_eq. cbn [app].
  destruct (run_embeddedRegions (builds ++ execs ++ meta) (sc_ExecutionRegions cfg) ((meta ++ builds) ++ execs) [] false ["global-scheduler"]
    (PutAPIKey (bootstrapKey (sf_now f) cfg) store).2)
    as [->|(e & l' & ->)]; [|split; [cbn; apply perm_rot3|done]].
  do 2 rewrite (run_bind _ _ _ _ _ (run_starts _ _ _ _ _ _)). split_and!; [apply perm_rot3|done|done| |done].
  cbn. by rewrite <- app_assoc.
Qed.

End Facts.

(** The key the start has stored is valid, unless blanks around it keep the
    authentication, which trims the key it is given, from finding it. *)
Lemma bootstrap_valid `{!GoEnv} now cfg store :
  blank (sc_BootstrapAdminAPIKey cfg) = false → TrimSpace (sc_BootstrapAdminAPIKey cfg) = sc_BootstrapAdminAPIKey cfg →
  validKey (PutAPIKey (bootstrapKey now cfg) store).2 (sc_BootstrapAdminAPIKey cfg) = Some (bootstrapKey now cfg).
Proof.
  intros Hb Ht. unfold validKey. cbv zeta. unfold blank in Hb. rewrite Ht in Hb |- *. rewrite Hb.
  change (st_apiKeys _) with (<[apikeyHash (sc_BootstrapAdminAPIKey cfg) := bootstrapKey now cfg]> (st_apiKeys store)).
  rewrite lookup_insert_eq. cbn. by rewrite bool_decide_eq_true_2.
Qed.

(** C38: what a stack opens it closes.  Tracked are the pool of the metadata store,
    the connections of the buses and the pool of [leadership.Run].  A start of the
    embedded stack that fails, at whatever point, has closed exactly the connections
    it opened and cancelled its context, unless the settings were refused before
    there was one; a successful start has closed nothing, runs its loops, has stored
    the bootstrap key, which is then a valid administrator's key provided no blanks
    surround it, and [Close] closes every connection once, also when it is called
    again.  The development stack, the control plane, the build worker, the
    node agent and [leadership.Run] have closed on return exactly what they opened,
    whether they fail during the setup or run until the end, provided that what runs
    in between ([waits]) closes as much as it opens. *)
Theorem stacks_release (E : GoEnv) (f : StartFaults) (MO : MapOrder) (env : string → string) (cfg : StackConfig) (waits : SM unit)
    (tempDir : string) (uid gid : Z) (hostname : result string) (store : Store)
    (Hwaits : balances waits) :
  (let '(r, s) := StartEmbedded f env cfg (NewSetup store) in
   match r with
   | Err _ => su_closed s ≡ₚ su_opened s ∧ (s = NewSetup store ∨ su_cancelled s = true)
   | Ok cleanup =>
       su_closed s = [] ∧ su_cancelled s = false ∧
       (∃ cfg', prepareConfig env cfg = Ok cfg' ∧ su_loops s = embeddedLoops (sc_ExecutionRegions cfg') ∧
          (TrimSpace (sc_BootstrapAdminAPIKey cfg') = sc_BootstrapAdminAPIKey cfg' →
           validKey (su_store s) (sc_BootstrapAdminAPIKey cfg') = Some (bootstrapKey (sf_now f) cfg'))) ∧
       ∃ s', CloseEmbedded cleanup false s = (Ok true, s') ∧ su_closed s' ≡ₚ su_opened s' ∧ su_cancelled s' = true ∧
         CloseEmbedded cleanup true s' = (Ok true, s')
   end) ∧
  Forall (λ run : SM unit, su_closed (run (NewSetup store)).2 ≡ₚ su_opened (run (NewSetup store)).2)
    [RunDevstack f waits env cfg; RunControlPlane f waits env cfg; RunBuildWorker f waits env cfg;
     RunNodeAgent f waits tempDir uid gid env hostname cfg; leading f (sc_PostgresDSN cfg) waits].
Proof.
  assert (Hbal : ∀ run : SM unit, balances run → su_closed (run (NewSetup store)).2 ≡ₚ su_opened (run (NewSetup store)).2).
  { intros run Hr. destruct (Hr (NewSetup store)) as (hs & cs & -> & -> & Hp). by rewrite Hp. }
  assert (Hl : ∀ l, balances (for_each l starts)) by (intros l; apply bal_for_each; intros x; apply bal_starts).
  split.
  - destruct (prepareConfig env cfg) as [cfg'|e] eqn:Ec.
    + pose proof (run_StartEmbedded f store env cfg cfg' Ec) as Hs.
      destruct (StartEmbedded f env cfg (NewSetup store)) as [[cleanup|e] s].
      * destruct Hs as (Hp & Ho & Hk & Hn & Hst). split_and!; [done|done| |].
        { exists cfg'. split_and!; [done|done|]. rewrite Hst. apply bootstrap_valid, ok_admin. by eapply prepareConfig_ok. }
        destruct s as [o c k l t]. cbn in Hp, Ho. subst c.
        eexists. split; [reflexivity|]. split_and!; [exact Hp|done|done].
      * destruct Hs as [? ?]. auto.
    + unfold StartEmbedded. rewrite M_bind_eq. cbn [lift]. rewrite Ec. auto.
  - repeat constructor; apply Hbal.
    + apply bal_bind; [apply bal_lift|]. intros c. apply bal_stores, bal_builds, bal_executions.
      apply bal_bind; [apply bal_neutral; destruct (sc_EnableMTLS c); [apply neutral_orErr|apply neutral_ret]|]. intros _.
      apply bal_bind; [apply bal_putBootstrapKey|]. intros _. by apply bal_bind.
    + apply bal_bind; [apply bal_lift|]. intros c. apply bal_stores, bal_builds, bal_executions.
      apply bal_bind; [apply bal_lift|]. intros _. apply bal_bind; [apply bal_putBootstrapKey|]. intros _. by apply bal_bind.
    + apply bal_bind; [apply bal_lift|]. intros c. by apply bal_stores, bal_builds, bal_leading.
    + apply bal_bind; [apply bal_lift|]. intros c. apply bal_bind; [apply bal_neutral, neutral_artifacts|]. intros _.
      apply bal_bind; [apply bal_lift|]. intros _. by apply bal_bind; [apply bal_lift|].
    + by apply bal_leading.
Qed.

(** A host on which only the migrations fail. *)
Definition demo_faults : StartFaults :=
  mkStartFaults None (Some (plainErr "migration")) None (λ _, None) None None None None None None None (λ _, None)
    (λ _, Ok tt) (λ _, Ok ("1", "1")) None 7.
Definition pg_config : StackConfig := demo_config <| sc_PostgresDSN := "postgres://" |>.

#[local] Existing Instance list_order.
#[local] Existing Instance World.demo_env.

Lemma stacks_release_witness :
  su_opened (RunControlPlane demo_faults (mret tt) StackConfig.demo_env pg_config (NewSetup NewStore)).2 = [PostgresPool] ∧
  su_closed (RunControlPlane demo_faults (mret tt) StackConfig.demo_env pg_config (NewSetup NewStore)).2 ≡ₚ
  su_opened (RunControlPlane demo_faults (mret tt) StackConfig.demo_env pg_config (NewSetup NewStore)).2.
Proof.
  split; [vm_compute; reflexivity|].
  destruct (stacks_release World.demo_env demo_faults list_order StackConfig.demo_env pg_config (mret tt) "/tmp" 1 1 (Ok "h") NewStore)
    as [_ H].
  - intros s. exists [], []. rewrite !app_nil_r. split; [reflexivity|split; [reflexivity|constructor]].
  - rewrite Forall_forall in H. apply (H (RunControlPlane demo_faults (mret tt) StackConfig.demo_env pg_config)). right. left.
Defined.

(** The bootstrap key authenticates its bearer as an administrator. *)
Lemma bootstrap_admin (E : GoEnv) (now : Time) (cfg : StackConfig) (store : Store) (w : World) :
  quiet E → blank (sc_BootstrapAdminAPIKey cfg) = false → TrimSpace (sc_BootstrapAdminAPIKey cfg) = sc_BootstrapAdminAPIKey cfg →
  w_store w = (PutAPIKey (bootstrapKey now cfg) store).2 →
  ∃ w', authenticateAPIKey (sc_BootstrapAdminAPIKey cfg) w = (Ok (inl (mkAuthContext "tenant-dev" true)), w').
Proof.
  intros Hq Hb Ht Hw. pose proof (run_authenticateAPIKey Hq (sc_BootstrapAdminAPIKey cfg) w) as Ha.
  rewrite Hw, bootstrap_valid in Ha by done. destruct Ha as (w' & -> & _). by exists w'.
Qed.

(** ** The regions of a stack *)

Lemma sanitize_default r r' :
  r ∈ DefaultExecutionRegions → r' ∈ DefaultExecutionRegions → regionHost r = regionHost r' → r = r'.
Proof.
  unfold DefaultExecutionRegions. rewrite !elem_of_cons, !elem_of_nil.
  intros [->|[->|[->|[]]]] [->|[->|[->|[]]]] H; vm_compute in H; (reflexivity || discriminate H).
Qed.

(** The regions of a completed configuration have hosts and addresses of their
    own. *)
Lemma local_regions_distinct env cfg cfg' :
  prepareConfig env cfg = Ok cfg' →
  NoDup (lr_host <$> localRegions cfg') ∧ NoDup (lr_addr <$> localRegions cfg') ∧ lr_name <$> localRegions cfg' = sc_ExecutionRegions cfg'.
Proof.
  intros Hc. apply prepareConfig_ok in Hc. pose proof (config_regions _ Hc) as Hlen.
  destruct (ok_regions _ Hc) as (Hn & _ & Hf). unfold localRegions. rewrite !fmap_imap.
  assert (imap (λ n x, (lr_name ∘ (λ name, mkLocalRegion name ("127.0.0.1:" +:+ itoa (int64_of (sc_CoordinatorBasePort cfg' + Z.of_nat n))) (regionHost name))) x)
    (sc_ExecutionRegions cfg') = sc_ExecutionRegions cfg') as En.
  { apply list_eq. intros i. rewrite list_lookup_imap. by destruct (sc_ExecutionRegions cfg' !! i). }
  split_and!; [| |exact En].
  - apply NoDup_alt. intros i j x Hi Hj. rewrite list_lookup_imap_Some in Hi. rewrite list_lookup_imap_Some in Hj.
    destruct Hi as (r & Hi & ->), Hj as (r' & Hj & Hh). cbn in Hh.
    assert (r = r') as ->; [|by eapply NoDup_lookup].
    rewrite Forall_forall in Hf. apply sanitize_default; [| |done]; apply Hf; by eapply list_elem_of_lookup_2.
  - apply NoDup_alt. intros i j x Hi Hj. rewrite list_lookup_imap_Some in Hi. rewrite list_lookup_imap_Some in Hj.
    destruct Hi as (r & Hi & ->), Hj as (r' & Hj & Hh). cbn in Hh. apply append_inj, (inj pretty) in Hh.
    apply lookup_lt_Some in Hi, Hj. eapply int64_offset; [lia|lia|done].
Qed.

(** ** Schedulers *)

Definition schedulersOf (loops : list string) : nat := length (filter (λ name, name = "global-scheduler") loops).

Lemma schedulersOf_app a b : schedulersOf (a ++ b) = schedulersOf a + schedulersOf b.
Proof. unfold schedulersOf. by rewrite filter_app, length_app. Qed.

Lemma schedulersOf_bind (g : string → list string) l : (∀ x, schedulersOf (g x) = 0) → schedulersOf (l ≫= g) = 0.
Proof. intros Hg. induction l as [|x l IH]; [done|].
  change (schedulersOf (g x ++ (l ≫= g)) = 0). by rewrite schedulersOf_app, Hg, IH. Qed.

Lemma schedulersOf_fmap (g : string → string) l : (∀ x, g x ≠ "global-scheduler") → schedulersOf (g <$> l) = 0.
Proof. intros Hg. induction l as [|x l IH]; [done|]. unfold schedulersOf in *. cbn. by rewrite decide_False. Qed.

(** The development stack and the leader of a control plane run one scheduler,
    the build workers none; the embedded stack runs two. *)
Lemma schedulers_started regions :
  schedulersOf (networkedLoops regions) = 1 ∧ schedulersOf (leaderLoops regions) = 1 ∧ schedulersOf (workerLoops regions) = 0 ∧
  schedulersOf (embeddedLoops regions) = 2.
Proof.
  unfold networkedLoops, leaderLoops, workerLoops, embeddedLoops. change (?a :: ?b ++ ?c) with ([a] ++ b ++ c).
  rewrite !schedulersOf_app, !schedulersOf_bind, !schedulersOf_fmap by done. done.
Qed.

(** ** Loops that fail *)

(** The errors the stack shows are the first unexpected ones, in the order in which
    the loops ended, and the context is cancelled exactly when there is one. *)
Lemma embedded_errors capacity loops s :
  let failed := omap (λ l : string * result unit, reported [ContextCanceled] l.1 l.2) loops in
  0 < capacity → su_cancelled s = false →
  ∃ s', embeddedLoopsEnd capacity [] loops s = (Ok (firstn capacity failed), s') ∧
    su_cancelled s' = negb (bool_decide (failed = [])) ∧ su_opened s' = su_opened s ∧ su_closed s' = su_closed s.
Proof.
  cbv zeta. intros Hc Hk.
  assert (∀ errs s, length errs ≤ capacity → su_cancelled s = negb (bool_decide (errs = [])) →
    ∃ s', embeddedLoopsEnd capacity errs loops s =
      (Ok (firstn capacity (errs ++ omap (λ l : string * result unit, reported [ContextCanceled] l.1 l.2) loops)), s') ∧
      su_cancelled s' = negb (bool_decide (errs ++ omap (λ l : string * result unit, reported [ContextCanceled] l.1 l.2) loops = [])) ∧
      su_opened s' = su_opened s ∧ su_closed s' = su_closed s) as Hgen; [|by apply (Hgen []); [cbn; lia|]].
  clear Hk s. induction loops as [|loop rest IH]; intros errs s Hl Hk; cbn [embeddedLoopsEnd omap list_omap].
  { exists s. rewrite app_nil_r, firstn_all2 by done. done. }
  rewrite M_bind_eq. unfold embeddedLoopEnds. destruct (reported [ContextCanceled] loop.1 loop.2) as [e|]; [|by apply IH].
  rewrite M_bind_eq. cbn [cancels modify mret M_ret].
  destruct (bool_decide_reflect (length errs < capacity)) as [Hlt|Hlt].
  - destruct (IH (errs ++ [e]) (s <| su_cancelled := true |>)) as (s' & -> & Hc' & ?); [rewrite length_app; cbn; lia|by destruct errs|].
    exists s'. rewrite <- !app_assoc in *. done.
  - assert (length errs = capacity) as El by lia. destruct errs as [|x errs]; [cbn in El; lia|].
    destruct (IH (x :: errs) (s <| su_cancelled := true |>)) as (s' & -> & Hc' & ?); [lia|done|].
    exists s'. rewrite !firstn_app, !firstn_all2 by lia. rewrite El, Nat.sub_diag. done.
Qed.

(** ** Waiting *)

(** A stack runs while its loops return without an unexpected error; otherwise it
    ends with the error of the first loop that fails, or as the shutdown does if
    its context ends before. *)
Lemma await_spec expected events :
  match awaitStack expected events with
  | None => Forall (λ ev, ∃ name r, ev = LoopReturned name r ∧ reported expected name r = None) events
  | Some res => ∃ before ev after, events = before ++ ev :: after ∧
      Forall (λ ev, ∃ name r, ev = LoopReturned name r ∧ reported expected name r = None) before ∧
      (ev = ContextDone res ∨ ∃ name r e, ev = LoopReturned name r ∧ reported expected name r = Some e ∧ res = Err e)
  end.
Proof.
  induction events as [|[shutdown|name r] rest IH]; cbn; [by constructor|by exists [], (ContextDone shutdown), rest; auto|].
  destruct (reported expected name r) as [e|] eqn:Er; [by exists [], (LoopReturned name r), rest; eauto 10|].
  destruct (awaitStack expected rest) as [res|].
  - destruct IH as (before & ev & after & -> & Hb & Hev). exists (LoopReturned name r :: before), ev, after. split_and!; [done| |done].
    constructor; eauto.
  - constructor; eauto.
Qed.

(** ** Restarted loops *)

(** A turn after which the loop is run again: its context lives, and its body
    returned an error that is not a cancellation. *)
Definition restarts (t : LoopTurn) : bool :=
  match lt_before t, lt_body t, lt_pause t with
  | None, Err e, None => negb (errors_Is e ContextCanceled)
  | _, _, _ => false
  end.

(** The loop goes on exactly while every turn restarts it, and has then run its
    body once per turn; it ends at the first other turn. *)
Lemma restarting_spec turns runs :
  (forallb restarts turns = true → runRestartingLoop turns runs = (None, length turns + runs)) ∧
  (forallb restarts turns = false → ∃ before t after r n, turns = before ++ t :: after ∧ forallb restarts before = true ∧ restarts t = false ∧
     runRestartingLoop turns runs = (Some r, n) ∧ length before + runs ≤ n ≤ S (length before + runs)).
Proof.
  revert runs. induction turns as [|t rest IH]; intros runs; [done|]. cbn [forallb].
  destruct (restarts t) eqn:Et; cbn [andb]; split.
  - intros Hr. destruct (IH (S runs)) as [IH1 _]. specialize (IH1 Hr). cbn [runRestartingLoop]. unfold restarts in Et.
    destruct t as [[?|] [[]|e] [?|]]; try done. cbn in *. apply negb_true_iff in Et. rewrite Et, IH1. f_equal. lia.
  - intros Hr. destruct (IH (S runs)) as [_ IH2]. destruct (IH2 Hr) as (before & t' & after & r & n & -> & Hb & Ht & Hrun & Hn).
    exists (t :: before), t', after, r, n. cbn [app forallb length]. rewrite Et, Hb. split_and!; [done|done|done| |lia|lia].
    cbn [runRestartingLoop]. unfold restarts in Et.
    destruct t as [[?|] [[]|e] [?|]]; try done. cbn in *. apply negb_true_iff in Et. by rewrite Et.
  - done.
  - intros _. exists [], t, rest. cbn [runRestartingLoop app length forallb]. unfold restarts in *.
    destruct t as [[?|] [[]|e] [?|]]; cbn in *; try destruct (errors_Is e ContextCanceled); try done;
      do 2 eexists; (split_and!; [done|done|done|done|lia|lia]).
Qed.
