(* ===== verification/S3.v ===== *)
(** * S3: the object store in an S3 bucket

    Models [internal/artifact/s3store.go].  The service is a parameter
    ([S3Service]): which requests fail, with or without effect, where the reading
    of an object breaks off, and the errors for missing buckets and keys, of which
    only the documented codes in their texts are known.

    [ObjectStore] is the interface [artifact.Store]; the in-memory store and the
    S3 store are its instances.

    Theorem: without faults the S3 store is indistinguishable from the in-memory
    store; with faults, when it still tells the truth. *)

From stdpp Require Import base decidable tactics numbers list gmap strings.
From S2P Require Import Prelude Domain MemStore World Artifacts.

(** ** The interface *)

Class ObjectStore (S : Type) := {
  os_Put : string → string → M S unit;
  os_Get : string → M S string;
}.

Definition MemoryStore : ObjectStore Objects := {| os_Put := objectPut; os_Get := objectGet |}.

(** ** The service *)

Record S3 := mkS3 { s3_buckets : gmap string Objects; s3_calls : nat }.

Class S3Service := {
  s3_fault : nat → option GoError;
  s3_late : nat → bool;
  s3_torn : nat → option GoError;
  s3_headMissing : string → GoError;
  s3_keyMissing : string → string → GoError;
  s3_bucketMissing : string → GoError;
  s3_owned : string → GoError;
  s3_As : GoError → bool;
  s3_head_text b : Contains (Error (s3_headMissing b)) "NotFound" = true;
  s3_key_text b k : Contains (Error (s3_keyMissing b k)) "NoSuchKey" = true;
}.

Section S3.
Context `{!S3Service}.

(** A request: it may fail, before it has an effect or after. *)
Definition s3Request {A} (m : gmap string Objects → result A * gmap string Objects) : M S3 A := λ s,
  let n := s3_calls s in
  match s3_fault n with
  | Some e => (Err e, mkS3 (if s3_late n then (m (s3_buckets s)).2 else s3_buckets s) (S n))
  | None => ((m (s3_buckets s)).1, mkS3 (m (s3_buckets s)).2 (S n))
  end.

Definition HeadBucket (b : string) : M S3 unit :=
  s3Request (λ bs, (match bs !! b with Some _ => Ok tt | None => Err (s3_headMissing b) end, bs)).

Definition CreateBucket (b : string) : M S3 unit :=
  s3Request (λ bs, match bs !! b with Some _ => (Err (s3_owned b), bs) | None => (Ok tt, <[b := ∅]> bs) end).

Definition PutObject (b key data : string) : M S3 unit :=
  s3Request (λ bs, match bs !! b with
                   | None => (Err (s3_bucketMissing b), bs)
                   | Some objs => (Ok tt, <[b := <[key := data]> objs]> bs)
                   end).

Definition GetObject (b key : string) : M S3 string :=
  s3Request (λ bs, (match bs !! b with
                    | None => Err (s3_bucketMissing b)
                    | Some objs => match objs !! key with Some data => Ok data | None => Err (s3_keyMissing b key) end
                    end, bs)).

(** ** [s3store.go] *)

Record S3Config := mkS3Config {
  s3c_Region : string;
  s3c_Endpoint : string;
  s3c_AccessKey : string;
  s3c_SecretKey : string;
  s3c_Bucket : string;
  s3c_PathStyle : bool;
}.

(** The settings the client is built with; [loaded] is whether the SDK's own
    configuration can be read. *)
Definition NewS3Store (loaded : result unit) (cfg : S3Config) : result S3Config :=
  let region := if blank (s3c_Region cfg) then "ap-south-1" else s3c_Region cfg in
  if blank (s3c_Bucket cfg) then Err (plainErr "s3 bucket is required") else
  loaded ≫= λ _,
  mret (mkS3Config region (s3c_Endpoint cfg) (s3c_AccessKey cfg) (s3c_SecretKey cfg) (s3c_Bucket cfg) (s3c_PathStyle cfg)).

(** [errorAs]: only an error that has a method [As] of its own can match. *)
Definition errorAs (e : GoError) : bool := s3_As e.

Definition isObjectNotFound (e : GoError) : bool :=
  errorAs e || errors_Is e ArtifactErrNotFound || Contains (Error e) "NoSuchKey" || Contains (Error e) "NotFound" || Contains (Error e) "404".

Definition EnsureBucket (bucket : string) : M S3 unit :=
  r ← try (HeadBucket bucket);
  match r with
  | Ok _ => mret tt
  | Err e =>
      if negb (Contains (Error e) "NotFound") && negb (Contains (Error e) "404") && negb (Contains (Error e) "NoSuchBucket") && negb (errorAs e)
      then fail e else CreateBucket bucket
  end.

Definition S3Put (bucket key data : string) : M S3 unit := PutObject bucket key data.

(** The body is read after the answer has come. *)
Definition S3Get (bucket key : string) : M S3 string :=
  r ← try (GetObject bucket key);
  match r with
  | Err e => fail (if isObjectNotFound e then wrapErr ArtifactErrNotFound (": " +:+ quote key) else e)
  | Ok data =>
      s ← gets id;
      match s3_torn (s3_calls s) with
      | Some e => fail e
      | None => mret data
      end
  end.

Definition S3Store (bucket : string) : ObjectStore S3 := {| os_Put := S3Put bucket; os_Get := S3Get bucket |}.

End S3.

(** ** Runs *)

Inductive StoreOp := OpPut (key data : string) | OpGet (key : string).

(** What a client of a store sees: [Ok ""] for a successful write. *)
Definition runOp {S} (store : ObjectStore S) (op : StoreOp) (s : S) : result string * S :=
  match op with
  | OpPut key data => let '(r, s') := os_Put key data s in (match r with Ok _ => Ok "" | Err e => Err e end, s')
  | OpGet key => os_Get key s
  end.

Fixpoint runOps {S} (store : ObjectStore S) (ops : list StoreOp) (s : S) : list (result string) * S :=
  match ops with
  | [] => ([], s)
  | op :: rest =>
      let '(r, s1) := runOp store op s in
      let '(rs, s2) := runOps store rest s1 in
      (r :: rs, s2)
  end.

(** ** Without faults *)

Definition faultless (E : S3Service) : Prop := ∀ n, s3_fault n = None ∧ s3_torn n = None.

Section Faultless.
Context (E : S3Service) (HE : faultless E) (bucket : string).

Lemma s3_quiet {A} (m : gmap string Objects → result A * gmap string Objects) s :
  s3Request m s = ((m (s3_buckets s)).1, mkS3 (m (s3_buckets s)).2 (S (s3_calls s))).
Proof. unfold s3Request. by destruct (HE (s3_calls s)) as [-> _]. Qed.

(** One operation. *)
Lemma s3_op op s objs :
  s3_buckets s !! bucket = Some objs →
  let '(rm, objs') := runOp MemoryStore op objs in
  runOp (S3Store bucket) op s = (rm, mkS3 (<[bucket := objs']> (s3_buckets s)) (S (s3_calls s))).
Proof.
  intros Hb. destruct op as [key data|key]; cbn [runOp os_Put os_Get MemoryStore S3Store].
  - unfold S3Put, PutObject. rewrite s3_quiet, Hb. done.
  - unfold S3Get, GetObject, objectGet. rewrite M_bind_eq. unfold try. rewrite s3_quiet, Hb. cbn [fst snd].
    destruct (objs !! key) as [data|]; rewrite insert_id by done.
    + rewrite M_bind_eq. cbn [gets id s3_calls]. by destruct (HE (S (s3_calls s))) as [_ ->].
    + unfold isObjectNotFound. by rewrite s3_key_text, !orb_true_r.
Qed.

End Faultless.

(** C17: without faults the S3 store is the in-memory store.  On an existing bucket
    every sequence of writes and reads returns exactly what the in-memory store
    with the bucket's objects returns, the errors for missing keys included, and
    leaves its objects in the bucket and every other bucket alone; and a bucket
    that is ensured exists and keeps what it had. *)
Theorem s3_refines_memory (E : S3Service) (bucket : string) (ops : list StoreOp) (objs : Objects) (s : S3)
    (HE : faultless E) (Hb : s3_buckets s !! bucket = Some objs) :
  (let '(rm, objs') := runOps MemoryStore ops objs in
   let '(rs, s') := runOps (S3Store bucket) ops s in
   rs = rm ∧ s3_buckets s' = <[bucket := objs']> (s3_buckets s)) ∧
  ∀ b s0, let '(r, s1) := EnsureBucket b s0 in
    r = Ok tt ∧ is_Some (s3_buckets s1 !! b) ∧ ∀ b' o, s3_buckets s0 !! b' = Some o → s3_buckets s1 !! b' = Some o.
Proof.
  split.
  - revert s objs Hb. induction ops as [|op rest IH]; intros s objs Hb; cbn [runOps]; [by rewrite insert_id|].
    pose proof (s3_op E HE bucket op s objs Hb) as Hop. destruct (runOp MemoryStore op objs) as [rm objs1]. rewrite Hop.
    specialize (IH (mkS3 (<[bucket := objs1]> (s3_buckets s)) (S (s3_calls s))) objs1). cbn [s3_buckets] in IH.
    rewrite lookup_insert_eq in IH. specialize (IH eq_refl). destruct (runOps MemoryStore rest objs1) as [rms objs2].
    destruct (runOps (S3Store bucket) rest _) as [rs s2]. destruct IH as [-> ->]. split; [done|]. by rewrite insert_insert_eq.
  - intros b s0. unfold EnsureBucket, HeadBucket, CreateBucket. rewrite M_bind_eq. unfold try. rewrite (s3_quiet E HE). cbn [fst snd].
    destruct (s3_buckets s0 !! b) as [o|] eqn:Eb; cbn.
    + split_and!; [done|by rewrite Eb; eexists|done].
    + rewrite s3_head_text. cbn [negb andb]. rewrite (s3_quiet E HE). cbn. rewrite Eb. cbn. split_and!; [done|rewrite lookup_insert_eq; by eexists|].
      intros b' o Ho. rewrite lookup_insert_ne; [done|]. intros <-. congruence.
Qed.

(** A service that never fails. *)
Definition demo_s3 : S3Service.
Proof.
  refine {|
    s3_fault _ := None; s3_late _ := false; s3_torn _ := None;
    s3_headMissing _ := plainErr "NotFound"; s3_keyMissing _ _ := plainErr "NoSuchKey"; s3_bucketMissing _ := plainErr "NoSuchBucket";
    s3_owned _ := plainErr "BucketAlreadyOwnedByYou"; s3_As _ := false |}; reflexivity.
Defined.

Lemma s3_refines_memory_witness :
  (runOps (@S3Store demo_s3 "b") [OpPut "k" "v"; OpGet "k"; OpGet "x"] (mkS3 {["b" := ∅]} 0)).1 =
  (runOps MemoryStore [OpPut "k" "v"; OpGet "k"; OpGet "x"] ∅).1 ∧
  (runOps MemoryStore [OpPut "k" "v"; OpGet "k"; OpGet "x"] ∅).1 !! 1 = Some (Ok "v").
Proof.
  destruct (s3_refines_memory demo_s3 "b" [OpPut "k" "v"; OpGet "k"; OpGet "x"] ∅ (mkS3 {["b" := ∅]} 0)) as [H _].
  - split; reflexivity.
  - reflexivity.
  - destruct (runOps MemoryStore _ ∅) as [rm objs'] eqn:Em. destruct (runOps (S3Store "b") _ _) as [rs s'].
    destruct H as [-> _]. split; [reflexivity|]. vm_compute in Em. injection Em as <- _. reflexivity.
Defined.

(** ** With faults *)

(** While no failing request looks like a missing object, a read reports a missing
    object only when the bucket does not have it. *)
Lemma s3_not_found_honest (E : S3Service) bucket key s s' objs e :
  (∀ n e, s3_fault n = Some e → isObjectNotFound e = false) →
  (∀ n e, s3_torn n = Some e → errors_Is e ArtifactErrNotFound = false) →
  s3_buckets s !! bucket = Some objs → S3Get bucket key s = (Err e, s') → errors_Is e ArtifactErrNotFound = true →
  objs !! key = None.
Proof.
  intros Hf Ht Hb. unfold S3Get, GetObject, s3Request. rewrite M_bind_eq. unfold try. rewrite Hb. cbv zeta.
  destruct (s3_fault (s3_calls s)) as [e0|] eqn:Ef.
  - cbn. rewrite (Hf _ _ Ef). intros [= <- <-] He. specialize (Hf _ _ Ef). unfold isObjectNotFound in Hf. rewrite He in Hf.
    by rewrite orb_true_r in Hf.
  - cbn. destruct (objs !! key) as [data|]; [|done]. rewrite M_bind_eq. cbn. destruct (s3_torn (S (s3_calls s))) as [e0|] eqn:Et; [|done].
    intros [= <- <-] He. by rewrite (Ht _ _ Et) in He.
Qed.

(** A failing request whose text contains "404" anywhere, its request identifier
    included, is reported as a missing object. *)
Lemma s3_misreported (E : S3Service) bucket key s e :
  s3_fault (s3_calls s) = Some e → Contains (Error e) "404" = true →
  (S3Get bucket key s).1 = Err (wrapErr ArtifactErrNotFound (": " +:+ quote key)).
Proof.
  intros Hf Hc. unfold S3Get, GetObject, s3Request. rewrite M_bind_eq. unfold try. cbv zeta. rewrite Hf. cbn.
  unfold isObjectNotFound. by rewrite Hc, !orb_true_r.
Qed.
