(* ===== verification/Smoke.v ===== *)
(** * Smoke: the client that tests a running system

    Models [internal/smoke/runner.go]: a client that deploys a function through the HTTP
    interface, waits for its build, invokes it, waits for the job and compares what
    it is told.  The server is a parameter: [do] is [client.Do] on a state of any
    type, [waits] the [select] between the ticker and the end of the context;
    encoding and decoding are parameters ([SmokeJson]).

    Theorems: a run that reports success has seen what it promises; a run ends
    when its context does. *)

From stdpp Require Import base decidable tactics numbers list gmap strings.
From S2P Require Import Prelude Domain MemStore World SchedulerFacts Secrets BuildFacts Http HttpApi SecretsWire StackConfig.

(** ** Settings and results *)

Record SmokeConfig := mkSmokeConfig {
  sk_BaseURL : string;
  sk_APIKey : string;
  sk_ProjectID : string;
  sk_Regions : list string;
  sk_Timeout : Duration;
  sk_PollInterval : Duration;
}.

Record SmokeResult := mkSmokeResult {
  sr_BuildJob : BuildJob;
  sr_BuildLogs : string;
  sr_Version : FunctionVersion;
  sr_Job : ExecutionJob;
  sr_ArchivedLogs : string;
  sr_ArchivedOutput : string;
  sr_Attempts : list Attempt;
  sr_Costs : list CostRecord;
  sr_Regions : list Region;
  sr_Hosts : list Host;
  sr_WarmPools : list WarmPool;
}.

(** The reply of the deployed function. *)
Record SmokeBody := mkSmokeBody { sb_OK : bool; sb_Echo : string; sb_Region : string; sb_HostID : string }.

Record SmokeCall := mkSmokeCall {
  sl_Method : string;
  sl_URL : string;
  sl_APIKey : string;
  sl_ContentType : string;
  sl_Body : string;
}.

Class SmokeJson := {
  sm_Deploy : list string → string → result string;
  sm_Invoke : string → string → result string;
  sm_Regions : string → result (list Region);
  sm_Version : string → result FunctionVersion;
  sm_BuildJob : string → result BuildJob;
  sm_Job : string → result ExecutionJob;
  sm_Attempts : string → result (list Attempt);
  sm_Costs : string → result (list CostRecord);
  sm_Hosts : string → result (list Host);
  sm_Pools : string → result (list WarmPool);
  sm_Body : string → result SmokeBody;
  sm_Value : Type;
  sm_Parse : string → result sm_Value;
  sm_DeepEqual : sm_Value → sm_Value → bool;
  sm_NewRequest : string → result unit;
}.

(** The defaults of [Run]. *)
Definition smokeSettings (cfg : SmokeConfig) : result SmokeConfig :=
  regions ← NormalizeExecutionRegions (sk_Regions cfg);
  mret (mkSmokeConfig
    (if blank (sk_BaseURL cfg) then "http://embedded.lecrev" else sk_BaseURL cfg)
    (if blank (sk_APIKey cfg) then "dev-root-key" else sk_APIKey cfg)
    (if blank (sk_ProjectID cfg) then "demo" else sk_ProjectID cfg)
    regions
    (orPositive (sk_Timeout cfg) (20 * Second))
    (orPositive (sk_PollInterval cfg) (100 * Millisecond))).

Definition smokePayload : string :=
  let q := String (Ascii.ascii_of_N 34) "" in
  "{" +:+ q +:+ "hello" +:+ q +:+ ":" +:+ q +:+ "world" +:+ q +:+ "," +:+ q +:+ "smoke" +:+ q +:+ ":true}".

(** [fmt.Errorf(pre + "%w", err)] around a call. *)
Definition errorf {S A} (pre : string) (m : M S A) : M S A :=
  r ← try m;
  match r with
  | Ok a => mret a
  | Err e => fail (wrapText pre e "")
  end.

Section Smoke.
Context `{!SmokeJson} {S : Type} (do : SmokeCall → M S HttpAnswer) (waits : M S (option GoError)).

(** ** Requests *)

(** [doRaw]; a request without a body has no content type. *)
Definition doCall (cfg : SmokeConfig) (method path : string) (payload : option string) (expected : Z) : M S string :=
  let url := trimSlashes (sk_BaseURL cfg) +:+ path in
  lift (sm_NewRequest url) ≫= λ _,
  resp ← do (mkSmokeCall method url (sk_APIKey cfg) (if payload is Some _ then "application/json" else "") (default "" payload));
  raw ← lift (readAll (ha_Body resp));
  if negb (ha_Status resp =? expected)%Z then
    fail (plainErr ("unexpected status " +:+ itoa (ha_Status resp) +:+ " for " +:+ method +:+ " " +:+ path +:+ ": " +:+ TrimSpace raw))
  else mret raw.

Definition doRaw (cfg : SmokeConfig) (path : string) : M S string := doCall cfg "GET" path None 200.

(** [doJSON]: [request] encodes the body, [decode] the answer. *)
Definition doJSON {A} (cfg : SmokeConfig) (method path : string) (request : option (result string)) (expected : Z)
    (decode : string → result A) : M S A :=
  payload ← match request with
            | None => mret None
            | Some encoded => payload ← lift encoded; mret (Some payload)
            end;
  raw ← doCall cfg method path payload expected;
  lift (decode raw).

Definition getJSON {A} (cfg : SmokeConfig) (path : string) (decode : string → result A) : M S A :=
  doJSON cfg "GET" path None 200 decode.

(** ** Polling *)

(** A loop that ends with a value of [turn], or with [timeout] of the context's
    error; [Ok None] is a loop that has used its fuel. *)
Fixpoint poll {A} (fuel : nat) (turn : M S (option A)) (timeout : GoError → GoError) : M S (option A) :=
  match fuel with
  | O => mret None
  | Datatypes.S fuel =>
      r ← turn;
      match r with
      | Some a => mret (Some a)
      | None =>
          ended ← waits;
          match ended with
          | Some e => fail (timeout e)
          | None => poll fuel turn timeout
          end
      end
  end.

Definition buildTurn (cfg : SmokeConfig) (versionID buildJobID : string) : M S (option (BuildJob * FunctionVersion)) :=
  buildJob ← errorf "get build job: " (getJSON cfg ("/v1/build-jobs/" +:+ buildJobID) sm_BuildJob);
  version ← errorf "get function version: " (getJSON cfg ("/v1/functions/" +:+ versionID) sm_Version);
  match fv_State version with
  | FunctionStateReady => mret (Some (buildJob, version))
  | FunctionStateFailed => fail (plainErr ("build job " +:+ bj_ID buildJob +:+ " failed: " +:+ bj_Error buildJob))
  | _ => mret None
  end.

Definition waitForBuildReady (fuel : nat) (cfg : SmokeConfig) (versionID buildJobID : string) :
    M S (option (BuildJob * FunctionVersion)) :=
  poll fuel (buildTurn cfg versionID buildJobID) (λ e, wrapText ("wait for build job " +:+ buildJobID +:+ ": ") e "").

Definition jobTurn (cfg : SmokeConfig) (jobID : string) : M S (option ExecutionJob) :=
  job ← errorf "get job: " (getJSON cfg ("/v1/jobs/" +:+ jobID) sm_Job);
  mret (if bool_decide (job_State job ∈ [JobStateSucceeded; JobStateFailed]) then Some job else None).

Definition waitForJob (fuel : nat) (cfg : SmokeConfig) (jobID : string) : M S (option ExecutionJob) :=
  poll fuel (jobTurn cfg jobID) (λ e, wrapText ("wait for job " +:+ jobID +:+ ": ") e "").

(** The function is warm, or blank-warm with a full network. *)
Definition poolReady (functionVersionID networkPolicy : string) (pools : list WarmPool) : bool :=
  existsb (λ p, bool_decide (wp_FunctionVersionID p = functionVersionID) && (0 <? wp_FunctionWarm p)%Z) pools ||
  bool_decide (networkPolicy = NetworkPolicyFull) &&
    existsb (λ p, bool_decide (wp_FunctionVersionID p = functionVersionID) && (0 <? wp_BlankWarm p)%Z) pools.

Definition poolTurn (cfg : SmokeConfig) (region functionVersionID networkPolicy : string) : M S (option (list WarmPool)) :=
  pools ← errorf "list warm pools: " (getJSON cfg ("/v1/regions/" +:+ region +:+ "/warm-pools") sm_Pools);
  mret (if poolReady functionVersionID networkPolicy pools then Some pools else None).

Definition waitForWarmPool (fuel : nat) (cfg : SmokeConfig) (region functionVersionID networkPolicy : string) :
    M S (option (list WarmPool)) :=
  poll fuel (poolTurn cfg region functionVersionID networkPolicy)
    (λ e, wrapText ("wait for warm pool for " +:+ functionVersionID +:+ " in " +:+ region +:+ ": ") e "").

(** ** Checks *)

Definition jsonEqual (left right : string) : bool :=
  match sm_Parse left, sm_Parse right with
  | Ok l, Ok r => sm_DeepEqual l r
  | _, _ => false
  end.

Definition validateOutput (output payload : string) : result unit :=
  match sm_Body output with
  | Err e => Err (wrapText "decode job output: " e "")
  | Ok body =>
      if negb (sb_OK body) then Err (plainErr ("expected ok=true output, got " +:+ output))
      else if negb (bool_decide (sb_Echo body = payload)) then
        Err (plainErr ("expected echoed payload " +:+ payload +:+ ", got " +:+ sb_Echo body))
      else if blank (sb_Region body) then Err (plainErr "expected non-empty result region")
      else if blank (sb_HostID body) then Err (plainErr "expected non-empty result hostId")
      else Ok tt
  end.

(** The checks of a job that has ended; its result. *)
Definition checkJob (job : ExecutionJob) : result JobResult :=
  if negb (bool_decide (job_State job = JobStateSucceeded)) then
    Err (plainErr ("job " +:+ job_ID job +:+ " ended in state " +:+ jobStateText (job_State job) +:+ ": " +:+ job_Error job))
  else match job_Result job with
  | None => Err (plainErr ("job " +:+ job_ID job +:+ " succeeded without a result"))
  | Some res =>
      if blank (jr_LogsKey res) then Err (plainErr ("job " +:+ job_ID job +:+ " succeeded without an archived logs key"))
      else if blank (jr_OutputKey res) then Err (plainErr ("job " +:+ job_ID job +:+ " succeeded without an archived output key"))
      else validateOutput (jr_Output res) smokePayload ≫= λ _, mret res
  end.

(** ** [Run] *)

(** What is compared and listed once the job has ended. *)
Definition inspectJob (fuel : nat) (cfg : SmokeConfig) (regions : list Region) (buildJob : BuildJob) (buildLogs : string)
    (version : FunctionVersion) (job : ExecutionJob) : M S (option SmokeResult) :=
  res ← lift (checkJob job);
  archivedLogs ← errorf "get archived logs: " (doRaw cfg ("/v1/jobs/" +:+ job_ID job +:+ "/logs"));
  (if bool_decide (archivedLogs = jr_Logs res) then mret tt
   else fail (plainErr ("expected archived logs " +:+ quote (jr_Logs res) +:+ ", got " +:+ quote archivedLogs))) ≫= λ _,
  archivedOutput ← errorf "get archived output: " (doRaw cfg ("/v1/jobs/" +:+ job_ID job +:+ "/output"));
  (if jsonEqual archivedOutput (jr_Output res) then mret tt
   else fail (plainErr ("expected archived output " +:+ jr_Output res +:+ ", got " +:+ archivedOutput))) ≫= λ _,
  attempts ← errorf "list attempts: " (getJSON cfg ("/v1/jobs/" +:+ job_ID job +:+ "/attempts") sm_Attempts);
  (if bool_decide (attempts = []) then fail (plainErr ("job " +:+ job_ID job +:+ " returned no attempts")) else mret tt) ≫= λ _,
  costs ← errorf "list costs: " (getJSON cfg ("/v1/jobs/" +:+ job_ID job +:+ "/costs") sm_Costs);
  (if bool_decide (costs = []) then fail (plainErr ("job " +:+ job_ID job +:+ " returned no cost records")) else mret tt) ≫= λ _,
  let region := if bool_decide (jr_Region res = "") then job_TargetRegion job else jr_Region res in
  (if bool_decide (region = "") then fail (plainErr ("job " +:+ job_ID job +:+ " completed without a target region")) else mret tt) ≫= λ _,
  hosts ← errorf "list hosts: " (getJSON cfg ("/v1/regions/" +:+ region +:+ "/hosts") sm_Hosts);
  pools ← waitForWarmPool fuel cfg region (fv_ID version) (fv_NetworkPolicy version);
  mret (mkSmokeResult buildJob buildLogs version job archivedLogs archivedOutput attempts costs regions hosts <$> pools).

(** [u] and [u']: the two new identifiers. *)
Definition RunSmoke (fuel : nat) (u u' : string) (cfg : SmokeConfig) : M S (option SmokeResult) :=
  cfg ← lift (smokeSettings cfg);
  regions ← errorf "list regions: " (getJSON cfg "/v1/regions" sm_Regions);
  version ← errorf "deploy function: "
    (doJSON cfg "POST" ("/v1/projects/" +:+ sk_ProjectID cfg +:+ "/functions") (Some (sm_Deploy (sk_Regions cfg) ("deploy-" +:+ u))) 201 sm_Version);
  (if blank (fv_BuildJobID version)
   then fail (plainErr ("deployed function version " +:+ fv_ID version +:+ " did not include a build job id")) else mret tt) ≫= λ _,
  built ← waitForBuildReady fuel cfg (fv_ID version) (fv_BuildJobID version);
  match built with
  | None => mret None
  | Some (buildJob, version) =>
      buildLogs ← errorf "get build logs: " (doRaw cfg ("/v1/build-jobs/" +:+ bj_ID buildJob +:+ "/logs"));
      job ← errorf "invoke function: "
        (doJSON cfg "POST" ("/v1/functions/" +:+ fv_ID version +:+ "/invoke") (Some (sm_Invoke smokePayload ("invoke-" +:+ u'))) 202 sm_Job);
      ended ← waitForJob fuel cfg (job_ID job);
      match ended with
      | None => mret None
      | Some job => inspectJob fuel cfg regions buildJob buildLogs version job
      end
  end.

End Smoke.

(** ** What a run has seen *)

Definition smoke_ok `{!SmokeJson} (r : SmokeResult) : Prop :=
  fv_State (sr_Version r) = FunctionStateReady ∧ job_State (sr_Job r) = JobStateSucceeded ∧
  (∃ res body, job_Result (sr_Job r) = Some res ∧ sr_ArchivedLogs r = jr_Logs res ∧
    jsonEqual (sr_ArchivedOutput r) (jr_Output res) = true ∧
    sm_Body (jr_Output res) = Ok body ∧ sb_OK body = true ∧ sb_Echo body = smokePayload ∧
    blank (sb_Region body) = false ∧ blank (sb_HostID body) = false) ∧
  sr_Attempts r ≠ [] ∧ sr_Costs r ≠ [] ∧
  poolReady (fv_ID (sr_Version r)) (fv_NetworkPolicy (sr_Version r)) (sr_WarmPools r) = true.

Section Spec.
Context `{!SmokeJson} {S : Type} (do : SmokeCall → M S HttpAnswer) (waits : M S (option GoError)) (left : S → nat).
(** [left]: the ticks until the context ends.  A request does not add any, and a
    wait after which the context still lives has used one. *)
Context (Hdo : ∀ call s, left (do call s).2 ≤ left s).
Context (Hwaits : ∀ s, left (waits s).2 ≤ left s ∧ ((waits s).1 = Ok None → left (waits s).2 < left s)).

Definition within (n : nat) (s : S) : Prop := left s ≤ n.

(** Whatever is left, nothing is added and the value satisfies [V]. *)
Definition tame {A} (m : M S A) (V : A → Prop) : Prop := ∀ n, keeps (within n) V m.

Lemma tame_ret {A} (a : A) (V : A → Prop) : V a → tame (mret a) V.
Proof. intros Ha n. by apply keeps_ret. Qed.

Lemma tame_fail {A} e (V : A → Prop) : tame (fail e) V.
Proof. intros n. apply keeps_fail. Qed.

Lemma tame_lift {A} (r : result A) : tame (lift r) (λ a, r = Ok a).
Proof. intros n s Hs. done. Qed.

Lemma tame_bind {A B} (m : M S A) (f : A → M S B) P V : tame m P → (∀ a, P a → tame (f a) V) → tame (m ≫= f) V.
Proof. intros Hm Hf n. eapply keeps_bind; [apply Hm|]. intros a Ha. by apply Hf. Qed.

Lemma tame_mono {A} (m : M S A) (P V : A → Prop) : tame m P → (∀ a, P a → V a) → tame m V.
Proof. intros Hm Hi n s Hs. destruct (Hm n s Hs) as [H1 H2]. auto. Qed.

Lemma tame_errorf {A} pre (m : M S A) V : tame m V → tame (errorf pre m) V.
Proof.
  intros Hm n s Hs. unfold errorf. rewrite M_bind_eq. unfold try. destruct (Hm n s Hs) as [H1 H2].
  destruct (m s) as [[a|e] s']; cbn in *; (split; [done|]); [intros ? [= <-]; auto|intros ? [=]].
Qed.

(** A test that ends the run. *)
Lemma tame_guard (b : bool) e (V : unit → Prop) : (b = true → V tt) → tame (if b then mret tt else fail e) V.
Proof. destruct b; intros Hb; [apply tame_ret; auto|apply tame_fail]. Qed.

Lemma tame_doCall cfg method path payload expected : tame (doCall do cfg method path payload expected) (λ _, True).
Proof.
  unfold doCall. cbv zeta. eapply tame_bind; [apply tame_lift|]. intros _ _.
  eapply (tame_bind _ _ (λ _, True)). { intros n s Hs. split; [|done]. unfold within in *. specialize (Hdo (mkSmokeCall method
    (trimSlashes (sk_BaseURL cfg) +:+ path) (sk_APIKey cfg) (if payload is Some _ then "application/json" else "") (default "" payload)) s). lia. }
  intros resp _. eapply tame_bind; [apply tame_lift|]. intros raw _. destruct (negb _); [apply tame_fail|by apply tame_ret].
Qed.

Lemma tame_doJSON {A} cfg method path request expected (decode : string → result A) :
  tame (doJSON do cfg method path request expected decode) (λ _, True).
Proof.
  unfold doJSON. eapply (tame_bind _ _ (λ _, True)).
  - destruct request; [|by apply tame_ret]. eapply tame_bind; [apply tame_lift|]. intros payload _. by apply tame_ret.
  - intros payload _. eapply tame_bind; [apply tame_doCall|]. intros raw _. by eapply tame_mono; [apply tame_lift|].
Qed.

(** A loop with more fuel than ticks ends with a value. *)
Lemma tame_poll {A} (turn : M S (option A)) timeout V fuel n :
  tame turn (λ r, ∀ a, r = Some a → V a) → n < fuel →
  keeps (within n) (λ r, ∃ a, r = Some a ∧ V a) (poll waits fuel turn timeout).
Proof.
  intros Ht. revert n. induction fuel as [|fuel IH]; intros n Hn; [lia|]. cbn [poll]. intros s Hs.
  destruct (Ht n s Hs) as [H1 H2]. rewrite M_bind_eq. destruct (turn s) as [[[a|]|e] s1]; cbn in *; [|..].
  - split; [done|]. intros ? [= <-]. eauto.
  - rewrite M_bind_eq. destruct (Hwaits s1) as [W1 W2]. destruct (waits s1) as [[[e|]|e] s2]; cbn in *.
    + split; [unfold within in *; lia|]. intros ? [=].
    + destruct n as [|n]; [unfold within in *; specialize (W2 eq_refl); lia|].
      destruct (IH n) with (w := s2) as [I1 I2]; [lia|unfold within in *; specialize (W2 eq_refl); lia|]. split; [unfold within in *; lia|exact I2].
    + split; [unfold within in *; lia|]. intros ? [=].
  - split; [done|]. intros ? [=].
Qed.

Lemma tame_buildTurn cfg versionID buildJobID :
  tame (buildTurn do cfg versionID buildJobID) (λ r, ∀ bv, r = Some bv → fv_State bv.2 = FunctionStateReady).
Proof.
  unfold buildTurn. eapply tame_bind; [apply tame_errorf, tame_doJSON|]. intros buildJob _.
  eapply tame_bind; [apply tame_errorf, tame_doJSON|]. intros version _.
  destruct (fv_State version) eqn:E; [by apply tame_ret|apply tame_ret|apply tame_fail]. by intros bv [= <-].
Qed.

Lemma tame_jobTurn cfg jobID : tame (jobTurn do cfg jobID) (λ _, True).
Proof. unfold jobTurn. eapply tame_bind; [apply tame_errorf, tame_doJSON|]. intros job _. by apply tame_ret. Qed.

Lemma tame_poolTurn cfg region fv np : tame (poolTurn do cfg region fv np) (λ r, ∀ pools, r = Some pools → poolReady fv np pools = true).
Proof.
  unfold poolTurn. eapply tame_bind; [apply tame_errorf, tame_doJSON|]. intros pools _. apply tame_ret. intros pools' Hs.
  destruct (poolReady fv np pools) eqn:E; [|done]. by injection Hs as <-.
Qed.

Lemma checkJob_ok job res :
  checkJob job = Ok res →
  job_State job = JobStateSucceeded ∧ job_Result job = Some res ∧
  ∃ body, sm_Body (jr_Output res) = Ok body ∧ sb_OK body = true ∧ sb_Echo body = smokePayload ∧
    blank (sb_Region body) = false ∧ blank (sb_HostID body) = false.
Proof.
  unfold checkJob. case_bool_decide as Es; [|done]. cbn [negb]. destruct (job_Result job) as [r|]; [|done].
  destruct (blank (jr_LogsKey r)); [done|]. destruct (blank (jr_OutputKey r)); [done|].
  intros Hc. apply result_bind_ok in Hc as ([] & Hv & [= <-]). split_and!; [done|done|]. unfold validateOutput in Hv.
  destruct (sm_Body (jr_Output r)) as [body|]; [|done]. exists body. destruct (sb_OK body) eqn:?; [|done]. cbn [negb] in Hv.
  case_bool_decide; [|done]. cbn [negb] in Hv. destruct (blank (sb_Region body)) eqn:?; [done|]. by destruct (blank (sb_HostID body)) eqn:?.
Qed.

(** The last part of a run. *)
Lemma keeps_inspectJob fuel cfg regions buildJob buildLogs version job n :
  n < fuel → fv_State version = FunctionStateReady →
  keeps (within n) (λ r, ∃ x, r = Some x ∧ smoke_ok x) (inspectJob do waits fuel cfg regions buildJob buildLogs version job).
Proof.
  intros Hn Hv. unfold inspectJob. eapply keeps_bind; [apply tame_lift|]. intros res Hres%checkJob_ok. cbv zeta.
  destruct Hres as (Hs & Hr & body & Hb). eapply keeps_bind; [apply tame_errorf, tame_doCall|]. intros logs _.
  eapply keeps_bind; [apply (tame_guard _ _ (λ _, logs = jr_Logs res)); apply bool_decide_eq_true_1|]. intros [] Hlogs.
  eapply keeps_bind; [apply tame_errorf, tame_doCall|]. intros output _.
  eapply keeps_bind; [by apply (tame_guard _ _ (λ _, jsonEqual output (jr_Output res) = true))|]. intros [] Hout.
  eapply keeps_bind; [apply tame_errorf, tame_doJSON|]. intros attempts _.
  eapply (keeps_bind _ _ _ (λ _, attempts ≠ [])); [case_bool_decide; [apply tame_fail|by apply tame_ret]|]. intros [] Ha.
  eapply keeps_bind; [apply tame_errorf, tame_doJSON|]. intros costs _.
  eapply (keeps_bind _ _ _ (λ _, costs ≠ [])); [case_bool_decide; [apply tame_fail|by apply tame_ret]|]. intros [] Hc.
  eapply (keeps_bind _ _ _ (λ _, True)); [case_bool_decide; [apply tame_fail|by apply tame_ret]|]. intros [] _.
  eapply keeps_bind; [apply tame_errorf, tame_doJSON|]. intros hosts _.
  eapply keeps_bind; [apply tame_poll; [apply tame_poolTurn|exact Hn]|]. intros ? (pools & -> & Hp).
  apply keeps_ret. eexists. split; [done|]. split_and!; try done. destruct Hb as (? & ? & ? & ? & ?). exists res, body. by split_and!.
Qed.

Lemma keeps_RunSmoke fuel u u' cfg n :
  n < fuel → keeps (within n) (λ r, ∃ x, r = Some x ∧ smoke_ok x) (RunSmoke do waits fuel u u' cfg).
Proof.
  intros Hn. unfold RunSmoke. eapply keeps_bind; [apply tame_lift|]. intros cfg' _.
  eapply keeps_bind; [apply tame_errorf, tame_doJSON|]. intros regions _.
  eapply keeps_bind; [apply tame_errorf, tame_doJSON|]. intros version _.
  eapply (keeps_bind _ _ _ (λ _, True)); [destruct (blank _); [apply tame_fail|by apply tame_ret]|]. intros [] _.
  eapply keeps_bind; [apply tame_poll; [apply tame_buildTurn|exact Hn]|]. intros ? ([buildJob version'] & -> & Hv). cbn in Hv.
  eapply keeps_bind; [apply tame_errorf, tame_doCall|]. intros logs _.
  eapply keeps_bind; [apply tame_errorf, tame_doJSON|]. intros job _.
  eapply keeps_bind; [apply (tame_poll _ _ (λ _, True)); [eapply tame_mono; [apply tame_jobTurn|done]|exact Hn]|]. intros ? (job' & -> & _).
  by apply keeps_inspectJob.
Qed.

End Spec.

(** The smoke test ends and does not report success for nothing.  With more fuel
    than ticks until the context ends, a run returns a result or an error; a
    result means: the version was ready, the job succeeded, its archived logs and
    output are those of its result, the output echoes the payload and names a
    region and a host, there are attempts and cost records, and the function is
    warm. *)
Theorem smoke_run_spec (J : SmokeJson) {S : Type} (do : SmokeCall → M S HttpAnswer) (waits : M S (option GoError)) (left : S → nat)
    (fuel : nat) (u u' : string) (cfg : SmokeConfig) (s : S)
    (Hdo : ∀ call s, left (do call s).2 ≤ left s)
    (Hwaits : ∀ s, left (waits s).2 ≤ left s ∧ ((waits s).1 = Ok None → left (waits s).2 < left s))
    (Hfuel : left s < fuel) :
  match (RunSmoke do waits fuel u u' cfg s).1 with
  | Ok None => False
  | Ok (Some r) => smoke_ok r
  | Err _ => True
  end.
Proof.
  destruct (keeps_RunSmoke do waits left Hdo Hwaits fuel u u' cfg (left s) Hfuel s) as [_ H]; [unfold within; lia|].
  destruct (RunSmoke do waits fuel u u' cfg s) as [[[r|]|e] s']; cbn in *; [|by destruct (H _ eq_refl) as (? & [=] & _)|done].
  by destruct (H _ eq_refl) as (? & [= <-] & ?).
Qed.
