(* ===== verification/Cli.v ===== *)
(** * Cli: the command line

    Models [cmd/lecrev/main.go]: which process a command starts and with which
    settings, and the smoke test against an embedded stack or a running one.  What
    the flag package makes of the arguments is a parameter.

    Theorem: the settings the command line reads itself are those that
    [prepareConfig] would read. *)

From Stdlib Require Import Ascii.
From stdpp Require Import base decidable tactics numbers list gmap strings.
From S2P Require Import Prelude Text Domain MemStore World SchedulerFacts Secrets Build BuildFacts Http HttpApi MicroVM StackConfig Smoke.

(** [devstack.Config{}] *)
Definition zeroConfig : StackConfig :=
  mkStackConfig false "" [] 0 "" "" "" "" "" "" "" "" ∅ "" "" "" "" "" "" "" "" "" "" false "" "" "" "" "" "" "" 0 0 0 0 0 0 0
    "" "" false "" "" "" "" "" "" "" "" "" "" "" "" 0 "" 0 0 0 0 0 "".

(** [log.Fatalf] ends the process with this text. *)
Definition coordinatorBasePortFromEnv (env : string → string) : result Z :=
  let raw := TrimSpace (env "LECREV_COORDINATOR_BASE_PORT") in
  if bool_decide (raw = "") then Ok 0%Z
  else match Atoi raw with
       | None => Err (wrapText "parse LECREV_COORDINATOR_BASE_PORT: " (atoiErr raw) "")
       | Some value => Ok value
       end.

(** The settings of [devstack] and [control-plane], and of the other processes. *)
Definition serverConfig (env : string → string) : result StackConfig :=
  port ← coordinatorBasePortFromEnv env;
  mret (zeroConfig <| sc_APIAddr := TrimSpace (env "LECREV_API_ADDR") |> <| sc_CoordinatorBasePort := port |>
    <| sc_ExecutionRegions := ParseCSV (env "LECREV_EXECUTION_REGIONS") |>).

Definition workerConfig (env : string → string) : StackConfig :=
  zeroConfig <| sc_ExecutionRegions := ParseCSV (env "LECREV_EXECUTION_REGIONS") |>.

(** The values of the flags of [smoke]. *)
Record SmokeFlags := mkSmokeFlags { sf_api : string; sf_apiKey : string; sf_project : string; sf_regions : string }.

Definition defaultFlags : SmokeFlags := mkSmokeFlags "" "dev-root-key" "demo" "".

(** Where the smoke test is run: against a stack started with these settings, with
    the stack's own key, or against a running system. *)
Inductive SmokeTarget := OnEmbedded (stack : StackConfig) (smoke : string → SmokeConfig) | OnRunning (smoke : SmokeConfig).

Definition runSmoke (flags : SmokeFlags) : SmokeTarget :=
  let regions := ParseCSV (sf_regions flags) in
  if bool_decide (sf_api flags = "") then
    OnEmbedded (zeroConfig <| sc_ExecutionRegions := regions |> <| sc_SecretsBackend := "memory" |>)
      (λ stackKey, mkSmokeConfig "http://embedded.lecrev" stackKey (sf_project flags) regions 0 0)
  else OnRunning (mkSmokeConfig (sf_api flags) (sf_apiKey flags) (sf_project flags) regions 0 0).

(** What [main] does: the usage text and status 2, a fatal error before anything
    is started, or a process. *)
Inductive Command :=
| CmdUsage
| CmdFatal (e : GoError)
| CmdDevstack (cfg : StackConfig)
| CmdControlPlane (cfg : StackConfig)
| CmdBuildWorker (cfg : StackConfig)
| CmdNodeAgent (cfg : StackConfig)
| CmdSmoke (target : SmokeTarget).

(** [parse]: [fs.Parse] of the arguments after [smoke]. *)
Definition mainCommand (parse : list string → result SmokeFlags) (env : string → string) (args : list string) : Command :=
  match args with
  | _ :: command :: rest =>
      let serve f := match serverConfig env with Err e => CmdFatal e | Ok cfg => f cfg end in
      if bool_decide (command = "devstack") then serve CmdDevstack
      else if bool_decide (command = "control-plane") then serve CmdControlPlane
      else if bool_decide (command = "build-worker") then CmdBuildWorker (workerConfig env)
      else if bool_decide (command = "node-agent") then CmdNodeAgent (workerConfig env)
      else if bool_decide (command = "smoke") then
        match parse rest with Err e => CmdFatal e | Ok flags => CmdSmoke (runSmoke flags) end
      else CmdUsage
  | _ => CmdUsage
  end.

(** ** What the settings amount to *)

(** The address and the port that the command line reads itself change nothing:
    completing its settings is completing settings that only name the regions.
    An unreadable port stops both, with the same text. *)
Lemma server_config_redundant env :
  match serverConfig env with
  | Ok cfg => prepareConfig env (cfg <| sc_LoadEnv := true |>) = prepareConfig env ((workerConfig env) <| sc_LoadEnv := true |>)
  | Err e => prepareConfig env ((workerConfig env) <| sc_LoadEnv := true |>) = Err e
  end.
Proof.
  unfold serverConfig, coordinatorBasePortFromEnv. cbv zeta.
  assert (Haddr : envText env true "LECREV_API_ADDR" (TrimSpace (env "LECREV_API_ADDR")) = envText env true "LECREV_API_ADDR" "").
  { unfold envText. cbn [andb]. rewrite (bool_decide_eq_true_2 ("" = "")) by done. by case_bool_decide. }
  set (raw := TrimSpace (env "LECREV_COORDINATOR_BASE_PORT")).
  assert (Hport : ∀ v, (if bool_decide (raw = "") then Ok 0%Z else match Atoi raw with
      | None => Err (wrapText "parse LECREV_COORDINATOR_BASE_PORT: " (atoiErr raw) "") | Some value => Ok value end) = v →
    envInt env true "LECREV_COORDINATOR_BASE_PORT" 0 = v).
  { intros v <-. reflexivity. }
  specialize (Hport _ eq_refl). destruct (if bool_decide (raw = "") then _ else _) as [port|e]; cbn -[prepareConfig].
  - unfold prepareConfig. cbn -[envInt envText envSeconds envBool bucketsOf NormalizeExecutionRegions mbind]. rewrite Hport, (envInt_idem _ _ _ _ _ Hport), Haddr. reflexivity.
  - unfold prepareConfig. cbn -[envInt envText envSeconds envBool bucketsOf NormalizeExecutionRegions mbind]. by rewrite Hport.
Qed.

(** Every known command and nothing else starts a process or the smoke test. *)
Lemma main_usage parse env args :
  mainCommand parse env args = CmdUsage ↔
  ∀ name command rest, args = name :: command :: rest →
    command ∉ ["devstack"; "control-plane"; "build-worker"; "node-agent"; "smoke"].
Proof.
  destruct args as [|name [|command rest]]; [split; [done|by intros _]|split; [done|by intros _]|].
  assert ((∀ name' command' rest', name :: command :: rest = name' :: command' :: rest' →
    command' ∉ ["devstack"; "control-plane"; "build-worker"; "node-agent"; "smoke"]) ↔
    command ∉ ["devstack"; "control-plane"; "build-worker"; "node-agent"; "smoke"]) as ->.
  { split; [intros H; by eapply H|]. by intros H ? ? ? [= <- <- <-]. }
  rewrite !not_elem_of_cons. cbn [mainCommand]. cbv zeta.
  repeat (case_bool_decide; [subst; split; [repeat case_match; done|naive_solver]|]).
  split; [intros _|done]. split_and!; [done..|]. apply not_elem_of_nil.
Qed.
